(* ===== verification/_CoqProject ===== *)
-Q . S2P
Prelude.v
StdOrdered.v
Endian.v
Buffer.v
BufferFacts.v
BufferSpec.v
BufferIO.v
Codec.v
CodecSpec.v
CodecProps.v
BufferWitness.v
Timers.v
TimersSpec.v
TimersProps.v
CString.v
StringUtil.v
StringProps.v
Http.v
HttpSpec.v
HttpProps.v
Http11Tables.v
Http11Parser.v
Http11Safe.v
Http11Spec.v
Http11Props.v
HttpParser.v
HttpParserProps.v
Servlet.v
Address.v
AddressProps.v
Regex.v
Ragel.v
UriMachine.v
Uri.v
UriGrammar.v
UriSpec.v
UriProps.v
ClientMachine.v
ClientGrammar.v
HttpClientParser.v
HttpResponseParser.v
HttpClientSpec.v
HttpClientProps.v
HttpClientRead.v
HttpResponseProps.v
FdManager.v
Socket.v
SocketProps.v
Stream.v
HttpConnection.v
HttpPool.v
HttpPoolProps.v
StreamProps.v
Wire.v
HttpSession.v
HttpSessionProps.v
HttpConnectionProps.v
HttpSessionWitness.v
HttpConnectionWitness.v
Exchange.v
Scheduler.v
SchedulerSpec.v
SchedulerProps.v
IOManager.v
IOManagerSpec.v
IOManagerSteps.v
IOManagerProps.v
Reactor.v
Hook.v
HookProps.v
Config.v
ConfigProps.v
Env.v
SSLSocket.v
TcpServer.v
TcpServerProps.v
Locks.v
Threads.v
Limits.v
Util.v
