(* ===== verification/Prelude.v ===== *)
(** * A verification library for the sylar C++ server framework

    The program (under [src/sylar/]) is a coroutine server framework: a scheduler runs fibers
    and callbacks on a pool of threads, an epoll reactor with timers wakes them up, buffers and
    addresses serve the network layer, and an HTTP layer parses requests, dispatches them to
    servlets and prints responses. This library translates its components into executable
    definitions and proves what makes them correct.

    ** Conventions

    Machine integers are values of [Z] with the wrap-around written out ([u32], [s64], ...);
    bytes are [Byte.byte], strings and memory lists of bytes. An operation returns an [outcome]:
    [Ret], [Throw] (a C++ exception), [Abort] (a failed [SYLAR_ASSERT]), [Undef] (undefined
    behaviour) or [NoFuel]; with a state it is a function of the monad [St] of this file, and the
    state at an exception is kept, as in C++. Pointers that are shared are addresses in an
    explicit store ([heap] of the timers, the fibers of [Fiber.world], the contexts of
    [FdManager], the servlets of the dispatcher). What is not the repository's code is an
    argument: the clock, addresses returned by [new], the kernel's answers, [getaddrinfo],
    [boost::lexical_cast], [fnmatch], the contents of fresh memory.

    ** Parts

    - [Prelude]: outcomes and monads, integers, byte lists, shared tactics; [StdOrdered]:
      [std::set] and [std::map] as sequences under a comparator, against the interface
      [StrictWeakOrder]; [CString]: the C library's character functions.
    - [Endian] (endian.h), [Buffer] (bytearray.h, bytearray.cpp: the chain of blocks and its
      cursor), [Codec] (bytearray.cpp: the typed accessors). [BufferFacts] has the invariant
      [wf], [BufferSpec] the abstract buffer [Flat] and the refinement of every operation,
      [BufferIO] the gather and scatter lists and files, [CodecSpec] the interface [Codec] of
      accessor pairs with its instances and the composition into messages, [CodecProps] and
      [BufferWitness] the theorems and their instances.
    - [Timers] (timer.h, timer.cpp); [TimersSpec], [TimersProps]: the invariant over all
      histories, interleaved where the lock is not held, and which timers fire and when.
    - [Scheduler] (fiber.h, fiber.cpp, scheduler.h, scheduler.cpp): fibers and the loop [run],
      one function per stretch between context switches; [SchedulerSpec]: the threads of a
      scheduler in any order as a step relation with its invariant, and what a step is seen to
      start; [SchedulerProps].
    - [IOManager] (iomanager.h, iomanager.cpp); [IOManagerSpec], [IOManagerSteps],
      [IOManagerProps]: every waiter is scheduled once, taken back, or still waiting, and how far
      the count of pending events is off ([short]).
    - [FdManager] (fd_manager.h, fd_manager.cpp), [Address] (address.h, address.cpp) with
      [AddressProps], [StringUtil] (util.h, util.cpp) with [StringProps].
    - [Http] (http.h, http.cpp) with [HttpSpec] and [HttpProps]; [Http11Tables], [Http11Parser]
      (http11_parser.c: the tables and their interpreter), [Http11Safe] (no access leaves the
      tables), [Http11Spec] (the grammar and the calls a request leads to), [Http11Props];
      [HttpParser] (http_parser.cpp) with [HttpParserProps]: what [HttpRequest::dump] prints is
      parsed back; [Servlet] (servlet.h, servlet.cpp).
    - [Socket] (socket.h, socket.cpp: every operation of [Socket], against the class [Sys] of
      kernel answers), [Stream] (stream.h, stream.cpp, socket_stream.h, socket_stream.cpp: the
      class [Stream] with its fixed-size transfers, and its instance on sockets). [StreamProps]:
      the interface [ByteStream] of a stream that moves bytes, the transfers proved against it,
      sockets proved to be an instance; [Wire]: a concrete peer that discharges the interface.
    - [HttpSession] (http_session.cpp, http_server.cpp): receiving a request in pieces, its body,
      the response, and the loop that serves one connection. [HttpSessionProps]: the loop against
      the interface [SegmentStream], with the parser's and the dispatcher's theorems composed;
      [HttpSessionWitness]: a concrete connection.
    - [Hook] (hook.h, hook.cpp): the system calls that suspend a fiber instead of the thread, as
      the stretches between two suspensions, over [FdManager], [IOManager] and [Timers].
      [HookProps]: what a call waits for, who wakes it, and what its caller is told.
    - [UriMachine] (uri.rl.cc: the goto-coded machine), [Uri] (uri.h, uri.rl.cc: [Create], the
      actions; uri.rl: printing, which the build makes from there, and [dump_rl_cc], the printer of
      the file that is checked in). [Regex]: regular expressions, partial derivatives, and a bisimulation
      check by computation; [UriGrammar]: the grammar of uri.rl; [UriSpec], [UriProps]: the
      machine recognizes it, what it reads, and the lines [toString] prints are read back together.
    - [Ragel]: what the generated machines share, character classes and checks by computation.
      [ClientMachine] (httpclient_parser.c: the goto-coded machine of responses),
      [HttpClientParser] (its state and callbacks), [HttpResponseParser] (http_parser.cpp);
      [ClientGrammar]: the grammar of httpclient_parser.rl; [HttpClientSpec]: the machine is
      bisimilar to the derivatives of the grammar; [HttpClientProps], [HttpClientRead] (what the
      callbacks are given, as preconditions of the rest of the text), [HttpResponseProps].
    - [HttpConnection] (http_connection.h, http_connection.cpp: receiving a response and its body,
      sending, the static requests), [HttpPool] (the pool of connections). [HttpPoolProps] counts
      connections over all histories; [HttpConnectionProps] receives over the interface
      [SegmentStream]; [HttpConnectionWitness]. [SocketProps]: the invariant of sockets.
    - [Config] (config.h, config.cpp: variables, registry, documents, against the class [Yaml]),
      [ConfigProps]; [Env] (env.h, env.cpp).
    - [SSLSocket] (socket.h, socket.cpp: the subclass, against the class [Ssl]).
      [TcpServer] (tcp_server.h, tcp_server.cpp): the server with its sockets as shared objects and
      the functions it schedules; [TcpServerProps]: the effect of every event and the
      references over all orders of calls and scheduled functions, and a concrete network. The loop that serves a client of
      [HttpServer] is [HttpSession.HttpServer].
    - [Locks] (mutex.h, mutex.cpp): scoped locks against the interface [LockLaws] of a lock, its
      instance [CASLock], mutual exclusion. [Threads] (thread.h, thread.cpp): the constructor of
      a thread and the thread it starts, at the same time. [Limits] (http_parser.cpp: the
      configured sizes and their callbacks, which follow the configuration as long as nobody takes
      them away or adds one that may fail). [Util] (util.h,
      util.cpp: the wrappers of the C library).
    - [Reactor] (iomanager.cpp: [idle], [stopping], [tickle]): the rounds of the idle fiber over
      [Timers] and [IOManager], and a step relation of the whole reactor. [Exchange]: a client of
      [HttpConnection] and a server of [HttpSession] at the two ends of a connection.

    ** Theorems

    Refinement: [ByteArray] implements a flat buffer; writing, reading, moving the cursor,
    gathering and scattering. Round trips: the pairs of typed accessors (seventeen of eighteen),
    messages of them, addresses, percent-encoding, requests, responses, the lines of a printed URI,
    command lines. Invariants over all histories, of the scheduler and the timers with every
    interleaving of their steps: the tasks and counters of the scheduler, the pending events of the reactor, the set of
    timers, the connections of a pool, the effect of every call on a server and the sockets it
    refers to, the types of configuration variables. Equivalence: the generated machines of URIs
    and responses decide their grammars.
    Termination: the walk through a document. Liveness: a hooked call that waits is ended by its
    event, or by its timeout; a started thread runs its callback once. Bounds: how long the reactor waits, and that
    no deadline is missed. Composition: a connection is served with the responses of the
    dispatcher to the requests that were sent, in order; a response is received as it was sent; a
    request and its answer from end to end; a round of the reactor over its timers and events; the
    sizes of the parsers follow the configuration. Safety: the table
    interpreter of the request parser; scoped locks exclude each other. Functional behaviour on
    every branch: masks and prefixes, header maps, parameters, connection flags, the dispatcher.
    Errors: the inputs on which the code fails, each proved on the definitions: a request
    delivered in two pieces, a chunked response, a server that is restarted while it stops, a
    descriptor whose events were changed between lookup and lock, a fiber that is resumed before
    it has yielded, a 64-bit value of which 32 bits come back, an event
    that is deleted without being registered, a timer list that is emptied between two locks, a
    URI that is printed with line breaks.

    ** Bounds and fuel

    Loops of the source that are not structural take fuel computed from the data: the length of
    the string or of the key list, the number of blocks a write can touch. The theorems state
    that the operation returns [Ret], so the fuel is enough; [NoFuel] is excluded, not assumed
    away. The walk through a document takes the size of the document; a loop that runs until its
    peer stops takes any fuel beyond the number of pieces the peer sends; an accepting loop is a
    step for each round. [http_parser_execute] and the parsers recurse on the text.

    ** Not modelled

    Logging: a text that is only printed is left out. The mutex, the read-write lock and the spin
    lock of pthread are instances of [Lockable], and threads of the system are events. YAML
    documents, OpenSSL and the kernel are arguments. The release of OpenSSL objects and the
    identity of type names ([TypeToName]) have no state to model. Tests and examples only call
    the library.
    Where a component holds a lock during an operation, the operation is one step; where it
    releases the lock the model has a step for each part. *)

From stdpp Require Export prelude list gmap strings.
From Stdlib Require Export ZArith Lia.
From Stdlib Require Export Strings.Byte.

#[global] Open Scope Z_scope.

Create HintDb sylar.
(** Rewriting rules of the list and memory lemmas. *)
Create Rewrite HintDb sylar_list.

(** ** Machine integers: values in [Z], wrap-around written out *)

Definition uwrap (w z : Z) : Z := z mod 2 ^ w.
Definition swrap (w z : Z) : Z := (z + 2 ^ (w - 1)) mod 2 ^ w - 2 ^ (w - 1).

Abbreviation u8 := (uwrap 8).
Abbreviation u16 := (uwrap 16).
Abbreviation u32 := (uwrap 32).
Abbreviation u64 := (uwrap 64).
Abbreviation s8 := (swrap 8).
Abbreviation s16 := (swrap 16).
Abbreviation s32 := (swrap 32).
Abbreviation s64 := (swrap 64).

Definition fits_u (w z : Z) : Prop := 0 <= z < 2 ^ w.
Definition fits_s (w z : Z) : Prop := - 2 ^ (w - 1) <= z < 2 ^ (w - 1).

(** ** Bytes and character data

    A [char] is a [Byte.byte]; a [std::string] and a memory block are lists of bytes. *)

Definition byte_to_Z (b : byte) : Z := Z.of_N (Byte.to_N b).
Definition byte_of_Z (z : Z) : byte := default x00 (Byte.of_N (Z.to_N (z mod 256))).

(** String literals of the source. *)
Definition lit (s : String.string) : list byte := String.list_byte_of_string s.

#[global] Instance byte_eq_dec : EqDecision byte := Byte.byte_eq_dec.

(** ** Outcomes of an operation

    [Ret]: normal return; [Throw]: a C++ exception; [Abort]: a failed [SYLAR_ASSERT];
    [Undef]: undefined behaviour of the C++ abstract machine; [NoFuel]: the bound given to a
    loop was too small (theorems that equate an operation with [Ret] exclude it). *)

Inductive exn := out_of_range | logic_error | invalid_argument | length_error.

Inductive outcome (A : Type) : Type :=
| Ret (a : A)
| Throw (e : exn)
| Abort
| Undef
| NoFuel.
Arguments Ret {A} a.
Arguments Throw {A} e.
Arguments Abort {A}.
Arguments Undef {A}.
Arguments NoFuel {A}.

#[global] Instance outcome_ret : MRet outcome := fun A a => Ret a.
#[global] Instance outcome_bind : MBind outcome := fun A B f m =>
  match m with
  | Ret a => f a
  | Throw e => Throw e
  | Abort => Abort
  | Undef => Undef
  | NoFuel => NoFuel
  end.

#[global] Instance exn_eq_dec : EqDecision exn.
Proof. solve_decision. Defined.

(** [SYLAR_ASSERT(b)]. *)
Definition sylar_assert (b : bool) : outcome unit := if b then Ret tt else Abort.

(** Dereference of a pointer that may be null. *)
Definition deref {A} (o : option A) : outcome A :=
  match o with Some a => Ret a | None => Undef end.

(** ** State-passing computations

    An operation of an object takes the object's state and returns an outcome with the state
    it leaves behind; the state survives an exception, as it does in the program. *)

Definition ST (S A : Type) : Type := S → outcome A * S.

#[global] Instance st_ret {S} : MRet (ST S) := fun A a s => (Ret a, s).
#[global] Instance st_bind {S} : MBind (ST S) := fun A B f m s =>
  match m s with
  | (Ret a, s') => f a s'
  | (Throw e, s') => (Throw e, s')
  | (Abort, s') => (Abort, s')
  | (Undef, s') => (Undef, s')
  | (NoFuel, s') => (NoFuel, s')
  end.

Definition get {S} : ST S S := fun s => (Ret s, s).
Definition modify {S} (f : S → S) : ST S unit := fun s => (Ret tt, f s).
Definition gets {S A} (f : S → A) : ST S A := fun s => (Ret (f s), s).
Definition lift {S A} (o : outcome A) : ST S A := fun s => (o, s).
Definition throw {S A} (e : exn) : ST S A := fun s => (Throw e, s).

Declare Scope sylar_scope.
Delimit Scope sylar_scope with sylar.
(** The half-open range [[i, i + n)] of a list. *)
Notation "l .[ i , n ]" := (take n (drop i l))
  (at level 1, i at level 200, n at level 200, left associativity, format "l .[ i , n ]")
  : sylar_scope.
#[global] Open Scope sylar_scope.

Lemma st_bind_Ret {S A B} (m : ST S A) (f : A → ST S B) s a s' :
  m s = (Ret a, s') → (m ≫= f) s = f a s'.
Proof. unfold mbind, st_bind. by intros ->. Qed.

Lemma lift_Ret {S A} (o : outcome A) a (s : S) : o = Ret a → lift o s = (Ret a, s).
Proof. by intros ->. Qed.

(** [st_run t] runs the first statement of a sequence, [t] proving what it returns. *)
Tactic Notation "st_run" tactic3(t) := erewrite st_bind_Ret; [| solve [t]]; cbv beta.

Lemma st_bind_inv {S A B} (m : ST S A) (f : A → ST S B) s b s2 :
  (m ≫= f) s = (Ret b, s2) → ∃ a s1, m s = (Ret a, s1) ∧ f a s1 = (Ret b, s2).
Proof.
  unfold mbind, st_bind. destruct (m s) as [[] s1]; intros H; simplify_eq. eauto.
Qed.

Lemma bind_Ret {A B} (a : A) (f : A → outcome B) : (Ret a ≫= f) = f a.
Proof. reflexivity. Qed.

Lemma bind_Ret_inv {A B} (m : outcome A) (f : A → outcome B) b :
  (m ≫= f) = Ret b → ∃ a, m = Ret a ∧ f a = Ret b.
Proof. destruct m; intros H; try discriminate H. by eexists. Qed.

Lemma sylar_assert_Ret b u : sylar_assert b = Ret u → b = true.
Proof. by destruct b. Qed.

(** Splits every hypothesis that says a bind returned. *)
Ltac inv_outcome :=
  repeat match goal with
  | H : (?m ≫= _) = Ret _ |- _ =>
      let a := fresh "a" in let H1 := fresh H in let H2 := fresh H in
      apply bind_Ret_inv in H as (a & H1 & H2)
  | H : sylar_assert _ = Ret _ |- _ => apply sylar_assert_Ret in H
  | H : Ret _ = Ret _ |- _ => injection H as H
  end; simplify_eq/=.

(** Takes apart every hypothesis that says a computation of the state monad returned. *)
Ltac st_inv :=
  repeat match goal with
  | H : (_ ≫= _) _ = (Ret _, _) |- _ =>
      let a := fresh "a" in let s := fresh "s" in let H1 := fresh H in let H2 := fresh H in
      apply st_bind_inv in H as (a & s & H1 & H2); cbv beta in H2
  | H : gets _ _ = (Ret _, _) |- _ => unfold gets in H; injection H as ? ?; subst
  | H : modify _ _ = (Ret _, _) |- _ => unfold modify in H; injection H as ? ?; subst
  | H : mret _ _ = (Ret _, _) |- _ => unfold mret, st_ret in H; injection H as ? ?; subst
  | H : lift _ _ = (Ret _, _) |- _ => unfold lift in H; injection H as ? ?; subst
  end.

(** ** Facts on machine integers *)

Lemma uwrap_small w z : fits_u w z → uwrap w z = z.
Proof. intros. apply Z.mod_small. exact H. Qed.

Lemma uwrap_fits w z : 0 <= w → fits_u w (uwrap w z).
Proof. intros. apply Z.mod_pos_bound. lia. Qed.

Lemma swrap_small w z : 0 < w → fits_s w z → swrap w z = z.
Proof.
  unfold fits_s, swrap. intros Hw H.
  replace (2 ^ w) with (2 * 2 ^ (w - 1)) by (rewrite <- Z.pow_succ_r by lia; f_equal; lia).
  rewrite Z.mod_small; lia.
Qed.

Lemma swrap_fits w z : 0 < w → fits_s w (swrap w z).
Proof.
  unfold fits_s, swrap. intros Hw.
  assert (2 ^ w = 2 * 2 ^ (w - 1)) as E
    by (rewrite <- Z.pow_succ_r by lia; f_equal; lia).
  pose proof (Z.mod_pos_bound (z + 2 ^ (w - 1)) (2 ^ w)). lia.
Qed.

Lemma swrap_uwrap w z : 0 <= w → swrap w (uwrap w z) = swrap w z.
Proof. intros. unfold swrap, uwrap. by rewrite Z.add_mod_idemp_l by lia. Qed.

Lemma uwrap_swrap w z : 0 <= w → uwrap w (swrap w z) = uwrap w z.
Proof.
  intros. unfold swrap, uwrap.
  rewrite Zminus_mod_idemp_l. f_equal. lia.
Qed.

Lemma uwrap_idemp w z : 0 <= w → uwrap w (uwrap w z) = uwrap w z.
Proof. intros. unfold uwrap. by apply Z.mod_mod; lia. Qed.

Lemma byte_to_Z_bounds b : 0 <= byte_to_Z b < 256.
Proof. unfold byte_to_Z. pose proof (Byte.to_N_bounded b). lia. Qed.

Lemma byte_to_of_Z z : byte_to_Z (byte_of_Z z) = z mod 256.
Proof.
  unfold byte_to_Z, byte_of_Z.
  pose proof (Z.mod_pos_bound z 256 eq_refl) as Hb.
  destruct (Byte.of_N (Z.to_N (z mod 256))) as [b|] eqn:E; simpl.
  - apply Byte.to_of_N in E. rewrite E. lia.
  - apply Byte.of_N_None_iff in E. lia.
Qed.

Lemma byte_of_to_Z b : byte_of_Z (byte_to_Z b) = b.
Proof.
  unfold byte_of_Z, byte_to_Z.
  pose proof (Byte.to_N_bounded b).
  rewrite Z.mod_small by lia. rewrite N2Z.id, Byte.of_to_N. reflexivity.
Qed.

Lemma byte_to_Z_inj a b : byte_to_Z a = byte_to_Z b → a = b.
Proof. intros H. rewrite <- (byte_of_to_Z a), <- (byte_of_to_Z b). congruence. Qed.

#[global] Instance byte_countable : Countable byte.
Proof. apply (inj_countable Byte.to_N Byte.of_N), Byte.of_to_N. Defined.

#[export] Hint Resolve byte_to_Z_bounds uwrap_fits swrap_fits : sylar.

(** ** Facts on lists *)

(** Overwriting a block of a memory. *)
Definition overwrite {A} (l : list A) (i : nat) (x : list A) : list A :=
  take i l ++ x ++ drop (i + length x) l.

Lemma length_overwrite {A} (l : list A) i x :
  (i + length x ≤ length l)%nat → length (overwrite l i x) = length l.
Proof. intros. unfold overwrite. rewrite !length_app, length_take, length_drop. lia. Qed.

Lemma overwrite_app_l {A} (l1 l2 : list A) i x :
  (i + length x ≤ length l1)%nat → overwrite (l1 ++ l2) i x = overwrite l1 i x ++ l2.
Proof.
  intros. unfold overwrite.
  rewrite take_app_le, drop_app_le by lia. by rewrite <- !app_assoc.
Qed.

Lemma overwrite_app_r {A} (l1 l2 : list A) i x :
  (length l1 ≤ i)%nat → overwrite (l1 ++ l2) i x = l1 ++ overwrite l2 (i - length l1) x.
Proof.
  intros. unfold overwrite.
  rewrite take_app_ge, drop_app_ge by lia. rewrite <- app_assoc.
  by replace (i + length x - length l1)%nat with (i - length l1 + length x)%nat by lia.
Qed.

(** Two writes in a row are one write of both blocks. *)
Lemma overwrite_split {A} (l : list A) i x y :
  (i ≤ length l)%nat →
  overwrite (overwrite l i x) (i + length x) y = overwrite l i (x ++ y).
Proof.
  intros. assert (length (take i l ++ x) = i + length x)%nat as Hi
    by (rewrite length_app, length_take; lia).
  unfold overwrite at 2. rewrite (app_assoc (take i l)), overwrite_app_r by lia.
  rewrite Hi, Nat.sub_diag. unfold overwrite. simpl.
  rewrite drop_drop, length_app, <- !app_assoc. by rewrite Nat.add_assoc.
Qed.

Lemma overwrite_nil {A} (l : list A) i : overwrite l i [] = l.
Proof. unfold overwrite. simpl. by rewrite Nat.add_0_r, take_drop. Qed.

Lemma take_overwrite {A} (l : list A) i x n :
  (n ≤ i)%nat → (i ≤ length l)%nat → take n (overwrite l i x) = take n l.
Proof.
  intros. unfold overwrite. rewrite take_app_le by (rewrite length_take; lia).
  rewrite take_take. f_equal. lia.
Qed.

Lemma range_overwrite {A} (l : list A) i x :
  (i + length x ≤ length l)%nat → (overwrite l i x).[i, length x] = x.
Proof.
  intros. unfold overwrite. rewrite drop_app_ge by (rewrite length_take; lia).
  rewrite length_take, Nat.min_l, Nat.sub_diag by lia. simpl. apply take_app_length.
Qed.

Lemma drop_overwrite {A} (l : list A) i x n :
  (i + length x ≤ n)%nat → (i + length x ≤ length l)%nat →
  drop n (overwrite l i x) = drop n l.
Proof.
  intros. unfold overwrite. rewrite app_assoc, drop_app_ge by
    (rewrite length_app, length_take; lia).
  rewrite drop_drop, length_app, length_take, Nat.min_l by lia. f_equal. lia.
Qed.

Lemma range_app {A} (l : list A) i n m : l.[i, n + m] = l.[i, n] ++ l.[i + n, m].
Proof. by rewrite <- take_take_drop, drop_drop. Qed.

(** A range inside a chunk is a range of the whole. *)
Lemma range_of_chunk {A} (l x : list A) i n k m :
  x = l.[i, n] → (k + m ≤ n)%nat → x.[k, m] = l.[i + k, m].
Proof.
  intros ->. intros. rewrite skipn_firstn_comm, take_take, drop_drop.
  f_equal. lia.
Qed.

Lemma length_range {A} (l : list A) i n :
  (i + n ≤ length l)%nat → length (l.[i, n]) = n.
Proof. intros. rewrite length_take, length_drop. lia. Qed.

#[export] Hint Rewrite @length_app @length_take @length_drop @length_fmap @length_seq
  @length_insert : sylar_list.
#[export] Hint Rewrite @length_overwrite using lia : sylar_list.

(** Lengths of list expressions, then linear arithmetic. *)
Ltac list_lia := autorewrite with sylar_list in *; lia.

(** ** Sequences of blocks of one length *)

Section chunks.
Context {A : Type} (n : nat).
Implicit Types (ls : list (list A)) (x y : list A).

Definition chunks_of ls : Prop := Forall (fun l => length l = n) ls.

Lemma length_concat_chunks ls : chunks_of ls → length (concat ls) = (length ls * n)%nat.
Proof. induction 1; simpl; [done|]. rewrite length_app. lia. Qed.

Lemma chunk_lookup ls k x :
  chunks_of ls → ls !! k = Some x → x = (concat ls).[k * n, n].
Proof.
  intros H. revert k. induction H as [|y ls Hl H IH]; intros k Hk; [done|].
  destruct k as [|k]; simplify_eq/=.
  - rewrite drop_0. by rewrite take_app_le, take_ge by lia.
  - rewrite drop_app_ge by lia. rewrite (IH k) by done. do 2 f_equal. lia.
Qed.

Lemma chunk_insert ls k x off y :
  chunks_of ls → ls !! k = Some x → (off + length y ≤ n)%nat →
  concat (<[k := overwrite x off y]> ls) = overwrite (concat ls) (k * n + off) y.
Proof.
  intros H. revert k. induction H as [|z ls Hz H IH]; intros k Hk Hy; [done|].
  destruct k as [|k]; simplify_eq/=.
  - rewrite overwrite_app_l by lia. done.
  - rewrite overwrite_app_r by lia. rewrite IH by done. do 2 f_equal. lia.
Qed.
End chunks.

Lemma take_overwrite_grow {A} (m x : list A) p s :
  (p ≤ s)%nat → (s ≤ length m)%nat → (p + length x ≤ length m)%nat →
  take (s `max` (p + length x)) (overwrite m p x) = overwrite (take s m) p x.
Proof.
  intros. unfold overwrite. rewrite take_take, Nat.min_l by lia.
  rewrite (take_app_ge (take p m)) by list_lia. f_equal.
  rewrite take_app_ge by list_lia. f_equal.
  rewrite skipn_firstn_comm. f_equal. list_lia.
Qed.

(** Filters that keep everything, or nothing. *)
Lemma list_filter_all {A} (P : A → Prop) `{∀ x, Decision (P x)} l :
  Forall P l → filter P l = l.
Proof. induction 1; [done|]. rewrite filter_cons_True by done. by f_equal. Qed.

Lemma list_filter_none {A} (P : A → Prop) `{∀ x, Decision (P x)} l :
  Forall (fun x => ¬ P x) l → filter P l = [].
Proof. induction 1; [done|]. by rewrite filter_cons_False. Qed.

Lemma list_filter_iff' {A} (P Q : A → Prop) `{∀ x, Decision (P x), ∀ x, Decision (Q x)} l :
  Forall (fun x => P x ↔ Q x) l → filter P l = filter Q l.
Proof.
  induction 1 as [|x l Hx Hl IH]; [done|]. rewrite !filter_cons, IH.
  repeat case_decide; tauto.
Qed.

(** A decidable property of all 256 bytes, checked by computation. *)
Lemma byte_forall (P : byte → bool) :
  forallb (fun n => P (byte_of_Z (Z.of_nat n))) (seq 0 256) = true → ∀ b, P b = true.
Proof.
  rewrite forallb_forall. intros H b.
  rewrite <- (byte_of_to_Z b). pose proof (byte_to_Z_bounds b).
  rewrite <- (Z2Nat.id (byte_to_Z b)) by lia. apply H, in_seq. lia.
Qed.

Lemma byte_implies (P Q : byte → bool) :
  forallb (fun n => implb (P (byte_of_Z (Z.of_nat n))) (Q (byte_of_Z (Z.of_nat n)))) (seq 0 256) = true →
  ∀ b, P b = true → Q b = true.
Proof.
  intros H b Hb. pose proof (byte_forall (fun b => implb (P b) (Q b)) H b) as Hi.
  simpl in Hi. by rewrite Hb in Hi.
Qed.

(** Disjoint bits add up. *)
Lemma lor_shiftl a b i : 0 <= i → 0 <= a < 2 ^ i → Z.lor a (Z.shiftl b i) = a + b * 2 ^ i.
Proof.
  intros Hi Ha. rewrite <- Z.lxor_lor, <- Z.add_nocarry_lxor, Z.shiftl_mul_pow2; [done|done|..].
  all: apply Z.bits_inj_0; intros m; rewrite Z.land_spec.
  all: destruct (Z.ltb_spec m i); [rewrite Z.shiftl_spec_low by lia; apply andb_false_r|].
  all: rewrite <- (Z.mod_small a (2 ^ i)), Z.mod_pow2_bits_high by lia; done.
Qed.
