(* ===== verification/StdOrdered.v ===== *)
(** * std::set and std::map as ordered sequences

    The framework keeps its timers in a [std::set] and its headers, parameters and cookies in
    [std::map]s, each with a comparator of its own.  The containers are modelled as the
    sequence their iterators enumerate.  The comparator contract of the standard library (a
    strict weak order) is the class [StrictWeakOrder]: every theorem here is proved against
    the class, and [Timer] and [HttpTypes] discharge it for their comparators. *)

From Stdlib Require Import Sorting.Sorted.
From S2P Require Import Prelude.

(** What a comparator promises to the ordered containers ([Compare] of the C++ standard). *)
Class StrictWeakOrder {K : Type} (lt : K → K → bool) : Prop := {
  swo_irrefl a : lt a a = false;
  swo_trans a b c : lt a b = true → lt b c = true → lt a c = true;
  swo_equiv_trans a b c : lt a b = false → lt b c = false → lt a c = false;
}.

(** ** Operations *)

Section operations.
Context {K : Type} (lt : K → K → bool).

(** Equivalence of keys, as the containers see it. *)
Definition equivb (a b : K) : bool := negb (lt a b) && negb (lt b a).

(** [set::insert(x)]: keeps the equivalent element when there is one. *)
Fixpoint set_insert (x : K) (l : list K) : list K :=
  match l with
  | [] => [x]
  | y :: l' => if lt x y then x :: l else if lt y x then y :: set_insert x l' else l
  end.

(** [set::insert(x).first == set::begin()]. *)
Definition set_insert_at_begin (x : K) (l : list K) : bool :=
  match l with [] => true | y :: _ => negb (lt y x) end.

(** [set::find(x)]: the element found, [None] for [end()]. *)
Definition set_find (x : K) (l : list K) : option K :=
  match filter (fun y => equivb x y = true) l with [] => None | y :: _ => Some y end.

(** [set::erase(it)] for the iterator [set::find(x)] returned. *)
Fixpoint set_erase (x : K) (l : list K) : list K :=
  match l with
  | [] => []
  | y :: l' => if equivb x y then l' else y :: set_erase x l'
  end.

(** The elements before [set::lower_bound(x)], and those from it on. *)
Fixpoint lower_bound_split (x : K) (l : list K) : list K * list K :=
  match l with
  | [] => ([], [])
  | y :: l' =>
      if lt y x then let '(a, b) := lower_bound_split x l' in (y :: a, b) else ([], l)
  end.

(** The invariant of the containers. *)
Definition sorted_by (l : list K) : Prop := StronglySorted (fun a b => lt a b = true) l.
End operations.

Section map_operations.
Context {K V : Type} (lt : K → K → bool).

Definition map_find (k : K) (m : list (K * V)) : option (K * V) :=
  match filter (fun kv => equivb lt k kv.1 = true) m with [] => None | kv :: _ => Some kv end.

(** The value a lookup by key sees. *)
Definition map_get (k : K) (m : list (K * V)) : option V := snd <$> map_find k m.

(** [m[k] = v]: the stored key stays, the value is replaced. *)
Fixpoint map_assign (k : K) (v : V) (m : list (K * V)) : list (K * V) :=
  match m with
  | [] => [(k, v)]
  | (k', v') :: m' =>
      if lt k k' then (k, v) :: m
      else if lt k' k then (k', v') :: map_assign k v m'
      else (k', v) :: m'
  end.

(** [m.insert(make_pair(k, v))]: does nothing when the key is there. *)
Fixpoint map_insert (k : K) (v : V) (m : list (K * V)) : list (K * V) :=
  match m with
  | [] => [(k, v)]
  | (k', v') :: m' =>
      if lt k k' then (k, v) :: m
      else if lt k' k then (k', v') :: map_insert k v m'
      else m
  end.

(** [m.erase(k)] by key. *)
Definition map_erase (k : K) (m : list (K * V)) : list (K * V) :=
  filter (fun kv => equivb lt k kv.1 = false) m.

Definition map_sorted (m : list (K * V)) : Prop := sorted_by lt m.*1.
End map_operations.

(** ** Facts about comparators *)

Section comparator.
Context {K : Type} (lt : K → K → bool) `{!StrictWeakOrder lt}.

Lemma swo_asym a b : lt a b = true → lt b a = false.
Proof.
  intros H. destruct (lt b a) eqn:E; [|done].
  pose proof (swo_trans _ _ _ H E). by rewrite swo_irrefl in H0.
Qed.

Lemma equivb_true a b : equivb lt a b = true ↔ lt a b = false ∧ lt b a = false.
Proof. unfold equivb. rewrite andb_true_iff, !negb_true_iff. done. Qed.

#[global] Instance equivb_equivalence : Equivalence (fun a b => equivb lt a b = true).
Proof.
  split.
  - intros a. by rewrite equivb_true, swo_irrefl.
  - intros a b. rewrite !equivb_true. tauto.
  - intros a b c. rewrite !equivb_true. intros [] []. split; eauto using swo_equiv_trans.
Qed.

Lemma equivb_refl a : equivb lt a a = true.
Proof. by rewrite equivb_true, swo_irrefl. Qed.

Lemma lt_equiv_l a b c : equivb lt a b = true → lt a c = lt b c.
Proof.
  rewrite equivb_true. intros [H1 H2].
  destruct (lt a c) eqn:E1, (lt b c) eqn:E2; try done.
  - by rewrite (swo_equiv_trans a b c) in E1.
  - by rewrite (swo_equiv_trans b a c) in E2.
Qed.

Lemma lt_equiv_r a b c : equivb lt a b = true → lt c a = lt c b.
Proof.
  rewrite equivb_true. intros [H1 H2].
  destruct (lt c a) eqn:E1, (lt c b) eqn:E2; try done.
  - by rewrite (swo_equiv_trans c b a) in E1.
  - by rewrite (swo_equiv_trans c a b) in E2.
Qed.

#[global] Instance lt_proper :
  Proper ((fun a b => equivb lt a b = true) ==> (fun a b => equivb lt a b = true) ==> eq) lt.
Proof. intros a b H c d H'. by rewrite (lt_equiv_l a b) , (lt_equiv_r c d). Qed.
End comparator.

(** ** Facts about sets *)

Section set_facts.
Context {K : Type} (lt : K → K → bool) `{!StrictWeakOrder lt}.
Implicit Types (x y : K) (l : list K).

Lemma sorted_by_cons y l :
  sorted_by lt (y :: l) ↔ sorted_by lt l ∧ Forall (fun z => lt y z = true) l.
Proof.
  split; [intros H; inversion H; done | intros [H1 H2]; by constructor].
Qed.

Lemma elem_of_set_insert x y l :
  x ∈ set_insert lt y l → x = y ∨ x ∈ l.
Proof.
  induction l as [|z l IH]; simpl; rewrite ?elem_of_cons; [tauto|].
  destruct (lt y z); [|destruct (lt z y)]; rewrite ?elem_of_cons; tauto.
Qed.

Lemma set_insert_mono x y l : x ∈ l → x ∈ set_insert lt y l.
Proof.
  induction l as [|z l IH]; simpl; rewrite ?elem_of_cons; [tauto|].
  destruct (lt y z); [|destruct (lt z y)]; rewrite ?elem_of_cons; tauto.
Qed.

Lemma set_insert_sorted x l : sorted_by lt l → sorted_by lt (set_insert lt x l).
Proof.
  induction l as [|y l IH]; intros H; simpl.
  - repeat constructor.
  - apply sorted_by_cons in H as [H1 H2].
    destruct (lt x y) eqn:E1.
    + apply sorted_by_cons. split; [by apply sorted_by_cons|].
      constructor; [done|]. eapply Forall_impl; [exact H2|]. simpl. eauto using swo_trans.
    + destruct (lt y x) eqn:E2; [|by apply sorted_by_cons].
      apply sorted_by_cons. split; [by apply IH|].
      apply Forall_forall. intros z [->|Hz]%elem_of_set_insert; [done|].
      rewrite Forall_forall in H2. by apply H2.
Qed.

(** No equivalent element: the new element is inserted. *)
Lemma set_insert_new x l :
  Forall (fun y => equivb lt x y = false) l → set_insert lt x l ≡ₚ x :: l.
Proof.
  induction 1 as [|y l Hy Hl IH]; simpl; [done|].
  destruct (lt x y) eqn:E1; [done|]. destruct (lt y x) eqn:E2.
  - rewrite IH. apply Permutation_swap.
  - unfold equivb in Hy. by rewrite E1, E2 in Hy.
Qed.

Lemma set_insert_at_begin_spec x l :
  sorted_by lt l → Forall (fun y => equivb lt x y = false) l →
  set_insert_at_begin lt x l = true ↔ head (set_insert lt x l) = Some x.
Proof.
  destruct l as [|y l]; intros Hs Hn; simpl; [done|].
  apply Forall_cons in Hn as [Hy _]. unfold equivb in Hy.
  destruct (lt x y) eqn:E1.
  - by rewrite (swo_asym lt x y).
  - destruct (lt y x) eqn:E2; [|done]. simpl.
    split; [done|]. intros [= ->]. by rewrite swo_irrefl in E2.
Qed.

Lemma sorted_by_equiv_unique l x y :
  sorted_by lt l → x ∈ l → y ∈ l → equivb lt x y = true → x = y.
Proof.
  induction l as [|z l IH]; intros Hs Hx Hy E; [set_solver|].
  apply sorted_by_cons in Hs as [Hs Hz]. rewrite Forall_forall in Hz.
  pose proof E as [E1 E2]%equivb_true.
  apply elem_of_cons in Hx as [->|Hx], Hy as [->|Hy]; try done; auto.
  - by rewrite Hz in E1.
  - by rewrite Hz in E2.
Qed.

Lemma set_find_elem x l :
  sorted_by lt l → x ∈ l → set_find lt x l = Some x.
Proof.
  intros Hs Hx. unfold set_find.
  destruct (filter _ l) as [|y r] eqn:E.
  - assert (x ∈ filter (fun y => equivb lt x y = true) l) as H; [|rewrite E in H; set_solver].
    apply list_elem_of_filter. split; [|done]. apply equivb_refl; done.
  - assert (y ∈ filter (fun y => equivb lt x y = true) l) as [Hy Hyl]%list_elem_of_filter
      by (rewrite E; set_solver).
    f_equal. symmetry. by eapply sorted_by_equiv_unique.
Qed.

Lemma set_find_None x l :
  set_find lt x l = None → Forall (fun y => equivb lt x y = false) l.
Proof.
  unfold set_find. intros H. apply Forall_forall. intros y Hy.
  destruct (equivb lt x y) eqn:E; [|done].
  assert (y ∈ filter (fun y => equivb lt x y = true) l) as Hf
    by (apply list_elem_of_filter; done).
  destruct (filter _ l); [set_solver|done].
Qed.

Lemma elem_of_set_erase x y l : y ∈ set_erase lt x l → y ∈ l.
Proof.
  induction l as [|z l IH]; simpl; [done|]. destruct (equivb lt x z); rewrite ?elem_of_cons; tauto.
Qed.

Lemma set_erase_sorted x l : sorted_by lt l → sorted_by lt (set_erase lt x l).
Proof.
  induction l as [|y l IH]; intros H; simpl; [done|].
  apply sorted_by_cons in H as [H1 H2]. destruct (equivb lt x y); [done|].
  apply sorted_by_cons. split; [by apply IH|].
  rewrite Forall_forall in *. eauto using elem_of_set_erase.
Qed.

Lemma set_erase_perm x l :
  sorted_by lt l → x ∈ l → x :: set_erase lt x l ≡ₚ l.
Proof.
  induction l as [|y l IH]; intros Hs Hx; [set_solver|]. simpl.
  destruct (equivb lt x y) eqn:E.
  - by rewrite (sorted_by_equiv_unique (y :: l) x y) by (done || set_solver).
  - apply sorted_by_cons in Hs as [Hs _].
    apply elem_of_cons in Hx as [->|Hx].
    + by rewrite (equivb_refl lt) in E.
    + rewrite Permutation_swap. by rewrite IH.
Qed.

Lemma lower_bound_split_app x l a b :
  lower_bound_split lt x l = (a, b) → l = a ++ b.
Proof.
  revert a b. induction l as [|y l IH]; simpl; intros a b H; [by simplify_eq|].
  destruct (lt y x); [|by simplify_eq].
  destruct (lower_bound_split lt x l) as [a' b'] eqn:E. simplify_eq/=. f_equal. by apply IH.
Qed.

(** [lower_bound] splits a set at the first element that is not less than [x]. *)
Lemma lower_bound_split_spec x l a b :
  sorted_by lt l → lower_bound_split lt x l = (a, b) →
  Forall (fun y => lt y x = true) a ∧ Forall (fun y => lt y x = false) b.
Proof.
  revert a b. induction l as [|y l IH]; simpl; intros a b Hs H; [by simplify_eq|].
  apply sorted_by_cons in Hs as [Hs Hy].
  destruct (lt y x) eqn:Eyx.
  - destruct (lower_bound_split lt x l) as [a' b'] eqn:E. simplify_eq/=.
    destruct (IH a' b) as [Ha Hb]; [done..|]. auto.
  - simplify_eq. split; [done|]. constructor; [done|].
    rewrite Forall_forall in *. intros z Hz.
    destruct (lt z x) eqn:Ezx; [|done].
    by rewrite (swo_trans y z x) in Eyx by auto.
Qed.

Lemma sorted_by_app l1 l2 :
  sorted_by lt (l1 ++ l2) → sorted_by lt l1 ∧ sorted_by lt l2.
Proof.
  induction l1 as [|y l1 IH]; simpl; intros H; [split; [constructor|done]|].
  apply sorted_by_cons in H as [H Hy]. apply Forall_app in Hy as [Hy1 _].
  destruct (IH H). split; [by apply sorted_by_cons|done].
Qed.

Lemma sorted_by_NoDup l : sorted_by lt l → NoDup l.
Proof.
  induction l as [|y l IH]; intros H; [constructor|].
  apply sorted_by_cons in H as [H Hy]. constructor; [|by apply IH].
  intros Hin. rewrite Forall_forall in Hy. pose proof (Hy y Hin) as E.
  by rewrite swo_irrefl in E.
Qed.
End set_facts.

(** A set stays sorted under a second comparator that agrees with the first on its elements. *)
Lemma sorted_by_agree {K} (lt1 lt2 : K → K → bool) l :
  (∀ a b, a ∈ l → b ∈ l → lt1 a b = lt2 a b) → sorted_by lt1 l → sorted_by lt2 l.
Proof.
  induction l as [|y l IH]; intros Ha H; [constructor|].
  inversion H as [|? ? Hs Hf]; subst. constructor.
  - apply IH; [|done]. intros. apply Ha; set_solver.
  - rewrite Forall_forall in *. intros z Hz. rewrite <- Ha by set_solver. auto.
Qed.

(** ** Facts about maps *)

Section map_facts.
Context {K V : Type} (lt : K → K → bool) `{!StrictWeakOrder lt}.
Implicit Types (k : K) (v : V) (m : list (K * V)).

Lemma map_get_nil k : map_get (V:=V) lt k [] = None.
Proof. done. Qed.

Lemma map_get_cons k k0 v0 m :
  map_get lt k ((k0, v0) :: m) = if equivb lt k k0 then Some v0 else map_get lt k m.
Proof.
  unfold map_get, map_find. rewrite filter_cons. simpl.
  destruct (equivb lt k k0); case_decide; done.
Qed.

Lemma equivb_sym a b : equivb lt a b = equivb lt b a.
Proof. unfold equivb. apply andb_comm. Qed.

(** Equivalent keys are interchangeable in a comparison. *)
Lemma equivb_cong a b c : equivb lt a b = true → equivb lt c a = equivb lt c b.
Proof.
  intros H. unfold equivb. by rewrite (lt_equiv_l lt a b), (lt_equiv_r lt a b).
Qed.

Lemma map_get_equiv k k' m : equivb lt k k' = true → map_get lt k m = map_get lt k' m.
Proof.
  intros H. induction m as [|[k0 v0] m IH]; [done|]. rewrite !map_get_cons, IH.
  by rewrite (equivb_sym k), (equivb_sym k'), (equivb_cong k k').
Qed.

Lemma map_get_assign k k' v m :
  map_get lt k' (map_assign lt k v m) = if equivb lt k' k then Some v else map_get lt k' m.
Proof.
  induction m as [|[k0 v0] m IH]; simpl; [by rewrite map_get_cons|].
  destruct (lt k k0) eqn:E1; [by rewrite map_get_cons|].
  destruct (lt k0 k) eqn:E2; rewrite !map_get_cons, ?IH.
  - destruct (equivb lt k' k0) eqn:E3; [|done].
    destruct (equivb lt k' k) eqn:E4; [|done].
    apply equivb_true in E3 as [H1 H2], E4 as [H3 H4].
    by rewrite (swo_equiv_trans k0 k' k) in E2.
  - assert (equivb lt k k0 = true) as E by (by apply equivb_true).
    rewrite (equivb_cong k k0) by done. by destruct (equivb lt k' k0).
Qed.

Lemma map_get_erase k k' m :
  map_get lt k' (map_erase lt k m) = if equivb lt k' k then None else map_get lt k' m.
Proof.
  unfold map_erase. induction m as [|[k0 v0] m IH]; simpl; [by destruct (equivb lt k' k)|].
  rewrite filter_cons. simpl. destruct (equivb lt k k0) eqn:E.
  - rewrite decide_False, IH, map_get_cons by done.
    rewrite (equivb_cong k k0) by done. by destruct (equivb lt k' k0).
  - rewrite decide_True, !map_get_cons, IH by done.
    destruct (equivb lt k' k0) eqn:E1, (equivb lt k' k) eqn:E2; try done.
    rewrite equivb_sym in E1, E2. rewrite (equivb_sym k k0), <- (equivb_cong k' k) in E; [|by rewrite equivb_sym].
    by rewrite E1 in E.
Qed.

Lemma map_assign_keys k v m : (map_assign lt k v m).*1 = set_insert lt k m.*1.
Proof.
  induction m as [|[k0 v0] m IH]; csimpl; [done|].
  destruct (lt k k0); [done|]. destruct (lt k0 k); csimpl; [by rewrite IH|done].
Qed.

Lemma map_insert_keys k v m : (map_insert lt k v m).*1 = set_insert lt k m.*1.
Proof.
  induction m as [|[k0 v0] m IH]; csimpl; [done|].
  destruct (lt k k0); [done|]. destruct (lt k0 k); csimpl; [by rewrite IH|done].
Qed.

Lemma map_assign_sorted k v m : map_sorted lt m → map_sorted lt (map_assign lt k v m).
Proof. unfold map_sorted. rewrite map_assign_keys. by apply set_insert_sorted. Qed.

Lemma map_insert_sorted k v m : map_sorted lt m → map_sorted lt (map_insert lt k v m).
Proof. unfold map_sorted. rewrite map_insert_keys. by apply set_insert_sorted. Qed.

Lemma map_erase_sorted k m : map_sorted lt m → map_sorted lt (map_erase lt k m).
Proof.
  unfold map_sorted, map_erase. induction m as [|[k0 v0] m IH]; simpl; intros H; [done|].
  apply sorted_by_cons in H as [H Hf]. rewrite filter_cons. case_decide; simpl; [|by apply IH].
  apply sorted_by_cons. split; [by apply IH|]. rewrite Forall_forall in *.
  intros z Hz. apply list_elem_of_fmap in Hz as (kv & -> & [_ Hkv]%list_elem_of_filter).
  by apply Hf, list_elem_of_fmap_2.
Qed.

(** A key below all others is not there. *)
Lemma map_get_below k m :
  map_sorted lt m → (∀ k0, head m.*1 = Some k0 → lt k k0 = true) → map_get lt k m = None.
Proof.
  intros Hs Hk. destruct m as [|[k0 v0] m]; [done|]. specialize (Hk k0 eq_refl).
  assert (∀ k1, k1 ∈ k0 :: m.*1 → equivb lt k k1 = false) as Hall.
  { intros k1 Hin. apply not_true_iff_false. rewrite equivb_true. intros [H1 _].
    apply sorted_by_cons in Hs as [_ Hf]. rewrite Forall_forall in Hf.
    apply elem_of_cons in Hin as [->|Hin]; [by rewrite Hk in H1|].
    by rewrite (swo_trans k k0 k1) in H1 by auto. }
  clear Hs Hk. revert k0 v0 Hall. induction m as [|[k1 v1] m IH]; intros k0 v0 Hall.
  - rewrite map_get_cons, Hall by set_solver. done.
  - rewrite map_get_cons, Hall by set_solver. apply IH. set_solver.
Qed.

Lemma map_get_insert k k' v m :
  map_sorted lt m →
  map_get lt k' (map_insert lt k v m)
  = if equivb lt k' k then Some (default v (map_get lt k m)) else map_get lt k' m.
Proof.
  induction m as [|[k0 v0] m IH]; intros Hs; simpl; [by rewrite map_get_cons|].
  pose proof Hs as Hs0. apply sorted_by_cons in Hs as [Hs Hf].
  destruct (lt k k0) eqn:E1.
  { rewrite map_get_cons. rewrite (map_get_below k ((k0, v0) :: m)); [done|done|].
    by intros ? [= <-]. }
  destruct (lt k0 k) eqn:E2; rewrite !map_get_cons, ?IH by done.
  - assert (equivb lt k k0 = false) as -> by (unfold equivb; by rewrite E2, andb_false_r).
    destruct (equivb lt k' k0) eqn:E3; [|done].
    destruct (equivb lt k' k) eqn:E4; [|done].
    apply equivb_true in E3 as [H1 H2], E4 as [H3 H4].
    by rewrite (swo_equiv_trans k0 k' k) in E2.
  - assert (equivb lt k k0 = true) as E by (by apply equivb_true).
    rewrite E, (equivb_cong k k0) by done. by destruct (equivb lt k' k0).
Qed.
End map_facts.
