(* ===== verification/Endian.v ===== *)
(** * Byte order (sylar/endian.h)

    Object representations of the fixed-width integers, [byteswap], and the two byte orders.
    The byte order of the machine is not fixed by the source: [SYLAR_BYTE_ORDER] is a field of
    the class [Host], and everything that goes through memory is stated for both hosts. *)

From S2P Require Import Prelude.

Definition SYLAR_LITTLE_ENDIAN : Z := 1.
Definition SYLAR_BIG_ENDIAN : Z := 2.

(** The preprocessor's choice, which on a supported compiler is the machine's byte order. *)
Class Host := {
  SYLAR_BYTE_ORDER : Z;
  SYLAR_BYTE_ORDER_ok :
    SYLAR_BYTE_ORDER = SYLAR_LITTLE_ENDIAN ∨ SYLAR_BYTE_ORDER = SYLAR_BIG_ENDIAN;
}.

(** The bytes of an [n]-byte integer, least significant first, and back. *)
Fixpoint le_split (n : nat) (z : Z) : list byte :=
  match n with O => [] | S n' => byte_of_Z z :: le_split n' (z / 256) end.

Fixpoint le_join (l : list byte) : Z :=
  match l with [] => 0 | b :: l' => byte_to_Z b + 256 * le_join l' end.

(** [bswap_16], [bswap_32], [bswap_64] on [n]-byte unsigned integers. *)
Definition bswap (n : nat) (z : Z) : Z := le_join (rev (le_split n z)).

(** [byteswap<T>] for the unsigned type of [n] bytes and for the signed one: the value is
    cast to the unsigned type, swapped, and cast back. *)
Definition byteswap_u (n : nat) (value : Z) : Z := bswap n (uwrap (8 * Z.of_nat n) value).
Definition byteswap_s (n : nat) (value : Z) : Z :=
  swrap (8 * Z.of_nat n) (bswap n (uwrap (8 * Z.of_nat n) value)).

(** [byteswapOnLittleEndian] and [byteswapOnBigEndian] of a little-endian host. *)
Definition byteswapOnLittleEndian (n : nat) (t : Z) : Z := byteswap_u n t.
Definition byteswapOnBigEndian (t : Z) : Z := t.

(** The object representation of an [n]-byte integer on the host: what [memcpy] sees. *)
Definition to_mem `{Host} (n : nat) (v : Z) : list byte :=
  if bool_decide (SYLAR_BYTE_ORDER = SYLAR_LITTLE_ENDIAN) then le_split n v
  else rev (le_split n v).

Definition from_mem `{Host} (l : list byte) : Z :=
  if bool_decide (SYLAR_BYTE_ORDER = SYLAR_LITTLE_ENDIAN) then le_join l
  else le_join (rev l).

(** The encoding of an [n]-byte integer in a given byte order. *)
Definition encode_int (endian : Z) (n : nat) (v : Z) : list byte :=
  if bool_decide (endian = SYLAR_LITTLE_ENDIAN) then le_split n v else rev (le_split n v).

Definition decode_int (endian : Z) (l : list byte) : Z :=
  if bool_decide (endian = SYLAR_LITTLE_ENDIAN) then le_join l else le_join (rev l).

(** ** Facts *)

Lemma length_le_split n z : length (le_split n z) = n.
Proof. revert z. induction n as [|n IH]; intros z; simpl; [done|]. by rewrite IH. Qed.

Lemma le_join_split n z : le_join (le_split n z) = uwrap (8 * Z.of_nat n) z.
Proof.
  revert z. induction n as [|n IH]; intros z; simpl.
  - unfold uwrap. by rewrite Z.mod_1_r.
  - rewrite byte_to_of_Z, IH. unfold uwrap.
    replace (2 ^ (8 * Z.of_nat (S n))) with (256 * 2 ^ (8 * Z.of_nat n)).
    + rewrite Z.rem_mul_r by lia. lia.
    + change 256 with (2 ^ 8). rewrite <- Z.pow_add_r by lia. f_equal. lia.
Qed.

Lemma le_split_join l : le_split (length l) (le_join l) = l.
Proof.
  induction l as [|b l IH]; simpl; [done|].
  pose proof (byte_to_Z_bounds b).
  replace ((byte_to_Z b + 256 * le_join l) / 256) with (le_join l).
  - rewrite IH. f_equal. apply byte_to_Z_inj. rewrite byte_to_of_Z.
    rewrite (Z.mul_comm 256), Z.mod_add, Z.mod_small by lia. done.
  - rewrite (Z.mul_comm 256), Z.div_add, Z.div_small by lia. lia.
Qed.

Lemma le_join_fits l : fits_u (8 * Z.of_nat (length l)) (le_join l).
Proof.
  rewrite <- (le_split_join l) at 2. rewrite le_join_split. apply uwrap_fits. lia.
Qed.

Lemma le_split_uwrap n z : le_split n (uwrap (8 * Z.of_nat n) z) = le_split n z.
Proof.
  rewrite <- (le_split_join (le_split n z)), length_le_split, le_join_split. done.
Qed.

Lemma le_split_swrap n z : le_split n (swrap (8 * Z.of_nat n) z) = le_split n z.
Proof. rewrite <- le_split_uwrap, uwrap_swrap, le_split_uwrap by lia. done. Qed.

Lemma le_split_bswap n z : le_split n (bswap n z) = rev (le_split n z).
Proof.
  unfold bswap. rewrite <- (length_le_split n z) at 1. rewrite <- length_rev.
  apply le_split_join.
Qed.

Lemma bswap_fits n z : fits_u (8 * Z.of_nat n) (bswap n z).
Proof.
  unfold bswap. pose proof (le_join_fits (rev (le_split n z))) as H.
  by rewrite length_rev, length_le_split in H.
Qed.

Lemma bswap_bswap n z : bswap n (bswap n z) = uwrap (8 * Z.of_nat n) z.
Proof. unfold bswap at 1. by rewrite le_split_bswap, rev_involutive, le_join_split. Qed.

Lemma byteswap_u_fits n z : fits_u (8 * Z.of_nat n) (byteswap_u n z).
Proof. apply bswap_fits. Qed.

Lemma byteswap_u_involutive n z :
  fits_u (8 * Z.of_nat n) z → byteswap_u n (byteswap_u n z) = z.
Proof.
  intros. unfold byteswap_u. rewrite (uwrap_small _ z) by done.
  rewrite uwrap_small by apply bswap_fits. by rewrite bswap_bswap, uwrap_small.
Qed.

Lemma byteswap_s_involutive n z :
  (0 < n)%nat → fits_s (8 * Z.of_nat n) z → byteswap_s n (byteswap_s n z) = z.
Proof.
  intros. unfold byteswap_s. rewrite uwrap_swrap by lia.
  rewrite (uwrap_small _ (bswap _ _)) by apply bswap_fits.
  rewrite bswap_bswap, uwrap_idemp, swrap_uwrap by lia. apply swrap_small; [lia|done].
Qed.

Section host.
Context `{Host}.

Lemma length_to_mem n v : length (to_mem n v) = n.
Proof. unfold to_mem. case_bool_decide; rewrite ?length_rev; apply length_le_split. Qed.

Lemma from_to_mem n v : from_mem (to_mem n v) = uwrap (8 * Z.of_nat n) v.
Proof.
  unfold from_mem, to_mem. case_bool_decide; rewrite ?rev_involutive; apply le_join_split.
Qed.

Lemma to_mem_byteswap_u n v : to_mem n (byteswap_u n v) = rev (to_mem n v).
Proof.
  unfold to_mem, byteswap_u.
  case_bool_decide; by rewrite le_split_bswap, le_split_uwrap.
Qed.

Lemma to_mem_byteswap_s n v : to_mem n (byteswap_s n v) = rev (to_mem n v).
Proof.
  unfold to_mem, byteswap_s.
  case_bool_decide; by rewrite le_split_swrap, le_split_bswap, le_split_uwrap.
Qed.

Lemma encode_int_host n v : encode_int SYLAR_BYTE_ORDER n v = to_mem n v.
Proof. done. Qed.

Lemma encode_int_other n v e :
  e = SYLAR_LITTLE_ENDIAN ∨ e = SYLAR_BIG_ENDIAN → e ≠ SYLAR_BYTE_ORDER →
  encode_int e n v = rev (to_mem n v).
Proof.
  unfold encode_int, to_mem. intros He Hne.
  destruct SYLAR_BYTE_ORDER_ok as [E|E]; rewrite E in *; destruct He; subst e; try done.
  simpl. by rewrite rev_involutive.
Qed.
End host.

Lemma length_encode_int e n v : length (encode_int e n v) = n.
Proof. unfold encode_int. case_bool_decide; rewrite ?length_rev; apply length_le_split. Qed.

Lemma decode_encode_int e n v : decode_int e (encode_int e n v) = uwrap (8 * Z.of_nat n) v.
Proof.
  unfold decode_int, encode_int. case_bool_decide; rewrite ?rev_involutive; apply le_join_split.
Qed.
