(* ===== verification/Buffer.v ===== *)
(** * ByteArray (sylar/bytearray.h, sylar/bytearray.cpp): data and operations

    A chain of equally sized blocks written and read at one cursor.  The chain hanging off
    [m_root] is the list [m_nodes]; [m_cur] is the index of the node it points to, [None] for
    the null pointer.  The contents of a block that [new char[s]] returns are indeterminate:
    they come from the class [Heap]. *)

From S2P Require Import Prelude Endian.

(** The contents of the [n]-th block allocated for an object, byte by byte, and
    [std::string::max_size()]; allocation itself does not fail. *)
Class Heap := { uninit : nat → nat → byte; string_max_size : Z }.

Module ByteArray.

Record Node := mkNode { ptr : list byte; size : Z }.

Record t := mk {
  m_baseSize : Z;
  m_position : Z;
  m_capacity : Z;
  m_size : Z;
  m_endian : Z;
  m_nodes : list Node;
  m_cur : option nat;
}.

Definition set_position (v : Z) (b : t) : t :=
  mk (m_baseSize b) v (m_capacity b) (m_size b) (m_endian b) (m_nodes b) (m_cur b).
Definition set_capacity (v : Z) (b : t) : t :=
  mk (m_baseSize b) (m_position b) v (m_size b) (m_endian b) (m_nodes b) (m_cur b).
Definition set_size (v : Z) (b : t) : t :=
  mk (m_baseSize b) (m_position b) (m_capacity b) v (m_endian b) (m_nodes b) (m_cur b).
Definition set_endian (v : Z) (b : t) : t :=
  mk (m_baseSize b) (m_position b) (m_capacity b) (m_size b) v (m_nodes b) (m_cur b).
Definition set_nodes (v : list Node) (b : t) : t :=
  mk (m_baseSize b) (m_position b) (m_capacity b) (m_size b) (m_endian b) v (m_cur b).
Definition set_cur (v : option nat) (b : t) : t :=
  mk (m_baseSize b) (m_position b) (m_capacity b) (m_size b) (m_endian b) (m_nodes b) v.

(** A range of a node's block, as [iovec] denotes it. *)
Record iovec := mkIovec { iov_node : nat; iov_off : Z; iov_len : Z }.

Definition isLittleEndian (b : t) : bool := m_endian b =? SYLAR_LITTLE_ENDIAN.
Definition setIsLittleEndian (val : bool) (b : t) : t :=
  set_endian (if val then SYLAR_LITTLE_ENDIAN else SYLAR_BIG_ENDIAN) b.

(** ** Memory *)

(** The [n] bytes at [buf + off]; reading outside [buf] is undefined. *)
Definition block (buf : list byte) (off n : Z) : outcome (list byte) :=
  if (0 <=? off) && (0 <=? n) && (off + n <=? Z.of_nat (length buf))
  then Ret (take (Z.to_nat n) (drop (Z.to_nat off) buf)) else Undef.

(** [memcpy(node->ptr + off, src, n)]. *)
Definition node_write (nd : Node) (off : Z) (src : list byte) : outcome Node :=
  if (0 <=? off) && (off + Z.of_nat (length src) <=? Z.of_nat (length (ptr nd)))
  then Ret (mkNode (overwrite (ptr nd) (Z.to_nat off) src) (size nd)) else Undef.

(** [*cur]. *)
Definition node_at (b : t) (cur : option nat) : outcome Node :=
  match cur with Some k => deref (m_nodes b !! k) | None => Undef end.

(** [cur->next]. *)
Definition next_of (b : t) (cur : option nat) : outcome (option nat) :=
  match cur with
  | Some k => Ret (if bool_decide (S k < length (m_nodes b))%nat then Some (S k) else None)
  | None => Undef
  end.

Definition cur_node : ST t Node := fun b => (node_at b (m_cur b), b).

Definition advance_cur : ST t unit := fun b =>
  match next_of b (m_cur b) with
  | Ret c => (Ret tt, set_cur c b)
  | _ => (Undef, b)
  end.

Definition memcpy_to_cur (off : Z) (src : list byte) : ST t unit := fun b =>
  match m_cur b with
  | Some k =>
      match nd ← deref (m_nodes b !! k); node_write nd off src with
      | Ret nd' => (Ret tt, set_nodes (<[k := nd']> (m_nodes b)) b)
      | _ => (Undef, b)
      end
  | None => (Undef, b)
  end.

(** [a % b] and the loop prologue [npos], [ncap] shared by the traversals. *)
Definition cmod (a b : Z) : outcome Z := if b =? 0 then Undef else Ret (a mod b).

Section operations.
Context `{Heap}.

(** [new Node(s)], the [k]-th block of the object. *)
Definition new_node (k : nat) (s : Z) : Node :=
  mkNode ((uninit k) <$> seq 0 (Z.to_nat s)) s.

(** [ByteArray::ByteArray(base_size)]. *)
Definition make (base_size : Z) : t :=
  mk base_size 0 base_size 0 SYLAR_BIG_ENDIAN [new_node 0 base_size] (Some 0%nat).

Definition getPosition (b : t) : Z := m_position b.
Definition getBaseSize (b : t) : Z := m_baseSize b.
Definition getSize (b : t) : Z := m_size b.
Definition getReadSize (b : t) : Z := u64 (m_size b - m_position b).
Definition getCapacity (b : t) : Z := u64 (m_capacity b - m_position b).

(** [ceil(1.0 * size / m_baseSize)]: the least integer not below the quotient, which is what
    the double computation gives for sizes up to [2 ^ 53]. *)
Definition ceil_quotient (size base : Z) : Z := (size + base - 1) / base.

Definition addCapacity (size : Z) : ST t unit :=
  if size =? 0 then mret tt
  else
    old_cap ← gets getCapacity;
    if size <=? old_cap then mret tt
    else
      b ← get;
      if m_baseSize b =? 0 then lift Undef
      else
        let size' := u64 (size - old_cap) in
        let count := Z.to_nat (ceil_quotient size' (m_baseSize b)) in
        let first := length (m_nodes b) in
        modify (set_nodes (m_nodes b ++
          ((fun k => new_node k (m_baseSize b)) <$> seq first count)));;
        modify (set_capacity (u64 (m_capacity b + Z.of_nat count * m_baseSize b)));;
        if old_cap =? 0
        then modify (set_cur (if bool_decide (0 < count)%nat then Some first else None))
        else mret tt.

(** The [while (size > 0)] loop of [write]. *)
Fixpoint write_loop (fuel : nat) (buf : list byte) (sz npos ncap bpos : Z) : ST t unit :=
  match fuel with
  | O => lift NoFuel
  | S fuel' =>
      if 0 <? sz then
        if sz <=? ncap then
          src ← lift (block buf bpos sz);
          memcpy_to_cur npos src;;
          nd ← cur_node;
          (if size nd =? npos + sz then advance_cur else mret tt);;
          modify (fun b => set_position (u64 (m_position b + sz)) b);;
          write_loop fuel' buf 0 npos ncap (bpos + sz)
        else
          src ← lift (block buf bpos ncap);
          memcpy_to_cur npos src;;
          modify (fun b => set_position (u64 (m_position b + ncap)) b);;
          advance_cur;;
          nd ← cur_node;
          write_loop fuel' buf (sz - ncap) 0 (size nd) (bpos + ncap)
      else mret tt
  end.

(** [write(buf, size)]. *)
Definition write (buf : list byte) (sz : Z) : ST t unit :=
  if sz =? 0 then mret tt
  else
    addCapacity sz;;
    b ← get;
    npos ← lift (cmod (m_position b) (m_baseSize b));
    nd ← cur_node;
    let ncap := u64 (size nd - npos) in
    write_loop (S (S (length (m_nodes b)))) buf sz npos ncap 0;;
    modify (fun b => if m_size b <? m_position b then set_size (m_position b) b else b).

(** The [while (size > 0)] loop of [read]: the bytes copied to [buf], in order. *)
Fixpoint read_loop (fuel : nat) (sz npos ncap : Z) : ST t (list byte) :=
  match fuel with
  | O => lift NoFuel
  | S fuel' =>
      if 0 <? sz then
        if sz <=? ncap then
          nd ← cur_node;
          src ← lift (block (ptr nd) npos sz);
          (if size nd =? npos + sz then advance_cur else mret tt);;
          modify (fun b => set_position (u64 (m_position b + sz)) b);;
          rest ← read_loop fuel' 0 npos ncap;
          mret (src ++ rest)
        else
          nd ← cur_node;
          src ← lift (block (ptr nd) npos ncap);
          modify (fun b => set_position (u64 (m_position b + ncap)) b);;
          advance_cur;;
          nd' ← cur_node;
          rest ← read_loop fuel' (sz - ncap) 0 (size nd');
          mret (src ++ rest)
      else mret []
  end.

(** [read(buf, size)]. *)
Definition read (sz : Z) : ST t (list byte) :=
  rs ← gets getReadSize;
  if rs <? sz then throw out_of_range
  else
    b ← get;
    npos ← lift (cmod (m_position b) (m_baseSize b));
    nd ← cur_node;
    let ncap := u64 (size nd - npos) in
    read_loop (S (S (length (m_nodes b)))) sz npos ncap.

(** The loop of the [const] overload, on the local [cur]. *)
Fixpoint read_at_loop (fuel : nat) (b : t) (cur : option nat) (sz npos ncap : Z)
    : outcome (list byte) :=
  match fuel with
  | O => NoFuel
  | S fuel' =>
      if 0 <? sz then
        if sz <=? ncap then
          nd ← node_at b cur;
          src ← block (ptr nd) npos sz;
          cur' ← (if size nd =? npos + sz then next_of b cur else Ret cur);
          rest ← read_at_loop fuel' b cur' 0 npos ncap;
          Ret (src ++ rest)
        else
          nd ← node_at b cur;
          src ← block (ptr nd) npos ncap;
          cur' ← next_of b cur;
          nd' ← node_at b cur';
          rest ← read_at_loop fuel' b cur' (sz - ncap) 0 (size nd');
          Ret (src ++ rest)
      else Ret []
  end.

(** [read(buf, size, position) const]: the walk starts at [m_cur]. *)
Definition read_at (b : t) (sz position : Z) : outcome (list byte) :=
  if u64 (m_size b - position) <? sz then Throw out_of_range
  else
    npos ← cmod position (m_baseSize b);
    nd ← node_at b (m_cur b);
    let ncap := u64 (size nd - npos) in
    read_at_loop (S (S (length (m_nodes b)))) b (m_cur b) sz npos ncap.

(** The two loops at the end of [setPosition], from the [k]-th node on. *)
Fixpoint seek (ns : list Node) (k : nat) (v : Z) : outcome (option nat) :=
  match ns with
  | [] => Undef
  | nd :: ns' =>
      if size nd <? v then seek ns' (S k) (v - size nd)
      else if v =? size nd
        then Ret (match ns' with [] => None | _ :: _ => Some (S k) end)
        else Ret (Some k)
  end.

(** [setPosition(v)]. *)
Definition setPosition (v : Z) : ST t unit :=
  b ← get;
  if m_capacity b <? v then throw out_of_range
  else
    modify (set_position v);;
    modify (fun b => if m_size b <? m_position b then set_size (m_position b) b else b);;
    c ← lift (seek (m_nodes b) 0 v);
    modify (set_cur c).

(** [clear()]. *)
Definition clear (b : t) : t :=
  mk (m_baseSize b) 0 (m_baseSize b) 0 (m_endian b) (take 1 (m_nodes b)) (Some 0%nat).

(** [toString()]. *)
Definition toString (b : t) : outcome (list byte) :=
  if getReadSize b =? 0 then Ret [] else read_at b (getReadSize b) (m_position b).

(** [toHexString()]: two lower-case digits and a space per byte, a line per 32 bytes. *)
Definition hex_digit (z : Z) : byte :=
  nth (Z.to_nat z) (lit "0123456789abcdef") x00.
Definition hex_of_byte (b : byte) : list byte :=
  [hex_digit (byte_to_Z b / 16); hex_digit (byte_to_Z b mod 16)].
Definition hex_lines (str : list byte) : list byte :=
  concat (imap (fun i c =>
    (if bool_decide (0 < i ∧ i `mod` 32 = 0)%nat then [x0a] else [])
      ++ hex_of_byte c ++ [x20]) str).
Definition toHexString (b : t) : outcome (list byte) :=
  str ← toString b;
  Ret (hex_lines str).

(** The [while (len > 0)] loop of the three buffer collectors. *)
Fixpoint buffers_loop (fuel : nat) (b : t) (cur : option nat) (len npos ncap : Z)
    : outcome (list iovec) :=
  match fuel with
  | O => NoFuel
  | S fuel' =>
      if 0 <? len then
        k ← deref cur;
        if len <=? ncap then
          rest ← buffers_loop fuel' b cur 0 npos ncap;
          Ret (mkIovec k npos len :: rest)
        else
          cur' ← next_of b cur;
          nd' ← node_at b cur';
          rest ← buffers_loop fuel' b cur' (len - ncap) 0 (size nd');
          Ret (mkIovec k npos ncap :: rest)
      else Ret []
  end.

(** [getReadBuffers(buffers, len)]. *)
Definition getReadBuffers (b : t) (buffers : list iovec) (len : Z)
    : outcome (Z * list iovec) :=
  let len := if getReadSize b <? len then getReadSize b else len in
  if len =? 0 then Ret (0, buffers)
  else
    npos ← cmod (m_position b) (m_baseSize b);
    nd ← node_at b (m_cur b);
    let ncap := u64 (size nd - npos) in
    iovs ← buffers_loop (S (S (length (m_nodes b)))) b (m_cur b) len npos ncap;
    Ret (len, buffers ++ iovs).

(** [while (count > 0) { cur = cur->next; --count; }]. *)
Fixpoint skip_nodes (b : t) (cur : option nat) (count : nat) : outcome (option nat) :=
  match count with
  | O => Ret cur
  | S count' => cur' ← next_of b cur; skip_nodes b cur' count'
  end.

(** [getReadBuffers(buffers, len, position)]: [position] is not used. *)
Definition getReadBuffers_at (b : t) (buffers : list iovec) (len position : Z)
    : outcome (Z * list iovec) :=
  let len := if getReadSize b <? len then getReadSize b else len in
  if len =? 0 then Ret (0, buffers)
  else
    npos ← cmod (m_position b) (m_baseSize b);
    let count := Z.to_nat (m_position b / m_baseSize b) in
    cur ← skip_nodes b (Some 0%nat) count;
    nd ← node_at b cur;
    let ncap := u64 (size nd - npos) in
    iovs ← buffers_loop (S (S (length (m_nodes b)))) b cur len npos ncap;
    Ret (len, buffers ++ iovs).

(** [getWriteBuffers(buffers, len)]. *)
Definition getWriteBuffers (buffers : list iovec) (len : Z) : ST t (Z * list iovec) :=
  if len =? 0 then mret (0, buffers)
  else
    addCapacity len;;
    b ← get;
    npos ← lift (cmod (m_position b) (m_baseSize b));
    nd ← cur_node;
    let ncap := u64 (size nd - npos) in
    iovs ← lift (buffers_loop (S (S (length (m_nodes b)))) b (m_cur b) len npos ncap);
    mret (len, buffers ++ iovs).

(** ** Files *)

(** The [while (read_size > 0)] loop of [writeToFile]: the bytes [ofs.write] receives.
    A negative count is outside [ostream::write]'s contract. *)
Fixpoint writeToFile_loop (fuel : nat) (b : t) (cur : option nat) (read_size pos : Z)
    : outcome (list byte) :=
  match fuel with
  | O => NoFuel
  | S fuel' =>
      if 0 <? read_size then
        diff ← cmod (u64 pos) (m_baseSize b);
        let diff := s32 diff in
        let len := s64 (u64 ((if s64 (m_baseSize b) <? read_size
                              then m_baseSize b else read_size) - diff)) in
        nd ← node_at b cur;
        src ← block (ptr nd) diff len;
        cur' ← next_of b cur;
        rest ← writeToFile_loop fuel' b cur' (read_size - len) (pos + len);
        Ret (src ++ rest)
      else Ret []
  end.

(** [writeToFile(name)] on a file that opened ([ofs] true) or did not: the result and the
    bytes written to it. *)
Definition writeToFile (opened : bool) (b : t) : outcome (bool * list byte) :=
  if negb opened then Ret (false, [])
  else
    out ← writeToFile_loop (S (S (length (m_nodes b)))) b (m_cur b)
            (s64 (getReadSize b)) (s64 (m_position b));
    Ret (true, out).

(** The [while (!ifs.eof())] loop of [readFromFile]: [ifs.read] delivers
    [min(m_baseSize, remaining)] bytes and sets [eof] when that is fewer than asked. *)
Fixpoint readFromFile_loop (fuel : nat) (content : list byte) : ST t unit :=
  match fuel with
  | O => lift NoFuel
  | S fuel' =>
      n ← gets (fun b => Z.to_nat (m_baseSize b));
      let chunk := take n content in
      write chunk (Z.of_nat (length chunk));;
      if bool_decide (length chunk < n)%nat then mret tt
      else readFromFile_loop fuel' (drop n content)
  end.

(** [readFromFile(name)]: [None] when the file does not open, else its contents. *)
Definition readFromFile (file : option (list byte)) : ST t bool :=
  match file with
  | None => mret false
  | Some content => readFromFile_loop (S (length content)) content;; mret true
  end.
End operations.

End ByteArray.
