(* ===== verification/BufferFacts.v ===== *)
(** * ByteArray: invariant and memory lemmas

    The well-formedness invariant [wf] of the block chain, the flat view of its memory, and
    the loop lemmas that say what each traversal does to that view. *)

From S2P Require Import Prelude Endian Buffer.
Import ByteArray.

(** The memory of the chain, and the node a position falls in. *)
Definition blocks (ns : list Node) : list (list byte) := ptr <$> ns.
Definition flat (ns : list Node) : list byte := concat (blocks ns).
Definition cur_at (len : nat) (base pos : Z) : option nat :=
  let j := Z.to_nat (pos / base) in
  if bool_decide (j < len)%nat then Some j else None.

(** Every block has the size the object was made with. *)
Definition nodes_ok (base : Z) (ns : list Node) : Prop :=
  Forall (fun nd => size nd = base ∧ length (ptr nd) = Z.to_nat base) ns.

Record wf (b : t) : Prop := {
  wf_base : 0 < m_baseSize b;
  wf_nodes : nodes_ok (m_baseSize b) (m_nodes b);
  wf_ne : (0 < length (m_nodes b))%nat;
  wf_cap : m_capacity b = Z.of_nat (length (m_nodes b)) * m_baseSize b;
  wf_cap64 : m_capacity b < 2 ^ 64;
  wf_pos : 0 <= m_position b <= m_size b;
  wf_size : m_size b <= m_capacity b;
  wf_cur : m_cur b = cur_at (length (m_nodes b)) (m_baseSize b) (m_position b);
  wf_endian : m_endian b = SYLAR_LITTLE_ENDIAN ∨ m_endian b = SYLAR_BIG_ENDIAN;
}.

(** What a reader of the object can see: the bytes before [m_size], and the cursor. *)
Definition content (b : t) : list byte := take (Z.to_nat (m_size b)) (flat (m_nodes b)).
Definition cursor (b : t) : nat := Z.to_nat (m_position b).

(** ** Nodes *)

Section nodes.
Context (base : Z) (ns : list Node).
Hypothesis Hbase : 0 < base.
Hypothesis Hns : nodes_ok base ns.

Lemma blocks_chunks : chunks_of (Z.to_nat base) (blocks ns).
Proof.
  unfold chunks_of, blocks. apply Forall_fmap. eapply Forall_impl; [exact Hns|].
  by intros nd [_ ?].
Qed.

Lemma length_flat : length (flat ns) = (length ns * Z.to_nat base)%nat.
Proof.
  unfold flat. rewrite (length_concat_chunks _ _ blocks_chunks). unfold blocks.
  by rewrite length_fmap.
Qed.

Lemma node_lookup k nd :
  ns !! k = Some nd →
  size nd = base ∧ length (ptr nd) = Z.to_nat base
  ∧ ptr nd = (flat ns).[k * Z.to_nat base, Z.to_nat base].
Proof.
  intros Hk. pose proof Hns as Hf. unfold nodes_ok in Hf. rewrite Forall_lookup in Hf.
  destruct (Hf k nd Hk) as [H1 H2]. split_and!; [done..|].
  apply (chunk_lookup _ (blocks ns)); [apply blocks_chunks|].
  unfold blocks. by rewrite list_lookup_fmap, Hk.
Qed.

Lemma node_update k nd off src :
  ns !! k = Some nd → (off + length src ≤ Z.to_nat base)%nat →
  let ns' := <[k := mkNode (overwrite (ptr nd) off src) (size nd)]> ns in
  nodes_ok base ns' ∧ length ns' = length ns
  ∧ flat ns' = overwrite (flat ns) (k * Z.to_nat base + off) src.
Proof.
  intros Hk Hoff ns'. destruct (node_lookup k nd Hk) as (H1 & H2 & _). split_and!.
  - apply Forall_insert; [done|]. simpl. split; [done|]. rewrite length_overwrite; lia.
  - apply length_insert.
  - unfold flat, ns', blocks. rewrite list_fmap_insert. simpl.
    apply (chunk_insert (Z.to_nat base)); [apply blocks_chunks| |done].
    by rewrite list_lookup_fmap, Hk.
Qed.
End nodes.

Lemma cur_at_lt len base pos k :
  0 < base → cur_at len base pos = Some k → 
  k = Z.to_nat (pos / base) ∧ (k < len)%nat.
Proof. unfold cur_at. intros. case_bool_decide; naive_solver. Qed.

Lemma cur_at_in len base k npos :
  0 < base → 0 <= npos < base →
  cur_at len base (Z.of_nat k * base + npos)
    = if bool_decide (k < len)%nat then Some k else None.
Proof.
  intros. unfold cur_at. rewrite Z.div_add_l, Z.div_small by lia.
  by rewrite Z.add_0_r, Nat2Z.id.
Qed.

Lemma cur_at_next len base k npos sz :
  0 < base → 0 <= npos → npos + sz = base → 
  cur_at len base (Z.of_nat k * base + npos + sz)
    = if bool_decide (S k < len)%nat then Some (S k) else None.
Proof.
  intros. replace (Z.of_nat k * base + npos + sz) with (Z.of_nat (S k) * base + 0) by lia.
  apply cur_at_in; lia.
Qed.

(** ** Single steps of the traversals *)

Lemma block_ok buf off n :
  0 <= off → 0 <= n → off + n <= Z.of_nat (length buf) →
  block buf off n = Ret (buf.[Z.to_nat off, Z.to_nat n]).
Proof.
  intros. unfold block. by rewrite !(proj2 (Z.leb_le _ _)) by lia.
Qed.

Section steps.
Context (b : t) (k : nat) (nd : Node).
Hypothesis Hcur : m_cur b = Some k.
Hypothesis Hk : m_nodes b !! k = Some nd.

Lemma cur_node_ok : cur_node b = (Ret nd, b).
Proof. unfold cur_node, node_at. by rewrite Hcur, Hk. Qed.

Lemma advance_cur_ok :
  advance_cur b =
    (Ret tt, set_cur (if bool_decide (S k < length (m_nodes b))%nat
                      then Some (S k) else None) b).
Proof. unfold advance_cur, next_of. by rewrite Hcur. Qed.

Lemma memcpy_to_cur_ok off src :
  0 <= off → off + Z.of_nat (length src) <= Z.of_nat (length (ptr nd)) →
  memcpy_to_cur off src b =
    (Ret tt,
     set_nodes (<[k := mkNode (overwrite (ptr nd) (Z.to_nat off) src) (size nd)]> (m_nodes b)) b).
Proof.
  intros. unfold memcpy_to_cur. rewrite Hcur, Hk. unfold mbind, outcome_bind. simpl.
  unfold node_write. by rewrite !(proj2 (Z.leb_le _ _)) by lia.
Qed.
End steps.

Lemma u64_small z : 0 <= z < 2 ^ 64 → u64 z = z.
Proof. apply (uwrap_small 64). Qed.

Lemma pos_nat pos k base npos :
  pos = Z.of_nat k * base + npos → 0 <= base → 0 <= npos →
  Z.to_nat pos = (k * Z.to_nat base + Z.to_nat npos)%nat.
Proof. intros. subst. rewrite Z2Nat.inj_add, Z2Nat.inj_mul, Nat2Z.id by lia. done. Qed.

(** ** The loops *)

(** The first branch of the traversals: the rest fits in the current node. *)
Lemma finish_cur b k nd npos sz :
  m_cur b = Some k → m_nodes b !! k = Some nd → size nd = m_baseSize b → 0 < m_baseSize b →
  0 <= npos → 0 < sz → npos + sz <= m_baseSize b →
  m_position b = Z.of_nat k * m_baseSize b + npos →
  (if size nd =? npos + sz then advance_cur else mret tt) b =
    (Ret tt, set_cur (cur_at (length (m_nodes b)) (m_baseSize b) (m_position b + sz)) b).
Proof.
  intros Hc Hk Hs ? ? ? ? Hp. rewrite Hs, Hp.
  destruct (Z.eqb_spec (m_baseSize b) (npos + sz)) as [E|E].
  - rewrite cur_at_next by lia. by apply (advance_cur_ok b k).
  - rewrite <- Z.add_assoc, cur_at_in by lia.
    apply lookup_lt_Some in Hk. rewrite bool_decide_eq_true_2 by done.
    destruct b; simpl in *. by subst.
Qed.

Lemma write_loop_spec `{Heap} buf fuel : ∀ b k npos sz bpos,
  0 < m_baseSize b → nodes_ok (m_baseSize b) (m_nodes b) →
  m_cur b = Some k → (k < length (m_nodes b))%nat →
  0 <= npos < m_baseSize b → m_position b = Z.of_nat k * m_baseSize b + npos →
  0 < sz → m_position b + sz <= Z.of_nat (length (m_nodes b)) * m_baseSize b →
  Z.of_nat (length (m_nodes b)) * m_baseSize b < 2 ^ 64 →
  0 <= bpos → bpos + sz <= Z.of_nat (length buf) →
  (length (m_nodes b) + 1 < fuel + k)%nat →
  ∃ ns',
    write_loop fuel buf sz npos (m_baseSize b - npos) bpos b =
      (Ret tt, set_cur (cur_at (length (m_nodes b)) (m_baseSize b) (m_position b + sz))
                 (set_position (m_position b + sz) (set_nodes ns' b)))
    ∧ nodes_ok (m_baseSize b) ns' ∧ length ns' = length (m_nodes b)
    ∧ flat ns' = overwrite (flat (m_nodes b)) (Z.to_nat (m_position b))
                   (buf.[Z.to_nat bpos, Z.to_nat sz]).
Proof.
  induction fuel as [|fuel IH]; intros b k npos sz bpos Hb Hns Hc Hk Hnp Hp Hsz Hfit H64 Hbp Hbuf Hf;
    [lia|].
  destruct (lookup_lt_is_Some_2 (m_nodes b) k) as [nd Hnd]; [done|].
  destruct (node_lookup _ _ Hns k nd Hnd) as (Hs & Hl & _).
  cbn [write_loop]. rewrite (proj2 (Z.ltb_lt 0 sz)) by lia.
  destruct (Z.leb_spec sz (m_baseSize b - npos)) as [Hle|Hgt].
  - st_run (apply lift_Ret, block_ok; lia).
    set (src := buf.[_, _]).
    assert (length src = Z.to_nat sz) as Hsrc by (apply length_range; lia).
    destruct (node_update _ _ Hb Hns k nd (Z.to_nat npos) src) as (N1 & N2 & N3); [done|lia|].
    st_run (apply (memcpy_to_cur_ok b k nd Hc Hnd); lia).
    set (ns' := <[k := _]> (m_nodes b)) in *.
    assert (ns' !! k = Some (mkNode (overwrite (ptr nd) (Z.to_nat npos) src) (size nd))) as Hk'
      by (by apply list_lookup_insert_eq).
    st_run (by apply (cur_node_ok (set_nodes ns' b) k)).
    st_run (eapply (finish_cur (set_nodes ns' b) k); try done; simpl; lia).
    st_run reflexivity. destruct fuel as [|fuel]; [lia|]. simpl.
    exists ns'. rewrite N2, u64_small by lia. split_and!; try done.
    by rewrite N3, (pos_nat _ _ _ _ Hp) by lia.
  - st_run (apply lift_Ret, block_ok; lia).
    set (src := buf.[_, _]).
    assert (length src = Z.to_nat (m_baseSize b - npos)) as Hsrc by (apply length_range; lia).
    destruct (node_update _ _ Hb Hns k nd (Z.to_nat npos) src) as (N1 & N2 & N3); [done|lia|].
    st_run (apply (memcpy_to_cur_ok b k nd Hc Hnd); lia).
    set (ns' := <[k := _]> (m_nodes b)) in *.
    st_run reflexivity. rewrite u64_small by (simpl; lia).
    st_run (by apply (advance_cur_ok _ k)).
    assert (S k < length ns')%nat as HSk by nia.
    rewrite bool_decide_eq_true_2 by done.
    destruct (lookup_lt_is_Some_2 ns' (S k)) as [nd' Hnd']; [done|].
    destruct (node_lookup _ _ N1 (S k) nd' Hnd') as (Hs' & _ & _).
    st_run (by apply (cur_node_ok _ (S k))). simpl.
    set (b2 := set_cur _ _).
    destruct (IH b2 (S k) 0 (sz - (m_baseSize b - npos)) (bpos + (m_baseSize b - npos)))
      as (ns2 & E & M1 & M2 & M3); try (done || (simpl; lia)).
    simpl in E. rewrite Z.sub_0_r in E. rewrite Hs', E. exists ns2. simpl.
    simpl in M1, M2, M3. split_and!; [|done|lia|].
    + rewrite N2.
      by replace (m_position b + (m_baseSize b - npos) + (sz - (m_baseSize b - npos)))
        with (m_position b + sz) by lia.
    + rewrite M3, N3, (pos_nat _ _ _ _ Hp) by lia.
      replace (Z.to_nat (m_position b + (m_baseSize b - npos)))
        with (k * Z.to_nat (m_baseSize b) + Z.to_nat npos + length src)%nat
        by (pose proof (pos_nat _ _ _ _ Hp); lia).
      rewrite overwrite_split.
      * unfold src. f_equal.
        replace (Z.to_nat sz) with (Z.to_nat (m_baseSize b - npos)
          + Z.to_nat (sz - (m_baseSize b - npos)))%nat by lia.
        rewrite range_app. do 3 f_equal. lia.
      * rewrite (length_flat _ _ Hns). nia.
Qed.

Lemma read_loop_spec fuel : ∀ b k npos sz,
  0 < m_baseSize b → nodes_ok (m_baseSize b) (m_nodes b) →
  m_cur b = Some k → (k < length (m_nodes b))%nat →
  0 <= npos < m_baseSize b → m_position b = Z.of_nat k * m_baseSize b + npos →
  0 < sz → m_position b + sz <= Z.of_nat (length (m_nodes b)) * m_baseSize b →
  Z.of_nat (length (m_nodes b)) * m_baseSize b < 2 ^ 64 →
  (length (m_nodes b) + 1 < fuel + k)%nat →
  read_loop fuel sz npos (m_baseSize b - npos) b =
    (Ret ((flat (m_nodes b)).[Z.to_nat (m_position b), Z.to_nat sz]),
     set_cur (cur_at (length (m_nodes b)) (m_baseSize b) (m_position b + sz))
       (set_position (m_position b + sz) b)).
Proof.
  induction fuel as [|fuel IH]; intros b k npos sz Hb Hns Hc Hk Hnp Hp Hsz Hfit H64 Hf;
    [lia|].
  destruct (lookup_lt_is_Some_2 (m_nodes b) k) as [nd Hnd]; [done|].
  destruct (node_lookup _ _ Hns k nd Hnd) as (Hs & Hl & Hptr).
  cbn [read_loop]. rewrite (proj2 (Z.ltb_lt 0 sz)) by lia.
  pose proof (pos_nat _ _ _ _ Hp) as Hpn. specialize (Hpn ltac:(lia) ltac:(lia)).
  destruct (Z.leb_spec sz (m_baseSize b - npos)) as [Hle|Hgt].
  - st_run (by apply (cur_node_ok b k)).
    st_run (apply lift_Ret, block_ok; lia).
    st_run (eapply (finish_cur b k); try done; simpl; lia).
    st_run reflexivity. destruct fuel as [|fuel]; [lia|]. simpl.
    rewrite u64_small by lia. unfold mbind, st_bind. simpl. unfold mret, st_ret.
    by rewrite app_nil_r, (range_of_chunk _ _ _ _ _ _ Hptr), <- Hpn by lia.
  - st_run (by apply (cur_node_ok b k)).
    st_run (apply lift_Ret, block_ok; lia).
    st_run reflexivity. rewrite u64_small by (simpl; lia).
    st_run (by apply (advance_cur_ok _ k)).
    assert (S k < length (m_nodes b))%nat as HSk by nia.
    rewrite bool_decide_eq_true_2 by done.
    destruct (lookup_lt_is_Some_2 (m_nodes b) (S k)) as [nd' Hnd']; [done|].
    destruct (node_lookup _ _ Hns (S k) nd' Hnd') as (Hs' & _ & _).
    st_run (by apply (cur_node_ok _ (S k))). simpl.
    set (b2 := set_cur _ _).
    specialize (IH b2 (S k) 0 (sz - (m_baseSize b - npos))).
    simpl in IH. rewrite Z.sub_0_r in IH. rewrite Hs'.
    erewrite st_bind_Ret by (apply IH; done || lia). 
    unfold mret, st_ret.
    replace (m_position b + (m_baseSize b - npos) + (sz - (m_baseSize b - npos)))
      with (m_position b + sz) by lia.
    f_equal. f_equal. rewrite (range_of_chunk _ _ _ _ _ _ Hptr), <- Hpn by lia.
    replace (Z.to_nat (m_position b + (m_baseSize b - npos))) with
      (Z.to_nat (m_position b) + Z.to_nat (m_baseSize b - npos))%nat by lia.
    rewrite <- range_app. do 2 f_equal. lia.
Qed.

(** [read_at_loop] on [m_cur] copies the same range, leaving the object alone. *)
Lemma read_at_loop_spec b fuel : ∀ k npos sz,
  0 < m_baseSize b → nodes_ok (m_baseSize b) (m_nodes b) →
  (k < length (m_nodes b))%nat → 0 <= npos < m_baseSize b →
  0 < sz → Z.of_nat k * m_baseSize b + npos + sz <= Z.of_nat (length (m_nodes b)) * m_baseSize b →
  (length (m_nodes b) + 1 < fuel + k)%nat →
  read_at_loop fuel b (Some k) sz npos (m_baseSize b - npos) =
    Ret ((flat (m_nodes b)).[k * Z.to_nat (m_baseSize b) + Z.to_nat npos, Z.to_nat sz]).
Proof.
  induction fuel as [|fuel IH]; intros k npos sz Hb Hns Hk Hnp Hsz Hfit Hf; [lia|].
  destruct (lookup_lt_is_Some_2 (m_nodes b) k) as [nd Hnd]; [done|].
  destruct (node_lookup _ _ Hns k nd Hnd) as (Hs & Hl & Hptr).
  cbn [read_at_loop]. rewrite (proj2 (Z.ltb_lt 0 sz)) by lia.
  destruct (Z.leb_spec sz (m_baseSize b - npos)) as [Hle|Hgt]; simpl; rewrite Hnd; simpl;
    rewrite block_ok by lia; simpl; rewrite (range_of_chunk _ _ _ _ _ _ Hptr) by lia.
  - destruct fuel as [|fuel]; [lia|]. simpl.
    destruct (size nd =? npos + sz); simpl; by rewrite app_nil_r.
  - assert (S k < length (m_nodes b))%nat as HSk by nia.
    rewrite bool_decide_eq_true_2 by done. simpl.
    destruct (lookup_lt_is_Some_2 (m_nodes b) (S k)) as [nd' Hnd']; [done|].
    destruct (node_lookup _ _ Hns (S k) nd' Hnd') as (Hs' & _ & _).
    rewrite Hnd'. simpl. specialize (IH (S k) 0 (sz - (m_baseSize b - npos))).
    rewrite Z.sub_0_r in IH. rewrite Hs', IH by (done || lia). simpl.
    do 2 f_equal.
    replace (Z.to_nat sz) with (Z.to_nat (m_baseSize b - npos)
      + Z.to_nat (sz - (m_baseSize b - npos)))%nat by lia.
    rewrite range_app. do 3 f_equal. lia.
Qed.

(** The bytes an [iovec] denotes, and those a vector of them denotes in order. *)
Definition iov_bytes (ns : list Node) (v : iovec) : list byte :=
  match ns !! iov_node v with
  | Some nd => (ptr nd).[Z.to_nat (iov_off v), Z.to_nat (iov_len v)]
  | None => []
  end.
Definition iovs_bytes (ns : list Node) (vs : list iovec) : list byte :=
  concat (iov_bytes ns <$> vs).

(** The range a vector of [iovec]s covers, as consecutive positions of the flat memory. *)
Fixpoint iovs_cover (ns : list Node) (base pos : Z) (vs : list iovec) (len : Z) : Prop :=
  match vs with
  | [] => len = 0
  | v :: vs' =>
      is_Some (ns !! iov_node v) ∧ 0 <= iov_off v ∧ 0 < iov_len v
      ∧ iov_off v + iov_len v <= base
      ∧ Z.of_nat (iov_node v) * base + iov_off v = pos
      ∧ iovs_cover ns base (pos + iov_len v) vs' (len - iov_len v)
  end.

Lemma buffers_loop_spec b fuel : ∀ k npos len,
  0 < m_baseSize b → nodes_ok (m_baseSize b) (m_nodes b) →
  (k < length (m_nodes b))%nat → 0 <= npos < m_baseSize b →
  0 < len → Z.of_nat k * m_baseSize b + npos + len <= Z.of_nat (length (m_nodes b)) * m_baseSize b →
  (length (m_nodes b) + 1 < fuel + k)%nat →
  ∃ vs, buffers_loop fuel b (Some k) len npos (m_baseSize b - npos) = Ret vs
    ∧ iovs_cover (m_nodes b) (m_baseSize b) (Z.of_nat k * m_baseSize b + npos) vs len.
Proof.
  induction fuel as [|fuel IH]; intros k npos len Hb Hns Hk Hnp Hsz Hfit Hf; [lia|].
  destruct (lookup_lt_is_Some_2 (m_nodes b) k) as [nd Hnd]; [done|].
  cbn [buffers_loop]. rewrite (proj2 (Z.ltb_lt 0 len)) by lia. simpl.
  destruct (Z.leb_spec len (m_baseSize b - npos)) as [Hle|Hgt].
  - destruct fuel as [|fuel]; [lia|]. simpl. eexists. split; [done|].
    simpl. split_and!; (lia || by eexists).
  - assert (S k < length (m_nodes b))%nat as HSk by nia.
    rewrite bool_decide_eq_true_2 by done. simpl.
    destruct (lookup_lt_is_Some_2 (m_nodes b) (S k)) as [nd' Hnd']; [done|].
    destruct (node_lookup _ _ Hns (S k) nd' Hnd') as (Hs' & _ & _).
    rewrite Hnd'. simpl.
    destruct (IH (S k) 0 (len - (m_baseSize b - npos))) as (vs & E & Hvs); try done; try lia.
    rewrite Z.sub_0_r in E. rewrite Hs', E. simpl. eexists. split; [done|]. simpl.
    split_and!; try lia; [by eexists|].
    replace (Z.of_nat k * m_baseSize b + npos + (m_baseSize b - npos))
      with (Z.of_nat (S k) * m_baseSize b + 0) by lia. done.
Qed.

Lemma iovs_cover_nonneg ns base vs : ∀ pos len, iovs_cover ns base pos vs len → 0 <= len.
Proof.
  induction vs as [|v vs IH]; simpl; intros pos len; [lia|].
  intros (_ & _ & ? & _ & _ & H). apply IH in H. lia.
Qed.

Lemma iovs_cover_bytes base ns vs : ∀ pos len,
  0 < base → nodes_ok base ns → 0 <= pos → iovs_cover ns base pos vs len →
  iovs_bytes ns vs = (flat ns).[Z.to_nat pos, Z.to_nat len].
Proof.
  induction vs as [|v vs IH]; intros pos len Hb Hns Hpos; simpl; [by intros ->|].
  intros ([nd Hnd] & H1 & H2 & H3 & H4 & H5). change (iovs_bytes ns (v :: vs)) with (iov_bytes ns v ++ iovs_bytes ns vs).
  rewrite (IH (pos + iov_len v) (len - iov_len v)) by (done || lia).
  destruct (node_lookup _ _ Hns _ nd Hnd) as (_ & _ & Hptr).
  unfold iov_bytes. rewrite Hnd, (range_of_chunk _ _ _ _ _ _ Hptr) by lia.
  rewrite <- (pos_nat pos) by (done || lia).
  pose proof (iovs_cover_nonneg _ _ _ _ _ H5).
  replace (Z.to_nat len) with (Z.to_nat (iov_len v) + Z.to_nat (len - iov_len v))%nat by lia.
  rewrite range_app. do 3 f_equal. lia.
Qed.

(** ** Seeking and growing *)

Lemma seek_spec base ns : ∀ k v,
  0 < base → nodes_ok base ns → (0 < length ns)%nat →
  0 <= v <= Z.of_nat (length ns) * base →
  seek ns k v = Ret (if v <? Z.of_nat (length ns) * base
                     then Some (k + Z.to_nat (v / base))%nat else None).
Proof.
  induction ns as [|nd ns IH]; intros k v Hb Hns Hne Hv; simpl in *; [lia|].
  apply Forall_cons in Hns as [[Hs _] Hns]. rewrite Hs.
  destruct (Z.ltb_spec base v) as [Hlt|Hge].
  - rewrite IH by (done || nia).
    replace (v - base <? Z.of_nat (length ns) * base)
      with (v <? Z.of_nat (S (length ns)) * base)
      by (apply eq_true_iff_eq; rewrite !Z.ltb_lt; lia).
    destruct (v <? _); [|done]. do 2 f_equal.
    replace (v / base) with ((v - base) / base + 1)
      by (rewrite <- Z.div_add by lia; f_equal; lia).
    pose proof (Z.div_pos (v - base) base). lia.
  - destruct (Z.eqb_spec v base) as [->|Hne'].
    + rewrite Z.div_same by lia. destruct ns; simpl.
      * by rewrite (proj2 (Z.ltb_ge _ _)) by lia.
      * rewrite (proj2 (Z.ltb_lt _ _)) by lia. do 2 f_equal. lia.
    + rewrite (proj2 (Z.ltb_lt _ _)) by lia. rewrite Z.div_small by lia. do 2 f_equal. lia.
Qed.

Lemma cur_at_grow len len' base pos :
  0 < base → 0 <= pos < Z.of_nat len * base → (len ≤ len')%nat →
  cur_at len' base pos = cur_at len base pos.
Proof.
  intros. unfold cur_at.
  assert (Z.to_nat (pos / base) < len)%nat.
  { apply Nat2Z.inj_lt. rewrite Z2Nat.id by (apply Z.div_pos; lia).
    apply Z.div_lt_upper_bound; lia. }
  by rewrite !bool_decide_eq_true_2 by lia.
Qed.

Lemma cur_at_end len base pos :
  0 < base → pos = Z.of_nat len * base → cur_at len base pos = None.
Proof.
  intros ? ->. unfold cur_at. rewrite Z.div_mul by lia.
  by rewrite bool_decide_eq_false_2 by lia.
Qed.

Lemma cur_at_Some len base pos :
  0 < base → 0 <= pos < Z.of_nat len * base →
  ∃ k npos, cur_at len base pos = Some k ∧ (k < len)%nat ∧ pos mod base = npos
    ∧ 0 <= npos < base ∧ pos = Z.of_nat k * base + npos.
Proof.
  intros Hb Hp. exists (Z.to_nat (pos / base)), (pos mod base).
  pose proof (Z.mod_pos_bound pos base Hb).
  pose proof (Z.div_mod pos base ltac:(lia)).
  pose proof (Z.div_pos pos base ltac:(lia) Hb).
  assert (Z.to_nat (pos / base) < len)%nat.
  { apply Nat2Z.inj_lt. rewrite Z2Nat.id by lia. apply Z.div_lt_upper_bound; lia. }
  unfold cur_at. rewrite bool_decide_eq_true_2 by done. split_and!; try done; lia.
Qed.
