(* ===== verification/BufferSpec.v ===== *)
(** * ByteArray refines a flat buffer

    The abstract specification [Flat] of a byte buffer with one cursor, and the theorems that
    every operation of [ByteArray] implements it: on which inputs, with which errors. *)

From S2P Require Import Prelude Endian Buffer BufferFacts.
Import ByteArray.

Module Flat.
(** The readable bytes and the cursor into them. *)
Record t := mk { data : list byte; cur : nat }.

Definition write (buf : list byte) (f : t) : t :=
  mk (overwrite (data f) (cur f) buf) (cur f + length buf).
Definition unread (f : t) : list byte := drop (cur f) (data f).
Definition advance (n : nat) (f : t) : t := mk (data f) (cur f + n).
End Flat.

Record refines (b : t) (f : Flat.t) : Prop := {
  refines_wf : wf b;
  refines_data : content b = Flat.data f;
  refines_cur : cursor b = Flat.cur f;
}.

(** [recvmsg] stores the bytes it received into the vectors, in order. *)
Fixpoint scatter (ns : list Node) (vs : list iovec) (bytes : list byte) : list Node :=
  match vs with
  | [] => ns
  | v :: vs' =>
      let n := Nat.min (Z.to_nat (iov_len v)) (length bytes) in
      match ns !! iov_node v with
      | Some nd =>
          scatter (<[iov_node v := mkNode (overwrite (ptr nd) (Z.to_nat (iov_off v)) (take n bytes))
                                   (size nd)]> ns) vs' (drop n bytes)
      | None => ns
      end
  end.

(** ** Lemmas *)

Lemma length_flat_wf b : wf b → Z.of_nat (length (flat (m_nodes b))) = m_capacity b.
Proof.
  intros H. rewrite (length_flat _ _ (wf_nodes _ H)), (wf_cap _ H).
  pose proof (wf_base _ H). lia.
Qed.

Lemma length_content b : wf b → Z.of_nat (length (content b)) = m_size b.
Proof.
  intros H. pose proof (length_flat_wf b H). pose proof (wf_size _ H). pose proof (wf_pos _ H).
  unfold content. rewrite length_take. lia.
Qed.

Lemma getReadSize_wf b : wf b → getReadSize b = m_size b - m_position b.
Proof.
  intros H. pose proof (wf_pos _ H). pose proof (wf_size _ H). pose proof (wf_cap64 _ H).
  unfold getReadSize. apply u64_small. lia.
Qed.

Lemma getCapacity_wf b : wf b → getCapacity b = m_capacity b - m_position b.
Proof.
  intros H. pose proof (wf_pos _ H). pose proof (wf_size _ H). pose proof (wf_cap64 _ H).
  unfold getCapacity. apply u64_small. lia.
Qed.

Lemma wf_cur_Some b :
  wf b → m_position b < m_capacity b →
  ∃ k npos nd, m_cur b = Some k ∧ (k < length (m_nodes b))%nat ∧ m_nodes b !! k = Some nd
    ∧ m_position b mod m_baseSize b = npos ∧ 0 <= npos < m_baseSize b
    ∧ m_position b = Z.of_nat k * m_baseSize b + npos ∧ size nd = m_baseSize b.
Proof.
  intros H Hlt. pose proof (wf_cap _ H). pose proof (wf_pos _ H). pose proof (wf_base _ H).
  destruct (cur_at_Some (length (m_nodes b)) (m_baseSize b) (m_position b))
    as (k & npos & E & Hk & Hm & Hn & Hp); [lia..|].
  destruct (lookup_lt_is_Some_2 (m_nodes b) k) as [nd Hnd]; [done|].
  destruct (node_lookup _ _ (wf_nodes _ H) k nd Hnd) as (Hs & _).
  exists k, npos, nd. rewrite (wf_cur _ H). split_and!; done || lia.
Qed.

Lemma wf_base_cap b : wf b → 0 < m_baseSize b <= m_capacity b.
Proof. intros H. pose proof (wf_base _ H). pose proof (wf_ne _ H). rewrite (wf_cap _ H). nia. Qed.

Lemma make_wf `{Heap} base : 0 < base < 2 ^ 64 → wf (make base).
Proof.
  intros. split; simpl; try lia.
  - apply Forall_singleton. unfold new_node. simpl. by rewrite length_fmap, length_seq.
  - unfold cur_at. by rewrite Z.div_0_l by lia.
Qed.

Section grow.
Context `{Heap}.

Lemma ceil_quotient_bounds sz base :
  0 < base → sz <= ceil_quotient sz base * base <= sz + base - 1.
Proof.
  intros. unfold ceil_quotient.
  pose proof (Z.div_mod (sz + base - 1) base). pose proof (Z.mod_pos_bound (sz + base - 1) base).
  lia.
Qed.

(** [addCapacity] makes room for [sz] bytes at the cursor and changes nothing else a reader
    or a writer can see. *)
Lemma addCapacity_ok b sz :
  wf b → 0 <= sz → m_position b + sz + m_baseSize b < 2 ^ 53 →
  ∃ b' extra, addCapacity sz b = (Ret tt, b') ∧ wf b'
    ∧ m_position b + sz <= m_capacity b' ∧ flat (m_nodes b') = flat (m_nodes b) ++ extra
    ∧ m_baseSize b' = m_baseSize b ∧ m_position b' = m_position b ∧ m_size b' = m_size b
    ∧ m_endian b' = m_endian b.
Proof.
  intros Hwf Hsz H64. pose proof Hwf as [Hb Hns Hne Hcap Hc64 Hpos Hsize Hcur Hend].
  unfold addCapacity. destruct (Z.eqb_spec sz 0) as [->|Hsz0].
  { exists b, []. rewrite app_nil_r. split_and!; done || lia. }
  st_run reflexivity. rewrite getCapacity_wf by done.
  destruct (Z.leb_spec sz (m_capacity b - m_position b)) as [Hle|Hgt].
  { exists b, []. rewrite app_nil_r. split_and!; done || lia. }
  st_run reflexivity. rewrite (proj2 (Z.eqb_neq _ _)) by lia. cbv zeta.
  rewrite u64_small by lia.
  set (count := Z.to_nat _). set (more := _ <$> seq _ count).
  assert (Z.of_nat count * m_baseSize b >= sz - (m_capacity b - m_position b)
    ∧ Z.of_nat count * m_baseSize b <= sz - (m_capacity b - m_position b) + m_baseSize b - 1
    ∧ (0 < count)%nat) as (C1 & C2 & C3).
  { pose proof (ceil_quotient_bounds (sz - (m_capacity b - m_position b)) (m_baseSize b) Hb).
    assert (0 < ceil_quotient (sz - (m_capacity b - m_position b)) (m_baseSize b)) by nia.
    unfold count. lia. }
  do 2 st_run reflexivity. simpl. rewrite u64_small by lia.
  assert (length more = count) as Hmore by (unfold more; by rewrite length_fmap, length_seq).
  set (b' := set_cur (cur_at (length (m_nodes b ++ more)) (m_baseSize b) (m_position b))
    (set_capacity (m_capacity b + Z.of_nat count * m_baseSize b)
      (set_nodes (m_nodes b ++ more) b))).
  exists b', (flat more). split_and!; try done.
  - unfold b'. destruct (Z.eqb_spec (m_capacity b - m_position b) 0) as [E|E].
    + rewrite bool_decide_eq_true_2 by done. unfold modify. do 3 f_equal.
      replace (m_position b) with (Z.of_nat (length (m_nodes b)) * m_baseSize b + 0) by lia.
      rewrite cur_at_in, bool_decide_eq_true_2 by list_lia. done.
    + rewrite (cur_at_grow (length (m_nodes b))), <- Hcur by list_lia. done.
  - split; simpl; try done; try list_lia.
    apply Forall_app. split; [done|]. apply Forall_fmap, Forall_forall. intros k _. simpl.
    unfold new_node. simpl. by rewrite length_fmap, length_seq.
  - simpl. lia.
  - simpl. unfold flat, blocks. by rewrite fmap_app, concat_app.
Qed.
End grow.

Section refinement.
Context `{Heap}.

(** Room for [n] more bytes at the cursor: within the address space, and small enough for
    the floating-point arithmetic of [addCapacity] to be exact. *)
Definition room (b : t) (n : nat) : Prop :=
  m_position b + Z.of_nat n + m_baseSize b < 2 ^ 53.

Lemma write_flat b f buf :
  refines b f → room b (length buf) →
  ∃ b', write buf (Z.of_nat (length buf)) b = (Ret tt, b') ∧ refines b' (Flat.write buf f)
    ∧ m_baseSize b' = m_baseSize b ∧ m_endian b' = m_endian b
    ∧ m_position b' = m_position b + Z.of_nat (length buf)
    ∧ m_size b' = Z.max (m_size b) (m_position b').
Proof.
  intros [Hwf Hdata Hcur] Hroom. unfold write, room in *.
  destruct (Z.eqb_spec (Z.of_nat (length buf)) 0) as [E|E].
  { assert (buf = []) as -> by (by apply nil_length_inv; lia).
    pose proof (wf_pos _ Hwf). exists b. split_and!; try done; try (simpl; lia).
    split; simpl; [done| |lia]. by rewrite overwrite_nil. }
  destruct (addCapacity_ok b (Z.of_nat (length buf))) as
    (b1 & extra & E1 & Hwf1 & Hcap1 & Hflat & Hb1 & Hp1 & Hs1 & He1); [done|lia..|].
  st_run exact E1. st_run reflexivity.
  destruct (wf_cur_Some b1) as (k & npos & nd & Hk & Hkl & Hnd & Hm & Hn & Hpk & Hsz);
    [done|lia|].
  pose proof (wf_base _ Hwf1). pose proof (wf_cap _ Hwf1). pose proof (wf_cap64 _ Hwf1).
  pose proof (wf_pos _ Hwf1). pose proof (wf_size _ Hwf1). pose proof (wf_nodes _ Hwf1) as Hns1.
  st_run (apply lift_Ret; unfold cmod; rewrite (proj2 (Z.eqb_neq _ _)) by lia; reflexivity).
  st_run (by apply (cur_node_ok b1 k)).
  rewrite Hm, Hsz, u64_small by lia.
  edestruct (write_loop_spec buf (S (S (length (m_nodes b1)))) b1 k npos
    (Z.of_nat (length buf)) 0) as (ns' & E2 & N1 & N2 & N3); try done; try lia.
  st_run exact E2. unfold modify.
  rewrite Nat2Z.id, take_ge in N3 by done. change (drop (Z.to_nat 0) buf) with buf in N3.
  set (b2 := set_cur _ _).
  assert (m_position b2 = m_position b + Z.of_nat (length buf)) as Hp2
    by (unfold b2; simpl; lia).
  set (b3 := if m_size b2 <? m_position b2 then set_size (m_position b2) b2 else b2).
  assert (b3 = set_size (Z.max (m_size b) (m_position b2)) b2) as ->.
  { unfold b3. replace (m_size b2) with (m_size b) by (unfold b2; simpl; lia).
    destruct (Z.ltb_spec (m_size b) (m_position b2)).
    - by rewrite Z.max_r by lia.
    - rewrite Z.max_l by lia. unfold b2, set_size, set_cur, set_position. simpl.
      by rewrite Hs1. }
  eexists. split; [done|]. simpl. split_and!; try (done || lia). split; simpl.
  - split; simpl; try (done || lia).
    + by rewrite N2.
    + apply (wf_endian _ Hwf1).
  - rewrite <- Hdata, <- Hcur. unfold content, cursor. simpl. rewrite N3, Hp1, Hflat.
    pose proof (length_flat_wf _ Hwf). pose proof (length_flat_wf _ Hwf1) as L1.
    rewrite Hflat in L1. pose proof (wf_size _ Hwf). pose proof (wf_pos _ Hwf).
    replace (Z.to_nat (Z.max (m_size b) (m_position b + Z.of_nat (length buf)))) with
      (Z.to_nat (m_size b) `max` (Z.to_nat (m_position b) + length buf))%nat by lia.
    rewrite take_overwrite_grow by lia. f_equal. rewrite take_app_le by lia. done.
  - rewrite <- Hcur. unfold cursor. simpl. lia.
Qed.

Lemma refines_bounds b f :
  refines b f →
  Z.of_nat (Flat.cur f) = m_position b ∧ Z.of_nat (length (Flat.data f)) = m_size b
  ∧ 0 <= m_position b <= m_size b ∧ m_size b <= m_capacity b ∧ m_capacity b < 2 ^ 64.
Proof.
  intros [Hwf Hdata Hcur]. pose proof (length_content b Hwf). destruct Hwf.
  rewrite <- Hdata, <- Hcur. unfold cursor. lia.
Qed.

Lemma read_flat b f n :
  refines b f → (n ≤ length (Flat.unread f))%nat →
  (n = 0%nat → m_position b < m_capacity b) →
  ∃ b', read (Z.of_nat n) b = (Ret (take n (Flat.unread f)), b')
    ∧ refines b' (Flat.advance n f) ∧ m_baseSize b' = m_baseSize b
    ∧ m_endian b' = m_endian b ∧ m_position b' = m_position b + Z.of_nat n
    ∧ m_size b' = m_size b ∧ m_capacity b' = m_capacity b.
Proof.
  intros Href Hn H0. destruct (refines_bounds b f Href) as (Hc & Hd & Hp & Hs & H64).
  destruct Href as [Hwf Hdata Hcur].
  unfold Flat.unread in *. rewrite length_drop in Hn.
  unfold read. st_run reflexivity. rewrite getReadSize_wf by done.
  rewrite (proj2 (Z.ltb_ge _ _)) by lia. st_run reflexivity.
  pose proof (wf_base_cap _ Hwf). pose proof (wf_cap _ Hwf). pose proof (wf_nodes _ Hwf).
  destruct (wf_cur_Some b) as (k & npos & nd & Hk & Hkl & Hnd & Hm & Hnp & Hpk & Hsz);
    [done| |].
  { destruct n; [by apply H0|lia]. }
  st_run (apply lift_Ret; unfold cmod; rewrite (proj2 (Z.eqb_neq _ _)) by lia; reflexivity).
  st_run (by apply (cur_node_ok b k)).
  rewrite Hm, Hsz, u64_small by lia.
  destruct (decide (n = 0%nat)) as [->|Hn0].
  - simpl. exists b. split; [done|]. split_and!; try (done || lia).
    split; simpl; [done..|lia].
  - rewrite (read_loop_spec _ _ k npos) by (done || lia).
    match goal with |- ∃ _, (_, ?s) = _ ∧ _ => exists s end.
    split; [|simpl; split_and!; try (done || lia)].
    + f_equal. f_equal. rewrite <- Hdata, <- Hcur. unfold content, cursor.
      by rewrite Nat2Z.id, skipn_firstn_comm, take_take, Nat.min_l by lia.
    + split; simpl; [|done|rewrite <- Hcur; unfold cursor; simpl; lia].
      destruct Hwf. split; simpl; try done; lia.
Qed.
End refinement.

Lemma setPosition_flat b f v :
  refines b f → 0 <= v <= m_capacity b →
  ∃ b' garbage, setPosition v b = (Ret tt, b')
    ∧ refines b' (Flat.mk (Flat.data f ++ garbage) (Z.to_nat v))
    ∧ length garbage = (Z.to_nat v - length (Flat.data f))%nat
    ∧ m_baseSize b' = m_baseSize b ∧ m_endian b' = m_endian b ∧ m_position b' = v
    ∧ m_size b' = Z.max (m_size b) v ∧ m_capacity b' = m_capacity b
    ∧ m_nodes b' = m_nodes b.
Proof.
  intros Href Hv. destruct (refines_bounds b f Href) as (Hc & Hd & Hp & Hs & H64).
  destruct Href as [Hwf Hdata Hcur]. unfold setPosition. st_run reflexivity.
  rewrite (proj2 (Z.ltb_ge _ _)) by lia. do 2 st_run reflexivity.
  pose proof Hwf as [? ? ? Hcap ? ? ? ? ?].
  st_run (apply lift_Ret, (seek_spec (m_baseSize b)); done || lia).
  unfold modify. cbn [m_size set_position m_position].
  set (g := (flat (m_nodes b)).[Z.to_nat (m_size b), Z.to_nat v - Z.to_nat (m_size b)]).
  match goal with |- ∃ _ _, (_, ?s) = _ ∧ _ => exists s, g end.
  assert (length g = Z.to_nat v - Z.to_nat (m_size b))%nat as Hg.
  { unfold g. pose proof (length_flat_wf _ Hwf). rewrite length_take, length_drop. lia. }
  assert ((if m_size b <? v then set_size v (set_position v b) else set_position v b)
    = set_size (Z.max (m_size b) v) (set_position v b)) as ->.
  { destruct (Z.ltb_spec (m_size b) v); [by rewrite Z.max_r by lia|].
    rewrite Z.max_l by lia. by destruct b. }
  split_and!; try done; [|lia]. split; simpl.
  - split; simpl; try done; try lia. rewrite <- Hcap. unfold cur_at.
    destruct (Z.ltb_spec v (m_capacity b)) as [Hlt|Hge].
    + assert (Z.to_nat (v / m_baseSize b) < length (m_nodes b))%nat.
      { apply Nat2Z.inj_lt. rewrite Z2Nat.id by (apply Z.div_pos; lia).
        apply Z.div_lt_upper_bound; lia. }
      by rewrite bool_decide_eq_true_2.
    + replace v with (Z.of_nat (length (m_nodes b)) * m_baseSize b) by lia.
      by rewrite Z.div_mul, bool_decide_eq_false_2 by lia.
  - rewrite <- Hdata. unfold content, g. simpl.
    rewrite take_take_drop. f_equal. lia.
  - done.
Qed.

Lemma Flat_write_app f x y :
  (Flat.cur f ≤ length (Flat.data f))%nat →
  Flat.write y (Flat.write x f) = Flat.write (x ++ y) f.
Proof.
  intros. unfold Flat.write. simpl. rewrite overwrite_split by done. f_equal.
  rewrite length_app. lia.
Qed.

Lemma iovs_cover_length ns ns' base vs : ∀ pos len,
  length ns' = length ns → iovs_cover ns base pos vs len → iovs_cover ns' base pos vs len.
Proof.
  induction vs as [|v vs IH]; simpl; intros pos len Hl; [done|].
  intros ([nd Hnd] & ? & ? & ? & ? & ?). split_and!; try done; [|by apply IH].
  apply lookup_lt_is_Some_2. rewrite Hl. by eapply lookup_lt_Some.
Qed.

Lemma scatter_spec base vs : ∀ ns pos len bytes,
  0 < base → nodes_ok base ns → 0 <= pos → iovs_cover ns base pos vs len →
  Z.of_nat (length bytes) <= len →
  nodes_ok base (scatter ns vs bytes) ∧ length (scatter ns vs bytes) = length ns
  ∧ flat (scatter ns vs bytes) = overwrite (flat ns) (Z.to_nat pos) bytes.
Proof.
  induction vs as [|v vs IH]; intros ns pos len bytes Hb Hns Hpos Hv Hlen; simpl in *.
  { destruct bytes; [|simpl in Hlen; lia]. by rewrite overwrite_nil. }
  destruct Hv as ([nd Hnd] & H1 & H2 & H3 & H4 & H5). rewrite Hnd.
  pose proof (iovs_cover_nonneg _ _ _ _ _ H5).
  set (n := Nat.min _ _).
  destruct (node_update base ns Hb Hns _ nd (Z.to_nat (iov_off v)) (take n bytes) Hnd)
    as (N1 & N2 & N3); [list_lia|].
  destruct (IH _ (pos + iov_len v) (len - iov_len v) (drop n bytes) Hb N1) as (M1 & M2 & M3);
    [lia| |list_lia|].
  { by eapply iovs_cover_length, H5. }
  split_and!; [done|lia|]. rewrite M3, N3, <- (pos_nat pos) by (done || lia).
  destruct (Z.leb_spec (Z.of_nat (length bytes)) (iov_len v)).
  - rewrite (drop_ge bytes), take_ge, overwrite_nil by lia. done.
  - replace (Z.to_nat (pos + iov_len v)) with (Z.to_nat pos + length (take n bytes))%nat
      by list_lia.
    rewrite overwrite_split, take_drop; [done|].
    rewrite (length_flat _ _ Hns). apply lookup_lt_Some in Hnd. nia.
Qed.

(** The prologue of a traversal from the cursor, and the collection of [len] bytes from it. *)
Lemma prologue b :
  wf b → m_position b < m_capacity b →
  ∃ k npos nd, m_cur b = Some k ∧ (k < length (m_nodes b))%nat ∧ m_nodes b !! k = Some nd
    ∧ cmod (m_position b) (m_baseSize b) = Ret npos ∧ 0 <= npos < m_baseSize b
    ∧ m_position b = Z.of_nat k * m_baseSize b + npos
    ∧ node_at b (m_cur b) = Ret nd ∧ u64 (size nd - npos) = m_baseSize b - npos.
Proof.
  intros Hwf Hlt. pose proof (wf_base_cap _ Hwf). pose proof (wf_cap64 _ Hwf).
  destruct (wf_cur_Some b) as (k & npos & nd & Hk & Hkl & Hnd & Hm & Hnp & Hpk & Hsz);
    [done..|].
  exists k, npos, nd. unfold cmod, node_at. rewrite Hk, Hnd, Hm, Hsz.
  rewrite (proj2 (Z.eqb_neq _ _)), u64_small by lia. split_and!; done || lia.
Qed.

Lemma buffers_at_cursor b k npos len :
  wf b → (k < length (m_nodes b))%nat → 0 <= npos < m_baseSize b →
  m_position b = Z.of_nat k * m_baseSize b + npos → 
  0 < len → m_position b + len <= m_capacity b →
  ∃ vs, buffers_loop (S (S (length (m_nodes b)))) b (Some k) len npos (m_baseSize b - npos)
        = Ret vs
    ∧ iovs_cover (m_nodes b) (m_baseSize b) (m_position b) vs len.
Proof.
  intros Hwf Hk Hn Hp Hl Hfit. pose proof (wf_cap _ Hwf). pose proof (wf_base _ Hwf).
  rewrite Hp. apply buffers_loop_spec; try done; try lia. apply (wf_nodes _ Hwf).
Qed.

(** ** The contract of the operations *)

Section contract.
Context `{Heap}.

(** C1. [write] implements the flat buffer: it overwrites (and extends) the readable bytes at
    the cursor with exactly [buf], moves the cursor past them, keeps the chain well formed,
    and cannot fail while the end of the new data stays inside the address space. *)
Theorem write_refines b f buf :
  refines b f → room b (length buf) →
  ∃ b', write buf (Z.of_nat (length buf)) b = (Ret tt, b') ∧ refines b' (Flat.write buf f).
Proof.
  intros Href Hroom. destruct (write_flat b f buf Href Hroom) as (b' & ? & ? & _). eauto.
Qed.

(** C12. [read] returns the next [n] unread bytes and moves the cursor past them; when fewer
    than [n] bytes are unread it throws [out_of_range] and leaves the object as it was. *)
Theorem read_refines b f n :
  refines b f →
  if decide (n ≤ length (Flat.unread f))%nat then
    (n = 0%nat → m_position b < m_capacity b) →
    ∃ b', read (Z.of_nat n) b = (Ret (take n (Flat.unread f)), b')
      ∧ refines b' (Flat.advance n f)
  else read (Z.of_nat n) b = (Throw out_of_range, b).
Proof.
  intros Href. case_decide as Hn.
  - intros H0. destruct (read_flat b f n Href Hn H0) as (b' & ? & ? & _). eauto.
  - destruct (refines_bounds b f Href) as (Hc & Hd & Hp & Hs & H64).
    unfold Flat.unread in Hn. rewrite length_drop in Hn.
    unfold read. st_run reflexivity. rewrite getReadSize_wf by apply Href.
    by rewrite (proj2 (Z.ltb_lt _ _)) by lia.
Qed.

(** Reading nothing is not always harmless: when the cursor stands at the end of the
    allocated blocks, [read(buf, 0)] dereferences the null [m_cur]. *)
Theorem read_nothing_at_end b :
  wf b → m_position b = m_capacity b → read 0 b = (Undef, b).
Proof.
  intros Hwf Hp. pose proof (wf_base_cap _ Hwf). pose proof (wf_pos _ Hwf).
  unfold read. st_run reflexivity. rewrite getReadSize_wf by done.
  rewrite (proj2 (Z.ltb_ge _ _)) by lia. st_run reflexivity.
  st_run (apply lift_Ret; unfold cmod; rewrite (proj2 (Z.eqb_neq _ _)) by lia; reflexivity).
  unfold mbind, st_bind, cur_node.
  by rewrite (wf_cur _ Hwf), cur_at_end by (done || (rewrite Hp; apply (wf_cap _ Hwf)) || lia).
Qed.

(** [setPosition(v)] throws [out_of_range] past the capacity and changes nothing; else it
    moves the cursor to [v], and a cursor past the readable bytes makes the bytes in
    between (whatever the blocks held) readable. *)
Theorem setPosition_refines b f v :
  refines b f → 0 <= v →
  if decide (v <= m_capacity b) then
    ∃ b' garbage, setPosition v b = (Ret tt, b')
      ∧ length garbage = (Z.to_nat v - length (Flat.data f))%nat
      ∧ refines b' (Flat.mk (Flat.data f ++ garbage) (Z.to_nat v))
  else setPosition v b = (Throw out_of_range, b).
Proof.
  intros Href Hv. case_decide.
  - destruct (setPosition_flat b f v Href) as (b' & g & ? & ? & ? & _); [lia|eauto].
  - unfold setPosition. st_run reflexivity. by rewrite (proj2 (Z.ltb_lt _ _)) by lia.
Qed.
End contract.
