(* ===== verification/BufferIO.v ===== *)
(** * ByteArray: buffer vectors, text and files

    What the operations that hand the blocks to the kernel or to a file promise: the gather
    and scatter lists, [toString], [writeToFile] and [readFromFile]. *)

From S2P Require Import Prelude Endian Buffer BufferFacts BufferSpec.
Import ByteArray.

(** ** Lemmas *)

Lemma unread_range b f :
  refines b f →
  Flat.unread f = (flat (m_nodes b)).[Z.to_nat (m_position b), Z.to_nat (m_size b - m_position b)].
Proof.
  intros Href. destruct (refines_bounds b f Href) as (Hc & Hd & Hp & _).
  destruct Href as [Hwf Hdata Hcur]. unfold Flat.unread. rewrite <- Hdata, <- Hcur.
  unfold content, cursor. rewrite skipn_firstn_comm. f_equal. lia.
Qed.

Lemma take_unread b f n :
  refines b f → (n ≤ length (Flat.unread f))%nat →
  (flat (m_nodes b)).[Z.to_nat (m_position b), n] = take n (Flat.unread f).
Proof.
  intros Href Hn. rewrite (unread_range b f Href) in *.
  rewrite take_take. rewrite length_take in Hn. f_equal. lia.
Qed.

Lemma length_unread b f :
  refines b f → Z.of_nat (length (Flat.unread f)) = m_size b - m_position b.
Proof.
  intros Href. destruct (refines_bounds b f Href) as (Hc & Hd & Hp & _).
  unfold Flat.unread. rewrite length_drop. lia.
Qed.

Lemma read_at_cursor b f :
  refines b f → 0 < getReadSize b →
  read_at b (getReadSize b) (m_position b) = Ret (Flat.unread f).
Proof.
  intros Href. pose proof (refines_wf _ _ Href) as Hwf. rewrite getReadSize_wf by done.
  intros Hrs. destruct (refines_bounds b f Href) as (Hc & Hd & Hp & Hs & H64).
  pose proof (wf_base_cap _ Hwf). pose proof (wf_cap _ Hwf).
  unfold read_at. rewrite u64_small by lia. rewrite (proj2 (Z.ltb_ge _ _)) by lia.
  destruct (wf_cur_Some b) as (k & npos & nd & Hk & Hkl & Hnd & Hm & Hnp & Hpk & Hsz);
    [done|lia|].
  unfold cmod, node_at. rewrite (proj2 (Z.eqb_neq _ _)), bind_Ret, Hk, Hnd by lia. cbn [deref].
  rewrite bind_Ret, Hm, Hsz, u64_small by lia.
  rewrite read_at_loop_spec by (done || lia || apply (wf_nodes _ Hwf)).
  f_equal. rewrite (unread_range b f Href). by rewrite (pos_nat _ _ _ _ Hpk) by lia.
Qed.

(** Objects for which the [int] and [int64_t] of [writeToFile] hold every value. *)
Definition file_sized (b : t) : Prop := m_baseSize b < 2 ^ 31 ∧ m_capacity b < 2 ^ 63.

(** One turn of the loop, the conversions being the identity. *)
Lemma writeToFile_loop_S fuel b cur rs pos :
  wf b → file_sized b → 0 < rs < 2 ^ 63 → 0 <= pos < 2 ^ 64 →
  let diff := pos mod m_baseSize b in
  let len := Z.min (m_baseSize b) rs - diff in
  writeToFile_loop (S fuel) b cur rs pos =
    (nd ← node_at b cur;
     src ← block (ptr nd) diff len;
     cur' ← next_of b cur;
     rest ← writeToFile_loop fuel b cur' (rs - len) (pos + len);
     Ret (src ++ rest)).
Proof.
  intros Hwf [Hb31 _] Hrs Hpos diff len. pose proof (wf_base _ Hwf) as Hb.
  pose proof (Z.mod_pos_bound pos _ Hb). change (0 <= diff < m_baseSize b) in H.
  cbn [writeToFile_loop]. rewrite (proj2 (Z.ltb_lt 0 rs)) by lia.
  unfold cmod. rewrite (proj2 (Z.eqb_neq _ _)), bind_Ret, (u64_small pos) by lia.
  fold diff. cbv zeta. rewrite (swrap_small 32), (swrap_small 64 (m_baseSize b))
    by (lia || (unfold fits_s; simpl; lia)).
  replace (if m_baseSize b <? rs then m_baseSize b else rs) with (Z.min (m_baseSize b) rs)
    by (destruct (Z.ltb_spec (m_baseSize b) rs); lia).
  rewrite swrap_uwrap by lia. fold len. assert (len = Z.min (m_baseSize b) rs - diff) by done.
  rewrite swrap_small by (lia || (unfold fits_s; simpl; lia)). done.
Qed.

(** An aligned position: the rest of the file is written block by block. *)
Lemma writeToFile_loop_aligned b fuel : ∀ k rs,
  wf b → file_sized b → 0 <= rs → Z.of_nat k * m_baseSize b + rs <= m_capacity b →
  (length (m_nodes b) + 1 < fuel + k)%nat →
  writeToFile_loop fuel b (if bool_decide (k < length (m_nodes b))%nat then Some k else None)
    rs (Z.of_nat k * m_baseSize b)
    = Ret ((flat (m_nodes b)).[k * Z.to_nat (m_baseSize b), Z.to_nat rs]).
Proof.
  induction fuel as [|fuel IH]; intros k rs Hwf Hfs Hrs Hfit Hf.
  { pose proof (wf_base _ Hwf). pose proof (wf_cap _ Hwf). nia. }
  pose proof (wf_base _ Hwf) as Hb. pose proof (wf_cap _ Hwf) as Hcap. pose proof Hfs as [_ ?].
  destruct (decide (rs = 0)) as [->|Hpos]; [done|].
  assert (k < length (m_nodes b))%nat as Hk by nia. rewrite bool_decide_eq_true_2 by done.
  rewrite writeToFile_loop_S by (done || lia). cbv zeta.
  rewrite Z.mod_mul, Z.sub_0_r by lia. set (len := Z.min _ _).
  assert (len = Z.min (m_baseSize b) rs) as Hlen by done.
  destruct (lookup_lt_is_Some_2 (m_nodes b) k) as [nd Hnd]; [done|].
  destruct (node_lookup _ _ (wf_nodes _ Hwf) k nd Hnd) as (Hs & Hl & Hptr).
  unfold node_at. rewrite Hnd. cbn [deref]. rewrite bind_Ret, block_ok, bind_Ret by lia.
  cbn [next_of]. rewrite bind_Ret.
  rewrite (range_of_chunk _ _ _ _ _ _ Hptr), Nat.add_0_r by lia.
  destruct (decide (rs = len)) as [E|E].
  - rewrite <- E, Z.sub_diag. destruct fuel as [|fuel]; [lia|]. cbn [writeToFile_loop].
    rewrite Z.ltb_irrefl, bind_Ret. by rewrite app_nil_r.
  - replace (Z.of_nat k * m_baseSize b + len) with (Z.of_nat (S k) * m_baseSize b) by lia.
    rewrite IH, bind_Ret by (done || lia). f_equal.
    replace (Z.to_nat rs) with (Z.to_nat len + Z.to_nat (rs - len))%nat by lia.
    rewrite range_app. do 3 f_equal. lia.
Qed.

Lemma skip_nodes_ok b n k :
  (k + n < length (m_nodes b))%nat → skip_nodes b (Some k) n = Ret (Some (k + n)%nat).
Proof.
  revert k. induction n as [|n IH]; intros k Hk; simpl; [by rewrite Nat.add_0_r|].
  rewrite bool_decide_eq_true_2 by lia. simpl. rewrite IH by lia. do 2 f_equal. lia.
Qed.

(** A misaligned cursor with less than a block to write: the loop never finishes normally. *)
Lemma writeToFile_loop_stuck b fuel : ∀ cur rs pos,
  wf b → file_sized b → 0 < rs < 2 ^ 63 → 0 <= pos < 2 ^ 64 → rs <= pos mod m_baseSize b →
  (match cur with Some k => k < length (m_nodes b) < fuel + k | None => 0 < fuel end)%nat →
  writeToFile_loop fuel b cur rs pos = Undef.
Proof.
  induction fuel as [|fuel IH]; intros cur rs pos Hwf Hfs Hrs Hpos Hle Hf.
  { destruct cur as [k|]; lia. }
  pose proof (wf_base _ Hwf) as Hb. pose proof (Z.mod_pos_bound pos _ Hb).
  rewrite writeToFile_loop_S by (done || lia). cbv zeta.
  rewrite Z.min_r by lia.
  destruct cur as [k|]; [|done].
  destruct (lookup_lt_is_Some_2 (m_nodes b) k) as [nd Hnd]; [lia|].
  destruct (node_lookup _ _ (wf_nodes _ Hwf) k nd Hnd) as (Hs & Hl & _).
  unfold node_at. rewrite Hnd. cbn [deref]. rewrite bind_Ret.
  destruct (decide (rs < pos mod m_baseSize b)).
  - unfold block. rewrite (proj2 (Z.leb_gt 0 (rs - _))), andb_false_r by lia. done.
  - replace (rs - pos mod m_baseSize b) with 0 by lia.
    rewrite block_ok, bind_Ret by lia. cbn [next_of]. rewrite bind_Ret, Z.sub_0_r, Z.add_0_r.
    rewrite IH; [done..|]. case_bool_decide; lia.
Qed.

Lemma writeToFile_first b k npos nd rs fuel :
  wf b → file_sized b → m_nodes b !! k = Some nd → 0 <= npos < m_baseSize b →
  m_position b = Z.of_nat k * m_baseSize b + npos → 0 < rs →
  npos < Z.min (m_baseSize b) rs → m_position b + rs <= m_capacity b →
  let len := Z.min (m_baseSize b) rs - npos in
  writeToFile_loop (S fuel) b (Some k) rs (m_position b) =
    (rest ← writeToFile_loop fuel b
              (if bool_decide (S k < length (m_nodes b))%nat then Some (S k) else None)
              (rs - len) (m_position b + len);
     Ret ((flat (m_nodes b)).[Z.to_nat (m_position b), Z.to_nat len] ++ rest)).
Proof.
  intros Hwf Hfs Hnd Hn Hp Hrs Hlt Hfit len. pose proof (wf_base _ Hwf) as Hb.
  destruct (node_lookup _ _ (wf_nodes _ Hwf) k nd Hnd) as (Hs & Hl & Hptr).
  pose proof Hfs as [_ ?]. rewrite writeToFile_loop_S by (done || lia). cbv zeta.
  assert (m_position b mod m_baseSize b = npos) as ->.
  { rewrite Hp, Z.add_comm, Z.mod_add, Z.mod_small by lia. done. }
  fold len.
  unfold node_at. rewrite Hnd. cbn [deref]. rewrite bind_Ret, block_ok, bind_Ret by lia.
  cbn [next_of]. rewrite bind_Ret.
  by rewrite (range_of_chunk _ _ _ _ _ _ Hptr), <- (pos_nat _ _ _ _ Hp) by lia.
Qed.

(** ** The contract of the operations *)

Section contract.
Context `{Heap}.

(** [getWriteBuffers] reserves [len] bytes at the cursor. *)
Lemma write_buffers_ok b f buffers len :
  refines b f → 0 < len → room b (Z.to_nat len) →
  ∃ b1 vs, getWriteBuffers buffers len b = (Ret (len, buffers ++ vs), b1) ∧ refines b1 f
    ∧ m_position b1 = m_position b ∧ m_baseSize b1 = m_baseSize b
    ∧ m_position b1 + len <= m_capacity b1
    ∧ iovs_cover (m_nodes b1) (m_baseSize b1) (m_position b1) vs len.
Proof.
  intros Href Hlen Hroom. pose proof Href as [Hwf Hdata Hcur]. unfold room in Hroom.
  unfold getWriteBuffers. rewrite (proj2 (Z.eqb_neq _ _)) by lia.
  destruct (addCapacity_ok b len) as
    (b1 & extra & E1 & Hwf1 & Hcap1 & Hflat & Hb1 & Hp1 & Hs1 & He1); [done|lia..|].
  st_run exact E1. st_run reflexivity.
  destruct (prologue b1) as (k & npos & nd & Hk & Hkl & Hnd & Hm & Hnp & Hpk & Hat & Hc);
    [done|lia|].
  st_run (apply lift_Ret, Hm). st_run (by apply (cur_node_ok b1 k)).
  rewrite Hc, Hk.
  destruct (buffers_at_cursor b1 k npos len) as (vs & E & Hvs); try done; try lia.
  st_run (apply lift_Ret, E). unfold mret, st_ret. exists b1, vs.
  split; [done|]. split; [|split; [done|split; [done|split; [|done]]]].
  - split; [done| |unfold cursor; by rewrite Hp1]. rewrite <- Hdata. unfold content.
    rewrite Hflat, Hs1. apply take_app_le. pose proof (length_flat_wf _ Hwf).
    pose proof (wf_size _ Hwf). lia.
  - lia.
Qed.

(** Received bytes are stored in the vectors, and the cursor is moved over them. *)
Lemma fill_buffers_ok b f vs len bytes :
  refines b f → iovs_cover (m_nodes b) (m_baseSize b) (m_position b) vs len →
  m_position b + len <= m_capacity b → Z.of_nat (length bytes) <= len →
  ∃ b2, setPosition (m_position b + Z.of_nat (length bytes))
          (set_nodes (scatter (m_nodes b) vs bytes) b) = (Ret tt, b2)
    ∧ refines b2 (Flat.write bytes f)
    ∧ m_position b2 = m_position b + Z.of_nat (length bytes) ∧ m_baseSize b2 = m_baseSize b.
Proof.
  intros Href Hvs Hfit Hbytes. pose proof Href as [Hwf Hdata Hcur].
  pose proof (wf_pos _ Hwf). pose proof (wf_size _ Hwf). pose proof (wf_base _ Hwf).
  destruct (scatter_spec (m_baseSize b) vs (m_nodes b) (m_position b) len bytes)
    as (N1 & N2 & N3); try done; try lia; [apply Hwf..|].
  pose (bs := set_nodes (scatter (m_nodes b) vs bytes) b).
  assert (wf bs) as Hwfs by (destruct Hwf; split; simpl; try rewrite N2; done).
  destruct (setPosition_flat bs (Flat.mk (content bs) (cursor bs))
    (m_position b + Z.of_nat (length bytes))) as
    (b2 & g & E2 & Href2 & Hg & M1 & M2 & M3 & M4 & M5 & M6); [done|simpl; lia|].
  exists b2. split; [done|]. destruct Href2 as [Hwf2 Hd2 Hc2]. split; [|done].
  split; [done| |].
  - unfold content. rewrite M4, M6. unfold bs. simpl. rewrite N3.
    replace (Z.to_nat _) with
      (Z.to_nat (m_size b) `max` (Z.to_nat (m_position b) + length bytes))%nat by lia.
    pose proof (length_flat_wf _ Hwf).
    rewrite take_overwrite_grow by lia. simpl. by rewrite <- Hdata, <- Hcur.
  - unfold cursor in *. simpl. lia.
Qed.

(** [toString] is the unread part of the buffer, and moves nothing. *)
Theorem toString_unread b f : refines b f → toString b = Ret (Flat.unread f).
Proof.
  intros Href. unfold toString. pose proof (length_unread b f Href) as Hl.
  pose proof (getReadSize_wf b (refines_wf _ _ Href)) as Hr.
  pose proof (wf_pos _ (refines_wf _ _ Href)).
  destruct (Z.eqb_spec (getReadSize b) 0) as [E|E].
  - by rewrite (nil_length_inv (Flat.unread f)) by lia.
  - by apply read_at_cursor; [|lia].
Qed.

(** [getReadBuffers] hands out exactly the next [min(len, getReadSize())] unread bytes, as
    ranges of the blocks in order. *)
Theorem getReadBuffers_gathers b f buffers len :
  refines b f → 0 <= len →
  let n := Z.min len (getReadSize b) in
  ∃ vs, getReadBuffers b buffers len = Ret (n, buffers ++ vs)
    ∧ iovs_bytes (m_nodes b) vs = take (Z.to_nat n) (Flat.unread f).
Proof.
  intros Href Hlen n. pose proof (refines_wf _ _ Href) as Hwf.
  pose proof (length_unread b f Href). pose proof (getReadSize_wf b Hwf).
  pose proof (wf_pos _ Hwf). pose proof (wf_size _ Hwf).
  unfold getReadBuffers.
  assert ((if getReadSize b <? len then getReadSize b else len) = n) as ->
    by (unfold n; destruct (Z.ltb_spec (getReadSize b) len); lia).
  destruct (Z.eqb_spec n 0) as [->|Hn].
  { exists []. by rewrite app_nil_r. }
  destruct (prologue b) as (k & npos & nd & Hk & Hkl & Hnd & Hm & Hnp & Hpk & Hat & Hc);
    [done|lia|]. rewrite Hm, bind_Ret, Hat, bind_Ret, Hc, Hk.
  destruct (buffers_at_cursor b k npos n) as (vs & E & Hvs); try done; try lia.
  rewrite E, bind_Ret. exists vs. split; [done|].
  rewrite (iovs_cover_bytes (m_baseSize b) _ vs (m_position b) n)
    by (done || apply Hwf || lia).
  apply take_unread; [done|lia].
Qed.

(** The overload with a [position] argument ignores it: it collects from the cursor, as
    the overload without the argument does. *)
Theorem getReadBuffers_at_ignores_position b buffers len position :
  wf b → 0 <= len →
  getReadBuffers_at b buffers len position = getReadBuffers b buffers len.
Proof.
  intros Hwf Hlen. pose proof (getReadSize_wf b Hwf). pose proof (wf_pos _ Hwf).
  pose proof (wf_size _ Hwf).
  unfold getReadBuffers_at, getReadBuffers. cbv zeta.
  destruct (Z.eqb_spec (if getReadSize b <? len then getReadSize b else len) 0) as [|E]; [done|].
  destruct (Z.ltb_spec (m_position b) (m_capacity b)) as [Hlt|Hge].
  - destruct (prologue b) as (k & npos & nd & Hk & Hkl & Hnd & Hm & Hnp & Hpk & Hat & Hc);
      [done..|]. rewrite Hm, !bind_Ret.
    assert (Z.to_nat (m_position b / m_baseSize b) = k) as ->.
    { rewrite Hpk, Z.div_add_l, Z.div_small by lia. lia. }
    rewrite skip_nodes_ok, bind_Ret by lia. simpl. by rewrite Hk.
  - destruct (Z.ltb_spec (getReadSize b) len); lia.
Qed.

(** The receive path of the streams: [getWriteBuffers] reserves [len] bytes at the cursor
    without changing what a reader sees; storing received bytes in the vectors it returns
    and moving the cursor over them is exactly [write] of those bytes. *)
Theorem getWriteBuffers_scatters b f buffers len bytes :
  refines b f → 0 < len → room b (Z.to_nat len) → Z.of_nat (length bytes) <= len →
  ∃ b1 vs b2,
    getWriteBuffers buffers len b = (Ret (len, buffers ++ vs), b1) ∧ refines b1 f
    ∧ setPosition (m_position b1 + Z.of_nat (length bytes))
        (set_nodes (scatter (m_nodes b1) vs bytes) b1) = (Ret tt, b2)
    ∧ refines b2 (Flat.write bytes f).
Proof.
  intros Href Hlen Hroom Hbytes.
  destruct (write_buffers_ok b f buffers len) as (b1 & vs & E & Hr & _ & _ & Hc & Hvs); [done..|].
  destruct (fill_buffers_ok b1 f vs len bytes) as (b2 & E2 & H2 & _); try done.
  by exists b1, vs, b2.
Qed.

(** [writeToFile] writes exactly the unread bytes when the cursor stands at a block
    boundary or at least a block is unread. *)
Theorem writeToFile_correct b f :
  refines b f → file_sized b →
  m_position b mod m_baseSize b = 0 ∨ m_baseSize b <= getReadSize b ∨ getReadSize b = 0 →
  writeToFile true b = Ret (true, Flat.unread f).
Proof.
  intros Href Hfs Hcase. pose proof (refines_wf _ _ Href) as Hwf. pose proof Hfs as [_ ?].
  pose proof (getReadSize_wf b Hwf). pose proof (wf_pos _ Hwf). pose proof (wf_size _ Hwf).
  pose proof (wf_base_cap _ Hwf). pose proof (wf_cap _ Hwf).
  unfold writeToFile. cbn [negb].
  rewrite !(swrap_small 64) by (lia || (unfold fits_s; simpl; lia)).
  replace (Flat.unread f) with ((flat (m_nodes b)).[Z.to_nat (m_position b),
    Z.to_nat (getReadSize b)]) by (rewrite (unread_range b f Href); do 2 f_equal; lia).
  destruct (decide (getReadSize b = 0)) as [E|E].
  { by rewrite E. }
  destruct (prologue b) as (k & npos & nd & Hk & Hkl & Hnd & Hm & Hnp & Hpk & Hat & Hc);
    [done|lia|].
  assert (m_position b mod m_baseSize b = npos) as Hmod.
  { rewrite Hpk, Z.add_comm, Z.mod_add, Z.mod_small by lia. done. }
  rewrite Hk, (writeToFile_first b k npos nd) by (done || lia).
  set (len := Z.min _ _ - npos).
  destruct (decide (getReadSize b = len)) as [El|El].
  - rewrite <- El, Z.sub_diag. cbn [writeToFile_loop]. rewrite Z.ltb_irrefl, !bind_Ret.
    by rewrite app_nil_r.
  - replace (m_position b + len) with (Z.of_nat (S k) * m_baseSize b) by lia.
    rewrite writeToFile_loop_aligned, !bind_Ret by (done || lia). do 2 f_equal.
    replace (Z.to_nat (getReadSize b)) with
      (Z.to_nat len + Z.to_nat (getReadSize b - len))%nat by lia.
    rewrite range_app. do 2 f_equal. pose proof (pos_nat _ _ _ _ Hpk). f_equal. lia.
Qed.

(** In every other case the loop computes a negative count or runs off the chain. *)
Theorem writeToFile_misaligned b :
  wf b → file_sized b → 0 < m_position b mod m_baseSize b → 0 < getReadSize b < m_baseSize b →
  writeToFile true b = Undef.
Proof.
  intros Hwf Hfs Hd Hrs. pose proof Hfs as [_ ?]. pose proof (wf_pos _ Hwf).
  pose proof (getReadSize_wf b Hwf). pose proof (wf_size _ Hwf).
  pose proof (wf_base_cap _ Hwf).
  destruct (prologue b) as (k & npos & nd & Hk & Hkl & Hnd & Hm & Hnp & Hpk & Hat & Hc);
    [done|lia|].
  assert (m_position b mod m_baseSize b = npos) as Hmod.
  { rewrite Hpk, Z.add_comm, Z.mod_add, Z.mod_small by lia. done. }
  unfold writeToFile. cbn [negb].
  rewrite Hk, !(swrap_small 64) by (lia || (unfold fits_s; simpl; lia)).
  destruct (decide (getReadSize b <= npos)).
  - rewrite writeToFile_loop_stuck; [done|done|done|lia..].
  - rewrite (writeToFile_first b k npos nd) by (done || lia).
    rewrite Z.min_r by lia. rewrite writeToFile_loop_stuck; [done|done|done|lia|lia| |].
    + replace (m_position b + (getReadSize b - npos)) with
        (getReadSize b + Z.of_nat k * m_baseSize b) by lia.
      rewrite Z.mod_add, Z.mod_small by lia. lia.
    + case_bool_decide; lia.
Qed.

(** [readFromFile] is one [write] of the whole file, whatever its length relative to the
    block size, and reports a file that does not open without touching the object. *)
Theorem readFromFile_writes_content b f file :
  refines b f →
  match file with
  | None => readFromFile file b = (Ret false, b)
  | Some bytes =>
      room b (length bytes) →
      ∃ b', readFromFile file b = (Ret true, b') ∧ refines b' (Flat.write bytes f)
  end.
Proof.
  intros Href. destruct file as [bytes|]; [|done]. intros Hroom.
  assert (∀ fuel bytes b f, refines b f → room b (length bytes) → (length bytes < fuel)%nat →
    ∃ b', readFromFile_loop fuel bytes b = (Ret tt, b') ∧ refines b' (Flat.write bytes f))
    as Hloop.
  { clear. induction fuel as [|fuel IH]; intros bytes b f Href Hroom Hf; [lia|].
    pose proof (wf_base_cap _ (refines_wf _ _ Href)). unfold room in *.
    destruct (refines_bounds b f Href) as (? & ? & ? & ? & ?).
    cbn [readFromFile_loop]. st_run reflexivity.
    set (n := Z.to_nat (m_baseSize b)). cbv zeta.
    destruct (write_flat b f (take n bytes)) as (b1 & E1 & Href1 & Hb1 & _ & Hp1 & _);
      [done|unfold room; list_lia|].
    st_run exact E1. case_bool_decide as Hlen.
    - exists b1. split; [done|]. rewrite length_take in Hlen.
      by rewrite take_ge in Href1 by lia.
    - rewrite length_take in *.
      destruct (IH (drop n bytes) b1 (Flat.write (take n bytes) f)) as (b2 & E2 & Href2);
        [done|rewrite length_drop; lia..|].
      exists b2. split; [done|]. rewrite Flat_write_app, take_drop in Href2 by lia. done. }
  unfold readFromFile. destruct (Hloop (S (length bytes)) bytes b f) as (b' & E & ?); [done..|lia|].
  exists b'. by st_run exact E.
Qed.
End contract.
