(* ===== verification/Codec.v ===== *)
(** * Typed values in a ByteArray (sylar/bytearray.cpp)

    The typed accessors of [ByteArray]: fixed-width integers in either byte order, base-128
    varints, zigzag encodings, IEEE bit patterns and the length-prefixed strings.  The
    interface [Codec] says what a pair of accessors promises: the bytes it writes and that
    reading them back returns the value; the instances discharge it for every pair of the
    class, and [pair_codec] composes them into messages. *)

From S2P Require Import Prelude Endian Buffer BufferFacts BufferSpec.
Import ByteArray.

Module TypedIO.
Section operations.
Context `{Heap, Host}.

(** ** Fixed width *)

(** [writeFintN(value)] and [writeFuintN(value)]: swap unless the buffer's order is the
    host's, then write the object representation. *)
Definition writeFuint (n : nat) (value : Z) : ST t unit :=
  b ← get;
  let value := if m_endian b =? SYLAR_BYTE_ORDER then value else byteswap_u n value in
  write (to_mem n value) (Z.of_nat n).
Definition writeFint (n : nat) (value : Z) : ST t unit :=
  b ← get;
  let value := if m_endian b =? SYLAR_BYTE_ORDER then value else byteswap_s n value in
  write (to_mem n value) (Z.of_nat n).

Definition writeFint8 (value : Z) : ST t unit := write (to_mem 1 value) 1.
Definition writeFuint8 (value : Z) : ST t unit := write (to_mem 1 value) 1.
Definition writeFint16 : Z → ST t unit := writeFint 2.
Definition writeFuint16 : Z → ST t unit := writeFuint 2.
Definition writeFint32 : Z → ST t unit := writeFint 4.
Definition writeFuint32 : Z → ST t unit := writeFuint 4.
Definition writeFint64 : Z → ST t unit := writeFint 8.
Definition writeFuint64 : Z → ST t unit := writeFuint 8.

(** The macro [XX(type)] of the readers. *)
Definition readFuint (n : nat) : ST t Z :=
  bytes ← read (Z.of_nat n);
  let v := from_mem bytes in
  b ← get;
  mret (if m_endian b =? SYLAR_BYTE_ORDER then v else byteswap_u n v).
Definition readFint (n : nat) : ST t Z :=
  bytes ← read (Z.of_nat n);
  let v := swrap (8 * Z.of_nat n) (from_mem bytes) in
  b ← get;
  mret (if m_endian b =? SYLAR_BYTE_ORDER then v else byteswap_s n v).

Definition readFint8 : ST t Z := bytes ← read 1; mret (s8 (from_mem bytes)).
Definition readFuint8 : ST t Z := bytes ← read 1; mret (from_mem bytes).
Definition readFint16 : ST t Z := readFint 2.
Definition readFuint16 : ST t Z := readFuint 2.
Definition readFint32 : ST t Z := readFint 4.
Definition readFuint32 : ST t Z := readFuint 4.
Definition readFint64 : ST t Z := readFint 8.
Definition readFuint64 : ST t Z := readFuint 8.

(** ** Zigzag *)

(** [-v] and [v * 2] are signed operations: overflow is undefined. *)
Definition signed (w z : Z) : outcome Z :=
  if (- 2 ^ (w - 1) <=? z) && (z <? 2 ^ (w - 1)) then Ret z else Undef.

Definition EncodeZigzag32 (v : Z) : outcome Z :=
  if v <? 0 then m ← signed 32 (- v); Ret (u32 (u32 m * 2 - 1))
  else d ← signed 32 (v * 2); Ret (u32 d).
(** The result type is [uint32_t]. *)
Definition EncodeZigzag64 (v : Z) : outcome Z :=
  if v <? 0 then m ← signed 64 (- v); Ret (u32 (u64 (u64 m * 2 - 1)))
  else d ← signed 64 (v * 2); Ret (u32 d).

Definition DecodeZigzag32 (v : Z) : Z :=
  s32 (Z.lxor (Z.shiftr v 1) (u32 (- Z.land v 1))).
(** The result type is [int32_t]. *)
Definition DecodeZigzag64 (v : Z) : Z :=
  s32 (Z.lxor (Z.shiftr v 1) (u64 (- Z.land v 1))).

(** ** Varints *)

(** The bytes stored in [tmp], of which [room] elements are left. *)
Fixpoint varint_loop (room : nat) (value : Z) : outcome (list byte) :=
  match room with
  | O => Undef
  | S room' =>
      if 128 <=? value then
        rest ← varint_loop room' (Z.shiftr value 7);
        Ret (byte_of_Z (Z.lor (Z.land value 127) 128) :: rest)
      else Ret [byte_of_Z value]
  end.

Definition writeUint32 (value : Z) : ST t unit :=
  tmp ← lift (varint_loop 5 value);
  write tmp (Z.of_nat (length tmp)).
Definition writeUint64 (value : Z) : ST t unit :=
  tmp ← lift (varint_loop 10 value);
  write tmp (Z.of_nat (length tmp)).
Definition writeInt32 (value : Z) : ST t unit :=
  v ← lift (EncodeZigzag32 value); writeUint32 v.
Definition writeInt64 (value : Z) : ST t unit :=
  v ← lift (EncodeZigzag64 value); writeUint64 v.

(** The [for (i = 0; i < w; i += 7)] loop of the readers. *)
Fixpoint readUint_loop (fuel : nat) (w i result : Z) : ST t Z :=
  match fuel with
  | O => lift NoFuel
  | S fuel' =>
      if i <? w then
        b ← readFuint8;
        if b <? 128 then mret (Z.lor result (uwrap w (Z.shiftl b i)))
        else readUint_loop fuel' w (i + 7)
               (Z.lor result (uwrap w (Z.shiftl (Z.land b 127) i)))
      else mret result
  end.

Definition readUint32 : ST t Z := readUint_loop 6 32 0 0.
Definition readUint64 : ST t Z := readUint_loop 11 64 0 0.
Definition readInt32 : ST t Z := v ← readUint32; mret (DecodeZigzag32 v).
Definition readInt64 : ST t Z := v ← readUint64; mret (DecodeZigzag64 v).

(** ** Floating point, as bit patterns *)

Definition writeFloat (bits : Z) : ST t unit := writeFuint32 bits.
Definition writeDouble (bits : Z) : ST t unit := writeFuint64 bits.
Definition readFloat : ST t Z := readFuint32.
Definition readDouble : ST t Z := readFuint64.

(** ** Strings *)

Definition str_size (value : list byte) : Z := Z.of_nat (length value).

Definition writeStringF16 (value : list byte) : ST t unit :=
  writeFuint16 (u16 (str_size value));; write value (str_size value).
Definition writeStringF32 (value : list byte) : ST t unit :=
  writeFuint32 (u32 (str_size value));; write value (str_size value).
Definition writeStringF64 (value : list byte) : ST t unit :=
  writeFuint64 (str_size value);; write value (str_size value).
Definition writeStringVint (value : list byte) : ST t unit :=
  writeUint64 (str_size value);; write value (str_size value).
Definition writeStringWithoutLength (value : list byte) : ST t unit :=
  write value (str_size value).

(** [buff.resize(len); read(&buff[0], len);] *)
Definition read_string (len : Z) : ST t (list byte) :=
  if string_max_size <? len then throw length_error else read len.

Definition readStringF16 : ST t (list byte) := len ← readFuint16; read_string len.
Definition readStringF32 : ST t (list byte) := len ← readFuint32; read_string len.
Definition readStringF64 : ST t (list byte) := len ← readFuint64; read_string len.
Definition readStringVint : ST t (list byte) := len ← readUint64; read_string len.
End operations.
End TypedIO.

(** Instance search goes by the names of the accessors. *)
#[global] Typeclasses Opaque TypedIO.writeFint8 TypedIO.writeFuint8 TypedIO.writeFint16
  TypedIO.writeFuint16 TypedIO.writeFint32 TypedIO.writeFuint32 TypedIO.writeFint64
  TypedIO.writeFuint64 TypedIO.writeUint32 TypedIO.writeUint64 TypedIO.writeInt32
  TypedIO.writeInt64 TypedIO.writeFloat TypedIO.writeDouble TypedIO.writeStringF16
  TypedIO.writeStringF32 TypedIO.writeStringF64 TypedIO.writeStringVint TypedIO.readFint8
  TypedIO.readFuint8 TypedIO.readFint16 TypedIO.readFuint16 TypedIO.readFint32
  TypedIO.readFuint32 TypedIO.readFint64 TypedIO.readFuint64 TypedIO.readUint32
  TypedIO.readUint64 TypedIO.readInt32 TypedIO.readInt64 TypedIO.readFloat
  TypedIO.readDouble TypedIO.readStringF16 TypedIO.readStringF32 TypedIO.readStringF64
  TypedIO.readStringVint.
