(* ===== verification/CodecSpec.v ===== *)
(** * The contract of the typed accessors of ByteArray

    The interface [Codec], its instances for every pair of accessors, and what follows for
    messages: written fields read back, in any order of types, on both kinds of host. *)

From S2P Require Import Prelude Endian Buffer BufferFacts BufferSpec Codec.
Import ByteArray TypedIO.

Definition same_shape (b b' : t) : Prop :=
  m_baseSize b' = m_baseSize b ∧ m_endian b' = m_endian b.
(** Reading does not allocate either. *)
Definition same_blocks (b b' : t) : Prop :=
  same_shape b b' ∧ m_capacity b' = m_capacity b.

Lemma same_blocks_trans b1 b2 b3 : same_blocks b1 b2 → same_blocks b2 b3 → same_blocks b1 b3.
Proof. unfold same_blocks, same_shape. intuition congruence. Qed.

(** What a writer [put] and a reader [get] promise on the values of [dom]: [put] writes
    [enc e v] at the cursor, where [e] is the byte order of the buffer, and [get] on a buffer
    that continues with [enc e v] returns [v] and consumes exactly those bytes. *)
Class Codec {A : Type} (put : A → ST t unit) (get : ST t A)
    (dom : A → Prop) (enc : Z → A → list byte) : Prop := {
  put_ok b f v :
    dom v → refines b f → room b (length (enc (m_endian b) v)) →
    ∃ b', put v b = (Ret tt, b') ∧ refines b' (Flat.write (enc (m_endian b) v) f)
      ∧ same_shape b b';
  get_ok b f v rest :
    dom v → refines b f → Flat.unread f = enc (m_endian b) v ++ rest →
    ∃ b', get b = (Ret v, b') ∧ refines b' (Flat.advance (length (enc (m_endian b) v)) f)
      ∧ same_blocks b b';
}.

(** One field after another. *)
Definition pair_put {A B} (p : A → ST t unit) (q : B → ST t unit) (v : A * B) : ST t unit :=
  p v.1;; q v.2.
Definition pair_get {A B} (p : ST t A) (q : ST t B) : ST t (A * B) :=
  a ← p; b ← q; mret (a, b).
Definition pair_dom {A B} (p : A → Prop) (q : B → Prop) (v : A * B) : Prop := p v.1 ∧ q v.2.
Definition pair_enc {A B} (p : Z → A → list byte) (q : Z → B → list byte)
    (e : Z) (v : A * B) : list byte := p e v.1 ++ q e v.2.

(** The bytes of a varint. *)
Definition varint_enc (room : nat) (v : Z) : list byte :=
  match varint_loop room v with Ret l => l | _ => [] end.
Definition zigzag_enc32 (v : Z) : list byte :=
  match EncodeZigzag32 v with Ret u => varint_enc 5 u | _ => [] end.

(** Where [EncodeZigzag32] has no signed overflow. *)
Definition zigzag_dom32 (v : Z) : Prop := - 2 ^ 31 < v < 2 ^ 30.
Definition string_dom `{Heap} (w : Z) (s : list byte) : Prop :=
  s ≠ [] ∧ fits_u w (str_size s) ∧ str_size s <= string_max_size.

(** ** Integer facts *)

Lemma land_127 v : Z.land v 127 = v mod 128.
Proof. change 127 with (Z.ones 7). by rewrite Z.land_ones by lia. Qed.

Lemma lor_land_128 v : Z.lor (Z.land v 127) 128 = v mod 128 + 128.
Proof.
  rewrite land_127. change 128 with (Z.shiftl 1 7) at 2.
  rewrite lor_shiftl by (try apply Z.mod_pos_bound; lia). done.
Qed.

Lemma lxor_ones_low w m : 0 <= w → 0 <= m < 2 ^ w → Z.lxor m (2 ^ w - 1) = 2 ^ w - 1 - m.
Proof.
  intros Hw Hm. replace (2 ^ w - 1) with (Z.ones w) by (rewrite Z.ones_equiv; lia).
  rewrite Z.sub_nocarry_ldiff.
  - apply Z.bits_inj'. intros i Hi. rewrite Z.lxor_spec, Z.ldiff_spec.
    destruct (Z.ltb_spec i w).
    + rewrite Z.ones_spec_low by lia. by destruct (Z.testbit m i).
    + rewrite Z.ones_spec_high, <- (Z.mod_small m (2 ^ w)), Z.mod_pow2_bits_high by lia. done.
  - rewrite Z.ldiff_ones_r, Z.shiftr_div_pow2, Z.div_small, Z.shiftl_0_l by lia. done.
Qed.

Lemma land_1 v : Z.land v 1 = v mod 2.
Proof. change 1 with (Z.ones 1). by rewrite Z.land_ones by lia. Qed.

(** Both decoders, the width of the intermediate being [w]. *)
Lemma zigzag_decode_even w m :
  32 <= w → 0 <= m < 2 ^ 31 →
  s32 (Z.lxor (Z.shiftr (2 * m) 1) (uwrap w (- Z.land (2 * m) 1))) = m.
Proof.
  intros Hw Hm. rewrite land_1, (Z.mul_comm 2), Z.mod_mul, Z.shiftr_div_pow2 by lia.
  change (2 ^ 1) with 2. rewrite Z.div_mul, uwrap_small, Z.lxor_0_r by (try lia; split; lia).
  apply swrap_small; [lia|]. unfold fits_s. simpl. lia.
Qed.

Lemma zigzag_decode_odd w m :
  32 <= w → 0 <= m < 2 ^ 31 →
  s32 (Z.lxor (Z.shiftr (2 * m + 1) 1) (uwrap w (- Z.land (2 * m + 1) 1))) = - m - 1.
Proof.
  intros Hw Hm. rewrite land_1, Z.shiftr_div_pow2 by lia. change (2 ^ 1) with 2.
  replace ((2 * m + 1) mod 2) with 1 by (apply Z.mod_unique with m; lia).
  replace ((2 * m + 1) / 2) with m by (apply Z.div_unique with 1; lia).
  pose proof (Z.pow_le_mono_r 2 32 w).
  change (- (1)) with (-1). assert (uwrap w (-1) = 2 ^ w - 1) as ->.
  { symmetry. apply Z.mod_unique with (-1); lia. }
  rewrite lxor_ones_low by lia.
  assert (2 ^ w - 1 - m = - m - 1 + 2 ^ (w - 32) * 2 ^ 32) as ->.
  { rewrite <- Z.pow_add_r by lia. replace (w - 32 + 32) with w by lia. lia. }
  rewrite <- (swrap_uwrap 32) by lia. unfold uwrap.
  rewrite Z.mod_add by lia. fold (uwrap 32 (- m - 1)). rewrite swrap_uwrap by lia.
  apply swrap_small; [lia|]. unfold fits_s. simpl. lia.
Qed.

Lemma u32_even a : u32 (2 * a) = 2 * (a mod 2 ^ 31).
Proof. unfold uwrap. change (2 ^ 32) with (2 * 2 ^ 31). by rewrite Zmult_mod_distr_l. Qed.

Lemma u32_odd a : u32 (2 * a + 1) = 2 * (a mod 2 ^ 31) + 1.
Proof.
  unfold uwrap. change (2 ^ 32) with (2 * 2 ^ 31). rewrite Z.rem_mul_r by lia.
  replace ((2 * a + 1) mod 2) with 1 by (apply Z.mod_unique with a; lia).
  replace ((2 * a + 1) / 2) with a by (apply Z.div_unique with 1; lia). lia.
Qed.

Lemma signed_Ret w z : fits_s w z → signed w z = Ret z.
Proof.
  unfold fits_s, signed. intros. by rewrite (proj2 (Z.leb_le _ _)), (proj2 (Z.ltb_lt _ _)) by lia.
Qed.

Lemma zigzag32_ok v :
  zigzag_dom32 v →
  ∃ u, EncodeZigzag32 v = Ret u ∧ 0 <= u < 2 ^ 32 ∧ DecodeZigzag32 u = v.
Proof.
  unfold zigzag_dom32, EncodeZigzag32, DecodeZigzag32. intros Hv.
  destruct (Z.ltb_spec v 0); rewrite signed_Ret by (split; simpl; lia); rewrite bind_Ret.
  - exists (2 * (- v - 1) + 1). rewrite (uwrap_small 32 (- v)) by (split; lia).
    rewrite uwrap_small by (split; lia). split_and!; [f_equal; lia|lia|lia|].
    rewrite zigzag_decode_odd; lia.
  - exists (2 * v). rewrite uwrap_small by (split; lia). split_and!; [f_equal; lia|lia|lia|].
    apply zigzag_decode_even; lia.
Qed.

(** What a 64-bit value becomes when it is written and read as a zigzag varint. *)
Definition zigzag64_seen (v : Z) : Z :=
  if v <? 0 then - ((- v - 1) mod 2 ^ 31) - 1 else v mod 2 ^ 31.

Lemma zigzag64_ok v :
  - 2 ^ 63 < v < 2 ^ 62 →
  ∃ u, EncodeZigzag64 v = Ret u ∧ 0 <= u < 2 ^ 32 ∧ DecodeZigzag64 u = zigzag64_seen v.
Proof.
  unfold EncodeZigzag64, DecodeZigzag64, zigzag64_seen. intros Hv.
  destruct (Z.ltb_spec v 0); rewrite signed_Ret by (split; simpl; lia); rewrite bind_Ret.
  - rewrite (uwrap_small 64 (- v)), (uwrap_small 64 (_ - 1)) by (split; lia).
    replace (- v * 2 - 1) with (2 * (- v - 1) + 1) by lia. rewrite u32_odd.
    pose proof (Z.mod_pos_bound (- v - 1) (2 ^ 31)).
    eexists. split_and!; [done|lia|lia|]. apply zigzag_decode_odd; lia.
  - rewrite (Z.mul_comm v), u32_even. pose proof (Z.mod_pos_bound v (2 ^ 31)).
    eexists. split_and!; [done|lia|lia|]. apply zigzag_decode_even; lia.
Qed.

Lemma zigzag64_seen_id v : - 2 ^ 63 < v < 2 ^ 62 → zigzag64_seen v = v ↔ fits_s 32 v.
Proof.
  intros Hv. unfold zigzag64_seen, fits_s. simpl.
  destruct (Z.ltb_spec v 0).
  - pose proof (Z.mod_pos_bound (- v - 1) (2 ^ 31)). split; [lia|].
    intros. rewrite Z.mod_small by lia. lia.
  - pose proof (Z.mod_pos_bound v (2 ^ 31)). split; [lia|].
    intros. rewrite Z.mod_small by lia. lia.
Qed.

(** ** Writing and reading at the cursor *)

Section instances.
Context `{Heap, Host}.

Lemma refines_endian b f :
  refines b f → m_endian b = SYLAR_LITTLE_ENDIAN ∨ m_endian b = SYLAR_BIG_ENDIAN.
Proof. intros [Hwf _ _]. apply (wf_endian _ Hwf). Qed.

Lemma write_shape b f buf n :
  refines b f → room b (length buf) → n = Z.of_nat (length buf) →
  ∃ b', write buf n b = (Ret tt, b') ∧ refines b' (Flat.write buf f) ∧ same_shape b b'.
Proof.
  intros Hr Hm ->. destruct (write_flat b f buf Hr Hm) as (b' & ? & ? & ? & ? & _).
  by exists b'.
Qed.

Lemma read_shape b f buf rest :
  buf ≠ [] → refines b f → Flat.unread f = buf ++ rest →
  ∃ b', read (Z.of_nat (length buf)) b = (Ret buf, b')
    ∧ refines b' (Flat.advance (length buf) f) ∧ same_blocks b b'.
Proof.
  intros Hne Hr Hu. destruct (read_flat b f (length buf)) as (b' & E & ? & ? & ? & _ & _ & ?);
    [done|..].
  - rewrite Hu. list_lia.
  - intros ?%nil_length_inv. done.
  - rewrite Hu, take_app_length in E. by exists b'; split_and!.
Qed.

Lemma advance_advance f n m : Flat.advance m (Flat.advance n f) = Flat.advance (n + m) f.
Proof. unfold Flat.advance. simpl. by rewrite Nat.add_assoc. Qed.

Lemma unread_advance f n x y :
  Flat.unread f = x ++ y → length x = n → Flat.unread (Flat.advance n f) = y.
Proof.
  unfold Flat.unread, Flat.advance. simpl. intros Hu <-.
  by rewrite <- drop_drop, Hu, drop_app_length.
Qed.

#[global] Instance pair_codec {A B} p g d e p' g' d' e' :
  Codec (A:=A) p g d e → Codec (A:=B) p' g' d' e' →
  Codec (pair_put p p') (pair_get g g') (pair_dom d d') (pair_enc e e').
Proof.
  intros C1 C2. split; unfold pair_put, pair_get, pair_dom, pair_enc.
  - intros b f [v w] [Hv Hw] Hr Hroom. simpl in *. rewrite length_app in Hroom.
    unfold room in *.
    destruct (put_ok (put:=p) b f v) as (b1 & E1 & R1 & S1 & S1'); [done..|unfold room; lia|].
    destruct (refines_bounds _ _ Hr) as (Hc & Hd & Hp & _).
    destruct (refines_bounds _ _ R1) as (Hc1 & _). simpl in Hc1.
    destruct (put_ok (put:=p') b1 _ w Hw R1) as (b2 & E2 & R2 & S2 & S2').
    { unfold room. rewrite S1, S1'. lia. }
    exists b2. st_run exact E1. rewrite S1' in R2.
    rewrite Flat_write_app in R2 by lia.
    split_and!; [done|done|split; congruence].
  - intros b f [v w] rest [Hv Hw] Hr Hu. simpl in *. rewrite <- app_assoc in Hu.
    destruct (get_ok (get:=g) b f v _ Hv Hr Hu) as (b1 & E1 & R1 & S1).
    pose proof S1 as [[_ S1'] _].
    destruct (get_ok (get:=g') b1 _ w rest Hw R1) as (b2 & E2 & R2 & S2).
    { rewrite S1'. by eapply unread_advance. }
    exists b2. st_run exact E1. st_run exact E2.
    rewrite advance_advance, S1', <- length_app in R2.
    split_and!; [done|done|by eapply same_blocks_trans].
Qed.
(** *** Fixed width *)

Lemma mem_of_endian_u e n v :
  e = SYLAR_LITTLE_ENDIAN ∨ e = SYLAR_BIG_ENDIAN →
  to_mem n (if e =? SYLAR_BYTE_ORDER then v else byteswap_u n v) = encode_int e n v.
Proof.
  intros He. destruct (Z.eqb_spec e SYLAR_BYTE_ORDER) as [->|Hne]; [done|].
  by rewrite to_mem_byteswap_u, encode_int_other.
Qed.

Lemma mem_of_endian_s e n v :
  e = SYLAR_LITTLE_ENDIAN ∨ e = SYLAR_BIG_ENDIAN →
  to_mem n (if e =? SYLAR_BYTE_ORDER then v else byteswap_s n v) = encode_int e n v.
Proof.
  intros He. destruct (Z.eqb_spec e SYLAR_BYTE_ORDER) as [->|Hne]; [done|].
  by rewrite to_mem_byteswap_s, encode_int_other.
Qed.

Lemma fixed_codec_u n :
  (0 < n)%nat →
  Codec (writeFuint n) (readFuint n) (fits_u (8 * Z.of_nat n)) (fun e => encode_int e n).
Proof.
  intros Hn. split; intros b f v.
  - intros _ Hr Hroom. unfold writeFuint. st_run reflexivity.
    rewrite mem_of_endian_u by (by eapply refines_endian).
    apply write_shape; [done..|]. by rewrite length_encode_int.
  - intros rest Hv Hr Hu. set (e := m_endian b) in *.
    destruct (read_shape b f (encode_int e n v) rest) as (b' & E & R & S); [|done..|]; [|pose proof S as [[_ S'] _]].
    { intros E%(f_equal length). rewrite length_encode_int in E. simpl in E. lia. }
    exists b'. unfold readFuint. rewrite length_encode_int in *. st_run exact E.
    st_run reflexivity. split; [|done]. unfold mret, st_ret. do 2 f_equal.
    rewrite S'. fold e. rewrite <- mem_of_endian_u by (by eapply refines_endian).
    rewrite !from_to_mem. destruct (e =? _); [by apply uwrap_small|].
    rewrite uwrap_small by apply byteswap_u_fits. by apply byteswap_u_involutive.
Qed.

Lemma fixed_codec_s n :
  (0 < n)%nat →
  Codec (writeFint n) (readFint n) (fits_s (8 * Z.of_nat n)) (fun e => encode_int e n).
Proof.
  intros Hn. split; intros b f v.
  - intros _ Hr Hroom. unfold writeFint. st_run reflexivity.
    rewrite mem_of_endian_s by (by eapply refines_endian).
    apply write_shape; [done..|]. by rewrite length_encode_int.
  - intros rest Hv Hr Hu. set (e := m_endian b) in *.
    destruct (read_shape b f (encode_int e n v) rest) as (b' & E & R & S); [|done..|]; [|pose proof S as [[_ S'] _]].
    { intros E%(f_equal length). rewrite length_encode_int in E. simpl in E. lia. }
    exists b'. unfold readFint. rewrite length_encode_int in *. st_run exact E.
    st_run reflexivity. split; [|done]. unfold mret, st_ret. do 2 f_equal.
    rewrite S'. fold e. rewrite <- mem_of_endian_s by (by eapply refines_endian).
    rewrite !from_to_mem, swrap_uwrap by lia.
    destruct (e =? _); [apply swrap_small; [lia|done]|].
    unfold byteswap_s at 2. rewrite (swrap_small _ (swrap _ _)) by (apply swrap_fits || lia; lia).
    fold (byteswap_s n v). apply byteswap_s_involutive; done.
Qed.

Lemma to_mem_1 v e : to_mem 1 v = encode_int e 1 v.
Proof. unfold to_mem, encode_int. by repeat case_bool_decide. Qed.

#[global] Instance codec_Fuint8 :
  Codec writeFuint8 readFuint8 (fits_u 8) (fun e => encode_int e 1).
Proof.
  split; intros b f v.
  - intros _ Hr Hroom. unfold writeFuint8. rewrite (to_mem_1 v (m_endian b)).
    apply write_shape; [done..|]. by rewrite length_encode_int.
  - intros rest Hv Hr Hu.
    destruct (read_shape b f (encode_int (m_endian b) 1 v) rest) as (b' & E & R & S); [|done..|].
    { by intros ?%(f_equal length); rewrite length_encode_int in *. }
    exists b'. unfold readFuint8. rewrite length_encode_int in *. st_run exact E.
    rewrite <- to_mem_1, from_to_mem, uwrap_small by done. done.
Qed.

#[global] Instance codec_Fint8 :
  Codec writeFint8 readFint8 (fits_s 8) (fun e => encode_int e 1).
Proof.
  split; intros b f v.
  - intros _ Hr Hroom. unfold writeFint8. rewrite (to_mem_1 v (m_endian b)).
    apply write_shape; [done..|]. by rewrite length_encode_int.
  - intros rest Hv Hr Hu.
    destruct (read_shape b f (encode_int (m_endian b) 1 v) rest) as (b' & E & R & S); [|done..|].
    { by intros ?%(f_equal length); rewrite length_encode_int in *. }
    exists b'. unfold readFint8. rewrite length_encode_int in *. st_run exact E.
    rewrite <- to_mem_1, from_to_mem, swrap_uwrap, swrap_small by (done || lia). done.
Qed.

#[global] Instance codec_Fuint16 :
  Codec writeFuint16 readFuint16 (fits_u 16) (fun e => encode_int e 2).
Proof. apply (fixed_codec_u 2). lia. Qed.
#[global] Instance codec_Fint16 :
  Codec writeFint16 readFint16 (fits_s 16) (fun e => encode_int e 2).
Proof. apply (fixed_codec_s 2). lia. Qed.
#[global] Instance codec_Fuint32 :
  Codec writeFuint32 readFuint32 (fits_u 32) (fun e => encode_int e 4).
Proof. apply (fixed_codec_u 4). lia. Qed.
#[global] Instance codec_Fint32 :
  Codec writeFint32 readFint32 (fits_s 32) (fun e => encode_int e 4).
Proof. apply (fixed_codec_s 4). lia. Qed.
#[global] Instance codec_Fuint64 :
  Codec writeFuint64 readFuint64 (fits_u 64) (fun e => encode_int e 8).
Proof. apply (fixed_codec_u 8). lia. Qed.
#[global] Instance codec_Fint64 :
  Codec writeFint64 readFint64 (fits_s 64) (fun e => encode_int e 8).
Proof. apply (fixed_codec_s 8). lia. Qed.
#[global] Instance codec_Float :
  Codec writeFloat readFloat (fits_u 32) (fun e => encode_int e 4).
Proof. apply codec_Fuint32. Qed.
#[global] Instance codec_Double :
  Codec writeDouble readDouble (fits_u 64) (fun e => encode_int e 8).
Proof. apply codec_Fuint64. Qed.

(** *** Varints *)

Lemma varint_loop_total n v :
  0 <= v < 2 ^ (7 * Z.of_nat n) → (0 < n)%nat →
  ∃ l, varint_loop n v = Ret l ∧ (0 < length l ≤ n)%nat.
Proof.
  revert v. induction n as [|n IH]; intros v Hv Hn; [lia|]. simpl.
  destruct (Z.leb_spec 128 v) as [Hge|Hlt]; [|exists [byte_of_Z v]; simpl; split; [done|lia]].
  replace (7 * Z.of_nat (S n)) with (7 + 7 * Z.of_nat n) in Hv by lia.
  rewrite Z.pow_add_r in Hv by lia. change (2 ^ 7) with 128 in Hv.
  destruct n as [|n]; [simpl in Hv; lia|].
  destruct (IH (Z.shiftr v 7)) as (l & E & Hl); [|lia|].
  - rewrite Z.shiftr_div_pow2 by lia. change (2 ^ 7) with 128.
    split; [apply Z.div_pos; lia|apply Z.div_lt_upper_bound; lia].
  - rewrite E, bind_Ret. eexists. split; [done|]. simpl. lia.
Qed.

Lemma varint_enc_Ret n v :
  0 <= v < 2 ^ (7 * Z.of_nat n) → (0 < n)%nat →
  varint_loop n v = Ret (varint_enc n v) ∧ (0 < length (varint_enc n v) ≤ n)%nat.
Proof.
  intros Hv Hn. destruct (varint_loop_total n v Hv Hn) as (l & E & Hl).
  unfold varint_enc. by rewrite E.
Qed.

(** One byte is read. *)
Lemma readFuint8_ok b f c rest :
  refines b f → Flat.unread f = c :: rest →
  ∃ b', readFuint8 b = (Ret (byte_to_Z c), b') ∧ refines b' (Flat.advance 1 f)
    ∧ same_blocks b b'.
Proof.
  intros Hr Hu. pose proof (byte_to_Z_bounds c) as Hc.
  assert (encode_int (m_endian b) 1 (byte_to_Z c) = [c]) as Ec.
  { unfold encode_int. simpl. rewrite byte_of_to_Z. by case_bool_decide. }
  destruct (get_ok (get:=readFuint8) b f (byte_to_Z c) rest) as (b' & E & R & S);
    [exact Hc|done|by rewrite Ec|].
  rewrite Ec in R. by exists b'.
Qed.

Lemma readUint_loop_ok w n v l fuel : ∀ i result b f rest,
  varint_loop n v = Ret l → (n < fuel)%nat → 0 <= v → 0 <= i < w → 0 <= result < 2 ^ i →
  v * 2 ^ i < 2 ^ w → refines b f → Flat.unread f = l ++ rest →
  ∃ b', readUint_loop fuel w i result b = (Ret (result + v * 2 ^ i), b')
    ∧ refines b' (Flat.advance (length l) f) ∧ same_blocks b b'.
Proof.
  revert n v l. induction fuel as [|fuel IH]; intros n v l i result b f rest E Hf Hv Hi Hres
    Hw Hr Hu; [lia|].
  destruct n as [|n]; [done|]. cbn [readUint_loop varint_loop] in *.
  rewrite (proj2 (Z.ltb_lt i w)) by lia.
  assert (0 < 2 ^ i) as H2 by lia.
  destruct (Z.leb_spec 128 v) as [Hge|Hlt].
  - apply bind_Ret_inv in E as (l' & E & El). injection El as <-.
    destruct (readFuint8_ok b f _ _ Hr Hu) as (b1 & E1 & R1 & S1).
    st_run exact E1. rewrite byte_to_of_Z, lor_land_128.
    pose proof (Z.mod_pos_bound v 128 eq_refl).
    rewrite (Z.mod_small (_ + _)), (proj2 (Z.ltb_ge _ _)) by lia.
    rewrite land_127. replace ((v mod 128 + 128) mod 128) with (v mod 128)
      by (rewrite <- Z.add_mod_idemp_r, Z.mod_same, Z.add_0_r, Z.mod_mod by lia; done).
    assert (v mod 128 <= v) by (apply Z.mod_le; lia).
    rewrite uwrap_small, lor_shiftl by (try lia; rewrite Z.shiftl_mul_pow2 by lia;
      unfold fits_u; nia).
    assert (2 ^ (i + 7) = 128 * 2 ^ i) as H7 by (rewrite Z.pow_add_r by lia; lia).
    assert (i + 7 < w) by (apply (Z.pow_lt_mono_r_iff 2); [lia|lia|rewrite H7; nia]).
    assert (v = 128 * (v / 128) + v mod 128) as Hdm by (apply Z.div_mod; lia).
    assert (Z.shiftr v 7 = v / 128) as Hs by (by rewrite Z.shiftr_div_pow2 by lia).
    rewrite Hs in E. assert (0 <= v / 128) by (apply Z.div_pos; lia).
    destruct (IH n (v / 128) l' (i + 7) (result + v mod 128 * 2 ^ i) b1
      (Flat.advance 1 f) rest E)
      as (b2 & E2 & R2 & S2); try done; try lia.
    { rewrite H7. split; nia. }
    { by eapply (unread_advance f 1 [_]). }
    exists b2. rewrite E2. rewrite advance_advance in R2.
    split; [do 2 f_equal; rewrite H7; nia|]. split; [done|by eapply same_blocks_trans].
  - injection E as <-.
    destruct (readFuint8_ok b f _ _ Hr Hu) as (b1 & E1 & R1 & S1).
    exists b1. st_run exact E1. rewrite byte_to_of_Z, Z.mod_small by lia.
    rewrite (proj2 (Z.ltb_lt v 128)) by lia.
    rewrite uwrap_small, lor_shiftl by (try lia; rewrite Z.shiftl_mul_pow2 by lia;
      unfold fits_u; nia). done.
Qed.

Lemma varint_put_ok n v b f :
  0 <= v < 2 ^ (7 * Z.of_nat n) → (0 < n)%nat → refines b f →
  room b (length (varint_enc n v)) →
  ∃ b', (tmp ← lift (varint_loop n v); write tmp (Z.of_nat (length tmp))) b = (Ret tt, b')
    ∧ refines b' (Flat.write (varint_enc n v) f) ∧ same_shape b b'.
Proof.
  intros Hv Hn Hr Hroom. destruct (varint_enc_Ret n v Hv Hn) as [E _].
  st_run (apply lift_Ret, E). by apply write_shape.
Qed.

#[global] Instance codec_Uint32 :
  Codec writeUint32 readUint32 (fits_u 32) (fun _ => varint_enc 5).
Proof.
  split; intros b f v; unfold fits_u.
  - intros Hv Hr Hroom. apply varint_put_ok; [simpl; lia|lia|done..].
  - intros rest Hv Hr Hu.
    destruct (varint_enc_Ret 5 v) as [E _]; [simpl; lia|lia|].
    destruct (readUint_loop_ok 32 5 v _ 6 0 0 b f rest E) as (b' & E' & ?); try (done || lia).
    exists b'. by rewrite Z.mul_1_r in E'.
Qed.

#[global] Instance codec_Uint64 :
  Codec writeUint64 readUint64 (fits_u 64) (fun _ => varint_enc 10).
Proof.
  split; intros b f v; unfold fits_u.
  - intros Hv Hr Hroom. apply varint_put_ok; [simpl; lia|lia|done..].
  - intros rest Hv Hr Hu.
    destruct (varint_enc_Ret 10 v) as [E _]; [simpl; lia|lia|].
    destruct (readUint_loop_ok 64 10 v _ 11 0 0 b f rest E) as (b' & E' & ?); try (done || lia).
    exists b'. by rewrite Z.mul_1_r in E'.
Qed.

#[global] Instance codec_Int32 :
  Codec writeInt32 readInt32 zigzag_dom32 (fun _ => zigzag_enc32).
Proof.
  split; intros b f v; [intros Hv Hr Hroom|intros rest Hv Hr Hu].
  all: destruct (zigzag32_ok v Hv) as (u & E & Hu32 & Hd).
  all: unfold zigzag_enc32 in *; rewrite E in *.
  - unfold writeInt32. st_run (apply lift_Ret, E).
    by apply (put_ok (put:=writeUint32) (enc:=fun _ => varint_enc 5) b f u).
  - destruct (get_ok (get:=readUint32) b f u rest Hu32 Hr Hu) as (b' & E' & R & S).
    exists b'. unfold readInt32. st_run exact E'. by rewrite <- Hd.
Qed.

(** *** Strings *)

Lemma string_codec putl getl doml encl :
  Codec putl getl doml encl →
  Codec (fun s => putl (str_size s);; write s (str_size s))
    (len ← getl; read_string len)
    (fun s => s ≠ [] ∧ doml (str_size s) ∧ str_size s <= string_max_size)
    (fun e s => encl e (str_size s) ++ s).
Proof.
  intros C. split; intros b f s.
  - intros (Hne & Hd & _) Hr Hroom. unfold room in Hroom. rewrite length_app in Hroom.
    destruct (put_ok (put:=putl) b f _ Hd Hr) as (b1 & E1 & R1 & S1 & S1'); [unfold room; lia|].
    destruct (refines_bounds _ _ Hr) as (Hc & Hl & Hp & _).
    destruct (refines_bounds _ _ R1) as (Hc1 & _). simpl in Hc1.
    destruct (write_shape b1 _ s (str_size s) R1) as (b2 & E2 & R2 & S2 & S2');
      [unfold room; rewrite S1; lia|done|].
    exists b2. st_run exact E1. rewrite Flat_write_app in R2 by lia.
    split_and!; [done|done|split; congruence].
  - intros rest (Hne & Hd & Hmax) Hr Hu. rewrite <- app_assoc in Hu.
    destruct (get_ok (get:=getl) b f _ _ Hd Hr Hu) as (b1 & E1 & R1 & S1).
    destruct (read_shape b1 _ s rest Hne R1) as (b2 & E2 & R2 & S2).
    { by eapply unread_advance. }
    exists b2. st_run exact E1. unfold read_string.
    rewrite (proj2 (Z.ltb_ge _ _)) by lia.
    rewrite advance_advance, <- length_app in R2.
    split_and!; [done|done|by eapply same_blocks_trans].
Qed.

(** The length prefix is not truncated on the domain. *)
Lemma codec_put_ext {A} (p p' : A → ST t unit) g (d : A → Prop) e :
  (∀ v, d v → p v = p' v) → Codec p g d e → Codec p' g d e.
Proof.
  intros Heq [H1 H2]. split; [|done]. intros b f v Hd Hr Hroom.
  rewrite <- Heq by done. by apply H1.
Qed.

#[global] Instance codec_StringF16 :
  Codec writeStringF16 readStringF16 (string_dom 16)
    (fun e s => encode_int e 2 (str_size s) ++ s).
Proof.
  eapply codec_put_ext, (string_codec _ _ _ _ codec_Fuint16).
  intros s (_ & Hf & _). unfold writeStringF16. by rewrite uwrap_small.
Qed.
#[global] Instance codec_StringF32 :
  Codec writeStringF32 readStringF32 (string_dom 32)
    (fun e s => encode_int e 4 (str_size s) ++ s).
Proof.
  eapply codec_put_ext, (string_codec _ _ _ _ codec_Fuint32).
  intros s (_ & Hf & _). unfold writeStringF32. by rewrite uwrap_small.
Qed.
#[global] Instance codec_StringF64 :
  Codec writeStringF64 readStringF64 (string_dom 64)
    (fun e s => encode_int e 8 (str_size s) ++ s).
Proof. apply (string_codec _ _ _ _ codec_Fuint64). Qed.
#[global] Instance codec_StringVint :
  Codec writeStringVint readStringVint (string_dom 64)
    (fun _ s => varint_enc 10 (str_size s) ++ s).
Proof. apply (string_codec _ _ _ _ codec_Uint64). Qed.

(** *** Reading back *)

(** [put v], back to where it was written, [get]: the reader sees [r] and stops where the
    writer did. *)
Definition reads_back {A B} (put : A → ST t unit) (get : ST t B) (v : A) (r : B) (b : t) : Prop :=
  ∃ b1 b2 b3, put v b = (Ret tt, b1) ∧ setPosition (m_position b) b1 = (Ret tt, b2)
    ∧ get b2 = (Ret r, b3) ∧ m_position b3 = m_position b1.

Lemma range_drop_overwrite {A} (l : list A) i x :
  (i ≤ length l)%nat → drop i (overwrite l i x) = x ++ drop (i + length x) l.
Proof.
  intros. unfold overwrite. rewrite drop_app_ge by list_lia.
  by rewrite length_take, Nat.min_l, Nat.sub_diag by lia.
Qed.

Lemma seek_back b b1 f x :
  refines b f → refines b1 (Flat.write x f) →
  ∃ b2 f2 rest, setPosition (m_position b) b1 = (Ret tt, b2) ∧ refines b2 f2
    ∧ Flat.unread f2 = x ++ rest ∧ Flat.cur f2 = Flat.cur f ∧ m_endian b2 = m_endian b1.
Proof.
  intros Hr R1. destruct (refines_bounds _ _ Hr) as (Hc & Hd & Hp & _).
  destruct (refines_bounds _ _ R1) as (Hc1 & Hd1 & Hp1 & Hcap1 & _). simpl in Hc1.
  destruct (setPosition_flat b1 _ (m_position b) R1) as (b2 & g & E2 & R2 & Hg & _ & He2 & _);
    [lia|].
  assert (Z.to_nat (m_position b) = Flat.cur f) as Hn by lia. rewrite Hn in *.
  assert (g = []) as -> by (apply nil_length_inv; lia). rewrite app_nil_r in R2.
  eexists b2, _, _. split_and!; [exact E2|exact R2| |done|done].
  unfold Flat.unread. simpl. apply range_drop_overwrite. lia.
Qed.

Lemma codec_reads_back {A} put get dom enc (C : Codec (A:=A) put get dom enc) v b f :
  dom v → refines b f → room b (length (enc (m_endian b) v)) → reads_back put get v v b.
Proof.
  intros Hv Hr Hroom.
  destruct (put_ok (put:=put) b f v Hv Hr Hroom) as (b1 & E1 & R1 & S1 & S1').
  destruct (seek_back b b1 f _ Hr R1) as (b2 & f2 & rest & E2 & R2 & Hu & Hcur & He).
  assert (m_endian b2 = m_endian b) as Heb by congruence. rewrite <- Heb in Hu.
  destruct (get_ok (get:=get) b2 f2 v rest Hv R2 Hu) as (b3 & E3 & R3 & _).
  exists b1, b2, b3. split_and!; try done.
  destruct (refines_bounds _ _ R1) as (Hc1 & _), (refines_bounds _ _ R3) as (Hc3 & _).
  simpl in *. rewrite Heb in Hc3. lia.
Qed.

Lemma codec_pos {A} put get dom enc (C : Codec (A:=A) put get dom enc) v b f :
  dom v → refines b f → room b (length (enc (m_endian b) v)) →
  ∃ b', put v b = (Ret tt, b') ∧
    m_position b' = m_position b + Z.of_nat (length (enc (m_endian b) v)).
Proof.
  intros Hv Hr Hroom.
  destruct (put_ok (put:=put) b f v Hv Hr Hroom) as (b1 & E1 & R1 & _).
  exists b1. split; [done|].
  destruct (refines_bounds _ _ Hr) as (Hc & _), (refines_bounds _ _ R1) as (Hc1 & _).
  simpl in *. lia.
Qed.
End instances.
