(* ===== verification/CodecProps.v ===== *)
(** * What the typed accessors of ByteArray guarantee

    The contract theorems of [TypedIO]: which pairs of accessors read back what they write, on
    which values, and where they do not. *)

From S2P Require Import Prelude Endian Buffer BufferFacts BufferSpec Codec CodecSpec.
Import ByteArray TypedIO.

(** Reading zero bytes at the end of the allocated blocks. *)
Lemma read_zero_at_end b : wf b → m_position b = m_capacity b → (read 0 b).1 = Undef.
Proof.
  intros Hwf Hp. pose proof (wf_base_cap _ Hwf). pose proof (wf_pos _ Hwf).
  unfold read. st_run reflexivity. rewrite getReadSize_wf by done.
  rewrite (proj2 (Z.ltb_ge _ _)) by lia. st_run reflexivity.
  st_run (apply lift_Ret; unfold cmod; rewrite (proj2 (Z.eqb_neq _ _)) by lia; reflexivity).
  unfold mbind, st_bind, cur_node.
  by rewrite (wf_cur _ Hwf), cur_at_end by (done || (rewrite Hp; apply (wf_cap _ Hwf)) || lia).
Qed.

Section lemmas.
Context `{Heap, Host}.

(** A length prefix that says 0 and ends the allocated blocks. *)
Lemma empty_string_undef putl getl doml encl b f :
  Codec (A:=Z) putl getl doml encl → doml 0 → 0 <= string_max_size →
  refines b f → Flat.unread f = encl (m_endian b) 0 → m_size b = m_capacity b →
  ((len ← getl; read_string len) b).1 = Undef.
Proof.
  intros C Hd0 Hmax Hr Hu Hcap. rewrite <- (app_nil_r (encl _ _)) in Hu.
  destruct (get_ok (get:=getl) b f 0 [] Hd0 Hr Hu) as (b1 & E1 & R1 & S1 & Hc1).
  st_run exact E1. unfold read_string. rewrite (proj2 (Z.ltb_ge _ _)) by lia.
  apply read_zero_at_end; [apply R1|].
  destruct (refines_bounds _ _ Hr) as (Hp & Hd & Hb & _), (refines_bounds _ _ R1) as (Hp1 & _).
  simpl in Hp1. apply (f_equal length) in Hu. unfold Flat.unread in Hu.
  rewrite app_nil_r, length_drop in Hu.
  assert (Flat.cur f ≤ length (Flat.data f))%nat by lia. lia.
Qed.

Lemma room_mono b n m : room b m → (n ≤ m)%nat → room b n.
Proof. unfold room. lia. Qed.
End lemmas.

Section contract.
Context `{Heap, Host}.

(** [writeInt64]/[readInt64] are not inverse: both zigzag functions return 32-bit types, so
    a 64-bit value comes back reduced to 31 bits and a sign; it survives exactly when it
    is a 32-bit value. *)
Theorem int64_reads_back_32_bits v b f :
  - 2 ^ 63 < v < 2 ^ 62 → refines b f → room b 10 →
  reads_back writeInt64 readInt64 v (zigzag64_seen v) b
  ∧ (zigzag64_seen v = v ↔ fits_s 32 v).
Proof.
  intros Hv Hr Hroom. split; [|by apply zigzag64_seen_id].
  destruct (zigzag64_ok v Hv) as (u & E & Hu & Hd).
  assert (fits_u 64 u) as Hu64 by (unfold fits_u; lia).
  destruct (codec_reads_back _ _ _ _ codec_Uint64 u b f) as (b1 & b2 & b3 & E1 & E2 & E3 & E4);
    [done..| |].
  { eapply room_mono; [done|]. apply varint_enc_Ret; [unfold fits_u in *; simpl; lia|lia]. }
  exists b1, b2, b3. split_and!; [|done| |done].
  - unfold writeInt64. by st_run (apply lift_Ret, E).
  - unfold readInt64. st_run exact E3. by rewrite <- Hd.
Qed.

(** C37. The eighteen pairs of typed accessors. Seventeen keep their contract: the writer puts exactly
    the encoding at the cursor, and the reader returns every value of the domain and consumes just
    those bytes. The ten fixed-width pairs encode in the buffer's byte order, whatever the
    machine's; varints take at most 5 and 10 bytes, inside [tmp]; signed 32-bit values go through
    zigzag without loss wherever the encoder's signed arithmetic does not overflow; strings with a
    16, 32, 64-bit or varint length read back whenever they are not empty and their length fits the
    prefix. The eighteenth, [writeInt64] and [readInt64], does not: what is read is the value reduced to 31
    bits and a sign, the value itself exactly when it is a 32-bit one. *)
Theorem accessor_codecs :
  (Codec writeFint8 readFint8 (fits_s 8) (fun e => encode_int e 1)
   ∧ Codec writeFuint8 readFuint8 (fits_u 8) (fun e => encode_int e 1)
   ∧ Codec writeFint16 readFint16 (fits_s 16) (fun e => encode_int e 2)
   ∧ Codec writeFuint16 readFuint16 (fits_u 16) (fun e => encode_int e 2)
   ∧ Codec writeFint32 readFint32 (fits_s 32) (fun e => encode_int e 4)
   ∧ Codec writeFuint32 readFuint32 (fits_u 32) (fun e => encode_int e 4)
   ∧ Codec writeFint64 readFint64 (fits_s 64) (fun e => encode_int e 8)
   ∧ Codec writeFuint64 readFuint64 (fits_u 64) (fun e => encode_int e 8)
   ∧ Codec writeFloat readFloat (fits_u 32) (fun e => encode_int e 4)
   ∧ Codec writeDouble readDouble (fits_u 64) (fun e => encode_int e 8))
  ∧ (Codec writeUint32 readUint32 (fits_u 32) (fun _ => varint_enc 5)
     ∧ Codec writeUint64 readUint64 (fits_u 64) (fun _ => varint_enc 10)
     ∧ Codec writeInt32 readInt32 zigzag_dom32 (fun _ => zigzag_enc32)
     ∧ (∀ v, fits_u 32 v → 0 < length (varint_enc 5 v) ≤ 5)%nat
     ∧ (∀ v, fits_u 64 v → 0 < length (varint_enc 10 v) ≤ 10)%nat)
  ∧ (Codec writeStringF16 readStringF16 (string_dom 16)
       (fun e s => encode_int e 2 (str_size s) ++ s)
     ∧ Codec writeStringF32 readStringF32 (string_dom 32)
       (fun e s => encode_int e 4 (str_size s) ++ s)
     ∧ Codec writeStringF64 readStringF64 (string_dom 64)
       (fun e s => encode_int e 8 (str_size s) ++ s)
     ∧ Codec writeStringVint readStringVint (string_dom 64)
       (fun _ s => varint_enc 10 (str_size s) ++ s))
  ∧ (∀ v b f, - 2 ^ 63 < v < 2 ^ 62 → refines b f → room b 10 →
       reads_back writeInt64 readInt64 v (zigzag64_seen v) b ∧ (zigzag64_seen v = v ↔ fits_s 32 v)).
Proof.
  split; [|split; [|split]].
  - split_and!; apply _.
  - refine (conj codec_Uint32 (conj codec_Uint64 (conj codec_Int32 _))). unfold fits_u.
    split; intros v Hv; apply varint_enc_Ret; simpl; lia.
  - exact (conj codec_StringF16 (conj codec_StringF32 (conj codec_StringF64 codec_StringVint))).
  - exact int64_reads_back_32_bits.
Qed.

(** C5. Messages: two accessor pairs that keep their contracts can be chained, in any order and
    to any depth, and the chained reader, started where the writer started, returns exactly
    the fields written and stops where the writer stopped. *)
Theorem message_reads_back {A B} p g d e p' g' d' e' (v : A * B) b f :
  Codec (A:=A) p g d e → Codec (A:=B) p' g' d' e' →
  d v.1 → d' v.2 → refines b f →
  room b (length (e (m_endian b) v.1 ++ e' (m_endian b) v.2)) →
  reads_back (pair_put p p') (pair_get g g') v v b.
Proof.
  intros C1 C2 Hv Hw Hr Hroom.
  by eapply (codec_reads_back _ _ _ _ (pair_codec _ _ _ _ _ _ _ _ C1 C2)).
Qed.

(** A string longer than the 16-bit prefix can say is cut silently: [readStringF16] returns
    its first [length mod 2^16] bytes. *)
Theorem stringF16_truncates s b f :
  refines b f → room b (2 + length s) → 2 ^ 16 <= string_max_size →
  str_size s mod 2 ^ 16 ≠ 0 →
  ∃ b1 b2 b3, writeStringF16 s b = (Ret tt, b1) ∧ setPosition (m_position b) b1 = (Ret tt, b2)
    ∧ readStringF16 b2 = (Ret (take (Z.to_nat (str_size s mod 2 ^ 16)) s), b3).
Proof.
  intros Hr Hroom Hmax Hne. set (n := str_size s mod 2 ^ 16) in *.
  assert (fits_u 16 n) as Hn by (apply Z.mod_pos_bound; lia).
  assert (0 <= n <= str_size s) as Hns by
    (split; [apply Hn|apply Z.mod_le; unfold str_size; lia]).
  destruct (put_ok (put:=writeFuint16) b f n Hn Hr) as (b1 & E1 & R1 & S1 & S1').
  { rewrite length_encode_int. eapply room_mono; [done|lia]. }
  destruct (refines_bounds _ _ Hr) as (Hc & Hl & Hp & _).
  destruct (refines_bounds _ _ R1) as (Hc1 & _). simpl in Hc1.
  rewrite length_encode_int in Hc1.
  destruct (write_shape b1 _ s (str_size s) R1) as (b2 & E2 & R2 & S2 & S2');
    [unfold room in *; rewrite S1; lia|done|].
  rewrite Flat_write_app in R2 by lia.
  destruct (seek_back b b2 f _ Hr R2) as (b3 & f3 & rest & E3 & R3 & Hu & Hcur & He).
  rewrite <- app_assoc in Hu.
  assert (m_endian b3 = m_endian b) as Heb by congruence. rewrite <- Heb in Hu.
  destruct (get_ok (get:=readFuint16) b3 f3 n _ Hn R3 Hu) as (b4 & E4 & R4 & S4).
  apply unread_advance with (n := length (encode_int (m_endian b3) 2 n)) in Hu; [|done].
  destruct (read_flat b4 _ (Z.to_nat n) R4) as (b5 & E5 & _).
  { rewrite Hu. unfold str_size in *. list_lia. } { unfold fits_u in *. lia. }
  exists b2, b3, b5. split_and!; [|done|].
  - unfold writeStringF16. by st_run exact E1.
  - unfold readStringF16. st_run exact E4. unfold read_string.
    unfold fits_u in *. rewrite (proj2 (Z.ltb_ge _ _)) by lia.
    rewrite Z2Nat.id, Hu, take_app_le in E5 by (unfold str_size in *; lia). exact E5.
Qed.

(** An empty string whose length prefix ends the allocated blocks cannot be read: the four
    readers dereference the null [m_cur]. *)
Theorem empty_string_at_capacity b f :
  refines b f → m_size b = m_capacity b → 0 <= string_max_size →
  (Flat.unread f = encode_int (m_endian b) 2 0 → (readStringF16 b).1 = Undef)
  ∧ (Flat.unread f = encode_int (m_endian b) 4 0 → (readStringF32 b).1 = Undef)
  ∧ (Flat.unread f = encode_int (m_endian b) 8 0 → (readStringF64 b).1 = Undef)
  ∧ (Flat.unread f = [x00] → (readStringVint b).1 = Undef).
Proof.
  intros Hr Hcap Hmax. split_and!; intros Hu.
  - by eapply (empty_string_undef _ _ _ _ _ _ codec_Fuint16).
  - by eapply (empty_string_undef _ _ _ _ _ _ codec_Fuint32).
  - by eapply (empty_string_undef _ _ _ _ _ _ codec_Fuint64).
  - by eapply (empty_string_undef _ _ _ _ _ _ codec_Uint64).
Qed.
End contract.
