(* ===== verification/BufferWitness.v ===== *)
(** * ByteArray: concrete instances

    The contract theorems of [ByteArray] and of its typed accessors applied to small objects. *)

From S2P Require Import Prelude Endian Buffer BufferFacts BufferSpec BufferIO Codec.
From S2P Require Import CodecSpec CodecProps.
Import ByteArray TypedIO.

#[local] Instance zero_heap : Heap :=
  { uninit := fun _ _ => x00; string_max_size := 2 ^ 62 }.
#[local] Instance little_host : Host :=
  { SYLAR_BYTE_ORDER := 1; SYLAR_BYTE_ORDER_ok := or_introl eq_refl }.

(** ["hello"] in blocks of four bytes, the cursor at [p]. *)
Definition hello_at (p : Z) : t :=
  (setPosition p (write (lit "hello") 5 (make 4)).2).2.

(** The invariant of a concrete object. *)
Ltac concrete_refines :=
  split; [split; [reflexivity | apply Forall_forall; intros nd Hnd;
    repeat (apply elem_of_cons in Hnd as [->|Hnd]; [by vm_compute|]);
    by apply not_elem_of_nil in Hnd | vm_compute; lia | reflexivity | reflexivity
    | by vm_compute; split | by vm_compute | reflexivity | by right ] | reflexivity | reflexivity].

Lemma hello_refines p :
  0 <= p <= 5 → refines (hello_at p) (Flat.mk (lit "hello") (Z.to_nat p)).
Proof.
  intros H. assert (p = 0 ∨ p = 1 ∨ p = 2 ∨ p = 3 ∨ p = 4 ∨ p = 5)
    as [-> | [-> | [-> | [-> | [-> | ->]]]]] by lia; concrete_refines.
Qed.

(** Four bytes fill the only block; the cursor is behind them. *)
Definition full : t := (write (lit "abcd") 4 (make 4)).2.

Lemma full_refines : refines full (Flat.mk (lit "abcd") 4).
Proof. concrete_refines. Qed.

Lemma write_refines_witness :
  ∃ b', write (lit "ALLO!!") 6 (hello_at 1) = (Ret tt, b')
    ∧ refines b' (Flat.mk (lit "hALLO!!") 7).
Proof.
  apply (write_refines (hello_at 1) (Flat.mk (lit "hello") 1) (lit "ALLO!!")).
  - by apply (hello_refines 1).
  - done.
Defined.

Lemma read_refines_witness :
  ∃ b', read 3 (hello_at 2) = (Ret (lit "llo"), b') ∧ refines b' (Flat.mk (lit "hello") 5).
Proof.
  apply (read_refines (hello_at 2) (Flat.mk (lit "hello") 2) 3 (hello_refines 2 ltac:(lia))).
  done.
Defined.

Lemma read_nothing_at_end_witness : read 0 full = (Undef, full).
Proof. apply (read_nothing_at_end full); [apply full_refines|reflexivity]. Defined.

Lemma setPosition_refines_witness :
  ∃ b' garbage, setPosition 7 (hello_at 0) = (Ret tt, b') ∧ length garbage = 2%nat
    ∧ refines b' (Flat.mk (lit "hello" ++ garbage) 7).
Proof.
  apply (setPosition_refines (hello_at 0) (Flat.mk (lit "hello") 0) 7
    (hello_refines 0 ltac:(lia)) ltac:(lia)).
Defined.

Lemma toString_unread_witness : toString (hello_at 1) = Ret (lit "ello").
Proof. apply (toString_unread (hello_at 1) (Flat.mk (lit "hello") 1)), (hello_refines 1); lia. Defined.

Lemma getReadBuffers_gathers_witness :
  ∃ vs, getReadBuffers (hello_at 1) [] 100 = Ret (4, [] ++ vs)
    ∧ iovs_bytes (m_nodes (hello_at 1)) vs = lit "ello".
Proof.
  apply (getReadBuffers_gathers (hello_at 1) (Flat.mk (lit "hello") 1) [] 100);
    [apply (hello_refines 1)|]; lia.
Defined.

Lemma getReadBuffers_at_witness :
  getReadBuffers_at (hello_at 1) [] 4 0 = getReadBuffers (hello_at 1) [] 4.
Proof.
  apply (getReadBuffers_at_ignores_position (hello_at 1) [] 4 0); [|lia].
  apply (hello_refines 1). lia.
Defined.

Lemma getWriteBuffers_scatters_witness :
  ∃ b1 vs b2, getWriteBuffers [] 6 (hello_at 5) = (Ret (6, [] ++ vs), b1)
    ∧ refines b1 (Flat.mk (lit "hello") 5)
    ∧ setPosition (m_position b1 + 3) (set_nodes (scatter (m_nodes b1) vs (lit "abc")) b1)
      = (Ret tt, b2)
    ∧ refines b2 (Flat.mk (lit "helloabc") 8).
Proof.
  apply (getWriteBuffers_scatters (hello_at 5) (Flat.mk (lit "hello") 5) [] 6 (lit "abc"));
    [apply (hello_refines 5); lia|lia|done|done].
Defined.

Lemma writeToFile_correct_witness : writeToFile true (hello_at 1) = Ret (true, lit "ello").
Proof.
  apply (writeToFile_correct (hello_at 1) (Flat.mk (lit "hello") 1));
    [apply (hello_refines 1); lia|done|by right; left].
Defined.

Lemma writeToFile_misaligned_witness : writeToFile true (hello_at 2) = Undef.
Proof.
  apply (writeToFile_misaligned (hello_at 2)); [apply (hello_refines 2); lia|done..].
Defined.

Lemma readFromFile_writes_content_witness :
  ∃ b', readFromFile (Some (lit "12345678")) (hello_at 5) = (Ret true, b')
    ∧ refines b' (Flat.mk (lit "hello12345678") 13).
Proof.
  apply (readFromFile_writes_content (hello_at 5) (Flat.mk (lit "hello") 5)
    (Some (lit "12345678"))); [apply (hello_refines 5); lia|done].
Defined.

Lemma message_reads_back_witness :
  reads_back (pair_put writeFuint16 writeStringVint) (pair_get readFuint16 readStringVint)
    (258, lit "hi") (258, lit "hi") (hello_at 3).
Proof.
  apply (message_reads_back _ _ _ _ _ _ _ _ (258, lit "hi") (hello_at 3)
    (Flat.mk (lit "hello") 3) codec_Fuint16 codec_StringVint);
    [done|done|apply (hello_refines 3); lia|done].
Defined.

Lemma int64_reads_back_32_bits_witness :
  reads_back writeInt64 readInt64 (2 ^ 40 + 7) 7 (hello_at 3)
  ∧ (7 = 2 ^ 40 + 7 ↔ fits_s 32 (2 ^ 40 + 7)).
Proof.
  apply (int64_reads_back_32_bits (2 ^ 40 + 7) (hello_at 3) (Flat.mk (lit "hello") 3));
    [done|apply (hello_refines 3); lia|done].
Defined.

(** A string of 65538 bytes keeps two of them. *)
Definition long_string : list byte := repeat x61 (N.to_nat 65538).

Lemma long_string_length : length long_string = N.to_nat 65538.
Proof. apply repeat_length. Qed.

Lemma stringF16_truncates_witness :
  ∃ b1 b2 b3, writeStringF16 long_string (hello_at 0) = (Ret tt, b1)
    ∧ setPosition 0 b1 = (Ret tt, b2)
    ∧ readStringF16 b2 = (Ret (take (Z.to_nat (str_size long_string mod 2 ^ 16)) long_string), b3).
Proof.
  apply (stringF16_truncates long_string (hello_at 0) (Flat.mk (lit "hello") 0));
    [apply (hello_refines 0); lia| |vm_compute; discriminate|].
  - unfold room. rewrite Nat2Z.inj_add, long_string_length. vm_compute. reflexivity.
  - unfold str_size. rewrite long_string_length, N_nat_Z. vm_compute. discriminate.
Defined.

(** A length prefix of zero in the last two bytes of the blocks. *)
Definition empty_string_end : t :=
  (setPosition 2 (write [x61; x61; x00; x00] 4 (make 4)).2).2.

Lemma empty_string_at_capacity_witness : (readStringF16 empty_string_end).1 = Undef.
Proof.
  refine (proj1 (empty_string_at_capacity empty_string_end (Flat.mk [x61; x61; x00; x00] 2)
    _ _ _) _); [concrete_refines|reflexivity|vm_compute; discriminate|reflexivity].
Defined.
