(* ===== verification/Timers.v ===== *)
(** * Timers (sylar/timer.h, sylar/timer.cpp): data and operations

    [TimerManager] keeps a [std::set] of shared pointers to [Timer]s, ordered by the time they
    fire and then by address.  The timers live in [heap], the map from addresses to objects;
    the set is the sequence its iterators enumerate (file [StdOrdered]).  Each operation runs
    under the manager's lock and is one function of the state; the clock it reads and the
    address [new] returns are arguments.  [listExpiredCb] takes the lock twice and is split
    where it releases it. *)

From S2P Require Import Prelude StdOrdered.

Module TimerManager.
Section timers.
(** What a [std::function<void()>] holds. *)
Context {Cb : Type}.

Record Timer := mkTimer {
  m_recurring : bool;
  m_ms : Z;
  m_next : Z;
  m_cb : option Cb;
}.

Record t := mk {
  m_timers : list Z;
  m_tickled : bool;
  m_previousTime : Z;
  heap : gmap Z Timer;
  (** how often [onTimerInsertedAtFront] was called *)
  fronts : nat;
}.

Definition set_timers (v : list Z) (s : t) : t :=
  mk v (m_tickled s) (m_previousTime s) (heap s) (fronts s).
Definition set_tickled (v : bool) (s : t) : t :=
  mk (m_timers s) v (m_previousTime s) (heap s) (fronts s).
Definition set_previousTime (v : Z) (s : t) : t :=
  mk (m_timers s) (m_tickled s) v (heap s) (fronts s).
Definition set_heap (v : gmap Z Timer) (s : t) : t :=
  mk (m_timers s) (m_tickled s) (m_previousTime s) v (fronts s).
Definition onTimerInsertedAtFront (s : t) : t :=
  mk (m_timers s) (m_tickled s) (m_previousTime s) (heap s) (S (fronts s)).

Definition set_next (v : Z) (tm : Timer) : Timer :=
  mkTimer (m_recurring tm) (m_ms tm) v (m_cb tm).
Definition set_ms (v : Z) (tm : Timer) : Timer :=
  mkTimer (m_recurring tm) v (m_next tm) (m_cb tm).
Definition set_cb (v : option Cb) (tm : Timer) : Timer :=
  mkTimer (m_recurring tm) (m_ms tm) (m_next tm) v.

(** [p->m_next]. *)
Definition next_at (h : gmap Z Timer) (p : Z) : Z :=
  match h !! p with Some tm => m_next tm | None => 0 end.

(** [Timer::Comparator]: [None] is the null pointer. *)
Definition Comparator (next : Z → Z) (lhs rhs : option Z) : bool :=
  match lhs, rhs with
  | None, None => false
  | None, Some _ => true
  | Some _, None => false
  | Some l, Some r =>
      if next l <? next r then true
      else if next r <? next l then false
      else l <? r
  end.

(** The order of the set's elements, none of which is null. *)
Definition before (next : Z → Z) (l r : Z) : bool := Comparator next (Some l) (Some r).
Definition lt (s : t) : Z → Z → bool := before (next_at (heap s)).

(** [Timer(ms, cb, recurring, manager)]. *)
Definition newTimer (now ms : Z) (cb : option Cb) (recurring : bool) : Timer :=
  mkTimer recurring ms (u64 (now + ms)) cb.

(** [TimerManager()]. *)
Definition make (now : Z) : t := mk [] false now ∅ 0.

(** *** The object a [Timer] member function runs on *)

Definition this (p : Z) : ST t Timer := fun s => (deref (heap s !! p), s).
Definition assign (p : Z) (f : Timer → Timer) : ST t unit :=
  modify (fun s => set_heap (alter f p (heap s)) s).

(** [m_timers.find(p)], and [m_timers.erase(it)]: erasing [end()] is undefined. *)
Definition timers_find (p : Z) : ST t (option Z) := gets (fun s => set_find (lt s) p (m_timers s)).
Definition timers_erase (it : option Z) : ST t unit := fun s =>
  match it with
  | Some p => (Ret tt, set_timers (set_erase (lt s) p (m_timers s)) s)
  | None => (Undef, s)
  end.
Definition timers_insert (p : Z) : ST t unit :=
  modify (fun s => set_timers (set_insert (lt s) p (m_timers s)) s).

(** [Timer::cancel()]. *)
Definition cancel (p : Z) : ST t bool :=
  tm ← this p;
  match m_cb tm with
  | Some _ =>
      assign p (set_cb None);;
      it ← timers_find p;
      timers_erase it;;
      mret true
  | None => mret false
  end.

(** [Timer::refresh()]. *)
Definition refresh (now : Z) (p : Z) : ST t bool :=
  tm ← this p;
  match m_cb tm with
  | None => mret false
  | Some _ =>
      it ← timers_find p;
      match it with
      | None => mret false
      | Some _ =>
          timers_erase it;;
          assign p (set_next (u64 (now + m_ms tm)));;
          timers_insert p;;
          mret true
      end
  end.

(** The protected [addTimer(val, lock)]: inserts, and reports a new front once. *)
Definition addTimer_locked (val : Z) : ST t unit :=
  s ← get;
  let at_front := set_insert_at_begin (lt s) val (m_timers s) && negb (m_tickled s) in
  timers_insert val;;
  modify (fun s => if at_front then set_tickled true s else s);;
  modify (fun s => if at_front then onTimerInsertedAtFront s else s).

(** [Timer::reset(ms, from_now)]: the test before the lock, and the part under the lock. *)
Definition reset_locked (now : Z) (p ms : Z) (from_now : bool) : ST t bool :=
  tm ← this p;
  match m_cb tm with
  | None => mret false
  | Some _ =>
      it ← timers_find p;
      match it with
      | None => mret false
      | Some _ =>
          timers_erase it;;
          let start := if from_now then now else u64 (m_next tm - m_ms tm) in
          assign p (set_ms ms);;
          assign p (set_next (u64 (start + ms)));;
          addTimer_locked p;;
          mret true
      end
  end.
Definition reset (now : Z) (p ms : Z) (from_now : bool) : ST t bool :=
  tm ← this p;
  if (ms =? m_ms tm) && negb from_now then mret true
  else reset_locked now p ms from_now.

(** [TimerManager::addTimer(ms, cb, recurring)]; [p] is the address of the new timer. *)
Definition addTimer (now p ms : Z) (cb : option Cb) (recurring : bool) : ST t Z :=
  modify (fun s => set_heap (<[p := newTimer now ms cb recurring]> (heap s)) s);;
  addTimer_locked p;;
  mret p.

(** [getNextTimer()]; [~0ull] when there is no timer. *)
Definition getNextTimer (now_ms : Z) : ST t Z :=
  modify (set_tickled false);;
  s ← get;
  match m_timers s with
  | [] => mret (2 ^ 64 - 1)
  | next :: _ =>
      let m_next := next_at (heap s) next in
      mret (if m_next <=? now_ms then 0 else u64 (m_next - now_ms))
  end.

(** [detectClockRollover(now_ms)]. *)
Definition detectClockRollover (now_ms : Z) : ST t bool :=
  s ← get;
  let rollover := (now_ms <? m_previousTime s)
                    && (now_ms <? u64 (m_previousTime s - 60 * 60 * 1000)) in
  modify (set_previousTime now_ms);;
  mret rollover.

(** [hasTimer()]. *)
Definition hasTimer (s : t) : bool := match m_timers s with [] => false | _ :: _ => true end.

(** The elements before [it] and from it on: [it] is [end()] after a rollover, else the lower
    bound of a timer that fires now, moved over the timers that fire at this very moment.
    [now_timer] is the address of that temporary. *)
Fixpoint skip_now (next : Z → Z) (now_ms : Z) (l : list Z) : list Z * list Z :=
  match l with
  | [] => ([], [])
  | p :: l' =>
      if next p =? now_ms
      then let '(a, b) := skip_now next now_ms l' in (p :: a, b)
      else ([], l)
  end.

Definition expired_split (s : t) (now_timer now_ms : Z) (rollover : bool) : list Z * list Z :=
  if rollover then (m_timers s, [])
  else
    let next p := if p =? now_timer then now_ms else next_at (heap s) p in
    let '(a, b) := lower_bound_split (before next) now_timer (m_timers s) in
    let '(c, d) := skip_now next now_ms b in
    (a ++ c, d).

(** The loop over [expired]: the callbacks collected. *)
Fixpoint fire_loop (now_ms : Z) (expired : list Z) : ST t (list (option Cb)) :=
  match expired with
  | [] => mret []
  | p :: expired' =>
      tm ← this p;
      (if m_recurring tm then
         assign p (set_next (u64 (now_ms + m_ms tm)));;
         timers_insert p
       else assign p (set_cb None));;
      rest ← fire_loop now_ms expired';
      mret (m_cb tm :: rest)
  end.

(** [listExpiredCb(cbs)] up to the release of the read lock: whether it goes on. *)
Definition listExpiredCb_check (s : t) : bool := hasTimer s.

(** ... and from the acquisition of the write lock.  [*m_timers.begin()] of an empty set is
    undefined. *)
Definition listExpiredCb_locked (now_timer now_ms : Z) : ST t (list (option Cb)) :=
  rollover ← detectClockRollover now_ms;
  s ← get;
  early ← (if rollover then mret false
           else lift (first ← deref (head (m_timers s));
                      Ret (now_ms <? next_at (heap s) first)));
  if (early : bool) then mret []
  else
    let '(expired, rest) := expired_split s now_timer now_ms rollover in
    modify (set_timers rest);;
    fire_loop now_ms expired.

(** [listExpiredCb(cbs)] when nothing happens in between. *)
Definition listExpiredCb (now_timer now_ms : Z) (cbs : list (option Cb))
    : ST t (list (option Cb)) :=
  go ← gets listExpiredCb_check;
  if (go : bool) then
    fired ← listExpiredCb_locked now_timer now_ms;
    mret (cbs ++ fired)
  else mret cbs.
End timers.
Arguments Timer : clear implicits.
Arguments t : clear implicits.
End TimerManager.

(** [OnTimer(weak_cond, cb)] and [addConditionTimer]: the bound callback runs [cb] only while
    the condition's object is alive. *)
Module ConditionTimer.
Record bound (Cb : Type) := mkBound { weak_cond : Z; cb : Cb }.
Arguments mkBound {Cb} _ _.
Arguments weak_cond {Cb} _.
Arguments cb {Cb} _.

Definition OnTimer {Cb} (alive : Z → bool) (f : bound Cb) : option Cb :=
  if alive (weak_cond f) then Some (cb f) else None.

Definition addConditionTimer {Cb} (now p ms : Z) (f : Cb) (weak_cond : Z) (recurring : bool)
    : ST (TimerManager.t (bound Cb)) Z :=
  TimerManager.addTimer now p ms (Some (mkBound weak_cond f)) recurring.
End ConditionTimer.
