(* ===== verification/TimersSpec.v ===== *)
(** * Timers: invariant and functional correctness

    The invariant of [TimerManager], the histories it is preserved by, and what adding,
    polling and firing timers do. *)

From S2P Require Import Prelude StdOrdered Timers.
Import TimerManager.

Section contract.
Context {Cb : Type}.
Implicit Types (s : t Cb) (h : gmap Z (Timer Cb)) (l : list Z) (tm : Timer Cb).

(** The set is sorted and its elements exist; a timer that still has its callback is in the
    set (which is why [cancel] never erases [end()]); times are 64-bit. *)
Record inv s : Prop := {
  inv_sorted : sorted_by (lt s) (m_timers s);
  inv_heap p : p ∈ m_timers s → is_Some (heap s !! p);
  inv_cb p tm : heap s !! p = Some tm → m_cb tm ≠ None → p ∈ m_timers s;
  inv_next p tm : heap s !! p = Some tm → fits_u 64 (m_next tm);
}.

Definition ordered h l : Prop := sorted_by (before (next_at h)) l.

(** What firing does to a timer. *)
Definition fired (now : Z) tm : Timer Cb :=
  if m_recurring tm then set_next (u64 (now + m_ms tm)) tm else set_cb None tm.
Definition callback h (p : Z) : option Cb := (h !! p) ≫= m_cb.
Definition callbacks h l : list (option Cb) := map (callback h) l.
Definition recurring h (p : Z) : bool := from_option m_recurring false (h !! p).

(** The clock went back by more than an hour, as [detectClockRollover] sees it. *)
Definition rolled_over s (now : Z) : bool :=
  (now <? m_previousTime s) && (now <? u64 (m_previousTime s - 3600000)).

(** The timers an activation at [now] fires, in order. *)
Definition due s (now : Z) : list Z :=
  if rolled_over s now then m_timers s
  else filter (fun p => next_at (heap s) p <= now) (m_timers s).

(** The operations of a history, and when the program can perform them. *)
Inductive op :=
| AddTimer (now p ms : Z) (cb : option Cb) (recurring : bool)
| Cancel (p : Z)
| Refresh (now p : Z)
| Reset (now p ms : Z) (from_now : bool)
| GetNextTimer (now : Z)
| ListExpiredCb (now_timer now : Z).

Definition valid s (o : op) : Prop :=
  match o with
  | AddTimer now p ms cb _ => heap s !! p = None
  | Cancel p | Refresh _ p | Reset _ p _ _ => is_Some (heap s !! p)
  | GetNextTimer now => fits_u 64 now
  | ListExpiredCb now_timer now => heap s !! now_timer = None ∧ fits_u 64 now
  end.

Definition run (o : op) : ST (t Cb) unit :=
  match o with
  | AddTimer now p ms cb recurring => addTimer now p ms cb recurring;; mret tt
  | Cancel p => cancel p;; mret tt
  | Refresh now p => refresh now p;; mret tt
  | Reset now p ms from_now => reset now p ms from_now;; mret tt
  | GetNextTimer now => getNextTimer now;; mret tt
  | ListExpiredCb now_timer now => listExpiredCb now_timer now [];; mret tt
  end.

Definition step s s' : Prop := ∃ o, valid s o ∧ run o s = (Ret tt, s').

(** ** The order of the set *)

#[global] Instance Comparator_swo (next : Z → Z) : StrictWeakOrder (Comparator next).
Proof.
  split.
  - intros [a|]; simpl; [|done]. by rewrite !Z.ltb_irrefl.
  - intros [a|] [b|] [c|]; simpl; try done.
    destruct (Z.ltb_spec (next a) (next b)), (Z.ltb_spec (next b) (next a)),
      (Z.ltb_spec (next b) (next c)), (Z.ltb_spec (next c) (next b)),
      (Z.ltb_spec (next a) (next c)), (Z.ltb_spec (next c) (next a)); try done; try lia.
    all: rewrite !Z.ltb_lt; lia.
  - intros [a|] [b|] [c|]; simpl; try done.
    destruct (Z.ltb_spec (next a) (next b)), (Z.ltb_spec (next b) (next a)),
      (Z.ltb_spec (next b) (next c)), (Z.ltb_spec (next c) (next b)),
      (Z.ltb_spec (next a) (next c)), (Z.ltb_spec (next c) (next a)); try done; try lia.
    all: rewrite !Z.ltb_ge; lia.
Qed.

#[global] Instance before_swo (next : Z → Z) : StrictWeakOrder (before next).
Proof.
  destruct (Comparator_swo next) as [H1 H2 H3].
  split; unfold before; [intros a; apply H1|intros a b c; apply H2|intros a b c; apply H3].
Qed.

Lemma before_true next a b :
  before next a b = true ↔ next a < next b ∨ next a = next b ∧ a < b.
Proof.
  unfold before, Comparator.
  destruct (Z.ltb_spec (next a) (next b)), (Z.ltb_spec (next b) (next a));
    rewrite ?Z.ltb_lt; intuition (congruence || lia).
Qed.

Lemma before_equivb next a b : equivb (before next) a b = true ↔ a = b.
Proof.
  rewrite equivb_true, <- !not_true_iff_false, !before_true. split; [lia|intros ->; lia].
Qed.

Lemma before_new next p l : p ∉ l → Forall (fun y => equivb (before next) p y = false) l.
Proof.
  intros H. apply Forall_forall. intros y Hy. apply not_true_iff_false.
  rewrite before_equivb. by intros ->.
Qed.

(** ** Sorted lists under updates of the heap *)

Lemma next_at_agree h h' p : h' !! p = h !! p → next_at h' p = next_at h p.
Proof. unfold next_at. by intros ->. Qed.

Lemma ordered_agree h h' l :
  (∀ p, p ∈ l → next_at h' p = next_at h p) → ordered h l → ordered h' l.
Proof.
  intros H. apply sorted_by_agree. intros a b Ha Hb. unfold before, Comparator.
  by rewrite !H.
Qed.

Lemma ordered_insert h p l : ordered h l → ordered h (set_insert (before (next_at h)) p l).
Proof. apply set_insert_sorted, _. Qed.

Lemma insert_perm next p l : p ∉ l → set_insert (before next) p l ≡ₚ p :: l.
Proof. intros. by apply set_insert_new, before_new. Qed.

Lemma ordered_NoDup h l : ordered h l → NoDup l.
Proof. apply sorted_by_NoDup, _. Qed.

Lemma erase_perm h p l :
  ordered h l → p ∈ l → p :: set_erase (before (next_at h)) p l ≡ₚ l.
Proof. apply set_erase_perm, _. Qed.

Lemma ordered_erase h p l : ordered h l → ordered h (set_erase (before (next_at h)) p l).
Proof. apply set_erase_sorted. Qed.

Lemma elem_of_erase h p q l :
  ordered h l → p ∈ l → q ∈ set_erase (before (next_at h)) p l ↔ q ∈ l ∧ q ≠ p.
Proof.
  intros Ho Hp. pose proof (erase_perm h p l Ho Hp) as Hperm.
  pose proof (ordered_NoDup h l Ho) as Hnd. rewrite <- Hperm in Hnd.
  apply NoDup_cons in Hnd as [Hni _]. rewrite <- Hperm at 2.
  rewrite elem_of_cons. split; [intros Hq; split; [by right|by intros ->]|tauto].
Qed.

Lemma find_elem h p l :
  ordered h l → set_find (before (next_at h)) p l = if decide (p ∈ l) then Some p else None.
Proof.
  intros Ho. case_decide as Hp; [by apply set_find_elem; [apply _|done..]|].
  destruct (set_find _ p l) as [q|] eqn:E; [|done]. exfalso.
  unfold set_find in E. destruct (filter _ l) as [|q' r] eqn:Ef; [done|].
  assert (q' ∈ filter (fun y => equivb (before (next_at h)) p y = true) l)
    as [Hq Hql]%list_elem_of_filter by (rewrite Ef; set_solver).
  apply before_equivb in Hq as <-. done.
Qed.

Lemma erase_agree next next' p l :
  (∀ q, next q = next' q) → set_erase (before next) p l = set_erase (before next') p l.
Proof.
  intros H. induction l as [|q l IH]; [done|]. simpl.
  assert (equivb (before next) p q = equivb (before next') p q) as ->; [|by rewrite IH].
  unfold equivb, before, Comparator. by rewrite !H.
Qed.

(** ** Single operations *)

(** Taking a timer out, changing it, and putting it back. *)
Lemma inv_rearm s p f :
  inv s → p ∈ m_timers s → (∀ tm, m_cb (f tm) = m_cb tm) → (∀ tm, fits_u 64 (m_next (f tm))) →
  let h' := alter f p (heap s) in
  let l' := set_erase (lt s) p (m_timers s) in
  ordered h' (set_insert (before (next_at h')) p l') ∧
  set_insert (before (next_at h')) p l' ≡ₚ m_timers s ∧
  ∀ s', heap s' = h' → m_timers s' = set_insert (before (next_at h')) p l' → inv s'.
Proof.
  intros [Hs Hh Hc Hn] Hp Hcb Hf h' l'.
  assert (∀ q, q ∈ l' ↔ q ∈ m_timers s ∧ q ≠ p) as Hl' by (intros q; by apply elem_of_erase).
  assert (ordered h' l') as Ho.
  { apply (ordered_agree (heap s)); [|by apply ordered_erase]. intros q Hq.
    apply next_at_agree. unfold h'. rewrite lookup_alter_ne; [done|].
    intros ->. by apply Hl' in Hq as []. }
  assert (set_insert (before (next_at h')) p l' ≡ₚ m_timers s) as Hperm.
  { rewrite insert_perm; [by apply erase_perm|]. intros Hpl. by apply Hl' in Hpl as []. }
  split_and!; [by apply ordered_insert|done|].
  intros s' Eh El. unfold h' in *. split.
  - unfold lt. rewrite Eh, El. by apply ordered_insert.
  - intros q. rewrite El, Hperm, Eh. intros Hq. rewrite lookup_alter. case_decide; subst.
    + apply fmap_is_Some. by apply Hh.
    + by apply Hh.
  - intros q tm. rewrite El, Hperm, Eh, lookup_alter. case_decide; [by subst|apply Hc].
  - intros q tm. rewrite Eh, lookup_alter. case_decide; [|apply Hn].
    intros Hq. apply fmap_Some in Hq as (tm0 & _ & ->). apply Hf.
Qed.

Lemma cancel_ok s p tm :
  inv s → heap s !! p = Some tm →
  cancel p s = match m_cb tm with
    | None => (Ret false, s)
    | Some _ => (Ret true, set_timers (set_erase (lt s) p (m_timers s))
                             (set_heap (alter (set_cb None) p (heap s)) s))
    end
  ∧ inv (cancel p s).2.
Proof.
  intros Hinv Htm. pose proof Hinv as [Hs Hh Hc Hn].
  unfold cancel. st_run (unfold this; by rewrite Htm).
  destruct (m_cb tm) as [cb|] eqn:Ecb; [|done].
  assert (p ∈ m_timers s) as Hp by (eapply Hc; [done|congruence]).
  set (h' := alter (set_cb None) p (heap s)).
  assert (∀ q, next_at h' q = next_at (heap s) q) as Hnext.
  { intros q. unfold next_at, h'. rewrite lookup_alter. case_decide; [subst|done].
    by destruct (heap s !! q). }
  st_run reflexivity. st_run reflexivity.
  assert (ordered h' (m_timers s)) as Ho by (by apply (ordered_agree (heap s))).
  assert (set_erase (before (next_at h')) p (m_timers s) = set_erase (before (next_at (heap s))) p (m_timers s)) as Her.
  { by apply erase_agree. }
  unfold lt. cbn [heap m_timers set_heap]. fold h'. rewrite find_elem, decide_True by done.
  st_run reflexivity. unfold mret, st_ret. cbn [fst snd].
  unfold lt. cbn [heap m_timers set_heap]. fold h'. rewrite Her. split; [done|].
  split; cbn [heap m_timers set_heap set_timers]; unfold lt; cbn [heap set_heap set_timers].
  - rewrite <- Her. by apply ordered_erase.
  - intros q Hq. apply elem_of_erase in Hq as [Hq Hqp]; [|done..].
    unfold h'. rewrite lookup_alter_ne by done. by apply Hh.
  - intros q tm'. unfold h'. rewrite lookup_alter. case_decide; subst.
    + rewrite Htm. simpl. by intros [= <-].
    + intros. apply elem_of_erase; [done..|]. split; [by eapply Hc|done].
  - intros q tm'. unfold h'. rewrite lookup_alter. case_decide; subst; [|apply Hn].
    rewrite Htm. simpl. intros [= <-]. by apply (Hn q tm).
Qed.

(** The timer at [p] is the first to fire. *)
Definition at_head s p : bool := bool_decide (head (m_timers s) = Some p).

Lemma addTimer_locked_ok s p :
  ordered (heap s) (m_timers s) → p ∉ m_timers s →
  ∃ s', addTimer_locked p s = (Ret tt, s')
    ∧ heap s' = heap s ∧ m_previousTime s' = m_previousTime s
    ∧ m_timers s' = set_insert (before (next_at (heap s))) p (m_timers s)
    ∧ m_tickled s' = m_tickled s || at_head s' p
    ∧ fronts s' = (fronts s + if at_head s' p && negb (m_tickled s) then 1 else 0)%nat.
Proof.
  intros Ho Hp. unfold addTimer_locked. st_run reflexivity.
  assert (set_insert_at_begin (lt s) p (m_timers s)
    = bool_decide (head (set_insert (lt s) p (m_timers s)) = Some p)) as ->.
  { apply Bool.eq_iff_eq_true. rewrite bool_decide_eq_true.
    apply set_insert_at_begin_spec; [apply _|done|by apply before_new]. }
  do 2 st_run reflexivity. unfold modify. eexists. split; [done|].
  unfold at_head. destruct (bool_decide _) eqn:E, (m_tickled s) eqn:Et;
    cbn [andb negb heap m_timers m_previousTime m_tickled fronts set_tickled set_timers
      onTimerInsertedAtFront] in *; fold (lt s); rewrite ?Et, ?E; split_and!; try done; simpl; lia.
Qed.

Lemma find_timer s p :
  inv s → p ∈ m_timers s → set_find (lt s) p (m_timers s) = Some p.
Proof. intros Hinv Hp. unfold lt. by rewrite find_elem, decide_True by (done || apply Hinv). Qed.

Lemma refresh_ok s now p tm :
  inv s → heap s !! p = Some tm →
  match m_cb tm with
  | None => refresh now p s = (Ret false, s)
  | Some _ => ∃ s', refresh now p s = (Ret true, s') ∧ inv s'
      ∧ heap s' = alter (set_next (u64 (now + m_ms tm))) p (heap s)
      ∧ m_timers s' ≡ₚ m_timers s
  end.
Proof.
  intros Hinv Htm. pose proof Hinv as [Hs Hh Hc Hn]. unfold refresh.
  destruct (m_cb tm) as [cb|] eqn:Ecb.
  - assert (p ∈ m_timers s) as Hp by (eapply Hc; [done|congruence]).
    destruct (inv_rearm s p (set_next (u64 (now + m_ms tm))) Hinv Hp) as (H1 & H2 & H3);
      [done|intros; by apply uwrap_fits|].
    eexists. st_run (unfold this; by rewrite Htm). rewrite Ecb.
    st_run reflexivity. rewrite !(find_timer s p) by done. cbv iota.
    do 3 st_run reflexivity. split; [done|]. split; [by apply H3|]. done.
  - st_run (unfold this; by rewrite Htm). by rewrite Ecb.
Qed.

Lemma reset_locked_ok s now p ms from_now tm :
  inv s → heap s !! p = Some tm →
  match m_cb tm with
  | None => reset_locked now p ms from_now s = (Ret false, s)
  | Some _ => ∃ s', reset_locked now p ms from_now s = (Ret true, s') ∧ inv s'
      ∧ m_timers s' ≡ₚ m_timers s
      ∧ heap s' = alter (fun tm => set_next
          (u64 ((if from_now then now else u64 (m_next tm - m_ms tm)) + ms)) (set_ms ms tm))
          p (heap s)
  end.
Proof.
  intros Hinv Htm. pose proof Hinv as [Hs Hh Hc Hn]. unfold reset_locked.
  destruct (m_cb tm) as [cb|] eqn:Ecb.
  - assert (p ∈ m_timers s) as Hp by (eapply Hc; [done|congruence]).
    set (start := if from_now then now else u64 (m_next tm - m_ms tm)).
    destruct (inv_rearm s p (fun tm => set_next (u64 (start + ms)) (set_ms ms tm)) Hinv Hp)
      as (H1 & H2 & H3); [done|intros; by apply uwrap_fits|].
    st_run (unfold this; by rewrite Htm). rewrite Ecb.
    st_run reflexivity. rewrite !(find_timer s p) by done. cbv iota.
    do 3 st_run reflexivity.
    set (h' := alter _ p (heap s)) in *.
    match goal with |- context [(addTimer_locked p ≫= _) ?x] => set (s2 := x) end.
    assert (heap s2 = h') as E2.
    { unfold s2, h'. simpl. apply map_eq. intros q.
      destruct (decide (p = q)) as [->|]; [rewrite !lookup_alter_eq|by rewrite !lookup_alter_ne].
      by destruct (heap s !! q). }
    assert (m_timers s2 = set_erase (lt s) p (m_timers s)) as E3 by done.
    destruct (addTimer_locked_ok s2 p) as (s' & E' & Eh & _ & El & _).
    { rewrite E2, E3. unfold ordered. apply (ordered_agree (heap s)); [|by apply ordered_erase].
      intros q Hq. apply next_at_agree. unfold h'. rewrite lookup_alter_ne; [done|].
      intros ->. by apply elem_of_erase in Hq as []. }
    { rewrite E3. intros Hq. by apply elem_of_erase in Hq as []. }
    exists s'. st_run exact E'. split; [done|]. rewrite E2 in Eh. rewrite E2, E3 in El.
    split_and!; [by apply H3|by rewrite El|]. rewrite Eh. unfold h'.
    apply map_eq. intros q. rewrite !lookup_alter. case_decide; [subst|done].
    rewrite Htm. done.
  - st_run (unfold this; by rewrite Htm). by rewrite Ecb.
Qed.

Lemma reset_ok s now p ms from_now tm :
  inv s → heap s !! p = Some tm →
  if (ms =? m_ms tm) && negb from_now then reset now p ms from_now s = (Ret true, s)
  else match m_cb tm with
  | None => reset now p ms from_now s = (Ret false, s)
  | Some _ => ∃ s', reset now p ms from_now s = (Ret true, s') ∧ inv s'
      ∧ m_timers s' ≡ₚ m_timers s
      ∧ heap s' = alter (fun tm => set_next
          (u64 ((if from_now then now else u64 (m_next tm - m_ms tm)) + ms)) (set_ms ms tm))
          p (heap s)
  end.
Proof.
  intros Hinv Htm. pose proof (reset_locked_ok s now p ms from_now tm Hinv Htm) as Hr.
  assert (reset now p ms from_now s
    = (if (ms =? m_ms tm) && negb from_now then mret true else reset_locked now p ms from_now) s) as ->
    by (unfold reset; by st_run (unfold this; by rewrite Htm)).
  by destruct (_ && _).
Qed.

Lemma addTimer_ok s now p ms cb rec :
  inv s → heap s !! p = None →
  ∃ s', addTimer now p ms cb rec s = (Ret p, s') ∧ inv s'
    ∧ heap s' = <[p := newTimer now ms cb rec]> (heap s)
    ∧ m_timers s' ≡ₚ p :: m_timers s
    ∧ m_tickled s' = m_tickled s || at_head s' p
    ∧ fronts s' = (fronts s + if at_head s' p && negb (m_tickled s) then 1 else 0)%nat.
Proof.
  intros [Hs Hh Hc Hn] Hp. unfold addTimer. st_run reflexivity.
  set (h' := <[p := newTimer now ms cb rec]> (heap s)). set (s2 := set_heap h' s).
  assert (p ∉ m_timers s) as Hni by (intros Hq; destruct (Hh _ Hq); congruence).
  assert (ordered h' (m_timers s)) as Ho.
  { apply (ordered_agree (heap s)); [|done]. intros q Hq. apply next_at_agree.
    unfold h'. rewrite lookup_insert_ne; [done|]. by intros ->. }
  destruct (addTimer_locked_ok s2 p) as (s' & E & Eh & _ & El & Et & Ef); [done|done|].
  cbn [heap m_timers s2 set_heap] in *. exists s'. st_run exact E.
  assert (m_timers s' ≡ₚ p :: m_timers s) as Hperm by (rewrite El; by apply insert_perm).
  split_and!; try done. split.
  - unfold lt. rewrite Eh, El. by apply ordered_insert.
  - intros q. rewrite Hperm, Eh. unfold h'. intros [->|Hq]%elem_of_cons.
    + by rewrite lookup_insert_eq.
    + rewrite lookup_insert_ne; [by apply Hh|]. by intros ->.
  - intros q tm. rewrite Hperm, Eh. unfold h'. destruct (decide (q = p)) as [->|].
    + by left.
    + rewrite lookup_insert_ne by done. right. by eapply Hc.
  - intros q tm. rewrite Eh. unfold h'. destruct (decide (q = p)) as [->|].
    + rewrite lookup_insert_eq. intros [= <-]. by apply uwrap_fits.
    + rewrite lookup_insert_ne by done. apply Hn.
Qed.

(** ** Firing *)

Lemma sorted_head_le next p l q :
  sorted_by (before next) (p :: l) → q ∈ p :: l → next p <= next q.
Proof.
  intros [_ Hf]%sorted_by_cons [->|Hq]%elem_of_cons; [done|].
  rewrite Forall_forall in Hf. apply Hf, before_true in Hq. lia.
Qed.

(** The timers of a sorted set that are due come first. *)
Lemma sorted_due next now l a b :
  l = a ++ b → Forall (fun p => next p <= now) a → Forall (fun p => now < next p) b →
  filter (fun p => next p <= now) l = a ∧ filter (fun p => ¬ next p <= now) l = b.
Proof.
  intros -> Ha Hb. rewrite !filter_app. split.
  - rewrite (list_filter_all _ a), (list_filter_none _ b), app_nil_r; [done| |done].
    eapply Forall_impl; [exact Hb|]. simpl. lia.
  - rewrite (list_filter_all _ b), (list_filter_none _ a); [done|..].
    + eapply Forall_impl; [exact Ha|]. simpl. lia.
    + eapply Forall_impl; [exact Hb|]. simpl. lia.
Qed.

Lemma skip_now_spec next now l a b :
  sorted_by (before next) l → Forall (fun p => now <= next p) l →
  skip_now next now l = (a, b) →
  l = a ++ b ∧ Forall (fun p => next p = now) a ∧ Forall (fun p => now < next p) b.
Proof.
  revert a b. induction l as [|p l IH]; simpl; intros a b Hs Hf H; [by simplify_eq|].
  apply Forall_cons in Hf as [Hp Hf]. pose proof Hs as Hs0.
  apply sorted_by_cons in Hs as [Hs Hlt].
  destruct (Z.eqb_spec (next p) now) as [E|E].
  - destruct (skip_now next now l) as [a' b'] eqn:Es. simplify_eq.
    destruct (IH a' b) as (-> & Ha & Hb); [done..|]. split_and!; auto.
  - simplify_eq. split_and!; [done|done|]. apply Forall_forall. intros q Hq.
    pose proof (sorted_head_le next p l q Hs0 Hq). lia.
Qed.

Lemma expired_split_spec s now_timer now :
  inv s → heap s !! now_timer = None →
  expired_split s now_timer now (rolled_over s now)
  = (due s now, filter (fun p => p ∉ due s now) (m_timers s)).
Proof.
  intros [Hs Hh _ _] Hnew. unfold expired_split, due.
  destruct (rolled_over s now).
  { rewrite list_filter_none; [done|]. apply Forall_forall. tauto. }
  set (next := fun p => if p =? now_timer then now else next_at (heap s) p).
  assert (∀ p, p ∈ m_timers s → next p = next_at (heap s) p) as Hnext.
  { intros p Hp. unfold next. destruct (Z.eqb_spec p now_timer) as [->|]; [|done].
    destruct (Hh _ Hp). congruence. }
  assert (sorted_by (before next) (m_timers s)) as Hs'.
  { eapply sorted_by_agree; [|exact Hs]. intros p q Hp Hq. unfold lt, before, Comparator.
    by rewrite !Hnext. }
  assert (next now_timer = now) as Hnow by (unfold next; by rewrite Z.eqb_refl).
  destruct (lower_bound_split (before next) now_timer (m_timers s)) as [a b] eqn:E.
  pose proof (lower_bound_split_app _ _ _ _ _ E) as Eab.
  destruct (lower_bound_split_spec _ _ _ _ _ Hs' E) as [Ha Hb].
  assert (Forall (fun p => next p <= now) a) as Ha'.
  { eapply Forall_impl; [exact Ha|]. intros p Hp%before_true. lia. }
  assert (Forall (fun p => now <= next p) b) as Hb'.
  { eapply Forall_impl; [exact Hb|]. intros p. rewrite <- not_true_iff_false, before_true. lia. }
  rewrite Eab in Hs'. apply sorted_by_app in Hs' as [_ Hsb].
  destruct (skip_now next now b) as [c d] eqn:Es.
  destruct (skip_now_spec next now b c d Hsb Hb' Es) as (-> & Hc & Hd).
  rewrite app_assoc in Eab.
  assert (filter (fun p => next_at (heap s) p <= now) (m_timers s)
          = filter (fun p => next p <= now) (m_timers s)) as ->.
  { apply list_filter_iff'. apply Forall_forall. intros p Hp. by rewrite Hnext. }
  destruct (sorted_due next now (m_timers s) (a ++ c) d Eab) as [H1 H2]; [|done|].
  { apply Forall_app. split; [done|]. eapply Forall_impl; [exact Hc|]. simpl. lia. }
  rewrite H1. f_equal. rewrite <- H2. apply list_filter_iff'. apply Forall_forall.
  intros p Hp. rewrite <- H1, list_elem_of_filter. tauto.
Qed.

(** The fields firing does not touch. *)
Definition same_flags s s' : Prop :=
  m_previousTime s' = m_previousTime s ∧ m_tickled s' = m_tickled s ∧ fronts s' = fronts s.

(** One timer of the loop. *)
Lemma fire_one s now p tm rest :
  heap s !! p = Some tm → p ∉ m_timers s → ordered (heap s) (m_timers s) →
  ∃ s1, fire_loop now (p :: rest) s
      = (cbs ← fire_loop now rest; mret (m_cb tm :: cbs)) s1
    ∧ ordered (heap s1) (m_timers s1) ∧ same_flags s s1
    ∧ heap s1 = alter (fired now) p (heap s)
    ∧ m_timers s1 ≡ₚ (if m_recurring tm then [p] else []) ++ m_timers s.
Proof.
  intros Htm Hp Ho. cbn [fire_loop]. st_run (unfold this; by rewrite Htm).
  assert (∀ f, ordered (alter f p (heap s)) (m_timers s)) as Ho'.
  { intros f. apply (ordered_agree (heap s)); [|done]. intros q Hq. apply next_at_agree.
    rewrite lookup_alter_ne; [done|]. by intros ->. }
  assert (∀ f, fired now tm = f tm → alter (fired now) p (heap s) = alter f p (heap s)) as Halt.
  { intros f Hf. apply map_eq. intros q. destruct (decide (p = q)) as [<-|].
    - rewrite !lookup_alter_eq, Htm. simpl. by rewrite Hf.
    - by rewrite !lookup_alter_ne. }
  destruct (m_recurring tm) eqn:Er.
  - rewrite (Halt (set_next (u64 (now + m_ms tm)))) by (unfold fired; by rewrite Er).
    eexists. st_run reflexivity. split; [reflexivity|]. split_and!; try done.
    + apply ordered_insert, Ho'.
    + simpl. by apply insert_perm.
  - rewrite (Halt (set_cb None)) by (unfold fired; by rewrite Er).
    eexists. st_run reflexivity. split; [reflexivity|]. by split_and!; [apply Ho'|..].
Qed.

Lemma fire_loop_ok now E : ∀ s,
  NoDup E → (∀ p, p ∈ E → p ∉ m_timers s ∧ is_Some (heap s !! p)) →
  ordered (heap s) (m_timers s) →
  ∃ s', fire_loop now E s = (Ret (callbacks (heap s) E), s')
    ∧ ordered (heap s') (m_timers s') ∧ same_flags s s'
    ∧ (∀ q, q ∈ m_timers s' ↔ q ∈ m_timers s ∨ q ∈ E ∧ recurring (heap s) q = true)
    ∧ (∀ q, heap s' !! q = if decide (q ∈ E) then fired now <$> heap s !! q else heap s !! q).
Proof.
  induction E as [|p E IH]; intros s Hnd HE Ho.
  { exists s. split_and!; try done; set_solver. }
  apply NoDup_cons in Hnd as [HpE Hnd].
  destruct (HE p) as [Hp [tm Htm]]; [set_solver|].
  destruct (fire_one s now p tm E Htm Hp Ho) as (s1 & E1 & Ho1 & Hf1 & Eh & Hperm).
  assert (∀ q, q ≠ p → heap s1 !! q = heap s !! q) as Hne
    by (intros; by rewrite Eh, lookup_alter_ne).
  destruct (IH s1) as (s' & E2 & Ho2 & Hf2 & Hmem & Hheap); [done| |done|].
  { intros q Hq. rewrite Hperm, Hne by (by intros ->).
    destruct (HE q) as [Hq1 Hq2]; [set_solver|]. split; [|done].
    destruct (m_recurring tm); set_solver. }
  exists s'. rewrite E1. split_and!.
  - st_run exact E2. unfold mret, st_ret. do 2 f_equal. cbn [callbacks map]. f_equal.
    + unfold callback. by rewrite Htm.
    + apply map_ext_in. intros q Hq%list_elem_of_In. unfold callback.
      rewrite Hne; [done|]. by intros ->.
  - done.
  - destruct Hf1 as (? & ? & ?), Hf2 as (? & ? & ?). split_and!; congruence.
  - intros q. rewrite Hmem, Hperm, elem_of_app, elem_of_cons.
    destruct (decide (q = p)) as [->|Hq].
    + unfold recurring at 2. rewrite Htm. simpl.
      destruct (m_recurring tm); set_solver.
    + assert (recurring (heap s1) q = recurring (heap s) q) as ->
        by (unfold recurring; by rewrite Hne).
      destruct (m_recurring tm); set_solver.
  - intros q. rewrite Hheap. destruct (decide (q = p)) as [->|Hq].
    + rewrite decide_False, decide_True by set_solver. by rewrite Eh, lookup_alter_eq.
    + rewrite Hne by done. repeat case_decide; set_solver.
Qed.

Lemma due_In s now p : p ∈ due s now → p ∈ m_timers s.
Proof. unfold due. destruct (rolled_over s now); [done|]. by intros [_ ?]%list_elem_of_filter. Qed.

Lemma due_NoDup s now : inv s → NoDup (due s now).
Proof.
  intros Hinv. pose proof (ordered_NoDup _ _ (inv_sorted _ Hinv)). unfold due.
  destruct (rolled_over s now); [done|]. by apply NoDup_filter.
Qed.

Lemma ordered_filter h (P : Z → Prop) `{∀ p, Decision (P p)} l :
  ordered h l → ordered h (filter P l).
Proof.
  intros Ho. induction l as [|p l IH]; [done|].
  apply sorted_by_cons in Ho as [Ho Hf]. rewrite filter_cons. case_decide; [|by apply IH].
  apply sorted_by_cons. split; [by apply IH|]. rewrite Forall_forall in *.
  intros q [_ Hq]%list_elem_of_filter. by apply Hf.
Qed.

(** The second half of [listExpiredCb], under the write lock. *)
Lemma listExpiredCb_locked_ok s now_timer now :
  inv s → heap s !! now_timer = None → m_timers s ≠ [] →
  ∃ s', listExpiredCb_locked now_timer now s = (Ret (callbacks (heap s) (due s now)), s')
    ∧ ordered (heap s') (m_timers s')
    ∧ (∀ q, q ∈ m_timers s' ↔
         q ∈ m_timers s ∧ (q ∉ due s now ∨ recurring (heap s) q = true))
    ∧ (∀ q, heap s' !! q =
         if decide (q ∈ due s now) then fired now <$> heap s !! q else heap s !! q)
    ∧ m_previousTime s' = now ∧ m_tickled s' = m_tickled s ∧ fronts s' = fronts s.
Proof.
  intros Hinv Hnew Hne. pose proof Hinv as [Hs Hh Hc Hn].
  destruct (m_timers s) as [|first rest] eqn:El; [done|]. rewrite <- El in *. clear Hne.
  unfold listExpiredCb_locked, detectClockRollover. change (60 * 60 * 1000) with 3600000.
  st_run (unfold mbind, st_bind; reflexivity). fold (rolled_over s now).
  st_run reflexivity. unfold set_previousTime. cbn [m_timers heap].
  set (s0 := mk (m_timers s) (m_tickled s) now (heap s) (fronts s)).
  set (early := negb (rolled_over s now) && (now <? next_at (heap s) first)).
  assert ((if rolled_over s now then mret false else
    lift (first ← deref (head (m_timers s)); Ret (now <? next_at (heap s) first))) s0
    = (Ret early, s0)) as Eearly.
  { unfold early. destruct (rolled_over s now); [done|]. by rewrite El. }
  st_run exact Eearly. destruct early eqn:Ee.
  - assert (due s now = []) as ->.
    { unfold early in Ee. unfold due.
      destruct (rolled_over s now); [done|]. simpl in Ee. apply Z.ltb_lt in Ee.
      apply list_filter_none, Forall_forall. intros q Hq. rewrite El in Hq, Hs.
      pose proof (sorted_head_le _ _ _ _ Hs Hq). lia. }
    exists s0. split_and!; try done. intros q. cbn [m_timers s0]. set_solver.
  - unfold expired_split. change (heap s0) with (heap s). change (m_timers s0) with (m_timers s).
    fold (expired_split s now_timer now (rolled_over s now)).
    rewrite expired_split_spec by done. st_run reflexivity. unfold set_timers.
    cbn [m_tickled m_previousTime heap fronts s0].
    set (s1 := mk _ _ _ _ _).
    destruct (fire_loop_ok now (due s now) s1) as (s' & E & Ho & (F1 & F2 & F3) & Hmem & Hheap).
    { by apply due_NoDup. }
    { intros p Hp. cbn [m_timers heap s1]. rewrite list_elem_of_filter.
      split; [tauto|]. by apply Hh, (due_In s now). }
    { cbn [m_timers heap s1]. by apply ordered_filter. }
    exists s'. cbn [m_timers heap s1 m_previousTime m_tickled fronts] in *.
    split_and!; try done. intros q. rewrite Hmem, list_elem_of_filter.
    pose proof (due_In s now q). destruct (decide (q ∈ due s now)); tauto.
Qed.

Lemma listExpiredCb_locked_inv s now_timer now :
  inv s → heap s !! now_timer = None → m_timers s ≠ [] →
  ∃ s', listExpiredCb_locked now_timer now s = (Ret (callbacks (heap s) (due s now)), s')
    ∧ inv s'
    ∧ (∀ q, q ∈ m_timers s' ↔
         q ∈ m_timers s ∧ (q ∉ due s now ∨ recurring (heap s) q = true))
    ∧ (∀ q, heap s' !! q =
         if decide (q ∈ due s now) then fired now <$> heap s !! q else heap s !! q).
Proof.
  intros Hinv Hnew Hne.
  destruct (listExpiredCb_locked_ok s now_timer now) as (s' & E & Ho & Hmem & Hheap & _); [done..|].
  exists s'. split_and!; try done. destruct Hinv as [Hs Hh Hc Hn]. split.
  - done.
  - intros p [Hp _]%Hmem. rewrite Hheap. case_decide; [|by apply Hh].
    by apply fmap_is_Some, Hh.
  - intros p tm. rewrite Hheap, Hmem. case_decide as Hd.
    + intros (tm0 & E0 & ->)%fmap_Some Hcb. split; [by eapply due_In|]. right.
      unfold recurring. rewrite E0. simpl. unfold fired in Hcb.
      by destruct (m_recurring tm0).
    + intros E0 Hcb. split; [by eapply Hc|by left].
  - intros p tm. rewrite Hheap. case_decide; [|apply Hn].
    intros (tm0 & E0 & ->)%fmap_Some. unfold fired.
    destruct (m_recurring tm0); [by apply uwrap_fits|by apply (Hn p tm0)].
Qed.

Lemma listExpiredCb_ok s now_timer now cbs :
  inv s → heap s !! now_timer = None →
  ∃ s', listExpiredCb now_timer now cbs s
      = (Ret (cbs ++ callbacks (heap s) (due s now)), s')
    ∧ inv s'
    ∧ (∀ q, q ∈ m_timers s' ↔
         q ∈ m_timers s ∧ (q ∉ due s now ∨ recurring (heap s) q = true))
    ∧ (∀ q, heap s' !! q =
         if decide (q ∈ due s now) then fired now <$> heap s !! q else heap s !! q).
Proof.
  intros Hinv Hnew. unfold listExpiredCb. st_run reflexivity.
  destruct (listExpiredCb_check s) eqn:Ec; unfold listExpiredCb_check, hasTimer in Ec.
  - destruct (listExpiredCb_locked_inv s now_timer now) as (s' & E & Hrest);
      [done|done|by destruct (m_timers s)|].
    exists s'. by st_run exact E.
  - destruct (m_timers s) eqn:El; [|done].
    assert (due s now = []) as -> by (unfold due; rewrite El; by destruct (rolled_over s now)).
    exists s. rewrite app_nil_r. split_and!; try done. intros q. rewrite El. set_solver.
Qed.

(** The second half on an empty set: after a rollover there is nothing to do, otherwise
    [*m_timers.begin()] is undefined. *)
Lemma listExpiredCb_locked_empty s now_timer now :
  inv s → m_timers s = [] →
  if rolled_over s now
  then listExpiredCb_locked now_timer now s = (Ret [], set_previousTime now s) ∧ inv (set_previousTime now s)
  else (listExpiredCb_locked now_timer now s).1 = Undef.
Proof.
  intros [Hs Hh Hc Hn] El. unfold listExpiredCb_locked, detectClockRollover. change (60 * 60 * 1000) with 3600000.
  destruct (rolled_over s now) eqn:Er.
  - split; [|by split]. st_run (unfold mbind, st_bind; reflexivity). fold (rolled_over s now). rewrite Er.
    do 2 st_run reflexivity. unfold expired_split. cbn [m_timers set_previousTime]. rewrite El.
    st_run reflexivity. unfold set_timers, set_previousTime. cbn. by rewrite El.
  - st_run (unfold mbind, st_bind; reflexivity). fold (rolled_over s now). rewrite Er.
    st_run reflexivity. cbn [m_timers set_previousTime]. by rewrite El.
Qed.

Lemma getNextTimer_ok s now :
  inv s → fits_u 64 now →
  ∃ r, getNextTimer now s = (Ret r, set_tickled false s)
    ∧ match m_timers s with
      | [] => r = 2 ^ 64 - 1
      | p :: _ => r = Z.max 0 (next_at (heap s) p - now)
                  ∧ ∀ q, q ∈ m_timers s → next_at (heap s) p <= next_at (heap s) q
      end.
Proof.
  intros Hinv Hnow. pose proof Hinv as [Hs Hh Hc Hn].
  unfold getNextTimer. do 2 st_run reflexivity. cbn [m_timers set_tickled heap].
  destruct (m_timers s) as [|p l] eqn:El; [by eexists|].
  eexists. split; [reflexivity|]. split.
  - destruct (Z.leb_spec (next_at (heap s) p) now); [lia|].
    destruct (Hh p) as [tm Htm]; [set_solver|].
    pose proof (Hn p tm Htm). unfold next_at in *. rewrite Htm in *. unfold fits_u in *.
    rewrite uwrap_small by (unfold fits_u; lia). lia.
  - intros q Hq. by eapply sorted_head_le.
Qed.

Lemma inv_set_tickled v s : inv s → inv (set_tickled v s).
Proof. intros [Hs Hh Hc Hn]. by split. Qed.

Lemma make_inv now : inv (make now).
Proof. split; simpl; [constructor|set_solver|done|done]. Qed.

Lemma run_ok s o : inv s → valid s o → ∃ s', run o s = (Ret tt, s') ∧ inv s'.
Proof.
  intros Hinv Hv. destruct o; cbn [valid run] in *.
  - destruct (addTimer_ok s now p ms cb recurring0 Hinv Hv) as (s' & E & ? & _).
    exists s'. by st_run exact E.
  - destruct Hv as [tm Htm]. destruct (cancel_ok s p tm Hinv Htm) as [E Hi].
    exists (cancel p s).2. split; [|done]. rewrite E in *. unfold mbind, st_bind. rewrite E.
    by destruct (m_cb tm).
  - destruct Hv as [tm Htm]. pose proof (refresh_ok s now p tm Hinv Htm) as H.
    destruct (m_cb tm); [destruct H as (s' & E & ? & _)|]; eexists; by st_run eassumption.
  - destruct Hv as [tm Htm]. pose proof (reset_ok s now p ms from_now tm Hinv Htm) as H.
    destruct (_ && _); [eexists; by st_run eassumption|].
    destruct (m_cb tm); [destruct H as (s' & E & ? & _)|]; eexists; by st_run eassumption.
  - destruct (getNextTimer_ok s now Hinv Hv) as (r & E & _).
    eexists. st_run exact E. split; [done|]. by apply inv_set_tickled.
  - destruct Hv as [Hnew _].
    destruct (listExpiredCb_ok s now_timer now [] Hinv Hnew) as (s' & E & ? & _).
    exists s'. by st_run exact E.
Qed.
End contract.
