(* ===== verification/TimersProps.v ===== *)
(** * What the timers guarantee

    The contract of [TimerManager], and concrete instances of it. *)

From S2P Require Import Prelude StdOrdered Timers TimersSpec.
Import TimerManager.

Section contract.
Context {Cb : Type}.
Implicit Types (s : t Cb).

(** Every reachable state satisfies the invariant. *)
Lemma step_inv now s : rtc (step (Cb:=Cb)) (make now) s → inv s.
Proof.
  intros Hr. remember (make now) as s0 eqn:E.
  assert (inv s0) as H0 by (rewrite E; apply make_inv). clear E.
  induction Hr as [|s0 s1 s2 (o & Hv & Ho) _ IH]; [done|].
  apply IH. destruct (run_ok s0 o H0 Hv) as (s' & E & Hi). rewrite E in Ho. by simplify_eq.
Qed.

(** Threads in any order: whole operations, [reset] from its lock on, and [listExpiredCb] as its
    two halves. The list holds the clocks of the calls of [listExpiredCb] that are between their
    halves. *)
Inductive turn : t Cb * list Z → t Cb * list Z → Prop :=
| turn_op s ps o s' :
    valid s o → run o s = (Ret tt, s') → turn (s, ps) (s', ps)
| turn_reset s ps now p ms from_now b s' :
    is_Some (heap s !! p) → reset_locked now p ms from_now s = (Ret b, s') → turn (s, ps) (s', ps)
| turn_check s ps now :
    listExpiredCb_check s = true → turn (s, ps) (s, now :: ps)
| turn_fire s l1 now l2 now_timer cbs s' :
    heap s !! now_timer = None → listExpiredCb_locked now_timer now s = (Ret cbs, s') →
    turn (s, l1 ++ now :: l2) (s', l1 ++ l2).

Lemma reset_locked_safe s now p ms from_now :
  inv s → is_Some (heap s !! p) → ∃ b s', reset_locked now p ms from_now s = (Ret b, s') ∧ inv s'.
Proof.
  intros Hinv [tm Htm]. pose proof (reset_locked_ok s now p ms from_now tm Hinv Htm) as Hr.
  destruct (m_cb tm); [destruct Hr as (s' & E & Hi & _)|]; eauto.
Qed.

(** The second half of [listExpiredCb] in any state. *)
Lemma second_half s now_timer now :
  inv s → heap s !! now_timer = None →
  if bool_decide (m_timers s = []) && negb (rolled_over s now)
  then (listExpiredCb_locked now_timer now s).1 = Undef
  else ∃ cbs s', listExpiredCb_locked now_timer now s = (Ret cbs, s') ∧ inv s'.
Proof.
  intros Hinv Hnew. case_bool_decide as El; cbn [andb].
  - pose proof (listExpiredCb_locked_empty s now_timer now Hinv El) as He.
    destruct (rolled_over s now); cbn [negb]; [destruct He; eauto|done].
  - destruct (listExpiredCb_locked_inv s now_timer now Hinv Hnew El) as (s' & E & Hi & _). eauto.
Qed.

Lemma turn_inv x y : turn x y → inv x.1 → inv y.1.
Proof.
  intros Ht Hinv. destruct Ht as [s ps o s' Hv E|s ps now p ms fr b s' Hp E|s ps now _|s l1 now l2 nt cbs s' Hn E];
    cbn [fst] in *.
  - destruct (run_ok s o Hinv Hv) as (s1 & E1 & Hi). rewrite E in E1. by simplify_eq.
  - destruct (reset_locked_safe s now p ms fr Hinv Hp) as (b1 & s1 & E1 & Hi). rewrite E in E1. by simplify_eq.
  - done.
  - pose proof (second_half s nt now Hinv Hn) as Hs. rewrite E in Hs.
    destruct (_ && _); [done|]. destruct Hs as (? & s1 & E1 & Hi). by simplify_eq.
Qed.

(** C4. Whatever timers are added, cancelled, refreshed, reset, polled and fired, at any times and
    by threads that interleave wherever they do not hold the lock: the set stays sorted, contains
    only live timers, and contains every timer that still has its callback, and every operation
    that is started returns without dereferencing or erasing [end()], with one exception. A call
    of [listExpiredCb] that has dropped its lock after it saw a timer goes on, in whatever state
    it finds then; it evaluates [*m_timers.begin()] on an empty set exactly when all timers
    are gone meanwhile and the clock did not roll over, and returns otherwise. *)
Theorem timers_always_safe start s ps :
  rtc turn (make start, []) (s, ps) →
  inv s
  ∧ (∀ o, valid s o → ∃ s', run o s = (Ret tt, s') ∧ inv s')
  ∧ (∀ now p ms from_now, is_Some (heap s !! p) →
       ∃ b s', reset_locked now p ms from_now s = (Ret b, s') ∧ inv s')
  ∧ (∀ now now_timer, now ∈ ps → heap s !! now_timer = None →
       if bool_decide (m_timers s = []) && negb (rolled_over s now)
       then (listExpiredCb_locked now_timer now s).1 = Undef
       else ∃ cbs s', listExpiredCb_locked now_timer now s = (Ret cbs, s') ∧ inv s').
Proof.
  intros Hr. assert (inv s) as Hinv.
  { remember (make start, []) as x eqn:Ex. remember (s, ps) as y eqn:Ey.
    assert (inv x.1) as H0 by (rewrite Ex; apply make_inv). clear Ex.
    change s with (s, ps).1. rewrite <- Ey. clear Ey.
    induction Hr as [|x y z Ht _ IH]; [done|]. by apply IH, (turn_inv x). }
  split_and!; [done| | |].
  - intros o. by apply run_ok.
  - intros now p ms fr. by apply reset_locked_safe.
  - intros now nt _. by apply second_half.
Qed.

(** C11. [listExpiredCb] hands out the callbacks of exactly the timers whose time has come (all
    of them after the clock went back more than an hour), earliest first; one-shot timers
    lose their callback and leave the set, recurring ones are re-armed one period from now,
    and nothing else changes. *)
Theorem listExpiredCb_fires_due s now_timer now cbs :
  inv s → heap s !! now_timer = None →
  ∃ s', listExpiredCb now_timer now cbs s
      = (Ret (cbs ++ callbacks (heap s) (due s now)), s')
    ∧ inv s'
    ∧ (∀ q, q ∈ m_timers s' ↔
         q ∈ m_timers s ∧ (q ∉ due s now ∨ recurring (heap s) q = true))
    ∧ (∀ q, heap s' !! q =
         if decide (q ∈ due s now) then fired now <$> heap s !! q else heap s !! q).
Proof. apply listExpiredCb_ok. Qed.

(** [getNextTimer] is the time until the earliest timer, 0 when it is overdue and [~0ull]
    when there is none; it changes nothing but the tickle flag. *)
Theorem getNextTimer_earliest s now :
  inv s → fits_u 64 now →
  ∃ r, getNextTimer now s = (Ret r, set_tickled false s)
    ∧ (m_timers s = [] → r = 2 ^ 64 - 1)
    ∧ (∀ q, q ∈ m_timers s → r <= Z.max 0 (next_at (heap s) q - now))
    ∧ (m_timers s ≠ [] → ∃ q, q ∈ m_timers s ∧ r = Z.max 0 (next_at (heap s) q - now)).
Proof.
  intros Hinv Hnow. destruct (getNextTimer_ok s now Hinv Hnow) as (r & E & Hr).
  exists r. split; [done|]. destruct (m_timers s) as [|p l]; [set_solver|].
  destruct Hr as [-> Hle]. split_and!; [done| |].
  - intros q Hq. specialize (Hle q Hq). lia.
  - intros _. exists p. split; [set_solver|done].
Qed.

(** [addTimer] arms the timer [ms] from now and wakes the manager exactly when the new timer
    became the earliest and no wake-up is already pending. *)
Theorem addTimer_notifies_new_front s now p ms cb rec :
  inv s → heap s !! p = None →
  ∃ s', addTimer now p ms cb rec s = (Ret p, s') ∧ inv s'
    ∧ heap s' = <[p := newTimer now ms cb rec]> (heap s)
    ∧ m_timers s' ≡ₚ p :: m_timers s
    ∧ (fronts s' = S (fronts s) ↔
         m_tickled s = false ∧ ∀ q, q ∈ m_timers s → before (next_at (heap s')) p q = true)
    ∧ (fronts s' = S (fronts s) ∨ fronts s' = fronts s).
Proof.
  intros Hinv Hp.
  destruct (addTimer_ok s now p ms cb rec Hinv Hp) as (s' & E & Hinv' & Eh & Hl & _ & Hf).
  exists s'. split_and!; try done.
  2: { rewrite Hf. destruct (_ && _); [left|right]; lia. }
  assert (at_head s' p = true ↔ ∀ q, q ∈ m_timers s → before (next_at (heap s')) p q = true)
    as Hhead.
  { assert (p ∉ m_timers s) as Hni.
    { intros Hq. destruct (inv_heap _ Hinv _ Hq). congruence. }
    unfold at_head. rewrite bool_decide_eq_true. pose proof (inv_sorted _ Hinv') as Hs.
    unfold lt in Hs. destruct (m_timers s') as [|q l] eqn:El; [by apply Permutation_nil_cons in Hl|].
    apply sorted_by_cons in Hs as [_ Hs]. rewrite Forall_forall in Hs. split.
    - intros [= ->] q' Hq. apply Hs. apply Permutation_cons_inv in Hl. by rewrite Hl.
    - intros H. destruct (decide (q = p)) as [->|Hqp]; [done|]. exfalso.
      assert (q ∈ q :: l) as Hq by (by left). rewrite Hl in Hq.
      assert (p ∈ q :: l) as Hpl by (rewrite Hl; by left).
      apply elem_of_cons in Hq as [|Hq], Hpl as [|Hpl]; try congruence.
      pose proof (H q Hq). rewrite (swo_asym (before _) _ _ (Hs p Hpl)) in H0. done. }
  rewrite <- Hhead, Hf. destruct (at_head s' p), (m_tickled s); simpl; intuition (lia || done).
Qed.

(** A timer without its callback (cancelled, or fired once) is dead: [cancel] and [refresh]
    return false and change nothing.  Otherwise [cancel] takes it out of the set,
    [refresh] re-arms it one period from now, and [reset] re-arms it with the new period,
    counting from now or from when the old period began; these return true and leave the
    other timers alone. *)
Theorem timer_member_functions s now p ms from_now tm :
  inv s → heap s !! p = Some tm →
  match m_cb tm with
  | None =>
      cancel p s = (Ret false, s) ∧ refresh now p s = (Ret false, s)
      ∧ (reset now p ms from_now s).2 = s
  | Some _ =>
      (∃ s', cancel p s = (Ret true, s') ∧ inv s' ∧ heap s' = alter (set_cb None) p (heap s)
        ∧ ∀ q, q ∈ m_timers s' ↔ q ∈ m_timers s ∧ q ≠ p)
      ∧ (∃ s', refresh now p s = (Ret true, s') ∧ inv s'
        ∧ heap s' = alter (set_next (u64 (now + m_ms tm))) p (heap s)
        ∧ m_timers s' ≡ₚ m_timers s)
      ∧ (∃ s', reset now p ms from_now s = (Ret true, s') ∧ inv s'
        ∧ m_timers s' ≡ₚ m_timers s
        ∧ heap s' = if (ms =? m_ms tm) && negb from_now then heap s
            else alter (fun tm => set_next
              (u64 ((if from_now then now else u64 (m_next tm - m_ms tm)) + ms)) (set_ms ms tm))
              p (heap s))
  end.
Proof.
  intros Hinv Htm. destruct (cancel_ok s p tm Hinv Htm) as [Ec Hci].
  pose proof (refresh_ok s now p tm Hinv Htm) as Hr.
  pose proof (reset_ok s now p ms from_now tm Hinv Htm) as Hs.
  destruct (m_cb tm) as [cb|] eqn:Ecb.
  - split_and!.
    + eexists. rewrite Ec in *. split; [done|]. split; [done|]. split; [done|].
      intros q. cbn [m_timers set_timers]. apply elem_of_erase; [by apply Hinv|].
      eapply (inv_cb _ Hinv); [done|congruence].
    + done.
    + destruct (_ && _); [by exists s|]. naive_solver.
  - split_and!; [done|done|]. destruct (_ && _); by rewrite Hs.
Qed.

(** [detectClockRollover] remembers the time it is given, and reports a rollover exactly when
    the clock went back by more than an hour, or by anything at all while the last reading
    was within the first hour of the epoch (the subtraction wraps around). *)
Theorem detectClockRollover_exact s now :
  fits_u 64 now → fits_u 64 (m_previousTime s) →
  ∃ r, detectClockRollover now s = (Ret r, set_previousTime now s)
    ∧ (r = true ↔ now < m_previousTime s
                  ∧ (now < m_previousTime s - 3600000 ∨ m_previousTime s < 3600000)).
Proof.
  intros Hn Hp. unfold detectClockRollover. eexists.
  split; [do 2 st_run reflexivity; reflexivity|]. change (60 * 60 * 1000) with 3600000.
  rewrite andb_true_iff, !Z.ltb_lt. unfold fits_u in *.
  destruct (Z.leb_spec 3600000 (m_previousTime s)).
  - rewrite uwrap_small by (unfold fits_u; lia). lia.
  - assert (u64 (m_previousTime s - 3600000) = m_previousTime s - 3600000 + 2 ^ 64) as ->.
    { symmetry. apply Z.mod_unique with (-1); lia. }
    lia.
Qed.

(** [listExpiredCb] drops its lock between the emptiness test and the access: when the only
    timer is cancelled in between, [*m_timers.begin()] is evaluated on an empty set. *)
Theorem listExpiredCb_cancel_race s p tm cb now_timer now :
  inv s → m_timers s = [p] → heap s !! p = Some tm → m_cb tm = Some cb →
  rolled_over s now = false →
  listExpiredCb_check s = true
  ∧ ∃ s', cancel p s = (Ret true, s') ∧ (listExpiredCb_locked now_timer now s').1 = Undef.
Proof.
  intros Hinv Hl Htm Hcb Hro. split; [by unfold listExpiredCb_check, hasTimer; rewrite Hl|].
  destruct (cancel_ok s p tm Hinv Htm) as [Ec _]. rewrite Hcb in Ec.
  eexists. split; [exact Ec|]. rewrite Hl. simpl.
  assert (equivb (lt s) p p = true) as -> by (unfold lt; by apply before_equivb).
  unfold listExpiredCb_locked, detectClockRollover.
  st_run (unfold mbind, st_bind; reflexivity). st_run reflexivity.
  cbn [m_previousTime set_timers set_heap]. change (60 * 60 * 1000) with 3600000.
  fold (rolled_over s now). by rewrite Hro.
Qed.
End contract.

(** ** Concrete instances *)

(** A one-shot timer at address 10 due at 105, a recurring one at 20 due at 103. *)
Definition two_timers : t nat :=
  (addTimer 100 20 3 (Some 2%nat) true (addTimer 100 10 5 (Some 1%nat) false (make 100)).2).2.

Lemma two_timers_reachable : rtc step (make 100) two_timers.
Proof.
  eapply rtc_l; [exists (AddTimer 100 10 5 (Some 1%nat) false); split; reflexivity|].
  eapply rtc_l; [exists (AddTimer 100 20 3 (Some 2%nat) true); split; reflexivity|].
  reflexivity.
Qed.

Lemma two_timers_inv : inv two_timers.
Proof. apply (step_inv 100), two_timers_reachable. Qed.

(** Both timers are cancelled while a call of [listExpiredCb] is between its halves; a third
    timer, added before it goes on, saves it. *)
Definition two_cancelled : t nat := (cancel 20 (cancel 10 two_timers).2).2.
Definition third_added : t nat := (addTimer 104 30 5 (Some 3%nat) false two_cancelled).2.

Lemma two_cancelled_turns : rtc turn (make 100, []) (two_cancelled, [104]).
Proof.
  eapply rtc_l; [apply (turn_op _ _ (AddTimer 100 10 5 (Some 1%nat) false)); reflexivity|].
  eapply rtc_l; [apply (turn_op _ _ (AddTimer 100 20 3 (Some 2%nat) true)); reflexivity|].
  eapply rtc_l; [apply (turn_check _ _ 104); reflexivity|].
  eapply rtc_l; [apply (turn_op _ _ (Cancel 10)); [by eexists|reflexivity]|].
  eapply rtc_l; [apply (turn_op _ _ (Cancel 20)); [by eexists|reflexivity]|]. reflexivity.
Qed.

Lemma timers_always_safe_witness :
  (listExpiredCb_locked 99 104 two_cancelled).1 = Undef
  ∧ ∃ cbs s', listExpiredCb_locked 99 104 third_added = (Ret cbs, s') ∧ inv s'.
Proof.
  split.
  - destruct (timers_always_safe 100 two_cancelled [104] two_cancelled_turns) as (_ & _ & _ & H).
    apply (H 104 99); [by left|reflexivity].
  - destruct (timers_always_safe 100 third_added [104]) as (_ & _ & _ & H).
    + eapply rtc_r; [exact two_cancelled_turns|].
      apply (turn_op _ _ (AddTimer 104 30 5 (Some 3%nat) false)); reflexivity.
    + apply (H 104 99); [by left|reflexivity].
Defined.

Lemma listExpiredCb_fires_due_witness :
  due two_timers 104 = [20] ∧
  ∃ s', listExpiredCb 99 104 [] two_timers = (Ret [Some 2%nat], s')
    ∧ (∀ q, q ∈ m_timers s' ↔
         q ∈ [20; 10] ∧ (q ∉ [20] ∨ recurring (heap two_timers) q = true)).
Proof.
  split; [reflexivity|].
  destruct (listExpiredCb_fires_due two_timers 99 104 [] two_timers_inv eq_refl)
    as (s' & E & _ & H & _). by exists s'.
Defined.

Lemma getNextTimer_earliest_witness :
  ∃ r, getNextTimer 101 two_timers = (Ret r, set_tickled false two_timers)
    ∧ (∀ q, q ∈ m_timers two_timers →
         r <= Z.max 0 (next_at (heap two_timers) q - 101)).
Proof.
  destruct (getNextTimer_earliest two_timers 101 two_timers_inv) as (r & E & _ & H & _);
    [done|by exists r].
Defined.

Lemma addTimer_notifies_witness :
  ∃ s', addTimer 100 30 1 (Some 3%nat) false two_timers = (Ret 30, s')
    ∧ m_timers s' ≡ₚ [30; 20; 10].
Proof.
  destruct (addTimer_notifies_new_front two_timers 100 30 1 (Some 3%nat) false two_timers_inv
    eq_refl) as (s' & E & _ & _ & H & _). by exists s'.
Defined.

Lemma timer_member_functions_witness :
  ∃ s', cancel 20 two_timers = (Ret true, s') ∧ inv s'
    ∧ heap s' = alter (set_cb None) 20 (heap two_timers)
    ∧ ∀ q, q ∈ m_timers s' ↔ q ∈ m_timers two_timers ∧ q ≠ 20.
Proof.
  apply (timer_member_functions two_timers 100 20 1 true (newTimer 100 3 (Some 2%nat) true)
    two_timers_inv eq_refl).
Defined.

Lemma detectClockRollover_exact_witness :
  ∃ r, detectClockRollover 50 two_timers = (Ret r, set_previousTime 50 two_timers)
    ∧ (r = true ↔ 50 < 100 ∧ (50 < 100 - 3600000 ∨ 100 < 3600000)).
Proof. by apply (detectClockRollover_exact two_timers 50). Defined.

(** The only timer, cancelled by another thread between the two halves. *)
Definition one_timer : t nat := (addTimer 100 10 5 (Some 1%nat) false (make 100)).2.

Lemma one_timer_inv : inv one_timer.
Proof.
  apply (step_inv 100).
  eapply rtc_l; [exists (AddTimer 100 10 5 (Some 1%nat) false); split; reflexivity|reflexivity].
Qed.

Lemma listExpiredCb_cancel_race_witness :
  listExpiredCb_check one_timer = true
  ∧ ∃ s', cancel 10 one_timer = (Ret true, s') ∧ (listExpiredCb_locked 99 200 s').1 = Undef.
Proof.
  apply (listExpiredCb_cancel_race one_timer 10 (newTimer 100 5 (Some 1%nat) false) 1%nat 99 200
    one_timer_inv); reflexivity.
Defined.
