(* ===== verification/CString.v ===== *)
(** * Character data: what the C and C++ libraries do with it

    Zero-terminated strings, case-insensitive comparison, searching, and the number formats of
    the output streams, shared by the components that read and write text. *)

From stdpp Require Import pretty.
From S2P Require Import Prelude.

(** [s.c_str()] as the C functions see it. *)
Fixpoint c_str (s : list byte) : list byte :=
  match s with [] => [] | c :: s' => if Byte.eqb c x00 then [] else c :: c_str s' end.

(** [tolower] of the C locale, as a number. *)
Definition tolower (c : byte) : Z :=
  let z := byte_to_Z c in if (65 <=? z) && (z <=? 90) then z + 32 else z.

Fixpoint compare_lower (l r : list byte) : comparison :=
  match l, r with
  | [], [] => Eq
  | [], _ :: _ => Lt
  | _ :: _, [] => Gt
  | a :: l', b :: r' =>
      match tolower a ?= tolower b with Eq => compare_lower l' r' | c => c end
  end.
Definition strcasecmp (l r : list byte) : comparison := compare_lower (c_str l) (c_str r).

(** [strcasestr(haystack, needle) != nullptr]. *)
Fixpoint prefix_lower (p s : list byte) : bool :=
  match p, s with
  | [], _ => true
  | _ :: _, [] => false
  | a :: p', b :: s' => (tolower a =? tolower b) && prefix_lower p' s'
  end.
Fixpoint infix_lower (needle s : list byte) : bool :=
  prefix_lower needle s || match s with [] => false | _ :: s' => infix_lower needle s' end.
Definition strcasestr (haystack needle : list byte) : bool := infix_lower needle (c_str haystack).

(** [s.find(c, pos)]. *)
Fixpoint index_of (c : byte) (s : list byte) : option nat :=
  match s with [] => None | d :: s' => if Byte.eqb c d then Some 0%nat else S <$> index_of c s' end.
Definition str_find (s : list byte) (c : byte) (pos : nat) : option nat :=
  Nat.add pos <$> index_of c (drop pos s).

(** Decimal and hexadecimal output of an unsigned number. *)
Definition dec (n : Z) : list byte := lit (pretty (Z.to_N n)).
Definition hex_digit (d : Z) : byte := byte_of_Z (if d <? 10 then d + 48 else d + 87).
Fixpoint hex_loop (fuel : nat) (n : Z) (acc : list byte) : list byte :=
  match fuel with
  | O => acc
  | S fuel => let acc := hex_digit (n mod 16) :: acc in if n / 16 =? 0 then acc else hex_loop fuel (n / 16) acc
  end.
Definition hex (n : Z) : list byte := hex_loop 16 n [].

(** [*p] of a [const char*]: a signed character. *)
Definition char_of (b : byte) : Z := s8 (byte_to_Z b).

(** [strtol(s, NULL, base)]: white space, a sign, [0x] when the base is 16, and the digits up to
    the first other character; the value is limited to a [long]. The argument is the memory from
    the pointer on; the terminating zero is not a digit. *)
Definition isspace (c : byte) : bool :=
  let z := byte_to_Z c in (z =? 32) || ((9 <=? z) && (z <=? 13)).
Definition digit_val (c : byte) : Z :=
  let z := byte_to_Z c in
  if (48 <=? z) && (z <=? 57) then z - 48
  else if (65 <=? z) && (z <=? 90) then z - 55
  else if (97 <=? z) && (z <=? 122) then z - 87 else 36.
Fixpoint digits_loop (base acc : Z) (s : list byte) : Z :=
  match s with
  | c :: s => if digit_val c <? base then digits_loop base (acc * base + digit_val c) s else acc
  | [] => acc
  end.
Fixpoint skip_space (s : list byte) : list byte :=
  match s with c :: s' => if isspace c then skip_space s' else s | [] => [] end.
Definition strip_0x (s : list byte) : list byte :=
  match s with
  | x30 :: (x78 | x58) :: s' => s'
  | _ => s
  end.
Definition strtol (s : list byte) (base : Z) : Z :=
  let s := skip_space s in
  let '(sign, s) := match s with x2d :: s => (-1, s) | x2b :: s => (1, s) | _ => (1, s) end in
  let s := if base =? 16 then strip_0x s else s in
  Z.max (- 2 ^ 63) (Z.min (2 ^ 63 - 1) (sign * digits_loop base 0 s)).
(** [atoi]: the low 32 bits of [strtol], as the C library has it. *)
Definition atoi (s : list byte) : Z := s32 (strtol s 10).

(** ** Searching *)

Lemma eqb_refl c : Byte.eqb c c = true.
Proof. by apply Byte.byte_dec_lb. Qed.

Lemma eqb_neq c d : c ≠ d → Byte.eqb c d = false.
Proof. intros H. apply not_true_iff_false. intros E%Byte.byte_dec_bl. done. Qed.

Lemma index_of_app c x y : c ∉ x → index_of c (x ++ c :: y) = Some (length x).
Proof.
  induction x as [|d x IH]; simpl; intros H; [by rewrite eqb_refl|].
  rewrite eqb_neq, IH by set_solver. done.
Qed.

Lemma index_of_None c x : c ∉ x → index_of c x = None.
Proof.
  induction x as [|d x IH]; simpl; intros H; [done|]. by rewrite eqb_neq, IH by set_solver.
Qed.

Lemma index_of_lt c x i : index_of c x = Some i → (i < length x)%nat ∧ x !! i = Some c.
Proof.
  revert i. induction x as [|d x IH]; simpl; intros i H; [done|].
  destruct (Byte.eqb c d) eqn:E.
  - simplify_eq. apply Byte.byte_dec_bl in E as ->. simpl. split; [lia|done].
  - destruct (index_of c x) as [j|]; simplify_eq/=. destruct (IH j eq_refl). split; [lia|done].
Qed.

Lemma str_find_lt s c pos i :
  str_find s c pos = Some i → (pos <= i < length s)%nat ∧ s !! i = Some c.
Proof.
  unfold str_find. intros (j & Hj & ->)%fmap_Some. apply index_of_lt in Hj as [Hl Hj].
  rewrite length_drop in Hl. rewrite lookup_drop in Hj. split; [lia|done].
Qed.

Lemma str_find_app pre x c y :
  c ∉ x → str_find (pre ++ x ++ c :: y) c (length pre) = Some (length pre + length x)%nat.
Proof. intros. unfold str_find. by rewrite drop_app_length, index_of_app. Qed.

Lemma str_find_None pre x c : c ∉ x → str_find (pre ++ x) c (length pre) = None.
Proof. intros. unfold str_find. by rewrite drop_app_length, index_of_None. Qed.

Lemma c_str_app s rest : x00 ∉ s → c_str (s ++ rest) = s ++ c_str rest.
Proof.
  induction s as [|c s IH]; simpl; intros H; [done|].
  rewrite eqb_neq, IH by set_solver. done.
Qed.

(** ** Decimal numbers *)

Definition is_digit (c : byte) : bool := (48 <=? byte_to_Z c) && (byte_to_Z c <=? 57).

(** The number a list of digits denotes. *)
Fixpoint dec_value (s : list byte) : Z :=
  match s with [] => 0 | c :: s => (byte_to_Z c - 48) * 10 ^ Z.of_nat (length s) + dec_value s end.

Lemma pretty_digit (d : N) (s : String.string) :
  (d < 10)%N → ∃ c, lit (String.String (pretty_N_char d) s) = c :: lit s
    ∧ is_digit c = true ∧ byte_to_Z c = Z.of_N d + 48.
Proof.
  intros Hd. eexists. split; [reflexivity|].
  assert (d = 0 ∨ d = 1 ∨ d = 2 ∨ d = 3 ∨ d = 4 ∨ d = 5 ∨ d = 6 ∨ d = 7 ∨ d = 8 ∨ d = 9)%N as H by lia.
  by repeat destruct H as [-> | H]; subst.
Qed.

Lemma pretty_N_go_digits x : ∀ s,
  forallb is_digit (lit s) = true →
  forallb is_digit (lit (pretty_N_go x s)) = true
  ∧ dec_value (lit (pretty_N_go x s)) = Z.of_N x * 10 ^ Z.of_nat (length (lit s)) + dec_value (lit s)
  ∧ (x ≠ 0%N → hd_error (lit (pretty_N_go x s)) ≠ None).
Proof.
  induction (N.lt_wf_0 x) as [x _ IH]. intros s Hs.
  destruct (decide (x = 0)%N) as [->|Hx]; [rewrite pretty_N_go_0; split; [done|split; [lia|done]]|].
  rewrite pretty_N_go_step by lia.
  destruct (pretty_digit (x mod 10) s) as (c & E & Hc & Hz); [apply N.mod_lt; lia|].
  assert (forallb is_digit (lit (String.String (pretty_N_char (x mod 10)) s)) = true) as Hs'.
  { rewrite E. simpl. by rewrite Hc. }
  destruct (IH (x `div` 10)%N ltac:(apply N.div_lt; lia) _ Hs') as (H1 & H2 & H3).
  split; [done|]. split.
  - rewrite H2, E. cbn [dec_value length]. rewrite Hz, Nat2Z.inj_succ, Z.pow_succ_r by lia.
    rewrite N2Z.inj_div, N2Z.inj_mod. pose proof (Z.div_mod (Z.of_N x) 10). nia.
  - intros _. destruct (decide (x `div` 10 = 0)%N) as [->|Hne]; [|by apply H3].
    by rewrite pretty_N_go_0, E.
Qed.

Lemma dec_ok n :
  0 <= n → forallb is_digit (dec n) = true ∧ dec_value (dec n) = n ∧ dec n ≠ [].
Proof.
  intros Hn. unfold dec, pretty, pretty_N. case_decide as Hz.
  { replace n with 0 by lia. done. }
  destruct (pretty_N_go_digits (Z.to_N n) String.EmptyString) as (H1 & H2 & H3); [done|].
  split; [done|]. split; [rewrite H2; simpl; lia|].
  intros E. specialize (H3 Hz). by rewrite E in H3.
Qed.

(** ** Reading digits *)

Lemma digit_read b :
  is_digit b = true → isspace b = false ∧ b ≠ x2d ∧ b ≠ x2b ∧ digit_val b = byte_to_Z b - 48.
Proof.
  intros Hd. pose proof Hd as H. unfold is_digit, isspace, digit_val in *. split_and!; try lia.
  - by intros ->.
  - by intros ->.
  - by rewrite H.
Qed.

(** What follows is not a digit. *)
Definition no_digit (rest : list byte) : Prop :=
  match rest with [] => True | b :: _ => 10 <= digit_val b end.

Lemma digits_loop_app acc ds rest :
  forallb is_digit ds = true → no_digit rest →
  digits_loop 10 acc (ds ++ rest) = acc * 10 ^ Z.of_nat (length ds) + dec_value ds.
Proof.
  intros H Hr. revert acc. induction ds as [|b ds IH]; intros acc; simpl.
  - rewrite Z.mul_1_r, Z.add_0_r. destruct rest as [|b rest]; simpl; [done|].
    by rewrite (proj2 (Z.ltb_ge _ _) Hr).
  - apply andb_true_iff in H as [Hb H]. pose proof (digit_read b Hb) as (_ & _ & _ & ->).
    unfold is_digit in Hb. rewrite (proj2 (Z.ltb_lt _ _)) by lia.
    rewrite IH, Nat2Z.inj_succ, Z.pow_succ_r by (done || lia). ring.
Qed.

Lemma atoi_digits ds rest :
  ds ≠ [] → forallb is_digit ds = true → no_digit rest →
  atoi (ds ++ rest) = s32 (Z.max (- 2 ^ 63) (Z.min (2 ^ 63 - 1) (dec_value ds))).
Proof.
  intros Hne Hds Hr. pose proof (digits_loop_app 0 ds rest Hds Hr) as E.
  destruct ds as [|b ds]; [done|]. apply andb_true_iff in Hds as [Hb _].
  apply digit_read in Hb as (Hsp & H1 & H2 & _).
  cbn [app] in *. unfold atoi, strtol.
  assert (skip_space (b :: ds ++ rest) = b :: ds ++ rest) as -> by (simpl; by rewrite Hsp).
  assert (match b :: ds ++ rest with x2d :: s => (-1, s) | x2b :: s => (1, s) | _ => (1, b :: ds ++ rest) end
    = (1, b :: ds ++ rest)) as -> by (by destruct b).
  change (10 =? 16) with false. cbv iota zeta beta. by rewrite E, Z.mul_1_l.
Qed.

Lemma atoi_dec n rest : 0 <= n < 2 ^ 31 → no_digit rest → atoi (dec n ++ rest) = n.
Proof.
  intros Hn Hr. destruct (dec_ok n) as (Hd & Hv & Hne); [lia|].
  rewrite atoi_digits, Hv, Z.min_r, Z.max_r by (done || lia).
  apply swrap_small; [lia|]. unfold fits_s. lia.
Qed.
