(* ===== verification/StringUtil.v ===== *)
(** * Strings (sylar/util.h, sylar/util.cpp)

    [StringUtil]'s percent-encoding and trimming, and the clock functions of the same file.
    Strings are byte lists; [std::string::substr] and the [find_*_not_of] searches are written
    out.  [isxdigit] is the one of the C locale. *)

From S2P Require Import Prelude.

Definition GetCurrentMS (tv_sec tv_usec : Z) : Z := u64 (tv_sec * 1000 + tv_usec / 1000).
Definition GetCurrentUS (tv_sec tv_usec : Z) : Z := u64 (tv_sec * 1000 * 1000 + tv_usec).

Module StringUtil.

(** ** std::string *)

(** [s.substr(pos, n)]. *)
Definition substr (s : list byte) (pos n : nat) : outcome (list byte) :=
  if decide (pos <= length s)%nat then Ret (s.[pos, n]) else Throw out_of_range.

(** [s.find_first_not_of(set)] and [s.find_last_not_of(set)]; [None] is [npos]. *)
Fixpoint find_first_not_of (s set : list byte) : option nat :=
  match s with
  | [] => None
  | c :: s' => if decide (c ∈ set) then S <$> find_first_not_of s' set else Some 0%nat
  end.
Fixpoint find_last_not_of (s set : list byte) : option nat :=
  match s with
  | [] => None
  | c :: s' =>
      match find_last_not_of s' set with
      | Some i => Some (S i)
      | None => if decide (c ∈ set) then None else Some 0%nat
      end
  end.

(** ** Percent-encoding *)

Definition uri_chars : list Z :=
  [0; 0; 0; 0; 0; 0; 0; 0; 0; 0; 0; 0; 0; 0; 0; 0;
   0; 0; 0; 0; 0; 0; 0; 0; 0; 0; 0; 0; 0; 0; 0; 0;
   0; 0; 0; 0; 0; 0; 0; 0; 0; 0; 0; 0; 0; 1; 1; 0;
   1; 1; 1; 1; 1; 1; 1; 1; 1; 1; 0; 0; 0; 1; 0; 0;
   0; 1; 1; 1; 1; 1; 1; 1; 1; 1; 1; 1; 1; 1; 1; 1;
   1; 1; 1; 1; 1; 1; 1; 1; 1; 1; 1; 0; 0; 0; 0; 1;
   0; 1; 1; 1; 1; 1; 1; 1; 1; 1; 1; 1; 1; 1; 1; 1;
   1; 1; 1; 1; 1; 1; 1; 1; 1; 1; 1; 0; 0; 0; 1; 0;
   0; 0; 0; 0; 0; 0; 0; 0; 0; 0; 0; 0; 0; 0; 0; 0;
   0; 0; 0; 0; 0; 0; 0; 0; 0; 0; 0; 0; 0; 0; 0; 0;
   0; 0; 0; 0; 0; 0; 0; 0; 0; 0; 0; 0; 0; 0; 0; 0;
   0; 0; 0; 0; 0; 0; 0; 0; 0; 0; 0; 0; 0; 0; 0; 0;
   0; 0; 0; 0; 0; 0; 0; 0; 0; 0; 0; 0; 0; 0; 0; 0;
   0; 0; 0; 0; 0; 0; 0; 0; 0; 0; 0; 0; 0; 0; 0; 0;
   0; 0; 0; 0; 0; 0; 0; 0; 0; 0; 0; 0; 0; 0; 0; 0;
   0; 0; 0; 0; 0; 0; 0; 0; 0; 0; 0; 0; 0; 0; 0; 0].

Definition xdigit_chars : list Z :=
  [0; 0; 0; 0; 0; 0; 0; 0; 0; 0; 0; 0; 0; 0; 0; 0;
   0; 0; 0; 0; 0; 0; 0; 0; 0; 0; 0; 0; 0; 0; 0; 0;
   0; 0; 0; 0; 0; 0; 0; 0; 0; 0; 0; 0; 0; 0; 0; 0;
   0; 1; 2; 3; 4; 5; 6; 7; 8; 9; 0; 0; 0; 0; 0; 0;
   0; 10; 11; 12; 13; 14; 15; 0; 0; 0; 0; 0; 0; 0; 0; 0;
   0; 0; 0; 0; 0; 0; 0; 0; 0; 0; 0; 0; 0; 0; 0; 0;
   0; 10; 11; 12; 13; 14; 15; 0; 0; 0; 0; 0; 0; 0; 0; 0;
   0; 0; 0; 0; 0; 0; 0; 0; 0; 0; 0; 0; 0; 0; 0; 0;
   0; 0; 0; 0; 0; 0; 0; 0; 0; 0; 0; 0; 0; 0; 0; 0;
   0; 0; 0; 0; 0; 0; 0; 0; 0; 0; 0; 0; 0; 0; 0; 0;
   0; 0; 0; 0; 0; 0; 0; 0; 0; 0; 0; 0; 0; 0; 0; 0;
   0; 0; 0; 0; 0; 0; 0; 0; 0; 0; 0; 0; 0; 0; 0; 0;
   0; 0; 0; 0; 0; 0; 0; 0; 0; 0; 0; 0; 0; 0; 0; 0;
   0; 0; 0; 0; 0; 0; 0; 0; 0; 0; 0; 0; 0; 0; 0; 0;
   0; 0; 0; 0; 0; 0; 0; 0; 0; 0; 0; 0; 0; 0; 0; 0;
   0; 0; 0; 0; 0; 0; 0; 0; 0; 0; 0; 0; 0; 0; 0; 0].

Definition CHAR_IS_UNRESERVED (c : byte) : bool :=
  negb (nth (Z.to_nat (byte_to_Z c)) uri_chars 0 =? 0).

Definition hexdigits : list byte := lit "0123456789ABCDEF".
Definition hexdigit (z : Z) : byte := nth (Z.to_nat z) hexdigits x00.

(** [for (c = str; c < end; ++c)] of [UrlEncode]: [i] is [c - str.c_str()], [rest] what is left
    from [c] on, [ss] the string allocated at the first character that must be escaped. *)
Fixpoint UrlEncode_loop (str : list byte) (space_as_plus : bool) (i : nat) (rest : list byte)
    (ss : option (list byte)) : option (list byte) :=
  match rest with
  | [] => ss
  | c :: rest' =>
      if negb (CHAR_IS_UNRESERVED c) then
        let s := default (take i str) ss in
        let s := if bool_decide (c = x20) && space_as_plus then s ++ [x2b]
                 else s ++ [x25; hexdigit (Z.shiftr (byte_to_Z c) 4);
                            hexdigit (Z.land (byte_to_Z c) 15)] in
        UrlEncode_loop str space_as_plus (S i) rest' (Some s)
      else UrlEncode_loop str space_as_plus (S i) rest' ((.++ [c]) <$> ss)
  end.

Definition UrlEncode (str : list byte) (space_as_plus : bool) : list byte :=
  default str (UrlEncode_loop str space_as_plus 0 str None).

Definition isxdigit (c : byte) : bool :=
  let z := byte_to_Z c in
  ((48 <=? z) && (z <=? 57)) || ((65 <=? z) && (z <=? 70)) || ((97 <=? z) && (z <=? 102)).

Definition xdigit (c : byte) : Z := nth (Z.to_nat (byte_to_Z c)) xdigit_chars 0.

(** The loop of [UrlDecode]; a well-formed escape advances [c] by two more. *)
Fixpoint UrlDecode_loop (str : list byte) (space_as_plus : bool) (i : nat) (rest : list byte)
    (ss : option (list byte)) : option (list byte) :=
  match rest with
  | [] => ss
  | c :: rest' =>
      if bool_decide (c = x2b) && space_as_plus then
        UrlDecode_loop str space_as_plus (S i) rest' (Some (default (take i str) ss ++ [x20]))
      else
        let otherwise := UrlDecode_loop str space_as_plus (S i) rest' ((.++ [c]) <$> ss) in
        match rest' with
        | h :: l :: rest'' =>
            if bool_decide (c = x25) && isxdigit h && isxdigit l then
              UrlDecode_loop str space_as_plus (S (S (S i))) rest''
                (Some (default (take i str) ss
                       ++ [byte_of_Z (Z.lor (Z.shiftl (xdigit h) 4) (xdigit l))]))
            else otherwise
        | _ => otherwise
        end
  end.

Definition UrlDecode (str : list byte) (space_as_plus : bool) : list byte :=
  default str (UrlDecode_loop str space_as_plus 0 str None).

(** ** Trimming *)

(** The default set, [" \t\r\n"]. *)
Definition default_delimit : list byte := [x20; x09; x0d; x0a].

Definition Trim (str delimit : list byte) : outcome (list byte) :=
  match find_first_not_of str delimit with
  | None => Ret []
  | Some b =>
      match find_last_not_of str delimit with
      | Some e => substr str b (e - b + 1)
      | None => substr str b (length str)
      end
  end.

Definition TrimLeft (str delimit : list byte) : outcome (list byte) :=
  match find_first_not_of str delimit with
  | None => Ret []
  | Some b => substr str b (length str)
  end.

Definition TrimRight (str delimit : list byte) : outcome (list byte) :=
  match find_last_not_of str delimit with
  | None => Ret []
  | Some e => substr str 0 e
  end.
End StringUtil.

(** ** Reference definitions *)

(** One character at a time. *)
Definition encode_char (space_as_plus : bool) (c : byte) : list byte :=
  if StringUtil.CHAR_IS_UNRESERVED c then [c]
  else if bool_decide (c = x20) && space_as_plus then [x2b]
  else [x25; StringUtil.hexdigit (byte_to_Z c / 16); StringUtil.hexdigit (byte_to_Z c mod 16)].

Fixpoint decode_from (fuel : nat) (space_as_plus : bool) (s : list byte) : list byte :=
  match fuel with
  | O => []
  | S fuel' =>
      match s with
      | [] => []
      | c :: s' =>
          if bool_decide (c = x2b) && space_as_plus then x20 :: decode_from fuel' space_as_plus s'
          else
            match s' with
            | h :: l :: s'' =>
                if bool_decide (c = x25) && StringUtil.isxdigit h && StringUtil.isxdigit l
                then byte_of_Z (16 * StringUtil.xdigit h + StringUtil.xdigit l)
                       :: decode_from fuel' space_as_plus s''
                else c :: decode_from fuel' space_as_plus s'
            | _ => c :: decode_from fuel' space_as_plus s'
            end
      end
  end.
Definition decode_spec (space_as_plus : bool) (s : list byte) : list byte :=
  decode_from (length s) space_as_plus s.
