(* ===== verification/StringProps.v ===== *)
(** * What [StringUtil] guarantees

    Percent-encoding against its reference definition, its round trip, and trimming. *)

From S2P Require Import Prelude StringUtil.
Import StringUtil.

(** ** Percent-encoding *)

Lemma nibbles c : Z.shiftr (byte_to_Z c) 4 = byte_to_Z c / 16
  ∧ Z.land (byte_to_Z c) 15 = byte_to_Z c mod 16.
Proof.
  split; [by rewrite Z.shiftr_div_pow2 by lia|].
  change 15 with (Z.ones 4). by rewrite Z.land_ones by lia.
Qed.

Lemma encode_loop_Some str p rest : ∀ i s,
  UrlEncode_loop str p i rest (Some s) = Some (s ++ flat_map (encode_char p) rest).
Proof.
  induction rest as [|c rest IH]; intros i s; simpl; [by rewrite app_nil_r|].
  destruct (nibbles c) as [-> ->]. unfold encode_char at 1.
  destruct (CHAR_IS_UNRESERVED c); simpl; [|destruct (_ && _)]; rewrite IH;
    by rewrite <- app_assoc.
Qed.

Lemma encode_loop_None str p rest : ∀ i,
  str = take i str ++ rest → i = (length str - length rest)%nat →
  default str (UrlEncode_loop str p i rest None) = take i str ++ flat_map (encode_char p) rest.
Proof.
  induction rest as [|c rest IH]; intros i Hs Hi; simpl.
  { by rewrite <- Hs. }
  destruct (nibbles c) as [-> ->]. unfold encode_char at 1.
  assert (length (take i str) = i) as Hl.
  { apply (f_equal length) in Hs. rewrite length_app in Hs. simpl in *. rewrite length_take. lia. }
  destruct (CHAR_IS_UNRESERVED c); simpl.
  - assert (take (S i) str = take i str ++ [c]) as Ht.
    { rewrite Hs at 1. rewrite take_app_ge by lia. f_equal. rewrite Hl.
      by replace (S i - i)%nat with 1%nat by lia. }
    rewrite IH, Ht, <- app_assoc; [done| |].
    + by rewrite Ht, <- app_assoc.
    + apply (f_equal length) in Hs. rewrite length_app in Hs. simpl in *. lia.
  - destruct (_ && _); rewrite encode_loop_Some; simpl; by rewrite <- app_assoc.
Qed.

Lemma UrlEncode_eq str p : UrlEncode str p = flat_map (encode_char p) str.
Proof. unfold UrlEncode. rewrite encode_loop_None; [done|done|simpl; lia]. Qed.

Lemma decode_from_enough q s : ∀ n m,
  (length s ≤ n)%nat → (length s ≤ m)%nat → decode_from n q s = decode_from m q s.
Proof.
  remember (length s) as k eqn:Hk. revert s Hk.
  induction (lt_wf k) as [k _ IH]. intros s -> n m Hn Hm.
  destruct s as [|c s]; [by destruct n, m|]. destruct n as [|n], m as [|m]; simpl in *; try lia.
  assert (decode_from n q s = decode_from m q s) as E by (eapply IH; [|done|..]; lia).
  destruct (_ && q); [by f_equal|]. destruct s as [|h [|l s]]; [by f_equal..|].
  destruct (_ && _); [|by f_equal]. f_equal. simpl in *. eapply IH; [|done|..]; lia.
Qed.

Lemma decode_spec_unfold q n s : (length s ≤ n)%nat → decode_from n q s = decode_spec q s.
Proof. intros. by apply decode_from_enough. Qed.

Lemma xdigit_bounds c : 0 <= xdigit c < 16.
Proof.
  assert ((0 <=? xdigit c) && (xdigit c <? 16) = true) as H.
  { revert c. by apply byte_forall. }
  apply andb_true_iff in H as [H1%Z.leb_le H2%Z.ltb_lt]. done.
Qed.

Lemma xdigits_join h l :
  Z.lor (Z.shiftl (xdigit h) 4) (xdigit l) = 16 * xdigit h + xdigit l.
Proof.
  pose proof (xdigit_bounds l). rewrite Z.lor_comm, lor_shiftl by (simpl; lia). simpl. lia.
Qed.

Lemma decode_loop_Some str q n : ∀ rest i s,
  (length rest ≤ n)%nat →
  UrlDecode_loop str q i rest (Some s) = Some (s ++ decode_from n q rest).
Proof.
  induction (lt_wf n) as [n _ IH]. intros rest i s Hn.
  destruct rest as [|c rest]; [destruct n; simpl; by rewrite app_nil_r|].
  destruct n as [|n]; simpl in Hn; [lia|]. simpl.
  destruct (_ && q); [rewrite (IH n) by lia; by rewrite <- app_assoc|].
  assert (UrlDecode_loop str q (S i) rest (Some (s ++ [c]))
    = Some (s ++ c :: decode_from n q rest)) as E
    by (rewrite (IH n) by lia; by rewrite <- app_assoc).
  destruct rest as [|h [|l rest]]; [done..|].
  destruct (_ && _); [|done]. simpl in Hn. rewrite (IH n) by lia.
  by rewrite <- app_assoc, xdigits_join.
Qed.

Lemma decode_loop_None str q : ∀ n rest i,
  (length rest ≤ n)%nat → str = take i str ++ rest → i = (length str - length rest)%nat →
  default str (UrlDecode_loop str q i rest None) = take i str ++ decode_from n q rest.
Proof.
  induction n as [|n IH]; intros rest i Hn Hs Hi.
  { destruct rest; [simpl; by rewrite app_nil_r, take_ge by (simpl in *; lia)|simpl in Hn; lia]. }
  destruct rest as [|c rest]; simpl in Hn |- *; [by rewrite <- Hs|].
  assert (length str = i + S (length rest))%nat as Hl.
  { apply (f_equal length) in Hs. rewrite length_app, length_take in Hs. simpl in *. lia. }
  assert (take (S i) str = take i str ++ [c]) as Ht.
  { rewrite Hs at 1. rewrite take_app_ge by list_lia. f_equal.
    rewrite length_take, Nat.min_l by lia. by replace (S i - i)%nat with 1%nat by lia. }
  destruct (_ && q).
  { rewrite (decode_loop_Some _ _ n) by lia. simpl. by rewrite <- app_assoc. }
  assert (default str (UrlDecode_loop str q (S i) rest None)
    = take i str ++ c :: decode_from n q rest) as E.
  { rewrite IH, Ht, <- app_assoc; [done|lia| |lia]. by rewrite Ht, <- app_assoc. }
  destruct rest as [|h [|l rest]]; [done..|].
  destruct (_ && _); [|done]. simpl in Hn. rewrite (decode_loop_Some _ _ n) by lia. simpl.
  by rewrite <- app_assoc, xdigits_join.
Qed.

Lemma UrlDecode_eq str q : UrlDecode str q = decode_spec q str.
Proof.
  unfold UrlDecode, decode_spec. rewrite (decode_loop_None str q (length str)); [done|..]; simpl; try done; lia.
Qed.

(** What the reference decoder does to each form of an encoded character. *)
Lemma unreserved_plain c : CHAR_IS_UNRESERVED c = true → c ≠ x25 ∧ c ≠ x2b.
Proof.
  intros Hc. split; intros ->; vm_compute in Hc; discriminate.
Qed.

Lemma hexdigits_ok c :
  let h := hexdigit (byte_to_Z c / 16) in let l := hexdigit (byte_to_Z c mod 16) in
  isxdigit h = true ∧ isxdigit l = true ∧ byte_of_Z (16 * xdigit h + xdigit l) = c.
Proof.
  simpl. assert (isxdigit (hexdigit (byte_to_Z c / 16)) && isxdigit (hexdigit (byte_to_Z c mod 16))
    && (16 * xdigit (hexdigit (byte_to_Z c / 16)) + xdigit (hexdigit (byte_to_Z c mod 16))
        =? byte_to_Z c) = true) as H by (revert c; by apply byte_forall).
  apply andb_true_iff in H as [[H1 H2]%andb_true_iff H3%Z.eqb_eq].
  rewrite H3, byte_of_to_Z. done.
Qed.

Lemma decode_escape n q h l s :
  isxdigit h = true → isxdigit l = true →
  decode_from (S n) q (x25 :: h :: l :: s)
  = byte_of_Z (16 * xdigit h + xdigit l) :: decode_from n q s.
Proof. intros Hh Hl. cbn [decode_from]. by rewrite Hh, Hl. Qed.

Lemma decode_char p q c s :
  (q = true ∨ p = false) →
  decode_spec q (encode_char p c ++ s) = c :: decode_spec q s.
Proof.
  intros Hpq. unfold decode_spec at 1. unfold encode_char.
  destruct (CHAR_IS_UNRESERVED c) eqn:Ec.
  - destruct (unreserved_plain c Ec) as [H1 H2]. simpl.
    rewrite !bool_decide_eq_false_2 by done. simpl.
    destruct s as [|h [|l s]]; [done..|]. by rewrite decode_spec_unfold.
  - destruct (bool_decide (c = x20) && p) eqn:Ep.
    + apply andb_true_iff in Ep as [->%bool_decide_eq_true ->].
      destruct Hpq as [->|]; [|done]. simpl. by rewrite decode_spec_unfold.
    + destruct (hexdigits_ok c) as (Hh & Hl & Hc).
      cbn [app length]. rewrite decode_escape, Hc by done.
      f_equal. apply decode_spec_unfold. lia.
Qed.

Lemma decode_encode p q s :
  (q = true ∨ p = false) → decode_spec q (flat_map (encode_char p) s) = s.
Proof.
  intros Hpq. induction s as [|c s IH]; [done|]. simpl. by rewrite decode_char, IH.
Qed.

Lemma decode_encoded str : UrlDecode (UrlEncode str true) true = str.
Proof. rewrite UrlDecode_eq, UrlEncode_eq. apply decode_encode. by left. Qed.

(** ** Trimming *)

Lemma find_first_spec s set :
  match find_first_not_of s set with
  | None => Forall (.∈ set) s
  | Some i => Forall (.∈ set) (take i s) ∧ ∃ x, s !! i = Some x ∧ x ∉ set
  end.
Proof.
  induction s as [|c s IH]; [constructor|]. simpl. case_decide as Hc; [|simpl; eauto].
  destruct (find_first_not_of s set) as [i|]; simpl; [|by constructor].
  destruct IH as [Ht Hx]. split; [by constructor|done].
Qed.

Lemma find_last_spec s set :
  match find_last_not_of s set with
  | None => Forall (.∈ set) s
  | Some i => Forall (.∈ set) (drop (S i) s) ∧ ∃ x, s !! i = Some x ∧ x ∉ set
  end.
Proof.
  induction s as [|c s IH]; [constructor|]. simpl.
  destruct (find_last_not_of s set) as [i|]; [done|].
  case_decide as Hc; [by constructor|]. simpl. eauto.
Qed.

Lemma find_first_le_last (s set : list byte) i j x :
  Forall (.∈ set) (take i s) → s !! j = Some x → x ∉ set → (i ≤ j)%nat.
Proof.
  intros Hf Hj Hx. destruct (decide (i ≤ j)%nat) as [|Hlt]; [done|].
  rewrite Forall_forall in Hf. destruct Hx. apply Hf.
  apply list_elem_of_lookup. exists j. rewrite lookup_take_lt by lia. done.
Qed.

Lemma Trim_total s set : ∃ m, Trim s set = Ret m.
Proof.
  unfold Trim, substr. pose proof (find_first_spec s set) as Hf.
  destruct (find_first_not_of s set) as [i|]; [|by eexists].
  destruct Hf as [_ (x & Hi & _)]. pose proof (lookup_lt_Some _ _ _ Hi).
  destruct (find_last_not_of s set); rewrite decide_True by lia; by eexists.
Qed.

(** [m] starts and ends with characters outside [set]. *)
Definition stripped (m set : list byte) : Prop :=
  ∃ x y, head m = Some x ∧ x ∉ set ∧ last m = Some y ∧ y ∉ set.

Lemma range_stripped (s set : list byte) i j x y :
  s !! i = Some x → x ∉ set → s !! j = Some y → y ∉ set → (i ≤ j)%nat →
  stripped (s.[i, j - i + 1]) set.
Proof.
  intros Hi Hx Hj Hy Hle. exists x, y. pose proof (lookup_lt_Some _ _ _ Hj).
  rewrite head_lookup, last_lookup, length_range by lia.
  rewrite !lookup_take_lt, !lookup_drop by lia.
  replace (i + pred (j - i + 1))%nat with j by lia. by rewrite Nat.add_0_r.
Qed.

Section contract.

(** [UrlEncode], which only copies from the first character it must escape, is the
    character-by-character encoder: unreserved characters stay, a space becomes [+] on
    request, everything else becomes [%] and two upper-case digits; and [UrlDecode] is the
    left-to-right decoder that leaves incomplete escapes alone. *)
Theorem url_codec_reference str p :
  UrlEncode str p = flat_map (encode_char p) str ∧ UrlDecode str p = decode_spec p str.
Proof. split; [apply UrlEncode_eq|apply UrlDecode_eq]. Qed.

(** Decoding an encoded string gives it back, with the same treatment of spaces, and also
    when the decoder accepts [+] although the encoder did not produce it. *)
Theorem url_roundtrip str p q :
  q = true ∨ p = false → UrlDecode (UrlEncode str p) q = str.
Proof. intros Hpq. rewrite UrlDecode_eq, UrlEncode_eq. by apply decode_encode. Qed.

(** Trimming: a string of delimiters trims to nothing; any other string is [l ++ m ++ r] with
    delimiters around a core that neither starts nor ends with one, [Trim] is the core,
    [TrimLeft] keeps [r], and [TrimRight] loses the last character of the core as well. *)
Theorem trim_functions str delimit :
  (Forall (.∈ delimit) str ∧ Trim str delimit = Ret [] ∧ TrimLeft str delimit = Ret []
    ∧ TrimRight str delimit = Ret [])
  ∨ ∃ l m x r, str = l ++ (m ++ [x]) ++ r ∧ Forall (.∈ delimit) l ∧ Forall (.∈ delimit) r
    ∧ stripped (m ++ [x]) delimit
    ∧ Trim str delimit = Ret (m ++ [x])
    ∧ TrimLeft str delimit = Ret ((m ++ [x]) ++ r)
    ∧ TrimRight str delimit = Ret (l ++ m).
Proof.
  unfold Trim, TrimLeft, TrimRight.
  pose proof (find_first_spec str delimit) as Hf. pose proof (find_last_spec str delimit) as Hl.
  destruct (find_first_not_of str delimit) as [i|].
  2: { left. destruct (find_last_not_of str delimit) as [j|]; [|done].
       destruct Hl as [_ (x & Hx%list_elem_of_lookup_2 & Hn)].
       rewrite Forall_forall in Hf. by apply Hf in Hx. }
  destruct Hf as [Hf (x & Hi & Hx)]. right.
  destruct (find_last_not_of str delimit) as [j|].
  2: { rewrite Forall_forall in Hl. by apply list_elem_of_lookup_2, Hl in Hi. }
  destruct Hl as [Hl (y & Hj & Hy)].
  pose proof (find_first_le_last _ _ _ _ _ Hf Hj Hy) as Hle.
  pose proof (lookup_lt_Some _ _ _ Hj) as Hlt.
  assert (str.[i, j - i + 1] = str.[i, j - i] ++ [y]) as Hm.
  { rewrite range_app. f_equal. replace (i + (j - i))%nat with j by lia.
    rewrite (drop_S _ y) by done. done. }
  exists (take i str), (str.[i, j - i]), y, (drop (S j) str).
  rewrite <- Hm. unfold substr. rewrite !decide_True by lia. split_and!; try done.
  - rewrite <- (take_drop i str) at 1. f_equal. rewrite <- (take_drop (j - i + 1) (drop i str)) at 1.
    f_equal. rewrite drop_drop. f_equal. lia.
  - by eapply range_stripped.
  - f_equal. rewrite take_ge by list_lia.
    rewrite <- (take_drop (j - i + 1) (drop i str)) at 1. f_equal. rewrite drop_drop. f_equal. lia.
  - f_equal. rewrite drop_0. rewrite take_take_drop. f_equal. lia.
Qed.
End contract.

Lemma url_roundtrip_witness :
  UrlDecode (UrlEncode (lit "a b+c%d=/") true) true = lit "a b+c%d=/".
Proof. apply (url_roundtrip (lit "a b+c%d=/") true true). by left. Defined.
