(* ===== verification/Http.v ===== *)
(** * HTTP messages (sylar/http/http.h, sylar/http/http.cpp): data and operations

    The method and status tables, the case-insensitive header maps, requests and responses
    with their accessors, the lazy parsing of parameters and cookies, and their textual form.
    A [std::map] is the sequence of its pairs (file [StdOrdered]); C strings end at their first
    zero byte; [boost::lexical_cast] and [Time2Str] are arguments of what uses them. *)

From S2P Require Import Prelude CString StdOrdered StringUtil.

Definition crlf : list byte := [x0d; x0a].

(** ** Methods *)

Module HttpMethod.
Inductive t :=
| DELETE
| GET
| HEAD
| POST
| PUT
| CONNECT
| OPTIONS
| TRACE
| COPY
| LOCK
| MKCOL
| MOVE
| PROPFIND
| PROPPATCH
| SEARCH
| UNLOCK
| BIND
| REBIND
| UNBIND
| ACL
| REPORT
| MKACTIVITY
| CHECKOUT
| MERGE
| MSEARCH
| NOTIFY
| SUBSCRIBE
| UNSUBSCRIBE
| PATCH
| PURGE
| MKCALENDAR
| LINK
| UNLINK
| SOURCE
| INVALID_METHOD.

#[global] Instance eq_dec : EqDecision t.
Proof. solve_decision. Defined.

(** [HTTP_METHOD_MAP(XX)]. *)
Definition HTTP_METHOD_MAP : list (Z * t * list byte) :=
  [(0, DELETE, lit "DELETE");
   (1, GET, lit "GET");
   (2, HEAD, lit "HEAD");
   (3, POST, lit "POST");
   (4, PUT, lit "PUT");
   (5, CONNECT, lit "CONNECT");
   (6, OPTIONS, lit "OPTIONS");
   (7, TRACE, lit "TRACE");
   (8, COPY, lit "COPY");
   (9, LOCK, lit "LOCK");
   (10, MKCOL, lit "MKCOL");
   (11, MOVE, lit "MOVE");
   (12, PROPFIND, lit "PROPFIND");
   (13, PROPPATCH, lit "PROPPATCH");
   (14, SEARCH, lit "SEARCH");
   (15, UNLOCK, lit "UNLOCK");
   (16, BIND, lit "BIND");
   (17, REBIND, lit "REBIND");
   (18, UNBIND, lit "UNBIND");
   (19, ACL, lit "ACL");
   (20, REPORT, lit "REPORT");
   (21, MKACTIVITY, lit "MKACTIVITY");
   (22, CHECKOUT, lit "CHECKOUT");
   (23, MERGE, lit "MERGE");
   (24, MSEARCH, lit "M-SEARCH");
   (25, NOTIFY, lit "NOTIFY");
   (26, SUBSCRIBE, lit "SUBSCRIBE");
   (27, UNSUBSCRIBE, lit "UNSUBSCRIBE");
   (28, PATCH, lit "PATCH");
   (29, PURGE, lit "PURGE");
   (30, MKCALENDAR, lit "MKCALENDAR");
   (31, LINK, lit "LINK");
   (32, UNLINK, lit "UNLINK");
   (33, SOURCE, lit "SOURCE")].

(** [(uint32_t)m]. *)
Definition num (m : t) : Z :=
  match find (fun e => bool_decide (e.1.2 = m)) HTTP_METHOD_MAP with
  | Some e => e.1.1
  | None => Z.of_nat (length HTTP_METHOD_MAP)
  end.

Definition StringToHttpMethod (m : list byte) : t :=
  match find (fun e => bool_decide (e.2 = c_str m)) HTTP_METHOD_MAP with
  | Some e => e.1.2
  | None => INVALID_METHOD
  end.

(** [strncmp(#string, m, strlen(#string)) == 0]: the name is a prefix of [m]. *)
Definition CharsToHttpMethod (m : list byte) : t :=
  match find (fun e => bool_decide (e.2 `prefix_of` c_str m)) HTTP_METHOD_MAP with
  | Some e => e.1.2
  | None => INVALID_METHOD
  end.

Definition s_method_string : list (list byte) := snd <$> HTTP_METHOD_MAP.

Definition HttpMethodToString (m : t) : list byte :=
  default (lit "<unknown>") (s_method_string !! Z.to_nat (num m)).
End HttpMethod.

(** ** Status codes *)

Module HttpStatus.
Definition HTTP_STATUS_MAP : list (Z * list byte) :=
  [(100, lit "Continue");
   (101, lit "Switching Protocols");
   (102, lit "Processing");
   (200, lit "OK");
   (201, lit "Created");
   (202, lit "Accepted");
   (203, lit "Non-Authoritative Information");
   (204, lit "No Content");
   (205, lit "Reset Content");
   (206, lit "Partial Content");
   (207, lit "Multi-Status");
   (208, lit "Already Reported");
   (226, lit "IM Used");
   (300, lit "Multiple Choices");
   (301, lit "Moved Permanently");
   (302, lit "Found");
   (303, lit "See Other");
   (304, lit "Not Modified");
   (305, lit "Use Proxy");
   (307, lit "Temporary Redirect");
   (308, lit "Permanent Redirect");
   (400, lit "Bad Request");
   (401, lit "Unauthorized");
   (402, lit "Payment Required");
   (403, lit "Forbidden");
   (404, lit "Not Found");
   (405, lit "Method Not Allowed");
   (406, lit "Not Acceptable");
   (407, lit "Proxy Authentication Required");
   (408, lit "Request Timeout");
   (409, lit "Conflict");
   (410, lit "Gone");
   (411, lit "Length Required");
   (412, lit "Precondition Failed");
   (413, lit "Payload Too Large");
   (414, lit "URI Too Long");
   (415, lit "Unsupported Media Type");
   (416, lit "Range Not Satisfiable");
   (417, lit "Expectation Failed");
   (421, lit "Misdirected Request");
   (422, lit "Unprocessable Entity");
   (423, lit "Locked");
   (424, lit "Failed Dependency");
   (426, lit "Upgrade Required");
   (428, lit "Precondition Required");
   (429, lit "Too Many Requests");
   (431, lit "Request Header Fields Too Large");
   (451, lit "Unavailable For Legal Reasons");
   (500, lit "Internal Server Error");
   (501, lit "Not Implemented");
   (502, lit "Bad Gateway");
   (503, lit "Service Unavailable");
   (504, lit "Gateway Timeout");
   (505, lit "HTTP Version Not Supported");
   (506, lit "Variant Also Negotiates");
   (507, lit "Insufficient Storage");
   (508, lit "Loop Detected");
   (510, lit "Not Extended");
   (511, lit "Network Authentication Required")].

Definition OK : Z := 200.
Definition FOUND : Z := 302.

Definition HttpStatusToString (s : Z) : list byte :=
  match find (fun e => e.1 =? s) HTTP_STATUS_MAP with
  | Some e => e.2
  | None => lit "<unknown>"
  end.
End HttpStatus.

(** ** Header maps *)

Definition CaseInsensitiveLess (lhs rhs : list byte) : bool :=
  match strcasecmp lhs rhs with Lt => true | _ => false end.

(** [std::map<std::string, std::string, CaseInsensitiveLess>]. *)
Definition MapType : Type := list (list byte * list byte).

Definition find_key (m : MapType) (key : list byte) : option (list byte) :=
  map_get CaseInsensitiveLess key m.

(** [checkGetAs] and [getAs]; [cast] is [boost::lexical_cast<T>], [None] when it throws. *)
Definition checkGetAs {T} (cast : list byte → option T) (m : MapType) (key : list byte) (def : T)
    : bool * T :=
  match find_key m key with
  | None => (false, def)
  | Some s => match cast s with Some v => (true, v) | None => (false, def) end
  end.
Definition getAs {T} (cast : list byte → option T) (m : MapType) (key : list byte) (def : T) : T :=
  match find_key m key with
  | None => def
  | Some s => default def (cast s)
  end.

(** [PARSE_PARAM(str, m, flag, trim)]. *)
Fixpoint parse_param_loop (fuel : nat) (str : list byte) (flag : byte)
    (trim : list byte → outcome (list byte)) (pos : nat) (m : MapType) : outcome MapType :=
  match fuel with
  | O => NoFuel
  | S fuel' =>
      let last := pos in
      match str_find str x3d pos with
      | None => Ret m
      | Some key =>
          let pos := str_find str flag key in
          name ← StringUtil.substr str last (key - last);
          name ← trim name;
          value ← StringUtil.substr str (key + 1)
                    (match pos with Some p => p - key - 1 | None => length str end);
          let m := map_insert CaseInsensitiveLess name (StringUtil.UrlDecode value true) m in
          match pos with
          | None => Ret m
          | Some p => parse_param_loop fuel' str flag trim (p + 1) m
          end
      end
  end.
Definition PARSE_PARAM (str : list byte) (m : MapType) (flag : byte)
    (trim : list byte → outcome (list byte)) : outcome MapType :=
  parse_param_loop (S (length str)) str flag trim 0 m.

(** ** Responses *)

Module HttpResponse.
Record t := mk {
  m_status : Z;
  m_version : Z;
  m_close : bool;
  m_websocket : bool;
  m_body : list byte;
  m_reason : list byte;
  m_headers : MapType;
  m_cookies : list (list byte);
}.

Definition make (version : Z) (close : bool) : t :=
  mk HttpStatus.OK version close false [] [] [] [].

Definition setStatus (v : Z) (r : t) : t :=
  mk v (m_version r) (m_close r) (m_websocket r) (m_body r) (m_reason r) (m_headers r) (m_cookies r).
Definition setVersion (v : Z) (r : t) : t :=
  mk (m_status r) v (m_close r) (m_websocket r) (m_body r) (m_reason r) (m_headers r) (m_cookies r).
Definition setClose (v : bool) (r : t) : t :=
  mk (m_status r) (m_version r) v (m_websocket r) (m_body r) (m_reason r) (m_headers r) (m_cookies r).
Definition setWebSocket (v : bool) (r : t) : t :=
  mk (m_status r) (m_version r) (m_close r) v (m_body r) (m_reason r) (m_headers r) (m_cookies r).
Definition setBody (v : list byte) (r : t) : t :=
  mk (m_status r) (m_version r) (m_close r) (m_websocket r) v (m_reason r) (m_headers r) (m_cookies r).
Definition setReason (v : list byte) (r : t) : t :=
  mk (m_status r) (m_version r) (m_close r) (m_websocket r) (m_body r) v (m_headers r) (m_cookies r).
Definition setHeaders (v : MapType) (r : t) : t :=
  mk (m_status r) (m_version r) (m_close r) (m_websocket r) (m_body r) (m_reason r) v (m_cookies r).
Definition push_cookie (v : list byte) (r : t) : t :=
  mk (m_status r) (m_version r) (m_close r) (m_websocket r) (m_body r) (m_reason r) (m_headers r)
    (m_cookies r ++ [v]).

Definition getHeader (key def : list byte) (r : t) : list byte :=
  default def (find_key (m_headers r) key).
(** The templates over a header: the value as a [T]. *)
Definition checkGetHeaderAs {T} (cast : list byte → option T) (key : list byte) (def : T) (r : t) : bool * T :=
  checkGetAs cast (m_headers r) key def.
Definition getHeaderAs {T} (cast : list byte → option T) (key : list byte) (def : T) (r : t) : T :=
  getAs cast (m_headers r) key def.
Definition setHeader (key val : list byte) (r : t) : t :=
  setHeaders (map_assign CaseInsensitiveLess key val (m_headers r)) r.
Definition delHeader (key : list byte) (r : t) : t :=
  setHeaders (map_erase CaseInsensitiveLess key (m_headers r)) r.

Definition setRedirect (uri : list byte) (r : t) : t :=
  setHeader (lit "Location") uri (setStatus HttpStatus.FOUND r).

(** [setCookie(key, val, expired, path, domain, secure)]; [Time2Str] formats [expired]. *)
Definition setCookie (Time2Str : Z → list byte → list byte) (key val : list byte) (expired : Z)
    (path domain : list byte) (secure : bool) (r : t) : t :=
  push_cookie
    (key ++ lit "=" ++ val
     ++ (if 0 <? expired
         then lit ";expires=" ++ Time2Str expired (lit "%a, %d %b %Y %H:%M:%S") ++ lit " GMT" else [])
     ++ (if bool_decide (domain = []) then [] else lit ";domain=" ++ domain)
     ++ (if bool_decide (path = []) then [] else lit ";path=" ++ path)
     ++ (if secure then lit "secure" else [])) r.

(** The loop over the headers, shared by both [dump]s. *)
Definition header_line (websocket : bool) (h : list byte * list byte) : list byte :=
  if negb websocket && bool_decide (strcasecmp h.1 (lit "connection") = Eq) then []
  else h.1 ++ lit ": " ++ h.2 ++ crlf.

Definition toString (r : t) : list byte :=
  lit "HTTP/" ++ dec (Z.shiftr (m_version r) 4) ++ lit "." ++ dec (Z.land (m_version r) 15)
  ++ lit " " ++ dec (m_status r) ++ lit " "
  ++ (if bool_decide (m_reason r = []) then HttpStatus.HttpStatusToString (m_status r)
      else m_reason r) ++ crlf
  ++ flat_map (header_line (m_websocket r)) (m_headers r)
  ++ flat_map (fun i => lit "Set-Cookie: " ++ i ++ crlf) (m_cookies r)
  ++ (if m_websocket r then []
      else lit "connection: " ++ (if m_close r then lit "close" else lit "keep-alive") ++ crlf)
  ++ (if bool_decide (m_body r = []) then crlf
      else lit "content-length; " ++ dec (Z.of_nat (length (m_body r))) ++ crlf ++ crlf
             ++ m_body r).
End HttpResponse.

(** ** Requests *)

Module HttpRequest.
Record t := mk {
  m_method : HttpMethod.t;
  m_version : Z;
  m_close : bool;
  m_websocket : bool;
  m_parserParamFlag : Z;
  m_path : list byte;
  m_query : list byte;
  m_fragment : list byte;
  m_body : list byte;
  m_headers : MapType;
  m_params : MapType;
  m_cookies : MapType;
}.

Definition make (version : Z) (close : bool) : t :=
  mk HttpMethod.GET version close false 0 (lit "/") [] [] [] [] [] [].

Definition setMethod (v : HttpMethod.t) (r : t) : t :=
  mk v (m_version r) (m_close r) (m_websocket r) (m_parserParamFlag r) (m_path r) (m_query r)
    (m_fragment r) (m_body r) (m_headers r) (m_params r) (m_cookies r).
Definition setVersion (v : Z) (r : t) : t :=
  mk (m_method r) v (m_close r) (m_websocket r) (m_parserParamFlag r) (m_path r) (m_query r)
    (m_fragment r) (m_body r) (m_headers r) (m_params r) (m_cookies r).
Definition setClose (v : bool) (r : t) : t :=
  mk (m_method r) (m_version r) v (m_websocket r) (m_parserParamFlag r) (m_path r) (m_query r)
    (m_fragment r) (m_body r) (m_headers r) (m_params r) (m_cookies r).
Definition setWebSocket (v : bool) (r : t) : t :=
  mk (m_method r) (m_version r) (m_close r) v (m_parserParamFlag r) (m_path r) (m_query r)
    (m_fragment r) (m_body r) (m_headers r) (m_params r) (m_cookies r).
Definition set_flag (v : Z) (r : t) : t :=
  mk (m_method r) (m_version r) (m_close r) (m_websocket r) v (m_path r) (m_query r)
    (m_fragment r) (m_body r) (m_headers r) (m_params r) (m_cookies r).
Definition setPath (v : list byte) (r : t) : t :=
  mk (m_method r) (m_version r) (m_close r) (m_websocket r) (m_parserParamFlag r) v (m_query r)
    (m_fragment r) (m_body r) (m_headers r) (m_params r) (m_cookies r).
Definition setQuery (v : list byte) (r : t) : t :=
  mk (m_method r) (m_version r) (m_close r) (m_websocket r) (m_parserParamFlag r) (m_path r) v
    (m_fragment r) (m_body r) (m_headers r) (m_params r) (m_cookies r).
Definition setFragment (v : list byte) (r : t) : t :=
  mk (m_method r) (m_version r) (m_close r) (m_websocket r) (m_parserParamFlag r) (m_path r)
    (m_query r) v (m_body r) (m_headers r) (m_params r) (m_cookies r).
Definition setBody (v : list byte) (r : t) : t :=
  mk (m_method r) (m_version r) (m_close r) (m_websocket r) (m_parserParamFlag r) (m_path r)
    (m_query r) (m_fragment r) v (m_headers r) (m_params r) (m_cookies r).
Definition setHeaders (v : MapType) (r : t) : t :=
  mk (m_method r) (m_version r) (m_close r) (m_websocket r) (m_parserParamFlag r) (m_path r)
    (m_query r) (m_fragment r) (m_body r) v (m_params r) (m_cookies r).
Definition setParams (v : MapType) (r : t) : t :=
  mk (m_method r) (m_version r) (m_close r) (m_websocket r) (m_parserParamFlag r) (m_path r)
    (m_query r) (m_fragment r) (m_body r) (m_headers r) v (m_cookies r).
Definition setCookies (v : MapType) (r : t) : t :=
  mk (m_method r) (m_version r) (m_close r) (m_websocket r) (m_parserParamFlag r) (m_path r)
    (m_query r) (m_fragment r) (m_body r) (m_headers r) (m_params r) v.

Definition createResponse (r : t) : HttpResponse.t :=
  HttpResponse.make (m_version r) (m_close r).

Definition getHeader (key def : list byte) (r : t) : list byte :=
  default def (find_key (m_headers r) key).
(** The templates over a header: the value as a [T]. *)
Definition checkGetHeaderAs {T} (cast : list byte → option T) (key : list byte) (def : T) (r : t) : bool * T :=
  checkGetAs cast (m_headers r) key def.
Definition getHeaderAs {T} (cast : list byte → option T) (key : list byte) (def : T) (r : t) : T :=
  getAs cast (m_headers r) key def.
Definition getGetHeaderAs {T} (cast : list byte → option T) (key : list byte) (def : T) (r : t) : T :=
  getAs cast (m_headers r) key def.
Definition setHeader (key val : list byte) (r : t) : t :=
  setHeaders (map_assign CaseInsensitiveLess key val (m_headers r)) r.
Definition setParam (key val : list byte) (r : t) : t :=
  setParams (map_assign CaseInsensitiveLess key val (m_params r)) r.
Definition setCookie (key val : list byte) (r : t) : t :=
  setCookies (map_assign CaseInsensitiveLess key val (m_cookies r)) r.
Definition delHeader (key : list byte) (r : t) : t :=
  setHeaders (map_erase CaseInsensitiveLess key (m_headers r)) r.
Definition delParam (key : list byte) (r : t) : t :=
  setParams (map_erase CaseInsensitiveLess key (m_params r)) r.
Definition delCookie (key : list byte) (r : t) : t :=
  setCookies (map_erase CaseInsensitiveLess key (m_cookies r)) r.

(** [hasHeader(key, val)] and its kin: the value stored in [*val] when the result is true. *)
Definition hasHeader (key : list byte) (r : t) : option (list byte) := find_key (m_headers r) key.

Definition flag_set (bit : Z) (r : t) : bool := negb (Z.land (m_parserParamFlag r) bit =? 0).
Definition raise_flag (bit : Z) (r : t) : t := set_flag (Z.lor (m_parserParamFlag r) bit) r.

(** Stores what [parse] returns with [store]; an exception leaves the object alone. *)
Definition parse_into (parse : t → outcome MapType) (store : MapType → t → t) : ST t unit := fun r =>
  match parse r with
  | Ret m => (Ret tt, store m r)
  | Throw e => (Throw e, r)
  | Abort => (Abort, r)
  | Undef => (Undef, r)
  | NoFuel => (NoFuel, r)
  end.

Definition initQueryParam : ST t unit :=
  r ← get;
  if flag_set 1 r then mret tt
  else
    parse_into (fun r => PARSE_PARAM (m_query r) (m_params r) x26 (fun s => Ret s)) setParams;;
    modify (raise_flag 1).

Definition initBodyParam : ST t unit :=
  r ← get;
  if flag_set 2 r then mret tt
  else
    let content_type := getHeader (lit "content-type") [] r in
    if negb (strcasestr content_type (lit "application/x-www-form-urlencoded"))
    then modify (raise_flag 2)
    else
      parse_into (fun r => PARSE_PARAM (m_body r) (m_params r) x26 (fun s => Ret s)) setParams;;
      modify (raise_flag 2).

Definition initCookies : ST t unit :=
  r ← get;
  if flag_set 4 r then mret tt
  else
    let cookie := getHeader (lit "cookie") [] r in
    if bool_decide (cookie = []) then modify (raise_flag 4)
    else
      parse_into (fun r => PARSE_PARAM cookie (m_cookies r) x3b
        (fun s => StringUtil.Trim s StringUtil.default_delimit)) setCookies;;
      modify (raise_flag 4).

Definition initParam : ST t unit :=
  initQueryParam;; initBodyParam;; initCookies.

Definition init (r : t) : t :=
  let conn := getHeader (lit "connection") [] r in
  if bool_decide (conn = []) then r
  else setClose (negb (bool_decide (strcasecmp conn (lit "keep-alive") = Eq))) r.

Definition getParams (key def : list byte) : ST t (list byte) :=
  initQueryParam;; initBodyParam;; gets (fun r => default def (find_key (m_params r) key)).
Definition getCookie (key def : list byte) : ST t (list byte) :=
  initCookies;; gets (fun r => default def (find_key (m_cookies r) key)).
Definition hasParam (key : list byte) : ST t (option (list byte)) :=
  initQueryParam;; initBodyParam;; gets (fun r => find_key (m_params r) key).
Definition hasCookie (key : list byte) : ST t (option (list byte)) :=
  initCookies;; gets (fun r => find_key (m_cookies r) key).
Definition checkGetParamAs {T} (cast : list byte → option T) (key : list byte) (def : T) : ST t (bool * T) :=
  initQueryParam;; initBodyParam;; gets (fun r => checkGetAs cast (m_params r) key def).
Definition getParamAs {T} (cast : list byte → option T) (key : list byte) (def : T) : ST t T :=
  initQueryParam;; initBodyParam;; gets (fun r => getAs cast (m_params r) key def).
Definition checkGetCookieAs {T} (cast : list byte → option T) (key : list byte) (def : T) : ST t (bool * T) :=
  initCookies;; gets (fun r => checkGetAs cast (m_cookies r) key def).
Definition getCookieAs {T} (cast : list byte → option T) (key : list byte) (def : T) : ST t T :=
  initCookies;; gets (fun r => getAs cast (m_cookies r) key def).

Definition toString (r : t) : list byte :=
  HttpMethod.HttpMethodToString (m_method r) ++ lit " " ++ m_path r
  ++ (if bool_decide (m_query r = []) then [] else lit "?") ++ m_query r
  ++ (if bool_decide (m_fragment r = []) then [] else lit "#") ++ m_fragment r
  ++ lit " HTTP/" ++ dec (Z.shiftr (m_version r) 4) ++ lit "." ++ dec (Z.land (m_version r) 15)
  ++ crlf
  ++ (if m_websocket r then []
      else lit "connection:" ++ (if m_close r then lit " close" else lit "keep-alive") ++ crlf)
  ++ flat_map (HttpResponse.header_line (m_websocket r)) (m_headers r)
  ++ (if bool_decide (m_body r = []) then crlf
      else lit "content-length: " ++ dec (Z.of_nat (length (m_body r))) ++ crlf ++ crlf
             ++ m_body r).
End HttpRequest.
