(* ===== verification/HttpSpec.v ===== *)
(** * HTTP maps and parameters: lemmas

    The comparator of the header maps is a strict weak order, and what [PARSE_PARAM] does to
    an encoded parameter list. *)

From S2P Require Import Prelude CString StdOrdered StringUtil StringProps Http.
Import StringUtil.

(** ** Case-insensitive names *)

(** What the comparator sees of a name. *)
Definition low (s : list byte) : list Z := tolower <$> c_str s.
Definition same_name (a b : list byte) : bool := bool_decide (low a = low b).

Fixpoint lexi (a b : list Z) : comparison :=
  match a, b with
  | [], [] => Eq
  | [], _ :: _ => Lt
  | _ :: _, [] => Gt
  | x :: a', y :: b' => match x ?= y with Eq => lexi a' b' | c => c end
  end.

Lemma lexi_eq a : ∀ b, lexi a b = Eq ↔ a = b.
Proof.
  induction a as [|x a IH]; intros [|y b]; simpl; try done.
  destruct (Z.compare_spec x y) as [->| |]; [rewrite IH; naive_solver|split; [done|naive_solver lia]..].
Qed.

Lemma lexi_antisym a : ∀ b, lexi b a = CompOpp (lexi a b).
Proof.
  induction a as [|x a IH]; intros [|y b]; simpl; try done.
  rewrite (Z.compare_antisym x y). destruct (x ?= y); simpl; auto.
Qed.

Lemma lexi_trans a : ∀ b c, lexi a b = Lt → lexi b c = Lt → lexi a c = Lt.
Proof.
  induction a as [|x a IH]; intros [|y b] [|z c]; simpl; try done.
  destruct (Z.compare_spec x y), (Z.compare_spec y z), (Z.compare_spec x z);
    try done; try lia; eauto.
Qed.

Lemma strcasecmp_lexi l r : strcasecmp l r = lexi (low l) (low r).
Proof.
  unfold strcasecmp, low. generalize (c_str l) (c_str r). clear.
  induction l as [|a l IH]; intros [|b r]; csimpl; try done. by rewrite IH.
Qed.

Lemma CaseInsensitiveLess_lexi l r :
  CaseInsensitiveLess l r = true ↔ lexi (low l) (low r) = Lt.
Proof. unfold CaseInsensitiveLess. rewrite strcasecmp_lexi. by destruct (lexi _ _). Qed.

#[global] Instance CaseInsensitiveLess_swo : StrictWeakOrder CaseInsensitiveLess.
Proof.
  split.
  - intros a. apply not_true_iff_false. rewrite CaseInsensitiveLess_lexi.
    by rewrite (proj2 (lexi_eq (low a) (low a))).
  - intros a b c. rewrite !CaseInsensitiveLess_lexi. apply lexi_trans.
  - intros a b c. rewrite <- !not_true_iff_false, !CaseInsensitiveLess_lexi.
    intros Hab Hbc Hac. destruct (lexi (low a) (low b)) eqn:E; [|done|].
    + apply lexi_eq in E. congruence.
    + apply Hbc. rewrite lexi_antisym in E. destruct (lexi (low b) (low a)) eqn:E'; try done.
      by eapply lexi_trans.
Qed.

Lemma equiv_same_name a b : equivb CaseInsensitiveLess a b = same_name a b.
Proof.
  apply Bool.eq_iff_eq_true. rewrite equivb_true, <- !not_true_iff_false, !CaseInsensitiveLess_lexi.
  unfold same_name. rewrite bool_decide_eq_true, <- lexi_eq, (lexi_antisym (low a) (low b)).
  destruct (lexi (low a) (low b)); simpl; naive_solver.
Qed.

Lemma find_key_assign m k v k' :
  find_key (map_assign CaseInsensitiveLess k v m) k'
  = if same_name k' k then Some v else find_key m k'.
Proof. unfold find_key. rewrite map_get_assign by apply _. by rewrite equiv_same_name. Qed.

Lemma find_key_erase m k k' :
  find_key (map_erase CaseInsensitiveLess k m) k'
  = if same_name k' k then None else find_key m k'.
Proof. unfold find_key. rewrite map_get_erase by apply _. by rewrite equiv_same_name. Qed.

Lemma find_key_insert m k v k' :
  map_sorted CaseInsensitiveLess m →
  find_key (map_insert CaseInsensitiveLess k v m) k'
  = if same_name k' k then Some (default v (find_key m k)) else find_key m k'.
Proof. intros. unfold find_key. rewrite map_get_insert by (done || apply _). by rewrite equiv_same_name. Qed.

Lemma find_key_same m k k' : same_name k k' = true → find_key m k = find_key m k'.
Proof. intros H. apply map_get_equiv; [apply _|]. by rewrite equiv_same_name. Qed.

(** ** Parameters *)

(** The loop always ends, and keeps the map a map. *)
Lemma parse_param_loop_total fuel str flag trim : ∀ pos m,
  (∀ s, ∃ s', trim s = Ret s') → (pos <= length str)%nat → (length str - pos < fuel)%nat →
  ∃ m', parse_param_loop fuel str flag trim pos m = Ret m'
    ∧ (map_sorted CaseInsensitiveLess m → map_sorted CaseInsensitiveLess m').
Proof.
  induction fuel as [|fuel IH]; intros pos m Htrim Hpos Hf; [lia|]. cbn [parse_param_loop].
  destruct (str_find str x3d pos) as [key|] eqn:Ek; [|by exists m].
  apply str_find_lt in Ek as [Hk Hke].
  unfold StringUtil.substr. rewrite !decide_True by lia. rewrite bind_Ret.
  destruct (Htrim (str.[pos, key - pos])) as [name ->]. rewrite !bind_Ret. cbv zeta.
  destruct (str_find str flag key) as [p|] eqn:Ep.
  - apply str_find_lt in Ep as [Hp Hpe].
    destruct (IH (p + 1)%nat (map_insert CaseInsensitiveLess name
      (UrlDecode (str.[key + 1, p - key - 1]) true) m)) as (m' & -> & Hm'); [done|lia|lia|].
    exists m'. split; [done|]. intros. by apply Hm', map_insert_sorted, H; apply _.
  - eexists. split; [done|]. intros. by apply map_insert_sorted; [apply _|].
Qed.

Lemma parse_param_total str m flag trim :
  (∀ s, ∃ s', trim s = Ret s') →
  ∃ m', PARSE_PARAM str m flag trim = Ret m'
    ∧ (map_sorted CaseInsensitiveLess m → map_sorted CaseInsensitiveLess m').
Proof. intros. apply parse_param_loop_total; [done|lia|lia]. Qed.

(** A parameter list, and its text: [name=value] with the value encoded, joined by [flag]. *)
Definition field : Type := list byte * list byte.
Definition field_text (f : field) : list byte := f.1 ++ x3d :: UrlEncode f.2 true.
Fixpoint fields_text (flag : byte) (fs : list field) : list byte :=
  match fs with
  | [] => []
  | [f] => field_text f
  | f :: fs' => field_text f ++ flag :: fields_text flag fs'
  end.

(** The first field wins. *)
Fixpoint insert_fields (name : list byte → list byte) (fs : list field) (m : MapType) : MapType :=
  match fs with
  | [] => m
  | f :: fs' => insert_fields name fs' (map_insert CaseInsensitiveLess (name f.1) f.2 m)
  end.

(** A separator the encoder escapes. *)
Definition separator (flag : byte) : Prop := flag = x26 ∨ flag = x3b.

Lemma separator_encoded flag s : separator flag → flag ∉ UrlEncode s true.
Proof.
  intros Hf. rewrite UrlEncode_eq. induction s as [|c s IH]; [set_solver|]. simpl.
  rewrite not_elem_of_app. split; [|done].
  assert (forallb (fun d => negb (Byte.eqb x26 d) && negb (Byte.eqb x3b d))
    (encode_char true c) = true) as H by (revert c; by apply byte_forall).
  intros Hin%list_elem_of_In. rewrite forallb_forall in H. apply H in Hin.
  destruct Hf as [-> | ->]; rewrite eqb_refl in Hin; [done|by rewrite andb_false_r in Hin].
Qed.

Lemma parse_one fuel pre f flag trim name m rest :
  separator flag → x3d ∉ f.1 → trim f.1 = Ret name → rest = [] ∨ head rest = Some flag →
  parse_param_loop (S fuel) (pre ++ field_text f ++ rest) flag trim (length pre) m
  = let m' := map_insert CaseInsensitiveLess name f.2 m in
    match rest with
    | [] => Ret m'
    | _ :: _ => parse_param_loop fuel (pre ++ field_text f ++ rest) flag trim
                  (length (pre ++ field_text f) + 1) m'
    end.
Proof.
  intros Hflag Heq Htrim Hrest. cbn [parse_param_loop]. unfold field_text.
  set (val := UrlEncode f.2 true). set (str := pre ++ (f.1 ++ x3d :: val) ++ rest).
  assert (str = pre ++ f.1 ++ x3d :: (val ++ rest)) as E1
    by (unfold str; by rewrite <- !app_assoc).
  assert (str = (pre ++ f.1) ++ (x3d :: val) ++ rest) as E2
    by (unfold str; by rewrite <- !app_assoc).
  assert (str = (pre ++ f.1 ++ [x3d]) ++ val ++ rest) as E3
    by (unfold str; by rewrite <- !app_assoc).
  assert (flag ≠ x3d) as Hne by (by destruct Hflag as [-> | ->]).
  assert (flag ∉ x3d :: val) as Hval
    by (apply not_elem_of_cons; split; [done|by apply separator_encoded]).
  assert (str_find str x3d (length pre) = Some (length pre + length f.1)%nat) as ->
    by (rewrite E1; by apply str_find_app).
  assert (length str = length pre + length f.1 + 1 + length val + length rest)%nat as Hlen
    by (rewrite E3, !length_app; simpl; lia).
  unfold StringUtil.substr. rewrite !decide_True by lia. rewrite bind_Ret.
  assert (str.[length pre, length pre + length f.1 - length pre] = f.1) as ->.
  { rewrite E1, drop_app_length, Nat.add_comm, Nat.add_sub. apply take_app_length. }
  rewrite Htrim, !bind_Ret. cbv zeta.
  replace (length pre + length f.1 + 1)%nat with (length (pre ++ f.1 ++ [x3d]))
    by (rewrite !length_app; simpl; lia).
  rewrite <- (length_app pre f.1).
  assert (UrlDecode val true = f.2) as Hd by apply decode_encoded.
  destruct rest as [|c rest].
  - rewrite E2, app_nil_r, str_find_None, <- (app_nil_r ((pre ++ f.1) ++ _)) by done.
    replace ((pre ++ f.1) ++ x3d :: val) with ((pre ++ f.1 ++ [x3d]) ++ val)
      by (by rewrite <- !app_assoc).
    rewrite app_nil_r, drop_app_length, take_ge by (rewrite !length_app; lia).
    by rewrite Hd.
  - destruct Hrest as [|[= ->]]; [done|].
    assert (str_find str flag (length (pre ++ f.1))
      = Some (length (pre ++ f.1) + length (x3d :: val))%nat) as ->
      by (rewrite E2; by apply str_find_app).
    assert (str.[length (pre ++ f.1 ++ [x3d]),
      length (pre ++ f.1) + length (x3d :: val) - length (pre ++ f.1) - 1] = val) as ->.
    { rewrite E3, drop_app_length.
      replace (_ - _ - 1)%nat with (length val) by (simpl; lia). apply take_app_length. }
    rewrite Hd.
    f_equal. rewrite !length_app. simpl. rewrite ?length_app. simpl. lia.
Qed.

Lemma fields_text_cons flag f fs :
  fields_text flag (f :: fs)
  = field_text f ++ match fs with [] => [] | _ :: _ => flag :: fields_text flag fs end.
Proof. destruct fs; simpl; [by rewrite app_nil_r|done]. Qed.

Lemma parse_fields fuel flag trim name fs : ∀ pre m,
  separator flag → Forall (fun f => x3d ∉ f.1 ∧ trim f.1 = Ret (name f.1)) fs →
  (length (fields_text flag fs) < fuel)%nat →
  parse_param_loop fuel (pre ++ fields_text flag fs) flag trim (length pre) m
  = Ret (insert_fields name fs m).
Proof.
  revert fuel. induction fs as [|f fs IH]; intros fuel pre m Hflag Hfs Hf.
  { destruct fuel; [simpl in Hf; lia|]. simpl. by rewrite str_find_None by set_solver. }
  apply Forall_cons in Hfs as [[Heq Htrim] Hfs].
  destruct fuel as [|fuel]; [lia|]. rewrite fields_text_cons in *.
  rewrite (parse_one fuel pre f flag trim (name f.1)); [|done..|].
  2: { destruct fs; [by left|by right]. }
  cbv zeta. destruct fs as [|g fs]; [done|]. cbn [insert_fields].
  set (rest := fields_text flag (g :: fs)) in *.
  replace (pre ++ field_text f ++ flag :: rest) with ((pre ++ field_text f ++ [flag]) ++ rest)
    by (by rewrite <- !app_assoc).
  replace (length (pre ++ field_text f) + 1)%nat with (length (pre ++ field_text f ++ [flag]))
    by (rewrite !length_app; simpl; lia).
  apply IH; [done..|]. rewrite length_app in Hf. simpl in Hf. lia.
Qed.

Lemma PARSE_PARAM_fields flag trim name fs m :
  separator flag → Forall (fun f => x3d ∉ f.1 ∧ trim f.1 = Ret (name f.1)) fs →
  PARSE_PARAM (fields_text flag fs) m flag trim = Ret (insert_fields name fs m).
Proof. intros. apply (parse_fields _ flag trim name fs []); [done..|lia]. Qed.

(** What a lookup finds afterwards. *)
Definition first_field (name : list byte → list byte) (k : list byte) (fs : list field)
    : option (list byte) :=
  snd <$> find (fun f => same_name k (name f.1)) fs.

Lemma insert_fields_sorted name fs : ∀ m,
  map_sorted CaseInsensitiveLess m → map_sorted CaseInsensitiveLess (insert_fields name fs m).
Proof.
  induction fs as [|f fs IH]; intros m Hm; [done|]. by apply IH, map_insert_sorted; [apply _|].
Qed.

Lemma find_insert_fields name k fs : ∀ m,
  map_sorted CaseInsensitiveLess m →
  find_key (insert_fields name fs m) k
  = match find_key m k with Some v => Some v | None => first_field name k fs end.
Proof.
  induction fs as [|f fs IH]; intros m Hm; [simpl; by destruct (find_key m k)|].
  cbn [insert_fields]. rewrite IH by (by apply map_insert_sorted; [apply _|]).
  rewrite find_key_insert by done. unfold first_field. simpl.
  destruct (same_name k (name f.1)) eqn:E; [|done].
  rewrite (find_key_same m k (name f.1)) by done.
  by destruct (find_key m (name f.1)).
Qed.
