(* ===== verification/HttpProps.v ===== *)
(** * What the HTTP messages guarantee

    Header maps, method names and the lazily parsed parameters of a request. *)

From S2P Require Import Prelude CString StdOrdered StringUtil StringProps Http HttpSpec.
Import HttpRequest.

(** A form body is parsed as parameters. *)
Definition is_form (r : t) : bool :=
  strcasestr (getHeader (lit "content-type") [] r) (lit "application/x-www-form-urlencoded").

(** A cookie's name, without the space behind the separator. *)
Definition trimmed (s : list byte) : list byte :=
  match StringUtil.Trim s StringUtil.default_delimit with Ret m => m | _ => [] end.

Definition maps_sorted (r : t) : Prop :=
  map_sorted CaseInsensitiveLess (m_headers r) ∧ map_sorted CaseInsensitiveLess (m_params r)
  ∧ map_sorted CaseInsensitiveLess (m_cookies r).

(** ** Flags *)

Lemma flag_set_raise b r : 0 < b → flag_set b (raise_flag b r) = true.
Proof.
  intros Hb. unfold flag_set, raise_flag. cbn [set_flag m_parserParamFlag].
  apply negb_true_iff, Z.eqb_neq. rewrite Z.land_lor_distr_l, Z.land_diag.
  intros [_ ?]%Z.lor_eq_0_iff. lia.
Qed.

Lemma flag_set_mono b b' r : flag_set b r = true → flag_set b (raise_flag b' r) = true.
Proof.
  unfold flag_set, raise_flag. cbn [set_flag m_parserParamFlag].
  rewrite !negb_true_iff, !Z.eqb_neq, Z.land_lor_distr_l.
  intros H [H' _]%Z.lor_eq_0_iff. done.
Qed.

(** ** The three parsers *)

(** A parser that is done leaves the object alone. *)
Lemma parsed_noop r :
  (flag_set 1 r = true → initQueryParam r = (Ret tt, r))
  ∧ (flag_set 2 r = true → initBodyParam r = (Ret tt, r))
  ∧ (flag_set 4 r = true → initCookies r = (Ret tt, r)).
Proof.
  unfold initQueryParam, initBodyParam, initCookies.
  split_and!; intros H; st_run reflexivity; by rewrite H.
Qed.

Lemma parse_into_ok parse store r m :
  parse r = Ret m → parse_into parse store r = (Ret tt, store m r).
Proof. unfold parse_into. by intros ->. Qed.

(** What every parser preserves, and the flag it leaves. *)
Definition parsed_from (bit : Z) (r r' : t) : Prop :=
  flag_set bit r' = true ∧ (∀ b, flag_set b r = true → flag_set b r' = true)
  ∧ m_headers r' = m_headers r ∧ (maps_sorted r → maps_sorted r').

Lemma parsed_from_raise bit r r' :
  0 < bit → m_parserParamFlag r' = m_parserParamFlag r → m_headers r' = m_headers r →
  (maps_sorted r → maps_sorted r') → parsed_from bit r (raise_flag bit r').
Proof.
  intros Hb Hf Hh Hs. unfold parsed_from. split_and!; [by apply flag_set_raise| |done|done].
  intros b H. apply flag_set_mono. unfold flag_set in *. by rewrite Hf.
Qed.

Lemma parsed_from_refl bit r : flag_set bit r = true → parsed_from bit r r.
Proof. intros H. unfold parsed_from. auto. Qed.

Lemma initQueryParam_total r : ∃ r', initQueryParam r = (Ret tt, r') ∧ parsed_from 1 r r'.
Proof.
  destruct (flag_set 1 r) eqn:E.
  { exists r. split; [by apply parsed_noop|by apply parsed_from_refl]. }
  unfold initQueryParam. st_run reflexivity. rewrite E.
  destruct (parse_param_total (m_query r) (m_params r) x26 (fun s => Ret s)) as (m & Em & Hm);
    [eauto|].
  st_run (by apply parse_into_ok). eexists. split; [done|].
  apply parsed_from_raise; try done. unfold maps_sorted. simpl. tauto.
Qed.

Lemma initBodyParam_total r : ∃ r', initBodyParam r = (Ret tt, r') ∧ parsed_from 2 r r'.
Proof.
  destruct (flag_set 2 r) eqn:E.
  { exists r. split; [by apply parsed_noop|by apply parsed_from_refl]. }
  unfold initBodyParam. st_run reflexivity. rewrite E. cbv zeta.
  destruct (strcasestr _ _); simpl.
  2: { eexists. split; [done|]. by apply parsed_from_raise. }
  destruct (parse_param_total (m_body r) (m_params r) x26 (fun s => Ret s)) as (m & Em & Hm);
    [eauto|].
  st_run (by apply parse_into_ok). eexists. split; [done|].
  apply parsed_from_raise; try done. unfold maps_sorted. simpl. tauto.
Qed.

Lemma initCookies_total r : ∃ r', initCookies r = (Ret tt, r') ∧ parsed_from 4 r r'.
Proof.
  destruct (flag_set 4 r) eqn:E.
  { exists r. split; [by apply parsed_noop|by apply parsed_from_refl]. }
  unfold initCookies. st_run reflexivity. rewrite E. cbv zeta.
  case_bool_decide.
  { eexists. split; [done|]. by apply parsed_from_raise. }
  destruct (parse_param_total (getHeader (lit "cookie") [] r) (m_cookies r) x3b
    (fun s => StringUtil.Trim s StringUtil.default_delimit)) as (m & Em & Hm);
    [intros; apply Trim_total|].
  st_run (by apply parse_into_ok). eexists. split; [done|].
  apply parsed_from_raise; try done. unfold maps_sorted. simpl. tauto.
Qed.

Lemma initParam_total r :
  ∃ r', initParam r = (Ret tt, r') ∧ flag_set 1 r' = true ∧ flag_set 2 r' = true
    ∧ flag_set 4 r' = true ∧ (maps_sorted r → maps_sorted r').
Proof.
  destruct (initQueryParam_total r) as (r1 & E1 & H1 & _ & _ & S1).
  destruct (initBodyParam_total r1) as (r2 & E2 & H2 & M2 & _ & S2).
  destruct (initCookies_total r2) as (r3 & E3 & H3 & M3 & _ & S3).
  exists r3. unfold initParam. st_run exact E1. st_run exact E2.
  split_and!; auto.
Qed.

Lemma trim_trimmed s : StringUtil.Trim s StringUtil.default_delimit = Ret (trimmed s).
Proof. unfold trimmed. by destruct (Trim_total s StringUtil.default_delimit) as [m ->]. Qed.

(** ** Parsing an encoded list *)

Definition plain_names (fs : list field) : Prop := Forall (fun f => x3d ∉ f.1) fs.

Lemma initQueryParam_fields r fs :
  flag_set 1 r = false → m_query r = fields_text x26 fs → plain_names fs →
  initQueryParam r = (Ret tt, raise_flag 1 (setParams (insert_fields id fs (m_params r)) r)).
Proof.
  intros Hf Hq Hfs. unfold initQueryParam. st_run reflexivity. rewrite Hf.
  st_run (apply parse_into_ok; rewrite Hq; apply PARSE_PARAM_fields with (name := id);
    [by left|eapply Forall_impl; [exact Hfs|done]]). done.
Qed.

Lemma initBodyParam_fields r fs :
  flag_set 2 r = false → is_form r = true → m_body r = fields_text x26 fs → plain_names fs →
  initBodyParam r = (Ret tt, raise_flag 2 (setParams (insert_fields id fs (m_params r)) r)).
Proof.
  intros Hf Hform Hq Hfs. unfold initBodyParam. st_run reflexivity. rewrite Hf. cbv zeta.
  unfold is_form in Hform. rewrite Hform. cbn [negb].
  st_run (apply parse_into_ok; rewrite Hq; apply PARSE_PARAM_fields with (name := id);
    [by left|eapply Forall_impl; [exact Hfs|done]]). done.
Qed.

Lemma initBodyParam_none r :
  flag_set 2 r = false → is_form r = false → initBodyParam r = (Ret tt, raise_flag 2 r).
Proof.
  intros Hf Hform. unfold initBodyParam. st_run reflexivity. rewrite Hf. cbv zeta.
  unfold is_form in Hform. by rewrite Hform.
Qed.

Lemma initCookies_fields r fs :
  flag_set 4 r = false → fs ≠ [] → getHeader (lit "cookie") [] r = fields_text x3b fs →
  plain_names fs →
  initCookies r
  = (Ret tt, raise_flag 4 (setCookies (insert_fields trimmed fs (m_cookies r)) r)).
Proof.
  intros Hf Hne Hq Hfs. unfold initCookies. st_run reflexivity. rewrite Hf. cbv zeta.
  rewrite bool_decide_eq_false_2.
  2: { rewrite Hq. destruct fs as [|f fs]; [done|]. rewrite fields_text_cons. unfold field_text.
       by destruct f as [[|] ?]. }
  st_run (apply parse_into_ok; rewrite Hq; apply PARSE_PARAM_fields with (name := trimmed);
    [by right|eapply Forall_impl; [exact Hfs|intros f Hx; split; [done|apply trim_trimmed]]]).
  done.
Qed.

Lemma first_field_app name k fs gs :
  first_field name k (fs ++ gs)
  = match first_field name k fs with Some v => Some v | None => first_field name k gs end.
Proof.
  unfold first_field. induction fs as [|f fs IH]; simpl; [done|].
  by destruct (same_name k (name f.1)).
Qed.

(** ** Methods *)

Lemma find_sound {A} (p : A → bool) l e : find p l = Some e → e ∈ l ∧ p e = true.
Proof. intros H. apply find_some in H as [H1 H2]. split; [by apply list_elem_of_In|done]. Qed.

Lemma method_table e :
  e ∈ HttpMethod.HTTP_METHOD_MAP →
  HttpMethod.HttpMethodToString e.1.2 = e.2 ∧ e.1.2 ≠ HttpMethod.INVALID_METHOD.
Proof.
  intros H. unfold HttpMethod.HTTP_METHOD_MAP in H.
  repeat (apply elem_of_cons in H as [->|H]; [by vm_compute|]).
  by apply not_elem_of_nil in H.
Qed.

Lemma method_prefix m rest :
  m ≠ HttpMethod.INVALID_METHOD →
  HttpMethod.CharsToHttpMethod (HttpMethod.HttpMethodToString m ++ rest) = m.
Proof.
  intros Hm. unfold HttpMethod.CharsToHttpMethod.
  assert (x00 ∉ HttpMethod.HttpMethodToString m) as H0.
  { rewrite list_elem_of_In. intros Hin.
    assert (existsb (Byte.eqb x00) (HttpMethod.HttpMethodToString m) = true) as He
      by (apply existsb_exists; by exists x00).
    by destruct m. }
  rewrite c_str_app by done.
  destruct m; [vm_compute; reflexivity..|done].
Qed.

Section contract.

(** Header, parameter and cookie names are compared without case, up to a zero byte: setting
    a field makes exactly the equal names find the new value, deleting it makes exactly
    those find nothing, other names are untouched, and the maps stay sorted. *)
Theorem header_fields (r : t) (rsp : HttpResponse.t) (k v k' def : list byte) :
  getHeader k' def (setHeader k v r) = (if same_name k' k then v else getHeader k' def r)
  ∧ getHeader k' def (delHeader k r) = (if same_name k' k then def else getHeader k' def r)
  ∧ HttpResponse.getHeader k' def (HttpResponse.setHeader k v rsp)
    = (if same_name k' k then v else HttpResponse.getHeader k' def rsp)
  ∧ HttpResponse.getHeader k' def (HttpResponse.delHeader k rsp)
    = (if same_name k' k then def else HttpResponse.getHeader k' def rsp)
  ∧ (maps_sorted r → maps_sorted (setHeader k v r) ∧ maps_sorted (delHeader k r)
     ∧ maps_sorted (setParam k v r) ∧ maps_sorted (delParam k r)
     ∧ maps_sorted (setCookie k v r) ∧ maps_sorted (delCookie k r)).
Proof.
  unfold getHeader, setHeader, delHeader, HttpResponse.getHeader, HttpResponse.setHeader,
    HttpResponse.delHeader, maps_sorted. simpl.
  rewrite !find_key_assign, !find_key_erase.
  split_and!; try (by destruct (same_name k' k)).
  intros (H1 & H2 & H3).
  split_and!; try done; first [by apply map_assign_sorted; [apply _|] | by apply map_erase_sorted].
Qed.

(** The method tables: every method's name reads back as the method, alone and in front of
    any other text; and what [CharsToHttpMethod] recognises only starts with the name (so
    [GETX] is [GET]), while [StringToHttpMethod] accepts nothing but the name. *)
Theorem http_methods (m : HttpMethod.t) (rest s : list byte) :
  (m ≠ HttpMethod.INVALID_METHOD →
    HttpMethod.StringToHttpMethod (HttpMethod.HttpMethodToString m) = m
    ∧ HttpMethod.CharsToHttpMethod (HttpMethod.HttpMethodToString m ++ rest) = m
    ∧ (HttpMethod.StringToHttpMethod s = m → c_str s = HttpMethod.HttpMethodToString m)
    ∧ (HttpMethod.CharsToHttpMethod s = m → HttpMethod.HttpMethodToString m `prefix_of` c_str s)).
Proof.
  intros Hm. split_and!.
  - by destruct m; [vm_compute; reflexivity..|].
  - by apply method_prefix.
  - unfold HttpMethod.StringToHttpMethod. destruct (find _ _) as [e|] eqn:E; [|by intros <-].
    apply find_sound in E as [He Hp%bool_decide_eq_true].
    intros <-. by rewrite (proj1 (method_table e He)).
  - unfold HttpMethod.CharsToHttpMethod. destruct (find _ _) as [e|] eqn:E; [|by intros <-].
    apply find_sound in E as [He Hp%bool_decide_eq_true].
    intros <-. by rewrite (proj1 (method_table e He)).
Qed.

(** Whatever a client sent as query, body and cookies, [initParam] terminates without an
    exception, keeps the maps maps, and parses only once: a second call changes nothing. *)
Theorem initParam_total_idempotent (r : t) :
  ∃ r', initParam r = (Ret tt, r') ∧ (maps_sorted r → maps_sorted r')
    ∧ initParam r' = (Ret tt, r').
Proof.
  destruct (initParam_total r) as (r' & E & H1 & H2 & H4 & Hs).
  exists r'. split_and!; [done|done|]. unfold initParam.
  destruct (parsed_noop r') as (N1 & N2 & N4).
  st_run (by apply N1). st_run (by apply N2). by apply N4.
Qed.

(** C40. Parameters survive the wire: for a query (and a form body) written as [name=value] pairs
    with encoded values joined by [&], [getParams] returns the value of the first field of
    that name, the query before the body; likewise for cookies joined by [;], whose names
    are trimmed. *)
Theorem parameters_roundtrip (r : t) (query body cookies : list field) (k def : list byte) :
  m_parserParamFlag r = 0 → m_params r = [] → m_cookies r = [] →
  plain_names query → plain_names body → plain_names cookies → cookies ≠ [] →
  m_query r = fields_text x26 query → m_body r = fields_text x26 body →
  getHeader (lit "cookie") [] r = fields_text x3b cookies →
  (getParams k def r).1
    = Ret (default def (first_field id k (query ++ if is_form r then body else [])))
  ∧ (getCookie k def r).1 = Ret (default def (first_field trimmed k cookies)).
Proof.
  intros Hf Hp Hc Hq Hb Hk Hne Eq Eb Ek.
  assert (∀ b, flag_set b r = false) as Hfl by (intros; unfold flag_set; by rewrite Hf).
  split.
  - unfold getParams. st_run (by apply (initQueryParam_fields r query)).
    set (r1 := raise_flag 1 _).
    assert (flag_set 2 r1 = false) as Hf2.
    { unfold flag_set, r1, raise_flag. simpl. by rewrite Hf. }
    assert (is_form r1 = is_form r) as Hform by done.
    assert (map_sorted CaseInsensitiveLess (m_params r1)) as Hs.
    { apply insert_fields_sorted. rewrite Hp. constructor. }
    assert (∀ k, find_key (m_params r1) k = first_field id k query) as Hfind.
    { intros. simpl. rewrite Hp, find_insert_fields by constructor. done. }
    destruct (is_form r) eqn:E.
    + st_run (by apply (initBodyParam_fields r1 body)). unfold gets. simpl. rewrite Hp.
      rewrite find_insert_fields, find_insert_fields, first_field_app
        by (try apply insert_fields_sorted; constructor). done.
    + st_run (by apply initBodyParam_none). unfold gets. simpl.
      rewrite Hp, find_insert_fields, app_nil_r by constructor. done.
  - unfold getCookie. st_run (by apply (initCookies_fields r cookies)). unfold gets. simpl.
    rewrite Hc, find_insert_fields by constructor. done.
Qed.
End contract.

(** ** Concrete instances *)

Definition sample_request : t :=
  setHeader (lit "Cookie") (fields_text x3b [(lit "sid", lit "a;b"); (lit " lang", lit "en")])
    (setBody (fields_text x26 [(lit "q", lit "second")])
      (setQuery (fields_text x26 [(lit "q", lit "x & y"); (lit "n", lit "1=1")])
        (make 17 true))).

Lemma parameters_roundtrip_witness :
  (getParams (lit "Q") [] sample_request).1 = Ret (lit "x & y")
  ∧ (getCookie (lit "LANG") [] sample_request).1 = Ret (lit "en").
Proof.
  pose proof (fun k => parameters_roundtrip sample_request
    [(lit "q", lit "x & y"); (lit "n", lit "1=1")] [(lit "q", lit "second")]
    [(lit "sid", lit "a;b"); (lit " lang", lit "en")] k []) as H.
  split; [apply (H (lit "Q"))|apply (H (lit "LANG"))];
    try reflexivity; try discriminate; unfold plain_names;
    apply (bool_decide_eq_true_1 _); vm_compute; reflexivity.
Defined.

Lemma http_methods_witness :
  HttpMethod.CharsToHttpMethod (lit "GETX") = HttpMethod.GET.
Proof. apply (http_methods HttpMethod.GET (lit "X") []). discriminate. Defined.
