(* ===== verification/Http11Parser.v ===== *)
(** * The request parser (sylar/http/http11_parser.c, sylar/http/http11_parser.h)

    [http_parser_execute] interprets the tables of [Http11Tables]: for every character it widens
    the character where a state has conditional keys, searches the keys of the state, moves to
    the target and runs the actions of the transition. Positions are offsets from [buffer]; an
    access outside a table is [Undef]. The callbacks of the parser are functions on the user's
    data; they get the buffer from the pointer on, and the length. *)

From S2P Require Import Prelude CString Http11Tables.

(** [t[i]], and the [n] elements from [t + i] on. *)
Definition at_index (t : list Z) (i : Z) : outcome Z :=
  if i <? 0 then Undef else match t !! Z.to_nat i with Some v => Ret v | None => Undef end.
Definition slice (t : list Z) (i n : Z) : outcome (list Z) :=
  if (i <? 0) || (Z.of_nat (length t) <? i + n) then Undef else Ret (t.[Z.to_nat i, Z.to_nat n]).

(** The loop over the single keys: the index of the key that equals [widec]. *)
Fixpoint search_single (fuel : nat) (keys : list Z) (widec lower upper : Z) : outcome (option Z) :=
  match fuel with
  | O => NoFuel
  | S fuel =>
      if upper <? lower then Ret None
      else
        let mid := lower + Z.shiftr (upper - lower) 1 in
        k ← at_index keys mid;
        if widec <? k then search_single fuel keys widec lower (mid - 1)
        else if k <? widec then search_single fuel keys widec (mid + 1) upper
        else Ret (Some mid)
  end.

(** The loop over pairs of keys: the index of the pair whose range holds [widec]. *)
Fixpoint search_range (fuel : nat) (keys : list Z) (widec lower upper : Z) : outcome (option Z) :=
  match fuel with
  | O => NoFuel
  | S fuel =>
      if upper <? lower then Ret None
      else
        let mid := lower + Z.land (Z.shiftr (upper - lower) 1) (Z.lnot 1) in
        k0 ← at_index keys mid;
        k1 ← at_index keys (mid + 1);
        if widec <? k0 then search_range fuel keys widec lower (mid - 2)
        else if k1 <? widec then search_range fuel keys widec (mid + 2) upper
        else Ret (Some mid)
  end.

(** [_widec]: in a state with conditional keys these characters move out of the range of a
    [char], to one place when [uri_relaxed] is off and to another when it is on. *)
Definition widen (uri_relaxed : Z) (cs c : Z) : outcome Z :=
  klen ← at_index _http_parser_cond_lengths cs;
  off ← at_index _http_parser_cond_offsets cs;
  if 0 <? klen then
    keys ← slice _http_parser_cond_keys (off * 2) (klen * 2);
    m ← search_range (S (length keys)) keys c 0 (Z.shiftl klen 1 - 2);
    match m with
    | None => Ret c
    | Some mid =>
        space ← at_index _http_parser_cond_spaces (off + Z.shiftr mid 1);
        if space =? 0
        then Ret (s16 (128 + (c - -128)) + if uri_relaxed =? 0 then 0 else 256)
        else Ret c
    end
  else Ret c.

(** [_trans] at the label [_match]. *)
Definition match_keys (cs widec : Z) : outcome Z :=
  keys ← at_index _http_parser_key_offsets cs;
  trans ← at_index _http_parser_index_offsets cs;
  klen ← at_index _http_parser_single_lengths cs;
  single ← (if 0 <? klen then
              k ← slice _http_parser_trans_keys keys klen;
              search_single (S (length k)) k widec 0 (klen - 1)
            else Ret None);
  match single with
  | Some mid => Ret (trans + mid)
  | None =>
      let keys := keys + klen in
      let trans := trans + klen in
      klen ← at_index _http_parser_range_lengths cs;
      range ← (if 0 <? klen then
                 k ← slice _http_parser_trans_keys keys (klen * 2);
                 search_range (S (length k)) k widec 0 (Z.shiftl klen 1 - 2)
               else Ret None);
      match range with
      | Some mid => Ret (trans + Z.shiftr mid 1)
      | None => Ret (trans + klen)
      end
  end.

(** The target of the transition on the character [c], and its actions. *)
Definition transition (uri_relaxed cs c : Z) : outcome (Z * list Z) :=
  widec ← widen uri_relaxed cs c;
  trans ← match_keys cs widec;
  trans ← at_index _http_parser_indicies trans;
  cs ← at_index _http_parser_trans_targs trans;
  a ← at_index _http_parser_trans_actions trans;
  if a =? 0 then Ret (cs, [])
  else
    nacts ← at_index _http_parser_actions a;
    acts ← slice _http_parser_actions (a + 1) nacts;
    Ret (cs, acts).

(** ** The parser *)

Record http_parser := mk_parser {
  cs : Z;
  body_start : Z;
  content_len : Z;
  nread : Z;
  mark : Z;
  field_start : Z;
  field_len : Z;
  query_start : Z;
  xml_sent : Z;
  json_sent : Z;
  uri_relaxed : Z;
}.

Definition set_cs (v : Z) (p : http_parser) : http_parser :=
  mk_parser v (body_start p) (content_len p) (nread p) (mark p) (field_start p) (field_len p)
    (query_start p) (xml_sent p) (json_sent p) (uri_relaxed p).
Definition set_body (start len : Z) (p : http_parser) : http_parser :=
  mk_parser (cs p) start len (nread p) (mark p) (field_start p) (field_len p)
    (query_start p) (xml_sent p) (json_sent p) (uri_relaxed p).
Definition set_nread (v : Z) (p : http_parser) : http_parser :=
  mk_parser (cs p) (body_start p) (content_len p) v (mark p) (field_start p) (field_len p)
    (query_start p) (xml_sent p) (json_sent p) (uri_relaxed p).
Definition set_mark (v : Z) (p : http_parser) : http_parser :=
  mk_parser (cs p) (body_start p) (content_len p) (nread p) v (field_start p) (field_len p)
    (query_start p) (xml_sent p) (json_sent p) (uri_relaxed p).
Definition set_field_start (v : Z) (p : http_parser) : http_parser :=
  mk_parser (cs p) (body_start p) (content_len p) (nread p) (mark p) v (field_len p)
    (query_start p) (xml_sent p) (json_sent p) (uri_relaxed p).
Definition set_field_len (v : Z) (p : http_parser) : http_parser :=
  mk_parser (cs p) (body_start p) (content_len p) (nread p) (mark p) (field_start p) v
    (query_start p) (xml_sent p) (json_sent p) (uri_relaxed p).
Definition set_query_start (v : Z) (p : http_parser) : http_parser :=
  mk_parser (cs p) (body_start p) (content_len p) (nread p) (mark p) (field_start p) (field_len p)
    v (xml_sent p) (json_sent p) (uri_relaxed p).
Definition set_xml_sent (v : Z) (p : http_parser) : http_parser :=
  mk_parser (cs p) (body_start p) (content_len p) (nread p) (mark p) (field_start p) (field_len p)
    (query_start p) v (json_sent p) (uri_relaxed p).
Definition set_json_sent (v : Z) (p : http_parser) : http_parser :=
  mk_parser (cs p) (body_start p) (content_len p) (nread p) (mark p) (field_start p) (field_len p)
    (query_start p) (xml_sent p) v (uri_relaxed p).

(** The fields it leaves alone, [query_start] and [uri_relaxed], keep what the memory held. *)
Definition http_parser_init (p : http_parser) : http_parser :=
  mk_parser http_parser_start 0 0 0 0 0 0 (query_start p) 0 0 (uri_relaxed p).

Definition http_parser_has_error (p : http_parser) : bool := cs p =? http_parser_error.
Definition http_parser_is_finished (p : http_parser) : bool := http_parser_first_final <=? cs p.
Definition http_parser_finish (p : http_parser) : Z :=
  if http_parser_has_error p then -1 else if http_parser_is_finished p then 1 else 0.

Section execute.
Context {D : Type}.

(** [element_cb] and [field_cb]; a null pointer is [None]. *)
Definition element_cb : Type := option (D → list byte → Z → D).
Definition field_cb : Type := option (D → list byte → Z → list byte → Z → D).

Record callbacks := mk_callbacks {
  http_field : field_cb;
  request_method : element_cb;
  request_uri : element_cb;
  fragment : element_cb;
  request_path : element_cb;
  query_string : element_cb;
  http_version : element_cb;
  header_done : element_cb;
}.

Context (cb : callbacks) (buffer : list byte).

(** [PTR_TO(F)], and [LEN(AT, FPC)]. *)
Definition ptr_to (f : Z) : list byte := drop (Z.to_nat f) buffer.
Definition len_from (f p : Z) : Z := u64 (p - f).

Definition call (f : element_cb) (at_ len : Z) (d : D) : D :=
  match f with Some g => g d (ptr_to at_) len | None => d end.

(** One action at the position [p], [pe] the end of the buffer; the flag says that it left the
    loop, behind this character. *)
Definition action (pe p a : Z) (s : http_parser * D) : (http_parser * D) * bool :=
  let '(h, d) := s in
  if a =? 0 then ((set_mark p h, d), false)
  else if a =? 1 then ((set_field_start p h, d), false)
  else if a =? 2 then ((set_field_len (len_from (field_start h) p) h, d), false)
  else if a =? 3 then ((set_mark p h, d), false)
  else if a =? 4 then
    ((h, match http_field cb with
         | Some g => g d (ptr_to (field_start h)) (field_len h) (ptr_to (mark h))
                       (len_from (mark h) p)
         | None => d
         end), false)
  else if a =? 5 then ((h, call (request_method cb) (mark h) (len_from (mark h) p) d), false)
  else if a =? 6 then ((h, call (request_uri cb) (mark h) (len_from (mark h) p) d), false)
  else if a =? 7 then ((h, call (fragment cb) (mark h) (len_from (mark h) p) d), false)
  else if a =? 8 then ((set_query_start p h, d), false)
  else if a =? 9 then
    ((h, call (query_string cb) (query_start h) (len_from (query_start h) p) d), false)
  else if a =? 10 then ((h, call (http_version cb) (mark h) (len_from (mark h) p) d), false)
  else if a =? 11 then ((h, call (request_path cb) (mark h) (len_from (mark h) p) d), false)
  else if a =? 12 then
    if negb (xml_sent h =? 0) || negb (json_sent h =? 0) then
      ((set_body (mark h) (s32 (p - mark h + 1)) h, d), true)
    else
      ((set_body (p + 1) (content_len h) h, call (header_done cb) (p + 1) (pe - p - 1) d), true)
  else if a =? 13 then ((set_xml_sent 1 h, d), false)
  else if a =? 14 then ((set_json_sent 1 h, d), false)
  else ((h, d), false).

Fixpoint actions (pe p : Z) (acts : list Z) (s : http_parser * D) : (http_parser * D) * bool :=
  match acts with
  | [] => (s, false)
  | a :: acts =>
      let '(s, out) := action pe p a s in if out then (s, true) else actions pe p acts s
  end.

(** From [_resume] to [_out], [rest] the characters from [p] on: where it stops, in what state. *)
Fixpoint resume (pe : Z) (rest : list byte) (p cs : Z) (s : http_parser * D)
    : outcome (Z * Z * (http_parser * D)) :=
  match rest with
  | [] => Ret (p, cs, s)
  | c :: rest =>
      t ← transition (uri_relaxed s.1) cs (char_of c);
      let '(s, out) := actions pe p t.2 s in
      if out then Ret (p + 1, t.1, s)
      else if t.1 =? 0 then Ret (p, t.1, s)
      else resume pe rest (p + 1) t.1 s
  end.

(** [http_parser_execute(parser, buffer, len, off)], [buffer] holding [len] characters. *)
Definition http_parser_execute (off : Z) (s : http_parser * D) : outcome (Z * (http_parser * D)) :=
  let len := Z.of_nat (length buffer) in
  if len =? 0 then Ret (0, s)
  else
    sylar_assert (off <=? len);;
    sylar_assert (len - off =? s32 len - s32 off);;
    r ← (if cs s.1 =? 0 then Ret (off, 0, s)
         else resume len (drop (Z.to_nat off) buffer) off (cs s.1) s);
    let '(p, cs', (h, d)) := r in
    sylar_assert (p <=? len);;
    let h := if http_parser_has_error h then h else set_cs cs' h in
    let h := set_nread (u64 (nread h + (p - off))) h in
    sylar_assert (nread h <=? len);;
    sylar_assert (body_start h <=? len);;
    sylar_assert (mark h <? len);;
    sylar_assert (field_len h <=? len);;
    sylar_assert (field_start h <? len);;
    Ret (nread h, (h, d)).
End execute.
Arguments callbacks : clear implicits.
Arguments mk_callbacks {D}.
