(* ===== verification/Http11Safe.v ===== *)
(** * The request parser stays inside its tables

    For every state and every character the searches end, the accesses stay inside the tables and
    the target is a state again, so that [resume] returns; and the positions the parser keeps
    never pass the position it has reached. *)

From S2P Require Import Prelude CString Http11Tables Http11Parser.

(** Splits conjunctions, not the definitions that are one. *)
Ltac splits := repeat match goal with |- _ ∧ _ => split end.

Lemma at_index_ok t i : 0 <= i < Z.of_nat (length t) → ∃ v, at_index t i = Ret v ∧ v ∈ t.
Proof.
  intros Hi. unfold at_index. rewrite (proj2 (Z.ltb_ge _ _)) by lia.
  destruct (lookup_lt_is_Some_2 t (Z.to_nat i)) as [v Hv]; [lia|].
  rewrite Hv. exists v. split; [done|]. by eapply list_elem_of_lookup_2.
Qed.

Lemma slice_ok t i n :
  0 <= i → 0 <= n → i + n <= Z.of_nat (length t) →
  ∃ l, slice t i n = Ret l ∧ length l = Z.to_nat n ∧ l ⊆ t.
Proof.
  intros. unfold slice. rewrite (proj2 (Z.ltb_ge _ _)), (proj2 (Z.ltb_ge _ _)) by lia. simpl.
  eexists. split; [done|]. split; [rewrite length_take, length_drop; lia|].
  intros x Hx.
  apply list_elem_of_lookup in Hx as [k Hk]. apply lookup_take_Some in Hk as [Hk _].
  rewrite lookup_drop in Hk. by eapply list_elem_of_lookup_2.
Qed.

(** ** The searches end inside their keys *)

Lemma search_single_ok fuel keys w : ∀ lower upper,
  0 <= lower → upper < Z.of_nat (length keys) → upper - lower + 1 < Z.of_nat fuel →
  lower <= upper + 1 →
  ∃ m, search_single fuel keys w lower upper = Ret m
    ∧ ∀ mid, m = Some mid → 0 <= mid < Z.of_nat (length keys).
Proof.
  induction fuel as [|fuel IH]; intros lower upper Hl Hu Hf Hlu; [lia|]. cbn [search_single].
  destruct (Z.ltb_spec upper lower); [by eexists|]. cbv zeta.
  assert (lower <= lower + Z.shiftr (upper - lower) 1 <= upper) as Hm.
  { rewrite Z.shiftr_div_pow2 by lia. change (2 ^ 1) with 2.
    pose proof (Z.div_pos (upper - lower) 2). pose proof (Z.mul_div_le (upper - lower) 2). lia. }
  set (mid := lower + _) in *. clearbody mid.
  destruct (at_index_ok keys mid) as (k & -> & _); [lia|]. rewrite bind_Ret.
  destruct (Z.ltb_spec w k); [apply IH; lia|].
  destruct (Z.ltb_spec k w); [apply IH; lia|].
  eexists. split; [done|]. intros ? [= <-]. lia.
Qed.

Lemma land_even n : 0 <= n → Z.land (Z.shiftr n 1) (Z.lnot 1) = 2 * (n / 4).
Proof.
  intros. rewrite Z.shiftr_div_pow2 by lia. change (2 ^ 1) with 2.
  change (Z.lnot 1) with (Z.lnot (Z.ones 1)). rewrite <- Z.ldiff_land, Z.ldiff_ones_r by lia.
  rewrite Z.shiftr_div_pow2, Z.shiftl_mul_pow2 by lia. change (2 ^ 1) with 2.
  rewrite Z.div_div by lia. change (2 * 2) with 4. lia.
Qed.

Lemma search_range_ok fuel keys w : ∀ lower upper,
  0 <= lower → upper + 1 < Z.of_nat (length keys) → upper - lower + 2 < Z.of_nat fuel →
  lower <= upper + 2 →
  ∃ m, search_range fuel keys w lower upper = Ret m
    ∧ ∀ mid, m = Some mid → 0 <= mid < Z.of_nat (length keys) - 1.
Proof.
  induction fuel as [|fuel IH]; intros lower upper Hl Hu Hf Hlu; [lia|]. cbn [search_range].
  destruct (Z.ltb_spec upper lower); [by eexists|]. cbv zeta.
  rewrite land_even by lia.
  assert (lower <= lower + 2 * ((upper - lower) / 4) <= upper) as Hm.
  { pose proof (Z.div_pos (upper - lower) 4). pose proof (Z.mul_div_le (upper - lower) 4). lia. }
  set (mid := lower + _) in *. clearbody mid.
  destruct (at_index_ok keys mid) as (k & -> & _); [lia|]. rewrite bind_Ret.
  destruct (at_index_ok keys (mid + 1)) as (k1 & -> & _); [lia|]. rewrite bind_Ret.
  destruct (Z.ltb_spec w k); [apply IH; lia|].
  destruct (Z.ltb_spec k1 w); [apply IH; lia|].
  eexists. split; [done|]. intros ? [= <-]. lia.
Qed.

(** ** The rows of the states *)

Definition states : Z := 350.
Definition is_state (cs : Z) : Prop := 0 <= cs < states.
Definition is_action (a : Z) : Prop := 0 <= a <= 14.

(** The entry [i] of the transition table leads to a state and has a list of actions. *)
Definition entry_ok (i : Z) : bool :=
  match _http_parser_indicies !! Z.to_nat i with
  | None => false
  | Some t =>
      (0 <=? t) &&
      match _http_parser_trans_targs !! Z.to_nat t, _http_parser_trans_actions !! Z.to_nat t with
      | Some cs, Some a =>
          (0 <=? cs) && (cs <? states) && (0 <=? a) &&
          ((a =? 0) ||
           match _http_parser_actions !! Z.to_nat a with
           | Some n =>
               (0 <=? n) && (a + 1 + n <=? Z.of_nat (length _http_parser_actions))
               && forallb (fun b => (0 <=? b) && (b <=? 14))
                    (_http_parser_actions.[Z.to_nat (a + 1), Z.to_nat n])
           | None => false
           end)
      | _, _ => false
      end
  end.

Definition row_ok (cs : Z) : bool :=
  match _http_parser_cond_lengths !! Z.to_nat cs, _http_parser_cond_offsets !! Z.to_nat cs,
        _http_parser_key_offsets !! Z.to_nat cs, _http_parser_index_offsets !! Z.to_nat cs,
        _http_parser_single_lengths !! Z.to_nat cs, _http_parser_range_lengths !! Z.to_nat cs with
  | Some cl, Some co, Some ko, Some io, Some sl, Some rl =>
      (0 <=? cl) && (0 <=? co) && (co * 2 + cl * 2 <=? Z.of_nat (length _http_parser_cond_keys))
      && (co + cl <=? Z.of_nat (length _http_parser_cond_spaces))
      && (0 <=? ko) && (0 <=? io) && (0 <=? sl) && (0 <=? rl)
      && (ko + sl + rl * 2 <=? Z.of_nat (length _http_parser_trans_keys))
      && forallb (fun k => entry_ok (io + Z.of_nat k)) (seq 0 (Z.to_nat (sl + rl + 1)))
  | _, _, _, _, _, _ => false
  end.

Lemma forallb_seq f n k : forallb f (seq 0 n) = true → (k < n)%nat → f k = true.
Proof. rewrite forallb_forall. intros H Hk. apply H, in_seq. lia. Qed.

Lemma rows_ok : forallb (fun cs => row_ok (Z.of_nat cs)) (seq 0 (Z.to_nat states)) = true.
Proof. vm_compute. reflexivity. Qed.

Lemma row_ok_state cs : is_state cs → row_ok cs = true.
Proof.
  unfold is_state. intros Hcs. rewrite <- (Z2Nat.id cs) by lia.
  apply (forallb_seq (fun cs => row_ok (Z.of_nat cs)) _ _ rows_ok). lia.
Qed.

Lemma at_index_lookup t i v : t !! Z.to_nat i = Some v → 0 <= i → at_index t i = Ret v.
Proof. intros Hv Hi. unfold at_index. rewrite (proj2 (Z.ltb_ge _ _)) by lia. by rewrite Hv. Qed.

Ltac bool_facts :=
  repeat match goal with
  | H : _ && _ = true |- _ => apply andb_true_iff in H as [? ?]
  | H : (_ <=? _) = true |- _ => apply Z.leb_le in H
  | H : (_ <? _) = true |- _ => apply Z.ltb_lt in H
  end.

(** The keys of a state: [match_keys] ends at one of its entries. *)
Lemma match_keys_ok cs w :
  is_state cs → ∃ i, match_keys cs w = Ret i ∧ 0 <= i ∧ entry_ok i = true.
Proof.
  intros Hcs. pose proof (row_ok_state cs Hcs) as Hr. unfold row_ok in Hr.
  destruct (_http_parser_cond_lengths !! _); [|done].
  destruct (_http_parser_cond_offsets !! _); [|done].
  destruct (_http_parser_key_offsets !! _) as [ko|] eqn:Hko; [|done].
  destruct (_http_parser_index_offsets !! _) as [io|] eqn:Hio; [|done].
  destruct (_http_parser_single_lengths !! _) as [sl|] eqn:Hsl; [|done].
  destruct (_http_parser_range_lengths !! _) as [rl|] eqn:Hrl; [|done].
  bool_facts. unfold is_state in Hcs.
  assert (∀ k, 0 <= k <= sl + rl → entry_ok (io + k) = true) as He.
  { intros k Hk. rewrite <- (Z2Nat.id k) by lia.
    eapply (forallb_seq (fun k => entry_ok (io + Z.of_nat k))); [eassumption|]. lia. }
  unfold match_keys.
  rewrite (at_index_lookup _ _ _ Hko), bind_Ret by lia.
  rewrite (at_index_lookup _ _ _ Hio), bind_Ret by lia.
  rewrite (at_index_lookup _ _ _ Hsl), bind_Ret by lia.
  assert (∃ m, (if 0 <? sl then
              k ← slice _http_parser_trans_keys ko sl;
              search_single (S (length k)) k w 0 (sl - 1)
            else Ret None) = Ret m ∧ ∀ mid, m = Some mid → 0 <= mid < sl) as (m & -> & Hm).
  { destruct (Z.ltb_spec 0 sl); [|by eexists].
    destruct (slice_ok _http_parser_trans_keys ko sl) as (k & -> & Hk & _); [lia..|].
    rewrite bind_Ret.
    destruct (search_single_ok (S (length k)) k w 0 (sl - 1)) as (m & -> & Hm); [lia..|].
    exists m. split; [done|]. intros mid Hmid. apply Hm in Hmid. lia. }
  rewrite bind_Ret. destruct m as [mid|].
  { specialize (Hm mid eq_refl). eexists. split; [done|]. split; [lia|]. apply He. lia. }
  cbv zeta. rewrite (at_index_lookup _ _ _ Hrl), bind_Ret by lia.
  assert (∃ m, (if 0 <? rl then
              k ← slice _http_parser_trans_keys (ko + sl) (rl * 2);
              search_range (S (length k)) k w 0 (Z.shiftl rl 1 - 2)
            else Ret None) = Ret m ∧ ∀ mid, m = Some mid → 0 <= mid < rl * 2) as (m & -> & Hm').
  { destruct (Z.ltb_spec 0 rl); [|by eexists].
    destruct (slice_ok _http_parser_trans_keys (ko + sl) (rl * 2)) as (k & -> & Hk & _); [lia..|].
    rewrite bind_Ret, Z.shiftl_mul_pow2 by lia. change (2 ^ 1) with 2.
    destruct (search_range_ok (S (length k)) k w 0 (rl * 2 - 2)) as (m & -> & Hm'); [lia..|].
    exists m. split; [done|]. intros mid Hmid. apply Hm' in Hmid. lia. }
  rewrite bind_Ret. destruct m as [mid|].
  - specialize (Hm' mid eq_refl). eexists. split; [done|].
    rewrite Z.shiftr_div_pow2 by lia. change (2 ^ 1) with 2.
    pose proof (Z.div_pos mid 2). pose proof (Z.div_lt_upper_bound mid 2 rl).
    split; [lia|]. rewrite <- Z.add_assoc. apply He. lia.
  - eexists. split; [done|]. split; [lia|]. rewrite <- Z.add_assoc. apply He. lia.
Qed.

Lemma widen_ok r cs c : is_state cs → ∃ w, widen r cs c = Ret w.
Proof.
  intros Hcs. pose proof (row_ok_state cs Hcs) as Hr. unfold row_ok in Hr.
  destruct (_http_parser_cond_lengths !! _) as [cl|] eqn:Hcl; [|done].
  destruct (_http_parser_cond_offsets !! _) as [co|] eqn:Hco; [|done].
  destruct (_http_parser_key_offsets !! _); [|done].
  destruct (_http_parser_index_offsets !! _); [|done].
  destruct (_http_parser_single_lengths !! _); [|done].
  destruct (_http_parser_range_lengths !! _); [|done].
  bool_facts. unfold is_state in Hcs. unfold widen.
  rewrite (at_index_lookup _ _ _ Hcl), bind_Ret by lia.
  rewrite (at_index_lookup _ _ _ Hco), bind_Ret by lia.
  destruct (Z.ltb_spec 0 cl); [|by eexists].
  destruct (slice_ok _http_parser_cond_keys (co * 2) (cl * 2)) as (k & -> & Hk & _); [lia..|].
  rewrite bind_Ret, Z.shiftl_mul_pow2 by lia. change (2 ^ 1) with 2.
  destruct (search_range_ok (S (length k)) k c 0 (cl * 2 - 2)) as (m & -> & Hm); [lia..|].
  rewrite bind_Ret. destruct m as [mid|]; [|by eexists]. specialize (Hm mid eq_refl).
  rewrite Z.shiftr_div_pow2 by lia. change (2 ^ 1) with 2.
  pose proof (Z.div_pos mid 2). pose proof (Z.div_lt_upper_bound mid 2 cl).
  destruct (at_index_ok _http_parser_cond_spaces (co + mid / 2)) as (sp & -> & _); [lia|].
  rewrite bind_Ret. destruct (sp =? 0); by eexists.
Qed.

Lemma transition_ok r cs c :
  is_state cs → ∃ cs' acts, transition r cs c = Ret (cs', acts) ∧ is_state cs' ∧ Forall is_action acts.
Proof.
  intros Hcs. unfold transition.
  destruct (widen_ok r cs c Hcs) as [w ->]. rewrite bind_Ret.
  destruct (match_keys_ok cs w Hcs) as (i & -> & Hi & He). rewrite bind_Ret.
  unfold entry_ok in He.
  destruct (_http_parser_indicies !! _) as [t|] eqn:Ht; [|done].
  apply andb_true_iff in He as [Ht0 He]. apply Z.leb_le in Ht0.
  destruct (_http_parser_trans_targs !! _) as [cs'|] eqn:Hcs'; [|done].
  destruct (_http_parser_trans_actions !! _) as [a|] eqn:Ha; [|done].
  bool_facts.
  rewrite (at_index_lookup _ _ _ Ht), bind_Ret by lia.
  rewrite (at_index_lookup _ _ _ Hcs'), bind_Ret by lia.
  rewrite (at_index_lookup _ _ _ Ha), bind_Ret by lia.
  destruct (a =? 0) eqn:Ea; cbn [orb] in *.
  { eexists _, _. split; [done|]. by split. }
  destruct (_http_parser_actions !! _) as [n|] eqn:Hn; [|done]. bool_facts.
  rewrite (at_index_lookup _ _ _ Hn), bind_Ret by lia.
  unfold slice. rewrite (proj2 (Z.ltb_ge _ _)), (proj2 (Z.ltb_ge _ _)) by lia. cbn [orb].
  rewrite bind_Ret. eexists _, _. split; [done|]. split; [done|].
  apply Forall_forall. intros b Hb.
  assert ((0 <=? b) && (b <=? 14) = true) as Hb'.
  { by eapply (proj1 (forallb_forall (fun b => (0 <=? b) && (b <=? 14)) _)), list_elem_of_In. }
  bool_facts. by split.
Qed.

(** A transition ends in a final state exactly when it runs the action [done], as its last. *)
Definition done_ok (cs : Z) (acts : list Z) : bool :=
  Bool.eqb (http_parser_first_final <=? cs) (existsb (Z.eqb 12) acts)
  && forallb (fun a => negb (a =? 12)) (take (length acts - 1) acts).

Definition entry_done (i : Z) : bool :=
  match _http_parser_indicies !! Z.to_nat i with
  | None => true
  | Some t =>
      match at_index _http_parser_trans_targs t, at_index _http_parser_trans_actions t with
      | Ret cs, Ret a =>
          if a =? 0 then done_ok cs []
          else match at_index _http_parser_actions a with
               | Ret n => match slice _http_parser_actions (a + 1) n with
                          | Ret acts => done_ok cs acts
                          | _ => false
                          end
               | _ => false
               end
      | _, _ => false
      end
  end.

Lemma entries_done :
  forallb (fun i => entry_done (Z.of_nat i)) (seq 0 (length _http_parser_indicies)) = true.
Proof. vm_compute. reflexivity. Qed.

Lemma transition_done r cs c cs' acts :
  is_state cs → transition r cs c = Ret (cs', acts) → done_ok cs' acts = true.
Proof.
  intros Hcs. unfold transition.
  destruct (widen_ok r cs c Hcs) as [w ->]. rewrite bind_Ret.
  destruct (match_keys_ok cs w Hcs) as (i & -> & Hi & _). rewrite bind_Ret.
  intros H. assert (entry_done i = true) as He.
  { destruct (decide (Z.to_nat i < length _http_parser_indicies)%nat) as [Hlt|Hge].
    - rewrite <- (Z2Nat.id i) by lia.
      by apply (forallb_seq (fun i => entry_done (Z.of_nat i)) _ _ entries_done).
    - unfold entry_done. by rewrite lookup_ge_None_2 by lia. }
  destruct (at_index _http_parser_indicies i) as [t| | | |] eqn:Ht; try done. rewrite bind_Ret in H.
  unfold entry_done in He. unfold at_index at 1 in Ht.
  rewrite (proj2 (Z.ltb_ge _ _)) in Ht by lia.
  destruct (_http_parser_indicies !! _) as [t'|]; [|done]. injection Ht as ->.
  destruct (at_index _http_parser_trans_targs t) as [x| | | |]; try done. rewrite bind_Ret in H.
  destruct (at_index _http_parser_trans_actions t) as [a| | | |]; try done. rewrite bind_Ret in H.
  destruct (a =? 0); [by simplify_eq|].
  destruct (at_index _http_parser_actions a) as [n| | | |]; try done. rewrite bind_Ret in H.
  destruct (slice _http_parser_actions (a + 1) n) as [l| | | |]; try done. rewrite bind_Ret in H.
  by simplify_eq.
Qed.

(** ** The positions the parser keeps *)

(** Every position is at most [b], a position that has been reached. *)
Definition within (b : Z) (h : http_parser) : Prop :=
  0 <= mark h <= b ∧ 0 <= field_start h <= b ∧ 0 <= field_len h <= b ∧ body_start h <= b + 1.

(** What no action touches. *)
Definition same_run (h h' : http_parser) : Prop :=
  cs h' = cs h ∧ nread h' = nread h ∧ uri_relaxed h' = uri_relaxed h.

#[global] Instance same_run_preorder : PreOrder same_run.
Proof. split; unfold same_run; [done|]. intros h1 h2 h3 (-> & -> & ->). by intros (-> & -> & ->). Qed.

Lemma within_mono b b' h : b <= b' → within b h → within b' h.
Proof. unfold within. lia. Qed.

Section safe.
Context {D : Type} (cb : callbacks D) (buffer : list byte).
Implicit Types (d : D) (h : http_parser) (s : http_parser * D).
#[local] Arguments action : simpl never.

Lemma action_within pe p a h d b :
  within b h → 0 <= b <= p → p < 2 ^ 63 →
  within p (action cb buffer pe p a (h, d)).1.1 ∧ same_run h (action cb buffer pe p a (h, d)).1.1.
Proof.
  intros Hw Hb Hp. unfold within in *. unfold action, same_run.
  repeat match goal with |- context [if ?c then _ else _] => destruct c end;
    destruct h; simpl in *; unfold len_from; try (split; [lia|done]).
  rewrite uwrap_small by (unfold fits_u; lia). split; [lia|done].
Qed.

Lemma action_same pe p a h d : same_run h (action cb buffer pe p a (h, d)).1.1.
Proof.
  unfold action, same_run.
  by repeat match goal with |- context [if ?c then _ else _] => destruct c end.
Qed.

Lemma actions_same pe p acts : ∀ h d, same_run h (actions cb buffer pe p acts (h, d)).1.1.
Proof.
  induction acts as [|a acts IH]; intros h d; [done|]. cbn [actions].
  pose proof (action_same pe p a h d) as Ha.
  destruct (action cb buffer pe p a (h, d)) as [[h1 d1] []]; [done|]. by etrans; [|apply IH].
Qed.

Lemma action_out pe p a s : (action cb buffer pe p a s).2 = (a =? 12).
Proof.
  destruct s as [h d]. unfold action.
  repeat match goal with |- context [a =? ?k] => destruct (Z.eqb_spec a k); [subst; try done|] end;
    try done. by destruct (negb _ || _).
Qed.

Lemma actions_within pe p acts : ∀ h d b,
  within b h → 0 <= b <= p → p < 2 ^ 63 →
  ∃ h' d', (actions cb buffer pe p acts (h, d)).1 = (h', d') ∧ same_run h h'
    ∧ within p h'.
Proof.
  induction acts as [|a acts IH]; intros h d b Hw Hb Hp; simpl.
  { exists h, d. splits; [done|reflexivity|]. eapply within_mono; [|done]. lia. }
  destruct (action_within pe p a h d b Hw Hb Hp) as [Hw' Hs'].
  destruct (action cb buffer pe p a (h, d)) as [[h1 d1] []]; simpl in *.
  - exists h1, d1. by splits.
  - destruct (IH h1 d1 p Hw') as (h2 & d2 & E & Hs2 & Hw2); [lia|done|].
    rewrite E. exists h2, d2. splits; [done|by etrans|done].
Qed.

Lemma actions_out pe p acts : ∀ s, (actions cb buffer pe p acts s).2 = existsb (Z.eqb 12) acts.
Proof.
  induction acts as [|a acts IH]; intros s; [done|]. cbn [actions existsb].
  pose proof (action_out pe p a s) as Ha. rewrite Z.eqb_sym in Ha.
  destruct (action cb buffer pe p a s) as [s' out]. cbn [snd] in Ha. subst out.
  destruct (12 =? a); [done|]. apply IH.
Qed.

(** Where the loop ends: with an error, in a final state, or behind the last character. *)
Definition stops (pe p cs : Z) : Prop :=
  cs = 0 ∨ http_parser_first_final <= cs ∨ p = pe.

Lemma resume_ok pe rest : ∀ p cs h d b,
  is_state cs → cs ≠ 0 → within b h → 0 <= b <= p → p + Z.of_nat (length rest) = pe → b < pe →
  pe < 2 ^ 63 →
  ∃ p' cs' h' d', resume cb buffer pe rest p cs (h, d) = Ret (p', cs', (h', d'))
    ∧ p <= p' <= pe ∧ is_state cs' ∧ stops pe p' cs' ∧ same_run h h'
    ∧ ∃ b', within b' h' ∧ 0 <= b' < pe.
Proof.
  induction rest as [|c rest IH]; intros p cs h d b Hcs Hcs0 Hw Hb Hpe Hbe Hbound; simpl in *.
  { exists p, cs, h, d. splits; [done|lia|lia|done|by right; right; lia|reflexivity|].
    exists b. split; [done|lia]. }
  destruct (transition_ok (uri_relaxed h) cs (char_of c) Hcs) as (cs' & acts & E & Hcs' & _).
  pose proof (transition_done _ _ _ _ _ Hcs E) as Hd. rewrite E, bind_Ret. simpl.
  destruct (actions_within pe p acts h d b Hw Hb ltac:(lia)) as (h1 & d1 & E1 & Hs1 & Hw1).
  pose proof (actions_out pe p acts (h, d)) as Ho.
  destruct (actions cb buffer pe p acts (h, d)) as [s1 out]. simpl in *. subst s1 out.
  apply andb_true_iff in Hd as [Hd _]. apply eqb_prop in Hd.
  destruct (existsb (Z.eqb 12) acts) eqn:Eo.
  { apply Z.leb_le in Hd. exists (p + 1), cs', h1, d1.
    splits; [done|lia|lia|done|by right; left|done|]. exists p. split; [done|lia]. }
  destruct (Z.eqb_spec cs' 0) as [->|Hne].
  { exists p, 0, h1, d1. splits; [done|lia|lia|done|by left|done|]. exists p. split; [done|lia]. }
  destruct (IH (p + 1) cs' h1 d1 p) as (p2 & cs2 & h2 & d2 & E2 & Hp2 & Hcs2 & Hst & Hs2 & Hb2);
    [done|done|done|lia|lia|lia|lia|].
  exists p2, cs2, h2, d2. splits; [done|lia|lia|done|done|by etrans|done].
Qed.
End safe.
