(* ===== verification/Http11Spec.v ===== *)
(** * What the request parser makes of a request

    The text of a request in the grammar of RFC 3986 and RFC 7230 that the machine is generated
    from, the calls it must lead to, and the proof that [resume] makes exactly these calls: a
    lemma for each part of the text, composed along the request. *)

From S2P Require Import Prelude CString Http11Tables Http11Parser Http11Safe.

(** ** The grammar *)

Definition in_range (lo hi : Z) (c : byte) : bool := (lo <=? byte_to_Z c) && (byte_to_Z c <=? hi).
Definition one_of (l : list byte) (c : byte) : bool := existsb (Byte.eqb c) l.

Definition upper (c : byte) : bool := in_range 65 90 c.
Definition digit (c : byte) : bool := in_range 48 57 c.
Definition alpha (c : byte) : bool := upper c || in_range 97 122 c.
Definition xdigit (c : byte) : bool := digit c || in_range 65 70 c || in_range 97 102 c.
Definition unreserved (c : byte) : bool := alpha c || digit c || one_of (lit "-._~") c.
Definition sub_delims (c : byte) : bool := one_of (lit "!$&'()*+,;=") c.
Definition pchar (c : byte) : bool := unreserved c || sub_delims c || one_of (lit ":@") c.
Definition path_char (c : byte) : bool := pchar c || one_of (lit "/") c.
Definition query_char (c : byte) : bool := pchar c || one_of (lit "/?") c.
Definition method_char (c : byte) : bool := upper c || digit c.
Definition token_char (c : byte) : bool := alpha c || digit c || one_of (lit "!#$%&'*+-.^_`|~") c.
Definition blank (c : byte) : bool := one_of [x20; x09] c.
Definition value_char (c : byte) : bool := negb (one_of [x00; x0a; x0d; x7f] c).

(** Characters of the class [P] and percent-encoded ones. *)
Fixpoint encoded (P : byte → bool) (s : list byte) : bool :=
  match s with
  | [] => true
  | c :: s' =>
      if Byte.eqb c x25
      then match s' with a :: b :: s'' => xdigit a && xdigit b && encoded P s'' | _ => false end
      else P c && encoded P s'
  end.

Definition newline : list byte := [x0d; x0a].

(** A request without its body; the value of a field stands behind a [':'] and blanks. *)
Record header := mk_header { h_name : list byte; h_blanks : list byte; h_value : list byte }.
Record request := mk_request {
  rq_method : list byte;
  rq_path : list byte;
  rq_query : option (list byte);
  rq_fragment : option (list byte);
  rq_minor : byte;
  rq_headers : list header;
}.

(** The machine takes a line break inside a field name for a part of the name. *)
Definition name_char (c : byte) : bool := token_char c || one_of newline c.
Definition name_ok (s : list byte) : bool :=
  match s with c :: s' => token_char c && forallb name_char s' | [] => false end.

Definition header_ok (f : header) : bool :=
  name_ok (h_name f)
  && forallb blank (h_blanks f) && forallb value_char (h_value f)
  && match h_value f with c :: _ => negb (blank c) | [] => true end.

Definition path_ok (s : list byte) : bool :=
  match s with
  | c :: s' =>
      Byte.eqb c x2f && encoded path_char s'
      && match s' with c' :: _ => negb (Byte.eqb c' x2f) | [] => true end
  | [] => false
  end.
Definition part_ok (s : option (list byte)) : bool :=
  match s with Some s => encoded query_char s | None => true end.

Definition request_ok (r : request) : bool :=
  forallb method_char (rq_method r)
  && (1 <=? Z.of_nat (length (rq_method r))) && (Z.of_nat (length (rq_method r)) <=? 20)
  && path_ok (rq_path r) && part_ok (rq_query r) && part_ok (rq_fragment r)
  && one_of (lit "01") (rq_minor r) && forallb header_ok (rq_headers r).

Definition query_text (q : option (list byte)) : list byte :=
  match q with Some q => x3f :: q | None => [] end.
Definition fragment_text (f : option (list byte)) : list byte :=
  match f with Some f => x23 :: f | None => [] end.
Definition version_text (r : request) : list byte := lit "HTTP/1." ++ [rq_minor r].
Definition header_text (f : header) : list byte :=
  h_name f ++ x3a :: h_blanks f ++ h_value f ++ newline.
Definition headers_text (fs : list header) : list byte := flat_map header_text fs.
Definition request_text (r : request) : list byte :=
  rq_method r ++ x20 :: rq_path r ++ query_text (rq_query r) ++ fragment_text (rq_fragment r)
  ++ x20 :: version_text r ++ newline ++ headers_text (rq_headers r) ++ newline.

(** ** The calls it stands for *)

Section calls.
Context {D : Type} (cb : callbacks D).

(** A call with [text], followed in the buffer by [tail]. *)
Definition call_text (f : element_cb) (text tail : list byte) (d : D) : D :=
  match f with Some g => g d (text ++ tail) (Z.of_nat (length text)) | None => d end.

Definition header_call (f : header) (tail : list byte) (d : D) : D :=
  match http_field cb with
  | Some g =>
      g d (header_text f ++ tail) (Z.of_nat (length (h_name f)))
        (h_value f ++ newline ++ tail) (Z.of_nat (length (h_value f)))
  | None => d
  end.

Fixpoint headers_calls (fs : list header) (tail : list byte) (d : D) : D :=
  match fs with
  | [] => d
  | f :: fs => headers_calls fs tail (header_call f (headers_text fs ++ tail) d)
  end.

Definition target_calls (path : list byte) (q f : option (list byte)) (tail : list byte) (d : D)
    : D :=
  let after := fragment_text f ++ tail in
  let d := call_text (request_path cb) path (query_text q ++ after) d in
  let d := match q with Some q => call_text (query_string cb) q after d | None => d end in
  let d := call_text (request_uri cb) (path ++ query_text q) after d in
  match f with Some f => call_text (fragment cb) f tail d | None => d end.

Definition request_calls (r : request) (tail : list byte) (d : D) : D :=
  let t3 := newline ++ headers_text (rq_headers r) ++ newline ++ tail in
  let t2 := x20 :: version_text r ++ t3 in
  let t1 := rq_path r ++ query_text (rq_query r) ++ fragment_text (rq_fragment r) ++ t2 in
  let d := call_text (request_method cb) (rq_method r) (x20 :: t1) d in
  let d := target_calls (rq_path r) (rq_query r) (rq_fragment r) t2 d in
  let d := call_text (http_version cb) (version_text r) t3 d in
  let d := headers_calls (rq_headers r) (newline ++ tail) d in
  match header_done cb with Some g => g d tail (Z.of_nat (length tail)) | None => d end.
End calls.

(** ** Transitions on a class of characters *)

Lemma transition_relaxed r cs c :
  transition r cs c = transition (if r =? 0 then 0 else 1) cs c.
Proof. unfold transition, widen. by destruct (r =? 0). Qed.

Definition leads (r cs : Z) (c : byte) (cs' : Z) (acts : list Z) : bool :=
  match transition r cs (char_of c) with
  | Ret (x, l) => (x =? cs') && bool_decide (l = acts)
  | _ => false
  end.

Lemma leads_step r cs c cs' acts :
  leads r cs c cs' acts = true → transition r cs (char_of c) = Ret (cs', acts).
Proof.
  unfold leads. destruct (transition r cs (char_of c)) as [[x l]| | | |]; try done.
  by intros [->%Z.eqb_eq ->%bool_decide_eq_true]%andb_true_iff.
Qed.

Definition on_class (f : byte → bool) (cs cs' : Z) (acts : list Z) : bool :=
  forallb (fun n => let c := byte_of_Z (Z.of_nat n) in
             if f c then leads 0 cs c cs' acts && leads 1 cs c cs' acts else true) (seq 0 256).

Lemma class_step f cs cs' acts :
  on_class f cs cs' acts = true →
  ∀ r c, f c = true → transition r cs (char_of c) = Ret (cs', acts).
Proof.
  intros H r c Hf. rewrite transition_relaxed.
  assert ((if f c then leads 0 cs c cs' acts && leads 1 cs c cs' acts else true) = true) as Hc.
  { revert c Hf. intros c _. revert c. by apply byte_forall. }
  rewrite Hf in Hc. apply andb_true_iff in Hc as [H0 H1].
  destruct (r =? 0); by apply leads_step.
Qed.

(** The same for one character. *)
Lemma char_step c cs cs' acts :
  leads 0 cs c cs' acts && leads 1 cs c cs' acts = true →
  ∀ r, transition r cs (char_of c) = Ret (cs', acts).
Proof.
  intros [H0 H1]%andb_true_iff r. rewrite transition_relaxed.
  destruct (r =? 0); by apply leads_step.
Qed.

Ltac by_class := eapply class_step; [|eassumption]; vm_compute; reflexivity.
Ltac by_char := apply char_step; vm_compute; reflexivity.

(** The states of the machine on the way through a request. *)
Definition method_state (n : nat) : Z :=
  match n with O => 1 | S O => 2 | _ => 173 + Z.of_nat n end.

Lemma method_states :
  forallb (fun n => on_class method_char (method_state n) (method_state (S n))
                      (if decide (n = 0)%nat then [0] else [])) (seq 0 20) = true.
Proof. vm_compute. reflexivity. Qed.

Lemma method_ends :
  forallb (fun n => leads 0 (method_state (S n)) x20 3 [5] && leads 1 (method_state (S n)) x20 3 [5])
    (seq 0 20) = true.
Proof. vm_compute. reflexivity. Qed.

Lemma path_first r c : path_char c = true → Byte.eqb c x2f = false →
  transition r 33 (char_of c) = Ret (26, []).
Proof.
  intros H H'. apply (class_step (fun c => path_char c && negb (Byte.eqb c x2f)) 33 26 []).
  - vm_compute. reflexivity.
  - by rewrite H, H'.
Qed.
Lemma path_next r c : path_char c = true → transition r 26 (char_of c) = Ret (26, []).
Proof. intros. by_class. Qed.
Lemma query_first r c : query_char c = true → transition r 29 (char_of c) = Ret (30, [8]).
Proof. intros. by_class. Qed.
Lemma query_next r c : query_char c = true → transition r 30 (char_of c) = Ret (30, []).
Proof. intros. by_class. Qed.
Lemma fragment_first r c : query_char c = true → transition r 20 (char_of c) = Ret (21, [0]).
Proof. intros. by_class. Qed.
Lemma fragment_next r c : query_char c = true → transition r 21 (char_of c) = Ret (21, []).
Proof. intros. by_class. Qed.
Lemma pct_27 r c : xdigit c = true → transition r 27 (char_of c) = Ret (28, []).
Proof. intros. by_class. Qed.
Lemma pct_28 r c : xdigit c = true → transition r 28 (char_of c) = Ret (26, []).
Proof. intros. by_class. Qed.
Lemma pct_31 r c : xdigit c = true → transition r 31 (char_of c) = Ret (32, []).
Proof. intros. by_class. Qed.
Lemma pct_32 r c : xdigit c = true → transition r 32 (char_of c) = Ret (30, []).
Proof. intros. by_class. Qed.
Lemma pct_22 r c : xdigit c = true → transition r 22 (char_of c) = Ret (23, []).
Proof. intros. by_class. Qed.
Lemma pct_23 r c : xdigit c = true → transition r 23 (char_of c) = Ret (21, []).
Proof. intros. by_class. Qed.
Lemma name_first r c : token_char c = true → transition r 13 (char_of c) = Ret (14, [1]).
Proof. intros. by_class. Qed.
Lemma name_next r c : name_char c = true → transition r 14 (char_of c) = Ret (14, []).
Proof. intros. by_class. Qed.
Lemma blank_next r c : blank c = true → transition r 15 (char_of c) = Ret (15, [3]).
Proof. intros. by_class. Qed.
Lemma value_first r c : value_char c = true → blank c = false →
  transition r 15 (char_of c) = Ret (16, [3]).
Proof.
  intros H H'. apply (class_step (fun c => value_char c && negb (blank c)) 15 16 [3]).
  - vm_compute. reflexivity.
  - by rewrite H, H'.
Qed.
Lemma value_next r c : value_char c = true → transition r 16 (char_of c) = Ret (16, []).
Proof. intros. by_class. Qed.
Lemma minor_next r c : one_of (lit "01") c = true → transition r 11 (char_of c) = Ret (12, []).
Proof. intros. by_class. Qed.

(** ** Runs *)

Section runs.
Context {D : Type} (cb : callbacks D) (buffer : list byte).
Let pe : Z := Z.of_nat (length buffer).
Context (Hpe : pe < 2 ^ 63).
Implicit Types (d : D) (h : http_parser) (x rest : list byte).
#[local] Arguments action : simpl never.
#[local] Arguments transition : simpl never.

(** The buffer from position [p] on. *)
Definition view (p : Z) (rest : list byte) : Prop := 0 <= p ∧ drop (Z.to_nat p) buffer = rest.

Lemma view_app p x rest : view p (x ++ rest) → view (p + Z.of_nat (length x)) rest.
Proof.
  intros [Hp Hx]. split; [lia|]. rewrite Z2Nat.inj_add, Nat2Z.id by lia.
  rewrite <- drop_drop, Hx. apply drop_app_length.
Qed.

Lemma view_cons p c rest : view p (c :: rest) → view (p + 1) rest.
Proof. apply (view_app p [c]). Qed.

Lemma view_pe p rest : view p rest → (0 < length rest)%nat → p + Z.of_nat (length rest) = pe.
Proof. intros [Hp <-] Hr. rewrite length_drop in *. unfold pe. lia. Qed.

Lemma view_ptr p rest : view p rest → ptr_to buffer p = rest.
Proof. by intros [_ H]. Qed.

Lemma view_len p x rest : view p (x ++ rest) → len_from p (p + Z.of_nat (length x)) = Z.of_nat (length x).
Proof.
  intros Hv. unfold len_from. replace (p + Z.of_nat (length x) - p) with (Z.of_nat (length x)) by lia.
  apply uwrap_small. unfold fits_u.
  assert (length x <= length buffer)%nat.
  { destruct Hv as [_ Hv]. apply (f_equal length) in Hv. rewrite length_app, length_drop in Hv. lia. }
  unfold pe in Hpe. lia.
Qed.

Lemma resume_step c rest p cs h d cs' acts :
  transition (uri_relaxed h) cs (char_of c) = Ret (cs', acts) →
  existsb (Z.eqb 12) acts = false → cs' ≠ 0 →
  resume cb buffer pe (c :: rest) p cs (h, d)
  = resume cb buffer pe rest (p + 1) cs' (actions cb buffer pe p acts (h, d)).1.
Proof.
  intros Ht Ho Hcs. cbn [resume fst]. rewrite Ht, bind_Ret. cbn [fst snd].
  pose proof (actions_out cb buffer pe p acts (h, d)) as Ha. rewrite Ho in Ha.
  destruct (actions cb buffer pe p acts (h, d)) as [s out]. cbn [snd fst] in *. subst out.
  by rewrite (proj2 (Z.eqb_neq _ _)).
Qed.

(** A run in which a state keeps itself. *)
Lemma resume_stay (P : byte → bool) cs x rest : ∀ p h d,
  (∀ r c, P c = true → transition r cs (char_of c) = Ret (cs, [])) → cs ≠ 0 →
  forallb P x = true →
  resume cb buffer pe (x ++ rest) p cs (h, d)
  = resume cb buffer pe rest (p + Z.of_nat (length x)) cs (h, d).
Proof.
  induction x as [|c x IH]; intros p h d HP Hcs Hx; simpl in Hx.
  - simpl. by rewrite Z.add_0_r.
  - apply andb_true_iff in Hx as [Hc Hx]. cbn [app length].
    rewrite (resume_step c _ p cs h d cs []) by (auto || done). cbn [actions fst].
    rewrite IH by done. f_equal. lia.
Qed.

(** The same with percent-encoded characters, through the states [c1] and [c2]. *)
Lemma resume_encoded (P : byte → bool) cs c1 c2 rest n : ∀ x p h d,
  (∀ r c, P c = true → transition r cs (char_of c) = Ret (cs, [])) →
  (∀ r, transition r cs (char_of x25) = Ret (c1, [])) →
  (∀ r c, xdigit c = true → transition r c1 (char_of c) = Ret (c2, [])) →
  (∀ r c, xdigit c = true → transition r c2 (char_of c) = Ret (cs, [])) →
  cs ≠ 0 → c1 ≠ 0 → c2 ≠ 0 → encoded P x = true → (length x <= n)%nat →
  resume cb buffer pe (x ++ rest) p cs (h, d)
  = resume cb buffer pe rest (p + Z.of_nat (length x)) cs (h, d).
Proof.
  induction n as [|n IH]; intros x p h d HP H25 H1 H2 Hcs Hc1 Hc2 Hx Hn.
  { destruct x; simpl in *; [by rewrite Z.add_0_r|lia]. }
  destruct x as [|c x]; [simpl; by rewrite Z.add_0_r|]. cbn [encoded] in Hx.
  destruct (Byte.eqb c x25) eqn:Ec.
  - apply Byte.byte_dec_bl in Ec as ->. destruct x as [|a [|b x]]; try done.
    apply andb_true_iff in Hx as [[Ha Hb]%andb_true_iff Hx]. cbn [app].
    rewrite (resume_step x25 _ p cs h d c1 []) by auto. cbn [actions fst].
    rewrite (resume_step a _ _ c1 h d c2 []) by auto. cbn [actions fst].
    rewrite (resume_step b _ _ c2 h d cs []) by auto. cbn [actions fst].
    rewrite IH by (auto || (simpl in Hn; lia)). f_equal. simpl length. lia.
  - apply andb_true_iff in Hx as [Hc Hx]. cbn [app].
    rewrite (resume_step c _ p cs h d cs []) by auto. cbn [actions fst].
    rewrite IH by (auto || (simpl in Hn; lia)). f_equal. simpl length. lia.
Qed.

(** [s'] is [s] with the data [d'], and the flags of the parser as they were. *)
Definition flags (h h' : http_parser) : Prop :=
  xml_sent h' = xml_sent h ∧ json_sent h' = json_sent h.
Definition moves (x rest : list byte) (p cs : Z) (s : http_parser * D) (cs' : Z)
    (Q : http_parser → Prop) (d' : D) : Prop :=
  ∃ h', resume cb buffer pe (x ++ rest) p cs s
        = resume cb buffer pe rest (p + Z.of_nat (length x)) cs' (h', d')
    ∧ flags s.1 h' ∧ Q h'.

Lemma moves_trans x y rest p cs s cs1 Q1 d1 cs2 Q2 d2 :
  moves x (y ++ rest) p cs s cs1 Q1 d1 →
  (∀ h1, Q1 h1 → moves y rest (p + Z.of_nat (length x)) cs1 (h1, d1) cs2 Q2 d2) →
  moves (x ++ y) rest p cs s cs2 Q2 d2.
Proof.
  intros (h1 & E1 & [Hx1 Hj1] & H1) H. destruct (H h1 H1) as (h2 & E2 & [Hx2 Hj2] & H2).
  exists h2. rewrite <- app_assoc, E1, E2. split; [f_equal; list_lia|].
  split; [|done]. simpl in *. split; congruence.
Qed.

Lemma moves_char c rest p cs h d cs' acts h' d' (Q : http_parser → Prop) :
  transition (uri_relaxed h) cs (char_of c) = Ret (cs', acts) →
  existsb (Z.eqb 12) acts = false → cs' ≠ 0 →
  (actions cb buffer pe p acts (h, d)).1 = (h', d') → flags h h' → Q h' →
  moves [c] rest p cs (h, d) cs' Q d'.
Proof.
  intros Ht Ho Hcs Ha Hf HQ. exists h'. split; [|done]. cbn [app length].
  rewrite (resume_step c rest p cs h d cs' acts Ht Ho Hcs), Ha. done.
Qed.

Lemma moves_stay (P : byte → bool) cs x rest p h d (Q : http_parser → Prop) :
  (∀ r c, P c = true → transition r cs (char_of c) = Ret (cs, [])) → cs ≠ 0 →
  forallb P x = true → Q h → moves x rest p cs (h, d) cs Q d.
Proof. intros. exists h. by rewrite (resume_stay P). Qed.

(** Encoded text that enters the state [cs] from [cs0], with the actions [a0] on its first
    character. *)
Lemma moves_encoded (P : byte → bool) cs0 cs c1 c2 a0 x rest p h h1 d :
  x ≠ [] → encoded P x = true →
  (∀ r c, head x = Some c → P c = true → transition r cs0 (char_of c) = Ret (cs, a0)) →
  (∀ r, transition r cs0 (char_of x25) = Ret (c1, a0)) →
  (∀ r c, P c = true → transition r cs (char_of c) = Ret (cs, [])) →
  (∀ r, transition r cs (char_of x25) = Ret (c1, [])) →
  (∀ r c, xdigit c = true → transition r c1 (char_of c) = Ret (c2, [])) →
  (∀ r c, xdigit c = true → transition r c2 (char_of c) = Ret (cs, [])) →
  cs ≠ 0 → c1 ≠ 0 → c2 ≠ 0 → existsb (Z.eqb 12) a0 = false →
  (actions cb buffer pe p a0 (h, d)).1 = (h1, d) → flags h h1 →
  moves x rest p cs0 (h, d) cs (eq h1) d.
Proof.
  intros Hx He H0 H0' HP H25 H1 H2 ??? Ho Ha Hf. exists h1. split; [|done].
  destruct x as [|c x]; [done|]. cbn [encoded] in He. destruct (Byte.eqb c x25) eqn:Ec.
  - apply Byte.byte_dec_bl in Ec as ->. destruct x as [|a [|b x]]; try done.
    apply andb_true_iff in He as [[Hxa Hxb]%andb_true_iff He]. cbn [app].
    rewrite (resume_step x25 _ p cs0 h d c1 a0), Ha by auto.
    rewrite (resume_step a _ _ c1 h1 d c2 []) by auto. cbn [actions fst].
    rewrite (resume_step b _ _ c2 h1 d cs []) by auto. cbn [actions fst].
    rewrite (resume_encoded P cs c1 c2 rest (length x) x) by auto.
    f_equal. simpl length. lia.
  - apply andb_true_iff in He as [Hc He]. cbn [app].
    rewrite (resume_step c _ p cs0 h d cs a0), Ha by auto.
    rewrite (resume_encoded P cs c1 c2 rest (length x) x) by auto.
    f_equal. simpl length. lia.
Qed.

Lemma call_view f p x tail d :
  view p (x ++ tail) →
  call buffer f p (len_from p (p + Z.of_nat (length x))) d = call_text f x tail d.
Proof.
  intros Hv. unfold call, call_text. destruct f as [g|]; [|done].
  by rewrite (view_ptr p (x ++ tail)), (view_len p x tail).
Qed.

(** *** The request line *)

Lemma method_step r c n :
  (n < 20)%nat → method_char c = true →
  transition r (method_state n) (char_of c)
  = Ret (method_state (S n), if decide (n = 0)%nat then [0] else []).
Proof.
  intros Hn Hc. eapply class_step; [|done].
  by apply (forallb_seq (fun n => on_class method_char (method_state n) (method_state (S n))
                      (if decide (n = 0)%nat then [0] else [])) _ _ method_states).
Qed.

Lemma moves_method x rest : ∀ n p h d,
  forallb method_char x = true → (1 <= n)%nat → (n + length x <= 20)%nat →
  moves x rest p (method_state n) (h, d) (method_state (n + length x)) (eq h) d.
Proof.
  induction x as [|c x IH]; intros n p h d Hx Hn Hl; simpl in *.
  - exists h. rewrite Nat.add_0_r, Z.add_0_r. done.
  - apply andb_true_iff in Hx as [Hc Hx].
    apply (moves_trans [c] x rest p (method_state n) (h, d) (method_state (S n)) (eq h) d).
    + apply moves_char with [] h; try done.
      * by rewrite method_step, decide_False by (done || lia).
      * destruct n; simpl; lia.
    + intros h1 <-. replace (n + S (length x))%nat with (S n + length x)%nat by lia.
      apply IH; [done|lia|lia].
Qed.

Lemma run_method m rest p h d :
  view p (m ++ x20 :: rest) → forallb method_char m = true → (1 <= length m <= 20)%nat →
  moves (m ++ [x20]) rest p 1 (h, d) 3 (fun _ => True)
    (call_text (request_method cb) m (x20 :: rest) d).
Proof.
  intros Hv Hm Hl. destruct m as [|c m]; [simpl in Hl; lia|].
  apply (moves_trans (c :: m) [x20] rest p 1 (h, d) (method_state (length (c :: m)))
           (eq (set_mark p h)) d).
  - pose proof Hm as [Hc Hm']%andb_true_iff.
    apply (moves_trans [c] m _ p 1 (h, d) 2 (eq (set_mark p h)) d).
    + by apply moves_char with [0] (set_mark p h); [apply (method_step _ c 0); [lia|]|..].
    + intros h1 <-. apply (moves_method m _ 1); [done|lia|simpl in *; lia].
  - intros h1 <-.
    apply moves_char with [5] (set_mark p h); [|done|done| |done|done].
    + apply char_step. destruct m as [|c' m]; [vm_compute; reflexivity|].
      apply (forallb_seq (fun n => leads 0 (method_state (S n)) x20 3 [5]
        && leads 1 (method_state (S n)) x20 3 [5]) _ (length (c' :: m)) method_ends).
      simpl in *. lia.
    + cbn [actions action fst]. rewrite <- (call_view _ p (c :: m)) by done. done.
Qed.

(** The state behind a path. *)
Definition path_state (path : list byte) : Z := if decide (length path = 1)%nat then 33 else 26.

Lemma run_path path rest p h d :
  path_ok path = true →
  moves path rest p 3 (h, d) (path_state path) (eq (set_mark p h)) d.
Proof.
  unfold path_ok. destruct path as [|c s]; [done|].
  intros [[->%Byte.byte_dec_bl He]%andb_true_iff Hs]%andb_true_iff.
  apply (moves_trans [x2f] s rest p 3 (h, d) 33 (eq (set_mark p h)) d).
  { by apply moves_char with [0] (set_mark p h); [by_char|..]. }
  intros h1 <-. destruct s as [|c s].
  { exists (set_mark p h). unfold path_state. simpl. by rewrite Z.add_0_r. }
  unfold path_state. rewrite decide_False by (simpl; lia). apply negb_true_iff in Hs.
  apply (moves_encoded path_char 33 26 27 28 []);
    [done|done| |intros; by_char|apply path_next|intros; by_char|apply pct_27|apply pct_28|done..].
  intros r ? [= <-] ?. by apply path_first.
Qed.

(** The characters that end a path or a query, and where they lead. *)
Definition ends (e : byte) (cs : Z) : Prop := (e = x20 ∧ cs = 4) ∨ (e = x23 ∧ cs = 20).

Lemma path_ends r path e cs : ends e cs →
  transition r (path_state path) (char_of e) = Ret (cs, [11; 6]).
Proof. unfold path_state. intros [[-> ->]|[-> ->]]; case_decide; by_char. Qed.

Lemma path_query r path :
  transition r (path_state path) (char_of x3f) = Ret (29, [11]).
Proof. unfold path_state. case_decide; by_char. Qed.

Lemma ends_nonzero e cs : ends e cs → cs ≠ 0.
Proof. intros [[_ ->]|[_ ->]]; done. Qed.

(** The query behind its ['?'], which [query_start] marks. *)
Lemma run_query q e cs rest p h d :
  view p (q ++ e :: rest) → encoded query_char q = true → ends e cs →
  moves (q ++ [e]) rest p 29 (h, d) cs (fun _ => True)
    (call buffer (request_uri cb) (mark h) (len_from (mark h) (p + Z.of_nat (length q)))
       (call_text (query_string cb) q (e :: rest) d)).
Proof.
  intros Hv Hq He. destruct q as [|c q].
  { rewrite Z.add_0_r. apply moves_char with [8; 9; 6] (set_query_start p h);
      [|done|by eapply ends_nonzero| |done|done].
    - destruct He as [[-> ->]|[-> ->]]; by_char.
    - cbn [actions action fst]. rewrite <- (call_view _ p [] (e :: rest)) by done.
      simpl. by rewrite Z.add_0_r. }
  apply (moves_trans (c :: q) [e] rest p 29 (h, d) 30 (eq (set_query_start p h)) d).
  - apply (moves_encoded query_char 29 30 31 32 [8]);
      [done|done|auto using query_first|intros; by_char|apply query_next|intros; by_char
      |apply pct_31|apply pct_32|done..].
  - intros h1 <-. apply moves_char with [9; 6] (set_query_start p h);
      [|done|by eapply ends_nonzero| |done|done].
    + destruct He as [[-> ->]|[-> ->]]; by_char.
    + cbn [actions action fst]. by rewrite <- (call_view _ p (c :: q) (e :: rest)).
Qed.

(** The path and the query, up to the character behind them. *)
Lemma run_path_query path q e cs rest p h d :
  view p (path ++ query_text q ++ e :: rest) → path_ok path = true → part_ok q = true →
  ends e cs →
  moves (path ++ query_text q ++ [e]) rest p 3 (h, d) cs (fun _ => True)
    (call_text (request_uri cb) (path ++ query_text q) (e :: rest)
       (match q with
        | Some q => call_text (query_string cb) q (e :: rest)
        | None => id
        end (call_text (request_path cb) path (query_text q ++ e :: rest) d))).
Proof.
  intros Hv Hp Hq He.
  eapply moves_trans; [by apply run_path|]. intros h1 <-.
  destruct q as [q|]; cbn [query_text app] in *.
  - apply (moves_trans [x3f] (q ++ [e]) rest _ _ _ 29 (eq (set_mark p h))
      (call_text (request_path cb) path (x3f :: q ++ e :: rest) d)).
    + apply moves_char with [11] (set_mark p h); [apply path_query|done|done| |done|done].
      cbn [actions action fst].
      by rewrite <- (call_view _ p path (x3f :: q ++ e :: rest)).
    + intros h1 <-. rewrite <- (call_view (request_uri cb) p (path ++ x3f :: q) (e :: rest))
        by (rewrite <- app_assoc; exact Hv).
      replace (p + Z.of_nat (length (path ++ x3f :: q)))
        with (p + Z.of_nat (length path) + Z.of_nat (length [x3f]) + Z.of_nat (length q))
        by (rewrite length_app; simpl length; lia).
      apply (run_query q e cs rest _ (set_mark p h)); [|done|done].
      apply (view_app _ [x3f]). by apply view_app.
  - rewrite app_nil_r. apply moves_char with [11; 6] (set_mark p h);
      [by apply path_ends|done|by eapply ends_nonzero| |done|done].
    cbn [actions action fst]. by rewrite <- !(call_view _ p path (e :: rest)).
Qed.

Lemma run_fragment f rest p h d :
  view p (f ++ x20 :: rest) → encoded query_char f = true →
  moves (f ++ [x20]) rest p 20 (h, d) 4 (fun _ => True) (call_text (fragment cb) f (x20 :: rest) d).
Proof.
  intros Hv Hf. destruct f as [|c f].
  { apply moves_char with [0; 7] (set_mark p h); [by_char|done|done| |done|done].
    cbn [actions action fst]. rewrite <- (call_view _ p [] (x20 :: rest)) by done.
    simpl. by rewrite Z.add_0_r. }
  apply (moves_trans (c :: f) [x20] rest p 20 (h, d) 21 (eq (set_mark p h)) d).
  - apply (moves_encoded query_char 20 21 22 23 [0]);
      [done|done|auto using fragment_first|intros; by_char|apply fragment_next|intros; by_char
      |apply pct_22|apply pct_23|done..].
  - intros h1 <-. apply moves_char with [7] (set_mark p h); [by_char|done|done| |done|done].
    cbn [actions action fst]. by rewrite <- (call_view _ p (c :: f) (x20 :: rest)).
Qed.

Lemma run_target path q f rest p h d :
  view p (path ++ query_text q ++ fragment_text f ++ x20 :: rest) →
  path_ok path = true → part_ok q = true → part_ok f = true →
  moves (path ++ query_text q ++ fragment_text f ++ [x20]) rest p 3 (h, d) 4 (fun _ => True)
    (target_calls cb path q f (x20 :: rest) d).
Proof.
  intros Hv Hp Hq Hf. unfold target_calls. destruct f as [f|]; cbn [fragment_text app] in *.
  - replace (path ++ query_text q ++ x23 :: f ++ [x20])
      with ((path ++ query_text q ++ [x23]) ++ f ++ [x20]) by (by rewrite <- !app_assoc).
    eapply moves_trans.
    + apply run_path_query; [|done|done|by right].
      rewrite <- app_assoc. exact Hv.
    + intros h1 _. rewrite <- app_assoc. destruct q; (apply run_fragment; [|done]).
      all: rewrite app_assoc in Hv; apply (view_app _ (_ ++ _)) in Hv;
        apply view_cons in Hv; rewrite !app_assoc, length_app; simpl length;
        rewrite Nat2Z.inj_add, Z.add_assoc; exact Hv.
  - pose proof (run_path_query path q x20 4 rest p h d Hv Hp Hq ltac:(by left)) as H.
    destruct q; exact H.
Qed.

Lemma actions_version p h d :
  (actions cb buffer pe p [10] (h, d)).1
  = (h, call buffer (http_version cb) (mark h) (len_from (mark h) p) d).
Proof. reflexivity. Qed.

Lemma run_version m rest p h d :
  one_of (lit "01") m = true →
  view p ((lit "HTTP/1." ++ [m]) ++ newline ++ rest) →
  moves ((lit "HTTP/1." ++ [m]) ++ newline) rest p 4 (h, d) 13 (fun _ => True)
    (call_text (http_version cb) (lit "HTTP/1." ++ [m]) (newline ++ rest) d).
Proof.
  intros Hm Hv. rewrite <- (call_view _ p _ (newline ++ rest)) by done.
  exists (set_mark p h). split; [|done].
  change ((lit "HTTP/1." ++ [m]) ++ newline)
    with [x48; x54; x54; x50; x2f; x31; x2e; m; x0d; x0a]. cbn [app].
  rewrite (resume_step x48 _ p 4 h d 5 [0]) by (by_char || done).
  change (actions cb buffer pe p [0] (h, d)).1 with (set_mark p h, d).
  rewrite (resume_step x54 _ _ 5 (set_mark p h) d 6 []) by (by_char || done). cbn [actions fst].
  rewrite (resume_step x54 _ _ 6 (set_mark p h) d 7 []) by (by_char || done). cbn [actions fst].
  rewrite (resume_step x50 _ _ 7 (set_mark p h) d 8 []) by (by_char || done). cbn [actions fst].
  rewrite (resume_step x2f _ _ 8 (set_mark p h) d 9 []) by (by_char || done). cbn [actions fst].
  rewrite (resume_step x31 _ _ 9 (set_mark p h) d 10 []) by (by_char || done). cbn [actions fst].
  rewrite (resume_step x2e _ _ 10 (set_mark p h) d 11 []) by (by_char || done). cbn [actions fst].
  rewrite (resume_step m _ _ 11 (set_mark p h) d 12 []) by (by apply minor_next || done).
  cbn [actions fst].
  rewrite (resume_step x0d _ _ 12 (set_mark p h) d 17 [10]) by (by_char || done).
  rewrite actions_version.
  rewrite (resume_step x0a _ _ 17 _ _ 13 []) by (by_char || done). cbn [actions fst].
  change (length [x48; x54; x54; x50; x2f; x31; x2e; m; x0d; x0a]) with 10%nat.
  change (length (lit "HTTP/1." ++ [m])) with 8%nat. cbn [mark set_mark].
  f_equal; [lia|]. f_equal. f_equal. f_equal. lia.
Qed.

(** *** The fields *)

Lemma moves_blanks x rest : ∀ p h d,
  forallb blank x = true →
  moves x rest p 15 (h, d) 15
    (fun h' => field_start h' = field_start h ∧ field_len h' = field_len h) d.
Proof.
  induction x as [|c x IH]; intros p h d Hx.
  { exists h. simpl. by rewrite Z.add_0_r. }
  apply andb_true_iff in Hx as [Hc Hx].
  eapply (moves_trans [c] x rest p 15 (h, d) 15 (eq (set_mark p h))).
  - by apply moves_char with [3] (set_mark p h); [apply blank_next|..].
  - intros h1 <-. apply (IH _ (set_mark p h)), Hx.
Qed.

Lemma run_value f rest p h d :
  view p (h_value f ++ newline ++ rest) → header_ok f = true →
  view (field_start h) (header_text f ++ rest) → field_len h = Z.of_nat (length (h_name f)) →
  moves (h_value f ++ newline) rest p 15 (h, d) 13 (fun _ => True) (header_call cb f rest d).
Proof.
  intros Hv [[_ Hc]%andb_true_iff H1]%andb_true_iff Hfs Hfl.
  assert (moves (h_value f ++ [x0d]) (x0a :: rest) p 15 (h, d) 17 (fun _ => True)
    (header_call cb f rest d)) as Hm.
  { assert (match http_field cb with
       | Some g => g d (ptr_to buffer (field_start h)) (field_len h) (ptr_to buffer p)
                     (len_from p (p + Z.of_nat (length (h_value f))))
       | None => d
       end = header_call cb f rest d) as <-.
    { unfold header_call. destruct (http_field cb) as [g|]; [|done].
      by rewrite (view_ptr _ _ Hfs), (view_ptr _ _ Hv), (view_len p _ _ Hv), Hfl. }
    destruct (h_value f) as [|c v].
    - rewrite Z.add_0_r. by apply moves_char with [3; 4] (set_mark p h); [by_char|..].
    - apply (moves_trans (c :: v) [x0d] _ p 15 (h, d) 16 (eq (set_mark p h)) d).
      + apply andb_true_iff in Hc as [Hc Hv'].
        apply (moves_trans [c] v _ p 15 (h, d) 16 (eq (set_mark p h)) d).
        * apply negb_true_iff in H1.
          by apply moves_char with [3] (set_mark p h); [apply value_first|..].
        * intros h1 <-. by apply (moves_stay value_char); [apply value_next|..].
      + intros h1 <-. by apply moves_char with [4] (set_mark p h); [by_char|..]. }
  change newline with ([x0d] ++ [x0a]). rewrite app_assoc.
  eapply moves_trans; [exact Hm|]. intros h1 _.
  by apply moves_char with [] h1; [by_char|..].
Qed.

Lemma run_header f rest p h d :
  view p (header_text f ++ rest) → header_ok f = true →
  moves (header_text f) rest p 13 (h, d) 13 (fun _ => True) (header_call cb f rest d).
Proof.
  intros Hv Hf. pose proof Hf as [[[Hn Hb]%andb_true_iff _]%andb_true_iff _]%andb_true_iff.
  pose proof Hv as Hv0. unfold header_text in Hv |- *.
  rewrite <- app_assoc in Hv. cbn [app] in Hv. rewrite <- app_assoc in Hv.
  apply (moves_trans (h_name f) (x3a :: h_blanks f ++ h_value f ++ newline) rest p 13 (h, d) 14
    (eq (set_field_start p h)) d).
  { destruct (h_name f) as [|c n]; [done|].
    apply andb_true_iff in Hn as [Hc Hn].
    apply (moves_trans [c] n _ p 13 (h, d) 14 (eq (set_field_start p h)) d).
    - by apply moves_char with [1] (set_field_start p h); [apply name_first|..].
    - intros h1 <-. by apply (moves_stay name_char); [apply name_next|..]. }
  intros h1 <-. apply (moves_trans [x3a] (h_blanks f ++ h_value f ++ newline) rest _ 14
    (set_field_start p h, d) 15
    (fun h' => field_start h' = p ∧ field_len h' = Z.of_nat (length (h_name f))) d).
  { apply moves_char with [2]
      (set_field_len (len_from p (p + Z.of_nat (length (h_name f)))) (set_field_start p h));
      [by_char|done..|]. split; [done|]. exact (view_len p (h_name f) _ Hv). }
  intros h1 [Hs1 Hl1]. eapply moves_trans; [by apply moves_blanks|].
  intros h2 [Hs2 Hl2]. apply run_value; [|done|..].
  - rewrite app_assoc. apply view_app. apply (view_app _ [x3a]). by apply view_app.
  - by rewrite Hs2, Hs1.
  - by rewrite Hl2, Hl1.
Qed.

Lemma run_headers fs rest : ∀ p h d,
  view p (headers_text fs ++ rest) → forallb header_ok fs = true →
  moves (headers_text fs) rest p 13 (h, d) 13 (fun _ => True) (headers_calls cb fs rest d).
Proof.
  induction fs as [|f fs IH]; intros p h d Hv Hok.
  { exists h. simpl. by rewrite Z.add_0_r. }
  apply andb_true_iff in Hok as [Hf Hfs]. cbn [headers_text flat_map headers_calls].
  change (headers_text (f :: fs)) with (header_text f ++ headers_text fs) in Hv.
  rewrite <- app_assoc in Hv.
  eapply moves_trans; [by apply run_header|]. intros h1 _. apply IH, Hfs. by apply view_app.
Qed.

(** The empty line: the machine stops behind it. *)
Lemma run_end rest p h d :
  view p (newline ++ rest) → xml_sent h = 0 → json_sent h = 0 →
  ∃ h', resume cb buffer pe (newline ++ rest) p 13 (h, d)
  = Ret (p + 2, 348, (h', match header_done cb with
                          | Some g => g d rest (Z.of_nat (length rest))
                          | None => d
                          end)).
Proof.
  intros Hv Hx Hj. exists (set_body (p + 2) (content_len h) (set_field_start p h)).
  pose proof (view_app p newline rest Hv) as Hr. change (Z.of_nat (length newline)) with 2 in Hr.
  pose proof (view_pe p _ Hv ltac:(simpl; lia)) as Hpe'. simpl length in Hpe'.
  unfold newline. cbn [app].
  rewrite (resume_step x0d _ p 13 h d 18 [1]) by (by_char || done).
  change (actions cb buffer pe p [1] (h, d)).1 with (set_field_start p h, d).
  cbn [resume fst]. rewrite (char_step x0a 18 348 [12]) by (vm_compute; reflexivity).
  rewrite bind_Ret. cbn [actions fst snd].
  change (action cb buffer pe (p + 1) 12 (set_field_start p h, d)) with
    (if negb (xml_sent h =? 0) || negb (json_sent h =? 0) then
      ((set_body (mark h) (s32 (p + 1 - mark h + 1)) (set_field_start p h), d), true)
    else
      ((set_body (p + 1 + 1) (content_len h) (set_field_start p h),
        call buffer (header_done cb) (p + 1 + 1) (pe - (p + 1) - 1) d), true)).
  rewrite Hx, Hj. cbn [Z.eqb negb orb]. unfold call.
  replace (p + 1 + 1) with (p + 2) by lia.
  replace (pe - (p + 1) - 1) with (Z.of_nat (length rest)) by lia.
  by rewrite (view_ptr _ _ Hr).
Qed.

(** The machine makes the calls of the request, and stops behind its header. *)
Lemma run_request r tail p h d :
  view p (request_text r ++ tail) → request_ok r = true → xml_sent h = 0 → json_sent h = 0 →
  ∃ h', resume cb buffer pe (request_text r ++ tail) p 1 (h, d)
  = Ret (p + Z.of_nat (length (request_text r)), 348, (h', request_calls cb r tail d)).
Proof.
  intros Hv Hok Hx Hj. unfold request_ok in Hok.
  repeat match goal with H : _ && _ = true |- _ => apply andb_true_iff in H as [? ?] end.
  bool_facts.
  set (t3 := newline ++ headers_text (rq_headers r) ++ newline ++ tail).
  set (t2 := x20 :: version_text r ++ t3).
  set (t1 := rq_path r ++ query_text (rq_query r) ++ fragment_text (rq_fragment r) ++ t2).
  assert (request_text r ++ tail = rq_method r ++ x20 :: t1) as E.
  { subst t1 t2 t3. unfold request_text. repeat (rewrite <- app_assoc; cbn [app]). done. }
  rewrite E in Hv |- *.
  destruct (run_method (rq_method r) t1 p h d) as (h1 & E1 & [Hx1 Hj1] & _); [done|done|lia|].
  rewrite <- app_assoc in E1. cbn [app] in E1. rewrite E1.
  change (x20 :: t1) with ([x20] ++ t1) in Hv. rewrite app_assoc in Hv. apply view_app in Hv.
  set (p1 := p + _) in *.
  destruct (run_target (rq_path r) (rq_query r) (rq_fragment r) (version_text r ++ t3) p1 h1
    (call_text (request_method cb) (rq_method r) (x20 :: t1) d)) as (h2 & E2 & [Hx2 Hj2] & _);
    [done..|].
  assert (t1 = (rq_path r ++ query_text (rq_query r) ++ fragment_text (rq_fragment r) ++ [x20])
    ++ version_text r ++ t3) as Et1.
  { subst t1 t2. by rewrite <- !app_assoc. }
  rewrite <- Et1 in E2. rewrite E2. rewrite Et1 in Hv. apply view_app in Hv. set (p2 := p1 + _) in *.
  fold t2.
  destruct (run_version (rq_minor r) (headers_text (rq_headers r) ++ newline ++ tail) p2 h2
    (target_calls cb (rq_path r) (rq_query r) (rq_fragment r) t2
       (call_text (request_method cb) (rq_method r) (x20 :: t1) d))) as (h3 & E3 & [Hx3 Hj3] & _);
    [done|by rewrite <- app_assoc|].
  fold (version_text r) in E3. rewrite <- app_assoc in E3. fold t3 in E3. rewrite E3.
  unfold t3 in Hv. rewrite (app_assoc (version_text r)) in Hv. apply view_app in Hv.
  set (p3 := p2 + _) in *.
  destruct (run_headers (rq_headers r) (newline ++ tail) p3 h3
    (call_text (http_version cb) (version_text r) t3
      (target_calls cb (rq_path r) (rq_query r) (rq_fragment r) t2
        (call_text (request_method cb) (rq_method r) (x20 :: t1) d)))) as (h4 & E4 & [Hx4 Hj4] & _);
    [done..|].
  rewrite E4. apply view_app in Hv. set (p4 := p3 + _) in *.
  simpl in Hx1, Hx2, Hx3, Hx4, Hj1, Hj2, Hj3, Hj4.
  eapply (run_end tail p4 h4) in Hv as [h5 E5]; [|congruence..].
  exists h5. rewrite E5. do 2 f_equal. f_equal. subst p4 p3 p2 p1. unfold request_text.
  repeat (rewrite length_app || cbn [length]). change (length newline) with 2%nat. lia.
Qed.
End runs.
