(* ===== verification/Http11Props.v ===== *)
(** * Theorems on [http_parser_execute] *)

From S2P Require Import Prelude CString Http11Tables Http11Parser Http11Safe Http11Spec.

(** ** Where the machine goes does not depend on what the calls do *)

(** The position and the state in which [resume] ends. *)
Fixpoint walk (r : Z) (rest : list byte) (p cs : Z) : outcome (Z * Z) :=
  match rest with
  | [] => Ret (p, cs)
  | c :: rest =>
      t ← transition r cs (char_of c);
      if existsb (Z.eqb 12) t.2 then Ret (p + 1, t.1)
      else if t.1 =? 0 then Ret (p, 0)
      else walk r rest (p + 1) t.1
  end.

Lemma resume_walk {D} (cb : callbacks D) buffer pe rest : ∀ p cs h d,
  is_state cs →
  ∃ h' d', resume cb buffer pe rest p cs (h, d)
  = (q ← walk (uri_relaxed h) rest p cs; Ret (q, (h', d'))) ∧ same_run h h'.
Proof.
  induction rest as [|c rest IH]; intros p cs h d Hcs; [by exists h, d|].
  cbn [resume walk fst].
  destruct (transition_ok (uri_relaxed h) cs (char_of c) Hcs) as (cs' & acts & -> & Hcs' & _).
  rewrite !bind_Ret. cbn [fst snd].
  pose proof (actions_same cb buffer pe p acts h d) as Hs.
  pose proof (actions_out cb buffer pe p acts (h, d)) as Ho.
  destruct (actions cb buffer pe p acts (h, d)) as [[h1 d1] out]. cbn [fst snd] in *. subst out.
  destruct (existsb (Z.eqb 12) acts); [by exists h1, d1|].
  destruct (Z.eqb_spec cs' 0) as [->|]; [by exists h1, d1|].
  destruct (IH (p + 1) cs' h1 d1 Hcs') as (h2 & d2 & -> & Hs2).
  destruct Hs as (? & ? & Hr). rewrite Hr. exists h2, d2. split; [done|].
  by etrans; [|exact Hs2].
Qed.

Lemma walk_shift r k rest : ∀ p cs,
  walk r rest (p + k) cs = (q ← walk r rest p cs; Ret (q.1 + k, q.2)).
Proof.
  induction rest as [|c rest IH]; intros p cs; [done|]. cbn [walk].
  destruct (transition r cs (char_of c)) as [[cs' acts]| | | |]; try done.
  rewrite !bind_Ret. cbn [fst snd].
  destruct (existsb _ _); [rewrite bind_Ret; cbn [fst snd]; do 2 f_equal; lia|].
  destruct (cs' =? 0); [done|]. replace (p + k + 1) with (p + 1 + k) by lia. apply IH.
Qed.

(** A run that goes past [x] has neither failed nor finished in [x]. *)
Lemma walk_prefix r x y : ∀ p cs q,
  is_state cs → cs ≠ 0 → cs < http_parser_first_final →
  walk r (x ++ y) p cs = Ret q → p + Z.of_nat (length x) < q.1 →
  ∃ cs1, walk r x p cs = Ret (p + Z.of_nat (length x), cs1)
    ∧ walk r y (p + Z.of_nat (length x)) cs1 = Ret q
    ∧ is_state cs1 ∧ cs1 ≠ 0 ∧ cs1 < http_parser_first_final.
Proof.
  induction x as [|c x IH]; intros p cs q Hcs Hcs0 Hf Hw Hq.
  { exists cs. simpl in *. rewrite Z.add_0_r. by splits. }
  cbn [app walk] in Hw |- *.
  destruct (transition_ok r cs (char_of c) Hcs) as (cs' & acts & E & Hcs' & _).
  pose proof (transition_done _ _ _ _ _ Hcs E) as Hd. rewrite E, bind_Ret in Hw |- *.
  cbn [fst snd length] in *.
  apply andb_true_iff in Hd as [Hd _]. apply eqb_prop in Hd. rewrite <- Hd in Hw |- *.
  destruct (Z.leb_spec http_parser_first_final cs'); [injection Hw as <-; simpl in Hq; lia|].
  destruct (Z.eqb_spec cs' 0); [injection Hw as <-; simpl in Hq; lia|].
  replace (p + Z.of_nat (S (length x))) with (p + 1 + Z.of_nat (length x)) by lia.
  apply IH; [done|done|done|done|lia].
Qed.

(** ** A parser that starts *)

(** The result is an aborted program, or a value with the property [Q]. *)
Definition returns_or_aborts {A} (Q : A → Prop) (o : outcome A) : Prop :=
  match o with Ret a => Q a | _ => o = Abort end.

Lemma assert_or_aborts {A} (Q : A → Prop) b (k : outcome A) :
  returns_or_aborts Q k → returns_or_aborts Q (sylar_assert b;; k).
Proof. by destruct b. Qed.

Section fresh.
Context {D : Type} (cb : callbacks D) (buffer : list byte).
Implicit Types (h : http_parser) (d : D).
Hypothesis Hlen : Z.of_nat (length buffer) < 2 ^ 31.

(** What follows a run of the machine. *)
Lemma execute_unfold h d p cs' h' d' :
  let len := Z.of_nat (length buffer) in
  0 < len → cs h ≠ 0 → resume cb buffer len buffer 0 (cs h) (h, d) = Ret (p, cs', (h', d')) →
  same_run h h' → 0 <= p <= len → 0 <= nread h < 2 ^ 62 →
  http_parser_execute cb buffer 0 (h, d)
  = (sylar_assert (nread h + p <=? len);;
     sylar_assert (body_start h' <=? len);;
     sylar_assert (mark h' <? len);;
     sylar_assert (field_len h' <=? len);;
     sylar_assert (field_start h' <? len);;
     Ret (nread h + p, (set_nread (nread h + p) (set_cs cs' h'), d'))).
Proof.
  intros len H0 Hcs E (Hs & Hn & _) Hp Hr. unfold http_parser_execute. fold len.
  rewrite (proj2 (Z.eqb_neq _ _)) by lia.
  rewrite (proj2 (Z.leb_le 0 len)) by lia. cbn [sylar_assert]. rewrite bind_Ret.
  rewrite (swrap_small 32 len) by (unfold fits_s; lia). change (s32 0) with 0.
  rewrite Z.eqb_refl. cbn [sylar_assert fst]. rewrite bind_Ret.
  rewrite (proj2 (Z.eqb_neq _ _)) by done. change (drop (Z.to_nat 0) buffer) with buffer.
  rewrite E, bind_Ret. cbv zeta. rewrite (proj2 (Z.leb_le p len)) by lia. cbn [sylar_assert].
  rewrite bind_Ret. unfold http_parser_has_error. rewrite Hs, (proj2 (Z.eqb_neq _ _)) by done.
  cbn [nread set_cs set_nread body_start mark field_len field_start].
  by rewrite Hn, Z.sub_0_r, uwrap_small by (unfold fits_u; lia).
Qed.
End fresh.

(** The safety of a parser that starts; [None] of its checks can fail. *)
Definition fresh (h : http_parser) : Prop := ∃ h0, h = http_parser_init h0.

Lemma fresh_facts h : fresh h →
  cs h = 1 ∧ nread h = 0 ∧ xml_sent h = 0 ∧ json_sent h = 0 ∧ within 0 h.
Proof. intros [h0 ->]. unfold within. simpl. splits; done. Qed.

Lemma execute_fresh {D} (cb : callbacks D) buffer h d :
  fresh h → (0 < length buffer)%nat → Z.of_nat (length buffer) < 2 ^ 31 →
  ∃ n cs' h' d',
    resume cb buffer (Z.of_nat (length buffer)) buffer 0 1 (h, d) = Ret (n, cs', (h', d'))
    ∧ http_parser_execute cb buffer 0 (h, d) = Ret (n, (set_nread n (set_cs cs' h'), d'))
    ∧ 0 <= n <= Z.of_nat (length buffer) ∧ is_state cs'
    ∧ stops (Z.of_nat (length buffer)) n cs' ∧ uri_relaxed h' = uri_relaxed h.
Proof.
  intros Hf Hl Hlen. destruct (fresh_facts h Hf) as (Hcs & Hn & _ & _ & Hw).
  set (len := Z.of_nat (length buffer)).
  destruct (resume_ok cb buffer len buffer 0 1 h d 0)
    as (p & cs' & h' & d' & E & Hp & Hcs' & Hst & Hs & b' & (Hm & Hfs & Hfl & Hbs) & Hb');
    [done|done|done|lia..|].
  exists p, cs', h', d'. splits; [done| |lia..|done|done|by destruct Hs as (_ & _ & ?)].
  rewrite (execute_unfold cb buffer Hlen h d p cs' h' d')
    by (done || lia || by rewrite Hcs). fold len. rewrite Hn, Z.add_0_l.
  by rewrite !(proj2 (Z.leb_le _ _)), !(proj2 (Z.ltb_lt _ _)) by lia.
Qed.

(** C21. A new parser given any buffer returns: no table is left, no check fails, at most the
    buffer is consumed, and it says error, finished, or that everything was consumed. *)
Theorem http_parser_execute_safe {D} (cb : callbacks D) buffer h0 d :
  Z.of_nat (length buffer) < 2 ^ 31 →
  ∃ n h' d', http_parser_execute cb buffer 0 (http_parser_init h0, d) = Ret (n, (h', d'))
    ∧ 0 <= n <= Z.of_nat (length buffer)
    ∧ (http_parser_finish h' = -1 ∨ http_parser_finish h' = 1
       ∨ http_parser_finish h' = 0 ∧ n = Z.of_nat (length buffer)).
Proof.
  intros Hlen. destruct buffer as [|c buffer].
  { exists 0, (http_parser_init h0), d. splits; [done|done|done|]. by right; right. }
  destruct (execute_fresh cb (c :: buffer) (http_parser_init h0) d)
    as (n & cs' & h' & d' & _ & E & Hn & Hs & Hst & _); [by exists h0|simpl; lia|done|].
  exists n, (set_nread n (set_cs cs' h')), d'. splits; [done|lia|lia|].
  unfold http_parser_finish, http_parser_has_error, http_parser_is_finished.
  cbn [cs set_cs set_nread]. unfold http_parser_error.
  destruct (Z.eqb_spec cs' 0); [by left|]. right.
  destruct (Z.leb_spec http_parser_first_final cs'); [by left|]. right.
  split; [done|]. unfold stops in Hst. lia.
Qed.

Lemma execute_reads {D} (cb : callbacks D) r tail h0 d :
  request_ok r = true → Z.of_nat (length (request_text r ++ tail)) < 2 ^ 31 →
  ∃ h', http_parser_execute cb (request_text r ++ tail) 0 (http_parser_init h0, d)
  = Ret (Z.of_nat (length (request_text r)), (h', request_calls cb r tail d))
  ∧ http_parser_finish h' = 1.
Proof.
  intros Hok Hlen. set (buffer := request_text r ++ tail) in *.
  destruct (run_request cb buffer ltac:(lia) r tail 0 (http_parser_init h0) d)
    as [h1 E1]; [by split|done|done|done|].
  destruct (execute_fresh cb buffer (http_parser_init h0) d)
    as (n & cs' & h' & d' & E & Ex & _); [by exists h0| |done|].
  { subst buffer. unfold request_text. rewrite !length_app. simpl. lia. }
  fold buffer in E1. rewrite E1 in E. injection E as <- <- <- <-.
  rewrite Ex. eexists. by split.
Qed.

(** C20. A request in the grammar, with whatever follows it, leads to exactly the calls of its
    parts, in their order; the parser stops behind its empty line and is finished. A field name
    may go on behind a line break. *)
Theorem http_parser_reads_request {D} (cb : callbacks D) r tail h0 d :
  request_ok r = true → Z.of_nat (length (request_text r ++ tail)) < 2 ^ 31 →
  ∃ h', http_parser_execute cb (request_text r ++ tail) 0 (http_parser_init h0, d)
  = Ret (Z.of_nat (length (request_text r)), (h', request_calls cb r tail d))
  ∧ http_parser_finish h' = 1.
Proof. apply execute_reads. Qed.

(** A request that arrives in two pieces: the first leaves the parser waiting; the second
    makes a check fail unless it is followed by at least as many bytes as the first piece had,
    and then that many bytes behind the request are taken for a part of it. *)
Theorem split_request_aborts {D} (cb : callbacks D) r x y tail h0 d :
  request_ok r = true → request_text r = x ++ y → x ≠ [] → y ≠ [] →
  Z.of_nat (length (request_text r ++ tail)) < 2 ^ 31 →
  ∃ h1 d1, http_parser_execute cb x 0 (http_parser_init h0, d)
             = Ret (Z.of_nat (length x), (h1, d1))
    ∧ http_parser_finish h1 = 0
    ∧ returns_or_aborts (fun q => q.1 = Z.of_nat (length x + length y))
        (http_parser_execute cb (y ++ tail) 0 (h1, d1))
    ∧ ((length tail < length x)%nat → http_parser_execute cb (y ++ tail) 0 (h1, d1) = Abort).
Proof.
  intros Hok Hxy Hx Hy Hlen. set (h := http_parser_init h0). set (r0 := uri_relaxed h0).
  assert (walk r0 (x ++ y ++ tail) 0 1 = Ret (Z.of_nat (length x + length y), 348)) as Hwalk.
  { destruct (run_request cb (request_text r ++ tail) ltac:(lia) r tail 0 h d)
      as [h1 E1]; [by split|done|done|done|].
    destruct (resume_walk cb (request_text r ++ tail)
      (Z.of_nat (length (request_text r ++ tail))) (request_text r ++ tail) 0 1 h d ltac:(done))
      as (h2 & d2 & E2 & _).
    change (uri_relaxed h) with r0 in E2. rewrite E1, Hxy, <- app_assoc in E2. symmetry in E2.
    apply bind_Ret_inv in E2 as (q & -> & E2). injection E2 as -> _ _. by rewrite length_app. }
  assert (0 < length x)%nat by (destruct x; [done|simpl; lia]).
  assert (0 < length y)%nat by (destruct y; [done|simpl; lia]).
  rewrite Hxy, !length_app in Hlen.
  apply walk_prefix in Hwalk as (cs1 & Hwx & Hwy & Hs1 & Hne1 & Hf1); [|done|done|done|simpl; lia].
  rewrite Z.add_0_l in Hwx, Hwy.
  destruct (execute_fresh cb x h d) as (n & cs' & h1 & d1 & E & Ex & _); [by exists h0|done|lia|].
  destruct (resume_walk cb x (Z.of_nat (length x)) x 0 1 h d ltac:(done)) as (h2 & d2 & E2 & Hs2).
  change (uri_relaxed h) with r0 in E2. rewrite Hwx, bind_Ret, E in E2.
  injection E2 as -> -> <- <-. set (h1' := set_nread _ (set_cs cs1 h1)) in *.
  exists h1', d1. split; [done|]. split.
  { unfold http_parser_finish, http_parser_has_error, http_parser_is_finished. subst h1'.
    cbn [cs set_cs set_nread]. rewrite (proj2 (Z.eqb_neq _ _)) by done.
    by rewrite (proj2 (Z.leb_gt _ _)). }
  (* the second piece *)
  assert (walk r0 (y ++ tail) 0 cs1 = Ret (Z.of_nat (length y), 348)) as Hwy'.
  { change (Z.of_nat (length x)) with (0 + Z.of_nat (length x)) in Hwy at 1.
    rewrite walk_shift in Hwy. apply bind_Ret_inv in Hwy as ([p c] & -> & Hq).
    injection Hq as Hp ->. do 2 f_equal. simpl in Hp. lia. }
  set (len := Z.of_nat (length (y ++ tail))).
  destruct (resume_walk cb (y ++ tail) len (y ++ tail) 0 cs1 h1' d1 Hs1) as (h3 & d3 & E3 & Hs3).
  destruct Hs2 as (_ & _ & Hu). change (uri_relaxed h1') with (uri_relaxed h1) in E3.
  rewrite Hu in E3. change (uri_relaxed h) with r0 in E3. rewrite Hwy', bind_Ret in E3.
  assert (Z.of_nat (length (y ++ tail)) < 2 ^ 31) as Hlen2 by (rewrite length_app; lia).
  assert (nread h1' = Z.of_nat (length x)) as Hn1 by done.
  assert (len = Z.of_nat (length y + length tail)) as Hl2 by (unfold len; by rewrite length_app).
  pose proof (execute_unfold cb (y ++ tail) Hlen2 h1' d1 _ _ h3 d3 ltac:(lia) Hne1 E3 Hs3
    ltac:(lia) ltac:(lia)) as E4.
  fold len in E4. rewrite E4, Hn1. split.
  - repeat apply assert_or_aborts. simpl. lia.
  - intros Ht. replace (_ + _ <=? len) with false; [done|]. symmetry. apply Z.leb_gt. lia.
Qed.

(** A method name that is not made of upper case letters and digits is refused, whatever
    follows: of the methods the program knows, [M-SEARCH] cannot be received. *)
Theorem msearch_refused {D} (cb : callbacks D) rest h0 d :
  Z.of_nat (length (lit "M-SEARCH " ++ rest)) < 2 ^ 31 →
  ∃ h', http_parser_execute cb (lit "M-SEARCH " ++ rest) 0 (http_parser_init h0, d)
          = Ret (1, (h', d)) ∧ http_parser_finish h' = -1.
Proof.
  intros Hlen. set (buffer := lit "M-SEARCH " ++ rest) in *. set (h := http_parser_init h0).
  destruct (execute_fresh cb buffer h d) as (n & cs' & h' & d' & E & Ex & _);
    [by exists h0|subst buffer; simpl; lia|done|].
  assert (resume cb buffer (Z.of_nat (length buffer)) buffer 0 1 (h, d)
    = Ret (1, 0, (set_mark 0 h, d))) as E1.
  { change buffer with (x4d :: x2d :: drop 2 buffer) at 3.
    rewrite (resume_step cb buffer x4d _ 0 1 h d 2 [0])
      by (done || apply char_step; vm_compute; reflexivity).
    change (actions cb buffer (Z.of_nat (length buffer)) 0 [0] (h, d)).1 with (set_mark 0 h, d).
    cbn [resume fst]. rewrite (char_step x2d 2 0 []) by (vm_compute; reflexivity).
    by rewrite bind_Ret. }
  rewrite E1 in E. injection E as <- <- <- <-. rewrite Ex. eexists. by split.
Qed.

(** ** The theorems at concrete inputs *)

(** Callbacks that record the text they get. *)
Definition record_text : @element_cb (list (list byte)) :=
  Some (fun d at_ len => d ++ [take (Z.to_nat len) at_]).
Definition recorder : callbacks (list (list byte)) :=
  mk_callbacks (Some (fun d f flen v vlen => d ++ [take (Z.to_nat flen) f; take (Z.to_nat vlen) v]))
    record_text record_text record_text record_text record_text record_text record_text.

(** Fields that hold zero, or whatever. *)
Definition blank_parser : http_parser := mk_parser 0 0 0 0 0 0 0 0 0 0 0.

Definition sample : request :=
  mk_request (lit "GET") (lit "/a%20b") (Some (lit "x=1")) None x31
    [mk_header (lit "Host") [x20] (lit "h"); mk_header (lit "A" ++ newline ++ lit "B") [] (lit "c d")].

Lemma http_parser_execute_safe_witness :
  ∃ n h' d', http_parser_execute recorder (lit "GET / HTTX") 0 (http_parser_init blank_parser, [])
    = Ret (n, (h', d')) ∧ 0 <= n <= 10.
Proof.
  destruct (http_parser_execute_safe recorder (lit "GET / HTTX") blank_parser [])
    as (n & h' & d' & E & Hn & _); [by vm_compute|].
  by exists n, h', d'.
Defined.

Lemma http_parser_reads_request_witness :
  ∃ h', http_parser_execute recorder (request_text sample ++ lit "body") 0
          (http_parser_init blank_parser, [])
  = Ret (Z.of_nat (length (request_text sample)), (h',
      [lit "GET"; lit "/a%20b"; lit "x=1"; lit "/a%20b?x=1"; lit "HTTP/1.1"; lit "Host"; lit "h";
       lit "A" ++ newline ++ lit "B"; lit "c d"; lit "body"])) ∧ http_parser_finish h' = 1.
Proof.
  destruct (http_parser_reads_request recorder sample (lit "body") blank_parser [])
    as (h' & E & Hf); [by vm_compute|by vm_compute|].
  exists h'. split; [exact E|exact Hf].
Defined.

Lemma split_request_aborts_witness :
  ∃ h1 d1, http_parser_execute recorder (take 20 (request_text sample)) 0
             (http_parser_init blank_parser, []) = Ret (20, (h1, d1))
    ∧ http_parser_execute recorder (drop 20 (request_text sample) ++ lit "body") 0 (h1, d1) = Abort.
Proof.
  destruct (split_request_aborts recorder sample (take 20 (request_text sample))
    (drop 20 (request_text sample)) (lit "body") blank_parser [])
    as (h1 & d1 & E & _ & _ & Ha);
    [by vm_compute|by rewrite take_drop|by vm_compute|by vm_compute|by vm_compute|].
  exists h1, d1. split; [exact E|apply Ha; vm_compute; lia].
Defined.

Lemma msearch_refused_witness :
  ∃ h', http_parser_execute recorder (lit "M-SEARCH " ++ lit "* HTTP/1.1") 0
          (http_parser_init blank_parser, []) = Ret (1, (h', [])) ∧ http_parser_finish h' = -1.
Proof. apply msearch_refused. by vm_compute. Defined.
