(* ===== verification/HttpParser.v ===== *)
(** * The request parser object (sylar/http/http_parser.h, sylar/http/http_parser.cpp)

    The callbacks with which [HttpRequestParser] fills an [HttpRequest] from the calls of
    [http_parser_execute], and the operations of the object. The library function
    [boost::lexical_cast<uint64_t>] is an argument of [getContentLength]. *)

From S2P Require Import Prelude CString StdOrdered Http Http11Parser.

(** [std::string(at, length)]. *)
Definition cpp_string (at_ : list byte) (length : Z) : list byte := take (Z.to_nat length) at_.

(** [strncmp(a, b, n) == 0]; the character behind the end of a list is a zero. *)
Fixpoint strncmp_eq (n : nat) (a b : list byte) : bool :=
  match n with
  | O => true
  | S n =>
      let x := hd x00 a in
      let y := hd x00 b in
      if Byte.eqb x y then if Byte.eqb x x00 then true else strncmp_eq n (tl a) (tl b) else false
  end.

Module HttpRequestParser.
(** The data the callbacks reach through [data]: [m_data] and [m_error]. *)
Definition data : Type := HttpRequest.t * Z.

Definition on_request_method (d : data) (at_ : list byte) (length : Z) : data :=
  let m := HttpMethod.CharsToHttpMethod at_ in
  if decide (m = HttpMethod.INVALID_METHOD) then (d.1, 1000)
  else (HttpRequest.setMethod m d.1, d.2).

Definition on_request_uri (d : data) (at_ : list byte) (length : Z) : data := d.

Definition on_request_fragment (d : data) (at_ : list byte) (length : Z) : data :=
  (HttpRequest.setFragment (cpp_string at_ length) d.1, d.2).

Definition on_request_path (d : data) (at_ : list byte) (length : Z) : data :=
  (HttpRequest.setPath (cpp_string at_ length) d.1, d.2).

Definition on_request_query (d : data) (at_ : list byte) (length : Z) : data :=
  (HttpRequest.setQuery (cpp_string at_ length) d.1, d.2).

Definition on_request_header_done (d : data) (at_ : list byte) (length : Z) : data := d.

Definition on_request_version (d : data) (at_ : list byte) (length : Z) : data :=
  if strncmp_eq (Z.to_nat length) at_ (lit "HTTP/1.1") then (HttpRequest.setVersion 17 d.1, d.2)
  else if strncmp_eq (Z.to_nat length) at_ (lit "HTTP/1.0")
  then (HttpRequest.setVersion 16 d.1, d.2)
  else d.

Definition on_request_http_field (d : data) (field : list byte) (flen : Z) (value : list byte)
    (vlen : Z) : data :=
  if flen =? 0 then d
  else (HttpRequest.setHeader (cpp_string field flen) (cpp_string value vlen) d.1, d.2).

(** The callbacks the constructor installs. *)
Definition cbs : callbacks data :=
  mk_callbacks (Some on_request_http_field) (Some on_request_method) (Some on_request_uri)
    (Some on_request_fragment) (Some on_request_path) (Some on_request_query)
    (Some on_request_version) (Some on_request_header_done).

Record t := mk {
  m_parser : http_parser;
  m_data : HttpRequest.t;
  m_error : Z;
}.

(** The constructor; [memory] is what the parser's memory holds before [http_parser_init]. *)
Definition make (memory : http_parser) : t :=
  mk (http_parser_init memory) (HttpRequest.make 17 true) 0.

Definition setError (v : Z) (p : t) : t := mk (m_parser p) (m_data p) v.

Definition getContentLength (lexical_cast : list byte → option Z) (p : t) : Z :=
  getAs lexical_cast (HttpRequest.m_headers (m_data p)) (lit "content-length") 0.

(** [execute(data, len)]: the buffer holds [buffer], of which the first [len] bytes are parsed;
    what is left is moved to its front. *)
Definition execute (buffer : list byte) (len : nat) (p : t) : outcome (Z * list byte * t) :=
  r ← http_parser_execute cbs (take len buffer) 0 (m_parser p, (m_data p, m_error p));
  let '(offset, (h, (d, e))) := r in
  Ret (offset, overwrite buffer 0 (buffer.[Z.to_nat offset, len - Z.to_nat offset]), mk h d e).

Definition isFinished (p : t) : Z := http_parser_finish (m_parser p).
Definition hasError (p : t) : bool := negb (m_error p =? 0) || http_parser_has_error (m_parser p).
End HttpRequestParser.
