(* ===== verification/HttpParserProps.v ===== *)
(** * Requests survive the wire: [HttpRequest::dump] and the parser *)

From S2P Require Import Prelude CString StdOrdered Http HttpSpec HttpProps.
From S2P Require Import Http11Tables Http11Parser Http11Safe Http11Spec Http11Props HttpParser.
Import HttpRequestParser.

(** ** What the callbacks do to the data *)

Definition set_fields (fs : list header) (r : HttpRequest.t) : HttpRequest.t :=
  fold_left (fun r f => HttpRequest.setHeader (h_name f) (h_value f) r) fs r.

Lemma cpp_string_app x tail : cpp_string (x ++ tail) (Z.of_nat (length x)) = x.
Proof. unfold cpp_string. rewrite Nat2Z.id. apply take_app_length. Qed.

Lemma header_call_data f tail (d : data) :
  name_ok (h_name f) = true →
  header_call cbs f tail d = (HttpRequest.setHeader (h_name f) (h_value f) d.1, d.2).
Proof.
  intros Hn. unfold header_call. cbn [http_field cbs]. unfold on_request_http_field.
  rewrite (proj2 (Z.eqb_neq _ _)) by (destruct (h_name f); [done|simpl; lia]).
  rewrite cpp_string_app. unfold header_text. by rewrite <- app_assoc, cpp_string_app.
Qed.

Lemma headers_calls_data fs tail : ∀ d : data,
  forallb header_ok fs = true → headers_calls cbs fs tail d = (set_fields fs d.1, d.2).
Proof.
  induction fs as [|f fs IH]; intros d Hok; [by destruct d|].
  apply andb_true_iff in Hok as [[[[Hn _]%andb_true_iff _]%andb_true_iff _]%andb_true_iff Hok].
  cbn [headers_calls]. by rewrite header_call_data, IH.
Qed.

Lemma version_call minor tail (d : data) :
  one_of (lit "01") minor = true →
  call_text (http_version cbs) (lit "HTTP/1." ++ [minor]) tail d
  = (HttpRequest.setVersion (if Byte.eqb minor x31 then 17 else 16) d.1, d.2).
Proof.
  unfold one_of. intros [c [Hc Hm]]%existsb_exists. apply Byte.byte_dec_bl in Hm as <-.
  destruct Hc as [<-|[<-|[]]]; by destruct d.
Qed.

Lemma method_call m tail (d : data) :
  m ≠ HttpMethod.INVALID_METHOD →
  call_text (request_method cbs) (HttpMethod.HttpMethodToString m) tail d
  = (HttpRequest.setMethod m d.1, d.2).
Proof.
  intros Hm. unfold call_text. cbn [request_method cbs]. unfold on_request_method.
  rewrite (method_prefix m tail Hm). by destruct (decide _).
Qed.

Lemma path_call x tail (d : data) :
  call_text (request_path cbs) x tail d = (HttpRequest.setPath x d.1, d.2).
Proof. unfold call_text. cbn. unfold on_request_path. by rewrite cpp_string_app. Qed.
Lemma query_call x tail (d : data) :
  call_text (query_string cbs) x tail d = (HttpRequest.setQuery x d.1, d.2).
Proof. unfold call_text. cbn. unfold on_request_query. by rewrite cpp_string_app. Qed.
Lemma fragment_call x tail (d : data) :
  call_text (fragment cbs) x tail d = (HttpRequest.setFragment x d.1, d.2).
Proof. unfold call_text. cbn. unfold on_request_fragment. by rewrite cpp_string_app. Qed.
Lemma uri_call x tail (d : data) : call_text (request_uri cbs) x tail d = d.
Proof. done. Qed.

(** The request the callbacks make of the calls of [r]. *)
Definition received (r : request) (m : HttpMethod.t) (q : HttpRequest.t) : HttpRequest.t :=
  set_fields (rq_headers r)
    (HttpRequest.setVersion (if Byte.eqb (rq_minor r) x31 then 17 else 16)
      (default id (HttpRequest.setFragment <$> rq_fragment r)
        (default id (HttpRequest.setQuery <$> rq_query r)
          (HttpRequest.setPath (rq_path r) (HttpRequest.setMethod m q))))).

Lemma request_calls_data r m tail q e :
  request_ok r = true → m ≠ HttpMethod.INVALID_METHOD →
  rq_method r = HttpMethod.HttpMethodToString m →
  request_calls cbs r tail (q, e) = (received r m q, e).
Proof.
  intros Hok Hm Em. unfold request_ok in Hok.
  repeat match goal with H : _ && _ = true |- _ => apply andb_true_iff in H as [? ?] end.
  unfold request_calls. cbv zeta. cbn [header_done cbs]. unfold on_request_header_done.
  rewrite headers_calls_data by done. unfold version_text. rewrite version_call by done.
  rewrite Em, method_call by done. unfold received, target_calls. cbv zeta.
  rewrite path_call, uri_call.
  by destruct (rq_query r), (rq_fragment r); rewrite ?query_call, ?fragment_call.
Qed.

(** A received request in the buffer: the parser object ends finished and without an error,
    holds the request, and moves what follows to the front of the buffer. *)
Lemma execute_request r m tail rest memory :
  request_ok r = true → m ≠ HttpMethod.INVALID_METHOD →
  rq_method r = HttpMethod.HttpMethodToString m →
  Z.of_nat (length (request_text r ++ tail)) < 2 ^ 31 →
  ∃ p', execute ((request_text r ++ tail) ++ rest) (length (request_text r ++ tail)) (make memory)
      = Ret (Z.of_nat (length (request_text r)),
             overwrite ((request_text r ++ tail) ++ rest) 0 tail, p')
    ∧ isFinished p' = 1 ∧ hasError p' = false
    ∧ m_data p' = received r m (HttpRequest.make 17 true).
Proof.
  intros Hok Hm Em Hlen. unfold execute. rewrite take_app_length.
  change (m_parser (make memory), (m_data (make memory), m_error (make memory)))
    with (http_parser_init memory, (HttpRequest.make 17 true, 0)).
  destruct (execute_reads cbs r tail memory (HttpRequest.make 17 true, 0) Hok Hlen)
    as (h' & E & Hf).
  rewrite (request_calls_data r m) in E by done. unfold data in *. rewrite E, bind_Ret.
  exists (mk h' (received r m (HttpRequest.make 17 true)) 0).
  split; [|split; [exact Hf|split; [|done]]].
  - do 2 f_equal. f_equal. rewrite Nat2Z.id, length_app, <- app_assoc.
    rewrite drop_app_length. replace (_ + _ - _)%nat with (length tail) by lia.
    by rewrite take_app_length.
  - unfold hasError. cbn [m_error m_parser]. unfold http_parser_finish in Hf.
    by destruct (http_parser_has_error h').
Qed.

(** ** A request is what its text says *)

(** Fields that can be sent and received: a name the parser accepts, and a value that is not
    trimmed or broken on the way. *)
Definition sendable (kv : list byte * list byte) : bool :=
  name_ok kv.1 && forallb value_char kv.2
  && match kv.2 with c :: _ => negb (blank c) | [] => true end.

Definition wire_request (r : HttpRequest.t) : Prop :=
  HttpRequest.m_method r ≠ HttpMethod.INVALID_METHOD ∧ HttpRequest.m_method r ≠ HttpMethod.MSEARCH
  ∧ (HttpRequest.m_version r = 16 ∨ HttpRequest.m_version r = 17)
  ∧ path_ok (HttpRequest.m_path r) = true ∧ encoded query_char (HttpRequest.m_query r) = true
  ∧ encoded query_char (HttpRequest.m_fragment r) = true
  ∧ HttpRequest.m_websocket r = false
  ∧ forallb sendable (HttpRequest.m_headers r) = true.

(** The parts of the text of a request. *)
Definition is_connection (kv : list byte * list byte) : bool :=
  bool_decide (strcasecmp kv.1 (lit "connection") = Eq).
Definition optional (s : list byte) : option (list byte) := if decide (s = []) then None else Some s.
Definition as_header (kv : list byte * list byte) : header := mk_header kv.1 [x20] kv.2.
Definition length_header (body : list byte) : list header :=
  if decide (body = []) then []
  else [mk_header (lit "content-length") [x20] (dec (Z.of_nat (length body)))].

Definition wire (r : HttpRequest.t) : request :=
  mk_request (HttpMethod.HttpMethodToString (HttpRequest.m_method r)) (HttpRequest.m_path r)
    (optional (HttpRequest.m_query r)) (optional (HttpRequest.m_fragment r))
    (if HttpRequest.m_version r =? 16 then x30 else x31)
    ((if HttpRequest.m_close r then mk_header (lit "connection") [x20] (lit "close")
      else mk_header (lit "connection") [] (lit "keep-alive"))
     :: (as_header <$> List.filter (fun kv => negb (is_connection kv)) (HttpRequest.m_headers r))
     ++ length_header (HttpRequest.m_body r)).

Lemma headers_text_cons f fs : headers_text (f :: fs) = header_text f ++ headers_text fs.
Proof. done. Qed.
Lemma headers_text_app a b : headers_text (a ++ b) = headers_text a ++ headers_text b.
Proof. apply flat_map_app. Qed.

Lemma header_lines hs :
  flat_map (HttpResponse.header_line false) hs
  = headers_text (as_header <$> List.filter (fun kv => negb (is_connection kv)) hs).
Proof.
  induction hs as [|kv hs IH]; [done|]. cbn [flat_map List.filter]. rewrite IH.
  unfold HttpResponse.header_line at 1. change (negb false) with true. rewrite andb_true_l.
  fold (is_connection kv). destruct (is_connection kv); [done|]. cbn [negb fmap list_fmap].
  rewrite headers_text_cons.
  done.
Qed.

Lemma optional_text c s :
  (if bool_decide (s = []) then [] else [c]) ++ s
  = match optional s with Some s => c :: s | None => [] end.
Proof. unfold optional. rewrite decide_bool_decide. by case_bool_decide; subst. Qed.

Lemma body_text body :
  (if bool_decide (body = []) then crlf
   else lit "content-length: " ++ dec (Z.of_nat (length body)) ++ crlf ++ crlf ++ body)
  = headers_text (length_header body) ++ newline ++ body.
Proof.
  unfold length_header. rewrite decide_bool_decide. case_bool_decide; [by subst|].
  unfold headers_text. cbn [flat_map]. unfold header_text. cbn [h_name h_blanks h_value].
  change (lit "content-length: ") with (lit "content-length" ++ [x3a; x20]).
  rewrite app_nil_r. by repeat (rewrite <- app_assoc; cbn [app]).
Qed.

Lemma toString_wire r :
  wire_request r → HttpRequest.toString r = request_text (wire r) ++ HttpRequest.m_body r.
Proof.
  intros (_ & _ & Hv & _ & _ & _ & Hws & _). unfold HttpRequest.toString, request_text, wire.
  cbn [rq_method rq_path rq_query rq_fragment rq_headers]. rewrite Hws, header_lines, body_text.
  set (hs := as_header <$> _).
  rewrite headers_text_cons, headers_text_app.
  change (lit "?") with [x3f]. change (lit "#") with [x23].
  unfold query_text, fragment_text. rewrite <- !optional_text. unfold version_text.
  cbn [rq_minor]. repeat (rewrite <- app_assoc; cbn [app]).

  destruct Hv as [-> | ->], (HttpRequest.m_close r); done.
Qed.

Lemma is_digit_value_char s : forallb is_digit s = true → forallb value_char s = true.
Proof.
  rewrite !forallb_forall. intros H c Hc%H. revert c Hc. apply byte_implies. by vm_compute.
Qed.

Lemma digit_not_blank c : is_digit c = true → blank c = false.
Proof.
  intros Hc. apply negb_true_iff. revert c Hc. apply (byte_implies _ (fun c => negb (blank c))).
  by vm_compute.
Qed.

Lemma request_ok_wire r : wire_request r → request_ok (wire r) = true.
Proof.
  intros (Hm & Hms & Hv & Hp & Hq & Hf & _ & Hh). unfold request_ok, wire.
  cbn [rq_method rq_path rq_query rq_fragment rq_minor rq_headers]. rewrite Hp.
  assert (part_ok (optional (HttpRequest.m_query r)) = true) as ->
    by (unfold optional; by case_decide).
  assert (part_ok (optional (HttpRequest.m_fragment r)) = true) as ->
    by (unfold optional; by case_decide).
  replace (one_of _ _) with true by (by destruct Hv as [-> | ->]).
  rewrite !andb_true_r. apply andb_true_iff. split.
  { by destruct (HttpRequest.m_method r). }
  cbn [forallb]. apply andb_true_iff. split; [by destruct (HttpRequest.m_close r)|].
  rewrite forallb_app. apply andb_true_iff. split.
  - apply forallb_forall. intros f Hf'%list_elem_of_In. apply list_elem_of_fmap in Hf' as (kv & -> & Hkv).
    apply list_elem_of_In, filter_In in Hkv as [Hkv _].
    apply (proj1 (forallb_forall _ _) Hh) in Hkv. unfold sendable in Hkv. unfold header_ok.
    cbn [as_header h_name h_blanks h_value].
    apply andb_true_iff in Hkv as [[-> ->]%andb_true_iff ->]. done.
  - unfold length_header. case_decide; [done|].
    destruct (dec_ok (Z.of_nat (length (HttpRequest.m_body r))) ltac:(lia)) as (H1 & _ & H3).
    unfold forallb, header_ok. cbn [h_name h_blanks h_value].
    rewrite is_digit_value_char by done.
    destruct (dec _) as [|c s]; [done|]. apply andb_true_iff in H1 as [H1 _].
    rewrite digit_not_blank by done. by vm_compute.
Qed.

(** ** The header map that results *)

Lemma same_name_sym a b : same_name a b = same_name b a.
Proof. unfold same_name. apply bool_decide_ext. split; congruence. Qed.

Lemma set_fields_headers fs : ∀ q,
  set_fields fs q
  = HttpRequest.setHeaders (HttpRequest.m_headers (set_fields fs q)) q.
Proof.
  induction fs as [|f fs IH]; intros q; [by destruct q|]. cbn [set_fields fold_left].
  change (fold_left _ fs ?x) with (set_fields fs x). rewrite (IH (HttpRequest.setHeader _ _ q)).
  by destruct q.
Qed.

Lemma set_fields_app a b q : set_fields (a ++ b) q = set_fields b (set_fields a q).
Proof. apply fold_left_app. Qed.

Lemma find_key_set_fields_map m : ∀ q k,
  map_sorted CaseInsensitiveLess m →
  find_key (HttpRequest.m_headers (set_fields (as_header <$> m) q)) k
  = match find_key m k with Some v => Some v | None => find_key (HttpRequest.m_headers q) k end.
Proof.
  induction m as [|[k1 v1] m IH]; intros q k Hs; [done|].
  apply sorted_by_cons in Hs as [Hs Hall].
  change (set_fields (as_header <$> (k1, v1) :: m) q)
    with (set_fields (as_header <$> m) (HttpRequest.setHeader k1 v1 q)).
  rewrite IH by done. unfold HttpRequest.setHeader. cbn [HttpRequest.m_headers HttpRequest.setHeaders].
  rewrite find_key_assign. unfold find_key at 3. rewrite map_get_cons, equiv_same_name.
  fold (find_key m k). destruct (same_name k k1) eqn:E; [|done].
  assert (find_key m k = None) as ->; [|done].
  apply map_get_below; [apply _|done|]. intros k0 Hk0.
  rewrite (lt_equiv_l CaseInsensitiveLess k k1) by (by rewrite equiv_same_name).
  rewrite Forall_forall in Hall. apply Hall. by apply head_Some_elem_of.
Qed.

Lemma filter_connection hs :
  List.filter (fun kv => negb (is_connection kv)) hs
  = map_erase CaseInsensitiveLess (lit "connection") hs.
Proof.
  unfold map_erase. induction hs as [|kv hs IH]; [done|]. cbn [List.filter].
  rewrite filter_cons, IH, equiv_same_name. unfold is_connection, same_name.
  rewrite strcasecmp_lexi.
  assert (bool_decide (lexi (low kv.1) (low (lit "connection")) = Eq)
    = bool_decide (low (lit "connection") = low kv.1)) as ->.
  { apply bool_decide_ext. rewrite lexi_eq. by split. }
  by case_bool_decide; case_decide.
Qed.

(** What a name finds in the request that arrives. *)
Definition arriving (r : HttpRequest.t) (k : list byte) : option (list byte) :=
  if negb (bool_decide (HttpRequest.m_body r = [])) && same_name k (lit "content-length")
  then Some (dec (Z.of_nat (length (HttpRequest.m_body r))))
  else if same_name k (lit "connection")
  then Some (if HttpRequest.m_close r then lit "close" else lit "keep-alive")
  else find_key (HttpRequest.m_headers r) k.

Lemma find_key_received r q k :
  map_sorted CaseInsensitiveLess (HttpRequest.m_headers r) → HttpRequest.m_headers q = [] →
  find_key (HttpRequest.m_headers (set_fields (rq_headers (wire r)) q)) k = arriving r k.
Proof.
  intros Hs Hq. unfold wire. cbn [rq_headers]. rewrite filter_connection.
  set (m := map_erase _ _ _). set (c := if HttpRequest.m_close r then mk_header _ _ _ else _).
  change (c :: ?x) with ([c] ++ x). rewrite app_assoc, set_fields_app.
  assert (find_key (HttpRequest.m_headers (set_fields ([c] ++ (as_header <$> m)) q)) k
    = if same_name k (lit "connection")
      then Some (if HttpRequest.m_close r then lit "close" else lit "keep-alive")
      else find_key (HttpRequest.m_headers r) k) as Hm.
  { rewrite set_fields_app, find_key_set_fields_map by (by apply map_erase_sorted).
    unfold m. rewrite find_key_erase. destruct (same_name k (lit "connection")) eqn:E.
    - unfold set_fields, HttpRequest.setHeader. cbn [fold_left HttpRequest.m_headers HttpRequest.setHeaders].
      rewrite find_key_assign. subst c. destruct (HttpRequest.m_close r); cbn [h_name h_value]; by rewrite E.
    - destruct (find_key _ k); [done|].
      unfold set_fields, HttpRequest.setHeader. cbn [fold_left HttpRequest.m_headers HttpRequest.setHeaders].
      rewrite find_key_assign, Hq. subst c. by destruct (HttpRequest.m_close r); cbn [h_name]; rewrite E. }
  unfold arriving, length_header. rewrite decide_bool_decide.
  case_bool_decide; cbn [negb andb set_fields fold_left]; [exact Hm|].
  unfold HttpRequest.setHeader at 1. cbn [HttpRequest.m_headers HttpRequest.setHeaders h_name h_value].
  rewrite find_key_assign. by destruct (same_name k (lit "content-length")).
Qed.

(** The request [q] of the parser, before [init], is [r] as far as the header says. *)
Definition arrives (r q : HttpRequest.t) : Prop :=
  HttpRequest.m_method q = HttpRequest.m_method r
  ∧ HttpRequest.m_version q = HttpRequest.m_version r
  ∧ HttpRequest.m_path q = HttpRequest.m_path r
  ∧ HttpRequest.m_query q = HttpRequest.m_query r
  ∧ HttpRequest.m_fragment q = HttpRequest.m_fragment r
  ∧ HttpRequest.m_body q = []
  ∧ (∀ k, find_key (HttpRequest.m_headers q) k = arriving r k)
  ∧ HttpRequest.m_close (HttpRequest.init q) = HttpRequest.m_close r.

(** The header of [r] as it is dumped. *)
Definition header_of (r : HttpRequest.t) : list byte := request_text (wire r).

Lemma execute_header (r : HttpRequest.t) (tail rest : list byte) (memory : http_parser) :
  wire_request r → map_sorted CaseInsensitiveLess (HttpRequest.m_headers r) →
  Z.of_nat (length (header_of r ++ tail)) < 2 ^ 31 →
  ∃ p, execute ((header_of r ++ tail) ++ rest) (length (header_of r ++ tail)) (make memory)
      = Ret (Z.of_nat (length (header_of r)), overwrite ((header_of r ++ tail) ++ rest) 0 tail, p)
    ∧ isFinished p = 1 ∧ hasError p = false ∧ arrives r (m_data p).
Proof.
  intros Hw Hs Hlen. pose proof (request_ok_wire r Hw) as Hok. unfold header_of in *.
  destruct (execute_request (wire r) (HttpRequest.m_method r) tail rest memory)
    as (p & Ex & Hf & He & Hd); [done|apply Hw|done|done|].
  exists p. split; [exact Ex|].
  split; [done|]. split; [done|]. unfold arrives. rewrite Hd. unfold received. rewrite set_fields_headers.
  set (q0 := HttpRequest.setVersion _ _).
  assert (HttpRequest.m_headers q0 = []) as Hq0.
  { subst q0. unfold wire. cbn [rq_query rq_fragment]. by destruct (optional _), (optional _). }
  assert (∀ k, find_key (HttpRequest.m_headers (set_fields (rq_headers (wire r)) q0)) k
    = arriving r k) as Hh by (intros; by apply find_key_received).
  destruct Hw as (_ & _ & Hv & _).
  cbn [HttpRequest.m_method HttpRequest.m_version HttpRequest.m_path HttpRequest.m_query
    HttpRequest.m_fragment HttpRequest.m_body HttpRequest.m_headers HttpRequest.setHeaders].
  assert (q0 = HttpRequest.setVersion (HttpRequest.m_version r)
    (HttpRequest.setFragment (HttpRequest.m_fragment r)
      (HttpRequest.setQuery (HttpRequest.m_query r)
        (HttpRequest.setPath (HttpRequest.m_path r)
          (HttpRequest.setMethod (HttpRequest.m_method r) (HttpRequest.make 17 true)))))) as Eq.
  { subst q0. unfold wire. cbn [rq_query rq_fragment rq_minor rq_path]. f_equal.
    - by destruct Hv as [-> | ->].
    - unfold optional. destruct (decide (HttpRequest.m_query r = [])) as [->|],
        (decide (HttpRequest.m_fragment r = [])) as [->|]; done. }
  rewrite Eq. do 6 (split; [done|]). rewrite <- Eq. split; [exact Hh|].
  unfold HttpRequest.init, HttpRequest.getHeader.
  cbn [HttpRequest.m_headers HttpRequest.setHeaders]. rewrite Hh.
  unfold arriving. change (same_name (lit "connection") (lit "content-length")) with false.
  rewrite andb_false_r. change (same_name (lit "connection") (lit "connection")) with true.
  cbv iota. by destruct (HttpRequest.m_close r).
Qed.

Lemma execute_dumped (r : HttpRequest.t) (rest : list byte) (memory : http_parser) :
  wire_request r → map_sorted CaseInsensitiveLess (HttpRequest.m_headers r) →
  Z.of_nat (length (HttpRequest.toString r)) < 2 ^ 31 →
  let text := HttpRequest.toString r in
  let body := HttpRequest.m_body r in
  ∃ p, execute (text ++ rest) (length text) (make memory)
      = Ret (Z.of_nat (length text) - Z.of_nat (length body), overwrite (text ++ rest) 0 body, p)
    ∧ isFinished p = 1 ∧ hasError p = false ∧ arrives r (m_data p).
Proof.
  intros Hw Hs Hlen text body. pose proof (toString_wire r Hw) as E. fold text body (header_of r) in E.
  destruct (execute_header r body rest memory) as (p & Ex & H); [done|done|by rewrite <- E|].
  rewrite <- E in Ex. exists p. rewrite Ex. split; [|done]. rewrite E at 2. rewrite length_app.
  do 2 f_equal. f_equal. lia.
Qed.

(** C19. A request that is dumped and parsed again is the same request: behind its header the
    parser is finished and without an error, the body stands at the front of the buffer, and
    method, version, path, query, fragment and every header field arrive; [init] then finds
    out whether the connection stays open. *)
Theorem request_roundtrip (r : HttpRequest.t) (rest : list byte) (memory : http_parser) :
  wire_request r → map_sorted CaseInsensitiveLess (HttpRequest.m_headers r) →
  Z.of_nat (length (HttpRequest.toString r)) < 2 ^ 31 →
  let text := HttpRequest.toString r in
  let body := HttpRequest.m_body r in
  ∃ p, execute (text ++ rest) (length text) (make memory)
      = Ret (Z.of_nat (length text) - Z.of_nat (length body), overwrite (text ++ rest) 0 body, p)
    ∧ isFinished p = 1 ∧ hasError p = false ∧ arrives r (m_data p).
Proof. apply execute_dumped. Qed.

Lemma request_roundtrip_witness :
  ∃ p, execute (HttpRequest.toString sample_request) (length (HttpRequest.toString sample_request))
         (make blank_parser)
      = Ret (Z.of_nat (length (HttpRequest.toString sample_request)) - 8,
             overwrite (HttpRequest.toString sample_request) 0 (lit "q=second"), p)
    ∧ isFinished p = 1 ∧ find_key (HttpRequest.m_headers (m_data p)) (lit "CONTENT-LENGTH") = Some (lit "8").
Proof.
  destruct (request_roundtrip sample_request [] blank_parser)
    as (p & E & Hf & _ & (_ & _ & _ & _ & _ & _ & Hk & _)).
  - unfold wire_request. split; [discriminate|]. split; [discriminate|]. split; [by right|].
    split; [by vm_compute|]. split; [by vm_compute|]. split; [by vm_compute|]. by vm_compute.
  - apply map_assign_sorted; [apply _|]. constructor.
  - by vm_compute.
  - rewrite app_nil_r in E. exists p. split; [exact E|]. split; [exact Hf|].
    rewrite Hk. by vm_compute.
Defined.
