(* ===== verification/Servlet.v ===== *)
(** * Servlets (sylar/http/servlet.h, sylar/http/servlet.cpp)

    Creators, the dispatcher that picks a servlet by path, and the servlet for unknown paths.
    [fnmatch] is an argument ([true] when the C function returns 0); so is what a servlet other
    than the modelled ones does, and the object a templated creator makes. Each operation of the
    dispatcher holds its lock throughout and is one function of the state. *)

From S2P Require Import Prelude CString StdOrdered Http.

#[global] Program Instance byte_countable : Countable byte :=
  inj_countable Byte.to_N Byte.of_N _.
Next Obligation. apply Byte.of_to_N. Qed.

Section servlet.
(** [Cb]: callbacks of function servlets; [Ty]: classes a templated creator is used with. *)
Context {Cb Ty : Type}.

Inductive Servlet :=
  | FunctionServlet (m_cb : Cb)
  | NotFoundServlet (m_name m_content : list byte)
  | OtherServlet (T : Ty).

(** [getName()]. *)
Definition Servlet_getName (TypeName : Ty → list byte) (s : Servlet) : list byte :=
  match s with
  | FunctionServlet _ => lit "FunctionServlet"
  | NotFoundServlet _ _ => lit "NotFoundServlet"
  | OtherServlet T => TypeName T
  end.

(** [NotFoundServlet(name)]. *)
Definition new_NotFoundServlet (name : list byte) : Servlet :=
  NotFoundServlet name
    (lit "<html><head><title>404 Not Found</title></head><body><center><h1>404 Not Found</h1></center><hr><center>"
     ++ name ++ lit "</center></body></html>").

(** [HoldServletCreator] and [ServletCreator<T>]. *)
Inductive ServletCreator := HoldServletCreator (m_servlet : Servlet) | NewServletCreator (T : Ty).
Definition creator_get (c : ServletCreator) : Servlet :=
  match c with HoldServletCreator s => s | NewServletCreator T => OtherServlet T end.
Definition creator_getName (TypeName TypeToName : Ty → list byte) (c : ServletCreator) : list byte :=
  match c with HoldServletCreator s => Servlet_getName TypeName s | NewServletCreator T => TypeToName T end.

Definition NOT_FOUND : Z := 404.

(** [handle(request, response, session)] of a servlet: the result and the response. *)
Definition servlet_handle (call : Cb → HttpRequest.t → HttpResponse.t → Z * HttpResponse.t)
    (other : Ty → HttpRequest.t → HttpResponse.t → Z * HttpResponse.t)
    (s : Servlet) (request : HttpRequest.t) (response : HttpResponse.t) : Z * HttpResponse.t :=
  match s with
  | FunctionServlet f => call f request response
  | NotFoundServlet _ content =>
      (0, HttpResponse.setBody content
            (HttpResponse.setHeader (lit "Content-Type") (lit "text/html")
               (HttpResponse.setHeader (lit "Server") (lit "sylar/1.0.0")
                  (HttpResponse.setStatus NOT_FOUND response))))
  | OtherServlet T => other T request response
  end.
End servlet.
Arguments Servlet : clear implicits.
Arguments ServletCreator : clear implicits.

Module ServletDispatch.
Section dispatch.
Context {Cb Ty : Type} (fnmatch : list byte → list byte → bool).

Record t := mk {
  m_datas : gmap (list byte) (ServletCreator Cb Ty);
  m_globs : list (list byte * ServletCreator Cb Ty);
  m_default : Servlet Cb Ty;
}.
Definition set_datas (v : gmap (list byte) (ServletCreator Cb Ty)) (s : t) : t := mk v (m_globs s) (m_default s).
Definition set_globs (v : list (list byte * ServletCreator Cb Ty)) (s : t) : t := mk (m_datas s) v (m_default s).

Definition make : t := mk ∅ [] (new_NotFoundServlet (lit "sylar/1.0")).

Definition addServletCreator (uri : list byte) (c : ServletCreator Cb Ty) (s : t) : t :=
  set_datas (<[uri := c]> (m_datas s)) s.
Definition addServlet (uri : list byte) (slt : Servlet Cb Ty) (s : t) : t :=
  set_datas (<[uri := HoldServletCreator slt]> (m_datas s)) s.
Definition addServlet_cb (uri : list byte) (cb : Cb) (s : t) : t :=
  set_datas (<[uri := HoldServletCreator (FunctionServlet cb)]> (m_datas s)) s.

(** The loop that erases the first entry with a given pattern. *)
Fixpoint erase_first (uri : list byte) (l : list (list byte * ServletCreator Cb Ty)) :=
  match l with
  | [] => []
  | e :: l => if bool_decide (e.1 = uri) then l else e :: erase_first uri l
  end.
Definition addGlobServletCreator (uri : list byte) (c : ServletCreator Cb Ty) (s : t) : t :=
  set_globs (erase_first uri (m_globs s) ++ [(uri, c)]) s.
Definition addGlobServlet (uri : list byte) (slt : Servlet Cb Ty) (s : t) : t :=
  set_globs (erase_first uri (m_globs s) ++ [(uri, HoldServletCreator slt)]) s.
Definition addGlobServlet_cb (uri : list byte) (cb : Cb) (s : t) : t := addGlobServlet uri (FunctionServlet cb) s.

Definition delServlet (uri : list byte) (s : t) : t := set_datas (delete uri (m_datas s)) s.
Definition delGlobServlet (uri : list byte) (s : t) : t := set_globs (erase_first uri (m_globs s)) s.
Definition getDefault (s : t) : Servlet Cb Ty := m_default s.
Definition setDefault (v : Servlet Cb Ty) (s : t) : t := mk (m_datas s) (m_globs s) v.

Definition getServlet (uri : list byte) (s : t) : option (Servlet Cb Ty) := creator_get <$> m_datas s !! uri.
Definition getGlobServlet (uri : list byte) (s : t) : option (Servlet Cb Ty) :=
  (fun e => creator_get e.2) <$> find (fun e => bool_decide (e.1 = uri)) (m_globs s).
Definition getMatchedServlet (uri : list byte) (s : t) : Servlet Cb Ty :=
  match m_datas s !! uri with
  | Some c => creator_get c
  | None =>
      match find (fun e => fnmatch (c_str e.1) (c_str uri)) (m_globs s) with
      | Some e => creator_get e.2
      | None => m_default s
      end
  end.

(** [handle]: the chosen servlet's own result is dropped. *)
Definition handle (call : Cb → HttpRequest.t → HttpResponse.t → Z * HttpResponse.t)
    (other : Ty → HttpRequest.t → HttpResponse.t → Z * HttpResponse.t)
    (s : t) (request : HttpRequest.t) (response : HttpResponse.t) : Z * HttpResponse.t :=
  (0, (servlet_handle call other (getMatchedServlet (HttpRequest.m_path request) s) request response).2).

Definition listAllServletCreator (infos : gmap (list byte) (ServletCreator Cb Ty)) (s : t) :=
  m_datas s ∪ infos.
Definition listAllGlobServletCreator (infos : gmap (list byte) (ServletCreator Cb Ty)) (s : t) :=
  foldl (fun m e => <[e.1 := e.2]> m) infos (m_globs s).

(** ** Registration histories *)

Inductive op :=
  | Add (uri : list byte) (c : ServletCreator Cb Ty)
  | AddGlob (uri : list byte) (c : ServletCreator Cb Ty)
  | Del (uri : list byte)
  | DelGlob (uri : list byte)
  | SetDefault (s : Servlet Cb Ty).

Definition step (s : t) (o : op) : t :=
  match o with
  | Add u c => addServletCreator u c s
  | AddGlob u c => addGlobServletCreator u c s
  | Del u => delServlet u s
  | DelGlob u => delGlobServlet u s
  | SetDefault v => setDefault v s
  end.
Definition run (ops : list op) : t := foldl step make ops.

(** The registration for an exact path that is in force after a history: the last one, unless it
    was deleted since. *)
Definition in_force (u : list byte) (ops : list op) : option (ServletCreator Cb Ty) :=
  foldl (fun r o => match o with
                    | Add v c => if bool_decide (v = u) then Some c else r
                    | Del v => if bool_decide (v = u) then None else r
                    | _ => r end) None ops.

(** The pattern registrations in force, in the order they were made: those that no later operation
    on the same pattern has replaced or deleted. *)
Definition touches (u : list byte) (o : op) : bool :=
  match o with AddGlob v _ | DelGlob v => bool_decide (v = u) | _ => false end.
Fixpoint alive (ops : list op) : list (list byte * ServletCreator Cb Ty) :=
  match ops with
  | [] => []
  | AddGlob u c :: ops => if existsb (touches u) ops then alive ops else (u, c) :: alive ops
  | _ :: ops => alive ops
  end.

Definition last_default (ops : list op) : Servlet Cb Ty :=
  foldl (fun r o => match o with SetDefault v => v | _ => r end) (new_NotFoundServlet (lit "sylar/1.0")) ops.

Lemma run_snoc ops o : run (ops ++ [o]) = step (run ops) o.
Proof. unfold run. by rewrite foldl_app. Qed.

Definition other_than (u : list byte) (l : list (list byte * ServletCreator Cb Ty)) :=
  List.filter (fun e => negb (bool_decide (e.1 = u))) l.

Lemma alive_snoc ops o :
  alive (ops ++ [o]) = match o with
                       | AddGlob u c => other_than u (alive ops) ++ [(u, c)]
                       | DelGlob u => other_than u (alive ops)
                       | _ => alive ops end.
Proof.
  induction ops as [|p ops IH]; [by destruct o|].
  destruct p as [| v d | | |]; simpl; try done. rewrite existsb_app, IH.
  destruct (existsb (touches v) ops) eqn:E; simpl; [done|]. rewrite orb_false_r.
  destruct o as [|u c| |u|]; simpl; try done; (case_bool_decide; [subst; by rewrite bool_decide_true|]);
    rewrite bool_decide_false by congruence; done.
Qed.

Lemma alive_nodup ops : NoDup (alive ops).*1.
Proof.
  induction ops as [|o ops IH] using rev_ind; [constructor|]. rewrite alive_snoc.
  assert (∀ u, NoDup (other_than u (alive ops)).*1 ∧ u ∉ (other_than u (alive ops)).*1) as Ho.
  { intros u. clear o. induction (alive ops) as [|e l IHl]; [split; [constructor|apply not_elem_of_nil]|].
    apply NoDup_cons in IH as [Hn IH]. destruct (IHl IH) as [H1 H2]. simpl.
    case_bool_decide; simpl; [done|]. split.
    - constructor; [|done]. intros (e' & E & He')%list_elem_of_fmap. apply Hn.
      apply list_elem_of_fmap. exists e'. split; [done|].
      apply list_elem_of_In, filter_In in He' as [He' _]. by apply list_elem_of_In.
    - rewrite not_elem_of_cons. split; [congruence|done]. }
  destruct o; try done; [|apply Ho]. destruct (Ho uri) as [H1 H2].
  rewrite fmap_app. apply NoDup_app. split_and!; [done| |apply NoDup_singleton].
  intros x Hx ->%list_elem_of_singleton. done.
Qed.

Lemma erase_first_other u (l : list (list byte * ServletCreator Cb Ty)) :
  NoDup l.*1 → erase_first u l = other_than u l.
Proof.
  induction l as [|e l IH]; [done|]. intros [Hn Hd]%NoDup_cons. simpl.
  case_bool_decide as E; simpl; [|by rewrite IH]. subst. clear IH Hd.
  induction l as [|e' l IH]; [done|]. apply not_elem_of_cons in Hn as [Hne Hn]. simpl.
  rewrite bool_decide_false by congruence. simpl. f_equal. by apply IH.
Qed.

Lemma servlet_run_ok ops :
  (∀ u, m_datas (run ops) !! u = in_force u ops) ∧ m_globs (run ops) = alive ops
  ∧ m_default (run ops) = last_default ops.
Proof.
  induction ops as [|o ops (IH1 & IH2 & IH3)] using rev_ind; [by split; [intros; apply lookup_empty|]|].
  rewrite run_snoc, alive_snoc. split_and!.
  - intros u. unfold in_force. rewrite foldl_app. fold (in_force u ops). rewrite <- IH1. simpl. destruct o; simpl; try done;
      case_bool_decide; subst; by simplify_map_eq.
  - destruct o; simpl; rewrite ?IH2, ?erase_first_other by apply alive_nodup; done.
  - unfold last_default. rewrite foldl_app. fold (last_default ops). rewrite <- IH3. by destruct o.
Qed.

(** C31. Which servlet answers a path, in terms of the history of registrations alone: the one in
    force for exactly this path; else, of the patterns in force that match it, the one whose
    (latest) registration is oldest; else the default. [handle] runs that servlet and no other,
    and answers 0 whatever it returned. The two lookups by name give the registration in force. *)
Theorem servlet_by_history ops call other request response :
  let uri := HttpRequest.m_path request in
  let slt := match in_force uri ops with
             | Some c => creator_get c
             | None => match find (fun e => fnmatch (c_str e.1) (c_str uri)) (alive ops) with
                       | Some e => creator_get e.2
                       | None => last_default ops end end in
  getMatchedServlet uri (run ops) = slt
  ∧ handle call other (run ops) request response = (0, (servlet_handle call other slt request response).2)
  ∧ (∀ u, getServlet u (run ops) = creator_get <$> in_force u ops)
  ∧ (∀ u c, getGlobServlet u (run ops) = Some c ↔ ∃ d, (u, d) ∈ alive ops ∧ creator_get d = c).
Proof.
  intros uri slt. destruct (servlet_run_ok ops) as (H1 & H2 & H3).
  assert (getMatchedServlet uri (run ops) = slt) as Hm
    by (unfold getMatchedServlet; by rewrite H1, H2, H3).
  split_and!; [done| | |].
  - unfold handle. fold uri. by rewrite Hm.
  - intros u. unfold getServlet. by rewrite H1.
  - intros u c. unfold getGlobServlet. rewrite H2. pose proof (alive_nodup ops) as Hnd. split.
    + intros ((u' & d) & Hf & ->)%fmap_Some. apply find_some in Hf as [Hin Hu]. simpl in *.
      apply bool_decide_eq_true in Hu. subst. exists d. split; [by apply list_elem_of_In|done].
    + intros (d & Hin & <-). clear -Hin Hnd. induction (alive ops) as [|e l IHl]; [by apply not_elem_of_nil in Hin|].
      simpl. apply NoDup_cons in Hnd as [Hn Hnd]. apply elem_of_cons in Hin as [<-|Hin].
      * by rewrite bool_decide_true.
      * rewrite bool_decide_false; [by apply IHl|]. intros E. apply Hn. rewrite E.
        apply list_elem_of_fmap. by exists (u, d).
Qed.
End dispatch.
Arguments t : clear implicits.
End ServletDispatch.
