(* ===== verification/Address.v ===== *)
(** * Addresses (sylar/address.h, sylar/address.cpp): data and operations

    The header [endian.h] defines [byteswapOnLittleEndian], which this file uses throughout, on
    little-endian hosts only, so the host is one here; integers in network order are the values
    such a host reads in their memory. [getaddrinfo], [getifaddrs] and [inet_pton] are arguments
    of the operations that call them. *)

From S2P Require Import Prelude Endian CString.

(** ** Masks *)

(** [CreateMask<T>(bits)] for the unsigned type of [w] bits: computed in [int], so the shift must
    stay below the width of [int] and the decrement may not overflow it. *)
Definition CreateMask (w bits : Z) : outcome Z :=
  let sh := u64 (w - bits) in
  if 31 <=? sh then Undef else Ret (uwrap w (2 ^ sh - 1)).

(** [CountBytes(value)], the loop bounded by the width. *)
Fixpoint CountBytes_loop (fuel : nat) (value result : Z) : outcome Z :=
  if value =? 0 then Ret result
  else match fuel with
       | O => NoFuel
       | S fuel => CountBytes_loop fuel (Z.land value (value - 1)) (result + 1)
       end.
Definition CountBytes (w value : Z) : outcome Z := CountBytes_loop (Z.to_nat w) value 0.

Definition AF_UNSPEC : Z := 0.
Definition AF_UNIX : Z := 1.
Definition AF_INET : Z := 2.
Definition AF_INET6 : Z := 10.

(** ** IPv4 *)

Module IPv4Address.
(** [sockaddr_in]: port and address in network order. *)
Record t := mk { sin_family : Z; sin_port : Z; s_addr : Z }.
Definition set_s_addr (v : Z) (a : t) : t := mk (sin_family a) (sin_port a) v.

(** [IPv4Address(address, port)]: the address is not used. *)
Definition make (address port : Z) : t := mk AF_INET (byteswapOnLittleEndian 2 port) 0.

(** [IPv4Address::Create(address, port)]; [inet_pton] gives the address in network order. *)
Definition Create (inet_pton : list byte → option Z) (address : list byte) (port : Z) : option t :=
  let rt := mk AF_INET (byteswapOnLittleEndian 2 port) 0 in
  v ← inet_pton address; Some (set_s_addr v rt).

Definition getAddr (a : t) : list byte :=
  le_split 2 (sin_family a) ++ le_split 2 (sin_port a) ++ le_split 4 (s_addr a) ++ replicate 8 x00.
Definition getAddrLen (a : t) : Z := 16.

(** [insert(os)]. *)
Definition insert (a : t) : list byte :=
  let addr := byteswapOnLittleEndian 4 (s_addr a) in
  dec (Z.land (Z.shiftr addr 24) 0xff) ++ lit "."
  ++ dec (Z.land (Z.shiftr addr 10) 0xff) ++ lit "."
  ++ dec (Z.land (Z.shiftr addr 8) 0xff) ++ lit "."
  ++ dec (Z.land addr 0xff)
  ++ lit ":" ++ dec (byteswapOnLittleEndian 2 (sin_port a)).

(** The three masks; [None] is the null pointer. *)
Definition broadcastAddress (prefix_len : Z) (a : t) : outcome (option t) :=
  if 32 <? prefix_len then Ret None
  else
    m ← CreateMask 32 prefix_len;
    Ret (Some (set_s_addr (Z.lor (s_addr a) (byteswapOnLittleEndian 4 m)) a)).
Definition networdAddress (prefix_len : Z) (a : t) : outcome (option t) :=
  if 32 <? prefix_len then Ret None
  else
    m ← CreateMask 32 prefix_len;
    Ret (Some (set_s_addr (Z.land (s_addr a) (byteswapOnLittleEndian 4 m)) a)).
Definition subnetMask (prefix_len : Z) (a : t) : outcome (option t) :=
  m ← CreateMask 32 prefix_len;
  Ret (Some (mk AF_INET 0 (u32 (Z.lnot (byteswapOnLittleEndian 4 m))))).

Definition getPort (a : t) : Z := byteswapOnLittleEndian 2 (sin_port a).
Definition setPort (v : Z) (a : t) : t := mk (sin_family a) (byteswapOnLittleEndian 2 v) (s_addr a).
End IPv4Address.

(** ** IPv6 *)

Module IPv6Address.
(** [sockaddr_in6]; [s6_addr] has 16 bytes. *)
Record t := mk {
  sin6_family : Z; sin6_port : Z; sin6_flowinfo : Z; s6_addr : list byte; sin6_scope_id : Z;
}.
Definition set_s6_addr (v : list byte) (a : t) : t :=
  mk (sin6_family a) (sin6_port a) (sin6_flowinfo a) v (sin6_scope_id a).
Definition zeros : list byte := replicate 16 x00.

Definition make : t := mk AF_INET6 0 0 zeros 0.
Definition make_from (address : list byte) (port : Z) : t :=
  mk AF_INET6 (byteswapOnLittleEndian 2 port) 0 (take 16 address) 0.

Definition Create (inet_pton : list byte → option (list byte)) (address : list byte) (port : Z) : option t :=
  let rt := mk AF_INET6 (byteswapOnLittleEndian 2 port) 0 zeros 0 in
  v ← inet_pton address; Some (set_s6_addr v rt).

Definition getAddr (a : t) : list byte :=
  le_split 2 (sin6_family a) ++ le_split 2 (sin6_port a) ++ le_split 4 (sin6_flowinfo a)
  ++ s6_addr a ++ le_split 4 (sin6_scope_id a).
Definition getAddrLen (a : t) : Z := 28.

(** [insert(os)]: the loop over the eight groups; [addr] are the groups as the host reads them. *)
Definition group (a : t) (i : nat) : Z := le_join (take 2 (drop (2 * i) (s6_addr a))).
Fixpoint insert_loop (a : t) (n : nat) (i : nat) (used_zeros : bool) : list byte * bool :=
  match n with
  | O => ([], used_zeros)
  | S n =>
      if (group a i =? 0) && negb used_zeros then insert_loop a n (S i) used_zeros
      else
        let compress := negb (i =? 0)%nat && (group a (i - 1) =? 0) && negb used_zeros in
        let used_zeros := used_zeros || compress in
        let '(rest, used) := insert_loop a n (S i) used_zeros in
        ((if compress then lit ":" else []) ++ (if (i =? 0)%nat then [] else lit ":")
         ++ hex (byteswapOnLittleEndian 2 (group a i)) ++ rest, used)
  end.
Definition insert (a : t) : list byte :=
  let '(groups, used_zeros) := insert_loop a 8 0 false in
  lit "[" ++ groups
  ++ (if negb used_zeros && (group a 7 =? 0) then lit "::" else [])
  ++ lit "]:" ++ dec (byteswapOnLittleEndian 2 (sin6_port a)).

(** [baddr.sin6_addr.s6_addr[i] = f(...)]: past the array it is undefined. *)
Definition set_byte (i : Z) (f : Z → Z) (l : list byte) : outcome (list byte) :=
  b ← deref (l !! Z.to_nat i); Ret (<[Z.to_nat i := byte_of_Z (f (byte_to_Z b))]> l).

Definition broadcastAddress (prefix_len : Z) (a : t) : outcome t :=
  m ← CreateMask 8 (prefix_len mod 8);
  l ← set_byte (prefix_len / 8) (fun b => Z.lor b m) (s6_addr a);
  let k := Z.to_nat (prefix_len / 8 + 1) in
  Ret (set_s6_addr (take k l ++ replicate (16 - k) xff) a).
Definition networdAddress (prefix_len : Z) (a : t) : outcome t :=
  m ← CreateMask 8 (prefix_len mod 8);
  l ← set_byte (prefix_len / 8) (fun b => Z.land b m) (s6_addr a);
  Ret (set_s6_addr l a).

(** The loop [for (i = 0; i < prefix_len / 8 + 1; ++i) s6_addr[i] = 0xFF]. *)
Fixpoint fill (n : nat) (i : nat) (l : list byte) : outcome (list byte) :=
  match n with
  | O => Ret l
  | S n => l' ← set_byte (Z.of_nat i) (fun _ => 255) l; fill n (S i) l'
  end.
Definition subnetMask (prefix_len : Z) (a : t) : outcome t :=
  m ← CreateMask 8 (prefix_len mod 8);
  l ← set_byte (prefix_len / 8) (fun _ => Z.lnot m) zeros;
  l ← fill (Z.to_nat (prefix_len / 8 + 1)) 0 l;
  Ret (mk AF_INET6 0 0 l 0).

Definition getPort (a : t) : Z := byteswapOnLittleEndian 2 (sin6_port a).
Definition setPort (v : Z) (a : t) : t :=
  mk (sin6_family a) (byteswapOnLittleEndian 2 v) (sin6_flowinfo a) (s6_addr a) (sin6_scope_id a).
End IPv6Address.

(** ** Unix-domain and other addresses *)

Module UnixAddress.
(** [sockaddr_un]: [sun_path] has 108 bytes behind the family. *)
Record t := mk { sun_family : Z; sun_path : list byte; m_length : Z }.
Definition path_size : Z := 108.
Definition path_offset : Z := 2.
Definition MAX_PATH_LEN : Z := path_size - 1.

Definition setAddrLen (v : Z) (a : t) : t := mk (sun_family a) (sun_path a) v.
Definition make : t := mk AF_UNIX (replicate 108 x00) (path_offset + MAX_PATH_LEN).

(** [UnixAddress(path)]. *)
Definition make_from (path : list byte) : outcome t :=
  let m_length := u32 (Z.of_nat (length path) + 1) in
  let m_length := if match path with x00 :: _ => true | _ => false end then m_length - 1 else m_length in
  if path_size <? m_length then Throw logic_error
  else
    let bytes := take (Z.to_nat m_length) (path ++ [x00]) in
    Ret (mk AF_UNIX (bytes ++ replicate (108 - length bytes) x00) (m_length + path_offset)).

Definition getAddr (a : t) : list byte := le_split 2 (sun_family a) ++ sun_path a.
Definition getAddrLen (a : t) : Z := m_length a.

(** [insert(os)]: both branches may run past the array. *)
Definition insert (a : t) : outcome (list byte) :=
  if (path_offset <? m_length a) && match sun_path a with x00 :: _ => true | _ => false end then
    let n := m_length a - path_offset - 1 in
    if path_size - 1 <? n then Undef else Ret (lit "\0" ++ take (Z.to_nat n) (drop 1 (sun_path a)))
  else if bool_decide (x00 ∈ sun_path a) then Ret (c_str (sun_path a)) else Undef.
End UnixAddress.

Module UnknownAddress.
(** [sockaddr]. *)
Record t := mk { sa_family : Z; sa_data : list byte }.
Definition make (family : Z) : t := mk (u16 family) (replicate 14 x00).
Definition getAddr (a : t) : list byte := le_split 2 (sa_family a) ++ sa_data a.
Definition getAddrLen (a : t) : Z := 16.
Definition insert (a : t) : list byte :=
  lit "[UnknownAddress family=" ++ dec (sa_family a) ++ lit "]".
End UnknownAddress.

(** ** The class hierarchy *)

Module Address.
Inductive t :=
  | IPv4 (a : IPv4Address.t)
  | IPv6 (a : IPv6Address.t)
  | Unix (a : UnixAddress.t)
  | Unknown (a : UnknownAddress.t).

Definition getAddr (a : t) : list byte :=
  match a with
  | IPv4 a => IPv4Address.getAddr a
  | IPv6 a => IPv6Address.getAddr a
  | Unix a => UnixAddress.getAddr a
  | Unknown a => UnknownAddress.getAddr a
  end.
Definition getAddrLen (a : t) : Z :=
  match a with
  | IPv4 a => IPv4Address.getAddrLen a
  | IPv6 a => IPv6Address.getAddrLen a
  | Unix a => UnixAddress.getAddrLen a
  | Unknown a => UnknownAddress.getAddrLen a
  end.
Definition getFamily (a : t) : Z := le_join (take 2 (getAddr a)).
Definition toString (a : t) : outcome (list byte) :=
  match a with
  | IPv4 a => Ret (IPv4Address.insert a)
  | IPv6 a => Ret (IPv6Address.insert a)
  | Unix a => UnixAddress.insert a
  | Unknown a => Ret (UnknownAddress.insert a)
  end.

(** The fields of [sockaddr_in] and [sockaddr_in6] in memory. *)
Definition sockaddr_in_of (m : list byte) : outcome IPv4Address.t :=
  if (length m <? 16)%nat then Undef
  else Ret (IPv4Address.mk (le_join (m.[0, 2])) (le_join (m.[2, 2])) (le_join (m.[4, 4]))).
Definition sockaddr_in6_of (m : list byte) : outcome IPv6Address.t :=
  if (length m <? 28)%nat then Undef
  else Ret (IPv6Address.mk (le_join (m.[0, 2])) (le_join (m.[2, 2])) (le_join (m.[4, 4])) (m.[8, 16])
              (le_join (m.[24, 4]))).
Definition sockaddr_of (m : list byte) : outcome UnknownAddress.t :=
  if (length m <? 16)%nat then Undef else Ret (UnknownAddress.mk (le_join (m.[0, 2])) (m.[2, 14])).

(** [Create(addr, addrlen)]; the pointer may be null, the length is not used. *)
Definition Create (addr : option (list byte)) (addrlen : Z) : outcome (option t) :=
  match addr with
  | None => Ret None
  | Some m =>
      let sa_family := le_join (m.[0, 2]) in
      if sa_family =? AF_INET then a ← sockaddr_in_of m; Ret (Some (IPv4 a))
      else if sa_family =? AF_INET6 then a ← sockaddr_in6_of m; Ret (Some (IPv6 a))
      else a ← sockaddr_of m; Ret (Some (Unknown a))
  end.

(** [memcmp(l, r, n)]: reading past either object is undefined. *)
Fixpoint memcmp_loop (l r : list byte) : comparison :=
  match l, r with
  | a :: l, b :: r => match byte_to_Z a ?= byte_to_Z b with Eq => memcmp_loop l r | c => c end
  | _, _ => Eq
  end.
Definition memcmp (l r : list byte) (n : Z) : outcome comparison :=
  if (Z.of_nat (length l) <? n) || (Z.of_nat (length r) <? n) then Undef
  else Ret (memcmp_loop (take (Z.to_nat n) l) (take (Z.to_nat n) r)).

Definition lt (l r : t) : outcome bool :=
  let minlen := Z.min (getAddrLen l) (getAddrLen r) in
  c ← memcmp (getAddr l) (getAddr r) minlen;
  Ret (match c with Lt => true | Gt => false | Eq => getAddrLen l <? getAddrLen r end).
Definition eq (l r : t) : outcome bool :=
  if getAddrLen l =? getAddrLen r then
    c ← memcmp (getAddr l) (getAddr r) (getAddrLen l);
    Ret (match c with Eq => true | _ => false end)
  else Ret false.
Definition ne (l r : t) : outcome bool := b ← eq l r; Ret (negb b).

(** ** Resolving names *)

(** How [Lookup] splits the host: what it passes to [getaddrinfo]. Pointers into the host
    are suffixes of it, up to the next zero byte. *)
Definition split_host (host : list byte) : list byte * option (list byte) :=
  let '(node, service) :=
    match host with
    | x5b :: rest =>
        match index_of x5d rest with
        | Some i =>
            (take i rest,
             match drop (S i) rest with x3a :: after => Some (c_str after) | _ => None end)
        | None => ([], None)
        end
    | _ => ([], None)
    end in
  let '(node, service) :=
    match node with
    | _ :: _ => (node, service)
    | [] =>
        match index_of x3a host with
        | Some i =>
            match index_of x3a (drop (S i) host) with
            | None => (take i host, Some (c_str (drop (S i) host)))
            | Some _ => ([], Some (c_str (drop i host)))
            end
        | None => ([], None)
        end
    end in
  (c_str (match node with [] => host | _ => node end), service).

Section lookup.
(** [getaddrinfo(node, service, {family, type, protocol})]: the addresses, [None] on an error. *)
Variable getaddrinfo : list byte → option (list byte) → Z → Z → Z → option (list (option (list byte) * Z)).

Fixpoint create_all (l : list (option (list byte) * Z)) : outcome (list (option t)) :=
  match l with
  | [] => Ret []
  | (m, len) :: l => a ← Create m len; r ← create_all l; Ret (a :: r)
  end.

(** [Lookup(result, host, family, type, protocol)]: the flag, and what was added to [result]. *)
Definition Lookup (host : list byte) (family type protocol : Z) : outcome (bool * list (option t)) :=
  let '(node, service) := split_host host in
  match getaddrinfo node service family type protocol with
  | None => Ret (false, [])
  | Some l => r ← create_all l; Ret (true, r)
  end.

(** [result[0]] of an empty vector is undefined. *)
Definition LookupAny (host : list byte) (family type protocol : Z) : outcome (option t) :=
  r ← Lookup host family type protocol;
  if r.1 : bool then deref (head r.2) else Ret None.

Definition is_ip (a : option t) : bool :=
  match a with Some (IPv4 _) | Some (IPv6 _) => true | _ => false end.
Definition LookupAnyIPAddress (host : list byte) (family type protocol : Z) : outcome (option t) :=
  r ← Lookup host family type protocol;
  Ret (if r.1 : bool then default None (find is_ip r.2) else None).
End lookup.

(** [IPAddress::Create(address, port)]; [getaddrinfo] is called for numeric hosts. *)
Definition setPort (port : Z) (a : t) : t :=
  match a with
  | IPv4 a => IPv4 (IPv4Address.setPort port a)
  | IPv6 a => IPv6 (IPv6Address.setPort port a)
  | a => a
  end.
Definition IPAddress_Create (getaddrinfo : list byte → option (list (option (list byte) * Z)))
    (address : list byte) (port : Z) : outcome (option t) :=
  match getaddrinfo address with
  | None => Ret None
  | Some l =>
      '(m, len) ← deref (head l);
      a ← Create m len;
      Ret (match a with
           | Some a => if is_ip (Some a) then Some (setPort port a) else None
           | None => None
           end)
  end.

(** ** Interfaces *)

(** One entry of [getifaddrs]: name, address and netmask, whose pointers may be null. *)
Record ifaddr := mkIf { ifa_name : list byte; ifa_addr : option (list byte); ifa_netmask : option (list byte) }.

Fixpoint sum_counts (l : list byte) : outcome Z :=
  match l with [] => Ret 0 | b :: l => n ← CountBytes 8 (byte_to_Z b); m ← sum_counts l; Ret (n + m) end.

Definition prefix_of_mask (sa_family : Z) (mask : list byte) : outcome Z :=
  if sa_family =? AF_INET then a ← sockaddr_in_of mask; CountBytes 32 (IPv4Address.s_addr a)
  else a ← sockaddr_in6_of mask; sum_counts (IPv6Address.s6_addr a).

Definition interface_address (i : ifaddr) : outcome (option (t * Z)) :=
  m ← deref (ifa_addr i);
  let sa_family := le_join (m.[0, 2]) in
  if (sa_family =? AF_INET) || (sa_family =? AF_INET6) then
    addr ← Create (Some m) (if sa_family =? AF_INET then 16 else 28);
    mask ← deref (ifa_netmask i);
    prefix_len ← prefix_of_mask sa_family mask;
    Ret (match addr with Some a => Some (a, prefix_len) | None => None end)
  else Ret None.

(** [GetInterfaceAddresses(result, family)]: the multimap, in insertion order. *)
Fixpoint interfaces_loop (family : Z) (l : list ifaddr) : outcome (list (list byte * (t * Z))) :=
  match l with
  | [] => Ret []
  | i :: l =>
      m ← deref (ifa_addr i);
      if negb (family =? AF_UNSPEC) && negb (family =? le_join (m.[0, 2])) then interfaces_loop family l
      else
        a ← interface_address i;
        r ← interfaces_loop family l;
        Ret (match a with Some a => (ifa_name i, a) :: r | None => r end)
  end.
Definition GetInterfaceAddresses (getifaddrs : option (list ifaddr)) (family : Z)
    : outcome (bool * list (list byte * (t * Z))) :=
  match getifaddrs with
  | None => Ret (false, [])
  | Some l => r ← interfaces_loop family l; Ret (true, r)
  end.

(** [GetInterfaceAddresses(result, iface, family)]. *)
Definition GetInterfaceAddresses_of (getifaddrs : option (list ifaddr)) (iface : list byte) (family : Z)
    : outcome (bool * list (t * Z)) :=
  if bool_decide (iface = []) || bool_decide (iface = lit "*") then
    Ret (true,
      (if (family =? AF_INET) || (family =? AF_UNSPEC) then [(IPv4 (IPv4Address.make 0 0), 0)] else [])
      ++ (if (family =? AF_INET6) || (family =? AF_UNSPEC) then [(IPv6 IPv6Address.make, 0)] else []))
  else
    r ← GetInterfaceAddresses getifaddrs family;
    Ret (if r.1 : bool then (true, (filter (fun e => e.1 = iface) r.2).*2) else (false, [])).
End Address.
