(* ===== verification/AddressProps.v ===== *)
(** * What addresses guarantee

    Masks and prefix lengths, the order on addresses, the way through [sockaddr], and how a host
    string is split before it is resolved. *)

From Stdlib Require Import Btauto.
From S2P Require Import Prelude Endian CString Address.

(** ** Bitwise operations under a change of byte order *)

Section bytewise.
Context (op : Z → Z → Z).
Hypothesis op_mod : ∀ a b, op a b mod 256 = op (a mod 256) (b mod 256) mod 256.
Hypothesis op_div : ∀ a b, op a b / 256 = op (a / 256) (b / 256).
Hypothesis op_fits : ∀ w a b, 0 <= w → fits_u w a → fits_u w b → fits_u w (op a b).

Definition byte_op (a b : byte) : byte := byte_of_Z (op (byte_to_Z a) (byte_to_Z b)).

Lemma byte_of_op a b : byte_of_Z (op a b) = byte_op (byte_of_Z a) (byte_of_Z b).
Proof.
  unfold byte_op. apply byte_to_Z_inj. rewrite !byte_to_of_Z. apply op_mod.
Qed.

Lemma le_split_op n a b : le_split n (op a b) = zip_with byte_op (le_split n a) (le_split n b).
Proof.
  revert a b. induction n as [|n IH]; intros a b; simpl; [done|].
  by rewrite byte_of_op, op_div, IH.
Qed.

Lemma rev_zip_with (l k : list byte) :
  length l = length k → rev (zip_with byte_op l k) = zip_with byte_op (rev l) (rev k).
Proof.
  revert k. induction l as [|x l IH]; intros [|y k] Hl; simplify_eq/=; [done|].
  rewrite IH, zip_with_app by (rewrite ?length_rev; congruence). done.
Qed.

Lemma le_split_inj n a b :
  fits_u (8 * Z.of_nat n) a → fits_u (8 * Z.of_nat n) b → le_split n a = le_split n b → a = b.
Proof.
  intros Ha Hb E. rewrite <- (uwrap_small _ a Ha), <- (uwrap_small _ b Hb), <- !le_join_split.
  by rewrite E.
Qed.

Lemma byteswap_op n a b :
  fits_u (8 * Z.of_nat n) a → fits_u (8 * Z.of_nat n) b →
  byteswapOnLittleEndian n (op a (byteswapOnLittleEndian n b)) = op (byteswapOnLittleEndian n a) b.
Proof.
  intros Ha Hb. unfold byteswapOnLittleEndian, byteswap_u.
  assert (fits_u (8 * Z.of_nat n) (bswap n b)) by apply bswap_fits.
  rewrite (uwrap_small _ a), (uwrap_small _ b) by done.
  rewrite uwrap_small by (apply op_fits; [lia|done..]).
  apply (le_split_inj n); [apply bswap_fits|apply op_fits; [lia|apply bswap_fits|done]|].
  rewrite le_split_bswap, !le_split_op, !le_split_bswap, rev_zip_with
    by (by rewrite ?length_rev, !length_le_split).
  by rewrite rev_involutive.
Qed.
End bytewise.

Lemma land_fits w a b : 0 <= w → fits_u w a → fits_u w b → fits_u w (Z.land a b).
Proof.
  unfold fits_u. intros Hw Ha Hb. rewrite <- (Z.mod_small a (2 ^ w)), <- (Z.land_ones a w) by lia.
  rewrite <- Z.land_assoc, (Z.land_comm (Z.ones w)), Z.land_assoc, Z.land_ones by lia.
  apply Z.mod_pos_bound. lia.
Qed.

Lemma lor_fits w a b : 0 <= w → fits_u w a → fits_u w b → fits_u w (Z.lor a b).
Proof.
  unfold fits_u. intros Hw Ha Hb. split; [apply Z.lor_nonneg; lia|].
  destruct (decide (a = 0)) as [->|]; [rewrite Z.lor_0_l; lia|].
  destruct (decide (b = 0)) as [->|]; [rewrite Z.lor_0_r; lia|].
  assert (Z.lor a b ≠ 0) by (intros [? ?]%Z.lor_eq_0_iff; lia).
  assert (0 <= Z.lor a b) by (apply Z.lor_nonneg; lia).
  apply Z.log2_lt_pow2; [lia|]. rewrite Z.log2_lor by lia.
  apply Z.max_lub_lt; apply Z.log2_lt_pow2; lia.
Qed.

Lemma mod_256 z : z mod 256 = Z.land z (Z.ones 8).
Proof. by rewrite Z.land_ones by lia. Qed.
Lemma div_256 z : z / 256 = Z.shiftr z 8.
Proof. by rewrite Z.shiftr_div_pow2 by lia. Qed.

Lemma byteswap_land n a b :
  fits_u (8 * Z.of_nat n) a → fits_u (8 * Z.of_nat n) b →
  byteswapOnLittleEndian n (Z.land a (byteswapOnLittleEndian n b)) = Z.land (byteswapOnLittleEndian n a) b.
Proof.
  apply byteswap_op; [| |apply land_fits]; intros x y.
  - rewrite !mod_256. apply Z.bits_inj'. intros i Hi. rewrite !Z.land_spec. btauto.
  - rewrite !div_256. by rewrite Z.shiftr_land.
Qed.

Lemma byteswap_lor n a b :
  fits_u (8 * Z.of_nat n) a → fits_u (8 * Z.of_nat n) b →
  byteswapOnLittleEndian n (Z.lor a (byteswapOnLittleEndian n b)) = Z.lor (byteswapOnLittleEndian n a) b.
Proof.
  apply byteswap_op; [| |apply lor_fits]; intros x y.
  - rewrite !mod_256. apply Z.bits_inj'. intros i Hi. rewrite !Z.land_spec, !Z.lor_spec, !Z.land_spec. btauto.
  - rewrite !div_256. by rewrite Z.shiftr_lor.
Qed.

(** ** Counting bits *)

(** The number of ones of a positive number. *)
Fixpoint ones_of (p : positive) : nat :=
  match p with xH => 1 | xO p => ones_of p | xI p => S (ones_of p) end.
Definition popcount (v : Z) : nat := match v with Z.pos p => ones_of p | _ => 0 end.

Lemma popcount_double v : 0 <= v → popcount (2 * v) = popcount v ∧ popcount (2 * v + 1) = S (popcount v).
Proof. destruct v as [|p|p]; [done| |lia]. done. Qed.

Lemma clear_lowest p :
  S (popcount (Z.land (Z.pos p) (Z.pos p - 1))) = ones_of p ∧ 0 <= Z.land (Z.pos p) (Z.pos p - 1).
Proof.
  induction p as [p _|p [IH IH0]|]; [| |done].
  - replace (Z.pos p~1 - 1) with (Z.pos p~0) by lia.
    assert (Z.land (Z.pos p~1) (Z.pos p~0) = 2 * Z.pos p) as ->.
    { change (Z.pos p~1) with (2 * Z.pos p + 1). change (Z.pos p~0) with (2 * Z.pos p).
      apply Z.bits_inj'. intros i Hi. rewrite Z.land_spec. destruct (decide (i = 0)) as [->|].
      - by rewrite Z.testbit_odd_0, Z.testbit_even_0.
      - replace i with (Z.succ (i - 1)) by lia. rewrite Z.testbit_odd_succ, Z.testbit_even_succ by lia.
        by destruct (Z.testbit _ _). }
    split; [|lia]. by rewrite (proj1 (popcount_double (Z.pos p) ltac:(lia))).
  - assert (Z.land (Z.pos p~0) (Z.pos p~0 - 1) = 2 * Z.land (Z.pos p) (Z.pos p - 1)) as ->.
    { replace (Z.pos p~0 - 1) with (2 * (Z.pos p - 1) + 1) by lia. change (Z.pos p~0) with (2 * Z.pos p).
      apply Z.bits_inj'. intros i Hi. rewrite Z.land_spec. destruct (decide (i = 0)) as [->|].
      - by rewrite !Z.testbit_even_0.
      - replace i with (Z.succ (i - 1)) by lia.
        rewrite Z.testbit_odd_succ, !Z.testbit_even_succ, Z.land_spec by lia. done. }
    split; [|lia]. rewrite (proj1 (popcount_double _ IH0)). exact IH.
Qed.

Lemma ones_of_size p w : Z.pos p < 2 ^ Z.of_nat w → (ones_of p <= w)%nat.
Proof.
  revert p. induction w as [|w IH]; intros p Hp; [simpl in Hp; lia|].
  rewrite Nat2Z.inj_succ, Z.pow_succ_r in Hp by lia.
  destruct p as [p|p|]; simpl; [apply le_n_S, IH|apply le_S, IH|]; lia.
Qed.

Lemma CountBytes_loop_ok fuel v r :
  0 <= v → (popcount v <= fuel)%nat → CountBytes_loop fuel v r = Ret (r + Z.of_nat (popcount v)).
Proof.
  revert v r. induction fuel as [|fuel IH]; intros v r Hv Hf.
  - destruct v as [|p|]; [by rewrite Z.add_0_r| |lia]. pose proof (clear_lowest p). simpl in Hf. lia.
  - destruct v as [|p|]; [by rewrite Z.add_0_r| |lia]. cbn [CountBytes_loop]. change (Z.pos p =? 0) with false.
    pose proof (clear_lowest p) as [Hc H0]. simpl in Hf. rewrite IH by lia. f_equal. simpl. lia.
Qed.

Lemma CountBytes_ok w v : 0 <= w → fits_u w v → CountBytes w v = Ret (Z.of_nat (popcount v)).
Proof.
  intros Hw [Hv Hlt]. unfold CountBytes. rewrite CountBytes_loop_ok; [done|lia|].
  destruct v as [|p|]; [simpl; lia| |lia]. apply ones_of_size. by rewrite Z2Nat.id.
Qed.

(** ** Masks *)

Lemma CreateMask_ok w p :
  w = 32 ∨ w = 8 → 0 <= p < 2 ^ 32 →
  CreateMask w p = if (p <=? w) && (w - p <=? 30) then Ret (2 ^ (w - p) - 1) else Undef.
Proof.
  intros Hw Hp. unfold CreateMask. destruct (Z.leb_spec p w) as [Hle|Hgt]; simpl.
  - rewrite uwrap_small by (unfold fits_u; lia).
    destruct (Z.leb_spec 31 (w - p)), (Z.leb_spec (w - p) 30); try lia; [done|].
    f_equal. apply uwrap_small. unfold fits_u.
    assert (2 ^ (w - p) <= 2 ^ w) by (apply Z.pow_le_mono_r; lia).
    assert (0 < 2 ^ (w - p)) by (apply Z.pow_pos_nonneg; lia). lia.
  - destruct (Z.leb_spec 31 (u64 (w - p))) as [|Hlt]; [done|].
    replace (u64 (w - p)) with (2 ^ 64 + (w - p)) in Hlt; [lia|].
    unfold uwrap. apply (Z.mod_unique_pos _ _ (-1)); lia.
Qed.

Lemma mask_fits w p : 0 <= p <= w → fits_u w (2 ^ (w - p) - 1).
Proof.
  intros Hp. unfold fits_u. assert (2 ^ (w - p) <= 2 ^ w) by (apply Z.pow_le_mono_r; lia).
  assert (0 < 2 ^ (w - p)) by (apply Z.pow_pos_nonneg; lia). lia.
Qed.

(** The subnet mask does not depend on the address: all its prefix lengths, by computation. *)
Definition subnet_ok (p : Z) : bool :=
  match IPv4Address.subnetMask p (IPv4Address.make 0 0) with
  | Ret (Some m) =>
      (byteswapOnLittleEndian 4 (IPv4Address.s_addr m) =? 2 ^ 32 - 2 ^ (32 - p))
      && match CountBytes 32 (IPv4Address.s_addr m) with Ret n => n =? p | _ => false end
  | _ => false
  end.
Lemma subnet_all : forallb (λ n, subnet_ok (Z.of_nat n + 2)) (seq 0 31) = true.
Proof. by vm_compute. Qed.

Lemma subnet_spec p a :
  2 <= p <= 32 →
  ∃ m, IPv4Address.subnetMask p a = Ret (Some m)
    ∧ byteswapOnLittleEndian 4 (IPv4Address.s_addr m) = 2 ^ 32 - 2 ^ (32 - p)
    ∧ CountBytes 32 (IPv4Address.s_addr m) = Ret p.
Proof.
  intros Hp. pose proof subnet_all as Hall. rewrite forallb_forall in Hall.
  specialize (Hall (Z.to_nat (p - 2))). rewrite Z2Nat.id in Hall by lia.
  replace (p - 2 + 2) with p in Hall by lia. unfold subnet_ok in Hall.
  change (IPv4Address.subnetMask p (IPv4Address.make 0 0)) with (IPv4Address.subnetMask p a) in Hall.
  destruct (IPv4Address.subnetMask p a) as [[m|]| | | |]; try (exfalso; apply diff_false_true, Hall, in_seq; lia).
  exists m. split; [done|]. assert ((_ && _) = true) as [H1 H2]%andb_prop by (apply Hall, in_seq; lia).
  split; [lia|]. destruct (CountBytes 32 _); try done. f_equal. lia.
Qed.

(** The prefix operations of an IPv4 address, for prefix lengths 2 to 32: the broadcast address
    has every host bit set; the subnet mask has exactly the prefix bits, and counting its bits,
    as [GetInterfaceAddresses] does, gives the prefix length back; but the network address keeps
    the host bits instead of the prefix bits. Above 32 there is no broadcast or network
    address and the mask is undefined, and for 0 and 1 the shift in [CreateMask] overflows. *)
Theorem ipv4_masks a p :
  fits_u 32 (IPv4Address.s_addr a) → 0 <= p < 2 ^ 32 →
  let ip x := byteswapOnLittleEndian 4 (IPv4Address.s_addr x) in
  (2 <= p <= 32 → ∃ b n m,
     IPv4Address.broadcastAddress p a = Ret (Some b) ∧ ip b = Z.lor (ip a) (2 ^ (32 - p) - 1)
     ∧ IPv4Address.networdAddress p a = Ret (Some n) ∧ ip n = Z.land (ip a) (2 ^ (32 - p) - 1)
     ∧ IPv4Address.subnetMask p a = Ret (Some m) ∧ ip m = 2 ^ 32 - 2 ^ (32 - p)
     ∧ CountBytes 32 (IPv4Address.s_addr m) = Ret p)
  ∧ (32 < p → IPv4Address.broadcastAddress p a = Ret None ∧ IPv4Address.networdAddress p a = Ret None
       ∧ IPv4Address.subnetMask p a = Undef)
  ∧ (p < 2 → IPv4Address.broadcastAddress p a = Undef ∧ IPv4Address.networdAddress p a = Undef
       ∧ IPv4Address.subnetMask p a = Undef).
Proof.
  intros Ha Hp ip. unfold IPv4Address.broadcastAddress, IPv4Address.networdAddress.
  pose proof (CreateMask_ok 32 p (or_introl eq_refl) Hp) as Hm. split_and!.
  - intros Hr. destruct (subnet_spec p a Hr) as (m & Em & Hip & Hc).
    rewrite (proj2 (Z.ltb_ge _ _)) by lia. rewrite Hm.
    rewrite (proj2 (Z.leb_le p 32)), (proj2 (Z.leb_le (32 - p) 30)) by lia. cbn [andb]. rewrite !bind_Ret.
    do 2 eexists. exists m. split_and!; try done; unfold ip; cbn [IPv4Address.s_addr IPv4Address.set_s_addr].
    + apply (byteswap_lor 4); [done|by apply mask_fits; lia].
    + apply (byteswap_land 4); [done|by apply mask_fits; lia].
  - intros Hr. rewrite (proj2 (Z.ltb_lt _ _)) by lia. split_and!; [done..|].
    unfold IPv4Address.subnetMask. by rewrite Hm, (proj2 (Z.leb_gt p 32)) by lia.
  - intros Hr. rewrite (proj2 (Z.ltb_ge _ _)) by lia. unfold IPv4Address.subnetMask.
    rewrite Hm, (proj2 (Z.leb_gt (32 - p) 30)), andb_false_r by lia. done.
Qed.

Lemma set_byte_ok i f (l : list byte) :
  0 <= i < Z.of_nat (length l) →
  ∃ b, l !! Z.to_nat i = Some b
    ∧ IPv6Address.set_byte i f l = Ret (<[Z.to_nat i := byte_of_Z (f (byte_to_Z b))]> l).
Proof.
  intros Hi. destruct (lookup_lt_is_Some_2 l (Z.to_nat i)) as [b Hb]; [lia|].
  exists b. split; [done|]. unfold IPv6Address.set_byte. by rewrite Hb.
Qed.

Lemma set_byte_past i f (l : list byte) :
  Z.of_nat (length l) <= i → IPv6Address.set_byte i f l = Undef.
Proof. intros Hi. unfold IPv6Address.set_byte. by rewrite lookup_ge_None_2 by lia. Qed.

Lemma fill_ok n i (l : list byte) :
  (i + n <= length l)%nat →
  ∃ l', IPv6Address.fill n i l = Ret l'
    ∧ ∀ j, l' !! j = if decide (i <= j < i + n)%nat then Some xff else l !! j.
Proof.
  revert i l. induction n as [|n IH]; intros i l Hi; cbn [IPv6Address.fill].
  - exists l. split; [done|]. intros j. by rewrite decide_False by lia.
  - destruct (set_byte_ok (Z.of_nat i) (λ _, 255) l) as (b & Hb & ->); [lia|]. rewrite bind_Ret, Nat2Z.id.
    destruct (IH (S i) (<[i := byte_of_Z 255]> l)) as (l' & -> & Hl'); [rewrite length_insert; lia|].
    exists l'. split; [done|]. intros j. rewrite Hl'. destruct (decide (j = i)) as [->|Hne].
    + rewrite decide_False, decide_True, list_lookup_insert_eq by lia. done.
    + rewrite list_lookup_insert_ne by done. by repeat case_decide; try lia.
Qed.

(** The prefix operations of an IPv6 address, byte by byte. Below 128 the broadcast address has
    the prefix bits of the address and then ones. The network address keeps the host bits of
    the one byte the prefix ends in and changes no other. The subnet mask is rounded up to
    whole bytes: all bits of the byte the prefix ends in are set, also when it ends at its
    start. From 128 on all three write past the array. *)
Theorem ipv6_masks a p :
  length (IPv6Address.s6_addr a) = 16%nat → 0 <= p < 2 ^ 32 →
  let k := Z.to_nat (p / 8) in
  let host := 2 ^ (8 - p mod 8) - 1 in
  (p < 128 → ∃ b n m old,
     IPv6Address.broadcastAddress p a = Ret b ∧ IPv6Address.networdAddress p a = Ret n
     ∧ IPv6Address.subnetMask p a = Ret m ∧ IPv6Address.s6_addr a !! k = Some old
     ∧ ∀ i, (i < 16)%nat →
       IPv6Address.s6_addr b !! i
         = (if (i <? k)%nat then IPv6Address.s6_addr a !! i
            else if (i =? k)%nat then Some (byte_of_Z (Z.lor (byte_to_Z old) host)) else Some xff)
       ∧ IPv6Address.s6_addr n !! i
         = (if (i =? k)%nat then Some (byte_of_Z (Z.land (byte_to_Z old) host)) else IPv6Address.s6_addr a !! i)
       ∧ IPv6Address.s6_addr m !! i = Some (if (i <=? k)%nat then xff else x00))
  ∧ (128 <= p → IPv6Address.broadcastAddress p a = Undef ∧ IPv6Address.networdAddress p a = Undef
       ∧ IPv6Address.subnetMask p a = Undef).
Proof.
  intros Hl Hp k host.
  assert (0 <= p mod 8 < 8) as Hmod by (apply Z.mod_pos_bound; lia).
  assert (CreateMask 8 (p mod 8) = Ret host) as Hm.
  { rewrite CreateMask_ok by (auto || lia).
    by rewrite (proj2 (Z.leb_le (p mod 8) 8)), (proj2 (Z.leb_le (8 - p mod 8) 30)) by lia. }
  unfold IPv6Address.broadcastAddress, IPv6Address.networdAddress, IPv6Address.subnetMask.
  rewrite Hm, !bind_Ret. split; intros Hr.
  - assert (0 <= p / 8 < 16) as Hk by (split; [apply Z.div_pos|apply Z.div_lt_upper_bound]; lia).
    destruct (set_byte_ok (p / 8) (λ b, Z.lor b host) (IPv6Address.s6_addr a)) as (old & Hold & ->); [lia|].
    destruct (set_byte_ok (p / 8) (λ b, Z.land b host) (IPv6Address.s6_addr a)) as (old' & Hold' & ->); [lia|].
    rewrite Hold in Hold'. injection Hold' as <-.
    destruct (set_byte_ok (p / 8) (λ _, Z.lnot host) IPv6Address.zeros) as (old' & _ & ->); [simpl; lia|].
    rewrite !bind_Ret. fold k. set (zs := <[k:=_]> IPv6Address.zeros).
    assert (length zs = 16%nat) as Hzs by (unfold zs; by rewrite length_insert).
    destruct (fill_ok (Z.to_nat (p / 8 + 1)) 0 zs) as (m & -> & Hfill); [lia|].
    rewrite !bind_Ret. do 4 eexists. split_and!; [done..|]. intros i Hi.
    assert (Z.to_nat (p / 8 + 1) = S k) as -> by lia. cbn [IPv6Address.s6_addr IPv6Address.set_s6_addr].
    split_and!.
    + destruct (Nat.ltb_spec i (S k)) as [Hik|Hik].
      * rewrite lookup_app_l by (rewrite length_take, length_insert; lia). rewrite lookup_take_lt by lia.
        destruct (Nat.eqb_spec i k) as [->|Hne].
        -- by rewrite Nat.ltb_irrefl, list_lookup_insert_eq by lia.
        -- rewrite (proj2 (Nat.ltb_lt i k)), list_lookup_insert_ne by lia. done.
      * rewrite (proj2 (Nat.ltb_ge i k)), (proj2 (Nat.eqb_neq i k)) by lia.
        rewrite lookup_app_r by (rewrite length_take, length_insert; lia).
        apply lookup_replicate. split; [done|]. rewrite length_take, length_insert. lia.
    + destruct (Nat.eqb_spec i k) as [->|Hne].
      * by rewrite list_lookup_insert_eq by lia.
      * by rewrite list_lookup_insert_ne by done.
    + rewrite Hfill. destruct (Nat.leb_spec i k).
      * by rewrite decide_True by lia.
      * rewrite decide_False by lia. unfold zs. rewrite list_lookup_insert_ne by lia.
        apply lookup_replicate. by split.
  - assert (16 <= p / 8) as Hk by (apply Z.div_le_lower_bound; lia).
    rewrite !set_byte_past by (rewrite ?Hl; simpl; lia). done.
Qed.

(** ** The order *)

(** Lexicographic comparison of byte strings, a proper prefix first. *)
Fixpoint lex (l r : list byte) : comparison :=
  match l, r with
  | [], [] => Eq
  | [], _ :: _ => Lt
  | _ :: _, [] => Gt
  | a :: l, b :: r => match byte_to_Z a ?= byte_to_Z b with Eq => lex l r | c => c end
  end.

Lemma lex_eq l r : lex l r = Eq ↔ l = r.
Proof.
  revert r. induction l as [|a l IH]; intros [|b r]; simpl; try done.
  destruct (Z.compare_spec (byte_to_Z a) (byte_to_Z b)) as [E|E|E]; try (split; [done|intros [=]; subst; lia]).
  apply byte_to_Z_inj in E as ->. rewrite IH. split; congruence.
Qed.

Lemma lex_antisym l r : lex r l = CompOpp (lex l r).
Proof.
  revert r. induction l as [|a l IH]; intros [|b r]; simpl; try done.
  rewrite (Z.compare_antisym (byte_to_Z a)). destruct (byte_to_Z a ?= byte_to_Z b); simpl; auto.
Qed.

Lemma lex_trans l r k : lex l r = Lt → lex r k = Lt → lex l k = Lt.
Proof.
  revert r k. induction l as [|a l IH]; intros [|b r] [|c k]; simpl; try done.
  destruct (Z.compare_spec (byte_to_Z a) (byte_to_Z b)), (Z.compare_spec (byte_to_Z b) (byte_to_Z c));
    intros H1 H2; try done; destruct (Z.compare_spec (byte_to_Z a) (byte_to_Z c)); try lia; try done; by eapply IH.
Qed.

Lemma memcmp_lex (l r : list byte) :
  let n := Nat.min (length l) (length r) in
  lex l r = match Address.memcmp_loop (take n l) (take n r) with
            | Eq => (length l ?= length r)%nat | c => c end.
Proof.
  revert r. induction l as [|a l IH]; intros [|b r]; simpl; try done.
  rewrite IH. by destruct (byte_to_Z a ?= byte_to_Z b).
Qed.

(** The bytes of an address that count: [getAddrLen()] of them. *)
Definition key (a : Address.t) : list byte := take (Z.to_nat (Address.getAddrLen a)) (Address.getAddr a).
Definition length_ok (a : Address.t) : Prop :=
  0 <= Address.getAddrLen a <= Z.of_nat (length (Address.getAddr a)).

Lemma length_key a : length_ok a → Z.of_nat (length (key a)) = Address.getAddrLen a.
Proof. unfold length_ok, key. intros. rewrite length_take. lia. Qed.

Lemma take_key a n : n <= Address.getAddrLen a → take (Z.to_nat n) (Address.getAddr a) = take (Z.to_nat n) (key a).
Proof. intros. unfold key. rewrite take_take. f_equal. lia. Qed.

Lemma memcmp_ok l r n :
  n <= Z.of_nat (length l) → n <= Z.of_nat (length r) →
  Address.memcmp l r n = Ret (Address.memcmp_loop (take (Z.to_nat n) l) (take (Z.to_nat n) r)).
Proof. intros. unfold Address.memcmp. by rewrite !(proj2 (Z.ltb_ge _ _)) by lia. Qed.

Lemma lt_key a b :
  length_ok a → length_ok b → Address.lt a b = Ret (match lex (key a) (key b) with Lt => true | _ => false end).
Proof.
  intros Ha Hb. pose proof (length_key a Ha) as La. pose proof (length_key b Hb) as Lb.
  unfold length_ok in *. unfold Address.lt. rewrite memcmp_ok, bind_Ret by lia. f_equal.
  rewrite !take_key by lia. rewrite memcmp_lex.
  replace (Z.to_nat (Address.getAddrLen a `min` Address.getAddrLen b))
    with (length (key a) `min` length (key b))%nat by lia.
  destruct (Address.memcmp_loop _ _); try done.
  destruct (Nat.compare_spec (length (key a)) (length (key b))); destruct (Z.ltb_spec (Address.getAddrLen a) (Address.getAddrLen b)); try lia; done.
Qed.

Lemma eq_key a b : length_ok a → length_ok b → Address.eq a b = Ret (bool_decide (key a = key b)).
Proof.
  intros Ha Hb. pose proof (length_key a Ha) as La. pose proof (length_key b Hb) as Lb.
  unfold length_ok in *. unfold Address.eq.
  destruct (Z.eqb_spec (Address.getAddrLen a) (Address.getAddrLen b)) as [E|E].
  - rewrite memcmp_ok, bind_Ret by lia. f_equal.
    rewrite !take_key by lia. pose proof (memcmp_lex (key a) (key b)) as Hl. cbv zeta in Hl.
    replace (length (key a) `min` length (key b))%nat with (Z.to_nat (Address.getAddrLen a)) in Hl by lia.
    replace (length (key b)) with (length (key a)) in Hl by lia. rewrite Nat.compare_refl in Hl.
    destruct (Address.memcmp_loop _ _) eqn:Em; [rewrite bool_decide_true|rewrite bool_decide_false..]; try done;
      [by apply lex_eq|intros Ek%lex_eq; congruence..].
  - rewrite bool_decide_false; [done|]. intros Ek. rewrite Ek in La. lia.
Qed.

(** [operator<] compares the bytes of two addresses lexicographically, whatever their classes:
    on addresses whose length does not exceed their storage it is defined, transitive, and
    exactly one of [a < b], [a == b] and [b < a] holds; [!=] is the negation of [==]. *)
Theorem address_order a b c :
  length_ok a → length_ok b → length_ok c →
  ∃ x y z, Address.lt a b = Ret x ∧ Address.eq a b = Ret y ∧ Address.lt b a = Ret z
    ∧ Address.ne a b = Ret (negb y)
    ∧ (x = true ∧ y = false ∧ z = false ∨ x = false ∧ y = true ∧ z = false ∨ x = false ∧ y = false ∧ z = true)
    ∧ (Address.lt a b = Ret true → Address.lt b c = Ret true → Address.lt a c = Ret true).
Proof.
  intros Ha Hb Hc. unfold Address.ne. rewrite !lt_key, eq_key by done. do 3 eexists. split_and!; [done..| |].
  - rewrite (lex_antisym (key a)). destruct (lex (key a) (key b)) eqn:E; simpl.
    + rewrite bool_decide_true by by apply lex_eq. auto.
    + rewrite bool_decide_false by (intros Ek%lex_eq; congruence). auto.
    + rewrite bool_decide_false by (intros Ek%lex_eq; congruence). auto.
  - intros H1 H2. assert (lex (key a) (key b) = Lt ∧ lex (key b) (key c) = Lt) as [L1 L2].
    { destruct (lex (key a) (key b)), (lex (key b) (key c)); try done. }
    by rewrite (lex_trans _ _ _ L1 L2).
Qed.

(** ** Through [sockaddr] *)

(** An object as its constructors make it: fields of their widths, arrays of their lengths. *)
Definition well_formed (a : Address.t) : Prop :=
  match a with
  | Address.IPv4 a => IPv4Address.sin_family a = AF_INET ∧ fits_u 16 (IPv4Address.sin_port a) ∧ fits_u 32 (IPv4Address.s_addr a)
  | Address.IPv6 a => IPv6Address.sin6_family a = AF_INET6 ∧ fits_u 16 (IPv6Address.sin6_port a)
      ∧ fits_u 32 (IPv6Address.sin6_flowinfo a) ∧ length (IPv6Address.s6_addr a) = 16%nat
      ∧ fits_u 32 (IPv6Address.sin6_scope_id a)
  | Address.Unix a => UnixAddress.sun_family a = AF_UNIX ∧ length (UnixAddress.sun_path a) = 108%nat
  | Address.Unknown a => UnknownAddress.sa_family a ≠ AF_INET ∧ UnknownAddress.sa_family a ≠ AF_INET6
      ∧ fits_u 16 (UnknownAddress.sa_family a) ∧ length (UnknownAddress.sa_data a) = 14%nat
  end.

Lemma le_join_2 v : fits_u 16 v → le_join (le_split 2 v) = v.
Proof. intros. rewrite le_join_split. by apply uwrap_small. Qed.
Lemma le_join_4 v : fits_u 32 v → le_join (le_split 4 v) = v.
Proof. intros. rewrite le_join_split. by apply uwrap_small. Qed.

Lemma slice_app (pre l post : list byte) (i n : nat) :
  length pre = i → length l = n → take n (drop i (pre ++ l ++ post)) = l.
Proof. intros <- <-. by rewrite drop_app_length, take_app_length. Qed.

Lemma family_first v (l : list byte) : take 2 (drop 0 (le_split 2 v ++ l)) = le_split 2 v.
Proof. by apply (slice_app []). Qed.

(** C38. [Address::Create] on the [sockaddr] of an address gives an equal address back, and keeps its
    family; but for a Unix address, whose family it does not know, the result is an
    [UnknownAddress] with the first 14 bytes of the path. A null pointer gives null. *)
Theorem create_roundtrip a len :
  well_formed a →
  Address.Create None len = Ret None
  ∧ match a with
    | Address.Unix u => Address.Create (Some (Address.getAddr a)) len
        = Ret (Some (Address.Unknown (UnknownAddress.mk AF_UNIX (take 14 (UnixAddress.sun_path u)))))
    | _ => Address.Create (Some (Address.getAddr a)) len = Ret (Some a)
    end
  ∧ Address.getFamily a = match a with
                          | Address.IPv4 _ => AF_INET | Address.IPv6 _ => AF_INET6 | Address.Unix _ => AF_UNIX
                          | Address.Unknown u => UnknownAddress.sa_family u end.
Proof.
  intros Hw. split; [done|]. destruct a as [a|a|a|a]; cbn [well_formed] in Hw;
    unfold Address.Create, Address.getFamily; cbn [Address.getAddr].
  - destruct a as [fam port addr]; cbn in Hw; destruct Hw as (-> & Hp & Ha).
    unfold IPv4Address.getAddr. cbn [IPv4Address.sin_family IPv4Address.sin_port IPv4Address.s_addr].
    split; [|done]. rewrite family_first. change (le_join (le_split 2 AF_INET) =? AF_INET) with true. cbv iota.
    unfold Address.sockaddr_in_of. rewrite !length_app, !length_le_split, length_replicate. cbn [Nat.ltb Nat.leb Nat.add].
    rewrite family_first, bind_Ret. do 3 f_equal. f_equal.
    + by rewrite (slice_app (le_split 2 AF_INET)), le_join_2.
    + rewrite (app_assoc (le_split 2 AF_INET)). rewrite (slice_app _ (le_split 4 addr)) by done. by rewrite le_join_4.
  - destruct a as [fam port flow addr scope]; cbn in Hw; destruct Hw as (-> & Hp & Hf & Hl & Hs).
    unfold IPv6Address.getAddr.
    cbn [IPv6Address.sin6_family IPv6Address.sin6_port IPv6Address.sin6_flowinfo IPv6Address.s6_addr IPv6Address.sin6_scope_id].
    split; [|done]. rewrite family_first. change (le_join (le_split 2 AF_INET6) =? AF_INET) with false.
    change (le_join (le_split 2 AF_INET6) =? AF_INET6) with true. cbv iota.
    unfold Address.sockaddr_in6_of. rewrite !length_app, !length_le_split, Hl. cbn [Nat.ltb Nat.leb Nat.add].
    rewrite family_first, bind_Ret. do 3 f_equal. f_equal.
    + by rewrite (slice_app (le_split 2 AF_INET6)), le_join_2.
    + rewrite (app_assoc (le_split 2 AF_INET6)). by rewrite (slice_app _ (le_split 4 flow)), le_join_4.
    + rewrite !(app_assoc (le_split 2 AF_INET6)), app_assoc. by rewrite (slice_app _ addr).
    + rewrite <- (app_nil_r (le_split 4 scope)) at 1. rewrite !app_assoc, <- (app_assoc _ (le_split 4 scope)).
      by rewrite (slice_app _ (le_split 4 scope)), le_join_4 by (rewrite ?length_app, ?length_le_split, ?Hl; done).
  - destruct a as [fam path len']; cbn in Hw; destruct Hw as (-> & Hl).
    unfold UnixAddress.getAddr. cbn [UnixAddress.sun_family UnixAddress.sun_path].
    split; [|done]. rewrite family_first. change (le_join (le_split 2 AF_UNIX) =? AF_INET) with false.
    change (le_join (le_split 2 AF_UNIX) =? AF_INET6) with false. cbv iota.
    unfold Address.sockaddr_of. rewrite length_app, length_le_split, Hl. cbn [Nat.ltb Nat.leb Nat.add].
    by rewrite family_first.
  - destruct a as [fam data]; cbn in Hw; destruct Hw as (H1 & H2 & Hf & Hl).
    unfold UnknownAddress.getAddr. cbn [UnknownAddress.sa_family UnknownAddress.sa_data].
    rewrite family_first. change (take 2 (le_split 2 fam ++ data)) with (take 2 (drop 0 (le_split 2 fam ++ data))).
    rewrite family_first, le_join_2 by done. split; [|done].
    rewrite (proj2 (Z.eqb_neq _ _) H1), (proj2 (Z.eqb_neq _ _) H2).
    unfold Address.sockaddr_of. rewrite length_app, length_le_split, Hl. cbn [Nat.ltb Nat.leb Nat.add].
    rewrite family_first, le_join_2, bind_Ret by done. do 4 f_equal.
    rewrite <- (app_nil_r data) at 1. by apply (slice_app (le_split 2 fam)).
Qed.

(** ** Host strings *)

Lemma c_str_id s : x00 ∉ s → c_str s = s.
Proof. intros H. rewrite <- (app_nil_r s) at 1. rewrite c_str_app by done. by rewrite app_nil_r. Qed.

Lemma not_bracket (s : list byte) (A : Type) (f : list byte → A) (d : A) :
  (∀ rest, s ≠ x5b :: rest) → match s with x5b :: rest => f rest | _ => d end = d.
Proof. destruct s as [|[] s]; try done. intros Hs. by destruct (Hs s). Qed.

Lemma drop_past (pre : list byte) c post : drop (S (length pre)) (pre ++ c :: post) = post.
Proof. by induction pre. Qed.

(** What [Lookup] asks the resolver for: a name or IPv4 address [h] alone, or [h:p] with its
    port; a bracketed IPv6 address without its brackets, with or without a port. A bare IPv6
    address (or any host with two colons) is passed whole, but its tail from the first colon
    is passed along as the service. *)
Theorem split_host_forms h p q v6 :
  h ≠ [] → (∀ rest, h ≠ x5b :: rest) → x3a ∉ h → x3a ∉ p → x00 ∉ h → x00 ∉ p → x00 ∉ q →
  v6 ≠ [] → x5d ∉ v6 → x00 ∉ v6 →
  Address.split_host h = (h, None)
  ∧ Address.split_host (h ++ x3a :: p) = (h, Some p)
  ∧ Address.split_host (x5b :: v6 ++ [x5d]) = (v6, None)
  ∧ Address.split_host (x5b :: v6 ++ x5d :: x3a :: p) = (v6, Some p)
  ∧ Address.split_host (h ++ x3a :: p ++ x3a :: q) = (h ++ x3a :: p ++ x3a :: q, Some (x3a :: p ++ x3a :: q)).
Proof.
  intros Hh Hb Hch Hcp Hzh Hzp Hzq Hv Hvb Hzv.
  assert (∀ l, ∀ rest, h ++ l ≠ x5b :: rest) as Hb'.
  { intros l rest E. destruct h as [|b h]; [done|]. injection E as -> _. by destruct (Hb h). }
  unfold Address.split_host. split_and!.
  - rewrite not_bracket by done. rewrite index_of_None by done. by rewrite c_str_id.
  - rewrite not_bracket by done. rewrite index_of_app, drop_past, index_of_None, take_app_length by done.
    destruct h as [|b h]; [done|]. by rewrite !c_str_id.
  - rewrite index_of_app, take_app_length, drop_past by done.
    destruct v6 as [|b v6]; [done|]. by rewrite c_str_id.
  - rewrite index_of_app, take_app_length, drop_past by done.
    destruct v6 as [|b v6]; [done|]. by rewrite !c_str_id.
  - rewrite not_bracket by done.
    rewrite index_of_app, drop_past, index_of_app, drop_app_length by done.
    rewrite !c_str_id by (rewrite ?list_not_elem_of_app; set_solver).
    done.
Qed.

(** ** Witnesses *)

(** 192.168.1.2 and ::1, port 80. *)
Definition v4 : IPv4Address.t := IPv4Address.mk AF_INET (byteswapOnLittleEndian 2 80) (byteswapOnLittleEndian 4 0xc0a80102).
Definition v6 : IPv6Address.t := IPv6Address.make_from (replicate 15 x00 ++ [x01]) 80.

Lemma v4_fits : fits_u 32 (IPv4Address.s_addr v4).
Proof. apply (byteswap_u_fits 4). Qed.

Lemma ipv4_masks_witness :
  IPv4Address.broadcastAddress 40 v4 = Ret None
  ∧ ∃ m, IPv4Address.subnetMask 24 v4 = Ret (Some m) ∧ byteswapOnLittleEndian 4 (IPv4Address.s_addr m) = 0xffffff00.
Proof.
  destruct (ipv4_masks v4 40 v4_fits) as (_ & H1 & _); [lia|]. split; [by apply H1|].
  destruct (ipv4_masks v4 24 v4_fits) as (H2 & _); [lia|].
  destruct H2 as (b & n & m & _ & _ & _ & _ & H3 & H4 & _); [lia|]. by exists m.
Defined.

Lemma ipv6_masks_witness :
  IPv6Address.subnetMask 128 v6 = Undef
  ∧ ∃ m, IPv6Address.subnetMask 64 v6 = Ret m ∧ IPv6Address.s6_addr m !! 8%nat = Some xff.
Proof.
  destruct (ipv6_masks v6 128) as [_ H1]; [done|lia|]. split; [by apply H1|].
  destruct (ipv6_masks v6 64) as [H2 _]; [done|lia|].
  destruct H2 as (b & n & m & old & _ & _ & H3 & _ & H4); [lia|]. exists m. split; [done|].
  by destruct (H4 8%nat) as (_ & _ & H5); [lia|].
Defined.

Lemma address_order_witness :
  ∃ x, Address.lt (Address.IPv4 v4) (Address.IPv6 v6) = Ret x.
Proof.
  destruct (address_order (Address.IPv4 v4) (Address.IPv6 v6) (Address.IPv4 v4)) as (x & y & z & H & _);
    [by split; vm_compute..|]. by exists x.
Defined.

Lemma create_roundtrip_witness :
  Address.Create (Some (Address.getAddr (Address.IPv6 v6))) 28 = Ret (Some (Address.IPv6 v6)).
Proof. apply (create_roundtrip (Address.IPv6 v6) 28). vm_compute. by repeat split. Defined.

Lemma split_host_forms_witness :
  Address.split_host (lit "host:80") = (lit "host", Some (lit "80")).
Proof.
  destruct (split_host_forms (lit "host") (lit "80") (lit "1") (lit "::1")) as (_ & H & _).
  all: try exact H. all: try done. all: by apply (bool_decide_unpack _); vm_compute.
Defined.
