(* ===== verification/Regex.v ===== *)
(** * Regular expressions, and deciding that a machine recognizes one

    The grammars of the parsers are regular: this file has their expressions with a denotation,
    Antimirov's partial derivatives, and a check by computation: a list of pairs of a machine's
    state and a set of expressions, closed under every character and agreeing on acceptance, is a
    bisimulation, so that the state accepts what the set denotes. *)

From stdpp Require Import pmap.
From S2P Require Import Prelude.

(** Boolean connectives that stop as soon as the answer is known, when they are evaluated. *)
Local Notation "a &&& b" := (if a then b else false) (at level 40, left associativity).
Fixpoint any {A} (f : A → bool) (l : list A) : bool :=
  match l with [] => false | x :: l => if f x then true else any f l end.
Fixpoint every {A} (f : A → bool) (l : list A) : bool :=
  match l with [] => true | x :: l => f x &&& every f l end.

Lemma any_iff {A} (f : A → bool) l : any f l = true ↔ ∃ x, x ∈ l ∧ f x = true.
Proof.
  assert (any f l = existsb f l) as -> by by induction l as [|x l IH]; simpl; [|destruct (f x)].
  rewrite existsb_exists. by setoid_rewrite list_elem_of_In.
Qed.
Lemma every_iff {A} (f : A → bool) l : every f l = true ↔ ∀ x, x ∈ l → f x = true.
Proof.
  assert (every f l = forallb f l) as -> by by induction l as [|x l IH]; simpl; [|destruct (f x)].
  rewrite forallb_forall. by setoid_rewrite list_elem_of_In.
Qed.
Lemma both_iff (a b : bool) : a &&& b = true ↔ a = true ∧ b = true.
Proof. by destruct a; intuition. Qed.

(** Characters are numbers; a class is a list of ranges. *)
Inductive re :=
  | Eps
  | Chr (cls : list (Z * Z))
  | Cat (r s : re)
  | Alt (r s : re)
  | Star (r : re).

Definition in_class (cls : list (Z * Z)) (c : Z) : bool :=
  existsb (λ '(a, b), (a <=? c) && (c <=? b)) cls.

Inductive matches : re → list Z → Prop :=
  | m_eps : matches Eps []
  | m_chr cls c : in_class cls c = true → matches (Chr cls) [c]
  | m_cat r s u v : matches r u → matches s v → matches (Cat r s) (u ++ v)
  | m_alt_l r s u : matches r u → matches (Alt r s) u
  | m_alt_r r s u : matches s u → matches (Alt r s) u
  | m_star_nil r : matches (Star r) []
  | m_star_cons r u v : matches r u → matches (Star r) v → matches (Star r) (u ++ v).

(** ** Derived forms *)

Definition opt (r : re) : re := Alt Eps r.
Definition plus (r : re) : re := Cat r (Star r).
Fixpoint power (r : re) (n : nat) : re :=
  match n with O => Eps | S O => r | S n => Cat r (power r n) end.
Fixpoint upto (r : re) (n : nat) : re :=
  match n with O => Eps | S n => opt (Cat r (upto r n)) end.
(** [r{1,n+1}]. *)
Definition one_upto (r : re) (n : nat) : re := Cat r (upto r n).
Definition chr (c : Z) : re := Chr [(c, c)].
Fixpoint cats (rs : list re) : re :=
  match rs with [] => Eps | [r] => r | r :: rs => Cat r (cats rs) end.
Fixpoint alts (rs : list re) : re :=
  match rs with [] => Chr [] | [r] => r | r :: rs => Alt r (alts rs) end.

(** ** Partial derivatives *)

Fixpoint nullable (r : re) : bool :=
  match r with
  | Eps | Star _ => true
  | Chr _ => false
  | Cat r s => nullable r && nullable s
  | Alt r s => nullable r || nullable s
  end.

Definition cat_left (s : re) (r : re) : re := match r with Eps => s | _ => Cat r s end.

Fixpoint pd (c : Z) (r : re) : list re :=
  match r with
  | Eps => []
  | Chr cls => if in_class cls c then [Eps] else []
  | Cat r s => map (cat_left s) (pd c r) ++ if nullable r then pd c s else []
  | Alt r s => pd c r ++ pd c s
  | Star r => map (cat_left (Star r)) (pd c r)
  end.

Lemma nullable_matches r : nullable r = true ↔ matches r [].
Proof.
  split.
  - induction r; simpl; intros H; [constructor|done| | |constructor].
    + apply andb_true_iff in H as [H1 H2]. apply (m_cat _ _ [] []); auto.
    + apply orb_true_iff in H as [H|H]; [apply m_alt_l | apply m_alt_r]; auto.
  - remember [] as w eqn:E. induction 1; simpl; simplify_eq/=; try done.
    + apply app_eq_nil in E as [-> ->]. rewrite IHmatches1, IHmatches2; done.
    + rewrite IHmatches; done.
    + rewrite IHmatches; [by rewrite orb_true_r|done].
Qed.

Lemma cat_left_matches s r w : matches (cat_left s r) w ↔ matches (Cat r s) w.
Proof.
  destruct r; try done. simpl. split; intros H; [by apply (m_cat _ _ [] w); [constructor|]|].
  inversion H as [| |r' s' u v Hu Hv| | | |]; simplify_eq. by inversion Hu.
Qed.

Lemma pd_sound c r r' w : r' ∈ pd c r → matches r' w → matches r (c :: w).
Proof.
  revert r' w. induction r as [|cls|r IHr s IHs|r IHr s IHs|r IHr]; simpl; intros r' w Hin Hm.
  - by apply not_elem_of_nil in Hin.
  - destruct (in_class cls c) eqn:E; [|by apply not_elem_of_nil in Hin].
    apply list_elem_of_singleton in Hin as ->. inversion Hm. by constructor.
  - apply elem_of_app in Hin as [Hin|Hin].
    + apply list_elem_of_fmap in Hin as (r0 & -> & Hin). apply cat_left_matches in Hm.
      inversion Hm as [| |? ? u v Hu Hv| | | |]; simplify_eq.
      rewrite app_comm_cons. apply m_cat; [by apply (IHr r0)|done].
    + destruct (nullable r) eqn:E; [|by apply not_elem_of_nil in Hin].
      apply (m_cat _ _ [] (c :: w)); [by apply nullable_matches|by apply (IHs r')].
  - apply elem_of_app in Hin as [Hin|Hin]; [apply m_alt_l | apply m_alt_r]; eauto.
  - apply list_elem_of_fmap in Hin as (r0 & -> & Hin). apply cat_left_matches in Hm.
    inversion Hm as [| |? ? u v Hu Hv| | | |]; simplify_eq.
    rewrite app_comm_cons. apply m_star_cons; [by apply (IHr r0)|done].
Qed.

Lemma pd_complete c r w : matches r (c :: w) → ∃ r', r' ∈ pd c r ∧ matches r' w.
Proof.
  remember (c :: w) as cw eqn:E. intros H. revert c w E.
  induction H as [|cls d Hd|r s u v Hu IHu Hv IHv|r s u Hu IHu|r s u Hu IHu|r|r u v Hu IHu Hv IHv];
    simpl; intros c w E; simplify_eq.
  - exists Eps. rewrite Hd. split; [by apply list_elem_of_singleton|constructor].
  - destruct u as [|d u]; simplify_eq/=.
    + destruct (IHv c w) as (r' & Hin & Hm); [done|]. exists r'.
      rewrite (proj2 (nullable_matches r) Hu). split; [set_solver|done].
    + destruct (IHu c u) as (r' & Hin & Hm); [done|]. exists (cat_left s r').
      split; [apply elem_of_app; left; by apply list_elem_of_fmap_2|].
      apply cat_left_matches. by constructor.
  - destruct (IHu c w) as (r' & Hin & Hm); [done|]. exists r'. set_solver.
  - destruct (IHu c w) as (r' & Hin & Hm); [done|]. exists r'. set_solver.
  - destruct u as [|d u]; simplify_eq/=; [by apply IHv|].
    destruct (IHu c u) as (r' & Hin & Hm); [done|]. exists (cat_left (Star r) r').
    split; [by apply list_elem_of_fmap_2|]. apply cat_left_matches. by constructor.
Qed.

(** ** Membership, and the characters of an expression *)

Fixpoint matchb (R : list re) (w : list Z) : bool :=
  match w with [] => any nullable R | c :: w => matchb (R ≫= pd c) w end.

Lemma matchb_sound R w : matchb R w = true → ∃ r, r ∈ R ∧ matches r w.
Proof.
  revert R. induction w as [|c w IH]; intros R; simpl.
  - intros (r & Hr & Hn)%any_iff. exists r. by rewrite <- nullable_matches.
  - intros (r' & (r & Hp & Hr)%list_elem_of_bind & Hm)%IH. exists r. eauto using pd_sound.
Qed.

Lemma matchb_matches r w : matchb [r] w = true → matches r w.
Proof. by intros (r' & ->%list_elem_of_singleton & Hm)%matchb_sound. Qed.

Fixpoint class_of (r : re) : list (Z * Z) :=
  match r with
  | Eps => []
  | Chr cls => cls
  | Cat r s | Alt r s => class_of r ++ class_of s
  | Star r => class_of r
  end.

Lemma in_class_app a b c : in_class (a ++ b) c = in_class a c || in_class b c.
Proof. apply existsb_app. Qed.

Lemma matches_class r w : matches r w → Forall (λ c, in_class (class_of r) c = true) w.
Proof.
  induction 1 as [|cls c Hc|r s u v _ IHu _ IHv|r s u _ IH|r s u _ IH|r|r u v _ IHu _ IHv]; simpl.
  - constructor.
  - by constructor.
  - apply Forall_app. split; [apply (Forall_impl _ _ _ IHu)|apply (Forall_impl _ _ _ IHv)];
      intros c H; by rewrite in_class_app, H, ?orb_true_r.
  - apply (Forall_impl _ _ _ IH). intros c H. by rewrite in_class_app, H.
  - apply (Forall_impl _ _ _ IH). intros c H. by rewrite in_class_app, H, orb_true_r.
  - constructor.
  - by apply Forall_app.
Qed.

(** ** Characters that an expression does not tell apart *)

Fixpoint agree (r : re) (c d : Z) : bool :=
  match r with
  | Eps => true
  | Chr cls => Bool.eqb (in_class cls c) (in_class cls d)
  | Cat r s | Alt r s => agree r c d &&& agree s c d
  | Star r => agree r c d
  end.

Lemma agree_sym r c d : agree r c d = agree r d c.
Proof.
  induction r as [|cls|r IHr s IHs|r IHr s IHs|r IHr]; simpl; try done; [|by rewrite IHr, IHs..].
  by destruct (in_class cls c), (in_class cls d).
Qed.

Lemma agree_both r s w v :
  Forall2 (λ c d, agree r c d &&& agree s c d = true) w v →
  Forall2 (λ c d, agree r c d = true) w v ∧ Forall2 (λ c d, agree s c d = true) w v.
Proof. intros H. split; apply (Forall2_impl _ _ _ _ H); intros ?? [??]%both_iff; done. Qed.

Lemma agree_matches r w w' :
  Forall2 (λ c d, agree r c d = true) w w' → matches r w → matches r w'.
Proof.
  intros Hw Hm. revert w' Hw.
  induction Hm as [|cls c Hc|r s u v _ IHu _ IHv|r s u _ IH|r s u _ IH|r|r u v _ IHu _ IHv];
    simpl; intros w' Hw.
  - inversion Hw. constructor.
  - apply Forall2_cons_inv_l in Hw as (d & w & Hb & Hw & ->). inversion Hw.
    constructor. apply eqb_prop in Hb. by rewrite <- Hb.
  - apply Forall2_app_inv_l in Hw as (u' & v' & [Hu _]%agree_both & [_ Hv]%agree_both & ->).
    constructor; auto.
  - apply agree_both in Hw as [Hw _]. by apply m_alt_l, IH.
  - apply agree_both in Hw as [_ Hw]. by apply m_alt_r, IH.
  - inversion Hw. constructor.
  - apply Forall2_app_inv_l in Hw as (u' & v' & Hu & Hv & ->). constructor; auto.
Qed.

(** ** Equality of expressions *)

Fixpoint class_eqb (a b : list (Z * Z)) : bool :=
  match a, b with
  | [], [] => true
  | (l, h) :: a, (l', h') :: b => (l =? l') &&& (h =? h') &&& class_eqb a b
  | _, _ => false
  end.
Fixpoint re_eqb (r s : re) : bool :=
  match r, s with
  | Eps, Eps => true
  | Chr a, Chr b => class_eqb a b
  | Cat r1 r2, Cat s1 s2 | Alt r1 r2, Alt s1 s2 => re_eqb r1 s1 &&& re_eqb r2 s2
  | Star r, Star s => re_eqb r s
  | _, _ => false
  end.

Lemma class_eqb_eq a b : class_eqb a b = true → a = b.
Proof.
  revert b. induction a as [|[l h] a IH]; intros [|[l' h'] b]; simpl; try done.
  rewrite !both_iff, !Z.eqb_eq. intros [[-> ->] H]. f_equal. by apply IH.
Qed.

Lemma re_eqb_eq r s : re_eqb r s = true → r = s.
Proof.
  revert s. induction r; intros [| | | |]; simpl; intros H; try done;
    rewrite ?both_iff in H; destruct_and?; f_equal; auto using class_eqb_eq.
Qed.

Definition mem_re (R : list re) (r : re) : bool := any (re_eqb r) R.
Definition subset_re (R Q : list re) : bool := every (mem_re Q) R.
Definition same_re (R Q : list re) : bool := subset_re R Q &&& subset_re Q R.

Lemma mem_re_elem R r : mem_re R r = true → r ∈ R.
Proof. intros (s & Hin & ->%re_eqb_eq)%any_iff. done. Qed.

Lemma same_re_elem R Q r : same_re R Q = true → r ∈ R ↔ r ∈ Q.
Proof.
  unfold same_re, subset_re. rewrite both_iff, !every_iff. intros [H1 H2].
  split; intros H; apply mem_re_elem; auto.
Qed.

(** ** The automaton of an expression

    Its partial derivatives, numbered, with the numbers they move to: sets of expressions become
    sorted lists of numbers. *)

Record nfa := Nfa { term : Pmap re; rows : Pmap (list (Z * list positive)) }.

Definition expr (A : nfa) (i : positive) : re := default (Chr []) (term A !! i).
Fixpoint assoc (c : Z) (row : list (Z * list positive)) : list positive :=
  match row with [] => [] | (d, l) :: row => if c =? d then l else assoc c row end.
Definition moves (A : nfa) (i : positive) (c : Z) : list positive :=
  match term A !! i with Some _ => assoc c (default [] (rows A !! i)) | None => [] end.

Definition nfa_ok (reps : list Z) (A : nfa) : bool :=
  every (λ '(i, r), every (λ c, same_re (pd c r) (map (expr A) (moves A i c))) reps)
    (map_to_list (term A)).

Fixpoint ins (i : positive) (l : list positive) : list positive :=
  match l with
  | [] => [i]
  | j :: l' => match (i ?= j)%positive with Lt => i :: l | Eq => l | Gt => j :: ins i l' end
  end.
Definition derive (A : nfa) (c : Z) (R : list positive) : list positive :=
  foldr (λ i acc, foldr ins acc (moves A i c)) [] R.

Definition lang (A : nfa) (R : list positive) (w : list Z) : Prop :=
  ∃ i, i ∈ R ∧ matches (expr A i) w.

Lemma elem_of_ins i j l : i ∈ ins j l ↔ i = j ∨ i ∈ l.
Proof.
  induction l as [|k l IH]; simpl; [set_solver|].
  destruct (j ?= k)%positive eqn:E; [apply Pos.compare_eq in E as ->|..]; set_solver.
Qed.

Lemma elem_of_derive A c R j : j ∈ derive A c R ↔ ∃ i, i ∈ R ∧ j ∈ moves A i c.
Proof.
  induction R as [|i R IH]; simpl; [set_solver|].
  assert (∀ l acc, j ∈ foldr ins acc l ↔ j ∈ l ∨ j ∈ acc) as ->.
  { intros l acc. induction l as [|k l IHl]; simpl; [|rewrite elem_of_ins, IHl]; set_solver. }
  rewrite IH. set_solver.
Qed.

Lemma moves_den A reps i c w :
  nfa_ok reps A = true → c ∈ reps →
  matches (expr A i) (c :: w) ↔ ∃ j, j ∈ moves A i c ∧ matches (expr A j) w.
Proof.
  unfold nfa_ok, moves. rewrite every_iff. intros HA Hc. destruct (term A !! i) as [r|] eqn:E.
  - assert (expr A i = r) as -> by (unfold expr; by rewrite E).
    specialize (HA (i, r) (proj2 (elem_of_map_to_list _ _ _) E)).
    rewrite every_iff in HA. specialize (HA c Hc). unfold moves in HA. rewrite E in HA.
    split.
    + intros (r' & Hin & Hm)%pd_complete. apply (same_re_elem _ _ _ HA) in Hin.
      apply list_elem_of_fmap in Hin as (j & -> & Hj). eauto.
    + intros (j & Hj & Hm). apply (pd_sound _ _ (expr A j)); [|done].
      by apply (same_re_elem _ _ _ HA), list_elem_of_fmap_2.
  - unfold expr. rewrite E. simpl. split; [|intros (j & Hj%not_elem_of_nil & _); done].
    intros H. inversion H. done.
Qed.

Lemma derive_lang A reps c R w :
  nfa_ok reps A = true → c ∈ reps → lang A (derive A c R) w ↔ lang A R (c :: w).
Proof.
  intros HA Hc. unfold lang. setoid_rewrite elem_of_derive.
  setoid_rewrite (moves_den A reps _ c w HA Hc). clear HA Hc. split; [|intros (i & Hi & j & Hj & Hm)].
  - intros (j & (i & Hi & Hj) & Hm). eauto.
  - eauto.
Qed.

Lemma nullable_lang A R : any (λ i, nullable (expr A i)) R = true ↔ lang A R [].
Proof. rewrite any_iff. unfold lang. by setoid_rewrite nullable_matches. Qed.

(** ** Building it *)

Section build.
Context (reps : list Z).

Definition grow (st : list re * list re) : list re * list re :=
  match st with
  | (r :: todo, seen) =>
      if mem_re seen r then (todo, seen) else ((reps ≫= λ c, pd c r) ++ todo, r :: seen)
  | _ => st
  end.
(** The partial derivatives of [r], [r] first. *)
Definition derivatives (r : re) : list re := rev (N.iter 100000 grow ([r], [])).2.

Fixpoint position (k : positive) (terms : list re) (r : re) : list positive :=
  match terms with
  | [] => []
  | t :: terms => if re_eqb r t then [k] else position (Pos.succ k) terms r
  end.
Definition row_of (terms : list re) (r : re) : list (Z * list positive) :=
  reps ≫= λ c, match pd c r with [] => [] | l => [(c, l ≫= position 1 terms)] end.
Fixpoint number {X} (k : positive) (l : list X) : list (positive * X) :=
  match l with [] => [] | x :: l => (k, x) :: number (Pos.succ k) l end.
Definition build (r : re) : nfa :=
  let terms := derivatives r in
  Nfa (list_to_map (number 1 terms)) (list_to_map (number 1 (map (row_of terms) terms))).
End build.

(** ** The check *)

Section machine.
Context (next : Z → Z → Z) (final : Z → bool).
(** Every character of [chars] behaves as its representative. *)
Context (chars : list Z) (reps : list Z) (rep : Z → Z).

Fixpoint same_set (R Q : list positive) : bool :=
  match R, Q with
  | [], [] => true
  | i :: R, j :: Q => (i =? j)%positive &&& same_set R Q
  | _, _ => false
  end.
Lemma same_set_eq R Q : same_set R Q = true → R = Q.
Proof.
  revert Q. induction R as [|i R IH]; intros [|j Q]; simpl; try done.
  rewrite both_iff, Pos.eqb_eq. intros [-> H]. f_equal. by apply IH.
Qed.

Definition has_pair (pairs : list (Z * list positive)) (a : Z) (R : list positive) : bool :=
  any (λ '(b, Q), (a =? b) &&& same_set R Q) pairs.

Definition closed_pair (A : nfa) (pairs : list (Z * list positive)) (p : Z * list positive) : bool :=
  let '(a, R) := p in
  Bool.eqb (final a) (any (λ i, nullable (expr A i)) R)
  &&& every (λ c, has_pair pairs (next a c) (derive A c R)) reps.

Definition visit (A : nfa) (st : list (Z * list positive) * list (Z * list positive)) :=
  match st with
  | ((a, R) :: todo, seen) =>
      if has_pair seen a R then (todo, seen)
      else (map (λ c, (next a c, derive A c R)) reps ++ todo, (a, R) :: seen)
  | _ => st
  end.
(** The pairs that are reached from [a] and the expression with number 1. *)
Definition reached (A : nfa) (a : Z) : list (Z * list positive) :=
  (N.iter 100000 (visit A) ([(a, [1%positive])], [])).2.

Definition blind (r : re) : bool := every (λ c, agree r c (rep c)) chars.

Definition uniform (states : list Z) : bool :=
  every (λ c, any (Z.eqb (rep c)) reps
    &&& every (λ a, next a c =? next a (rep c)) states) chars.

(** From the state [a] and the expression [r]: the pairs are closed, and the representatives
    stand for every character. *)
Definition certified (A : nfa) (pairs : list (Z * list positive)) (a : Z) (r : re) : bool :=
  nfa_ok reps A &&& re_eqb (expr A 1) r &&& blind r
  &&& has_pair pairs a [1%positive] &&& every (closed_pair A pairs) pairs
  &&& uniform (map fst pairs).
Definition bisimilar (a : Z) (r : re) : bool :=
  let A := build reps r in certified A (reached A a) a r.

Lemma has_pair_elem pairs a R : has_pair pairs a R = true → (a, R) ∈ pairs.
Proof. intros ([b Q] & Hin & [->%Z.eqb_eq ->%same_set_eq]%both_iff)%any_iff. done. Qed.

Lemma closed_lang A pairs a R w :
  nfa_ok reps A = true → every (closed_pair A pairs) pairs = true →
  uniform (map fst pairs) = true → (a, R) ∈ pairs → Forall (λ c, c ∈ chars) w →
  final (fold_left next w a) = true ↔ lang A R (map rep w).
Proof.
  unfold uniform. rewrite !every_iff. intros HA Hc Hu Hin Hw.
  revert a R Hin. induction Hw as [|c w Hcw Hw IH]; intros a R Hin; simpl.
  - apply Hc, both_iff in Hin as [->%eqb_prop _]. apply nullable_lang.
  - destruct (proj1 (both_iff _ _) (Hu c Hcw)) as [Hr Hn].
    rewrite every_iff in Hn. specialize (Hn a (list_elem_of_fmap_2 fst _ (a, R) Hin)).
    apply Z.eqb_eq in Hn as ->. apply any_iff in Hr as (c' & Hc' & ->%Z.eqb_eq).
    rewrite <- (derive_lang A reps) by done. apply IH.
    apply Hc, both_iff in Hin as [_ Hin]. rewrite every_iff in Hin. by apply has_pair_elem, Hin.
Qed.

Lemma certified_lang A pairs a r w :
  certified A pairs a r = true → Forall (λ c, c ∈ chars) w →
  final (fold_left next w a) = true ↔ matches r w.
Proof.
  unfold certified. rewrite !both_iff. intros (((((HA & Hr) & Hb) & Hp) & Hc) & Hu) Hw.
  rewrite (closed_lang A pairs a [1%positive] w); try done; [|by apply has_pair_elem].
  unfold lang. setoid_rewrite list_elem_of_singleton. apply re_eqb_eq in Hr.
  unfold blind in Hb. rewrite every_iff in Hb.
  assert (Forall2 (λ c d, agree r c d = true) w (map rep w)) as Hag.
  { induction Hw; constructor; auto. }
  split; [intros (i & -> & Hm)|intros Hm; exists 1%positive; split; [done|]];
    rewrite Hr in *; revert Hm; apply agree_matches; [|done].
  apply Forall2_flip, (Forall2_impl _ _ _ _ Hag). intros c d H. unfold flip. by rewrite agree_sym.
Qed.

Theorem bisimilar_lang a r w :
  bisimilar a r = true → Forall (λ c, c ∈ chars) w →
  final (fold_left next w a) = true ↔ matches r w.
Proof.
  unfold bisimilar. cbv zeta. generalize (build reps r) as A. intros A.
  generalize (reached A a) as pairs. intros pairs. apply certified_lang.
Qed.
End machine.
