(* ===== verification/Ragel.v ===== *)
(** * Goto-coded machines

    The shape of the code that Ragel writes: a state looks at the character and goes to a state or
    to a block of actions. Shared by the machines of the URI parser and the response parser. *)

From S2P Require Import Prelude CString.

(** [goto stN] and [goto trN]. *)
Inductive label := St (n : Z) | Tr (n : Z).

(** A [switch] over the character; [k] is what follows it. *)
Fixpoint switch (c : Z) (cases : list (Z * label)) (k : label) : label :=
  match cases with
  | [] => k
  | (n, l) :: cases => if c =? n then l else switch c cases k
  end.

(** ** The characters a machine can meet *)

Definition chars : list Z := map (λ n, Z.of_nat n - 128) (seq 0 256).

Lemma chars_range c : c ∈ chars ↔ -128 <= c < 128.
Proof.
  unfold chars. rewrite list_elem_of_fmap. setoid_rewrite elem_of_seq. split.
  - intros (n & -> & Hn). lia.
  - intros H. exists (Z.to_nat (c + 128)). lia.
Qed.

Lemma char_of_chars b : char_of b ∈ chars.
Proof.
  apply chars_range. unfold char_of. pose proof (swrap_fits 8 (byte_to_Z b) ltac:(lia)) as H.
  unfold fits_s in H. lia.
Qed.

Definition signed (text : list byte) : list Z := map char_of text.

Lemma signed_chars text : Forall (λ c, c ∈ chars) (signed text).
Proof. apply Forall_map, Forall_true, char_of_chars. Qed.
