(* ===== verification/UriMachine.v ===== *)
(** * The machine of the URI parser (sylar/http/uri.rl.cc)

    The goto-coded machine: [cases_k] are the [switch] blocks of the states in one stretch of the
    file, in the order of the file, and [trans_k] the blocks of its [tr] labels: the actions they
    run and the state they go to. [jump] and [trans] put the stretches together. Characters are
    signed. *)

From S2P Require Import Prelude Ragel.

(** The actions of uri.rl, by their names there. *)
Inductive uri_action :=
  | marku | markh | save_scheme | save_port | save_userinfo | save_host | save_path
  | save_query | save_fragment.

Definition trans_1 (t : Z) : list uri_action * Z :=
  match t with
  | 467 => ([marku; save_query], 453)
  | 469 => ([save_query], 453)
  | 474 => ([markh; save_host], 453)
  | 485 => ([save_host], 453)
  | 489 => ([markh; save_port], 453)
  | 493 => ([save_port], 453)
  | 548 => ([markh; save_host; save_path], 453)
  | 559 => ([save_host; markh; save_path], 453)
  | _ => ([], 0)
  end.

Definition cases_1 (cs c : Z) : label :=
  match cs with
  | 451 =>
      switch c [(34, St 0); (35, St 453); (37, St 3); (47, St 458); (58, St 0); (60, St 0);
        (62, St 0); (63, St 456); (96, St 0); (127, St 0)]
        (if c <? 91 then
           if 32 <? c then if (65 <=? c) && (c <=? 90) then Tr 461 else St 452
           else if 0 <=? c then St 0 else St 452
         else if 94 <? c then
           if 122 <? c then if (123 <=? c) && (c <=? 125) then St 0 else St 452
           else if 97 <=? c then Tr 461 else St 452
         else St 0)
  | 452 =>
      switch c [(34, St 0); (35, St 453); (37, St 3); (47, St 455); (58, St 0); (60, St 0);
        (62, St 0); (63, St 456); (96, St 0); (127, St 0)]
        (if c <? 91 then if (0 <=? c) && (c <=? 32) then St 0 else St 452
         else if 94 <? c then if (123 <=? c) && (c <=? 125) then St 0 else St 452 else St 0)
  | _ => St 0
  end.

Definition trans_2 (t : Z) : list uri_action * Z :=
  match t with
  | 563 => ([save_path], 453)
  | 566 => ([markh; save_port; save_path], 453)
  | 570 => ([save_port; markh; save_path], 453)
  | 462 => ([marku], 454)
  | 463 => ([marku], 1)
  | _ => ([], 0)
  end.

Definition cases_2 (cs c : Z) : label :=
  match cs with
  | 453 =>
      switch c [(37, Tr 463); (60, St 0); (62, St 0); (96, St 0); (127, St 0)]
        (if c <? 34 then if (0 <=? c) && (c <=? 32) then St 0 else Tr 462
         else if 35 <? c then
           if 94 <? c then if (123 <=? c) && (c <=? 125) then St 0 else Tr 462
           else if 91 <=? c then St 0 else Tr 462
         else St 0)
  | 454 =>
      switch c [(37, St 1); (60, St 0); (62, St 0); (96, St 0); (127, St 0)]
        (if c <? 34 then if (0 <=? c) && (c <=? 32) then St 0 else St 454
         else if 35 <? c then
           if 94 <? c then if (123 <=? c) && (c <=? 125) then St 0 else St 454
           else if 91 <=? c then St 0 else St 454
         else St 0)
  | 1 =>
      if c <? 65 then if (48 <=? c) && (c <=? 57) then St 2 else St 0
      else if 70 <? c then if (97 <=? c) && (c <=? 102) then St 2 else St 0 else St 2
  | 2 =>
      if c <? 65 then if (48 <=? c) && (c <=? 57) then St 454 else St 0
      else if 70 <? c then if (97 <=? c) && (c <=? 102) then St 454 else St 0 else St 454
  | 3 =>
      if c <? 65 then if (48 <=? c) && (c <=? 57) then St 4 else St 0
      else if 70 <? c then if (97 <=? c) && (c <=? 102) then St 4 else St 0 else St 4
  | 4 =>
      if c <? 65 then if (48 <=? c) && (c <=? 57) then St 452 else St 0
      else if 70 <? c then if (97 <=? c) && (c <=? 102) then St 452 else St 0 else St 452
  | _ => St 0
  end.

Definition trans_3 (t : Z) : list uri_action * Z :=
  match t with
  | 476 => ([markh; save_host], 455)
  | 486 => ([save_host], 455)
  | 490 => ([markh; save_port], 455)
  | 494 => ([save_port], 455)
  | 482 => ([markh; save_host], 456)
  | 488 => ([save_host], 456)
  | 492 => ([markh; save_port], 456)
  | 496 => ([save_port], 456)
  | 556 => ([markh; save_host; save_path], 456)
  | _ => ([], 0)
  end.

Definition cases_3 (cs c : Z) : label :=
  match cs with
  | 455 =>
      switch c [(34, St 0); (35, St 453); (37, St 5); (60, St 0); (62, St 0); (63, St 456);
        (96, St 0); (127, St 0)]
        (if c <? 91 then if (0 <=? c) && (c <=? 32) then St 0 else St 455
         else if 94 <? c then if (123 <=? c) && (c <=? 125) then St 0 else St 455 else St 0)
  | 5 =>
      if c <? 65 then if (48 <=? c) && (c <=? 57) then St 6 else St 0
      else if 70 <? c then if (97 <=? c) && (c <=? 102) then St 6 else St 0 else St 6
  | 6 =>
      if c <? 65 then if (48 <=? c) && (c <=? 57) then St 455 else St 0
      else if 70 <? c then if (97 <=? c) && (c <=? 102) then St 455 else St 0 else St 455
  | _ => St 0
  end.

Definition trans_4 (t : Z) : list uri_action * Z :=
  match t with
  | 562 => ([save_host; markh; save_path], 456)
  | 565 => ([save_path], 456)
  | 569 => ([markh; save_port; save_path], 456)
  | 573 => ([save_port; markh; save_path], 456)
  | 466 => ([marku], 457)
  | 468 => ([marku], 7)
  | _ => ([], 0)
  end.

Definition cases_4 (cs c : Z) : label :=
  match cs with
  | 456 =>
      switch c [(34, St 0); (35, Tr 467); (37, Tr 468); (60, St 0); (62, St 0); (96, St 0);
        (127, St 0)]
        (if c <? 91 then if (0 <=? c) && (c <=? 32) then St 0 else Tr 466
         else if 94 <? c then if (123 <=? c) && (c <=? 125) then St 0 else Tr 466 else St 0)
  | 457 =>
      switch c [(34, St 0); (35, Tr 469); (37, St 7); (60, St 0); (62, St 0); (96, St 0);
        (127, St 0)]
        (if c <? 91 then if (0 <=? c) && (c <=? 32) then St 0 else St 457
         else if 94 <? c then if (123 <=? c) && (c <=? 125) then St 0 else St 457 else St 0)
  | 7 =>
      if c <? 65 then if (48 <=? c) && (c <=? 57) then St 8 else St 0
      else if 70 <? c then if (97 <=? c) && (c <=? 102) then St 8 else St 0 else St 8
  | 8 =>
      if c <? 65 then if (48 <=? c) && (c <=? 57) then St 457 else St 0
      else if 70 <? c then if (97 <=? c) && (c <=? 102) then St 457 else St 0 else St 457
  | 458 =>
      switch c [(34, St 0); (35, St 453); (37, St 5); (47, St 459); (60, St 0); (62, St 0);
        (63, St 456); (96, St 0); (127, St 0)]
        (if c <? 91 then if (0 <=? c) && (c <=? 32) then St 0 else St 455
         else if 94 <? c then if (123 <=? c) && (c <=? 125) then St 0 else St 455 else St 0)
  | _ => St 0
  end.

Definition trans_5 (t : Z) : list uri_action * Z :=
  match t with
  | 472 => ([markh], 9)
  | _ => ([], 0)
  end.

Definition cases_5 (cs c : Z) : label :=
  match cs with
  | 459 =>
      switch c [(2, Tr 472); (33, Tr 473); (35, Tr 474); (37, Tr 475); (47, Tr 476);
        (48, Tr 477); (49, Tr 478); (50, Tr 479); (58, Tr 481); (59, Tr 473); (61, Tr 473);
        (63, Tr 482); (64, Tr 483); (91, Tr 484); (95, Tr 473); (126, Tr 473)]
        (if c <? 51 then if (36 <=? c) && (c <=? 46) then Tr 473 else St 0
         else if 57 <? c then
           if 90 <? c then if (97 <=? c) && (c <=? 122) then Tr 473 else St 0
           else if 65 <=? c then Tr 473 else St 0
         else Tr 480)
  | 9 => if (48 <=? c) && (c <=? 52) then St 10 else St 0
  | 10 => if (48 <=? c) && (c <=? 57) then St 11 else St 0
  | 11 => if c =? 46 then St 12 else St 0
  | 12 =>
      switch c [(2, St 13); (48, St 15); (49, St 27); (50, St 29)]
        (if (51 <=? c) && (c <=? 57) then St 28 else St 0)
  | 13 => if (48 <=? c) && (c <=? 52) then St 14 else St 0
  | 14 => if (48 <=? c) && (c <=? 57) then St 15 else St 0
  | 15 => if c =? 46 then St 16 else St 0
  | 16 =>
      switch c [(2, St 17); (48, St 19); (49, St 23); (50, St 25)]
        (if (51 <=? c) && (c <=? 57) then St 24 else St 0)
  | 17 => if (48 <=? c) && (c <=? 52) then St 18 else St 0
  | 18 => if (48 <=? c) && (c <=? 57) then St 19 else St 0
  | 19 => if c =? 46 then St 20 else St 0
  | 20 =>
      switch c [(2, St 21); (48, St 460); (49, St 463); (50, St 465)]
        (if (51 <=? c) && (c <=? 57) then St 464 else St 0)
  | 21 => if (48 <=? c) && (c <=? 52) then St 22 else St 0
  | _ => St 0
  end.

Definition trans_6 (t : Z) : list uri_action * Z :=
  match t with
  | 507 => ([markh; save_host], 461)
  | 487 => ([save_host], 461)
  | 491 => ([markh], 462)
  | _ => ([], 0)
  end.

Definition cases_6 (cs c : Z) : label :=
  match cs with
  | 22 => if (48 <=? c) && (c <=? 57) then St 460 else St 0
  | 460 =>
      switch c [(35, Tr 485); (47, Tr 486); (58, Tr 487); (63, Tr 488)]
        (St 0)
  | 461 =>
      switch c [(35, Tr 489); (47, Tr 490); (63, Tr 492)]
        (if (48 <=? c) && (c <=? 57) then Tr 491 else St 0)
  | 462 =>
      switch c [(35, Tr 493); (47, Tr 494); (63, Tr 496)]
        (if (48 <=? c) && (c <=? 57) then St 462 else St 0)
  | 463 =>
      switch c [(35, Tr 485); (47, Tr 486); (58, Tr 487); (63, Tr 488)]
        (if (48 <=? c) && (c <=? 57) then St 464 else St 0)
  | 464 =>
      switch c [(35, Tr 485); (47, Tr 486); (58, Tr 487); (63, Tr 488)]
        (if (48 <=? c) && (c <=? 57) then St 460 else St 0)
  | 465 =>
      switch c [(35, Tr 485); (47, Tr 486); (53, St 466); (58, Tr 487); (63, Tr 488)]
        (if (48 <=? c) && (c <=? 57) then St 460 else St 0)
  | 466 =>
      switch c [(35, Tr 485); (47, Tr 486); (58, Tr 487); (63, Tr 488)]
        (if (48 <=? c) && (c <=? 53) then St 460 else St 0)
  | 23 => if c =? 46 then St 20 else if (48 <=? c) && (c <=? 57) then St 24 else St 0
  | 24 => if c =? 46 then St 20 else if (48 <=? c) && (c <=? 57) then St 19 else St 0
  | 25 =>
      switch c [(46, St 20); (53, St 26)]
        (if (48 <=? c) && (c <=? 57) then St 19 else St 0)
  | _ => St 0
  end.

Definition trans_7 (t : Z) : list uri_action * Z :=
  match t with
  | 473 => ([markh], 467)
  | 475 => ([markh], 31)
  | 481 => ([markh; save_host], 468)
  | 499 => ([save_host], 468)
  | _ => ([], 0)
  end.

Definition cases_7 (cs c : Z) : label :=
  match cs with
  | 26 => if c =? 46 then St 20 else if (48 <=? c) && (c <=? 53) then St 19 else St 0
  | 27 => if c =? 46 then St 16 else if (48 <=? c) && (c <=? 57) then St 28 else St 0
  | 28 => if c =? 46 then St 16 else if (48 <=? c) && (c <=? 57) then St 15 else St 0
  | 29 =>
      switch c [(46, St 16); (53, St 30)]
        (if (48 <=? c) && (c <=? 57) then St 15 else St 0)
  | 30 => if c =? 46 then St 16 else if (48 <=? c) && (c <=? 53) then St 15 else St 0
  | 467 =>
      switch c [(33, St 467); (35, Tr 485); (37, St 31); (47, Tr 486); (58, Tr 499);
        (61, St 467); (63, Tr 488); (64, Tr 38); (95, St 467); (126, St 467)]
        (if c <? 65 then if (36 <=? c) && (c <=? 59) then St 467 else St 0
         else if 90 <? c then if (97 <=? c) && (c <=? 122) then St 467 else St 0 else St 467)
  | 31 =>
      if c <? 65 then if (48 <=? c) && (c <=? 57) then St 32 else St 0
      else if 70 <? c then if (97 <=? c) && (c <=? 102) then St 32 else St 0 else St 32
  | 32 =>
      if c <? 65 then if (48 <=? c) && (c <=? 57) then St 467 else St 0
      else if 70 <? c then if (97 <=? c) && (c <=? 102) then St 467 else St 0 else St 467
  | 468 =>
      switch c [(33, St 33); (35, Tr 489); (37, St 34); (47, Tr 490); (61, St 33); (63, Tr 492);
        (64, Tr 38); (95, St 33); (126, St 33)]
        (if c <? 58 then
           if 46 <? c then if (48 <=? c) && (c <=? 57) then Tr 500 else St 0
           else if 36 <=? c then St 33 else St 0
         else if 59 <? c then
           if 90 <? c then if (97 <=? c) && (c <=? 122) then St 33 else St 0
           else if 65 <=? c then St 33 else St 0
         else St 33)
  | _ => St 0
  end.

Definition trans_8 (t : Z) : list uri_action * Z :=
  match t with
  | 38 => ([save_userinfo], 469)
  | 483 => ([markh; save_userinfo], 469)
  | 501 => ([markh], 470)
  | 502 => ([markh], 36)
  | _ => ([], 0)
  end.

Definition cases_8 (cs c : Z) : label :=
  match cs with
  | 33 =>
      switch c [(33, St 33); (37, St 34); (61, St 33); (64, Tr 38); (95, St 33); (126, St 33)]
        (if c <? 48 then if (36 <=? c) && (c <=? 46) then St 33 else St 0
         else if 59 <? c then
           if 90 <? c then if (97 <=? c) && (c <=? 122) then St 33 else St 0
           else if 65 <=? c then St 33 else St 0
         else St 33)
  | 34 =>
      if c <? 65 then if (48 <=? c) && (c <=? 57) then St 35 else St 0
      else if 70 <? c then if (97 <=? c) && (c <=? 102) then St 35 else St 0 else St 35
  | 35 =>
      if c <? 65 then if (48 <=? c) && (c <=? 57) then St 33 else St 0
      else if 70 <? c then if (97 <=? c) && (c <=? 102) then St 33 else St 0 else St 33
  | 469 =>
      switch c [(2, Tr 472); (33, Tr 501); (35, Tr 474); (37, Tr 502); (47, Tr 476);
        (48, Tr 503); (49, Tr 504); (50, Tr 505); (58, Tr 507); (59, Tr 501); (61, Tr 501);
        (63, Tr 482); (91, Tr 484); (95, Tr 501); (126, Tr 501)]
        (if c <? 51 then if (36 <=? c) && (c <=? 46) then Tr 501 else St 0
         else if 57 <? c then
           if 90 <? c then if (97 <=? c) && (c <=? 122) then Tr 501 else St 0
           else if 65 <=? c then Tr 501 else St 0
         else Tr 506)
  | 470 =>
      switch c [(33, St 470); (35, Tr 485); (37, St 36); (47, Tr 486); (58, Tr 487);
        (61, St 470); (63, Tr 488); (95, St 470); (126, St 470)]
        (if c <? 65 then if (36 <=? c) && (c <=? 59) then St 470 else St 0
         else if 90 <? c then if (97 <=? c) && (c <=? 122) then St 470 else St 0 else St 470)
  | 36 =>
      if c <? 65 then if (48 <=? c) && (c <=? 57) then St 37 else St 0
      else if 70 <? c then if (97 <=? c) && (c <=? 102) then St 37 else St 0 else St 37
  | _ => St 0
  end.

Definition trans_9 (t : Z) : list uri_action * Z :=
  match t with
  | 503 => ([markh], 471)
  | _ => ([], 0)
  end.

Definition cases_9 (cs c : Z) : label :=
  match cs with
  | 37 =>
      if c <? 65 then if (48 <=? c) && (c <=? 57) then St 470 else St 0
      else if 70 <? c then if (97 <=? c) && (c <=? 102) then St 470 else St 0 else St 470
  | 471 =>
      switch c [(33, St 470); (35, Tr 485); (37, St 36); (46, St 472); (47, Tr 486);
        (58, Tr 487); (61, St 470); (63, Tr 488); (95, St 470); (126, St 470)]
        (if c <? 65 then if (36 <=? c) && (c <=? 59) then St 470 else St 0
         else if 90 <? c then if (97 <=? c) && (c <=? 122) then St 470 else St 0 else St 470)
  | 472 =>
      switch c [(2, St 13); (33, St 470); (35, Tr 485); (37, St 36); (47, Tr 486); (48, St 473);
        (49, St 481); (50, St 483); (58, Tr 487); (59, St 470); (61, St 470); (63, Tr 488);
        (95, St 470); (126, St 470)]
        (if c <? 51 then if (36 <=? c) && (c <=? 46) then St 470 else St 0
         else if 57 <? c then
           if 90 <? c then if (97 <=? c) && (c <=? 122) then St 470 else St 0
           else if 65 <=? c then St 470 else St 0
         else St 482)
  | 473 =>
      switch c [(33, St 470); (35, Tr 485); (37, St 36); (46, St 474); (47, Tr 486);
        (58, Tr 487); (61, St 470); (63, Tr 488); (95, St 470); (126, St 470)]
        (if c <? 65 then if (36 <=? c) && (c <=? 59) then St 470 else St 0
         else if 90 <? c then if (97 <=? c) && (c <=? 122) then St 470 else St 0 else St 470)
  | 474 =>
      switch c [(2, St 17); (33, St 470); (35, Tr 485); (37, St 36); (47, Tr 486); (48, St 475);
        (49, St 477); (50, St 479); (58, Tr 487); (59, St 470); (61, St 470); (63, Tr 488);
        (95, St 470); (126, St 470)]
        (if c <? 51 then if (36 <=? c) && (c <=? 46) then St 470 else St 0
         else if 57 <? c then
           if 90 <? c then if (97 <=? c) && (c <=? 122) then St 470 else St 0
           else if 65 <=? c then St 470 else St 0
         else St 478)
  | 475 =>
      switch c [(33, St 470); (35, Tr 485); (37, St 36); (46, St 476); (47, Tr 486);
        (58, Tr 487); (61, St 470); (63, Tr 488); (95, St 470); (126, St 470)]
        (if c <? 65 then if (36 <=? c) && (c <=? 59) then St 470 else St 0
         else if 90 <? c then if (97 <=? c) && (c <=? 122) then St 470 else St 0 else St 470)
  | _ => St 0
  end.

Definition cases_10 (cs c : Z) : label :=
  match cs with
  | 476 =>
      switch c [(2, St 21); (33, St 470); (35, Tr 485); (37, St 36); (47, Tr 486); (58, Tr 487);
        (61, St 470); (63, Tr 488); (95, St 470); (126, St 470)]
        (if c <? 65 then if (36 <=? c) && (c <=? 59) then St 470 else St 0
         else if 90 <? c then if (97 <=? c) && (c <=? 122) then St 470 else St 0 else St 470)
  | 477 =>
      switch c [(33, St 470); (35, Tr 485); (37, St 36); (46, St 476); (47, Tr 486);
        (58, Tr 487); (59, St 470); (61, St 470); (63, Tr 488); (95, St 470); (126, St 470)]
        (if c <? 48 then if (36 <=? c) && (c <=? 45) then St 470 else St 0
         else if 57 <? c then
           if 90 <? c then if (97 <=? c) && (c <=? 122) then St 470 else St 0
           else if 65 <=? c then St 470 else St 0
         else St 478)
  | 478 =>
      switch c [(33, St 470); (35, Tr 485); (37, St 36); (46, St 476); (47, Tr 486);
        (58, Tr 487); (59, St 470); (61, St 470); (63, Tr 488); (95, St 470); (126, St 470)]
        (if c <? 48 then if (36 <=? c) && (c <=? 45) then St 470 else St 0
         else if 57 <? c then
           if 90 <? c then if (97 <=? c) && (c <=? 122) then St 470 else St 0
           else if 65 <=? c then St 470 else St 0
         else St 475)
  | 479 =>
      switch c [(33, St 470); (35, Tr 485); (37, St 36); (46, St 476); (47, Tr 486);
        (53, St 480); (58, Tr 487); (59, St 470); (61, St 470); (63, Tr 488); (95, St 470);
        (126, St 470)]
        (if c <? 48 then if (36 <=? c) && (c <=? 45) then St 470 else St 0
         else if 57 <? c then
           if 90 <? c then if (97 <=? c) && (c <=? 122) then St 470 else St 0
           else if 65 <=? c then St 470 else St 0
         else St 475)
  | 480 =>
      switch c [(33, St 470); (35, Tr 485); (37, St 36); (46, St 476); (47, Tr 486);
        (58, Tr 487); (61, St 470); (63, Tr 488); (95, St 470); (126, St 470)]
        (if c <? 54 then
           if 45 <? c then if (48 <=? c) && (c <=? 53) then St 475 else St 0
           else if 36 <=? c then St 470 else St 0
         else if 59 <? c then
           if 90 <? c then if (97 <=? c) && (c <=? 122) then St 470 else St 0
           else if 65 <=? c then St 470 else St 0
         else St 470)
  | 481 =>
      switch c [(33, St 470); (35, Tr 485); (37, St 36); (46, St 474); (47, Tr 486);
        (58, Tr 487); (59, St 470); (61, St 470); (63, Tr 488); (95, St 470); (126, St 470)]
        (if c <? 48 then if (36 <=? c) && (c <=? 45) then St 470 else St 0
         else if 57 <? c then
           if 90 <? c then if (97 <=? c) && (c <=? 122) then St 470 else St 0
           else if 65 <=? c then St 470 else St 0
         else St 482)
  | _ => St 0
  end.

Definition trans_11 (t : Z) : list uri_action * Z :=
  match t with
  | 504 => ([markh], 485)
  | 506 => ([markh], 486)
  | _ => ([], 0)
  end.

Definition cases_11 (cs c : Z) : label :=
  match cs with
  | 482 =>
      switch c [(33, St 470); (35, Tr 485); (37, St 36); (46, St 474); (47, Tr 486);
        (58, Tr 487); (59, St 470); (61, St 470); (63, Tr 488); (95, St 470); (126, St 470)]
        (if c <? 48 then if (36 <=? c) && (c <=? 45) then St 470 else St 0
         else if 57 <? c then
           if 90 <? c then if (97 <=? c) && (c <=? 122) then St 470 else St 0
           else if 65 <=? c then St 470 else St 0
         else St 473)
  | 483 =>
      switch c [(33, St 470); (35, Tr 485); (37, St 36); (46, St 474); (47, Tr 486);
        (53, St 484); (58, Tr 487); (59, St 470); (61, St 470); (63, Tr 488); (95, St 470);
        (126, St 470)]
        (if c <? 48 then if (36 <=? c) && (c <=? 45) then St 470 else St 0
         else if 57 <? c then
           if 90 <? c then if (97 <=? c) && (c <=? 122) then St 470 else St 0
           else if 65 <=? c then St 470 else St 0
         else St 473)
  | 484 =>
      switch c [(33, St 470); (35, Tr 485); (37, St 36); (46, St 474); (47, Tr 486);
        (58, Tr 487); (61, St 470); (63, Tr 488); (95, St 470); (126, St 470)]
        (if c <? 54 then
           if 45 <? c then if (48 <=? c) && (c <=? 53) then St 473 else St 0
           else if 36 <=? c then St 470 else St 0
         else if 59 <? c then
           if 90 <? c then if (97 <=? c) && (c <=? 122) then St 470 else St 0
           else if 65 <=? c then St 470 else St 0
         else St 470)
  | 485 =>
      switch c [(33, St 470); (35, Tr 485); (37, St 36); (46, St 472); (47, Tr 486);
        (58, Tr 487); (59, St 470); (61, St 470); (63, Tr 488); (95, St 470); (126, St 470)]
        (if c <? 48 then if (36 <=? c) && (c <=? 45) then St 470 else St 0
         else if 57 <? c then
           if 90 <? c then if (97 <=? c) && (c <=? 122) then St 470 else St 0
           else if 65 <=? c then St 470 else St 0
         else St 486)
  | 486 =>
      switch c [(33, St 470); (35, Tr 485); (37, St 36); (46, St 472); (47, Tr 486);
        (58, Tr 487); (59, St 470); (61, St 470); (63, Tr 488); (95, St 470); (126, St 470)]
        (if c <? 48 then if (36 <=? c) && (c <=? 45) then St 470 else St 0
         else if 57 <? c then
           if 90 <? c then if (97 <=? c) && (c <=? 122) then St 470 else St 0
           else if 65 <=? c then St 470 else St 0
         else St 471)
  | _ => St 0
  end.

Definition trans_12 (t : Z) : list uri_action * Z :=
  match t with
  | 505 => ([markh], 487)
  | 484 => ([markh], 38)
  | _ => ([], 0)
  end.

Definition cases_12 (cs c : Z) : label :=
  match cs with
  | 487 =>
      switch c [(33, St 470); (35, Tr 485); (37, St 36); (46, St 472); (47, Tr 486);
        (53, St 488); (58, Tr 487); (59, St 470); (61, St 470); (63, Tr 488); (95, St 470);
        (126, St 470)]
        (if c <? 48 then if (36 <=? c) && (c <=? 45) then St 470 else St 0
         else if 57 <? c then
           if 90 <? c then if (97 <=? c) && (c <=? 122) then St 470 else St 0
           else if 65 <=? c then St 470 else St 0
         else St 471)
  | 488 =>
      switch c [(33, St 470); (35, Tr 485); (37, St 36); (46, St 472); (47, Tr 486);
        (58, Tr 487); (61, St 470); (63, Tr 488); (95, St 470); (126, St 470)]
        (if c <? 54 then
           if 45 <? c then if (48 <=? c) && (c <=? 53) then St 471 else St 0
           else if 36 <=? c then St 470 else St 0
         else if 59 <? c then
           if 90 <? c then if (97 <=? c) && (c <=? 122) then St 470 else St 0
           else if 65 <=? c then St 470 else St 0
         else St 470)
  | 38 =>
      switch c [(58, St 146); (118, St 225)]
        (if c <? 65 then if (48 <=? c) && (c <=? 57) then St 39 else St 0
         else if 70 <? c then if (97 <=? c) && (c <=? 102) then St 39 else St 0 else St 39)
  | 39 =>
      if c =? 58 then St 43
      else if c <? 65 then if (48 <=? c) && (c <=? 57) then St 40 else St 0
      else if 70 <? c then if (97 <=? c) && (c <=? 102) then St 40 else St 0 else St 40
  | 40 =>
      if c =? 58 then St 43
      else if c <? 65 then if (48 <=? c) && (c <=? 57) then St 41 else St 0
      else if 70 <? c then if (97 <=? c) && (c <=? 102) then St 41 else St 0 else St 41
  | 41 =>
      if c =? 58 then St 43
      else if c <? 65 then if (48 <=? c) && (c <=? 57) then St 42 else St 0
      else if 70 <? c then if (97 <=? c) && (c <=? 102) then St 42 else St 0 else St 42
  | 42 => if c =? 58 then St 43 else St 0
  | 43 =>
      if c =? 58 then St 141
      else if c <? 65 then if (48 <=? c) && (c <=? 57) then St 44 else St 0
      else if 70 <? c then if (97 <=? c) && (c <=? 102) then St 44 else St 0 else St 44
  | _ => St 0
  end.

Definition cases_13 (cs c : Z) : label :=
  match cs with
  | 44 =>
      if c =? 58 then St 48
      else if c <? 65 then if (48 <=? c) && (c <=? 57) then St 45 else St 0
      else if 70 <? c then if (97 <=? c) && (c <=? 102) then St 45 else St 0 else St 45
  | 45 =>
      if c =? 58 then St 48
      else if c <? 65 then if (48 <=? c) && (c <=? 57) then St 46 else St 0
      else if 70 <? c then if (97 <=? c) && (c <=? 102) then St 46 else St 0 else St 46
  | 46 =>
      if c =? 58 then St 48
      else if c <? 65 then if (48 <=? c) && (c <=? 57) then St 47 else St 0
      else if 70 <? c then if (97 <=? c) && (c <=? 102) then St 47 else St 0 else St 47
  | 47 => if c =? 58 then St 48 else St 0
  | 48 =>
      if c =? 58 then St 136
      else if c <? 65 then if (48 <=? c) && (c <=? 57) then St 49 else St 0
      else if 70 <? c then if (97 <=? c) && (c <=? 102) then St 49 else St 0 else St 49
  | 49 =>
      if c =? 58 then St 53
      else if c <? 65 then if (48 <=? c) && (c <=? 57) then St 50 else St 0
      else if 70 <? c then if (97 <=? c) && (c <=? 102) then St 50 else St 0 else St 50
  | 50 =>
      if c =? 58 then St 53
      else if c <? 65 then if (48 <=? c) && (c <=? 57) then St 51 else St 0
      else if 70 <? c then if (97 <=? c) && (c <=? 102) then St 51 else St 0 else St 51
  | 51 =>
      if c =? 58 then St 53
      else if c <? 65 then if (48 <=? c) && (c <=? 57) then St 52 else St 0
      else if 70 <? c then if (97 <=? c) && (c <=? 102) then St 52 else St 0 else St 52
  | 52 => if c =? 58 then St 53 else St 0
  | 53 =>
      if c =? 58 then St 131
      else if c <? 65 then if (48 <=? c) && (c <=? 57) then St 54 else St 0
      else if 70 <? c then if (97 <=? c) && (c <=? 102) then St 54 else St 0 else St 54
  | 54 =>
      if c =? 58 then St 58
      else if c <? 65 then if (48 <=? c) && (c <=? 57) then St 55 else St 0
      else if 70 <? c then if (97 <=? c) && (c <=? 102) then St 55 else St 0 else St 55
  | _ => St 0
  end.

Definition cases_14 (cs c : Z) : label :=
  match cs with
  | 55 =>
      if c =? 58 then St 58
      else if c <? 65 then if (48 <=? c) && (c <=? 57) then St 56 else St 0
      else if 70 <? c then if (97 <=? c) && (c <=? 102) then St 56 else St 0 else St 56
  | 56 =>
      if c =? 58 then St 58
      else if c <? 65 then if (48 <=? c) && (c <=? 57) then St 57 else St 0
      else if 70 <? c then if (97 <=? c) && (c <=? 102) then St 57 else St 0 else St 57
  | 57 => if c =? 58 then St 58 else St 0
  | 58 =>
      if c =? 58 then St 126
      else if c <? 65 then if (48 <=? c) && (c <=? 57) then St 59 else St 0
      else if 70 <? c then if (97 <=? c) && (c <=? 102) then St 59 else St 0 else St 59
  | 59 =>
      if c =? 58 then St 63
      else if c <? 65 then if (48 <=? c) && (c <=? 57) then St 60 else St 0
      else if 70 <? c then if (97 <=? c) && (c <=? 102) then St 60 else St 0 else St 60
  | 60 =>
      if c =? 58 then St 63
      else if c <? 65 then if (48 <=? c) && (c <=? 57) then St 61 else St 0
      else if 70 <? c then if (97 <=? c) && (c <=? 102) then St 61 else St 0 else St 61
  | 61 =>
      if c =? 58 then St 63
      else if c <? 65 then if (48 <=? c) && (c <=? 57) then St 62 else St 0
      else if 70 <? c then if (97 <=? c) && (c <=? 102) then St 62 else St 0 else St 62
  | 62 => if c =? 58 then St 63 else St 0
  | 63 =>
      if c =? 58 then St 113
      else if c <? 65 then if (48 <=? c) && (c <=? 57) then St 64 else St 0
      else if 70 <? c then if (97 <=? c) && (c <=? 102) then St 64 else St 0 else St 64
  | 64 =>
      if c =? 58 then St 68
      else if c <? 65 then if (48 <=? c) && (c <=? 57) then St 65 else St 0
      else if 70 <? c then if (97 <=? c) && (c <=? 102) then St 65 else St 0 else St 65
  | 65 =>
      if c =? 58 then St 68
      else if c <? 65 then if (48 <=? c) && (c <=? 57) then St 66 else St 0
      else if 70 <? c then if (97 <=? c) && (c <=? 102) then St 66 else St 0 else St 66
  | _ => St 0
  end.

Definition cases_15 (cs c : Z) : label :=
  match cs with
  | 66 =>
      if c =? 58 then St 68
      else if c <? 65 then if (48 <=? c) && (c <=? 57) then St 67 else St 0
      else if 70 <? c then if (97 <=? c) && (c <=? 102) then St 67 else St 0 else St 67
  | 67 => if c =? 58 then St 68 else St 0
  | 68 =>
      switch c [(2, St 69); (48, St 96); (49, St 104); (50, St 107); (58, St 111)]
        (if c <? 65 then if (51 <=? c) && (c <=? 57) then St 110 else St 0
         else if 70 <? c then if (97 <=? c) && (c <=? 102) then St 112 else St 0 else St 112)
  | 69 => if (48 <=? c) && (c <=? 52) then St 70 else St 0
  | 70 => if (48 <=? c) && (c <=? 57) then St 71 else St 0
  | 71 => if c =? 46 then St 72 else St 0
  | 72 =>
      switch c [(2, St 73); (48, St 75); (49, St 92); (50, St 94)]
        (if (51 <=? c) && (c <=? 57) then St 93 else St 0)
  | 73 => if (48 <=? c) && (c <=? 52) then St 74 else St 0
  | 74 => if (48 <=? c) && (c <=? 57) then St 75 else St 0
  | 75 => if c =? 46 then St 76 else St 0
  | 76 =>
      switch c [(2, St 77); (48, St 79); (49, St 88); (50, St 90)]
        (if (51 <=? c) && (c <=? 57) then St 89 else St 0)
  | 77 => if (48 <=? c) && (c <=? 52) then St 78 else St 0
  | 78 => if (48 <=? c) && (c <=? 57) then St 79 else St 0
  | 79 => if c =? 46 then St 80 else St 0
  | 80 =>
      switch c [(2, St 81); (48, St 83); (49, St 84); (50, St 86)]
        (if (51 <=? c) && (c <=? 57) then St 85 else St 0)
  | 81 => if (48 <=? c) && (c <=? 52) then St 82 else St 0
  | _ => St 0
  end.

Definition cases_16 (cs c : Z) : label :=
  match cs with
  | 82 => if (48 <=? c) && (c <=? 57) then St 83 else St 0
  | 83 => if c =? 93 then St 460 else St 0
  | 84 => if c =? 93 then St 460 else if (48 <=? c) && (c <=? 57) then St 85 else St 0
  | 85 => if c =? 93 then St 460 else if (48 <=? c) && (c <=? 57) then St 83 else St 0
  | 86 =>
      switch c [(53, St 87); (93, St 460)]
        (if (48 <=? c) && (c <=? 57) then St 83 else St 0)
  | 87 => if c =? 93 then St 460 else if (48 <=? c) && (c <=? 53) then St 83 else St 0
  | 88 => if c =? 46 then St 80 else if (48 <=? c) && (c <=? 57) then St 89 else St 0
  | 89 => if c =? 46 then St 80 else if (48 <=? c) && (c <=? 57) then St 79 else St 0
  | 90 =>
      switch c [(46, St 80); (53, St 91)]
        (if (48 <=? c) && (c <=? 57) then St 79 else St 0)
  | 91 => if c =? 46 then St 80 else if (48 <=? c) && (c <=? 53) then St 79 else St 0
  | 92 => if c =? 46 then St 76 else if (48 <=? c) && (c <=? 57) then St 93 else St 0
  | 93 => if c =? 46 then St 76 else if (48 <=? c) && (c <=? 57) then St 75 else St 0
  | 94 =>
      switch c [(46, St 76); (53, St 95)]
        (if (48 <=? c) && (c <=? 57) then St 75 else St 0)
  | 95 => if c =? 46 then St 76 else if (48 <=? c) && (c <=? 53) then St 75 else St 0
  | 96 =>
      switch c [(46, St 72); (58, St 100)]
        (if c <? 65 then if (48 <=? c) && (c <=? 57) then St 97 else St 0
         else if 70 <? c then if (97 <=? c) && (c <=? 102) then St 97 else St 0 else St 97)
  | 97 =>
      if c =? 58 then St 100
      else if c <? 65 then if (48 <=? c) && (c <=? 57) then St 98 else St 0
      else if 70 <? c then if (97 <=? c) && (c <=? 102) then St 98 else St 0 else St 98
  | _ => St 0
  end.

Definition cases_17 (cs c : Z) : label :=
  match cs with
  | 98 =>
      if c =? 58 then St 100
      else if c <? 65 then if (48 <=? c) && (c <=? 57) then St 99 else St 0
      else if 70 <? c then if (97 <=? c) && (c <=? 102) then St 99 else St 0 else St 99
  | 99 => if c =? 58 then St 100 else St 0
  | 100 =>
      if c =? 58 then St 83
      else if c <? 65 then if (48 <=? c) && (c <=? 57) then St 101 else St 0
      else if 70 <? c then if (97 <=? c) && (c <=? 102) then St 101 else St 0 else St 101
  | 101 =>
      if c =? 93 then St 460
      else if c <? 65 then if (48 <=? c) && (c <=? 57) then St 102 else St 0
      else if 70 <? c then if (97 <=? c) && (c <=? 102) then St 102 else St 0 else St 102
  | 102 =>
      if c =? 93 then St 460
      else if c <? 65 then if (48 <=? c) && (c <=? 57) then St 103 else St 0
      else if 70 <? c then if (97 <=? c) && (c <=? 102) then St 103 else St 0 else St 103
  | 103 =>
      if c =? 93 then St 460
      else if c <? 65 then if (48 <=? c) && (c <=? 57) then St 83 else St 0
      else if 70 <? c then if (97 <=? c) && (c <=? 102) then St 83 else St 0 else St 83
  | 104 =>
      switch c [(46, St 72); (58, St 100)]
        (if c <? 65 then if (48 <=? c) && (c <=? 57) then St 105 else St 0
         else if 70 <? c then if (97 <=? c) && (c <=? 102) then St 97 else St 0 else St 97)
  | 105 =>
      switch c [(46, St 72); (58, St 100)]
        (if c <? 65 then if (48 <=? c) && (c <=? 57) then St 106 else St 0
         else if 70 <? c then if (97 <=? c) && (c <=? 102) then St 98 else St 0 else St 98)
  | 106 =>
      switch c [(46, St 72); (58, St 100)]
        (if c <? 65 then if (48 <=? c) && (c <=? 57) then St 99 else St 0
         else if 70 <? c then if (97 <=? c) && (c <=? 102) then St 99 else St 0 else St 99)
  | 107 =>
      switch c [(46, St 72); (53, St 109); (58, St 100)]
        (if c <? 65 then if (48 <=? c) && (c <=? 57) then St 108 else St 0
         else if 70 <? c then if (97 <=? c) && (c <=? 102) then St 97 else St 0 else St 97)
  | _ => St 0
  end.

Definition cases_18 (cs c : Z) : label :=
  match cs with
  | 108 =>
      switch c [(46, St 72); (58, St 100)]
        (if c <? 65 then if (48 <=? c) && (c <=? 57) then St 98 else St 0
         else if 70 <? c then if (97 <=? c) && (c <=? 102) then St 98 else St 0 else St 98)
  | 109 =>
      switch c [(46, St 72); (58, St 100)]
        (if c <? 54 then if (48 <=? c) && (c <=? 53) then St 106 else St 0
         else if 57 <? c then
           if 70 <? c then if (97 <=? c) && (c <=? 102) then St 98 else St 0
           else if 65 <=? c then St 98 else St 0
         else St 98)
  | 110 =>
      switch c [(46, St 72); (58, St 100)]
        (if c <? 65 then if (48 <=? c) && (c <=? 57) then St 108 else St 0
         else if 70 <? c then if (97 <=? c) && (c <=? 102) then St 97 else St 0 else St 97)
  | 111 =>
      if c <? 65 then if (48 <=? c) && (c <=? 57) then St 101 else St 0
      else if 70 <? c then if (97 <=? c) && (c <=? 102) then St 101 else St 0 else St 101
  | 112 =>
      if c =? 58 then St 100
      else if c <? 65 then if (48 <=? c) && (c <=? 57) then St 97 else St 0
      else if 70 <? c then if (97 <=? c) && (c <=? 102) then St 97 else St 0 else St 97
  | 113 =>
      switch c [(2, St 69); (48, St 114); (49, St 118); (50, St 121)]
        (if c <? 65 then if (51 <=? c) && (c <=? 57) then St 124 else St 0
         else if 70 <? c then if (97 <=? c) && (c <=? 102) then St 125 else St 0 else St 125)
  | 114 =>
      switch c [(46, St 72); (58, St 111)]
        (if c <? 65 then if (48 <=? c) && (c <=? 57) then St 115 else St 0
         else if 70 <? c then if (97 <=? c) && (c <=? 102) then St 115 else St 0 else St 115)
  | 115 =>
      if c =? 58 then St 111
      else if c <? 65 then if (48 <=? c) && (c <=? 57) then St 116 else St 0
      else if 70 <? c then if (97 <=? c) && (c <=? 102) then St 116 else St 0 else St 116
  | 116 =>
      if c =? 58 then St 111
      else if c <? 65 then if (48 <=? c) && (c <=? 57) then St 117 else St 0
      else if 70 <? c then if (97 <=? c) && (c <=? 102) then St 117 else St 0 else St 117
  | _ => St 0
  end.

Definition cases_19 (cs c : Z) : label :=
  match cs with
  | 117 => if c =? 58 then St 111 else St 0
  | 118 =>
      switch c [(46, St 72); (58, St 111)]
        (if c <? 65 then if (48 <=? c) && (c <=? 57) then St 119 else St 0
         else if 70 <? c then if (97 <=? c) && (c <=? 102) then St 115 else St 0 else St 115)
  | 119 =>
      switch c [(46, St 72); (58, St 111)]
        (if c <? 65 then if (48 <=? c) && (c <=? 57) then St 120 else St 0
         else if 70 <? c then if (97 <=? c) && (c <=? 102) then St 116 else St 0 else St 116)
  | 120 =>
      switch c [(46, St 72); (58, St 111)]
        (if c <? 65 then if (48 <=? c) && (c <=? 57) then St 117 else St 0
         else if 70 <? c then if (97 <=? c) && (c <=? 102) then St 117 else St 0 else St 117)
  | 121 =>
      switch c [(46, St 72); (53, St 123); (58, St 111)]
        (if c <? 65 then if (48 <=? c) && (c <=? 57) then St 122 else St 0
         else if 70 <? c then if (97 <=? c) && (c <=? 102) then St 115 else St 0 else St 115)
  | 122 =>
      switch c [(46, St 72); (58, St 111)]
        (if c <? 65 then if (48 <=? c) && (c <=? 57) then St 116 else St 0
         else if 70 <? c then if (97 <=? c) && (c <=? 102) then St 116 else St 0 else St 116)
  | 123 =>
      switch c [(46, St 72); (58, St 111)]
        (if c <? 54 then if (48 <=? c) && (c <=? 53) then St 120 else St 0
         else if 57 <? c then
           if 70 <? c then if (97 <=? c) && (c <=? 102) then St 116 else St 0
           else if 65 <=? c then St 116 else St 0
         else St 116)
  | 124 =>
      switch c [(46, St 72); (58, St 111)]
        (if c <? 65 then if (48 <=? c) && (c <=? 57) then St 122 else St 0
         else if 70 <? c then if (97 <=? c) && (c <=? 102) then St 115 else St 0 else St 115)
  | 125 =>
      if c =? 58 then St 111
      else if c <? 65 then if (48 <=? c) && (c <=? 57) then St 115 else St 0
      else if 70 <? c then if (97 <=? c) && (c <=? 102) then St 115 else St 0 else St 115
  | 126 =>
      if c <? 65 then if (48 <=? c) && (c <=? 57) then St 127 else St 0
      else if 70 <? c then if (97 <=? c) && (c <=? 102) then St 127 else St 0 else St 127
  | _ => St 0
  end.

Definition cases_20 (cs c : Z) : label :=
  match cs with
  | 127 =>
      if c =? 58 then St 113
      else if c <? 65 then if (48 <=? c) && (c <=? 57) then St 128 else St 0
      else if 70 <? c then if (97 <=? c) && (c <=? 102) then St 128 else St 0 else St 128
  | 128 =>
      if c =? 58 then St 113
      else if c <? 65 then if (48 <=? c) && (c <=? 57) then St 129 else St 0
      else if 70 <? c then if (97 <=? c) && (c <=? 102) then St 129 else St 0 else St 129
  | 129 =>
      if c =? 58 then St 113
      else if c <? 65 then if (48 <=? c) && (c <=? 57) then St 130 else St 0
      else if 70 <? c then if (97 <=? c) && (c <=? 102) then St 130 else St 0 else St 130
  | 130 => if c =? 58 then St 113 else St 0
  | 131 =>
      if c <? 65 then if (48 <=? c) && (c <=? 57) then St 132 else St 0
      else if 70 <? c then if (97 <=? c) && (c <=? 102) then St 132 else St 0 else St 132
  | 132 =>
      if c =? 58 then St 126
      else if c <? 65 then if (48 <=? c) && (c <=? 57) then St 133 else St 0
      else if 70 <? c then if (97 <=? c) && (c <=? 102) then St 133 else St 0 else St 133
  | 133 =>
      if c =? 58 then St 126
      else if c <? 65 then if (48 <=? c) && (c <=? 57) then St 134 else St 0
      else if 70 <? c then if (97 <=? c) && (c <=? 102) then St 134 else St 0 else St 134
  | 134 =>
      if c =? 58 then St 126
      else if c <? 65 then if (48 <=? c) && (c <=? 57) then St 135 else St 0
      else if 70 <? c then if (97 <=? c) && (c <=? 102) then St 135 else St 0 else St 135
  | 135 => if c =? 58 then St 126 else St 0
  | 136 =>
      if c <? 65 then if (48 <=? c) && (c <=? 57) then St 137 else St 0
      else if 70 <? c then if (97 <=? c) && (c <=? 102) then St 137 else St 0 else St 137
  | 137 =>
      if c =? 58 then St 131
      else if c <? 65 then if (48 <=? c) && (c <=? 57) then St 138 else St 0
      else if 70 <? c then if (97 <=? c) && (c <=? 102) then St 138 else St 0 else St 138
  | 138 =>
      if c =? 58 then St 131
      else if c <? 65 then if (48 <=? c) && (c <=? 57) then St 139 else St 0
      else if 70 <? c then if (97 <=? c) && (c <=? 102) then St 139 else St 0 else St 139
  | _ => St 0
  end.

Definition cases_21 (cs c : Z) : label :=
  match cs with
  | 139 =>
      if c =? 58 then St 131
      else if c <? 65 then if (48 <=? c) && (c <=? 57) then St 140 else St 0
      else if 70 <? c then if (97 <=? c) && (c <=? 102) then St 140 else St 0 else St 140
  | 140 => if c =? 58 then St 131 else St 0
  | 141 =>
      if c <? 65 then if (48 <=? c) && (c <=? 57) then St 142 else St 0
      else if 70 <? c then if (97 <=? c) && (c <=? 102) then St 142 else St 0 else St 142
  | 142 =>
      if c =? 58 then St 136
      else if c <? 65 then if (48 <=? c) && (c <=? 57) then St 143 else St 0
      else if 70 <? c then if (97 <=? c) && (c <=? 102) then St 143 else St 0 else St 143
  | 143 =>
      if c =? 58 then St 136
      else if c <? 65 then if (48 <=? c) && (c <=? 57) then St 144 else St 0
      else if 70 <? c then if (97 <=? c) && (c <=? 102) then St 144 else St 0 else St 144
  | 144 =>
      if c =? 58 then St 136
      else if c <? 65 then if (48 <=? c) && (c <=? 57) then St 145 else St 0
      else if 70 <? c then if (97 <=? c) && (c <=? 102) then St 145 else St 0 else St 145
  | 145 => if c =? 58 then St 136 else St 0
  | 146 => if c =? 58 then St 147 else St 0
  | 147 =>
      switch c [(2, St 69); (48, St 148); (49, St 217); (50, St 220); (93, St 460)]
        (if c <? 65 then if (51 <=? c) && (c <=? 57) then St 223 else St 0
         else if 70 <? c then if (97 <=? c) && (c <=? 102) then St 224 else St 0 else St 224)
  | 148 =>
      switch c [(46, St 72); (58, St 152); (93, St 460)]
        (if c <? 65 then if (48 <=? c) && (c <=? 57) then St 149 else St 0
         else if 70 <? c then if (97 <=? c) && (c <=? 102) then St 149 else St 0 else St 149)
  | 149 =>
      switch c [(58, St 152); (93, St 460)]
        (if c <? 65 then if (48 <=? c) && (c <=? 57) then St 150 else St 0
         else if 70 <? c then if (97 <=? c) && (c <=? 102) then St 150 else St 0 else St 150)
  | _ => St 0
  end.

Definition cases_22 (cs c : Z) : label :=
  match cs with
  | 150 =>
      switch c [(58, St 152); (93, St 460)]
        (if c <? 65 then if (48 <=? c) && (c <=? 57) then St 151 else St 0
         else if 70 <? c then if (97 <=? c) && (c <=? 102) then St 151 else St 0 else St 151)
  | 151 =>
      switch c [(58, St 152); (93, St 460)]
        (St 0)
  | 152 =>
      switch c [(2, St 69); (48, St 153); (49, St 209); (50, St 212)]
        (if c <? 65 then if (51 <=? c) && (c <=? 57) then St 215 else St 0
         else if 70 <? c then if (97 <=? c) && (c <=? 102) then St 216 else St 0 else St 216)
  | 153 =>
      switch c [(46, St 72); (58, St 157); (93, St 460)]
        (if c <? 65 then if (48 <=? c) && (c <=? 57) then St 154 else St 0
         else if 70 <? c then if (97 <=? c) && (c <=? 102) then St 154 else St 0 else St 154)
  | 154 =>
      switch c [(58, St 157); (93, St 460)]
        (if c <? 65 then if (48 <=? c) && (c <=? 57) then St 155 else St 0
         else if 70 <? c then if (97 <=? c) && (c <=? 102) then St 155 else St 0 else St 155)
  | 155 =>
      switch c [(58, St 157); (93, St 460)]
        (if c <? 65 then if (48 <=? c) && (c <=? 57) then St 156 else St 0
         else if 70 <? c then if (97 <=? c) && (c <=? 102) then St 156 else St 0 else St 156)
  | 156 =>
      switch c [(58, St 157); (93, St 460)]
        (St 0)
  | 157 =>
      switch c [(2, St 69); (48, St 158); (49, St 201); (50, St 204)]
        (if c <? 65 then if (51 <=? c) && (c <=? 57) then St 207 else St 0
         else if 70 <? c then if (97 <=? c) && (c <=? 102) then St 208 else St 0 else St 208)
  | 158 =>
      switch c [(46, St 72); (58, St 162); (93, St 460)]
        (if c <? 65 then if (48 <=? c) && (c <=? 57) then St 159 else St 0
         else if 70 <? c then if (97 <=? c) && (c <=? 102) then St 159 else St 0 else St 159)
  | 159 =>
      switch c [(58, St 162); (93, St 460)]
        (if c <? 65 then if (48 <=? c) && (c <=? 57) then St 160 else St 0
         else if 70 <? c then if (97 <=? c) && (c <=? 102) then St 160 else St 0 else St 160)
  | _ => St 0
  end.

Definition cases_23 (cs c : Z) : label :=
  match cs with
  | 160 =>
      switch c [(58, St 162); (93, St 460)]
        (if c <? 65 then if (48 <=? c) && (c <=? 57) then St 161 else St 0
         else if 70 <? c then if (97 <=? c) && (c <=? 102) then St 161 else St 0 else St 161)
  | 161 =>
      switch c [(58, St 162); (93, St 460)]
        (St 0)
  | 162 =>
      switch c [(2, St 69); (48, St 163); (49, St 193); (50, St 196)]
        (if c <? 65 then if (51 <=? c) && (c <=? 57) then St 199 else St 0
         else if 70 <? c then if (97 <=? c) && (c <=? 102) then St 200 else St 0 else St 200)
  | 163 =>
      switch c [(46, St 72); (58, St 167); (93, St 460)]
        (if c <? 65 then if (48 <=? c) && (c <=? 57) then St 164 else St 0
         else if 70 <? c then if (97 <=? c) && (c <=? 102) then St 164 else St 0 else St 164)
  | 164 =>
      switch c [(58, St 167); (93, St 460)]
        (if c <? 65 then if (48 <=? c) && (c <=? 57) then St 165 else St 0
         else if 70 <? c then if (97 <=? c) && (c <=? 102) then St 165 else St 0 else St 165)
  | 165 =>
      switch c [(58, St 167); (93, St 460)]
        (if c <? 65 then if (48 <=? c) && (c <=? 57) then St 166 else St 0
         else if 70 <? c then if (97 <=? c) && (c <=? 102) then St 166 else St 0 else St 166)
  | 166 =>
      switch c [(58, St 167); (93, St 460)]
        (St 0)
  | 167 =>
      switch c [(2, St 69); (48, St 168); (49, St 185); (50, St 188)]
        (if c <? 65 then if (51 <=? c) && (c <=? 57) then St 191 else St 0
         else if 70 <? c then if (97 <=? c) && (c <=? 102) then St 192 else St 0 else St 192)
  | 168 =>
      switch c [(46, St 72); (58, St 172); (93, St 460)]
        (if c <? 65 then if (48 <=? c) && (c <=? 57) then St 169 else St 0
         else if 70 <? c then if (97 <=? c) && (c <=? 102) then St 169 else St 0 else St 169)
  | 169 =>
      switch c [(58, St 172); (93, St 460)]
        (if c <? 65 then if (48 <=? c) && (c <=? 57) then St 170 else St 0
         else if 70 <? c then if (97 <=? c) && (c <=? 102) then St 170 else St 0 else St 170)
  | _ => St 0
  end.

Definition cases_24 (cs c : Z) : label :=
  match cs with
  | 170 =>
      switch c [(58, St 172); (93, St 460)]
        (if c <? 65 then if (48 <=? c) && (c <=? 57) then St 171 else St 0
         else if 70 <? c then if (97 <=? c) && (c <=? 102) then St 171 else St 0 else St 171)
  | 171 =>
      switch c [(58, St 172); (93, St 460)]
        (St 0)
  | 172 =>
      switch c [(2, St 69); (48, St 173); (49, St 177); (50, St 180)]
        (if c <? 65 then if (51 <=? c) && (c <=? 57) then St 183 else St 0
         else if 70 <? c then if (97 <=? c) && (c <=? 102) then St 184 else St 0 else St 184)
  | 173 =>
      switch c [(46, St 72); (58, St 111); (93, St 460)]
        (if c <? 65 then if (48 <=? c) && (c <=? 57) then St 174 else St 0
         else if 70 <? c then if (97 <=? c) && (c <=? 102) then St 174 else St 0 else St 174)
  | 174 =>
      switch c [(58, St 111); (93, St 460)]
        (if c <? 65 then if (48 <=? c) && (c <=? 57) then St 175 else St 0
         else if 70 <? c then if (97 <=? c) && (c <=? 102) then St 175 else St 0 else St 175)
  | 175 =>
      switch c [(58, St 111); (93, St 460)]
        (if c <? 65 then if (48 <=? c) && (c <=? 57) then St 176 else St 0
         else if 70 <? c then if (97 <=? c) && (c <=? 102) then St 176 else St 0 else St 176)
  | 176 =>
      switch c [(58, St 111); (93, St 460)]
        (St 0)
  | 177 =>
      switch c [(46, St 72); (58, St 111); (93, St 460)]
        (if c <? 65 then if (48 <=? c) && (c <=? 57) then St 178 else St 0
         else if 70 <? c then if (97 <=? c) && (c <=? 102) then St 174 else St 0 else St 174)
  | 178 =>
      switch c [(46, St 72); (58, St 111); (93, St 460)]
        (if c <? 65 then if (48 <=? c) && (c <=? 57) then St 179 else St 0
         else if 70 <? c then if (97 <=? c) && (c <=? 102) then St 175 else St 0 else St 175)
  | 179 =>
      switch c [(46, St 72); (58, St 111); (93, St 460)]
        (if c <? 65 then if (48 <=? c) && (c <=? 57) then St 176 else St 0
         else if 70 <? c then if (97 <=? c) && (c <=? 102) then St 176 else St 0 else St 176)
  | _ => St 0
  end.

Definition cases_25 (cs c : Z) : label :=
  match cs with
  | 180 =>
      switch c [(46, St 72); (53, St 182); (58, St 111); (93, St 460)]
        (if c <? 65 then if (48 <=? c) && (c <=? 57) then St 181 else St 0
         else if 70 <? c then if (97 <=? c) && (c <=? 102) then St 174 else St 0 else St 174)
  | 181 =>
      switch c [(46, St 72); (58, St 111); (93, St 460)]
        (if c <? 65 then if (48 <=? c) && (c <=? 57) then St 175 else St 0
         else if 70 <? c then if (97 <=? c) && (c <=? 102) then St 175 else St 0 else St 175)
  | 182 =>
      switch c [(46, St 72); (58, St 111); (93, St 460)]
        (if c <? 54 then if (48 <=? c) && (c <=? 53) then St 179 else St 0
         else if 57 <? c then
           if 70 <? c then if (97 <=? c) && (c <=? 102) then St 175 else St 0
           else if 65 <=? c then St 175 else St 0
         else St 175)
  | 183 =>
      switch c [(46, St 72); (58, St 111); (93, St 460)]
        (if c <? 65 then if (48 <=? c) && (c <=? 57) then St 181 else St 0
         else if 70 <? c then if (97 <=? c) && (c <=? 102) then St 174 else St 0 else St 174)
  | 184 =>
      switch c [(58, St 111); (93, St 460)]
        (if c <? 65 then if (48 <=? c) && (c <=? 57) then St 174 else St 0
         else if 70 <? c then if (97 <=? c) && (c <=? 102) then St 174 else St 0 else St 174)
  | 185 =>
      switch c [(46, St 72); (58, St 172); (93, St 460)]
        (if c <? 65 then if (48 <=? c) && (c <=? 57) then St 186 else St 0
         else if 70 <? c then if (97 <=? c) && (c <=? 102) then St 169 else St 0 else St 169)
  | 186 =>
      switch c [(46, St 72); (58, St 172); (93, St 460)]
        (if c <? 65 then if (48 <=? c) && (c <=? 57) then St 187 else St 0
         else if 70 <? c then if (97 <=? c) && (c <=? 102) then St 170 else St 0 else St 170)
  | 187 =>
      switch c [(46, St 72); (58, St 172); (93, St 460)]
        (if c <? 65 then if (48 <=? c) && (c <=? 57) then St 171 else St 0
         else if 70 <? c then if (97 <=? c) && (c <=? 102) then St 171 else St 0 else St 171)
  | _ => St 0
  end.

Definition cases_26 (cs c : Z) : label :=
  match cs with
  | 188 =>
      switch c [(46, St 72); (53, St 190); (58, St 172); (93, St 460)]
        (if c <? 65 then if (48 <=? c) && (c <=? 57) then St 189 else St 0
         else if 70 <? c then if (97 <=? c) && (c <=? 102) then St 169 else St 0 else St 169)
  | 189 =>
      switch c [(46, St 72); (58, St 172); (93, St 460)]
        (if c <? 65 then if (48 <=? c) && (c <=? 57) then St 170 else St 0
         else if 70 <? c then if (97 <=? c) && (c <=? 102) then St 170 else St 0 else St 170)
  | 190 =>
      switch c [(46, St 72); (58, St 172); (93, St 460)]
        (if c <? 54 then if (48 <=? c) && (c <=? 53) then St 187 else St 0
         else if 57 <? c then
           if 70 <? c then if (97 <=? c) && (c <=? 102) then St 170 else St 0
           else if 65 <=? c then St 170 else St 0
         else St 170)
  | 191 =>
      switch c [(46, St 72); (58, St 172); (93, St 460)]
        (if c <? 65 then if (48 <=? c) && (c <=? 57) then St 189 else St 0
         else if 70 <? c then if (97 <=? c) && (c <=? 102) then St 169 else St 0 else St 169)
  | 192 =>
      switch c [(58, St 172); (93, St 460)]
        (if c <? 65 then if (48 <=? c) && (c <=? 57) then St 169 else St 0
         else if 70 <? c then if (97 <=? c) && (c <=? 102) then St 169 else St 0 else St 169)
  | 193 =>
      switch c [(46, St 72); (58, St 167); (93, St 460)]
        (if c <? 65 then if (48 <=? c) && (c <=? 57) then St 194 else St 0
         else if 70 <? c then if (97 <=? c) && (c <=? 102) then St 164 else St 0 else St 164)
  | 194 =>
      switch c [(46, St 72); (58, St 167); (93, St 460)]
        (if c <? 65 then if (48 <=? c) && (c <=? 57) then St 195 else St 0
         else if 70 <? c then if (97 <=? c) && (c <=? 102) then St 165 else St 0 else St 165)
  | 195 =>
      switch c [(46, St 72); (58, St 167); (93, St 460)]
        (if c <? 65 then if (48 <=? c) && (c <=? 57) then St 166 else St 0
         else if 70 <? c then if (97 <=? c) && (c <=? 102) then St 166 else St 0 else St 166)
  | _ => St 0
  end.

Definition cases_27 (cs c : Z) : label :=
  match cs with
  | 196 =>
      switch c [(46, St 72); (53, St 198); (58, St 167); (93, St 460)]
        (if c <? 65 then if (48 <=? c) && (c <=? 57) then St 197 else St 0
         else if 70 <? c then if (97 <=? c) && (c <=? 102) then St 164 else St 0 else St 164)
  | 197 =>
      switch c [(46, St 72); (58, St 167); (93, St 460)]
        (if c <? 65 then if (48 <=? c) && (c <=? 57) then St 165 else St 0
         else if 70 <? c then if (97 <=? c) && (c <=? 102) then St 165 else St 0 else St 165)
  | 198 =>
      switch c [(46, St 72); (58, St 167); (93, St 460)]
        (if c <? 54 then if (48 <=? c) && (c <=? 53) then St 195 else St 0
         else if 57 <? c then
           if 70 <? c then if (97 <=? c) && (c <=? 102) then St 165 else St 0
           else if 65 <=? c then St 165 else St 0
         else St 165)
  | 199 =>
      switch c [(46, St 72); (58, St 167); (93, St 460)]
        (if c <? 65 then if (48 <=? c) && (c <=? 57) then St 197 else St 0
         else if 70 <? c then if (97 <=? c) && (c <=? 102) then St 164 else St 0 else St 164)
  | 200 =>
      switch c [(58, St 167); (93, St 460)]
        (if c <? 65 then if (48 <=? c) && (c <=? 57) then St 164 else St 0
         else if 70 <? c then if (97 <=? c) && (c <=? 102) then St 164 else St 0 else St 164)
  | 201 =>
      switch c [(46, St 72); (58, St 162); (93, St 460)]
        (if c <? 65 then if (48 <=? c) && (c <=? 57) then St 202 else St 0
         else if 70 <? c then if (97 <=? c) && (c <=? 102) then St 159 else St 0 else St 159)
  | 202 =>
      switch c [(46, St 72); (58, St 162); (93, St 460)]
        (if c <? 65 then if (48 <=? c) && (c <=? 57) then St 203 else St 0
         else if 70 <? c then if (97 <=? c) && (c <=? 102) then St 160 else St 0 else St 160)
  | 203 =>
      switch c [(46, St 72); (58, St 162); (93, St 460)]
        (if c <? 65 then if (48 <=? c) && (c <=? 57) then St 161 else St 0
         else if 70 <? c then if (97 <=? c) && (c <=? 102) then St 161 else St 0 else St 161)
  | _ => St 0
  end.

Definition cases_28 (cs c : Z) : label :=
  match cs with
  | 204 =>
      switch c [(46, St 72); (53, St 206); (58, St 162); (93, St 460)]
        (if c <? 65 then if (48 <=? c) && (c <=? 57) then St 205 else St 0
         else if 70 <? c then if (97 <=? c) && (c <=? 102) then St 159 else St 0 else St 159)
  | 205 =>
      switch c [(46, St 72); (58, St 162); (93, St 460)]
        (if c <? 65 then if (48 <=? c) && (c <=? 57) then St 160 else St 0
         else if 70 <? c then if (97 <=? c) && (c <=? 102) then St 160 else St 0 else St 160)
  | 206 =>
      switch c [(46, St 72); (58, St 162); (93, St 460)]
        (if c <? 54 then if (48 <=? c) && (c <=? 53) then St 203 else St 0
         else if 57 <? c then
           if 70 <? c then if (97 <=? c) && (c <=? 102) then St 160 else St 0
           else if 65 <=? c then St 160 else St 0
         else St 160)
  | 207 =>
      switch c [(46, St 72); (58, St 162); (93, St 460)]
        (if c <? 65 then if (48 <=? c) && (c <=? 57) then St 205 else St 0
         else if 70 <? c then if (97 <=? c) && (c <=? 102) then St 159 else St 0 else St 159)
  | 208 =>
      switch c [(58, St 162); (93, St 460)]
        (if c <? 65 then if (48 <=? c) && (c <=? 57) then St 159 else St 0
         else if 70 <? c then if (97 <=? c) && (c <=? 102) then St 159 else St 0 else St 159)
  | 209 =>
      switch c [(46, St 72); (58, St 157); (93, St 460)]
        (if c <? 65 then if (48 <=? c) && (c <=? 57) then St 210 else St 0
         else if 70 <? c then if (97 <=? c) && (c <=? 102) then St 154 else St 0 else St 154)
  | 210 =>
      switch c [(46, St 72); (58, St 157); (93, St 460)]
        (if c <? 65 then if (48 <=? c) && (c <=? 57) then St 211 else St 0
         else if 70 <? c then if (97 <=? c) && (c <=? 102) then St 155 else St 0 else St 155)
  | 211 =>
      switch c [(46, St 72); (58, St 157); (93, St 460)]
        (if c <? 65 then if (48 <=? c) && (c <=? 57) then St 156 else St 0
         else if 70 <? c then if (97 <=? c) && (c <=? 102) then St 156 else St 0 else St 156)
  | _ => St 0
  end.

Definition cases_29 (cs c : Z) : label :=
  match cs with
  | 212 =>
      switch c [(46, St 72); (53, St 214); (58, St 157); (93, St 460)]
        (if c <? 65 then if (48 <=? c) && (c <=? 57) then St 213 else St 0
         else if 70 <? c then if (97 <=? c) && (c <=? 102) then St 154 else St 0 else St 154)
  | 213 =>
      switch c [(46, St 72); (58, St 157); (93, St 460)]
        (if c <? 65 then if (48 <=? c) && (c <=? 57) then St 155 else St 0
         else if 70 <? c then if (97 <=? c) && (c <=? 102) then St 155 else St 0 else St 155)
  | 214 =>
      switch c [(46, St 72); (58, St 157); (93, St 460)]
        (if c <? 54 then if (48 <=? c) && (c <=? 53) then St 211 else St 0
         else if 57 <? c then
           if 70 <? c then if (97 <=? c) && (c <=? 102) then St 155 else St 0
           else if 65 <=? c then St 155 else St 0
         else St 155)
  | 215 =>
      switch c [(46, St 72); (58, St 157); (93, St 460)]
        (if c <? 65 then if (48 <=? c) && (c <=? 57) then St 213 else St 0
         else if 70 <? c then if (97 <=? c) && (c <=? 102) then St 154 else St 0 else St 154)
  | 216 =>
      switch c [(58, St 157); (93, St 460)]
        (if c <? 65 then if (48 <=? c) && (c <=? 57) then St 154 else St 0
         else if 70 <? c then if (97 <=? c) && (c <=? 102) then St 154 else St 0 else St 154)
  | 217 =>
      switch c [(46, St 72); (58, St 152); (93, St 460)]
        (if c <? 65 then if (48 <=? c) && (c <=? 57) then St 218 else St 0
         else if 70 <? c then if (97 <=? c) && (c <=? 102) then St 149 else St 0 else St 149)
  | 218 =>
      switch c [(46, St 72); (58, St 152); (93, St 460)]
        (if c <? 65 then if (48 <=? c) && (c <=? 57) then St 219 else St 0
         else if 70 <? c then if (97 <=? c) && (c <=? 102) then St 150 else St 0 else St 150)
  | 219 =>
      switch c [(46, St 72); (58, St 152); (93, St 460)]
        (if c <? 65 then if (48 <=? c) && (c <=? 57) then St 151 else St 0
         else if 70 <? c then if (97 <=? c) && (c <=? 102) then St 151 else St 0 else St 151)
  | _ => St 0
  end.

Definition cases_30 (cs c : Z) : label :=
  match cs with
  | 220 =>
      switch c [(46, St 72); (53, St 222); (58, St 152); (93, St 460)]
        (if c <? 65 then if (48 <=? c) && (c <=? 57) then St 221 else St 0
         else if 70 <? c then if (97 <=? c) && (c <=? 102) then St 149 else St 0 else St 149)
  | 221 =>
      switch c [(46, St 72); (58, St 152); (93, St 460)]
        (if c <? 65 then if (48 <=? c) && (c <=? 57) then St 150 else St 0
         else if 70 <? c then if (97 <=? c) && (c <=? 102) then St 150 else St 0 else St 150)
  | 222 =>
      switch c [(46, St 72); (58, St 152); (93, St 460)]
        (if c <? 54 then if (48 <=? c) && (c <=? 53) then St 219 else St 0
         else if 57 <? c then
           if 70 <? c then if (97 <=? c) && (c <=? 102) then St 150 else St 0
           else if 65 <=? c then St 150 else St 0
         else St 150)
  | 223 =>
      switch c [(46, St 72); (58, St 152); (93, St 460)]
        (if c <? 65 then if (48 <=? c) && (c <=? 57) then St 221 else St 0
         else if 70 <? c then if (97 <=? c) && (c <=? 102) then St 149 else St 0 else St 149)
  | 224 =>
      switch c [(58, St 152); (93, St 460)]
        (if c <? 65 then if (48 <=? c) && (c <=? 57) then St 149 else St 0
         else if 70 <? c then if (97 <=? c) && (c <=? 102) then St 149 else St 0 else St 149)
  | 225 =>
      if c <? 65 then if (48 <=? c) && (c <=? 57) then St 226 else St 0
      else if 70 <? c then if (97 <=? c) && (c <=? 102) then St 226 else St 0 else St 226
  | 226 =>
      if c =? 46 then St 227
      else if c <? 65 then if (48 <=? c) && (c <=? 57) then St 226 else St 0
      else if 70 <? c then if (97 <=? c) && (c <=? 102) then St 226 else St 0 else St 226
  | 227 =>
      switch c [(33, St 228); (36, St 228); (61, St 228); (95, St 228); (126, St 228)]
        (if c <? 48 then if (38 <=? c) && (c <=? 46) then St 228 else St 0
         else if 59 <? c then
           if 90 <? c then if (97 <=? c) && (c <=? 122) then St 228 else St 0
           else if 65 <=? c then St 228 else St 0
         else St 228)
  | 228 =>
      switch c [(33, St 228); (36, St 228); (61, St 228); (93, St 460); (95, St 228);
        (126, St 228)]
        (if c <? 48 then if (38 <=? c) && (c <=? 46) then St 228 else St 0
         else if 59 <? c then
           if 90 <? c then if (97 <=? c) && (c <=? 122) then St 228 else St 0
           else if 65 <=? c then St 228 else St 0
         else St 228)
  | _ => St 0
  end.

Definition trans_31 (t : Z) : list uri_action * Z :=
  match t with
  | 500 => ([markh], 489)
  | 477 => ([markh], 490)
  | _ => ([], 0)
  end.

Definition cases_31 (cs c : Z) : label :=
  match cs with
  | 489 =>
      switch c [(33, St 33); (35, Tr 493); (37, St 34); (47, Tr 494); (61, St 33); (63, Tr 496);
        (64, Tr 38); (95, St 33); (126, St 33)]
        (if c <? 58 then
           if 46 <? c then if (48 <=? c) && (c <=? 57) then St 489 else St 0
           else if 36 <=? c then St 33 else St 0
         else if 59 <? c then
           if 90 <? c then if (97 <=? c) && (c <=? 122) then St 33 else St 0
           else if 65 <=? c then St 33 else St 0
         else St 33)
  | 490 =>
      switch c [(33, St 467); (35, Tr 485); (37, St 31); (46, St 491); (47, Tr 486);
        (58, Tr 499); (61, St 467); (63, Tr 488); (64, Tr 38); (95, St 467); (126, St 467)]
        (if c <? 65 then if (36 <=? c) && (c <=? 59) then St 467 else St 0
         else if 90 <? c then if (97 <=? c) && (c <=? 122) then St 467 else St 0 else St 467)
  | 491 =>
      switch c [(2, St 13); (33, St 467); (35, Tr 485); (37, St 31); (47, Tr 486); (48, St 492);
        (49, St 500); (50, St 502); (58, Tr 499); (59, St 467); (61, St 467); (63, Tr 488);
        (64, Tr 38); (95, St 467); (126, St 467)]
        (if c <? 51 then if (36 <=? c) && (c <=? 46) then St 467 else St 0
         else if 57 <? c then
           if 90 <? c then if (97 <=? c) && (c <=? 122) then St 467 else St 0
           else if 65 <=? c then St 467 else St 0
         else St 501)
  | 492 =>
      switch c [(33, St 467); (35, Tr 485); (37, St 31); (46, St 493); (47, Tr 486);
        (58, Tr 499); (61, St 467); (63, Tr 488); (64, Tr 38); (95, St 467); (126, St 467)]
        (if c <? 65 then if (36 <=? c) && (c <=? 59) then St 467 else St 0
         else if 90 <? c then if (97 <=? c) && (c <=? 122) then St 467 else St 0 else St 467)
  | 493 =>
      switch c [(2, St 17); (33, St 467); (35, Tr 485); (37, St 31); (47, Tr 486); (48, St 494);
        (49, St 496); (50, St 498); (58, Tr 499); (59, St 467); (61, St 467); (63, Tr 488);
        (64, Tr 38); (95, St 467); (126, St 467)]
        (if c <? 51 then if (36 <=? c) && (c <=? 46) then St 467 else St 0
         else if 57 <? c then
           if 90 <? c then if (97 <=? c) && (c <=? 122) then St 467 else St 0
           else if 65 <=? c then St 467 else St 0
         else St 497)
  | _ => St 0
  end.

Definition cases_32 (cs c : Z) : label :=
  match cs with
  | 494 =>
      switch c [(33, St 467); (35, Tr 485); (37, St 31); (46, St 495); (47, Tr 486);
        (58, Tr 499); (61, St 467); (63, Tr 488); (64, Tr 38); (95, St 467); (126, St 467)]
        (if c <? 65 then if (36 <=? c) && (c <=? 59) then St 467 else St 0
         else if 90 <? c then if (97 <=? c) && (c <=? 122) then St 467 else St 0 else St 467)
  | 495 =>
      switch c [(2, St 21); (33, St 467); (35, Tr 485); (37, St 31); (47, Tr 486); (58, Tr 499);
        (61, St 467); (63, Tr 488); (64, Tr 38); (95, St 467); (126, St 467)]
        (if c <? 65 then if (36 <=? c) && (c <=? 59) then St 467 else St 0
         else if 90 <? c then if (97 <=? c) && (c <=? 122) then St 467 else St 0 else St 467)
  | 496 =>
      switch c [(33, St 467); (35, Tr 485); (37, St 31); (46, St 495); (47, Tr 486);
        (58, Tr 499); (59, St 467); (61, St 467); (63, Tr 488); (64, Tr 38); (95, St 467);
        (126, St 467)]
        (if c <? 48 then if (36 <=? c) && (c <=? 45) then St 467 else St 0
         else if 57 <? c then
           if 90 <? c then if (97 <=? c) && (c <=? 122) then St 467 else St 0
           else if 65 <=? c then St 467 else St 0
         else St 497)
  | 497 =>
      switch c [(33, St 467); (35, Tr 485); (37, St 31); (46, St 495); (47, Tr 486);
        (58, Tr 499); (59, St 467); (61, St 467); (63, Tr 488); (64, Tr 38); (95, St 467);
        (126, St 467)]
        (if c <? 48 then if (36 <=? c) && (c <=? 45) then St 467 else St 0
         else if 57 <? c then
           if 90 <? c then if (97 <=? c) && (c <=? 122) then St 467 else St 0
           else if 65 <=? c then St 467 else St 0
         else St 494)
  | 498 =>
      switch c [(33, St 467); (35, Tr 485); (37, St 31); (46, St 495); (47, Tr 486);
        (53, St 499); (58, Tr 499); (59, St 467); (61, St 467); (63, Tr 488); (64, Tr 38);
        (95, St 467); (126, St 467)]
        (if c <? 48 then if (36 <=? c) && (c <=? 45) then St 467 else St 0
         else if 57 <? c then
           if 90 <? c then if (97 <=? c) && (c <=? 122) then St 467 else St 0
           else if 65 <=? c then St 467 else St 0
         else St 494)
  | 499 =>
      switch c [(33, St 467); (35, Tr 485); (37, St 31); (46, St 495); (47, Tr 486);
        (58, Tr 499); (61, St 467); (63, Tr 488); (64, Tr 38); (95, St 467); (126, St 467)]
        (if c <? 54 then
           if 45 <? c then if (48 <=? c) && (c <=? 53) then St 494 else St 0
           else if 36 <=? c then St 467 else St 0
         else if 59 <? c then
           if 90 <? c then if (97 <=? c) && (c <=? 122) then St 467 else St 0
           else if 65 <=? c then St 467 else St 0
         else St 467)
  | _ => St 0
  end.

Definition trans_33 (t : Z) : list uri_action * Z :=
  match t with
  | 478 => ([markh], 504)
  | _ => ([], 0)
  end.

Definition cases_33 (cs c : Z) : label :=
  match cs with
  | 500 =>
      switch c [(33, St 467); (35, Tr 485); (37, St 31); (46, St 493); (47, Tr 486);
        (58, Tr 499); (59, St 467); (61, St 467); (63, Tr 488); (64, Tr 38); (95, St 467);
        (126, St 467)]
        (if c <? 48 then if (36 <=? c) && (c <=? 45) then St 467 else St 0
         else if 57 <? c then
           if 90 <? c then if (97 <=? c) && (c <=? 122) then St 467 else St 0
           else if 65 <=? c then St 467 else St 0
         else St 501)
  | 501 =>
      switch c [(33, St 467); (35, Tr 485); (37, St 31); (46, St 493); (47, Tr 486);
        (58, Tr 499); (59, St 467); (61, St 467); (63, Tr 488); (64, Tr 38); (95, St 467);
        (126, St 467)]
        (if c <? 48 then if (36 <=? c) && (c <=? 45) then St 467 else St 0
         else if 57 <? c then
           if 90 <? c then if (97 <=? c) && (c <=? 122) then St 467 else St 0
           else if 65 <=? c then St 467 else St 0
         else St 492)
  | 502 =>
      switch c [(33, St 467); (35, Tr 485); (37, St 31); (46, St 493); (47, Tr 486);
        (53, St 503); (58, Tr 499); (59, St 467); (61, St 467); (63, Tr 488); (64, Tr 38);
        (95, St 467); (126, St 467)]
        (if c <? 48 then if (36 <=? c) && (c <=? 45) then St 467 else St 0
         else if 57 <? c then
           if 90 <? c then if (97 <=? c) && (c <=? 122) then St 467 else St 0
           else if 65 <=? c then St 467 else St 0
         else St 492)
  | 503 =>
      switch c [(33, St 467); (35, Tr 485); (37, St 31); (46, St 493); (47, Tr 486);
        (58, Tr 499); (61, St 467); (63, Tr 488); (64, Tr 38); (95, St 467); (126, St 467)]
        (if c <? 54 then
           if 45 <? c then if (48 <=? c) && (c <=? 53) then St 492 else St 0
           else if 36 <=? c then St 467 else St 0
         else if 59 <? c then
           if 90 <? c then if (97 <=? c) && (c <=? 122) then St 467 else St 0
           else if 65 <=? c then St 467 else St 0
         else St 467)
  | 504 =>
      switch c [(33, St 467); (35, Tr 485); (37, St 31); (46, St 491); (47, Tr 486);
        (58, Tr 499); (59, St 467); (61, St 467); (63, Tr 488); (64, Tr 38); (95, St 467);
        (126, St 467)]
        (if c <? 48 then if (36 <=? c) && (c <=? 45) then St 467 else St 0
         else if 57 <? c then
           if 90 <? c then if (97 <=? c) && (c <=? 122) then St 467 else St 0
           else if 65 <=? c then St 467 else St 0
         else St 505)
  | _ => St 0
  end.

Definition trans_34 (t : Z) : list uri_action * Z :=
  match t with
  | 480 => ([markh], 505)
  | 479 => ([markh], 506)
  | 461 => ([marku], 508)
  | _ => ([], 0)
  end.

Definition cases_34 (cs c : Z) : label :=
  match cs with
  | 505 =>
      switch c [(33, St 467); (35, Tr 485); (37, St 31); (46, St 491); (47, Tr 486);
        (58, Tr 499); (59, St 467); (61, St 467); (63, Tr 488); (64, Tr 38); (95, St 467);
        (126, St 467)]
        (if c <? 48 then if (36 <=? c) && (c <=? 45) then St 467 else St 0
         else if 57 <? c then
           if 90 <? c then if (97 <=? c) && (c <=? 122) then St 467 else St 0
           else if 65 <=? c then St 467 else St 0
         else St 490)
  | 506 =>
      switch c [(33, St 467); (35, Tr 485); (37, St 31); (46, St 491); (47, Tr 486);
        (53, St 507); (58, Tr 499); (59, St 467); (61, St 467); (63, Tr 488); (64, Tr 38);
        (95, St 467); (126, St 467)]
        (if c <? 48 then if (36 <=? c) && (c <=? 45) then St 467 else St 0
         else if 57 <? c then
           if 90 <? c then if (97 <=? c) && (c <=? 122) then St 467 else St 0
           else if 65 <=? c then St 467 else St 0
         else St 490)
  | 507 =>
      switch c [(33, St 467); (35, Tr 485); (37, St 31); (46, St 491); (47, Tr 486);
        (58, Tr 499); (61, St 467); (63, Tr 488); (64, Tr 38); (95, St 467); (126, St 467)]
        (if c <? 54 then
           if 45 <? c then if (48 <=? c) && (c <=? 53) then St 490 else St 0
           else if 36 <=? c then St 467 else St 0
         else if 59 <? c then
           if 90 <? c then if (97 <=? c) && (c <=? 122) then St 467 else St 0
           else if 65 <=? c then St 467 else St 0
         else St 467)
  | 508 =>
      switch c [(34, St 0); (35, St 453); (37, St 3); (43, St 508); (47, St 455); (58, Tr 543);
        (60, St 0); (62, St 0); (63, St 456); (96, St 0); (127, St 0)]
        (if c <? 65 then
           if 32 <? c then if (45 <=? c) && (c <=? 57) then St 508 else St 452
           else if 0 <=? c then St 0 else St 452
         else if 90 <? c then
           if c <? 97 then if (91 <=? c) && (c <=? 94) then St 0 else St 452
           else if 122 <? c then if (123 <=? c) && (c <=? 125) then St 0 else St 452 else St 508
         else St 508)
  | _ => St 0
  end.

Definition trans_35 (t : Z) : list uri_action * Z :=
  match t with
  | 543 => ([save_scheme], 509)
  | 546 => ([markh], 229)
  | _ => ([], 0)
  end.

Definition cases_35 (cs c : Z) : label :=
  match cs with
  | 509 =>
      switch c [(34, St 0); (35, St 453); (37, St 5); (47, St 510); (60, St 0); (62, St 0);
        (63, St 456); (96, St 0); (127, St 0)]
        (if c <? 91 then if (0 <=? c) && (c <=? 32) then St 0 else St 455
         else if 94 <? c then if (123 <=? c) && (c <=? 125) then St 0 else St 455 else St 0)
  | 510 =>
      switch c [(34, St 0); (35, St 453); (37, St 5); (47, St 511); (60, St 0); (62, St 0);
        (63, St 456); (96, St 0); (127, St 0)]
        (if c <? 91 then if (0 <=? c) && (c <=? 32) then St 0 else St 455
         else if 94 <? c then if (123 <=? c) && (c <=? 125) then St 0 else St 455 else St 0)
  | 511 =>
      switch c [(2, Tr 546); (33, Tr 547); (35, Tr 548); (37, Tr 549); (47, Tr 550);
        (48, Tr 551); (49, Tr 552); (50, Tr 553); (58, Tr 555); (59, Tr 547); (61, Tr 547);
        (63, Tr 556); (64, Tr 557); (91, Tr 558); (95, Tr 547); (126, Tr 547)]
        (if c <? 51 then if (36 <=? c) && (c <=? 46) then Tr 547 else St 0
         else if 57 <? c then
           if 90 <? c then if (97 <=? c) && (c <=? 122) then Tr 547 else St 0
           else if 65 <=? c then Tr 547 else St 0
         else Tr 554)
  | 229 => if (48 <=? c) && (c <=? 52) then St 230 else St 0
  | 230 => if (48 <=? c) && (c <=? 57) then St 231 else St 0
  | 231 => if c =? 46 then St 232 else St 0
  | 232 =>
      switch c [(2, St 233); (48, St 235); (49, St 249); (50, St 251)]
        (if (51 <=? c) && (c <=? 57) then St 250 else St 0)
  | 233 => if (48 <=? c) && (c <=? 52) then St 234 else St 0
  | 234 => if (48 <=? c) && (c <=? 57) then St 235 else St 0
  | 235 => if c =? 46 then St 236 else St 0
  | _ => St 0
  end.

Definition trans_36 (t : Z) : list uri_action * Z :=
  match t with
  | 550 => ([markh; save_host], 513)
  | 567 => ([markh; save_port], 513)
  | 560 => ([save_host; markh], 513)
  | 571 => ([save_port; markh], 513)
  | _ => ([], 0)
  end.

Definition cases_36 (cs c : Z) : label :=
  match cs with
  | 236 =>
      switch c [(2, St 237); (48, St 239); (49, St 245); (50, St 247)]
        (if (51 <=? c) && (c <=? 57) then St 246 else St 0)
  | 237 => if (48 <=? c) && (c <=? 52) then St 238 else St 0
  | 238 => if (48 <=? c) && (c <=? 57) then St 239 else St 0
  | 239 => if c =? 46 then St 240 else St 0
  | 240 =>
      switch c [(2, St 241); (48, St 512); (49, St 516); (50, St 518)]
        (if (51 <=? c) && (c <=? 57) then St 517 else St 0)
  | 241 => if (48 <=? c) && (c <=? 52) then St 242 else St 0
  | 242 => if (48 <=? c) && (c <=? 57) then St 512 else St 0
  | 512 =>
      switch c [(35, Tr 559); (47, Tr 560); (58, Tr 561); (63, Tr 562)]
        (St 0)
  | 513 =>
      switch c [(34, St 0); (35, Tr 563); (37, St 243); (60, St 0); (62, St 0); (63, Tr 565);
        (96, St 0); (127, St 0)]
        (if c <? 91 then if (0 <=? c) && (c <=? 32) then St 0 else St 513
         else if 94 <? c then if (123 <=? c) && (c <=? 125) then St 0 else St 513 else St 0)
  | 243 =>
      if c <? 65 then if (48 <=? c) && (c <=? 57) then St 244 else St 0
      else if 70 <? c then if (97 <=? c) && (c <=? 102) then St 244 else St 0 else St 244
  | _ => St 0
  end.

Definition trans_37 (t : Z) : list uri_action * Z :=
  match t with
  | 584 => ([markh; save_host], 514)
  | 561 => ([save_host], 514)
  | 568 => ([markh], 515)
  | _ => ([], 0)
  end.

Definition cases_37 (cs c : Z) : label :=
  match cs with
  | 244 =>
      if c <? 65 then if (48 <=? c) && (c <=? 57) then St 513 else St 0
      else if 70 <? c then if (97 <=? c) && (c <=? 102) then St 513 else St 0 else St 513
  | 514 =>
      switch c [(35, Tr 566); (47, Tr 567); (63, Tr 569)]
        (if (48 <=? c) && (c <=? 57) then Tr 568 else St 0)
  | 515 =>
      switch c [(35, Tr 570); (47, Tr 571); (63, Tr 573)]
        (if (48 <=? c) && (c <=? 57) then St 515 else St 0)
  | 516 =>
      switch c [(35, Tr 559); (47, Tr 560); (58, Tr 561); (63, Tr 562)]
        (if (48 <=? c) && (c <=? 57) then St 517 else St 0)
  | 517 =>
      switch c [(35, Tr 559); (47, Tr 560); (58, Tr 561); (63, Tr 562)]
        (if (48 <=? c) && (c <=? 57) then St 512 else St 0)
  | 518 =>
      switch c [(35, Tr 559); (47, Tr 560); (53, St 519); (58, Tr 561); (63, Tr 562)]
        (if (48 <=? c) && (c <=? 57) then St 512 else St 0)
  | 519 =>
      switch c [(35, Tr 559); (47, Tr 560); (58, Tr 561); (63, Tr 562)]
        (if (48 <=? c) && (c <=? 53) then St 512 else St 0)
  | 245 => if c =? 46 then St 240 else if (48 <=? c) && (c <=? 57) then St 246 else St 0
  | 246 => if c =? 46 then St 240 else if (48 <=? c) && (c <=? 57) then St 239 else St 0
  | 247 =>
      switch c [(46, St 240); (53, St 248)]
        (if (48 <=? c) && (c <=? 57) then St 239 else St 0)
  | 248 => if c =? 46 then St 240 else if (48 <=? c) && (c <=? 53) then St 239 else St 0
  | _ => St 0
  end.

Definition trans_38 (t : Z) : list uri_action * Z :=
  match t with
  | 547 => ([markh], 520)
  | 549 => ([markh], 253)
  | 555 => ([markh; save_host], 521)
  | 576 => ([save_host], 521)
  | _ => ([], 0)
  end.

Definition cases_38 (cs c : Z) : label :=
  match cs with
  | 249 => if c =? 46 then St 236 else if (48 <=? c) && (c <=? 57) then St 250 else St 0
  | 250 => if c =? 46 then St 236 else if (48 <=? c) && (c <=? 57) then St 235 else St 0
  | 251 =>
      switch c [(46, St 236); (53, St 252)]
        (if (48 <=? c) && (c <=? 57) then St 235 else St 0)
  | 252 => if c =? 46 then St 236 else if (48 <=? c) && (c <=? 53) then St 235 else St 0
  | 520 =>
      switch c [(33, St 520); (35, Tr 559); (37, St 253); (47, Tr 560); (58, Tr 576);
        (61, St 520); (63, Tr 562); (64, Tr 263); (95, St 520); (126, St 520)]
        (if c <? 65 then if (36 <=? c) && (c <=? 59) then St 520 else St 0
         else if 90 <? c then if (97 <=? c) && (c <=? 122) then St 520 else St 0 else St 520)
  | 253 =>
      if c <? 65 then if (48 <=? c) && (c <=? 57) then St 254 else St 0
      else if 70 <? c then if (97 <=? c) && (c <=? 102) then St 254 else St 0 else St 254
  | 254 =>
      if c <? 65 then if (48 <=? c) && (c <=? 57) then St 520 else St 0
      else if 70 <? c then if (97 <=? c) && (c <=? 102) then St 520 else St 0 else St 520
  | 521 =>
      switch c [(33, St 255); (35, Tr 566); (37, St 256); (47, Tr 567); (61, St 255);
        (63, Tr 569); (64, Tr 263); (95, St 255); (126, St 255)]
        (if c <? 58 then
           if 46 <? c then if (48 <=? c) && (c <=? 57) then Tr 577 else St 0
           else if 36 <=? c then St 255 else St 0
         else if 59 <? c then
           if 90 <? c then if (97 <=? c) && (c <=? 122) then St 255 else St 0
           else if 65 <=? c then St 255 else St 0
         else St 255)
  | _ => St 0
  end.

Definition trans_39 (t : Z) : list uri_action * Z :=
  match t with
  | 263 => ([save_userinfo], 522)
  | 557 => ([markh; save_userinfo], 522)
  | 578 => ([markh], 523)
  | 579 => ([markh], 258)
  | _ => ([], 0)
  end.

Definition cases_39 (cs c : Z) : label :=
  match cs with
  | 255 =>
      switch c [(33, St 255); (37, St 256); (61, St 255); (64, Tr 263); (95, St 255);
        (126, St 255)]
        (if c <? 48 then if (36 <=? c) && (c <=? 46) then St 255 else St 0
         else if 59 <? c then
           if 90 <? c then if (97 <=? c) && (c <=? 122) then St 255 else St 0
           else if 65 <=? c then St 255 else St 0
         else St 255)
  | 256 =>
      if c <? 65 then if (48 <=? c) && (c <=? 57) then St 257 else St 0
      else if 70 <? c then if (97 <=? c) && (c <=? 102) then St 257 else St 0 else St 257
  | 257 =>
      if c <? 65 then if (48 <=? c) && (c <=? 57) then St 255 else St 0
      else if 70 <? c then if (97 <=? c) && (c <=? 102) then St 255 else St 0 else St 255
  | 522 =>
      switch c [(2, Tr 546); (33, Tr 578); (35, Tr 548); (37, Tr 579); (47, Tr 550);
        (48, Tr 580); (49, Tr 581); (50, Tr 582); (58, Tr 584); (59, Tr 578); (61, Tr 578);
        (63, Tr 556); (91, Tr 558); (95, Tr 578); (126, Tr 578)]
        (if c <? 51 then if (36 <=? c) && (c <=? 46) then Tr 578 else St 0
         else if 57 <? c then
           if 90 <? c then if (97 <=? c) && (c <=? 122) then Tr 578 else St 0
           else if 65 <=? c then Tr 578 else St 0
         else Tr 583)
  | 523 =>
      switch c [(33, St 523); (35, Tr 559); (37, St 258); (47, Tr 560); (58, Tr 561);
        (61, St 523); (63, Tr 562); (95, St 523); (126, St 523)]
        (if c <? 65 then if (36 <=? c) && (c <=? 59) then St 523 else St 0
         else if 90 <? c then if (97 <=? c) && (c <=? 122) then St 523 else St 0 else St 523)
  | 258 =>
      if c <? 65 then if (48 <=? c) && (c <=? 57) then St 259 else St 0
      else if 70 <? c then if (97 <=? c) && (c <=? 102) then St 259 else St 0 else St 259
  | _ => St 0
  end.

Definition trans_40 (t : Z) : list uri_action * Z :=
  match t with
  | 580 => ([markh], 524)
  | _ => ([], 0)
  end.

Definition cases_40 (cs c : Z) : label :=
  match cs with
  | 259 =>
      if c <? 65 then if (48 <=? c) && (c <=? 57) then St 523 else St 0
      else if 70 <? c then if (97 <=? c) && (c <=? 102) then St 523 else St 0 else St 523
  | 524 =>
      switch c [(33, St 523); (35, Tr 559); (37, St 258); (46, St 525); (47, Tr 560);
        (58, Tr 561); (61, St 523); (63, Tr 562); (95, St 523); (126, St 523)]
        (if c <? 65 then if (36 <=? c) && (c <=? 59) then St 523 else St 0
         else if 90 <? c then if (97 <=? c) && (c <=? 122) then St 523 else St 0 else St 523)
  | 525 =>
      switch c [(2, St 233); (33, St 523); (35, Tr 559); (37, St 258); (47, Tr 560);
        (48, St 526); (49, St 534); (50, St 536); (58, Tr 561); (59, St 523); (61, St 523);
        (63, Tr 562); (95, St 523); (126, St 523)]
        (if c <? 51 then if (36 <=? c) && (c <=? 46) then St 523 else St 0
         else if 57 <? c then
           if 90 <? c then if (97 <=? c) && (c <=? 122) then St 523 else St 0
           else if 65 <=? c then St 523 else St 0
         else St 535)
  | 526 =>
      switch c [(33, St 523); (35, Tr 559); (37, St 258); (46, St 527); (47, Tr 560);
        (58, Tr 561); (61, St 523); (63, Tr 562); (95, St 523); (126, St 523)]
        (if c <? 65 then if (36 <=? c) && (c <=? 59) then St 523 else St 0
         else if 90 <? c then if (97 <=? c) && (c <=? 122) then St 523 else St 0 else St 523)
  | 527 =>
      switch c [(2, St 237); (33, St 523); (35, Tr 559); (37, St 258); (47, Tr 560);
        (48, St 528); (49, St 530); (50, St 532); (58, Tr 561); (59, St 523); (61, St 523);
        (63, Tr 562); (95, St 523); (126, St 523)]
        (if c <? 51 then if (36 <=? c) && (c <=? 46) then St 523 else St 0
         else if 57 <? c then
           if 90 <? c then if (97 <=? c) && (c <=? 122) then St 523 else St 0
           else if 65 <=? c then St 523 else St 0
         else St 531)
  | 528 =>
      switch c [(33, St 523); (35, Tr 559); (37, St 258); (46, St 529); (47, Tr 560);
        (58, Tr 561); (61, St 523); (63, Tr 562); (95, St 523); (126, St 523)]
        (if c <? 65 then if (36 <=? c) && (c <=? 59) then St 523 else St 0
         else if 90 <? c then if (97 <=? c) && (c <=? 122) then St 523 else St 0 else St 523)
  | _ => St 0
  end.

Definition cases_41 (cs c : Z) : label :=
  match cs with
  | 529 =>
      switch c [(2, St 241); (33, St 523); (35, Tr 559); (37, St 258); (47, Tr 560);
        (58, Tr 561); (61, St 523); (63, Tr 562); (95, St 523); (126, St 523)]
        (if c <? 65 then if (36 <=? c) && (c <=? 59) then St 523 else St 0
         else if 90 <? c then if (97 <=? c) && (c <=? 122) then St 523 else St 0 else St 523)
  | 530 =>
      switch c [(33, St 523); (35, Tr 559); (37, St 258); (46, St 529); (47, Tr 560);
        (58, Tr 561); (59, St 523); (61, St 523); (63, Tr 562); (95, St 523); (126, St 523)]
        (if c <? 48 then if (36 <=? c) && (c <=? 45) then St 523 else St 0
         else if 57 <? c then
           if 90 <? c then if (97 <=? c) && (c <=? 122) then St 523 else St 0
           else if 65 <=? c then St 523 else St 0
         else St 531)
  | 531 =>
      switch c [(33, St 523); (35, Tr 559); (37, St 258); (46, St 529); (47, Tr 560);
        (58, Tr 561); (59, St 523); (61, St 523); (63, Tr 562); (95, St 523); (126, St 523)]
        (if c <? 48 then if (36 <=? c) && (c <=? 45) then St 523 else St 0
         else if 57 <? c then
           if 90 <? c then if (97 <=? c) && (c <=? 122) then St 523 else St 0
           else if 65 <=? c then St 523 else St 0
         else St 528)
  | 532 =>
      switch c [(33, St 523); (35, Tr 559); (37, St 258); (46, St 529); (47, Tr 560);
        (53, St 533); (58, Tr 561); (59, St 523); (61, St 523); (63, Tr 562); (95, St 523);
        (126, St 523)]
        (if c <? 48 then if (36 <=? c) && (c <=? 45) then St 523 else St 0
         else if 57 <? c then
           if 90 <? c then if (97 <=? c) && (c <=? 122) then St 523 else St 0
           else if 65 <=? c then St 523 else St 0
         else St 528)
  | 533 =>
      switch c [(33, St 523); (35, Tr 559); (37, St 258); (46, St 529); (47, Tr 560);
        (58, Tr 561); (61, St 523); (63, Tr 562); (95, St 523); (126, St 523)]
        (if c <? 54 then
           if 45 <? c then if (48 <=? c) && (c <=? 53) then St 528 else St 0
           else if 36 <=? c then St 523 else St 0
         else if 59 <? c then
           if 90 <? c then if (97 <=? c) && (c <=? 122) then St 523 else St 0
           else if 65 <=? c then St 523 else St 0
         else St 523)
  | 534 =>
      switch c [(33, St 523); (35, Tr 559); (37, St 258); (46, St 527); (47, Tr 560);
        (58, Tr 561); (59, St 523); (61, St 523); (63, Tr 562); (95, St 523); (126, St 523)]
        (if c <? 48 then if (36 <=? c) && (c <=? 45) then St 523 else St 0
         else if 57 <? c then
           if 90 <? c then if (97 <=? c) && (c <=? 122) then St 523 else St 0
           else if 65 <=? c then St 523 else St 0
         else St 535)
  | _ => St 0
  end.

Definition trans_42 (t : Z) : list uri_action * Z :=
  match t with
  | 581 => ([markh], 538)
  | 583 => ([markh], 539)
  | _ => ([], 0)
  end.

Definition cases_42 (cs c : Z) : label :=
  match cs with
  | 535 =>
      switch c [(33, St 523); (35, Tr 559); (37, St 258); (46, St 527); (47, Tr 560);
        (58, Tr 561); (59, St 523); (61, St 523); (63, Tr 562); (95, St 523); (126, St 523)]
        (if c <? 48 then if (36 <=? c) && (c <=? 45) then St 523 else St 0
         else if 57 <? c then
           if 90 <? c then if (97 <=? c) && (c <=? 122) then St 523 else St 0
           else if 65 <=? c then St 523 else St 0
         else St 526)
  | 536 =>
      switch c [(33, St 523); (35, Tr 559); (37, St 258); (46, St 527); (47, Tr 560);
        (53, St 537); (58, Tr 561); (59, St 523); (61, St 523); (63, Tr 562); (95, St 523);
        (126, St 523)]
        (if c <? 48 then if (36 <=? c) && (c <=? 45) then St 523 else St 0
         else if 57 <? c then
           if 90 <? c then if (97 <=? c) && (c <=? 122) then St 523 else St 0
           else if 65 <=? c then St 523 else St 0
         else St 526)
  | 537 =>
      switch c [(33, St 523); (35, Tr 559); (37, St 258); (46, St 527); (47, Tr 560);
        (58, Tr 561); (61, St 523); (63, Tr 562); (95, St 523); (126, St 523)]
        (if c <? 54 then
           if 45 <? c then if (48 <=? c) && (c <=? 53) then St 526 else St 0
           else if 36 <=? c then St 523 else St 0
         else if 59 <? c then
           if 90 <? c then if (97 <=? c) && (c <=? 122) then St 523 else St 0
           else if 65 <=? c then St 523 else St 0
         else St 523)
  | 538 =>
      switch c [(33, St 523); (35, Tr 559); (37, St 258); (46, St 525); (47, Tr 560);
        (58, Tr 561); (59, St 523); (61, St 523); (63, Tr 562); (95, St 523); (126, St 523)]
        (if c <? 48 then if (36 <=? c) && (c <=? 45) then St 523 else St 0
         else if 57 <? c then
           if 90 <? c then if (97 <=? c) && (c <=? 122) then St 523 else St 0
           else if 65 <=? c then St 523 else St 0
         else St 539)
  | 539 =>
      switch c [(33, St 523); (35, Tr 559); (37, St 258); (46, St 525); (47, Tr 560);
        (58, Tr 561); (59, St 523); (61, St 523); (63, Tr 562); (95, St 523); (126, St 523)]
        (if c <? 48 then if (36 <=? c) && (c <=? 45) then St 523 else St 0
         else if 57 <? c then
           if 90 <? c then if (97 <=? c) && (c <=? 122) then St 523 else St 0
           else if 65 <=? c then St 523 else St 0
         else St 524)
  | _ => St 0
  end.

Definition trans_43 (t : Z) : list uri_action * Z :=
  match t with
  | 582 => ([markh], 540)
  | 558 => ([markh], 260)
  | _ => ([], 0)
  end.

Definition cases_43 (cs c : Z) : label :=
  match cs with
  | 540 =>
      switch c [(33, St 523); (35, Tr 559); (37, St 258); (46, St 525); (47, Tr 560);
        (53, St 541); (58, Tr 561); (59, St 523); (61, St 523); (63, Tr 562); (95, St 523);
        (126, St 523)]
        (if c <? 48 then if (36 <=? c) && (c <=? 45) then St 523 else St 0
         else if 57 <? c then
           if 90 <? c then if (97 <=? c) && (c <=? 122) then St 523 else St 0
           else if 65 <=? c then St 523 else St 0
         else St 524)
  | 541 =>
      switch c [(33, St 523); (35, Tr 559); (37, St 258); (46, St 525); (47, Tr 560);
        (58, Tr 561); (61, St 523); (63, Tr 562); (95, St 523); (126, St 523)]
        (if c <? 54 then
           if 45 <? c then if (48 <=? c) && (c <=? 53) then St 524 else St 0
           else if 36 <=? c then St 523 else St 0
         else if 59 <? c then
           if 90 <? c then if (97 <=? c) && (c <=? 122) then St 523 else St 0
           else if 65 <=? c then St 523 else St 0
         else St 523)
  | 260 =>
      switch c [(58, St 368); (118, St 447)]
        (if c <? 65 then if (48 <=? c) && (c <=? 57) then St 261 else St 0
         else if 70 <? c then if (97 <=? c) && (c <=? 102) then St 261 else St 0 else St 261)
  | 261 =>
      if c =? 58 then St 265
      else if c <? 65 then if (48 <=? c) && (c <=? 57) then St 262 else St 0
      else if 70 <? c then if (97 <=? c) && (c <=? 102) then St 262 else St 0 else St 262
  | 262 =>
      if c =? 58 then St 265
      else if c <? 65 then if (48 <=? c) && (c <=? 57) then St 263 else St 0
      else if 70 <? c then if (97 <=? c) && (c <=? 102) then St 263 else St 0 else St 263
  | 263 =>
      if c =? 58 then St 265
      else if c <? 65 then if (48 <=? c) && (c <=? 57) then St 264 else St 0
      else if 70 <? c then if (97 <=? c) && (c <=? 102) then St 264 else St 0 else St 264
  | 264 => if c =? 58 then St 265 else St 0
  | 265 =>
      if c =? 58 then St 363
      else if c <? 65 then if (48 <=? c) && (c <=? 57) then St 266 else St 0
      else if 70 <? c then if (97 <=? c) && (c <=? 102) then St 266 else St 0 else St 266
  | _ => St 0
  end.

Definition cases_44 (cs c : Z) : label :=
  match cs with
  | 266 =>
      if c =? 58 then St 270
      else if c <? 65 then if (48 <=? c) && (c <=? 57) then St 267 else St 0
      else if 70 <? c then if (97 <=? c) && (c <=? 102) then St 267 else St 0 else St 267
  | 267 =>
      if c =? 58 then St 270
      else if c <? 65 then if (48 <=? c) && (c <=? 57) then St 268 else St 0
      else if 70 <? c then if (97 <=? c) && (c <=? 102) then St 268 else St 0 else St 268
  | 268 =>
      if c =? 58 then St 270
      else if c <? 65 then if (48 <=? c) && (c <=? 57) then St 269 else St 0
      else if 70 <? c then if (97 <=? c) && (c <=? 102) then St 269 else St 0 else St 269
  | 269 => if c =? 58 then St 270 else St 0
  | 270 =>
      if c =? 58 then St 358
      else if c <? 65 then if (48 <=? c) && (c <=? 57) then St 271 else St 0
      else if 70 <? c then if (97 <=? c) && (c <=? 102) then St 271 else St 0 else St 271
  | 271 =>
      if c =? 58 then St 275
      else if c <? 65 then if (48 <=? c) && (c <=? 57) then St 272 else St 0
      else if 70 <? c then if (97 <=? c) && (c <=? 102) then St 272 else St 0 else St 272
  | 272 =>
      if c =? 58 then St 275
      else if c <? 65 then if (48 <=? c) && (c <=? 57) then St 273 else St 0
      else if 70 <? c then if (97 <=? c) && (c <=? 102) then St 273 else St 0 else St 273
  | 273 =>
      if c =? 58 then St 275
      else if c <? 65 then if (48 <=? c) && (c <=? 57) then St 274 else St 0
      else if 70 <? c then if (97 <=? c) && (c <=? 102) then St 274 else St 0 else St 274
  | 274 => if c =? 58 then St 275 else St 0
  | 275 =>
      if c =? 58 then St 353
      else if c <? 65 then if (48 <=? c) && (c <=? 57) then St 276 else St 0
      else if 70 <? c then if (97 <=? c) && (c <=? 102) then St 276 else St 0 else St 276
  | 276 =>
      if c =? 58 then St 280
      else if c <? 65 then if (48 <=? c) && (c <=? 57) then St 277 else St 0
      else if 70 <? c then if (97 <=? c) && (c <=? 102) then St 277 else St 0 else St 277
  | _ => St 0
  end.

Definition cases_45 (cs c : Z) : label :=
  match cs with
  | 277 =>
      if c =? 58 then St 280
      else if c <? 65 then if (48 <=? c) && (c <=? 57) then St 278 else St 0
      else if 70 <? c then if (97 <=? c) && (c <=? 102) then St 278 else St 0 else St 278
  | 278 =>
      if c =? 58 then St 280
      else if c <? 65 then if (48 <=? c) && (c <=? 57) then St 279 else St 0
      else if 70 <? c then if (97 <=? c) && (c <=? 102) then St 279 else St 0 else St 279
  | 279 => if c =? 58 then St 280 else St 0
  | 280 =>
      if c =? 58 then St 348
      else if c <? 65 then if (48 <=? c) && (c <=? 57) then St 281 else St 0
      else if 70 <? c then if (97 <=? c) && (c <=? 102) then St 281 else St 0 else St 281
  | 281 =>
      if c =? 58 then St 285
      else if c <? 65 then if (48 <=? c) && (c <=? 57) then St 282 else St 0
      else if 70 <? c then if (97 <=? c) && (c <=? 102) then St 282 else St 0 else St 282
  | 282 =>
      if c =? 58 then St 285
      else if c <? 65 then if (48 <=? c) && (c <=? 57) then St 283 else St 0
      else if 70 <? c then if (97 <=? c) && (c <=? 102) then St 283 else St 0 else St 283
  | 283 =>
      if c =? 58 then St 285
      else if c <? 65 then if (48 <=? c) && (c <=? 57) then St 284 else St 0
      else if 70 <? c then if (97 <=? c) && (c <=? 102) then St 284 else St 0 else St 284
  | 284 => if c =? 58 then St 285 else St 0
  | 285 =>
      if c =? 58 then St 335
      else if c <? 65 then if (48 <=? c) && (c <=? 57) then St 286 else St 0
      else if 70 <? c then if (97 <=? c) && (c <=? 102) then St 286 else St 0 else St 286
  | 286 =>
      if c =? 58 then St 290
      else if c <? 65 then if (48 <=? c) && (c <=? 57) then St 287 else St 0
      else if 70 <? c then if (97 <=? c) && (c <=? 102) then St 287 else St 0 else St 287
  | 287 =>
      if c =? 58 then St 290
      else if c <? 65 then if (48 <=? c) && (c <=? 57) then St 288 else St 0
      else if 70 <? c then if (97 <=? c) && (c <=? 102) then St 288 else St 0 else St 288
  | _ => St 0
  end.

Definition cases_46 (cs c : Z) : label :=
  match cs with
  | 288 =>
      if c =? 58 then St 290
      else if c <? 65 then if (48 <=? c) && (c <=? 57) then St 289 else St 0
      else if 70 <? c then if (97 <=? c) && (c <=? 102) then St 289 else St 0 else St 289
  | 289 => if c =? 58 then St 290 else St 0
  | 290 =>
      switch c [(2, St 291); (48, St 318); (49, St 326); (50, St 329); (58, St 333)]
        (if c <? 65 then if (51 <=? c) && (c <=? 57) then St 332 else St 0
         else if 70 <? c then if (97 <=? c) && (c <=? 102) then St 334 else St 0 else St 334)
  | 291 => if (48 <=? c) && (c <=? 52) then St 292 else St 0
  | 292 => if (48 <=? c) && (c <=? 57) then St 293 else St 0
  | 293 => if c =? 46 then St 294 else St 0
  | 294 =>
      switch c [(2, St 295); (48, St 297); (49, St 314); (50, St 316)]
        (if (51 <=? c) && (c <=? 57) then St 315 else St 0)
  | 295 => if (48 <=? c) && (c <=? 52) then St 296 else St 0
  | 296 => if (48 <=? c) && (c <=? 57) then St 297 else St 0
  | 297 => if c =? 46 then St 298 else St 0
  | 298 =>
      switch c [(2, St 299); (48, St 301); (49, St 310); (50, St 312)]
        (if (51 <=? c) && (c <=? 57) then St 311 else St 0)
  | 299 => if (48 <=? c) && (c <=? 52) then St 300 else St 0
  | 300 => if (48 <=? c) && (c <=? 57) then St 301 else St 0
  | 301 => if c =? 46 then St 302 else St 0
  | 302 =>
      switch c [(2, St 303); (48, St 305); (49, St 306); (50, St 308)]
        (if (51 <=? c) && (c <=? 57) then St 307 else St 0)
  | 303 => if (48 <=? c) && (c <=? 52) then St 304 else St 0
  | _ => St 0
  end.

Definition cases_47 (cs c : Z) : label :=
  match cs with
  | 304 => if (48 <=? c) && (c <=? 57) then St 305 else St 0
  | 305 => if c =? 93 then St 512 else St 0
  | 306 => if c =? 93 then St 512 else if (48 <=? c) && (c <=? 57) then St 307 else St 0
  | 307 => if c =? 93 then St 512 else if (48 <=? c) && (c <=? 57) then St 305 else St 0
  | 308 =>
      switch c [(53, St 309); (93, St 512)]
        (if (48 <=? c) && (c <=? 57) then St 305 else St 0)
  | 309 => if c =? 93 then St 512 else if (48 <=? c) && (c <=? 53) then St 305 else St 0
  | 310 => if c =? 46 then St 302 else if (48 <=? c) && (c <=? 57) then St 311 else St 0
  | 311 => if c =? 46 then St 302 else if (48 <=? c) && (c <=? 57) then St 301 else St 0
  | 312 =>
      switch c [(46, St 302); (53, St 313)]
        (if (48 <=? c) && (c <=? 57) then St 301 else St 0)
  | 313 => if c =? 46 then St 302 else if (48 <=? c) && (c <=? 53) then St 301 else St 0
  | 314 => if c =? 46 then St 298 else if (48 <=? c) && (c <=? 57) then St 315 else St 0
  | 315 => if c =? 46 then St 298 else if (48 <=? c) && (c <=? 57) then St 297 else St 0
  | 316 =>
      switch c [(46, St 298); (53, St 317)]
        (if (48 <=? c) && (c <=? 57) then St 297 else St 0)
  | 317 => if c =? 46 then St 298 else if (48 <=? c) && (c <=? 53) then St 297 else St 0
  | 318 =>
      switch c [(46, St 294); (58, St 322)]
        (if c <? 65 then if (48 <=? c) && (c <=? 57) then St 319 else St 0
         else if 70 <? c then if (97 <=? c) && (c <=? 102) then St 319 else St 0 else St 319)
  | 319 =>
      if c =? 58 then St 322
      else if c <? 65 then if (48 <=? c) && (c <=? 57) then St 320 else St 0
      else if 70 <? c then if (97 <=? c) && (c <=? 102) then St 320 else St 0 else St 320
  | _ => St 0
  end.

Definition cases_48 (cs c : Z) : label :=
  match cs with
  | 320 =>
      if c =? 58 then St 322
      else if c <? 65 then if (48 <=? c) && (c <=? 57) then St 321 else St 0
      else if 70 <? c then if (97 <=? c) && (c <=? 102) then St 321 else St 0 else St 321
  | 321 => if c =? 58 then St 322 else St 0
  | 322 =>
      if c =? 58 then St 305
      else if c <? 65 then if (48 <=? c) && (c <=? 57) then St 323 else St 0
      else if 70 <? c then if (97 <=? c) && (c <=? 102) then St 323 else St 0 else St 323
  | 323 =>
      if c =? 93 then St 512
      else if c <? 65 then if (48 <=? c) && (c <=? 57) then St 324 else St 0
      else if 70 <? c then if (97 <=? c) && (c <=? 102) then St 324 else St 0 else St 324
  | 324 =>
      if c =? 93 then St 512
      else if c <? 65 then if (48 <=? c) && (c <=? 57) then St 325 else St 0
      else if 70 <? c then if (97 <=? c) && (c <=? 102) then St 325 else St 0 else St 325
  | 325 =>
      if c =? 93 then St 512
      else if c <? 65 then if (48 <=? c) && (c <=? 57) then St 305 else St 0
      else if 70 <? c then if (97 <=? c) && (c <=? 102) then St 305 else St 0 else St 305
  | 326 =>
      switch c [(46, St 294); (58, St 322)]
        (if c <? 65 then if (48 <=? c) && (c <=? 57) then St 327 else St 0
         else if 70 <? c then if (97 <=? c) && (c <=? 102) then St 319 else St 0 else St 319)
  | 327 =>
      switch c [(46, St 294); (58, St 322)]
        (if c <? 65 then if (48 <=? c) && (c <=? 57) then St 328 else St 0
         else if 70 <? c then if (97 <=? c) && (c <=? 102) then St 320 else St 0 else St 320)
  | 328 =>
      switch c [(46, St 294); (58, St 322)]
        (if c <? 65 then if (48 <=? c) && (c <=? 57) then St 321 else St 0
         else if 70 <? c then if (97 <=? c) && (c <=? 102) then St 321 else St 0 else St 321)
  | 329 =>
      switch c [(46, St 294); (53, St 331); (58, St 322)]
        (if c <? 65 then if (48 <=? c) && (c <=? 57) then St 330 else St 0
         else if 70 <? c then if (97 <=? c) && (c <=? 102) then St 319 else St 0 else St 319)
  | _ => St 0
  end.

Definition cases_49 (cs c : Z) : label :=
  match cs with
  | 330 =>
      switch c [(46, St 294); (58, St 322)]
        (if c <? 65 then if (48 <=? c) && (c <=? 57) then St 320 else St 0
         else if 70 <? c then if (97 <=? c) && (c <=? 102) then St 320 else St 0 else St 320)
  | 331 =>
      switch c [(46, St 294); (58, St 322)]
        (if c <? 54 then if (48 <=? c) && (c <=? 53) then St 328 else St 0
         else if 57 <? c then
           if 70 <? c then if (97 <=? c) && (c <=? 102) then St 320 else St 0
           else if 65 <=? c then St 320 else St 0
         else St 320)
  | 332 =>
      switch c [(46, St 294); (58, St 322)]
        (if c <? 65 then if (48 <=? c) && (c <=? 57) then St 330 else St 0
         else if 70 <? c then if (97 <=? c) && (c <=? 102) then St 319 else St 0 else St 319)
  | 333 =>
      if c <? 65 then if (48 <=? c) && (c <=? 57) then St 323 else St 0
      else if 70 <? c then if (97 <=? c) && (c <=? 102) then St 323 else St 0 else St 323
  | 334 =>
      if c =? 58 then St 322
      else if c <? 65 then if (48 <=? c) && (c <=? 57) then St 319 else St 0
      else if 70 <? c then if (97 <=? c) && (c <=? 102) then St 319 else St 0 else St 319
  | 335 =>
      switch c [(2, St 291); (48, St 336); (49, St 340); (50, St 343)]
        (if c <? 65 then if (51 <=? c) && (c <=? 57) then St 346 else St 0
         else if 70 <? c then if (97 <=? c) && (c <=? 102) then St 347 else St 0 else St 347)
  | 336 =>
      switch c [(46, St 294); (58, St 333)]
        (if c <? 65 then if (48 <=? c) && (c <=? 57) then St 337 else St 0
         else if 70 <? c then if (97 <=? c) && (c <=? 102) then St 337 else St 0 else St 337)
  | 337 =>
      if c =? 58 then St 333
      else if c <? 65 then if (48 <=? c) && (c <=? 57) then St 338 else St 0
      else if 70 <? c then if (97 <=? c) && (c <=? 102) then St 338 else St 0 else St 338
  | 338 =>
      if c =? 58 then St 333
      else if c <? 65 then if (48 <=? c) && (c <=? 57) then St 339 else St 0
      else if 70 <? c then if (97 <=? c) && (c <=? 102) then St 339 else St 0 else St 339
  | _ => St 0
  end.

Definition cases_50 (cs c : Z) : label :=
  match cs with
  | 339 => if c =? 58 then St 333 else St 0
  | 340 =>
      switch c [(46, St 294); (58, St 333)]
        (if c <? 65 then if (48 <=? c) && (c <=? 57) then St 341 else St 0
         else if 70 <? c then if (97 <=? c) && (c <=? 102) then St 337 else St 0 else St 337)
  | 341 =>
      switch c [(46, St 294); (58, St 333)]
        (if c <? 65 then if (48 <=? c) && (c <=? 57) then St 342 else St 0
         else if 70 <? c then if (97 <=? c) && (c <=? 102) then St 338 else St 0 else St 338)
  | 342 =>
      switch c [(46, St 294); (58, St 333)]
        (if c <? 65 then if (48 <=? c) && (c <=? 57) then St 339 else St 0
         else if 70 <? c then if (97 <=? c) && (c <=? 102) then St 339 else St 0 else St 339)
  | 343 =>
      switch c [(46, St 294); (53, St 345); (58, St 333)]
        (if c <? 65 then if (48 <=? c) && (c <=? 57) then St 344 else St 0
         else if 70 <? c then if (97 <=? c) && (c <=? 102) then St 337 else St 0 else St 337)
  | 344 =>
      switch c [(46, St 294); (58, St 333)]
        (if c <? 65 then if (48 <=? c) && (c <=? 57) then St 338 else St 0
         else if 70 <? c then if (97 <=? c) && (c <=? 102) then St 338 else St 0 else St 338)
  | 345 =>
      switch c [(46, St 294); (58, St 333)]
        (if c <? 54 then if (48 <=? c) && (c <=? 53) then St 342 else St 0
         else if 57 <? c then
           if 70 <? c then if (97 <=? c) && (c <=? 102) then St 338 else St 0
           else if 65 <=? c then St 338 else St 0
         else St 338)
  | 346 =>
      switch c [(46, St 294); (58, St 333)]
        (if c <? 65 then if (48 <=? c) && (c <=? 57) then St 344 else St 0
         else if 70 <? c then if (97 <=? c) && (c <=? 102) then St 337 else St 0 else St 337)
  | 347 =>
      if c =? 58 then St 333
      else if c <? 65 then if (48 <=? c) && (c <=? 57) then St 337 else St 0
      else if 70 <? c then if (97 <=? c) && (c <=? 102) then St 337 else St 0 else St 337
  | 348 =>
      if c <? 65 then if (48 <=? c) && (c <=? 57) then St 349 else St 0
      else if 70 <? c then if (97 <=? c) && (c <=? 102) then St 349 else St 0 else St 349
  | _ => St 0
  end.

Definition cases_51 (cs c : Z) : label :=
  match cs with
  | 349 =>
      if c =? 58 then St 335
      else if c <? 65 then if (48 <=? c) && (c <=? 57) then St 350 else St 0
      else if 70 <? c then if (97 <=? c) && (c <=? 102) then St 350 else St 0 else St 350
  | 350 =>
      if c =? 58 then St 335
      else if c <? 65 then if (48 <=? c) && (c <=? 57) then St 351 else St 0
      else if 70 <? c then if (97 <=? c) && (c <=? 102) then St 351 else St 0 else St 351
  | 351 =>
      if c =? 58 then St 335
      else if c <? 65 then if (48 <=? c) && (c <=? 57) then St 352 else St 0
      else if 70 <? c then if (97 <=? c) && (c <=? 102) then St 352 else St 0 else St 352
  | 352 => if c =? 58 then St 335 else St 0
  | 353 =>
      if c <? 65 then if (48 <=? c) && (c <=? 57) then St 354 else St 0
      else if 70 <? c then if (97 <=? c) && (c <=? 102) then St 354 else St 0 else St 354
  | 354 =>
      if c =? 58 then St 348
      else if c <? 65 then if (48 <=? c) && (c <=? 57) then St 355 else St 0
      else if 70 <? c then if (97 <=? c) && (c <=? 102) then St 355 else St 0 else St 355
  | 355 =>
      if c =? 58 then St 348
      else if c <? 65 then if (48 <=? c) && (c <=? 57) then St 356 else St 0
      else if 70 <? c then if (97 <=? c) && (c <=? 102) then St 356 else St 0 else St 356
  | 356 =>
      if c =? 58 then St 348
      else if c <? 65 then if (48 <=? c) && (c <=? 57) then St 357 else St 0
      else if 70 <? c then if (97 <=? c) && (c <=? 102) then St 357 else St 0 else St 357
  | 357 => if c =? 58 then St 348 else St 0
  | 358 =>
      if c <? 65 then if (48 <=? c) && (c <=? 57) then St 359 else St 0
      else if 70 <? c then if (97 <=? c) && (c <=? 102) then St 359 else St 0 else St 359
  | 359 =>
      if c =? 58 then St 353
      else if c <? 65 then if (48 <=? c) && (c <=? 57) then St 360 else St 0
      else if 70 <? c then if (97 <=? c) && (c <=? 102) then St 360 else St 0 else St 360
  | 360 =>
      if c =? 58 then St 353
      else if c <? 65 then if (48 <=? c) && (c <=? 57) then St 361 else St 0
      else if 70 <? c then if (97 <=? c) && (c <=? 102) then St 361 else St 0 else St 361
  | _ => St 0
  end.

Definition cases_52 (cs c : Z) : label :=
  match cs with
  | 361 =>
      if c =? 58 then St 353
      else if c <? 65 then if (48 <=? c) && (c <=? 57) then St 362 else St 0
      else if 70 <? c then if (97 <=? c) && (c <=? 102) then St 362 else St 0 else St 362
  | 362 => if c =? 58 then St 353 else St 0
  | 363 =>
      if c <? 65 then if (48 <=? c) && (c <=? 57) then St 364 else St 0
      else if 70 <? c then if (97 <=? c) && (c <=? 102) then St 364 else St 0 else St 364
  | 364 =>
      if c =? 58 then St 358
      else if c <? 65 then if (48 <=? c) && (c <=? 57) then St 365 else St 0
      else if 70 <? c then if (97 <=? c) && (c <=? 102) then St 365 else St 0 else St 365
  | 365 =>
      if c =? 58 then St 358
      else if c <? 65 then if (48 <=? c) && (c <=? 57) then St 366 else St 0
      else if 70 <? c then if (97 <=? c) && (c <=? 102) then St 366 else St 0 else St 366
  | 366 =>
      if c =? 58 then St 358
      else if c <? 65 then if (48 <=? c) && (c <=? 57) then St 367 else St 0
      else if 70 <? c then if (97 <=? c) && (c <=? 102) then St 367 else St 0 else St 367
  | 367 => if c =? 58 then St 358 else St 0
  | 368 => if c =? 58 then St 369 else St 0
  | 369 =>
      switch c [(2, St 291); (48, St 370); (49, St 439); (50, St 442); (93, St 512)]
        (if c <? 65 then if (51 <=? c) && (c <=? 57) then St 445 else St 0
         else if 70 <? c then if (97 <=? c) && (c <=? 102) then St 446 else St 0 else St 446)
  | 370 =>
      switch c [(46, St 294); (58, St 374); (93, St 512)]
        (if c <? 65 then if (48 <=? c) && (c <=? 57) then St 371 else St 0
         else if 70 <? c then if (97 <=? c) && (c <=? 102) then St 371 else St 0 else St 371)
  | 371 =>
      switch c [(58, St 374); (93, St 512)]
        (if c <? 65 then if (48 <=? c) && (c <=? 57) then St 372 else St 0
         else if 70 <? c then if (97 <=? c) && (c <=? 102) then St 372 else St 0 else St 372)
  | _ => St 0
  end.

Definition cases_53 (cs c : Z) : label :=
  match cs with
  | 372 =>
      switch c [(58, St 374); (93, St 512)]
        (if c <? 65 then if (48 <=? c) && (c <=? 57) then St 373 else St 0
         else if 70 <? c then if (97 <=? c) && (c <=? 102) then St 373 else St 0 else St 373)
  | 373 =>
      switch c [(58, St 374); (93, St 512)]
        (St 0)
  | 374 =>
      switch c [(2, St 291); (48, St 375); (49, St 431); (50, St 434)]
        (if c <? 65 then if (51 <=? c) && (c <=? 57) then St 437 else St 0
         else if 70 <? c then if (97 <=? c) && (c <=? 102) then St 438 else St 0 else St 438)
  | 375 =>
      switch c [(46, St 294); (58, St 379); (93, St 512)]
        (if c <? 65 then if (48 <=? c) && (c <=? 57) then St 376 else St 0
         else if 70 <? c then if (97 <=? c) && (c <=? 102) then St 376 else St 0 else St 376)
  | 376 =>
      switch c [(58, St 379); (93, St 512)]
        (if c <? 65 then if (48 <=? c) && (c <=? 57) then St 377 else St 0
         else if 70 <? c then if (97 <=? c) && (c <=? 102) then St 377 else St 0 else St 377)
  | 377 =>
      switch c [(58, St 379); (93, St 512)]
        (if c <? 65 then if (48 <=? c) && (c <=? 57) then St 378 else St 0
         else if 70 <? c then if (97 <=? c) && (c <=? 102) then St 378 else St 0 else St 378)
  | 378 =>
      switch c [(58, St 379); (93, St 512)]
        (St 0)
  | 379 =>
      switch c [(2, St 291); (48, St 380); (49, St 423); (50, St 426)]
        (if c <? 65 then if (51 <=? c) && (c <=? 57) then St 429 else St 0
         else if 70 <? c then if (97 <=? c) && (c <=? 102) then St 430 else St 0 else St 430)
  | 380 =>
      switch c [(46, St 294); (58, St 384); (93, St 512)]
        (if c <? 65 then if (48 <=? c) && (c <=? 57) then St 381 else St 0
         else if 70 <? c then if (97 <=? c) && (c <=? 102) then St 381 else St 0 else St 381)
  | 381 =>
      switch c [(58, St 384); (93, St 512)]
        (if c <? 65 then if (48 <=? c) && (c <=? 57) then St 382 else St 0
         else if 70 <? c then if (97 <=? c) && (c <=? 102) then St 382 else St 0 else St 382)
  | _ => St 0
  end.

Definition cases_54 (cs c : Z) : label :=
  match cs with
  | 382 =>
      switch c [(58, St 384); (93, St 512)]
        (if c <? 65 then if (48 <=? c) && (c <=? 57) then St 383 else St 0
         else if 70 <? c then if (97 <=? c) && (c <=? 102) then St 383 else St 0 else St 383)
  | 383 =>
      switch c [(58, St 384); (93, St 512)]
        (St 0)
  | 384 =>
      switch c [(2, St 291); (48, St 385); (49, St 415); (50, St 418)]
        (if c <? 65 then if (51 <=? c) && (c <=? 57) then St 421 else St 0
         else if 70 <? c then if (97 <=? c) && (c <=? 102) then St 422 else St 0 else St 422)
  | 385 =>
      switch c [(46, St 294); (58, St 389); (93, St 512)]
        (if c <? 65 then if (48 <=? c) && (c <=? 57) then St 386 else St 0
         else if 70 <? c then if (97 <=? c) && (c <=? 102) then St 386 else St 0 else St 386)
  | 386 =>
      switch c [(58, St 389); (93, St 512)]
        (if c <? 65 then if (48 <=? c) && (c <=? 57) then St 387 else St 0
         else if 70 <? c then if (97 <=? c) && (c <=? 102) then St 387 else St 0 else St 387)
  | 387 =>
      switch c [(58, St 389); (93, St 512)]
        (if c <? 65 then if (48 <=? c) && (c <=? 57) then St 388 else St 0
         else if 70 <? c then if (97 <=? c) && (c <=? 102) then St 388 else St 0 else St 388)
  | 388 =>
      switch c [(58, St 389); (93, St 512)]
        (St 0)
  | 389 =>
      switch c [(2, St 291); (48, St 390); (49, St 407); (50, St 410)]
        (if c <? 65 then if (51 <=? c) && (c <=? 57) then St 413 else St 0
         else if 70 <? c then if (97 <=? c) && (c <=? 102) then St 414 else St 0 else St 414)
  | 390 =>
      switch c [(46, St 294); (58, St 394); (93, St 512)]
        (if c <? 65 then if (48 <=? c) && (c <=? 57) then St 391 else St 0
         else if 70 <? c then if (97 <=? c) && (c <=? 102) then St 391 else St 0 else St 391)
  | 391 =>
      switch c [(58, St 394); (93, St 512)]
        (if c <? 65 then if (48 <=? c) && (c <=? 57) then St 392 else St 0
         else if 70 <? c then if (97 <=? c) && (c <=? 102) then St 392 else St 0 else St 392)
  | _ => St 0
  end.

Definition cases_55 (cs c : Z) : label :=
  match cs with
  | 392 =>
      switch c [(58, St 394); (93, St 512)]
        (if c <? 65 then if (48 <=? c) && (c <=? 57) then St 393 else St 0
         else if 70 <? c then if (97 <=? c) && (c <=? 102) then St 393 else St 0 else St 393)
  | 393 =>
      switch c [(58, St 394); (93, St 512)]
        (St 0)
  | 394 =>
      switch c [(2, St 291); (48, St 395); (49, St 399); (50, St 402)]
        (if c <? 65 then if (51 <=? c) && (c <=? 57) then St 405 else St 0
         else if 70 <? c then if (97 <=? c) && (c <=? 102) then St 406 else St 0 else St 406)
  | 395 =>
      switch c [(46, St 294); (58, St 333); (93, St 512)]
        (if c <? 65 then if (48 <=? c) && (c <=? 57) then St 396 else St 0
         else if 70 <? c then if (97 <=? c) && (c <=? 102) then St 396 else St 0 else St 396)
  | 396 =>
      switch c [(58, St 333); (93, St 512)]
        (if c <? 65 then if (48 <=? c) && (c <=? 57) then St 397 else St 0
         else if 70 <? c then if (97 <=? c) && (c <=? 102) then St 397 else St 0 else St 397)
  | 397 =>
      switch c [(58, St 333); (93, St 512)]
        (if c <? 65 then if (48 <=? c) && (c <=? 57) then St 398 else St 0
         else if 70 <? c then if (97 <=? c) && (c <=? 102) then St 398 else St 0 else St 398)
  | 398 =>
      switch c [(58, St 333); (93, St 512)]
        (St 0)
  | 399 =>
      switch c [(46, St 294); (58, St 333); (93, St 512)]
        (if c <? 65 then if (48 <=? c) && (c <=? 57) then St 400 else St 0
         else if 70 <? c then if (97 <=? c) && (c <=? 102) then St 396 else St 0 else St 396)
  | 400 =>
      switch c [(46, St 294); (58, St 333); (93, St 512)]
        (if c <? 65 then if (48 <=? c) && (c <=? 57) then St 401 else St 0
         else if 70 <? c then if (97 <=? c) && (c <=? 102) then St 397 else St 0 else St 397)
  | 401 =>
      switch c [(46, St 294); (58, St 333); (93, St 512)]
        (if c <? 65 then if (48 <=? c) && (c <=? 57) then St 398 else St 0
         else if 70 <? c then if (97 <=? c) && (c <=? 102) then St 398 else St 0 else St 398)
  | _ => St 0
  end.

Definition cases_56 (cs c : Z) : label :=
  match cs with
  | 402 =>
      switch c [(46, St 294); (53, St 404); (58, St 333); (93, St 512)]
        (if c <? 65 then if (48 <=? c) && (c <=? 57) then St 403 else St 0
         else if 70 <? c then if (97 <=? c) && (c <=? 102) then St 396 else St 0 else St 396)
  | 403 =>
      switch c [(46, St 294); (58, St 333); (93, St 512)]
        (if c <? 65 then if (48 <=? c) && (c <=? 57) then St 397 else St 0
         else if 70 <? c then if (97 <=? c) && (c <=? 102) then St 397 else St 0 else St 397)
  | 404 =>
      switch c [(46, St 294); (58, St 333); (93, St 512)]
        (if c <? 54 then if (48 <=? c) && (c <=? 53) then St 401 else St 0
         else if 57 <? c then
           if 70 <? c then if (97 <=? c) && (c <=? 102) then St 397 else St 0
           else if 65 <=? c then St 397 else St 0
         else St 397)
  | 405 =>
      switch c [(46, St 294); (58, St 333); (93, St 512)]
        (if c <? 65 then if (48 <=? c) && (c <=? 57) then St 403 else St 0
         else if 70 <? c then if (97 <=? c) && (c <=? 102) then St 396 else St 0 else St 396)
  | 406 =>
      switch c [(58, St 333); (93, St 512)]
        (if c <? 65 then if (48 <=? c) && (c <=? 57) then St 396 else St 0
         else if 70 <? c then if (97 <=? c) && (c <=? 102) then St 396 else St 0 else St 396)
  | 407 =>
      switch c [(46, St 294); (58, St 394); (93, St 512)]
        (if c <? 65 then if (48 <=? c) && (c <=? 57) then St 408 else St 0
         else if 70 <? c then if (97 <=? c) && (c <=? 102) then St 391 else St 0 else St 391)
  | 408 =>
      switch c [(46, St 294); (58, St 394); (93, St 512)]
        (if c <? 65 then if (48 <=? c) && (c <=? 57) then St 409 else St 0
         else if 70 <? c then if (97 <=? c) && (c <=? 102) then St 392 else St 0 else St 392)
  | 409 =>
      switch c [(46, St 294); (58, St 394); (93, St 512)]
        (if c <? 65 then if (48 <=? c) && (c <=? 57) then St 393 else St 0
         else if 70 <? c then if (97 <=? c) && (c <=? 102) then St 393 else St 0 else St 393)
  | _ => St 0
  end.

Definition cases_57 (cs c : Z) : label :=
  match cs with
  | 410 =>
      switch c [(46, St 294); (53, St 412); (58, St 394); (93, St 512)]
        (if c <? 65 then if (48 <=? c) && (c <=? 57) then St 411 else St 0
         else if 70 <? c then if (97 <=? c) && (c <=? 102) then St 391 else St 0 else St 391)
  | 411 =>
      switch c [(46, St 294); (58, St 394); (93, St 512)]
        (if c <? 65 then if (48 <=? c) && (c <=? 57) then St 392 else St 0
         else if 70 <? c then if (97 <=? c) && (c <=? 102) then St 392 else St 0 else St 392)
  | 412 =>
      switch c [(46, St 294); (58, St 394); (93, St 512)]
        (if c <? 54 then if (48 <=? c) && (c <=? 53) then St 409 else St 0
         else if 57 <? c then
           if 70 <? c then if (97 <=? c) && (c <=? 102) then St 392 else St 0
           else if 65 <=? c then St 392 else St 0
         else St 392)
  | 413 =>
      switch c [(46, St 294); (58, St 394); (93, St 512)]
        (if c <? 65 then if (48 <=? c) && (c <=? 57) then St 411 else St 0
         else if 70 <? c then if (97 <=? c) && (c <=? 102) then St 391 else St 0 else St 391)
  | 414 =>
      switch c [(58, St 394); (93, St 512)]
        (if c <? 65 then if (48 <=? c) && (c <=? 57) then St 391 else St 0
         else if 70 <? c then if (97 <=? c) && (c <=? 102) then St 391 else St 0 else St 391)
  | 415 =>
      switch c [(46, St 294); (58, St 389); (93, St 512)]
        (if c <? 65 then if (48 <=? c) && (c <=? 57) then St 416 else St 0
         else if 70 <? c then if (97 <=? c) && (c <=? 102) then St 386 else St 0 else St 386)
  | 416 =>
      switch c [(46, St 294); (58, St 389); (93, St 512)]
        (if c <? 65 then if (48 <=? c) && (c <=? 57) then St 417 else St 0
         else if 70 <? c then if (97 <=? c) && (c <=? 102) then St 387 else St 0 else St 387)
  | 417 =>
      switch c [(46, St 294); (58, St 389); (93, St 512)]
        (if c <? 65 then if (48 <=? c) && (c <=? 57) then St 388 else St 0
         else if 70 <? c then if (97 <=? c) && (c <=? 102) then St 388 else St 0 else St 388)
  | _ => St 0
  end.

Definition cases_58 (cs c : Z) : label :=
  match cs with
  | 418 =>
      switch c [(46, St 294); (53, St 420); (58, St 389); (93, St 512)]
        (if c <? 65 then if (48 <=? c) && (c <=? 57) then St 419 else St 0
         else if 70 <? c then if (97 <=? c) && (c <=? 102) then St 386 else St 0 else St 386)
  | 419 =>
      switch c [(46, St 294); (58, St 389); (93, St 512)]
        (if c <? 65 then if (48 <=? c) && (c <=? 57) then St 387 else St 0
         else if 70 <? c then if (97 <=? c) && (c <=? 102) then St 387 else St 0 else St 387)
  | 420 =>
      switch c [(46, St 294); (58, St 389); (93, St 512)]
        (if c <? 54 then if (48 <=? c) && (c <=? 53) then St 417 else St 0
         else if 57 <? c then
           if 70 <? c then if (97 <=? c) && (c <=? 102) then St 387 else St 0
           else if 65 <=? c then St 387 else St 0
         else St 387)
  | 421 =>
      switch c [(46, St 294); (58, St 389); (93, St 512)]
        (if c <? 65 then if (48 <=? c) && (c <=? 57) then St 419 else St 0
         else if 70 <? c then if (97 <=? c) && (c <=? 102) then St 386 else St 0 else St 386)
  | 422 =>
      switch c [(58, St 389); (93, St 512)]
        (if c <? 65 then if (48 <=? c) && (c <=? 57) then St 386 else St 0
         else if 70 <? c then if (97 <=? c) && (c <=? 102) then St 386 else St 0 else St 386)
  | 423 =>
      switch c [(46, St 294); (58, St 384); (93, St 512)]
        (if c <? 65 then if (48 <=? c) && (c <=? 57) then St 424 else St 0
         else if 70 <? c then if (97 <=? c) && (c <=? 102) then St 381 else St 0 else St 381)
  | 424 =>
      switch c [(46, St 294); (58, St 384); (93, St 512)]
        (if c <? 65 then if (48 <=? c) && (c <=? 57) then St 425 else St 0
         else if 70 <? c then if (97 <=? c) && (c <=? 102) then St 382 else St 0 else St 382)
  | 425 =>
      switch c [(46, St 294); (58, St 384); (93, St 512)]
        (if c <? 65 then if (48 <=? c) && (c <=? 57) then St 383 else St 0
         else if 70 <? c then if (97 <=? c) && (c <=? 102) then St 383 else St 0 else St 383)
  | _ => St 0
  end.

Definition cases_59 (cs c : Z) : label :=
  match cs with
  | 426 =>
      switch c [(46, St 294); (53, St 428); (58, St 384); (93, St 512)]
        (if c <? 65 then if (48 <=? c) && (c <=? 57) then St 427 else St 0
         else if 70 <? c then if (97 <=? c) && (c <=? 102) then St 381 else St 0 else St 381)
  | 427 =>
      switch c [(46, St 294); (58, St 384); (93, St 512)]
        (if c <? 65 then if (48 <=? c) && (c <=? 57) then St 382 else St 0
         else if 70 <? c then if (97 <=? c) && (c <=? 102) then St 382 else St 0 else St 382)
  | 428 =>
      switch c [(46, St 294); (58, St 384); (93, St 512)]
        (if c <? 54 then if (48 <=? c) && (c <=? 53) then St 425 else St 0
         else if 57 <? c then
           if 70 <? c then if (97 <=? c) && (c <=? 102) then St 382 else St 0
           else if 65 <=? c then St 382 else St 0
         else St 382)
  | 429 =>
      switch c [(46, St 294); (58, St 384); (93, St 512)]
        (if c <? 65 then if (48 <=? c) && (c <=? 57) then St 427 else St 0
         else if 70 <? c then if (97 <=? c) && (c <=? 102) then St 381 else St 0 else St 381)
  | 430 =>
      switch c [(58, St 384); (93, St 512)]
        (if c <? 65 then if (48 <=? c) && (c <=? 57) then St 381 else St 0
         else if 70 <? c then if (97 <=? c) && (c <=? 102) then St 381 else St 0 else St 381)
  | 431 =>
      switch c [(46, St 294); (58, St 379); (93, St 512)]
        (if c <? 65 then if (48 <=? c) && (c <=? 57) then St 432 else St 0
         else if 70 <? c then if (97 <=? c) && (c <=? 102) then St 376 else St 0 else St 376)
  | 432 =>
      switch c [(46, St 294); (58, St 379); (93, St 512)]
        (if c <? 65 then if (48 <=? c) && (c <=? 57) then St 433 else St 0
         else if 70 <? c then if (97 <=? c) && (c <=? 102) then St 377 else St 0 else St 377)
  | 433 =>
      switch c [(46, St 294); (58, St 379); (93, St 512)]
        (if c <? 65 then if (48 <=? c) && (c <=? 57) then St 378 else St 0
         else if 70 <? c then if (97 <=? c) && (c <=? 102) then St 378 else St 0 else St 378)
  | _ => St 0
  end.

Definition cases_60 (cs c : Z) : label :=
  match cs with
  | 434 =>
      switch c [(46, St 294); (53, St 436); (58, St 379); (93, St 512)]
        (if c <? 65 then if (48 <=? c) && (c <=? 57) then St 435 else St 0
         else if 70 <? c then if (97 <=? c) && (c <=? 102) then St 376 else St 0 else St 376)
  | 435 =>
      switch c [(46, St 294); (58, St 379); (93, St 512)]
        (if c <? 65 then if (48 <=? c) && (c <=? 57) then St 377 else St 0
         else if 70 <? c then if (97 <=? c) && (c <=? 102) then St 377 else St 0 else St 377)
  | 436 =>
      switch c [(46, St 294); (58, St 379); (93, St 512)]
        (if c <? 54 then if (48 <=? c) && (c <=? 53) then St 433 else St 0
         else if 57 <? c then
           if 70 <? c then if (97 <=? c) && (c <=? 102) then St 377 else St 0
           else if 65 <=? c then St 377 else St 0
         else St 377)
  | 437 =>
      switch c [(46, St 294); (58, St 379); (93, St 512)]
        (if c <? 65 then if (48 <=? c) && (c <=? 57) then St 435 else St 0
         else if 70 <? c then if (97 <=? c) && (c <=? 102) then St 376 else St 0 else St 376)
  | 438 =>
      switch c [(58, St 379); (93, St 512)]
        (if c <? 65 then if (48 <=? c) && (c <=? 57) then St 376 else St 0
         else if 70 <? c then if (97 <=? c) && (c <=? 102) then St 376 else St 0 else St 376)
  | 439 =>
      switch c [(46, St 294); (58, St 374); (93, St 512)]
        (if c <? 65 then if (48 <=? c) && (c <=? 57) then St 440 else St 0
         else if 70 <? c then if (97 <=? c) && (c <=? 102) then St 371 else St 0 else St 371)
  | 440 =>
      switch c [(46, St 294); (58, St 374); (93, St 512)]
        (if c <? 65 then if (48 <=? c) && (c <=? 57) then St 441 else St 0
         else if 70 <? c then if (97 <=? c) && (c <=? 102) then St 372 else St 0 else St 372)
  | 441 =>
      switch c [(46, St 294); (58, St 374); (93, St 512)]
        (if c <? 65 then if (48 <=? c) && (c <=? 57) then St 373 else St 0
         else if 70 <? c then if (97 <=? c) && (c <=? 102) then St 373 else St 0 else St 373)
  | _ => St 0
  end.

Definition cases_61 (cs c : Z) : label :=
  match cs with
  | 442 =>
      switch c [(46, St 294); (53, St 444); (58, St 374); (93, St 512)]
        (if c <? 65 then if (48 <=? c) && (c <=? 57) then St 443 else St 0
         else if 70 <? c then if (97 <=? c) && (c <=? 102) then St 371 else St 0 else St 371)
  | 443 =>
      switch c [(46, St 294); (58, St 374); (93, St 512)]
        (if c <? 65 then if (48 <=? c) && (c <=? 57) then St 372 else St 0
         else if 70 <? c then if (97 <=? c) && (c <=? 102) then St 372 else St 0 else St 372)
  | 444 =>
      switch c [(46, St 294); (58, St 374); (93, St 512)]
        (if c <? 54 then if (48 <=? c) && (c <=? 53) then St 441 else St 0
         else if 57 <? c then
           if 70 <? c then if (97 <=? c) && (c <=? 102) then St 372 else St 0
           else if 65 <=? c then St 372 else St 0
         else St 372)
  | 445 =>
      switch c [(46, St 294); (58, St 374); (93, St 512)]
        (if c <? 65 then if (48 <=? c) && (c <=? 57) then St 443 else St 0
         else if 70 <? c then if (97 <=? c) && (c <=? 102) then St 371 else St 0 else St 371)
  | 446 =>
      switch c [(58, St 374); (93, St 512)]
        (if c <? 65 then if (48 <=? c) && (c <=? 57) then St 371 else St 0
         else if 70 <? c then if (97 <=? c) && (c <=? 102) then St 371 else St 0 else St 371)
  | 447 =>
      if c <? 65 then if (48 <=? c) && (c <=? 57) then St 448 else St 0
      else if 70 <? c then if (97 <=? c) && (c <=? 102) then St 448 else St 0 else St 448
  | 448 =>
      if c =? 46 then St 449
      else if c <? 65 then if (48 <=? c) && (c <=? 57) then St 448 else St 0
      else if 70 <? c then if (97 <=? c) && (c <=? 102) then St 448 else St 0 else St 448
  | 449 =>
      switch c [(33, St 450); (36, St 450); (61, St 450); (95, St 450); (126, St 450)]
        (if c <? 48 then if (38 <=? c) && (c <=? 46) then St 450 else St 0
         else if 59 <? c then
           if 90 <? c then if (97 <=? c) && (c <=? 122) then St 450 else St 0
           else if 65 <=? c then St 450 else St 0
         else St 450)
  | 450 =>
      switch c [(33, St 450); (36, St 450); (61, St 450); (93, St 512); (95, St 450);
        (126, St 450)]
        (if c <? 48 then if (38 <=? c) && (c <=? 46) then St 450 else St 0
         else if 59 <? c then
           if 90 <? c then if (97 <=? c) && (c <=? 122) then St 450 else St 0
           else if 65 <=? c then St 450 else St 0
         else St 450)
  | _ => St 0
  end.

Definition trans_62 (t : Z) : list uri_action * Z :=
  match t with
  | 577 => ([markh], 542)
  | 551 => ([markh], 543)
  | _ => ([], 0)
  end.

Definition cases_62 (cs c : Z) : label :=
  match cs with
  | 542 =>
      switch c [(33, St 255); (35, Tr 570); (37, St 256); (47, Tr 571); (61, St 255);
        (63, Tr 573); (64, Tr 263); (95, St 255); (126, St 255)]
        (if c <? 58 then
           if 46 <? c then if (48 <=? c) && (c <=? 57) then St 542 else St 0
           else if 36 <=? c then St 255 else St 0
         else if 59 <? c then
           if 90 <? c then if (97 <=? c) && (c <=? 122) then St 255 else St 0
           else if 65 <=? c then St 255 else St 0
         else St 255)
  | 543 =>
      switch c [(33, St 520); (35, Tr 559); (37, St 253); (46, St 544); (47, Tr 560);
        (58, Tr 576); (61, St 520); (63, Tr 562); (64, Tr 263); (95, St 520); (126, St 520)]
        (if c <? 65 then if (36 <=? c) && (c <=? 59) then St 520 else St 0
         else if 90 <? c then if (97 <=? c) && (c <=? 122) then St 520 else St 0 else St 520)
  | 544 =>
      switch c [(2, St 233); (33, St 520); (35, Tr 559); (37, St 253); (47, Tr 560);
        (48, St 545); (49, St 553); (50, St 555); (58, Tr 576); (59, St 520); (61, St 520);
        (63, Tr 562); (64, Tr 263); (95, St 520); (126, St 520)]
        (if c <? 51 then if (36 <=? c) && (c <=? 46) then St 520 else St 0
         else if 57 <? c then
           if 90 <? c then if (97 <=? c) && (c <=? 122) then St 520 else St 0
           else if 65 <=? c then St 520 else St 0
         else St 554)
  | 545 =>
      switch c [(33, St 520); (35, Tr 559); (37, St 253); (46, St 546); (47, Tr 560);
        (58, Tr 576); (61, St 520); (63, Tr 562); (64, Tr 263); (95, St 520); (126, St 520)]
        (if c <? 65 then if (36 <=? c) && (c <=? 59) then St 520 else St 0
         else if 90 <? c then if (97 <=? c) && (c <=? 122) then St 520 else St 0 else St 520)
  | 546 =>
      switch c [(2, St 237); (33, St 520); (35, Tr 559); (37, St 253); (47, Tr 560);
        (48, St 547); (49, St 549); (50, St 551); (58, Tr 576); (59, St 520); (61, St 520);
        (63, Tr 562); (64, Tr 263); (95, St 520); (126, St 520)]
        (if c <? 51 then if (36 <=? c) && (c <=? 46) then St 520 else St 0
         else if 57 <? c then
           if 90 <? c then if (97 <=? c) && (c <=? 122) then St 520 else St 0
           else if 65 <=? c then St 520 else St 0
         else St 550)
  | _ => St 0
  end.

Definition cases_63 (cs c : Z) : label :=
  match cs with
  | 547 =>
      switch c [(33, St 520); (35, Tr 559); (37, St 253); (46, St 548); (47, Tr 560);
        (58, Tr 576); (61, St 520); (63, Tr 562); (64, Tr 263); (95, St 520); (126, St 520)]
        (if c <? 65 then if (36 <=? c) && (c <=? 59) then St 520 else St 0
         else if 90 <? c then if (97 <=? c) && (c <=? 122) then St 520 else St 0 else St 520)
  | 548 =>
      switch c [(2, St 241); (33, St 520); (35, Tr 559); (37, St 253); (47, Tr 560);
        (58, Tr 576); (61, St 520); (63, Tr 562); (64, Tr 263); (95, St 520); (126, St 520)]
        (if c <? 65 then if (36 <=? c) && (c <=? 59) then St 520 else St 0
         else if 90 <? c then if (97 <=? c) && (c <=? 122) then St 520 else St 0 else St 520)
  | 549 =>
      switch c [(33, St 520); (35, Tr 559); (37, St 253); (46, St 548); (47, Tr 560);
        (58, Tr 576); (59, St 520); (61, St 520); (63, Tr 562); (64, Tr 263); (95, St 520);
        (126, St 520)]
        (if c <? 48 then if (36 <=? c) && (c <=? 45) then St 520 else St 0
         else if 57 <? c then
           if 90 <? c then if (97 <=? c) && (c <=? 122) then St 520 else St 0
           else if 65 <=? c then St 520 else St 0
         else St 550)
  | 550 =>
      switch c [(33, St 520); (35, Tr 559); (37, St 253); (46, St 548); (47, Tr 560);
        (58, Tr 576); (59, St 520); (61, St 520); (63, Tr 562); (64, Tr 263); (95, St 520);
        (126, St 520)]
        (if c <? 48 then if (36 <=? c) && (c <=? 45) then St 520 else St 0
         else if 57 <? c then
           if 90 <? c then if (97 <=? c) && (c <=? 122) then St 520 else St 0
           else if 65 <=? c then St 520 else St 0
         else St 547)
  | 551 =>
      switch c [(33, St 520); (35, Tr 559); (37, St 253); (46, St 548); (47, Tr 560);
        (53, St 552); (58, Tr 576); (59, St 520); (61, St 520); (63, Tr 562); (64, Tr 263);
        (95, St 520); (126, St 520)]
        (if c <? 48 then if (36 <=? c) && (c <=? 45) then St 520 else St 0
         else if 57 <? c then
           if 90 <? c then if (97 <=? c) && (c <=? 122) then St 520 else St 0
           else if 65 <=? c then St 520 else St 0
         else St 547)
  | 552 =>
      switch c [(33, St 520); (35, Tr 559); (37, St 253); (46, St 548); (47, Tr 560);
        (58, Tr 576); (61, St 520); (63, Tr 562); (64, Tr 263); (95, St 520); (126, St 520)]
        (if c <? 54 then
           if 45 <? c then if (48 <=? c) && (c <=? 53) then St 547 else St 0
           else if 36 <=? c then St 520 else St 0
         else if 59 <? c then
           if 90 <? c then if (97 <=? c) && (c <=? 122) then St 520 else St 0
           else if 65 <=? c then St 520 else St 0
         else St 520)
  | _ => St 0
  end.

Definition trans_64 (t : Z) : list uri_action * Z :=
  match t with
  | 552 => ([markh], 557)
  | _ => ([], 0)
  end.

Definition cases_64 (cs c : Z) : label :=
  match cs with
  | 553 =>
      switch c [(33, St 520); (35, Tr 559); (37, St 253); (46, St 546); (47, Tr 560);
        (58, Tr 576); (59, St 520); (61, St 520); (63, Tr 562); (64, Tr 263); (95, St 520);
        (126, St 520)]
        (if c <? 48 then if (36 <=? c) && (c <=? 45) then St 520 else St 0
         else if 57 <? c then
           if 90 <? c then if (97 <=? c) && (c <=? 122) then St 520 else St 0
           else if 65 <=? c then St 520 else St 0
         else St 554)
  | 554 =>
      switch c [(33, St 520); (35, Tr 559); (37, St 253); (46, St 546); (47, Tr 560);
        (58, Tr 576); (59, St 520); (61, St 520); (63, Tr 562); (64, Tr 263); (95, St 520);
        (126, St 520)]
        (if c <? 48 then if (36 <=? c) && (c <=? 45) then St 520 else St 0
         else if 57 <? c then
           if 90 <? c then if (97 <=? c) && (c <=? 122) then St 520 else St 0
           else if 65 <=? c then St 520 else St 0
         else St 545)
  | 555 =>
      switch c [(33, St 520); (35, Tr 559); (37, St 253); (46, St 546); (47, Tr 560);
        (53, St 556); (58, Tr 576); (59, St 520); (61, St 520); (63, Tr 562); (64, Tr 263);
        (95, St 520); (126, St 520)]
        (if c <? 48 then if (36 <=? c) && (c <=? 45) then St 520 else St 0
         else if 57 <? c then
           if 90 <? c then if (97 <=? c) && (c <=? 122) then St 520 else St 0
           else if 65 <=? c then St 520 else St 0
         else St 545)
  | 556 =>
      switch c [(33, St 520); (35, Tr 559); (37, St 253); (46, St 546); (47, Tr 560);
        (58, Tr 576); (61, St 520); (63, Tr 562); (64, Tr 263); (95, St 520); (126, St 520)]
        (if c <? 54 then
           if 45 <? c then if (48 <=? c) && (c <=? 53) then St 545 else St 0
           else if 36 <=? c then St 520 else St 0
         else if 59 <? c then
           if 90 <? c then if (97 <=? c) && (c <=? 122) then St 520 else St 0
           else if 65 <=? c then St 520 else St 0
         else St 520)
  | 557 =>
      switch c [(33, St 520); (35, Tr 559); (37, St 253); (46, St 544); (47, Tr 560);
        (58, Tr 576); (59, St 520); (61, St 520); (63, Tr 562); (64, Tr 263); (95, St 520);
        (126, St 520)]
        (if c <? 48 then if (36 <=? c) && (c <=? 45) then St 520 else St 0
         else if 57 <? c then
           if 90 <? c then if (97 <=? c) && (c <=? 122) then St 520 else St 0
           else if 65 <=? c then St 520 else St 0
         else St 558)
  | _ => St 0
  end.

Definition trans_65 (t : Z) : list uri_action * Z :=
  match t with
  | 554 => ([markh], 558)
  | 553 => ([markh], 559)
  | _ => ([], 0)
  end.

Definition cases_65 (cs c : Z) : label :=
  match cs with
  | 558 =>
      switch c [(33, St 520); (35, Tr 559); (37, St 253); (46, St 544); (47, Tr 560);
        (58, Tr 576); (59, St 520); (61, St 520); (63, Tr 562); (64, Tr 263); (95, St 520);
        (126, St 520)]
        (if c <? 48 then if (36 <=? c) && (c <=? 45) then St 520 else St 0
         else if 57 <? c then
           if 90 <? c then if (97 <=? c) && (c <=? 122) then St 520 else St 0
           else if 65 <=? c then St 520 else St 0
         else St 543)
  | 559 =>
      switch c [(33, St 520); (35, Tr 559); (37, St 253); (46, St 544); (47, Tr 560);
        (53, St 560); (58, Tr 576); (59, St 520); (61, St 520); (63, Tr 562); (64, Tr 263);
        (95, St 520); (126, St 520)]
        (if c <? 48 then if (36 <=? c) && (c <=? 45) then St 520 else St 0
         else if 57 <? c then
           if 90 <? c then if (97 <=? c) && (c <=? 122) then St 520 else St 0
           else if 65 <=? c then St 520 else St 0
         else St 543)
  | 560 =>
      switch c [(33, St 520); (35, Tr 559); (37, St 253); (46, St 544); (47, Tr 560);
        (58, Tr 576); (61, St 520); (63, Tr 562); (64, Tr 263); (95, St 520); (126, St 520)]
        (if c <? 54 then
           if 45 <? c then if (48 <=? c) && (c <=? 53) then St 543 else St 0
           else if 36 <=? c then St 520 else St 0
         else if 59 <? c then
           if 90 <? c then if (97 <=? c) && (c <=? 122) then St 520 else St 0
           else if 65 <=? c then St 520 else St 0
         else St 520)
  | _ => St 0
  end.

(** [switch ( cs )]: the jump to the block of the state. *)
Definition jump (cs c : Z) : label :=
  match cs with
  | 451 | 452 => cases_1 cs c
  | 453 | 454 | 1 | 2 | 3 | 4 => cases_2 cs c
  | 455 | 5 | 6 => cases_3 cs c
  | 456 | 457 | 7 | 8 | 458 => cases_4 cs c
  | 459 | 9 | 10 | 11 | 12 | 13 | 14 | 15 | 16 | 17 | 18 | 19 | 20 | 21 => cases_5 cs c
  | 22 | 460 | 461 | 462 | 463 | 464 | 465 | 466 | 23 | 24 | 25 => cases_6 cs c
  | 26 | 27 | 28 | 29 | 30 | 467 | 31 | 32 | 468 => cases_7 cs c
  | 33 | 34 | 35 | 469 | 470 | 36 => cases_8 cs c
  | 37 | 471 | 472 | 473 | 474 | 475 => cases_9 cs c
  | 476 | 477 | 478 | 479 | 480 | 481 => cases_10 cs c
  | 482 | 483 | 484 | 485 | 486 => cases_11 cs c
  | 487 | 488 | 38 | 39 | 40 | 41 | 42 | 43 => cases_12 cs c
  | 44 | 45 | 46 | 47 | 48 | 49 | 50 | 51 | 52 | 53 | 54 => cases_13 cs c
  | 55 | 56 | 57 | 58 | 59 | 60 | 61 | 62 | 63 | 64 | 65 => cases_14 cs c
  | 66 | 67 | 68 | 69 | 70 | 71 | 72 | 73 | 74 | 75 | 76 | 77 | 78 | 79 | 80 | 81 => cases_15 cs c
  | 82 | 83 | 84 | 85 | 86 | 87 | 88 | 89 | 90 | 91 | 92 | 93 | 94 | 95 | 96 | 97 => cases_16 cs c
  | 98 | 99 | 100 | 101 | 102 | 103 | 104 | 105 | 106 | 107 => cases_17 cs c
  | 108 | 109 | 110 | 111 | 112 | 113 | 114 | 115 | 116 => cases_18 cs c
  | 117 | 118 | 119 | 120 | 121 | 122 | 123 | 124 | 125 | 126 => cases_19 cs c
  | 127 | 128 | 129 | 130 | 131 | 132 | 133 | 134 | 135 | 136 | 137 | 138 => cases_20 cs c
  | 139 | 140 | 141 | 142 | 143 | 144 | 145 | 146 | 147 | 148 | 149 => cases_21 cs c
  | 150 | 151 | 152 | 153 | 154 | 155 | 156 | 157 | 158 | 159 => cases_22 cs c
  | 160 | 161 | 162 | 163 | 164 | 165 | 166 | 167 | 168 | 169 => cases_23 cs c
  | 170 | 171 | 172 | 173 | 174 | 175 | 176 | 177 | 178 | 179 => cases_24 cs c
  | 180 | 181 | 182 | 183 | 184 | 185 | 186 | 187 => cases_25 cs c
  | 188 | 189 | 190 | 191 | 192 | 193 | 194 | 195 => cases_26 cs c
  | 196 | 197 | 198 | 199 | 200 | 201 | 202 | 203 => cases_27 cs c
  | 204 | 205 | 206 | 207 | 208 | 209 | 210 | 211 => cases_28 cs c
  | 212 | 213 | 214 | 215 | 216 | 217 | 218 | 219 => cases_29 cs c
  | 220 | 221 | 222 | 223 | 224 | 225 | 226 | 227 | 228 => cases_30 cs c
  | 489 | 490 | 491 | 492 | 493 => cases_31 cs c
  | 494 | 495 | 496 | 497 | 498 | 499 => cases_32 cs c
  | 500 | 501 | 502 | 503 | 504 => cases_33 cs c
  | 505 | 506 | 507 | 508 => cases_34 cs c
  | 509 | 510 | 511 | 229 | 230 | 231 | 232 | 233 | 234 | 235 => cases_35 cs c
  | 236 | 237 | 238 | 239 | 240 | 241 | 242 | 512 | 513 | 243 => cases_36 cs c
  | 244 | 514 | 515 | 516 | 517 | 518 | 519 | 245 | 246 | 247 | 248 => cases_37 cs c
  | 249 | 250 | 251 | 252 | 520 | 253 | 254 | 521 => cases_38 cs c
  | 255 | 256 | 257 | 522 | 523 | 258 => cases_39 cs c
  | 259 | 524 | 525 | 526 | 527 | 528 => cases_40 cs c
  | 529 | 530 | 531 | 532 | 533 | 534 => cases_41 cs c
  | 535 | 536 | 537 | 538 | 539 => cases_42 cs c
  | 540 | 541 | 260 | 261 | 262 | 263 | 264 | 265 => cases_43 cs c
  | 266 | 267 | 268 | 269 | 270 | 271 | 272 | 273 | 274 | 275 | 276 => cases_44 cs c
  | 277 | 278 | 279 | 280 | 281 | 282 | 283 | 284 | 285 | 286 | 287 => cases_45 cs c
  | 288 | 289 | 290 | 291 | 292 | 293 | 294 | 295 | 296 | 297 | 298 | 299 | 300 | 301 | 302
    | 303 => cases_46 cs c
  | 304 | 305 | 306 | 307 | 308 | 309 | 310 | 311 | 312 | 313 | 314 | 315 | 316 | 317 | 318
    | 319 => cases_47 cs c
  | 320 | 321 | 322 | 323 | 324 | 325 | 326 | 327 | 328 | 329 => cases_48 cs c
  | 330 | 331 | 332 | 333 | 334 | 335 | 336 | 337 | 338 => cases_49 cs c
  | 339 | 340 | 341 | 342 | 343 | 344 | 345 | 346 | 347 | 348 => cases_50 cs c
  | 349 | 350 | 351 | 352 | 353 | 354 | 355 | 356 | 357 | 358 | 359 | 360 => cases_51 cs c
  | 361 | 362 | 363 | 364 | 365 | 366 | 367 | 368 | 369 | 370 | 371 => cases_52 cs c
  | 372 | 373 | 374 | 375 | 376 | 377 | 378 | 379 | 380 | 381 => cases_53 cs c
  | 382 | 383 | 384 | 385 | 386 | 387 | 388 | 389 | 390 | 391 => cases_54 cs c
  | 392 | 393 | 394 | 395 | 396 | 397 | 398 | 399 | 400 | 401 => cases_55 cs c
  | 402 | 403 | 404 | 405 | 406 | 407 | 408 | 409 => cases_56 cs c
  | 410 | 411 | 412 | 413 | 414 | 415 | 416 | 417 => cases_57 cs c
  | 418 | 419 | 420 | 421 | 422 | 423 | 424 | 425 => cases_58 cs c
  | 426 | 427 | 428 | 429 | 430 | 431 | 432 | 433 => cases_59 cs c
  | 434 | 435 | 436 | 437 | 438 | 439 | 440 | 441 => cases_60 cs c
  | 442 | 443 | 444 | 445 | 446 | 447 | 448 | 449 | 450 => cases_61 cs c
  | 542 | 543 | 544 | 545 | 546 => cases_62 cs c
  | 547 | 548 | 549 | 550 | 551 | 552 => cases_63 cs c
  | 553 | 554 | 555 | 556 | 557 => cases_64 cs c
  | 558 | 559 | 560 => cases_65 cs c
  | _ => St 0
  end.

Definition trans (t : Z) : list uri_action * Z :=
  match t with
  | 467 | 469 | 474 | 485 | 489 | 493 | 548 | 559 => trans_1 t
  | 563 | 566 | 570 | 462 | 463 => trans_2 t
  | 476 | 486 | 490 | 494 | 482 | 488 | 492 | 496 | 556 => trans_3 t
  | 562 | 565 | 569 | 573 | 466 | 468 => trans_4 t
  | 472 => trans_5 t
  | 507 | 487 | 491 => trans_6 t
  | 473 | 475 | 481 | 499 => trans_7 t
  | 38 | 483 | 501 | 502 => trans_8 t
  | 503 => trans_9 t
  | 504 | 506 => trans_11 t
  | 505 | 484 => trans_12 t
  | 500 | 477 => trans_31 t
  | 478 => trans_33 t
  | 480 | 479 | 461 => trans_34 t
  | 543 | 546 => trans_35 t
  | 550 | 567 | 560 | 571 => trans_36 t
  | 584 | 561 | 568 => trans_37 t
  | 547 | 549 | 555 | 576 => trans_38 t
  | 263 | 557 | 578 | 579 => trans_39 t
  | 580 => trans_40 t
  | 581 | 583 => trans_42 t
  | 582 | 558 => trans_43 t
  | 577 | 551 => trans_62 t
  | 552 => trans_64 t
  | 554 | 553 => trans_65 t
  | _ => ([], 0)
  end.

(** What one character does in state [cs]: the actions, and the next state. *)
Definition step (cs c : Z) : list uri_action * Z :=
  match jump cs c with St n => ([], n) | Tr t => trans t end.

(** The actions at the end of the text ([p == eof]). *)
Definition eof_actions (cs : Z) : list uri_action :=
  match cs with
  | 462 | 489 => [save_port]
  | 460 | 463 | 464 | 465 | 466 | 467 | 470 | 471 | 472 | 473 | 474 | 475 | 476 | 477 | 478
    | 479 | 480 | 481 | 482 | 483 | 484 | 485 | 486 | 487 | 488 | 490 | 491 | 492 | 493
    | 494 | 495 | 496 | 497 | 498 | 499 | 500 | 501 | 502 | 503 | 504 | 505 | 506 | 507 => [save_host]
  | 513 => [save_path]
  | 457 => [save_query]
  | 454 => [save_fragment]
  | 456 => [marku; save_query]
  | 453 => [marku; save_fragment]
  | 461 | 468 => [markh; save_port]
  | 459 | 469 => [markh; save_host]
  | 514 | 521 => [markh; save_port; save_path]
  | 511 | 522 => [markh; save_host; save_path]
  | 515 | 542 => [save_port; markh; save_path]
  | 512 | 516 | 517 | 518 | 519 | 520 | 523 | 524 | 525 | 526 | 527 | 528 | 529 | 530 | 531
    | 532 | 533 | 534 | 535 | 536 | 537 | 538 | 539 | 540 | 541 | 543 | 544 | 545 | 546
    | 547 | 548 | 549 | 550 | 551 | 552 | 553 | 554 | 555 | 556 | 557 | 558 | 559 | 560 => [save_host; markh; save_path]
  | _ => []
  end.
