(* ===== verification/Uri.v ===== *)
(** * Uniform resource identifiers (sylar/uri.h, sylar/uri.rl, sylar/http/uri.rl.cc)

    [Uri::Create] runs the machine of [UriMachine] over a text. Positions are offsets from the
    start of the text; [mark] is [None] where the code has a null pointer, and a string that is
    made from a null [mark] is [Undef]. The build generates its parser from uri.rl; the file that is
    checked in, uri.rl.cc, was generated from a version of it with another printer. *)

From S2P Require Import Prelude CString Address UriMachine.

Module Uri.

Record t := mk {
  m_scheme : list byte; m_userinfo : list byte; m_host : list byte; m_path : list byte;
  m_query : list byte; m_fragment : list byte; m_port : Z }.

Definition make : t := mk [] [] [] [] [] [] 0.
Definition setScheme (v : list byte) (u : t) : t :=
  mk v (m_userinfo u) (m_host u) (m_path u) (m_query u) (m_fragment u) (m_port u).
Definition setUserinfo (v : list byte) (u : t) : t :=
  mk (m_scheme u) v (m_host u) (m_path u) (m_query u) (m_fragment u) (m_port u).
Definition setHost (v : list byte) (u : t) : t :=
  mk (m_scheme u) (m_userinfo u) v (m_path u) (m_query u) (m_fragment u) (m_port u).
Definition setPath (v : list byte) (u : t) : t :=
  mk (m_scheme u) (m_userinfo u) (m_host u) v (m_query u) (m_fragment u) (m_port u).
Definition setQuery (v : list byte) (u : t) : t :=
  mk (m_scheme u) (m_userinfo u) (m_host u) (m_path u) v (m_fragment u) (m_port u).
Definition setFragment (v : list byte) (u : t) : t :=
  mk (m_scheme u) (m_userinfo u) (m_host u) (m_path u) (m_query u) v (m_port u).
Definition setPort (v : Z) (u : t) : t :=
  mk (m_scheme u) (m_userinfo u) (m_host u) (m_path u) (m_query u) (m_fragment u) v.

(** ** The parser *)

(** [std::string(mark, p - mark)]. *)
Definition string_from (text : list byte) (mark : option nat) (p : nat) : outcome (list byte) :=
  match mark with
  | Some m => if (m <=? p)%nat then Ret (text.[m, p - m]) else Undef
  | None => Undef
  end.

Definition run_action (text : list byte) (p : nat) (a : uri_action) (st : t * option nat)
  : outcome (t * option nat) :=
  let '(uri, mark) := st in
  match a with
  | marku | markh => Ret (uri, Some p)
  | save_scheme => s ← string_from text mark p; Ret (setScheme s uri, None)
  | save_port =>
      if bool_decide (mark = Some p) then Ret (uri, None)
      else match mark with
           | Some m => Ret (setPort (atoi (drop m text)) uri, None)
           | None => Undef
           end
  | save_userinfo =>
      match mark with
      | Some _ => s ← string_from text mark p; Ret (setUserinfo s uri, None)
      | None => Ret (uri, None)
      end
  | save_host =>
      match mark with
      | Some _ => s ← string_from text mark p; Ret (setHost s uri, mark)
      | None => Ret (uri, mark)
      end
  | save_path => s ← string_from text mark p; Ret (setPath s uri, None)
  | save_query => s ← string_from text mark p; Ret (setQuery s uri, None)
  | save_fragment => s ← string_from text mark p; Ret (setFragment s uri, None)
  end.

Fixpoint run_actions (text : list byte) (p : nat) (acts : list uri_action) (st : t * option nat)
  : outcome (t * option nat) :=
  match acts with
  | [] => Ret st
  | a :: acts => st ← run_action text p a st; run_actions text p acts st
  end.

Definition uri_parser_start : Z := 451.
Definition uri_parser_first_final : Z := 451.
Definition uri_parser_error : Z := 0.

(** The machine from [case cs] on; [rest] is the text from [p] on. The error state leaves at
    once; at [p == pe] the actions of the end of the text run. *)
Fixpoint exec (text rest : list byte) (p : nat) (cs : Z) (st : t * option nat)
  : outcome (t * Z) :=
  match rest with
  | [] => st ← run_actions text p (eof_actions cs) st; Ret (st.1, cs)
  | c :: rest =>
      let '(acts, cs) := step cs (char_of c) in
      st ← run_actions text p acts st;
      if cs =? uri_parser_error then Ret (st.1, cs) else exec text rest (S p) cs st
  end.

Definition Create (uristr : list byte) : outcome (option t) :=
  '(uri, cs) ← exec uristr uristr 0 uri_parser_start (make, None);
  Ret (if cs =? uri_parser_error then None
       else if uri_parser_first_final <=? cs then Some uri else None).

(** ** Accessors and printing *)

Definition isDefaultPort (u : t) : bool :=
  if m_port u =? 0 then true
  else if bool_decide (m_scheme u = lit "http") || bool_decide (m_scheme u = lit "ws")
  then m_port u =? 80
  else if bool_decide (m_scheme u = lit "https") || bool_decide (m_scheme u = lit "wss")
  then m_port u =? 443
  else false.

Definition getPath (u : t) : list byte := match m_path u with [] => lit "/" | _ => m_path u end.

Definition getPort (u : t) : Z :=
  if negb (m_port u =? 0) then m_port u
  else if bool_decide (m_scheme u = lit "http") || bool_decide (m_scheme u = lit "ws") then 80
  else if bool_decide (m_scheme u = lit "https") || bool_decide (m_scheme u = lit "wss") then 443
  else m_port u.

(** [std::to_string] of an [int32_t]. *)
Definition to_string (z : Z) : list byte := if z <? 0 then lit "-" ++ dec (- z) else dec z.

Definition suffix (c : list byte) (s : list byte) : list byte :=
  match s with [] => [] | _ => c ++ s end.

Definition endl : list byte := [x0a].

(** The printer of sylar/uri.rl, which the build makes its parser from: it breaks the line four times. *)
Definition dump (u : t) : list byte :=
  m_scheme u ++ lit "://" ++ m_userinfo u ++ endl ++ (match m_userinfo u with [] => [] | _ => lit "@" end)
  ++ m_host u ++ endl ++ (if isDefaultPort u then [] else lit ":" ++ to_string (m_port u))
  ++ getPath u ++ endl ++ suffix (lit "?") (m_query u) ++ endl ++ suffix (lit "#") (m_fragment u).

(** The printer of the generated file that is checked in, sylar/http/uri.rl.cc, which does not. *)
Definition dump_rl_cc (u : t) : list byte :=
  m_scheme u ++ lit "://" ++ m_userinfo u ++ (match m_userinfo u with [] => [] | _ => lit "@" end)
  ++ m_host u ++ (if isDefaultPort u then [] else lit ":" ++ to_string (m_port u))
  ++ getPath u ++ suffix (lit "?") (m_query u) ++ suffix (lit "#") (m_fragment u).

Definition toString (u : t) : list byte := dump u.

(** [createAddress]: the defaults of [LookupAnyIPAddress] are [AF_UNSPEC], 0, 0. *)
Definition createAddress (getaddrinfo : list byte → option (list byte) → Z → Z → Z →
    option (list (option (list byte) * Z))) (u : t) : outcome (option Address.t) :=
  addr ← Address.LookupAnyIPAddress getaddrinfo (m_host u) AF_UNSPEC 0 0 : outcome (option Address.t);
  Ret (option_map (Address.setPort (u16 (getPort u))) addr).

End Uri.
