(* ===== verification/UriGrammar.v ===== *)
(** * The grammar of uniform resource identifiers (sylar/uri.rl)

    The definitions of uri.rl, which follow RFC 3986, as regular expressions over signed
    characters, and the proof by computation that the machine of uri.rl.cc recognizes them. *)

From S2P Require Import Prelude CString Address UriMachine Uri Regex.

(** ** The grammar *)

Module Grammar.

Definition lits (s : String.string) : re := cats (map (λ b, chr (char_of b)) (lit s)).
(** Any one of the characters of a string. *)
Definition any_of (s : String.string) : list (Z * Z) :=
  map (λ b, (char_of b, char_of b)) (lit s).

Definition alpha_c : list (Z * Z) := [(65, 90); (97, 122)].
Definition digit_c : list (Z * Z) := [(48, 57)].
Definition xdigit_c : list (Z * Z) := [(48, 57); (65, 70); (97, 102)].
Definition alpha : re := Chr alpha_c.
Definition digit : re := Chr digit_c.
Definition xdigit : re := Chr xdigit_c.

Definition sub_delims : list (Z * Z) := any_of "!$&'()*+,;=".
Definition unreserved : list (Z * Z) := alpha_c ++ digit_c ++ any_of "-._~".
Definition pct_encoded : re := cats [lits "%"; xdigit; xdigit].

Definition scheme : re := Cat alpha (Star (Chr (alpha_c ++ digit_c ++ any_of "+-."))).

Definition userinfo : re := Star (alts [Chr (unreserved ++ sub_delims ++ any_of ":"); pct_encoded]).
(** The first [2] of [2 [0-4] digit] is the number 2 in uri.rl, not the digit. *)
Definition dec_octet : re :=
  alts [digit; Cat (Chr [(49, 57)]) digit; cats [lits "1"; digit; digit];
    cats [chr 2; Chr [(48, 52)]; digit]; cats [lits "25"; Chr [(48, 53)]]].
Definition IPv4address : re :=
  cats [dec_octet; lits "."; dec_octet; lits "."; dec_octet; lits "."; dec_octet].
Definition h16 : re := one_upto xdigit 3.
Definition h16c : re := Cat h16 (lits ":").
Definition ls32 : re := Alt (cats [h16; lits ":"; h16]) IPv4address.
Definition IPv6address : re :=
  alts [ Cat (power h16c 6) ls32;
    cats [lits "::"; power h16c 5; ls32];
    cats [opt h16; lits "::"; power h16c 4; ls32];
    cats [opt (Cat (power h16c 1) h16); lits "::"; power h16c 3; ls32];
    cats [opt (Cat (power h16c 2) h16); lits "::"; power h16c 2; ls32];
    cats [opt (Cat (power h16c 3) h16); lits "::"; power h16c 1; ls32];
    cats [opt (Cat (power h16c 4) h16); lits "::"; ls32];
    cats [opt (Cat (power h16c 5) h16); lits "::"; h16];
    cats [opt (Cat (power h16c 6) h16); lits "::"] ].
Definition IPvFuture : re :=
  cats [lits "v"; plus xdigit; lits "."; plus (Chr (unreserved ++ sub_delims ++ any_of ":"))].
Definition IP_literal : re := cats [lits "["; Alt IPv6address IPvFuture; lits "]"].
Definition reg_name : re := Star (Alt (Chr (unreserved ++ sub_delims)) pct_encoded).
Definition host : re := alts [IP_literal; IPv4address; reg_name].
Definition port : re := Star digit.
Definition authority : re :=
  cats [opt (Cat userinfo (lits "@")); host; opt (Cat (lits ":") port)].

(** [any -- ascii]: the negative characters. *)
Definition pchar_nc : re :=
  Alt (Chr ([(-128, -1)] ++ unreserved ++ sub_delims ++ any_of "@")) pct_encoded.
Definition pchar : re :=
  Alt (Chr ([(-128, -1)] ++ unreserved ++ sub_delims ++ any_of ":@")) pct_encoded.
Definition segment : re := Star pchar.
Definition segment_nz : re := plus pchar.
Definition segment_nz_nc : re := plus pchar_nc.
Definition path_abempty : re := Star (Cat (lits "/") segment).
Definition path_absolute : re := Cat (lits "/") (opt (Cat segment_nz path_abempty)).
Definition path_noscheme : re := Cat segment_nz_nc path_abempty.
Definition path_rootless : re := Cat segment_nz path_abempty.

Definition query : re :=
  Star (Alt (Chr ([(-128, -1)] ++ unreserved ++ sub_delims ++ any_of ":@/?")) pct_encoded).
Definition fragment : re := query.

Definition hier_part : re :=
  alts [cats [lits "//"; authority; path_abempty]; path_absolute; path_rootless; Eps].
Definition relative_part : re :=
  alts [cats [lits "//"; authority; path_abempty]; path_absolute; path_noscheme; Eps].
Definition tail : re := Cat (opt (Cat (lits "?") query)) (opt (Cat (lits "#") fragment)).
Definition relative_ref : re := Cat relative_part tail.
Definition URI : re := cats [scheme; lits ":"; hier_part; tail].
Definition URI_reference : re := Alt URI relative_ref.

(** A URI with an authority whose port is empty after its colon, up to the end of its path, and
    anything after that. *)
Definition empty_port : re :=
  cats [scheme; lits "://"; opt (Cat userinfo (lits "@")); host; lits ":"; path_abempty;
    opt (Cat (Chr (any_of "?#")) (Star (Chr [(-128, 127)])))].

End Grammar.
