(* ===== verification/UriSpec.v ===== *)
(** * What the URI machine recognizes

    The machine of uri.rl.cc against the grammar of uri.rl, by the bisimulation check of [Regex]:
    once for the texts that end in a final state, and once for the texts that make the actions
    use a null [mark]. The second machine keeps, next to the state, whether [mark] is set. *)

From S2P Require Import Prelude CString Address Ragel UriMachine Uri Regex UriGrammar.
Import Uri.

#[export] Instance action_eq_dec : EqDecision uri_action.
Proof. solve_decision. Defined.

(** ** Characters *)

(** Characters that neither the machine nor the grammar tells apart, with one of them. *)
Definition alike : list (list (Z * Z) * Z) :=
  [([(-128, -1)], -128); ([(2, 2)], 2); ([(35, 35)], 35); ([(37, 37)], 37);
   ([(43, 43); (45, 45)], 43); ([(46, 46)], 46); ([(47, 47)], 47); ([(48, 48)], 48);
   ([(49, 49)], 49); ([(50, 50)], 50); ([(51, 52)], 51); ([(53, 53)], 53); ([(54, 57)], 54);
   ([(58, 58)], 58); ([(63, 63)], 63); ([(64, 64)], 64); ([(118, 118)], 118);
   ([(65, 70); (97, 102)], 65); ([(71, 90); (103, 122)], 71); ([(91, 91)], 91); ([(93, 93)], 93);
   (Grammar.sub_delims ++ Grammar.unreserved, 33)].
Definition rep (c : Z) : Z :=
  match find (λ '(cls, _), in_class cls c) alike with Some (_, r) => r | None => 0 end.
Definition reps : list Z := 0 :: map snd alike.

(** ** The two machines *)

Definition next_cs (cs c : Z) : Z := (step cs c).2.
Definition final_cs (cs : Z) : bool := uri_parser_first_final <=? cs.

Definition mark_after (a : uri_action) (m : bool) : option bool :=
  match a with
  | marku | markh => Some true
  | save_scheme | save_path | save_query | save_fragment | save_port =>
      if m then Some false else None
  | save_userinfo => Some false
  | save_host => Some m
  end.
Fixpoint marks (acts : list uri_action) (m : bool) : option bool :=
  match acts with
  | [] => Some m
  | a :: acts => match mark_after a m with Some m => marks acts m | None => None end
  end.

(** State [cs] with or without a [mark]; [-1] is where a null [mark] was used. *)
Definition code (cs : Z) (m : bool) : Z := if cs =? 0 then 0 else 2 * cs + Z.b2z m.
Definition crash_next (s c : Z) : Z :=
  if s =? -1 then -1
  else
    let '(acts, cs) := step (s / 2) c in
    match marks acts (Z.odd s) with None => -1 | Some m => code cs m end.
Definition crashes (s : Z) : bool :=
  if s =? -1 then true
  else match marks (eof_actions (s / 2)) (Z.odd s) with None => true | Some _ => false end.

Lemma grammar_bisimilar :
  bisimilar next_cs final_cs chars reps rep uri_parser_start Grammar.URI_reference = true.
Proof. vm_cast_no_check (eq_refl true). Qed.

Lemma crash_bisimilar :
  bisimilar crash_next crashes chars reps rep (code uri_parser_start false) Grammar.empty_port = true.
Proof. vm_cast_no_check (eq_refl true). Qed.

Definition states : list Z := map Z.of_nat (seq 0 561).
Lemma states_range cs : cs ∈ states ↔ 0 <= cs <= 560.
Proof.
  unfold states. rewrite list_elem_of_fmap. setoid_rewrite elem_of_seq. split.
  - intros (n & -> & Hn). lia.
  - intros H. exists (Z.to_nat cs). lia.
Qed.

Lemma steps_closed :
  every (λ cs, every (λ c, let n := next_cs cs c in if 0 <=? n then n <=? 560 else false) chars) states = true.
Proof. vm_cast_no_check (eq_refl true). Qed.

Lemma step_range cs b : 0 <= cs <= 560 → 0 <= next_cs cs (char_of b) <= 560.
Proof.
  intros Hcs%states_range. pose proof steps_closed as H.
  rewrite every_iff in H. specialize (H cs Hcs). cbv beta in H.
  rewrite every_iff in H. specialize (H _ (char_of_chars b)). cbv beta zeta in H.
  destruct (0 <=? _) eqn:E; [|done]. lia.
Qed.

(** ** The program and the machines *)

Definition marked (mark : option nat) : bool := match mark with Some _ => true | None => false end.
Definition mark_ok (mark : option nat) (p : nat) : Prop :=
  match mark with Some m => (m <= p)%nat | None => True end.

Lemma string_from_ok text m p : (m <= p)%nat → string_from text (Some m) p = Ret (text.[m, p - m]).
Proof. intros H. simpl. by rewrite (proj2 (Nat.leb_le m p) H). Qed.

Lemma run_action_marks text p a uri mark :
  mark_ok mark p →
  match mark_after a (marked mark) with
  | None => run_action text p a (uri, mark) = Undef
  | Some b => ∃ uri' mark', run_action text p a (uri, mark) = Ret (uri', mark')
      ∧ marked mark' = b ∧ mark_ok mark' p
  end.
Proof.
  intros Hm. destruct a, mark as [m|]; cbn [mark_after marked run_action] in *;
    rewrite ?(string_from_ok _ _ _ Hm), ?bind_Ret; try case_bool_decide; try done; eauto 8.
  all: eexists _, _; split; [done|]; simpl; auto.
Qed.

Lemma run_actions_marks text p acts uri mark :
  mark_ok mark p →
  match marks acts (marked mark) with
  | None => run_actions text p acts (uri, mark) = Undef
  | Some b => ∃ uri' mark', run_actions text p acts (uri, mark) = Ret (uri', mark')
      ∧ marked mark' = b ∧ mark_ok mark' p
  end.
Proof.
  revert uri mark. induction acts as [|a acts IH]; intros uri mark Hm; cbn [marks run_actions].
  { eauto. }
  pose proof (run_action_marks text p a uri mark Hm) as Ha.
  destruct (mark_after a (marked mark)) as [b|]; [|by rewrite Ha].
  destruct Ha as (uri' & mark' & -> & <- & Hm'). rewrite bind_Ret. apply (IH _ _ Hm').
Qed.

Lemma code_half cs m : 0 < cs → (code cs m =? -1) = false ∧ code cs m / 2 = cs ∧ Z.odd (code cs m) = m.
Proof.
  intros H. unfold code. rewrite (proj2 (Z.eqb_neq cs 0)) by lia. split_and!.
  - apply Z.eqb_neq. destruct m; cbn [Z.b2z]; lia.
  - rewrite Z.mul_comm, Z.add_comm, Z.div_add by lia. by destruct m.
  - rewrite Z.add_comm, Z.odd_add_mul_2. by destruct m.
Qed.

Lemma crashed_stays w : fold_left crash_next w (-1) = -1.
Proof. by induction w. Qed.
Lemma error_stays w : fold_left next_cs w 0 = 0 ∧ fold_left crash_next w 0 = 0.
Proof. by induction w. Qed.

Lemma exec_error text rest p uri mark : exec text rest p 0 (uri, mark) = Ret (uri, 0).
Proof. by destruct rest. Qed.

Definition exec_as (text rest : list byte) (p : nat) (cs : Z) (uri : t) (mark : option nat) : Prop :=
  if crashes (fold_left crash_next (signed rest) (code cs (marked mark)))
  then exec text rest p cs (uri, mark) = Undef
  else ∃ uri', exec text rest p cs (uri, mark) = Ret (uri', fold_left next_cs (signed rest) cs).

Lemma exec_as_error text rest p uri mark : exec_as text rest p 0 uri mark.
Proof.
  unfold exec_as. rewrite exec_error. change (code 0 (marked mark)) with 0.
  destruct (error_stays (signed rest)) as [-> ->]. simpl. eauto.
Qed.

(** From [case cs] on: undefined exactly where the second machine says so, and otherwise it ends
    in the state of the first. *)
Lemma exec_spec text rest p cs uri mark :
  0 <= cs <= 560 → mark_ok mark p → exec_as text rest p cs uri mark.
Proof.
  revert p cs uri mark. induction rest as [|b rest IH]; intros p cs uri mark Hcs Hm;
    (destruct (decide (cs = 0)) as [->|Hne]; [apply exec_as_error|]);
    destruct (code_half cs (marked mark) ltac:(lia)) as (E1 & E2 & E3); unfold exec_as.
  - cbn [signed map fold_left exec]. unfold crashes. rewrite E1, E2, E3.
    pose proof (run_actions_marks text p (eof_actions cs) uri mark Hm) as Ha.
    destruct (marks _ _); [|by rewrite Ha].
    destruct Ha as (uri' & mark' & -> & _). rewrite bind_Ret. eauto.
  - pose proof (step_range cs b Hcs) as Hn. cbn [signed map fold_left exec].
    assert (crash_next (code cs (marked mark)) (char_of b) =
      match marks (step cs (char_of b)).1 (marked mark) with
      | None => -1 | Some m => code (next_cs cs (char_of b)) m end) as ->.
    { unfold crash_next, next_cs. rewrite E1, E2, E3. by destruct (step cs (char_of b)). }
    unfold next_cs in *. destruct (step cs (char_of b)) as [acts cs']. cbn [fst snd] in *.
    pose proof (run_actions_marks text p acts uri mark Hm) as Ha.
    destruct (marks acts (marked mark)) as [m|]; [|rewrite Ha; unfold signed; by rewrite crashed_stays].
    destruct Ha as (uri' & mark' & -> & <- & Hm'). rewrite bind_Ret. cbn [fst].
    assert (mark_ok mark' (S p)) as Hm2 by (destruct mark'; simpl in *; lia).
    specialize (IH (S p) cs' uri' mark' Hn Hm2). unfold exec_as, uri_parser_error, signed in *.
    destruct (cs' =? 0) eqn:E0; [|done]. apply Z.eqb_eq in E0 as ->. by rewrite exec_error in IH.
Qed.

Lemma Create_spec text :
  if crashes (fold_left crash_next (signed text) (code uri_parser_start false))
  then Create text = Undef
  else ∃ uri, Create text
         = Ret (if final_cs (fold_left next_cs (signed text) uri_parser_start) then Some uri else None).
Proof.
  pose proof (exec_spec text text 0 uri_parser_start make None ltac:(done) I) as H.
  unfold exec_as in H. unfold Create. cbn [marked] in H. destruct (crashes _); [by rewrite H|].
  destruct H as (uri & ->). exists uri. rewrite bind_Ret. cbv beta iota. f_equal.
  unfold final_cs, uri_parser_error. destruct (_ =? 0) eqn:E; [|done].
  apply Z.eqb_eq in E as ->. done.
Qed.

Lemma accepts_spec text :
  final_cs (fold_left next_cs (signed text) uri_parser_start) = true
  ↔ matches Grammar.URI_reference (signed text).
Proof. apply (bisimilar_lang _ _ _ _ _ _ _ _ grammar_bisimilar), signed_chars. Qed.

Lemma crashes_spec text :
  crashes (fold_left crash_next (signed text) (code uri_parser_start false)) = true
  ↔ matches Grammar.empty_port (signed text).
Proof. apply (bisimilar_lang _ _ _ _ _ _ _ _ crash_bisimilar), signed_chars. Qed.
