(* ===== verification/ClientMachine.v ===== *)
(** * The machine of the response parser (sylar/http/httpclient_parser.c)

    The goto-coded machine: [cases_k] are the [switch] blocks of the states in one stretch of the
    file, in the order of the file, and [trans_k] the blocks of its [tr] labels: the actions they
    run and the state they go to. [jump] and [trans] put the stretches together. The actions have
    their names in httpclient_parser.rl. Characters are signed. *)

From S2P Require Import Prelude Ragel.

Module ClientMachine.

Inductive client_action :=
  | a_mark | a_start_field | a_write_field | a_start_value | a_write_content_len
  | a_write_connection_close | a_write_value | a_reason_phrase | a_status_code | a_http_version
  | a_chunk_size | a_trans_chunked | a_done.

Definition trans_1 (t : Z) : list client_action * Z :=
  match t with
  | 0 => ([a_mark], 2)
  | 3 => ([a_chunk_size; a_done], 120)
  | 7 => ([a_done], 120)
  | 9 => ([a_write_field; a_start_value; a_write_value; a_done], 120)
  | 15 => ([a_write_value; a_done], 120)
  | 74 => ([a_write_connection_close; a_done], 120)
  | 4 => ([a_chunk_size], 3)
  | _ => ([], 0)
  end.

Definition cases_1 (cs c : Z) : label :=
  match cs with
  | 1 =>
      if c =? 72 then Tr 2
      else if c <? 65 then if (48 <=? c) && (c <=? 57) then Tr 0 else St 0
      else if 70 <? c then if (97 <=? c) && (c <=? 102) then Tr 0 else St 0 else Tr 0
  | 2 =>
      switch c [(10, Tr 3); (13, Tr 4); (59, Tr 6)]
        (if c <? 65 then if (48 <=? c) && (c <=? 57) then St 2 else St 0
         else if 70 <? c then if (97 <=? c) && (c <=? 102) then St 2 else St 0 else St 2)
  | 120 => St 0
  | _ => St 0
  end.

Definition trans_2 (t : Z) : list client_action * Z :=
  match t with
  | 10 => ([a_write_field; a_start_value; a_write_value], 3)
  | 16 => ([a_write_value], 3)
  | 75 => ([a_write_connection_close], 3)
  | 6 => ([a_chunk_size], 4)
  | 12 => ([a_write_field; a_start_value; a_write_value], 4)
  | 18 => ([a_write_value], 4)
  | 8 => ([a_start_field], 5)
  | 13 => ([a_write_field; a_start_value], 6)
  | _ => ([], 0)
  end.

Definition cases_2 (cs c : Z) : label :=
  match cs with
  | 3 => if c =? 10 then Tr 7 else St 0
  | 4 =>
      switch c [(33, Tr 8); (124, Tr 8); (126, Tr 8)]
        (if c <? 45 then
           if 39 <? c then if (42 <=? c) && (c <=? 43) then Tr 8 else St 0
           else if 35 <=? c then Tr 8 else St 0
         else if 46 <? c then
           if c <? 65 then if (48 <=? c) && (c <=? 57) then Tr 8 else St 0
           else if 90 <? c then if (94 <=? c) && (c <=? 122) then Tr 8 else St 0 else Tr 8
         else Tr 8)
  | 5 =>
      switch c [(10, Tr 9); (13, Tr 10); (33, St 5); (59, Tr 12); (61, Tr 13); (124, St 5);
        (126, St 5)]
        (if c <? 45 then
           if 39 <? c then if (42 <=? c) && (c <=? 43) then St 5 else St 0
           else if 35 <=? c then St 5 else St 0
         else if 46 <? c then
           if c <? 65 then if (48 <=? c) && (c <=? 57) then St 5 else St 0
           else if 90 <? c then if (94 <=? c) && (c <=? 122) then St 5 else St 0 else St 5
         else St 5)
  | 6 =>
      switch c [(33, Tr 14); (124, Tr 14); (126, Tr 14)]
        (if c <? 45 then
           if 39 <? c then if (42 <=? c) && (c <=? 43) then Tr 14 else St 0
           else if 35 <=? c then Tr 14 else St 0
         else if 46 <? c then
           if c <? 65 then if (48 <=? c) && (c <=? 57) then Tr 14 else St 0
           else if 90 <? c then if (94 <=? c) && (c <=? 122) then Tr 14 else St 0 else Tr 14
         else Tr 14)
  | _ => St 0
  end.

Definition trans_3 (t : Z) : list client_action * Z :=
  match t with
  | 14 => ([a_start_value], 7)
  | 2 => ([a_mark], 8)
  | 26 => ([a_http_version], 16)
  | 27 => ([a_mark], 17)
  | 28 => ([a_status_code], 18)
  | _ => ([], 0)
  end.

Definition cases_3 (cs c : Z) : label :=
  match cs with
  | 7 =>
      switch c [(10, Tr 15); (13, Tr 16); (33, St 7); (59, Tr 18); (124, St 7); (126, St 7)]
        (if c <? 45 then
           if 39 <? c then if (42 <=? c) && (c <=? 43) then St 7 else St 0
           else if 35 <=? c then St 7 else St 0
         else if 46 <? c then
           if c <? 65 then if (48 <=? c) && (c <=? 57) then St 7 else St 0
           else if 90 <? c then if (94 <=? c) && (c <=? 122) then St 7 else St 0 else St 7
         else St 7)
  | 8 => if c =? 84 then St 9 else St 0
  | 9 => if c =? 84 then St 10 else St 0
  | 10 => if c =? 80 then St 11 else St 0
  | 11 => if c =? 47 then St 12 else St 0
  | 12 => if (48 <=? c) && (c <=? 57) then St 13 else St 0
  | 13 => if c =? 46 then St 14 else if (48 <=? c) && (c <=? 57) then St 13 else St 0
  | 14 => if (48 <=? c) && (c <=? 57) then St 15 else St 0
  | 15 => if c =? 32 then Tr 26 else if (48 <=? c) && (c <=? 57) then St 15 else St 0
  | 16 => if (48 <=? c) && (c <=? 57) then Tr 27 else St 0
  | 17 => if c =? 32 then Tr 28 else if (48 <=? c) && (c <=? 57) then St 17 else St 0
  | 18 => if c =? 10 then St 0 else Tr 30
  | _ => St 0
  end.

Definition trans_4 (t : Z) : list client_action * Z :=
  match t with
  | 30 => ([a_mark], 19)
  | 45 => ([a_write_value], 20)
  | 32 => ([a_reason_phrase], 20)
  | 42 => ([a_start_value; a_write_value], 20)
  | 111 => ([a_write_value; a_trans_chunked], 20)
  | 113 => ([a_trans_chunked], 20)
  | 158 => ([a_write_content_len; a_write_value], 20)
  | 35 => ([a_start_field], 21)
  | 76 => ([a_write_connection_close; a_start_field], 21)
  | 41 => ([a_start_value], 22)
  | _ => ([], 0)
  end.

Definition cases_4 (cs c : Z) : label :=
  match cs with
  | 19 =>
      switch c [(10, Tr 32); (13, Tr 33)]
        (St 19)
  | 20 =>
      switch c [(10, Tr 7); (13, St 3); (33, Tr 35); (67, Tr 36); (84, Tr 37); (99, Tr 36);
        (116, Tr 37); (124, Tr 35); (126, Tr 35)]
        (if c <? 45 then
           if 39 <? c then if (42 <=? c) && (c <=? 43) then Tr 35 else St 0
           else if 35 <=? c then Tr 35 else St 0
         else if 46 <? c then
           if c <? 65 then if (48 <=? c) && (c <=? 57) then Tr 35 else St 0
           else if 90 <? c then if (94 <=? c) && (c <=? 122) then Tr 35 else St 0 else Tr 35
         else Tr 35)
  | 21 =>
      switch c [(33, St 21); (58, Tr 39); (124, St 21); (126, St 21)]
        (if c <? 45 then
           if 39 <? c then if (42 <=? c) && (c <=? 43) then St 21 else St 0
           else if 35 <=? c then St 21 else St 0
         else if 46 <? c then
           if c <? 65 then if (48 <=? c) && (c <=? 57) then St 21 else St 0
           else if 90 <? c then if (94 <=? c) && (c <=? 122) then St 21 else St 0 else St 21
         else St 21)
  | _ => St 0
  end.

Definition trans_5 (t : Z) : list client_action * Z :=
  match t with
  | 39 => ([a_write_field], 22)
  | 40 => ([a_start_value], 23)
  | 46 => ([a_write_value], 24)
  | 33 => ([a_reason_phrase], 24)
  | 43 => ([a_start_value; a_write_value], 24)
  | 159 => ([a_write_content_len; a_write_value], 24)
  | 36 => ([a_start_field], 25)
  | 77 => ([a_write_connection_close; a_start_field], 25)
  | _ => ([], 0)
  end.

Definition cases_5 (cs c : Z) : label :=
  match cs with
  | 22 =>
      switch c [(10, Tr 42); (13, Tr 43); (32, Tr 41)]
        (if (9 <=? c) && (c <=? 12) then Tr 41 else Tr 40)
  | 23 =>
      switch c [(10, Tr 45); (13, Tr 46)]
        (St 23)
  | 24 => if c =? 10 then St 20 else St 0
  | 25 =>
      switch c [(33, St 21); (58, Tr 39); (79, St 26); (111, St 26); (124, St 21); (126, St 21)]
        (if c <? 45 then
           if 39 <? c then if (42 <=? c) && (c <=? 43) then St 21 else St 0
           else if 35 <=? c then St 21 else St 0
         else if 46 <? c then
           if c <? 65 then if (48 <=? c) && (c <=? 57) then St 21 else St 0
           else if 90 <? c then if (94 <=? c) && (c <=? 122) then St 21 else St 0 else St 21
         else St 21)
  | 26 =>
      switch c [(33, St 21); (58, Tr 39); (78, St 27); (110, St 27); (124, St 21); (126, St 21)]
        (if c <? 45 then
           if 39 <? c then if (42 <=? c) && (c <=? 43) then St 21 else St 0
           else if 35 <=? c then St 21 else St 0
         else if 46 <? c then
           if c <? 65 then if (48 <=? c) && (c <=? 57) then St 21 else St 0
           else if 90 <? c then if (94 <=? c) && (c <=? 122) then St 21 else St 0 else St 21
         else St 21)
  | _ => St 0
  end.

Definition cases_6 (cs c : Z) : label :=
  match cs with
  | 27 =>
      switch c [(33, St 21); (58, Tr 39); (78, St 28); (84, St 101); (110, St 28); (116, St 101);
        (124, St 21); (126, St 21)]
        (if c <? 45 then
           if 39 <? c then if (42 <=? c) && (c <=? 43) then St 21 else St 0
           else if 35 <=? c then St 21 else St 0
         else if 46 <? c then
           if c <? 65 then if (48 <=? c) && (c <=? 57) then St 21 else St 0
           else if 90 <? c then if (94 <=? c) && (c <=? 122) then St 21 else St 0 else St 21
         else St 21)
  | 28 =>
      switch c [(33, St 21); (58, Tr 39); (69, St 29); (101, St 29); (124, St 21); (126, St 21)]
        (if c <? 45 then
           if 39 <? c then if (42 <=? c) && (c <=? 43) then St 21 else St 0
           else if 35 <=? c then St 21 else St 0
         else if 46 <? c then
           if c <? 65 then if (48 <=? c) && (c <=? 57) then St 21 else St 0
           else if 90 <? c then if (94 <=? c) && (c <=? 122) then St 21 else St 0 else St 21
         else St 21)
  | 29 =>
      switch c [(33, St 21); (58, Tr 39); (67, St 30); (99, St 30); (124, St 21); (126, St 21)]
        (if c <? 45 then
           if 39 <? c then if (42 <=? c) && (c <=? 43) then St 21 else St 0
           else if 35 <=? c then St 21 else St 0
         else if 46 <? c then
           if c <? 65 then if (48 <=? c) && (c <=? 57) then St 21 else St 0
           else if 90 <? c then if (94 <=? c) && (c <=? 122) then St 21 else St 0 else St 21
         else St 21)
  | 30 =>
      switch c [(33, St 21); (58, Tr 39); (84, St 31); (116, St 31); (124, St 21); (126, St 21)]
        (if c <? 45 then
           if 39 <? c then if (42 <=? c) && (c <=? 43) then St 21 else St 0
           else if 35 <=? c then St 21 else St 0
         else if 46 <? c then
           if c <? 65 then if (48 <=? c) && (c <=? 57) then St 21 else St 0
           else if 90 <? c then if (94 <=? c) && (c <=? 122) then St 21 else St 0 else St 21
         else St 21)
  | 31 =>
      switch c [(33, St 21); (58, Tr 39); (73, St 32); (105, St 32); (124, St 21); (126, St 21)]
        (if c <? 45 then
           if 39 <? c then if (42 <=? c) && (c <=? 43) then St 21 else St 0
           else if 35 <=? c then St 21 else St 0
         else if 46 <? c then
           if c <? 65 then if (48 <=? c) && (c <=? 57) then St 21 else St 0
           else if 90 <? c then if (94 <=? c) && (c <=? 122) then St 21 else St 0 else St 21
         else St 21)
  | _ => St 0
  end.

Definition trans_7 (t : Z) : list client_action * Z :=
  match t with
  | 59 => ([a_start_value], 35)
  | 58 => ([a_write_field], 35)
  | 60 => ([a_start_value; a_write_value], 36)
  | _ => ([], 0)
  end.

Definition cases_7 (cs c : Z) : label :=
  match cs with
  | 32 =>
      switch c [(33, St 21); (58, Tr 39); (79, St 33); (111, St 33); (124, St 21); (126, St 21)]
        (if c <? 45 then
           if 39 <? c then if (42 <=? c) && (c <=? 43) then St 21 else St 0
           else if 35 <=? c then St 21 else St 0
         else if 46 <? c then
           if c <? 65 then if (48 <=? c) && (c <=? 57) then St 21 else St 0
           else if 90 <? c then if (94 <=? c) && (c <=? 122) then St 21 else St 0 else St 21
         else St 21)
  | 33 =>
      switch c [(33, St 21); (58, Tr 39); (78, St 34); (110, St 34); (124, St 21); (126, St 21)]
        (if c <? 45 then
           if 39 <? c then if (42 <=? c) && (c <=? 43) then St 21 else St 0
           else if 35 <=? c then St 21 else St 0
         else if 46 <? c then
           if c <? 65 then if (48 <=? c) && (c <=? 57) then St 21 else St 0
           else if 90 <? c then if (94 <=? c) && (c <=? 122) then St 21 else St 0 else St 21
         else St 21)
  | 34 =>
      switch c [(33, St 21); (58, Tr 58); (124, St 21); (126, St 21)]
        (if c <? 45 then
           if 39 <? c then if (42 <=? c) && (c <=? 43) then St 21 else St 0
           else if 35 <=? c then St 21 else St 0
         else if 46 <? c then
           if c <? 65 then if (48 <=? c) && (c <=? 57) then St 21 else St 0
           else if 90 <? c then if (94 <=? c) && (c <=? 122) then St 21 else St 0 else St 21
         else St 21)
  | 35 =>
      switch c [(10, Tr 60); (13, Tr 61); (32, Tr 59); (67, Tr 62); (99, Tr 62)]
        (if (9 <=? c) && (c <=? 12) then Tr 59 else Tr 40)
  | 36 =>
      switch c [(10, Tr 64); (13, St 89); (32, St 37); (33, Tr 35); (67, Tr 66); (84, Tr 37);
        (99, Tr 66); (116, Tr 37); (124, Tr 35); (126, Tr 35)]
        (if c <? 45 then
           if c <? 35 then if (9 <=? c) && (c <=? 12) then St 37 else St 0
           else if 39 <? c then if (42 <=? c) && (c <=? 43) then Tr 35 else St 0 else Tr 35
         else if 46 <? c then
           if c <? 65 then if (48 <=? c) && (c <=? 57) then Tr 35 else St 0
           else if 90 <? c then if (94 <=? c) && (c <=? 122) then Tr 35 else St 0 else Tr 35
         else Tr 35)
  | _ => St 0
  end.

Definition trans_8 (t : Z) : list client_action * Z :=
  match t with
  | 136 => ([a_write_value], 43)
  | 37 => ([a_start_field], 44)
  | 78 => ([a_write_connection_close; a_start_field], 44)
  | _ => ([], 0)
  end.

Definition cases_8 (cs c : Z) : label :=
  match cs with
  | 37 =>
      switch c [(32, St 37); (67, St 38); (99, St 38)]
        (if (9 <=? c) && (c <=? 13) then St 37 else St 0)
  | 38 =>
      switch c [(76, St 39); (108, St 39)]
        (St 0)
  | 39 =>
      switch c [(79, St 40); (111, St 40)]
        (St 0)
  | 40 =>
      switch c [(83, St 41); (115, St 41)]
        (St 0)
  | 41 =>
      switch c [(69, St 42); (101, St 42)]
        (St 0)
  | 42 =>
      switch c [(10, St 43); (13, St 88)]
        (St 0)
  | 43 =>
      switch c [(10, Tr 74); (13, Tr 75); (33, Tr 76); (67, Tr 77); (84, Tr 78); (99, Tr 77);
        (116, Tr 78); (124, Tr 76); (126, Tr 76)]
        (if c <? 45 then
           if 39 <? c then if (42 <=? c) && (c <=? 43) then Tr 76 else St 0
           else if 35 <=? c then Tr 76 else St 0
         else if 46 <? c then
           if c <? 65 then if (48 <=? c) && (c <=? 57) then Tr 76 else St 0
           else if 90 <? c then if (94 <=? c) && (c <=? 122) then Tr 76 else St 0 else Tr 76
         else Tr 76)
  | 44 =>
      switch c [(33, St 21); (58, Tr 39); (82, St 45); (114, St 45); (124, St 21); (126, St 21)]
        (if c <? 45 then
           if 39 <? c then if (42 <=? c) && (c <=? 43) then St 21 else St 0
           else if 35 <=? c then St 21 else St 0
         else if 46 <? c then
           if c <? 65 then if (48 <=? c) && (c <=? 57) then St 21 else St 0
           else if 90 <? c then if (94 <=? c) && (c <=? 122) then St 21 else St 0 else St 21
         else St 21)
  | 45 =>
      switch c [(33, St 21); (58, Tr 39); (65, St 46); (97, St 46); (124, St 21); (126, St 21)]
        (if c <? 45 then
           if 39 <? c then if (42 <=? c) && (c <=? 43) then St 21 else St 0
           else if 35 <=? c then St 21 else St 0
         else if 46 <? c then
           if c <? 66 then if (48 <=? c) && (c <=? 57) then St 21 else St 0
           else if 90 <? c then if (94 <=? c) && (c <=? 122) then St 21 else St 0 else St 21
         else St 21)
  | _ => St 0
  end.

Definition cases_9 (cs c : Z) : label :=
  match cs with
  | 46 =>
      switch c [(33, St 21); (58, Tr 39); (78, St 47); (110, St 47); (124, St 21); (126, St 21)]
        (if c <? 45 then
           if 39 <? c then if (42 <=? c) && (c <=? 43) then St 21 else St 0
           else if 35 <=? c then St 21 else St 0
         else if 46 <? c then
           if c <? 65 then if (48 <=? c) && (c <=? 57) then St 21 else St 0
           else if 90 <? c then if (94 <=? c) && (c <=? 122) then St 21 else St 0 else St 21
         else St 21)
  | 47 =>
      switch c [(33, St 21); (58, Tr 39); (83, St 48); (115, St 48); (124, St 21); (126, St 21)]
        (if c <? 45 then
           if 39 <? c then if (42 <=? c) && (c <=? 43) then St 21 else St 0
           else if 35 <=? c then St 21 else St 0
         else if 46 <? c then
           if c <? 65 then if (48 <=? c) && (c <=? 57) then St 21 else St 0
           else if 90 <? c then if (94 <=? c) && (c <=? 122) then St 21 else St 0 else St 21
         else St 21)
  | 48 =>
      switch c [(33, St 21); (58, Tr 39); (70, St 49); (102, St 49); (124, St 21); (126, St 21)]
        (if c <? 45 then
           if 39 <? c then if (42 <=? c) && (c <=? 43) then St 21 else St 0
           else if 35 <=? c then St 21 else St 0
         else if 46 <? c then
           if c <? 65 then if (48 <=? c) && (c <=? 57) then St 21 else St 0
           else if 90 <? c then if (94 <=? c) && (c <=? 122) then St 21 else St 0 else St 21
         else St 21)
  | 49 =>
      switch c [(33, St 21); (58, Tr 39); (69, St 50); (101, St 50); (124, St 21); (126, St 21)]
        (if c <? 45 then
           if 39 <? c then if (42 <=? c) && (c <=? 43) then St 21 else St 0
           else if 35 <=? c then St 21 else St 0
         else if 46 <? c then
           if c <? 65 then if (48 <=? c) && (c <=? 57) then St 21 else St 0
           else if 90 <? c then if (94 <=? c) && (c <=? 122) then St 21 else St 0 else St 21
         else St 21)
  | 50 =>
      switch c [(33, St 21); (58, Tr 39); (82, St 51); (114, St 51); (124, St 21); (126, St 21)]
        (if c <? 45 then
           if 39 <? c then if (42 <=? c) && (c <=? 43) then St 21 else St 0
           else if 35 <=? c then St 21 else St 0
         else if 46 <? c then
           if c <? 65 then if (48 <=? c) && (c <=? 57) then St 21 else St 0
           else if 90 <? c then if (94 <=? c) && (c <=? 122) then St 21 else St 0 else St 21
         else St 21)
  | _ => St 0
  end.

Definition cases_10 (cs c : Z) : label :=
  match cs with
  | 51 =>
      switch c [(33, St 21); (45, St 52); (46, St 21); (58, Tr 39); (124, St 21); (126, St 21)]
        (if c <? 48 then
           if 39 <? c then if (42 <=? c) && (c <=? 43) then St 21 else St 0
           else if 35 <=? c then St 21 else St 0
         else if 57 <? c then
           if 90 <? c then if (94 <=? c) && (c <=? 122) then St 21 else St 0
           else if 65 <=? c then St 21 else St 0
         else St 21)
  | 52 =>
      switch c [(33, St 21); (58, Tr 39); (69, St 53); (101, St 53); (124, St 21); (126, St 21)]
        (if c <? 45 then
           if 39 <? c then if (42 <=? c) && (c <=? 43) then St 21 else St 0
           else if 35 <=? c then St 21 else St 0
         else if 46 <? c then
           if c <? 65 then if (48 <=? c) && (c <=? 57) then St 21 else St 0
           else if 90 <? c then if (94 <=? c) && (c <=? 122) then St 21 else St 0 else St 21
         else St 21)
  | 53 =>
      switch c [(33, St 21); (58, Tr 39); (78, St 54); (110, St 54); (124, St 21); (126, St 21)]
        (if c <? 45 then
           if 39 <? c then if (42 <=? c) && (c <=? 43) then St 21 else St 0
           else if 35 <=? c then St 21 else St 0
         else if 46 <? c then
           if c <? 65 then if (48 <=? c) && (c <=? 57) then St 21 else St 0
           else if 90 <? c then if (94 <=? c) && (c <=? 122) then St 21 else St 0 else St 21
         else St 21)
  | 54 =>
      switch c [(33, St 21); (58, Tr 39); (67, St 55); (99, St 55); (124, St 21); (126, St 21)]
        (if c <? 45 then
           if 39 <? c then if (42 <=? c) && (c <=? 43) then St 21 else St 0
           else if 35 <=? c then St 21 else St 0
         else if 46 <? c then
           if c <? 65 then if (48 <=? c) && (c <=? 57) then St 21 else St 0
           else if 90 <? c then if (94 <=? c) && (c <=? 122) then St 21 else St 0 else St 21
         else St 21)
  | 55 =>
      switch c [(33, St 21); (58, Tr 39); (79, St 56); (111, St 56); (124, St 21); (126, St 21)]
        (if c <? 45 then
           if 39 <? c then if (42 <=? c) && (c <=? 43) then St 21 else St 0
           else if 35 <=? c then St 21 else St 0
         else if 46 <? c then
           if c <? 65 then if (48 <=? c) && (c <=? 57) then St 21 else St 0
           else if 90 <? c then if (94 <=? c) && (c <=? 122) then St 21 else St 0 else St 21
         else St 21)
  | _ => St 0
  end.

Definition cases_11 (cs c : Z) : label :=
  match cs with
  | 56 =>
      switch c [(33, St 21); (58, Tr 39); (68, St 57); (100, St 57); (124, St 21); (126, St 21)]
        (if c <? 45 then
           if 39 <? c then if (42 <=? c) && (c <=? 43) then St 21 else St 0
           else if 35 <=? c then St 21 else St 0
         else if 46 <? c then
           if c <? 65 then if (48 <=? c) && (c <=? 57) then St 21 else St 0
           else if 90 <? c then if (94 <=? c) && (c <=? 122) then St 21 else St 0 else St 21
         else St 21)
  | 57 =>
      switch c [(33, St 21); (58, Tr 39); (73, St 58); (105, St 58); (124, St 21); (126, St 21)]
        (if c <? 45 then
           if 39 <? c then if (42 <=? c) && (c <=? 43) then St 21 else St 0
           else if 35 <=? c then St 21 else St 0
         else if 46 <? c then
           if c <? 65 then if (48 <=? c) && (c <=? 57) then St 21 else St 0
           else if 90 <? c then if (94 <=? c) && (c <=? 122) then St 21 else St 0 else St 21
         else St 21)
  | 58 =>
      switch c [(33, St 21); (58, Tr 39); (78, St 59); (110, St 59); (124, St 21); (126, St 21)]
        (if c <? 45 then
           if 39 <? c then if (42 <=? c) && (c <=? 43) then St 21 else St 0
           else if 35 <=? c then St 21 else St 0
         else if 46 <? c then
           if c <? 65 then if (48 <=? c) && (c <=? 57) then St 21 else St 0
           else if 90 <? c then if (94 <=? c) && (c <=? 122) then St 21 else St 0 else St 21
         else St 21)
  | 59 =>
      switch c [(33, St 21); (58, Tr 39); (71, St 60); (103, St 60); (124, St 21); (126, St 21)]
        (if c <? 45 then
           if 39 <? c then if (42 <=? c) && (c <=? 43) then St 21 else St 0
           else if 35 <=? c then St 21 else St 0
         else if 46 <? c then
           if c <? 65 then if (48 <=? c) && (c <=? 57) then St 21 else St 0
           else if 90 <? c then if (94 <=? c) && (c <=? 122) then St 21 else St 0 else St 21
         else St 21)
  | 60 =>
      switch c [(33, St 21); (58, Tr 95); (124, St 21); (126, St 21)]
        (if c <? 45 then
           if 39 <? c then if (42 <=? c) && (c <=? 43) then St 21 else St 0
           else if 35 <=? c then St 21 else St 0
         else if 46 <? c then
           if c <? 65 then if (48 <=? c) && (c <=? 57) then St 21 else St 0
           else if 90 <? c then if (94 <=? c) && (c <=? 122) then St 21 else St 0 else St 21
         else St 21)
  | _ => St 0
  end.

Definition trans_12 (t : Z) : list client_action * Z :=
  match t with
  | 96 => ([a_start_value], 61)
  | 95 => ([a_write_field], 61)
  | 97 => ([a_start_value; a_write_value], 62)
  | 104 => ([a_start_value], 64)
  | _ => ([], 0)
  end.

Definition cases_12 (cs c : Z) : label :=
  match cs with
  | 61 =>
      switch c [(10, Tr 97); (13, Tr 98); (32, Tr 96); (67, Tr 99); (99, Tr 99)]
        (if (9 <=? c) && (c <=? 12) then Tr 96 else Tr 40)
  | 62 =>
      switch c [(10, Tr 101); (13, St 72); (32, St 63); (33, Tr 35); (67, Tr 103); (84, Tr 37);
        (99, Tr 103); (116, Tr 37); (124, Tr 35); (126, Tr 35)]
        (if c <? 45 then
           if c <? 35 then if (9 <=? c) && (c <=? 12) then St 63 else St 0
           else if 39 <? c then if (42 <=? c) && (c <=? 43) then Tr 35 else St 0 else Tr 35
         else if 46 <? c then
           if c <? 65 then if (48 <=? c) && (c <=? 57) then Tr 35 else St 0
           else if 90 <? c then if (94 <=? c) && (c <=? 122) then Tr 35 else St 0 else Tr 35
         else Tr 35)
  | 63 =>
      switch c [(32, St 63); (67, Tr 104); (99, Tr 104)]
        (if (9 <=? c) && (c <=? 13) then St 63 else St 0)
  | 64 =>
      switch c [(72, St 65); (104, St 65)]
        (St 0)
  | 65 =>
      switch c [(85, St 66); (117, St 66)]
        (St 0)
  | 66 =>
      switch c [(78, St 67); (110, St 67)]
        (St 0)
  | 67 =>
      switch c [(75, St 68); (107, St 68)]
        (St 0)
  | 68 =>
      switch c [(69, St 69); (101, St 69)]
        (St 0)
  | 69 =>
      switch c [(68, St 70); (100, St 70)]
        (St 0)
  | 70 =>
      switch c [(10, Tr 111); (13, Tr 112)]
        (St 0)
  | _ => St 0
  end.

Definition trans_13 (t : Z) : list client_action * Z :=
  match t with
  | 112 => ([a_write_value], 71)
  | 101 => ([a_done], 121)
  | 103 => ([a_start_value; a_start_field], 73)
  | _ => ([], 0)
  end.

Definition cases_13 (cs c : Z) : label :=
  match cs with
  | 71 => if c =? 10 then Tr 113 else St 0
  | 121 =>
      switch c [(32, St 63); (67, Tr 104); (99, Tr 104)]
        (if (9 <=? c) && (c <=? 13) then St 63 else St 0)
  | 72 =>
      switch c [(10, Tr 101); (32, St 63); (67, Tr 104); (99, Tr 104)]
        (if (9 <=? c) && (c <=? 13) then St 63 else St 0)
  | 73 =>
      switch c [(33, St 21); (58, Tr 39); (72, St 74); (79, St 26); (104, St 74); (111, St 26);
        (124, St 21); (126, St 21)]
        (if c <? 45 then
           if 39 <? c then if (42 <=? c) && (c <=? 43) then St 21 else St 0
           else if 35 <=? c then St 21 else St 0
         else if 46 <? c then
           if c <? 65 then if (48 <=? c) && (c <=? 57) then St 21 else St 0
           else if 90 <? c then if (94 <=? c) && (c <=? 122) then St 21 else St 0 else St 21
         else St 21)
  | 74 =>
      switch c [(33, St 21); (58, Tr 39); (85, St 75); (117, St 75); (124, St 21); (126, St 21)]
        (if c <? 45 then
           if 39 <? c then if (42 <=? c) && (c <=? 43) then St 21 else St 0
           else if 35 <=? c then St 21 else St 0
         else if 46 <? c then
           if c <? 65 then if (48 <=? c) && (c <=? 57) then St 21 else St 0
           else if 90 <? c then if (94 <=? c) && (c <=? 122) then St 21 else St 0 else St 21
         else St 21)
  | 75 =>
      switch c [(33, St 21); (58, Tr 39); (78, St 76); (110, St 76); (124, St 21); (126, St 21)]
        (if c <? 45 then
           if 39 <? c then if (42 <=? c) && (c <=? 43) then St 21 else St 0
           else if 35 <=? c then St 21 else St 0
         else if 46 <? c then
           if c <? 65 then if (48 <=? c) && (c <=? 57) then St 21 else St 0
           else if 90 <? c then if (94 <=? c) && (c <=? 122) then St 21 else St 0 else St 21
         else St 21)
  | _ => St 0
  end.

Definition trans_14 (t : Z) : list client_action * Z :=
  match t with
  | 98 => ([a_start_value; a_write_value], 80)
  | 99 => ([a_start_value], 81)
  | _ => ([], 0)
  end.

Definition cases_14 (cs c : Z) : label :=
  match cs with
  | 76 =>
      switch c [(33, St 21); (58, Tr 39); (75, St 77); (107, St 77); (124, St 21); (126, St 21)]
        (if c <? 45 then
           if 39 <? c then if (42 <=? c) && (c <=? 43) then St 21 else St 0
           else if 35 <=? c then St 21 else St 0
         else if 46 <? c then
           if c <? 65 then if (48 <=? c) && (c <=? 57) then St 21 else St 0
           else if 90 <? c then if (94 <=? c) && (c <=? 122) then St 21 else St 0 else St 21
         else St 21)
  | 77 =>
      switch c [(33, St 21); (58, Tr 39); (69, St 78); (101, St 78); (124, St 21); (126, St 21)]
        (if c <? 45 then
           if 39 <? c then if (42 <=? c) && (c <=? 43) then St 21 else St 0
           else if 35 <=? c then St 21 else St 0
         else if 46 <? c then
           if c <? 65 then if (48 <=? c) && (c <=? 57) then St 21 else St 0
           else if 90 <? c then if (94 <=? c) && (c <=? 122) then St 21 else St 0 else St 21
         else St 21)
  | 78 =>
      switch c [(33, St 21); (58, Tr 39); (68, St 79); (100, St 79); (124, St 21); (126, St 21)]
        (if c <? 45 then
           if 39 <? c then if (42 <=? c) && (c <=? 43) then St 21 else St 0
           else if 35 <=? c then St 21 else St 0
         else if 46 <? c then
           if c <? 65 then if (48 <=? c) && (c <=? 57) then St 21 else St 0
           else if 90 <? c then if (94 <=? c) && (c <=? 122) then St 21 else St 0 else St 21
         else St 21)
  | 79 =>
      switch c [(10, Tr 111); (13, Tr 112); (33, St 21); (58, Tr 39); (124, St 21); (126, St 21)]
        (if c <? 45 then
           if 39 <? c then if (42 <=? c) && (c <=? 43) then St 21 else St 0
           else if 35 <=? c then St 21 else St 0
         else if 46 <? c then
           if c <? 65 then if (48 <=? c) && (c <=? 57) then St 21 else St 0
           else if 90 <? c then if (94 <=? c) && (c <=? 122) then St 21 else St 0 else St 21
         else St 21)
  | 80 =>
      switch c [(10, St 62); (32, St 63); (67, Tr 104); (99, Tr 104)]
        (if (9 <=? c) && (c <=? 13) then St 63 else St 0)
  | _ => St 0
  end.

Definition trans_15 (t : Z) : list client_action * Z :=
  match t with
  | 137 => ([a_write_value], 88)
  | 64 => ([a_done], 122)
  | 66 => ([a_start_field], 90)
  | _ => ([], 0)
  end.

Definition cases_15 (cs c : Z) : label :=
  match cs with
  | 81 =>
      switch c [(10, Tr 45); (13, Tr 46); (72, St 82); (104, St 82)]
        (St 23)
  | 82 =>
      switch c [(10, Tr 45); (13, Tr 46); (85, St 83); (117, St 83)]
        (St 23)
  | 83 =>
      switch c [(10, Tr 45); (13, Tr 46); (78, St 84); (110, St 84)]
        (St 23)
  | 84 =>
      switch c [(10, Tr 45); (13, Tr 46); (75, St 85); (107, St 85)]
        (St 23)
  | 85 =>
      switch c [(10, Tr 45); (13, Tr 46); (69, St 86); (101, St 86)]
        (St 23)
  | 86 =>
      switch c [(10, Tr 45); (13, Tr 46); (68, St 87); (100, St 87)]
        (St 23)
  | 87 =>
      switch c [(10, Tr 111); (13, Tr 112)]
        (St 23)
  | 88 => if c =? 10 then St 43 else St 0
  | 122 =>
      switch c [(32, St 37); (67, St 38); (99, St 38)]
        (if (9 <=? c) && (c <=? 13) then St 37 else St 0)
  | 89 =>
      switch c [(10, Tr 64); (32, St 37); (67, St 38); (99, St 38)]
        (if (9 <=? c) && (c <=? 13) then St 37 else St 0)
  | 90 =>
      switch c [(33, St 21); (58, Tr 39); (76, St 91); (79, St 26); (108, St 91); (111, St 26);
        (124, St 21); (126, St 21)]
        (if c <? 45 then
           if 39 <? c then if (42 <=? c) && (c <=? 43) then St 21 else St 0
           else if 35 <=? c then St 21 else St 0
         else if 46 <? c then
           if c <? 65 then if (48 <=? c) && (c <=? 57) then St 21 else St 0
           else if 90 <? c then if (94 <=? c) && (c <=? 122) then St 21 else St 0 else St 21
         else St 21)
  | _ => St 0
  end.

Definition trans_16 (t : Z) : list client_action * Z :=
  match t with
  | 61 => ([a_start_value; a_write_value], 95)
  | 62 => ([a_start_value], 96)
  | _ => ([], 0)
  end.

Definition cases_16 (cs c : Z) : label :=
  match cs with
  | 91 =>
      switch c [(33, St 21); (58, Tr 39); (79, St 92); (111, St 92); (124, St 21); (126, St 21)]
        (if c <? 45 then
           if 39 <? c then if (42 <=? c) && (c <=? 43) then St 21 else St 0
           else if 35 <=? c then St 21 else St 0
         else if 46 <? c then
           if c <? 65 then if (48 <=? c) && (c <=? 57) then St 21 else St 0
           else if 90 <? c then if (94 <=? c) && (c <=? 122) then St 21 else St 0 else St 21
         else St 21)
  | 92 =>
      switch c [(33, St 21); (58, Tr 39); (83, St 93); (115, St 93); (124, St 21); (126, St 21)]
        (if c <? 45 then
           if 39 <? c then if (42 <=? c) && (c <=? 43) then St 21 else St 0
           else if 35 <=? c then St 21 else St 0
         else if 46 <? c then
           if c <? 65 then if (48 <=? c) && (c <=? 57) then St 21 else St 0
           else if 90 <? c then if (94 <=? c) && (c <=? 122) then St 21 else St 0 else St 21
         else St 21)
  | 93 =>
      switch c [(33, St 21); (58, Tr 39); (69, St 94); (101, St 94); (124, St 21); (126, St 21)]
        (if c <? 45 then
           if 39 <? c then if (42 <=? c) && (c <=? 43) then St 21 else St 0
           else if 35 <=? c then St 21 else St 0
         else if 46 <? c then
           if c <? 65 then if (48 <=? c) && (c <=? 57) then St 21 else St 0
           else if 90 <? c then if (94 <=? c) && (c <=? 122) then St 21 else St 0 else St 21
         else St 21)
  | 94 =>
      switch c [(10, St 43); (13, St 88); (33, St 21); (58, Tr 39); (124, St 21); (126, St 21)]
        (if c <? 45 then
           if 39 <? c then if (42 <=? c) && (c <=? 43) then St 21 else St 0
           else if 35 <=? c then St 21 else St 0
         else if 46 <? c then
           if c <? 65 then if (48 <=? c) && (c <=? 57) then St 21 else St 0
           else if 90 <? c then if (94 <=? c) && (c <=? 122) then St 21 else St 0 else St 21
         else St 21)
  | 95 =>
      switch c [(10, St 36); (32, St 37); (67, St 38); (99, St 38)]
        (if (9 <=? c) && (c <=? 13) then St 37 else St 0)
  | _ => St 0
  end.

Definition cases_17 (cs c : Z) : label :=
  match cs with
  | 96 =>
      switch c [(10, Tr 45); (13, Tr 46); (76, St 97); (108, St 97)]
        (St 23)
  | 97 =>
      switch c [(10, Tr 45); (13, Tr 46); (79, St 98); (111, St 98)]
        (St 23)
  | 98 =>
      switch c [(10, Tr 45); (13, Tr 46); (83, St 99); (115, St 99)]
        (St 23)
  | 99 =>
      switch c [(10, Tr 45); (13, Tr 46); (69, St 100); (101, St 100)]
        (St 23)
  | 100 =>
      switch c [(10, Tr 136); (13, Tr 137)]
        (St 23)
  | 101 =>
      switch c [(33, St 21); (58, Tr 39); (69, St 102); (101, St 102); (124, St 21); (126, St 21)]
        (if c <? 45 then
           if 39 <? c then if (42 <=? c) && (c <=? 43) then St 21 else St 0
           else if 35 <=? c then St 21 else St 0
         else if 46 <? c then
           if c <? 65 then if (48 <=? c) && (c <=? 57) then St 21 else St 0
           else if 90 <? c then if (94 <=? c) && (c <=? 122) then St 21 else St 0 else St 21
         else St 21)
  | 102 =>
      switch c [(33, St 21); (58, Tr 39); (78, St 103); (110, St 103); (124, St 21); (126, St 21)]
        (if c <? 45 then
           if 39 <? c then if (42 <=? c) && (c <=? 43) then St 21 else St 0
           else if 35 <=? c then St 21 else St 0
         else if 46 <? c then
           if c <? 65 then if (48 <=? c) && (c <=? 57) then St 21 else St 0
           else if 90 <? c then if (94 <=? c) && (c <=? 122) then St 21 else St 0 else St 21
         else St 21)
  | 103 =>
      switch c [(33, St 21); (58, Tr 39); (84, St 104); (116, St 104); (124, St 21); (126, St 21)]
        (if c <? 45 then
           if 39 <? c then if (42 <=? c) && (c <=? 43) then St 21 else St 0
           else if 35 <=? c then St 21 else St 0
         else if 46 <? c then
           if c <? 65 then if (48 <=? c) && (c <=? 57) then St 21 else St 0
           else if 90 <? c then if (94 <=? c) && (c <=? 122) then St 21 else St 0 else St 21
         else St 21)
  | 104 =>
      switch c [(33, St 21); (45, St 105); (46, St 21); (58, Tr 39); (124, St 21); (126, St 21)]
        (if c <? 48 then
           if 39 <? c then if (42 <=? c) && (c <=? 43) then St 21 else St 0
           else if 35 <=? c then St 21 else St 0
         else if 57 <? c then
           if 90 <? c then if (94 <=? c) && (c <=? 122) then St 21 else St 0
           else if 65 <=? c then St 21 else St 0
         else St 21)
  | _ => St 0
  end.

Definition cases_18 (cs c : Z) : label :=
  match cs with
  | 105 =>
      switch c [(33, St 21); (58, Tr 39); (76, St 106); (108, St 106); (124, St 21); (126, St 21)]
        (if c <? 45 then
           if 39 <? c then if (42 <=? c) && (c <=? 43) then St 21 else St 0
           else if 35 <=? c then St 21 else St 0
         else if 46 <? c then
           if c <? 65 then if (48 <=? c) && (c <=? 57) then St 21 else St 0
           else if 90 <? c then if (94 <=? c) && (c <=? 122) then St 21 else St 0 else St 21
         else St 21)
  | 106 =>
      switch c [(33, St 21); (58, Tr 39); (69, St 107); (101, St 107); (124, St 21); (126, St 21)]
        (if c <? 45 then
           if 39 <? c then if (42 <=? c) && (c <=? 43) then St 21 else St 0
           else if 35 <=? c then St 21 else St 0
         else if 46 <? c then
           if c <? 65 then if (48 <=? c) && (c <=? 57) then St 21 else St 0
           else if 90 <? c then if (94 <=? c) && (c <=? 122) then St 21 else St 0 else St 21
         else St 21)
  | 107 =>
      switch c [(33, St 21); (58, Tr 39); (78, St 108); (110, St 108); (124, St 21); (126, St 21)]
        (if c <? 45 then
           if 39 <? c then if (42 <=? c) && (c <=? 43) then St 21 else St 0
           else if 35 <=? c then St 21 else St 0
         else if 46 <? c then
           if c <? 65 then if (48 <=? c) && (c <=? 57) then St 21 else St 0
           else if 90 <? c then if (94 <=? c) && (c <=? 122) then St 21 else St 0 else St 21
         else St 21)
  | 108 =>
      switch c [(33, St 21); (58, Tr 39); (71, St 109); (103, St 109); (124, St 21); (126, St 21)]
        (if c <? 45 then
           if 39 <? c then if (42 <=? c) && (c <=? 43) then St 21 else St 0
           else if 35 <=? c then St 21 else St 0
         else if 46 <? c then
           if c <? 65 then if (48 <=? c) && (c <=? 57) then St 21 else St 0
           else if 90 <? c then if (94 <=? c) && (c <=? 122) then St 21 else St 0 else St 21
         else St 21)
  | 109 =>
      switch c [(33, St 21); (58, Tr 39); (84, St 110); (116, St 110); (124, St 21); (126, St 21)]
        (if c <? 45 then
           if 39 <? c then if (42 <=? c) && (c <=? 43) then St 21 else St 0
           else if 35 <=? c then St 21 else St 0
         else if 46 <? c then
           if c <? 65 then if (48 <=? c) && (c <=? 57) then St 21 else St 0
           else if 90 <? c then if (94 <=? c) && (c <=? 122) then St 21 else St 0 else St 21
         else St 21)
  | _ => St 0
  end.

Definition trans_19 (t : Z) : list client_action * Z :=
  match t with
  | 149 => ([a_start_value], 112)
  | 148 => ([a_write_field], 112)
  | 150 => ([a_start_value; a_write_value], 113)
  | 157 => ([a_start_value], 115)
  | _ => ([], 0)
  end.

Definition cases_19 (cs c : Z) : label :=
  match cs with
  | 110 =>
      switch c [(33, St 21); (58, Tr 39); (72, St 111); (104, St 111); (124, St 21); (126, St 21)]
        (if c <? 45 then
           if 39 <? c then if (42 <=? c) && (c <=? 43) then St 21 else St 0
           else if 35 <=? c then St 21 else St 0
         else if 46 <? c then
           if c <? 65 then if (48 <=? c) && (c <=? 57) then St 21 else St 0
           else if 90 <? c then if (94 <=? c) && (c <=? 122) then St 21 else St 0 else St 21
         else St 21)
  | 111 =>
      switch c [(33, St 21); (58, Tr 148); (124, St 21); (126, St 21)]
        (if c <? 45 then
           if 39 <? c then if (42 <=? c) && (c <=? 43) then St 21 else St 0
           else if 35 <=? c then St 21 else St 0
         else if 46 <? c then
           if c <? 65 then if (48 <=? c) && (c <=? 57) then St 21 else St 0
           else if 90 <? c then if (94 <=? c) && (c <=? 122) then St 21 else St 0 else St 21
         else St 21)
  | 112 =>
      switch c [(10, Tr 150); (13, Tr 151); (32, Tr 149)]
        (if 12 <? c then if (48 <=? c) && (c <=? 57) then Tr 152 else Tr 40
         else if 9 <=? c then Tr 149 else Tr 40)
  | 113 =>
      switch c [(10, Tr 154); (13, St 116); (32, St 114); (33, Tr 35); (67, Tr 36); (84, Tr 37);
        (99, Tr 36); (116, Tr 37); (124, Tr 35); (126, Tr 35)]
        (if c <? 45 then
           if c <? 35 then if (9 <=? c) && (c <=? 12) then St 114 else St 0
           else if 39 <? c then if (42 <=? c) && (c <=? 43) then Tr 35 else St 0 else Tr 35
         else if 46 <? c then
           if c <? 65 then if (48 <=? c) && (c <=? 57) then Tr 156 else St 0
           else if 90 <? c then if (94 <=? c) && (c <=? 122) then Tr 35 else St 0 else Tr 35
         else Tr 35)
  | 114 =>
      if c =? 32 then St 114
      else if 13 <? c then if (48 <=? c) && (c <=? 57) then Tr 157 else St 0
      else if 9 <=? c then St 114 else St 0
  | _ => St 0
  end.

Definition trans_20 (t : Z) : list client_action * Z :=
  match t with
  | 154 => ([a_done], 123)
  | 156 => ([a_start_value; a_start_field], 117)
  | 151 => ([a_start_value; a_write_value], 118)
  | 152 => ([a_start_value], 119)
  | _ => ([], 0)
  end.

Definition cases_20 (cs c : Z) : label :=
  match cs with
  | 115 =>
      switch c [(10, Tr 158); (13, Tr 159)]
        (if (48 <=? c) && (c <=? 57) then St 115 else St 0)
  | 123 =>
      if c =? 32 then St 114
      else if 13 <? c then if (48 <=? c) && (c <=? 57) then Tr 157 else St 0
      else if 9 <=? c then St 114 else St 0
  | 116 =>
      switch c [(10, Tr 154); (32, St 114)]
        (if 13 <? c then if (48 <=? c) && (c <=? 57) then Tr 157 else St 0
         else if 9 <=? c then St 114 else St 0)
  | 117 =>
      switch c [(10, Tr 158); (13, Tr 159); (33, St 21); (58, Tr 39); (124, St 21); (126, St 21)]
        (if c <? 45 then
           if 39 <? c then if (42 <=? c) && (c <=? 43) then St 21 else St 0
           else if 35 <=? c then St 21 else St 0
         else if 46 <? c then
           if c <? 65 then if (48 <=? c) && (c <=? 57) then St 117 else St 0
           else if 90 <? c then if (94 <=? c) && (c <=? 122) then St 21 else St 0 else St 21
         else St 21)
  | 118 =>
      switch c [(10, St 113); (32, St 114)]
        (if 13 <? c then if (48 <=? c) && (c <=? 57) then Tr 157 else St 0
         else if 9 <=? c then St 114 else St 0)
  | 119 =>
      switch c [(10, Tr 158); (13, Tr 159)]
        (if (48 <=? c) && (c <=? 57) then St 119 else St 23)
  | _ => St 0
  end.

(** [switch ( cs )]: the jump to the block of the state. *)
Definition jump (cs c : Z) : label :=
  match cs with
  | 1 | 2 | 120 => cases_1 cs c
  | 3 | 4 | 5 | 6 => cases_2 cs c
  | 7 | 8 | 9 | 10 | 11 | 12 | 13 | 14 | 15 | 16 | 17 | 18 => cases_3 cs c
  | 19 | 20 | 21 => cases_4 cs c
  | 22 | 23 | 24 | 25 | 26 => cases_5 cs c
  | 27 | 28 | 29 | 30 | 31 => cases_6 cs c
  | 32 | 33 | 34 | 35 | 36 => cases_7 cs c
  | 37 | 38 | 39 | 40 | 41 | 42 | 43 | 44 | 45 => cases_8 cs c
  | 46 | 47 | 48 | 49 | 50 => cases_9 cs c
  | 51 | 52 | 53 | 54 | 55 => cases_10 cs c
  | 56 | 57 | 58 | 59 | 60 => cases_11 cs c
  | 61 | 62 | 63 | 64 | 65 | 66 | 67 | 68 | 69 | 70 => cases_12 cs c
  | 71 | 121 | 72 | 73 | 74 | 75 => cases_13 cs c
  | 76 | 77 | 78 | 79 | 80 => cases_14 cs c
  | 81 | 82 | 83 | 84 | 85 | 86 | 87 | 88 | 122 | 89 | 90 => cases_15 cs c
  | 91 | 92 | 93 | 94 | 95 => cases_16 cs c
  | 96 | 97 | 98 | 99 | 100 | 101 | 102 | 103 | 104 => cases_17 cs c
  | 105 | 106 | 107 | 108 | 109 => cases_18 cs c
  | 110 | 111 | 112 | 113 | 114 => cases_19 cs c
  | 115 | 123 | 116 | 117 | 118 | 119 => cases_20 cs c
  | _ => St 0
  end.

Definition trans (t : Z) : list client_action * Z :=
  match t with
  | 0 | 3 | 7 | 9 | 15 | 74 | 4 => trans_1 t
  | 10 | 16 | 75 | 6 | 12 | 18 | 8 | 13 => trans_2 t
  | 14 | 2 | 26 | 27 | 28 => trans_3 t
  | 30 | 45 | 32 | 42 | 111 | 113 | 158 | 35 | 76 | 41 => trans_4 t
  | 39 | 40 | 46 | 33 | 43 | 159 | 36 | 77 => trans_5 t
  | 59 | 58 | 60 => trans_7 t
  | 136 | 37 | 78 => trans_8 t
  | 96 | 95 | 97 | 104 => trans_12 t
  | 112 | 101 | 103 => trans_13 t
  | 98 | 99 => trans_14 t
  | 137 | 64 | 66 => trans_15 t
  | 61 | 62 => trans_16 t
  | 149 | 148 | 150 | 157 => trans_19 t
  | 154 | 156 | 151 | 152 => trans_20 t
  | _ => ([], 0)
  end.

(** What one character does in state [cs]: the actions, and the next state. *)
Definition step (cs c : Z) : list client_action * Z :=
  match jump cs c with St n => ([], n) | Tr t => trans t end.

End ClientMachine.
