(* ===== verification/ClientGrammar.v ===== *)
(** * The grammar of responses (sylar/http/httpclient_parser.rl)

    The machine definition of httpclient_parser.rl as regular expressions over signed characters:
    [:>] ends its left side where the right side can begin, [--] takes out what contains a match
    of its right side. *)

From S2P Require Import Prelude CString Ragel Regex UriGrammar.

Module ResponseGrammar.
Import Grammar.

Definition CRLF : re := Alt (Cat (chr 13) (chr 10)) (chr 10).
Definition no_lf : list (Z * Z) := [(-128, 9); (11, 127)].
Definition no_crlf : list (Z * Z) := [(-128, 9); (11, 12); (14, 127)].
Definition space_c : list (Z * Z) := [(9, 13); (32, 32)].
(** [ascii -- (CTL | tspecials)]. *)
Definition token_c : list (Z * Z) :=
  [(33, 33); (35, 39); (42, 43); (45, 46); (48, 57); (65, 90); (94, 122); (124, 124); (126, 126)].
Definition token : re := Chr token_c.

(** [/s/i]. *)
Definition either_case (b : byte) : re :=
  let c := char_of b in
  if (97 <=? c) && (c <=? 122) then Chr [(c, c); (c - 32, c - 32)]
  else if (65 <=? c) && (c <=? 90) then Chr [(c, c); (c + 32, c + 32)]
  else chr c.
Definition any_case (s : String.string) : re := cats (map either_case (lit s)).

Definition Reason_Phrase : re := Cat (Chr no_lf) (Star (Chr no_crlf)).
Definition Status_Code : re := plus digit.
Definition http_number : re := cats [plus digit; lits "."; plus digit].
Definition HTTP_Version : re := Cat (lits "HTTP/") http_number.
Definition Status_Line : re :=
  cats [HTTP_Version; lits " "; Status_Code; lits " "; Reason_Phrase; CRLF].

Definition field_name : re := plus token.
Definition spaces : re := Star (Chr space_c).
Definition fields : re := cats [field_name; lits ":"; Star (Chr no_crlf); CRLF].
Definition content_length : re := cats [any_case "Content-Length"; lits ":"; spaces; plus digit; CRLF].
Definition conn_close : re := cats [any_case "Connection"; lits ":"; spaces; any_case "close"; CRLF].
Definition transfer_encoding_chunked : re :=
  cats [any_case "Transfer-Encoding"; lits ":"; spaces; any_case "chunked"; CRLF].
Definition message_header : re := alts [transfer_encoding_chunked; conn_close; content_length; fields].
Definition Response : re := cats [Status_Line; Star message_header; CRLF].

Definition chunk_extension : re :=
  Star (cats [lits ";"; plus token; opt (Cat (lits "=") (plus token))]).
Definition Chunked_Header : re := cats [plus xdigit; chunk_extension; CRLF].

Definition main : re := Alt Response Chunked_Header.

(** A response whose last header is one of three names without a value. *)
Definition space_not_crlf : list (Z * Z) := [(9, 9); (11, 12); (32, 32)].
Definition empty_special : re :=
  cats [Status_Line; Star message_header;
    alts [any_case "Connection"; any_case "Content-Length"; any_case "Transfer-Encoding"];
    lits ":"; Star (Chr space_not_crlf); CRLF; CRLF].

(** A response that announces chunks. *)
Definition chunked_response : re :=
  cats [Status_Line; Star message_header; transfer_encoding_chunked; Star message_header; CRLF].

End ResponseGrammar.
