(* ===== verification/HttpClientParser.v ===== *)
(** * The response parser (sylar/http/httpclient_parser.rl, httpclient_parser.c, httpclient_parser.h)

    [httpclient_parser_execute] as httpclient_parser.rl has it, around the machine of
    [ClientMachine]. Positions are offsets from [buffer]; the memory of the buffer goes on behind
    [len], and the actions that convert numbers read on there. The callbacks of the parser are
    functions on the user's data; they get the memory from the pointer on, and the length. *)

From S2P Require Import Prelude CString Ragel ClientMachine.
Import ClientMachine.

Module HttpClientParser.

Record httpclient_parser := mk_parser {
  cs : Z;
  body_start : Z;
  content_len : Z;
  status : Z;
  chunked : Z;
  chunks_done : Z;
  close : Z;
  nread : Z;
  mark : Z;
  field_start : Z;
  field_len : Z;
}.

Definition set_cs (v : Z) (p : httpclient_parser) : httpclient_parser :=
  mk_parser v (body_start p) (content_len p) (status p) (chunked p) (chunks_done p) (close p)
    (nread p) (mark p) (field_start p) (field_len p).
Definition set_body_start (v : Z) (p : httpclient_parser) : httpclient_parser :=
  mk_parser (cs p) v (content_len p) (status p) (chunked p) (chunks_done p) (close p)
    (nread p) (mark p) (field_start p) (field_len p).
Definition set_content_len (v : Z) (p : httpclient_parser) : httpclient_parser :=
  mk_parser (cs p) (body_start p) v (status p) (chunked p) (chunks_done p) (close p)
    (nread p) (mark p) (field_start p) (field_len p).
Definition set_status (v : Z) (p : httpclient_parser) : httpclient_parser :=
  mk_parser (cs p) (body_start p) (content_len p) v (chunked p) (chunks_done p) (close p)
    (nread p) (mark p) (field_start p) (field_len p).
Definition set_chunked (v : Z) (p : httpclient_parser) : httpclient_parser :=
  mk_parser (cs p) (body_start p) (content_len p) (status p) v (chunks_done p) (close p)
    (nread p) (mark p) (field_start p) (field_len p).
Definition set_chunks_done (v : Z) (p : httpclient_parser) : httpclient_parser :=
  mk_parser (cs p) (body_start p) (content_len p) (status p) (chunked p) v (close p)
    (nread p) (mark p) (field_start p) (field_len p).
Definition set_close (v : Z) (p : httpclient_parser) : httpclient_parser :=
  mk_parser (cs p) (body_start p) (content_len p) (status p) (chunked p) (chunks_done p) v
    (nread p) (mark p) (field_start p) (field_len p).
Definition set_nread (v : Z) (p : httpclient_parser) : httpclient_parser :=
  mk_parser (cs p) (body_start p) (content_len p) (status p) (chunked p) (chunks_done p) (close p)
    v (mark p) (field_start p) (field_len p).
Definition set_mark (v : Z) (p : httpclient_parser) : httpclient_parser :=
  mk_parser (cs p) (body_start p) (content_len p) (status p) (chunked p) (chunks_done p) (close p)
    (nread p) v (field_start p) (field_len p).
Definition set_field_start (v : Z) (p : httpclient_parser) : httpclient_parser :=
  mk_parser (cs p) (body_start p) (content_len p) (status p) (chunked p) (chunks_done p) (close p)
    (nread p) (mark p) v (field_len p).
Definition set_field_len (v : Z) (p : httpclient_parser) : httpclient_parser :=
  mk_parser (cs p) (body_start p) (content_len p) (status p) (chunked p) (chunks_done p) (close p)
    (nread p) (mark p) (field_start p) v.

Definition httpclient_parser_start : Z := 1.
Definition httpclient_parser_first_final : Z := 120.
Definition httpclient_parser_error : Z := 0.

(** It leaves [status] alone, which keeps what the memory held. *)
Definition httpclient_parser_init (p : httpclient_parser) : httpclient_parser :=
  mk_parser httpclient_parser_start 0 (-1) (status p) 0 0 0 0 0 0 0.

Definition httpclient_parser_has_error (p : httpclient_parser) : bool :=
  cs p =? httpclient_parser_error.
(** The first of the four final states, and no other. *)
Definition httpclient_parser_is_finished (p : httpclient_parser) : bool :=
  cs p =? httpclient_parser_first_final.
Definition httpclient_parser_finish (p : httpclient_parser) : Z :=
  if httpclient_parser_has_error p then -1
  else if httpclient_parser_is_finished p then 1 else 0.

Section execute.
Context {D : Type}.

(** [element_cb] and [field_cb]; a null pointer is [None]. *)
Definition element_cb : Type := option (D → list byte → Z → D).
Definition field_cb : Type := option (D → list byte → Z → list byte → Z → D).

Record callbacks := mk_callbacks {
  http_field : field_cb;
  reason_phrase : element_cb;
  status_code : element_cb;
  chunk_size : element_cb;
  http_version : element_cb;
  header_done : element_cb;
  last_chunk : element_cb;
}.

(** [buffer]: the memory from the pointer on; [len] characters of it are parsed. *)
Context (cb : callbacks) (buffer : list byte) (len : Z).

(** [PTR_TO(F)], and [LEN(AT, FPC)]. *)
Definition ptr_to (f : Z) : list byte := drop (Z.to_nat f) buffer.
Definition len_from (f p : Z) : Z := u64 (p - f).

Definition call (f : element_cb) (at_ len : Z) (d : D) : D :=
  match f with Some g => g d (ptr_to at_) len | None => d end.

(** One action at the position [p]; the flag says that it left the loop, behind this character. *)
Definition run_action (p : Z) (a : client_action) (s : httpclient_parser * D)
    : (httpclient_parser * D) * bool :=
  let '(h, d) := s in
  match a with
  | a_mark | a_start_value => ((set_mark p h, d), false)
  | a_start_field => ((set_field_start p h, d), false)
  | a_write_field => ((set_field_len (len_from (field_start h) p) h, d), false)
  | a_write_content_len =>
      ((set_content_len (s32 (strtol (ptr_to (mark h)) 10)) h, d), false)
  | a_write_connection_close => ((set_close 1 h, d), false)
  | a_write_value =>
      ((h, match http_field cb with
           | Some g => g d (ptr_to (field_start h)) (field_len h) (ptr_to (mark h))
                         (len_from (mark h) p)
           | None => d
           end), false)
  | a_reason_phrase => ((h, call (reason_phrase cb) (mark h) (len_from (mark h) p) d), false)
  | a_status_code =>
      ((set_status (s32 (strtol (ptr_to (mark h)) 10)) h,
        call (status_code cb) (mark h) (len_from (mark h) p) d), false)
  | a_http_version => ((h, call (http_version cb) (mark h) (len_from (mark h) p) d), false)
  | a_chunk_size =>
      let h := set_chunked 1 h in
      let h := set_content_len (s32 (strtol (ptr_to (mark h)) 16)) h in
      let h := set_chunks_done (if content_len h <=? 0 then 1 else 0) h in
      ((h, if negb (chunks_done h =? 0) && match last_chunk cb with Some _ => true | None => false end
           then call (last_chunk cb) (mark h) (len_from (mark h) p) d
           else call (chunk_size cb) (mark h) (len_from (mark h) p) d), false)
  | a_trans_chunked => ((set_chunked 1 h, d), false)
  | a_done =>
      ((set_body_start (p + 1) h, call (header_done cb) (p + 1) (len - p - 1) d), true)
  end.

Fixpoint run_actions (p : Z) (acts : list client_action) (s : httpclient_parser * D)
    : (httpclient_parser * D) * bool :=
  match acts with
  | [] => (s, false)
  | a :: acts =>
      let '(s, out) := run_action p a s in if out then (s, true) else run_actions p acts s
  end.

(** From [case cs] to [_out], [rest] the characters from [p] on: where it stops, in what state. *)
Fixpoint resume (rest : list byte) (p cs : Z) (s : httpclient_parser * D)
    : Z * Z * (httpclient_parser * D) :=
  match rest with
  | [] => (p, cs, s)
  | c :: rest =>
      let '(acts, n) := step cs (char_of c) in
      let '(s, out) := run_actions p acts s in
      if out then (p + 1, n, s)
      else if n =? 0 then (p, n, s)
      else resume rest (p + 1) n s
  end.

(** The [switch] on entry has the cases 1 to 123; any other state, the error state among them,
    leaves it and falls into the label behind it, which sets the state to 2. *)
Definition enter (rest : list byte) (p cs : Z) (s : httpclient_parser * D)
    : Z * Z * (httpclient_parser * D) :=
  match rest with
  | [] => (p, cs, s)
  | _ => if (1 <=? cs) && (cs <=? 123) then resume rest p cs s else (p, 2, s)
  end.

(** [httpclient_parser_execute(parser, buffer, len, off)]. *)
Definition httpclient_parser_execute (off : Z) (s : httpclient_parser * D)
    : outcome (Z * (httpclient_parser * D)) :=
  let '(h, d) := s in
  let h := set_field_start 0 (set_field_len 0 (set_mark 0 (set_nread 0 h))) in
  sylar_assert (off <=? len);;
  nul ← deref (buffer !! Z.to_nat len);
  sylar_assert (Byte.eqb nul x00);;
  sylar_assert (len - off =? s32 len - s32 off);;
  let '(p, cs', (h, d)) := enter (buffer.[Z.to_nat off, Z.to_nat len - Z.to_nat off]) off (cs h) (h, d) in
  let h := set_cs cs' h in
  let h := set_nread (u64 (nread h + (p - off))) h in
  sylar_assert (p <=? len);;
  sylar_assert (nread h <=? len);;
  sylar_assert (body_start h <=? len);;
  Ret (if (mark h <? len) && (field_len h <=? len) && (field_start h <? len)
       then s32 (nread h) else -1, (h, d)).
End execute.
Arguments callbacks : clear implicits.
Arguments mk_callbacks {D}.

End HttpClientParser.
