(* ===== verification/HttpResponseParser.v ===== *)
(** * The response parser object (sylar/http/http_parser.h, sylar/http/http_parser.cpp)

    The callbacks with which [HttpResponseParser] fills an [HttpResponse] from the calls of
    [httpclient_parser_execute], and the operations of the object. *)

From S2P Require Import Prelude CString StdOrdered Http HttpParser HttpClientParser.
Import HttpClientParser.

Module HttpResponseParser.
(** The data the callbacks reach through [data]: [m_data] and [m_error]. *)
Definition data : Type := HttpResponse.t * Z.

Definition on_response_reason (d : data) (at_ : list byte) (length : Z) : data :=
  (HttpResponse.setReason (cpp_string at_ length) d.1, d.2).

Definition on_response_status (d : data) (at_ : list byte) (length : Z) : data :=
  (HttpResponse.setStatus (atoi at_) d.1, d.2).

Definition on_response_chunk (d : data) (at_ : list byte) (length : Z) : data := d.

Definition on_response_version (d : data) (at_ : list byte) (length : Z) : data :=
  if strncmp_eq (Z.to_nat length) at_ (lit "HTTP/1.1") then (HttpResponse.setVersion 17 d.1, d.2)
  else if strncmp_eq (Z.to_nat length) at_ (lit "HTTP/1.0")
  then (HttpResponse.setVersion 16 d.1, d.2)
  else (d.1, 1001).

Definition on_response_header_done (d : data) (at_ : list byte) (length : Z) : data := d.
Definition on_response_last_chunk (d : data) (at_ : list byte) (length : Z) : data := d.

Definition on_response_http_field (d : data) (field : list byte) (flen : Z) (value : list byte)
    (vlen : Z) : data :=
  if flen =? 0 then d
  else (HttpResponse.setHeader (cpp_string field flen) (cpp_string value vlen) d.1, d.2).

(** The callbacks the constructor installs. *)
Definition cbs : callbacks data :=
  mk_callbacks (Some on_response_http_field) (Some on_response_reason) (Some on_response_status)
    (Some on_response_chunk) (Some on_response_version) (Some on_response_header_done)
    (Some on_response_last_chunk).

Record t := mk {
  m_parser : httpclient_parser;
  m_data : HttpResponse.t;
  m_error : Z;
}.

(** The constructor; [memory] is what the parser's memory holds before the initialisation. *)
Definition make (memory : httpclient_parser) : t :=
  mk (httpclient_parser_init memory) (HttpResponse.make 17 true) 0.

Definition setError (v : Z) (p : t) : t := mk (m_parser p) (m_data p) v.

Definition getContentLength (lexical_cast : list byte → option Z) (p : t) : Z :=
  getAs lexical_cast (HttpResponse.m_headers (m_data p)) (lit "content-length") 0.

(** [execute(data, len, chunck)]: the buffer holds [buffer], of which the first [len] bytes are
    parsed; what is left is moved to its front. The result -1 of the parser is a [size_t] here, and
    the move then reads in front of the buffer. *)
Definition execute (buffer : list byte) (len : nat) (chunck : bool) (p : t)
    : outcome (Z * list byte * t) :=
  let h := if chunck then httpclient_parser_init (m_parser p) else m_parser p in
  r ← httpclient_parser_execute cbs buffer (Z.of_nat len) 0 (h, (m_data p, m_error p));
  let '(offset, (h, (d, e))) := r in
  if offset <? 0 then Undef
  else Ret (offset, overwrite buffer 0 (buffer.[Z.to_nat offset, len - Z.to_nat offset]), mk h d e).

Definition isFinished (p : t) : Z := httpclient_parser_finish (m_parser p).
Definition hasError (p : t) : bool :=
  negb (m_error p =? 0) || httpclient_parser_has_error (m_parser p).
End HttpResponseParser.
