(* ===== verification/HttpClientSpec.v ===== *)
(** * What the response parser's machine recognizes

    The machine of httpclient_parser.c against the grammar of httpclient_parser.rl, by the
    bisimulation check of [Regex]; from every state but the error a final state can be reached; the
    marks that the actions set stay inside the text. *)

From S2P Require Import Prelude CString Ragel ClientMachine HttpClientParser Regex UriGrammar ClientGrammar.
Import ClientMachine HttpClientParser.

(** ** The machine and the grammar *)

(** Characters that neither the machine nor the grammar tells apart, with one of them. *)
Definition client_alike : list (list (Z * Z) * Z) :=
  [([(76, 76); (108, 108)], 76); ([(48, 57)], 48); ([(10, 10)], 10); ([(71, 71); (103, 103)], 71);
   ([(84, 84)], 84); ([(78, 78); (110, 110)], 78); ([(59, 59)], 59); ([(72, 72)], 72);
   ([(46, 46)], 46); ([(104, 104)], 104); ([(69, 69); (101, 101)], 69); ([(32, 32)], 32);
   ([(80, 80)], 80); ([(112, 112)], 112); ([(67, 67); (99, 99)], 67); ([(83, 83); (115, 115)], 83);
   ([(79, 79); (111, 111)], 79); ([(73, 73); (105, 105)], 73); ([(45, 45)], 45);
   ([(68, 68); (100, 100)], 68); ([(61, 61)], 61); ([(66, 66); (98, 98)], 66);
   ([(82, 82); (114, 114)], 82); ([(70, 70); (102, 102)], 70); ([(116, 116)], 116);
   ([(65, 65); (97, 97)], 65); ([(9, 9); (11, 12)], 9); ([(85, 85); (117, 117)], 85);
   ([(58, 58)], 58); ([(75, 75); (107, 107)], 75); ([(47, 47)], 47); ([(13, 13)], 13);
   (ResponseGrammar.token_c, 33)].
Definition client_rep (c : Z) : Z :=
  match find (λ '(cls, _), in_class cls c) client_alike with Some (_, r) => r | None => -128 end.
Definition client_reps : list Z := -128 :: map snd client_alike.

Definition next_cs (cs c : Z) : Z := (ClientMachine.step cs c).2.
Definition final_cs (cs : Z) : bool := httpclient_parser_first_final <=? cs.
(** The final states that [httpclient_parser_is_finished] does not know. *)
Definition other_final (cs : Z) : bool := httpclient_parser_first_final <? cs.

(** The state behind a text. *)
Definition after (cs : Z) (w : list byte) : Z := fold_left next_cs (signed w) cs.

Lemma response_bisimilar :
  bisimilar next_cs final_cs chars client_reps client_rep httpclient_parser_start ResponseGrammar.main
  = true.
Proof. vm_cast_no_check (eq_refl true). Qed.

Lemma special_bisimilar :
  bisimilar next_cs other_final chars client_reps client_rep httpclient_parser_start
    ResponseGrammar.empty_special = true.
Proof. vm_cast_no_check (eq_refl true). Qed.

(** A whole header part, or the line of a chunk. *)
Definition complete (w : list byte) : Prop := matches ResponseGrammar.main (signed w).
(** The beginning of one. *)
Definition begins (w : list byte) : Prop := ∃ v, complete (w ++ v).
Definition special (w : list byte) : Prop := matches ResponseGrammar.empty_special (signed w).

Lemma complete_spec w : complete w ↔ final_cs (after httpclient_parser_start w) = true.
Proof. symmetry. apply (bisimilar_lang _ _ _ _ _ _ _ _ response_bisimilar), signed_chars. Qed.
Lemma special_spec w : special w ↔ other_final (after httpclient_parser_start w) = true.
Proof. symmetry. apply (bisimilar_lang _ _ _ _ _ _ _ _ special_bisimilar), signed_chars. Qed.

Lemma after_app cs v w : after cs (v ++ w) = after (after cs v) w.
Proof. unfold after, signed. by rewrite map_app, fold_left_app. Qed.
Lemma after_error w : after 0 w = 0.
Proof. unfold after. by induction (signed w). Qed.

Definition client_states : list Z := map Z.of_nat (seq 0 124).
Lemma client_states_range cs : cs ∈ client_states ↔ 0 <= cs <= 123.
Proof.
  unfold client_states. rewrite list_elem_of_fmap. setoid_rewrite elem_of_seq. split.
  - intros (n & -> & Hn). lia.
  - intros H. exists (Z.to_nat cs). lia.
Qed.

Lemma client_steps_closed :
  every (λ cs, every (λ c, let n := next_cs cs c in if 0 <=? n then n <=? 123 else false) chars)
    client_states = true.
Proof. vm_cast_no_check (eq_refl true). Qed.

Lemma next_cs_range cs b : 0 <= cs <= 123 → 0 <= next_cs cs (char_of b) <= 123.
Proof.
  intros Hcs%client_states_range. pose proof client_steps_closed as H.
  rewrite every_iff in H. specialize (H cs Hcs). cbv beta in H.
  rewrite every_iff in H. specialize (H _ (char_of_chars b)). cbv beta zeta in H.
  destruct (0 <=? _) eqn:E; [|done]. lia.
Qed.

Lemma after_range cs w : 0 <= cs <= 123 → 0 <= after cs w <= 123.
Proof.
  revert cs. induction w as [|b w IH]; intros cs H; [done|]. apply (IH (next_cs cs (char_of b))).
  by apply next_cs_range.
Qed.

(** ** A way to a final state *)

Definition closer (found : list (Z * byte)) : list (Z * byte) :=
  let known cs := if 120 <=? cs then true else any (λ '(s, _), s =? cs) found in
  found ++ omap (λ cs,
    if cs =? 0 then None else if known cs then None else
    match filter (λ c, known (next_cs cs c) = true) client_reps with
    | c :: _ => Some (cs, byte_of_Z c)
    | [] => None
    end) client_states.

(** The character to go on with, for each state. *)
Definition route : list (Z * byte) := Eval vm_compute in Nat.iter 60 closer [].
Definition ahead (cs : Z) : byte :=
  match find (λ '(s, _), s =? cs) route with Some (_, b) => b | None => x00 end.
Fixpoint walk (fuel : nat) (cs : Z) : list byte :=
  match fuel with
  | O => []
  | S fuel => if final_cs cs then [] else let b := ahead cs in b :: walk fuel (next_cs cs (char_of b))
  end.

Lemma walks_end :
  every (λ cs, if cs =? 0 then true else final_cs (after cs (walk 60 cs))) client_states = true.
Proof. vm_cast_no_check (eq_refl true). Qed.

Lemma begins_spec w : begins w ↔ after httpclient_parser_start w ≠ 0.
Proof.
  split.
  - intros (v & H%complete_spec). rewrite after_app in H. intros E. by rewrite E, after_error in H.
  - intros H. exists (walk 60 (after httpclient_parser_start w)). apply complete_spec.
    rewrite after_app. pose proof walks_end as Hw. rewrite every_iff in Hw.
    specialize (Hw (after httpclient_parser_start w)).
    rewrite client_states_range, (proj2 (Z.eqb_neq _ 0) H) in Hw. apply Hw, after_range.
    unfold httpclient_parser_start. lia.
Qed.

(** ** The loop *)

#[export] Instance client_action_eq_dec : EqDecision client_action.
Proof. solve_decision. Defined.

Lemma done_when_final :
  every (λ cs, if cs =? 0 then true else if final_cs cs then true else
    every (λ c, let '(acts, n) := ClientMachine.step cs c in
                Bool.eqb (any (λ a, bool_decide (a = a_done)) acts) (final_cs n)) chars) client_states = true.
Proof. vm_cast_no_check (eq_refl true). Qed.

Lemma step_done cs b acts n :
  0 < cs < 120 → ClientMachine.step cs (char_of b) = (acts, n) → a_done ∈ acts ↔ final_cs n = true.
Proof.
  intros Hcs E. pose proof done_when_final as H. rewrite every_iff in H.
  specialize (H cs). rewrite client_states_range in H. specialize (H ltac:(lia)). cbv beta in H.
  unfold final_cs at 1, httpclient_parser_first_final in H.
  rewrite (proj2 (Z.eqb_neq _ _)), (proj2 (Z.leb_gt _ _)) in H by lia.
  rewrite every_iff in H. specialize (H _ (char_of_chars b)). cbv beta in H.
  rewrite E in H. apply eqb_prop in H. rewrite <- H, any_iff.
  setoid_rewrite bool_decide_eq_true. naive_solver.
Qed.

Section loop.
Context {D : Type} (cb : callbacks D) (buffer : list byte) (len : Z).

(** The marks lie before [p] and inside the text; the header part has not ended before. *)
Record marks_inside (p : Z) (h : httpclient_parser) : Prop := {
  mi_mark : 0 <= mark h < len;
  mi_start : 0 <= field_start h < len;
  mi_before : field_start h <= p;
  mi_len : 0 <= field_len h <= len;
}.

Lemma marks_inside_later p q h : p <= q → marks_inside p h → marks_inside q h.
Proof. intros Hq []. constructor; lia. Qed.

(** What an action leaves: the end of the header part is set by the last action alone. *)
Lemma run_action_inside p a h d h' d' out :
  0 <= p < len → len < 2 ^ 63 → marks_inside p h →
  run_action cb buffer len p a (h, d) = ((h', d'), out) →
  marks_inside p h' ∧ body_start h' = (if out then p + 1 else body_start h)
  ∧ nread h' = nread h ∧ cs h' = cs h.
Proof.
  intros Hp Hl [? ? ? ?] E.
  assert (0 <= len_from (field_start h) p <= len) as Hf.
  { unfold len_from. rewrite (uwrap_small 64) by (unfold fits_u; lia). lia. }
  destruct a; simpl in E; simplify_eq; try (split; [by constructor; simpl; lia|done]).
Qed.

Lemma run_actions_inside p acts h d h' d' out :
  0 <= p < len → len < 2 ^ 63 → marks_inside p h →
  run_actions cb buffer len p acts (h, d) = ((h', d'), out) →
  marks_inside p h' ∧ body_start h' = (if out then p + 1 else body_start h)
  ∧ nread h' = nread h ∧ cs h' = cs h ∧ (out = true ↔ a_done ∈ acts).
Proof.
  intros Hp Hl. revert h d. induction acts as [|a acts IH]; intros h d Hm E; cbn [run_actions] in E.
  { simplify_eq. split_and!; try done. by split; [|intros ?%elem_of_nil]. }
  destruct (run_action cb buffer len p a (h, d)) as [[h1 d1] o] eqn:Ea.
  assert (o = true ↔ a = a_done) as Ho by (destruct a; simpl in Ea; by simplify_eq).
  apply run_action_inside in Ea as (Hm1 & Hb1 & Hn1 & Hc1); [|done..].
  rewrite elem_of_cons. destruct o; [simplify_eq|].
  - split_and!; try done. naive_solver.
  - apply IH in E as (? & Hb & ? & ? & Hout); [|done]. split_and!; [done| |congruence|congruence|].
    + destruct out; [done|congruence].
    + rewrite Hout. destruct Ho as [_ Ho].
      split; [by right|intros [Heq|Hin]; [by specialize (Ho (eq_sym Heq))|done]].
Qed.


Lemma after_cons cs b w : after cs (b :: w) = after (next_cs cs (char_of b)) w.
Proof. done. Qed.

(** Where the loop stops, [n] characters further: behind the header part, in front of a character
    that no text has there, or at the end of the text. *)
Inductive stops (p : Z) (cs : Z) (rest : list byte) (body : Z) (n : nat) (cs' body' : Z) : Prop :=
  | at_body : (0 < n)%nat → cs' = after cs (take n rest) → final_cs cs' = true →
      body' = p + Z.of_nat n → stops p cs rest body n cs' body'
  | at_error : (n < length rest)%nat → 0 < after cs (take n rest) < 120 → cs' = 0 →
      after cs (take (S n) rest) = 0 → body' = body → stops p cs rest body n cs' body'
  | at_end : n = length rest → cs' = after cs rest → 0 < cs' < 120 → body' = body →
      stops p cs rest body n cs' body'.

Lemma stops_later p cs b rest body n cs' body' :
  stops (p + 1) (next_cs cs (char_of b)) rest body n cs' body' →
  stops p cs (b :: rest) body (S n) cs' body'.
Proof.
  intros []; [apply at_body|apply at_error|apply at_end];
    rewrite ?firstn_cons, ?after_cons; simpl length; try done; lia.
Qed.

Lemma resume_stops rest p cs h d :
  0 < cs < 120 → 0 <= p → p + Z.of_nat (length rest) = len → len < 2 ^ 63 → marks_inside p h →
  ∃ n cs' h' d', resume cb buffer len rest p cs (h, d) = (p + Z.of_nat n, cs', (h', d'))
    ∧ (n <= length rest)%nat ∧ marks_inside (p + Z.of_nat n) h' ∧ nread h' = nread h
    ∧ (∀ m, (m < n)%nat → 0 < after cs (take m rest) < 120)
    ∧ stops p cs rest (body_start h) n cs' (body_start h').
Proof.
  revert p cs h d. induction rest as [|b rest IH]; intros p cs h d Hcs Hp Hlen Hl Hm.
  { exists 0%nat, cs, h, d. rewrite Z.add_0_r. split_and!; try done; [lia|by apply at_end]. }
  cbn [length] in Hlen. cbn [resume]. destruct (ClientMachine.step cs (char_of b)) as [acts n] eqn:Es.
  pose proof (next_cs_range cs b ltac:(lia)) as Hn.
  assert (next_cs cs (char_of b) = n) as En by (unfold next_cs; by rewrite Es). rewrite En in Hn.
  destruct (run_actions cb buffer len p acts (h, d)) as [[h1 d1] out] eqn:Ea.
  apply run_actions_inside in Ea as (Hm1 & Hb1 & Hn1 & _ & Ho); [|lia|done|done].
  rewrite (step_done cs b acts n Hcs Es) in Ho.
  assert (∀ m, (m < 1)%nat → 0 < after cs (take m (b :: rest)) < 120) as Hfirst
    by (intros m Hlt; by assert (m = 0)%nat as -> by lia).
  destruct out.
  { exists 1%nat, n, h1, d1. split_and!; [done|simpl; lia|by eapply marks_inside_later, Hm1; lia|done..|].
    apply at_body; [lia| |by apply Ho|done]. simpl. by rewrite after_cons, En. }
  destruct (n =? 0) eqn:E0.
  { apply Z.eqb_eq in E0 as ->. exists 0%nat, 0, h1, d1. rewrite Z.add_0_r.
    split_and!; [done|lia|done|done|intros; lia|].
    apply at_error; [simpl; lia|done|done| |done]. simpl. by rewrite after_cons, En. }
  assert (final_cs n ≠ true) as Hnf by (intros H%Ho; done).
  unfold final_cs, httpclient_parser_first_final in Hnf.
  destruct (IH (p + 1) n h1 d1) as (k & cs' & h' & d' & E & Hk & Hm' & Hn' & Hbetween & Hs);
    [lia..|done|by eapply marks_inside_later, Hm1; lia|].
  exists (S k), cs', h', d'. rewrite E.
  replace (p + Z.of_nat (S k)) with (p + 1 + Z.of_nat k) by lia.
  split_and!; [done|simpl; lia|done|congruence| |].
  - intros [|m] Hlt; [by apply Hfirst; lia|]. rewrite firstn_cons, after_cons, En. apply Hbetween. lia.
  - apply stops_later. rewrite En. by rewrite <- Hb1.
Qed.
End loop.

(** ** Chunks *)

(** Which of the two actions ran that set [chunked]. *)
Definition flag (f : Z) (a : client_action) : Z :=
  match a with a_trans_chunked => Z.lor f 1 | a_chunk_size => Z.lor f 2 | _ => f end.
Definition flags (acts : list client_action) (f : Z) : Z := fold_left flag acts f.

(** State [cs] with the flags [f]. *)
Definition flagged_next (s c : Z) : Z :=
  let '(acts, n) := ClientMachine.step (s mod 124) c in
  if n =? 0 then 0 else n + 124 * flags acts (s / 124).
Definition flagged_final (bit : Z) (s : Z) : bool :=
  final_cs (s mod 124) && negb (Z.land (s / 124) bit =? 0).

Lemma chunked_bisimilar :
  bisimilar flagged_next (flagged_final 1) chars client_reps client_rep httpclient_parser_start
    ResponseGrammar.chunked_response = true.
Proof. vm_cast_no_check (eq_refl true). Qed.
Lemma chunk_line_bisimilar :
  bisimilar flagged_next (flagged_final 2) chars client_reps client_rep httpclient_parser_start
    ResponseGrammar.Chunked_Header = true.
Proof. vm_cast_no_check (eq_refl true). Qed.

Definition flagged_after (s : Z) (w : list byte) : Z := fold_left flagged_next (signed w) s.

(** The header part of a chunked response, and the line of a chunk. *)
Definition chunked_head (w : list byte) : Prop := matches ResponseGrammar.chunked_response (signed w).
Definition chunk_line (w : list byte) : Prop := matches ResponseGrammar.Chunked_Header (signed w).

Lemma chunked_head_spec w :
  chunked_head w ↔ flagged_final 1 (flagged_after httpclient_parser_start w) = true.
Proof. symmetry. apply (bisimilar_lang _ _ _ _ _ _ _ _ chunked_bisimilar), signed_chars. Qed.
Lemma chunk_line_spec w :
  chunk_line w ↔ flagged_final 2 (flagged_after httpclient_parser_start w) = true.
Proof. symmetry. apply (bisimilar_lang _ _ _ _ _ _ _ _ chunk_line_bisimilar), signed_chars. Qed.

(** [done] is the last action of a step. *)
Fixpoint done_last (acts : list client_action) : bool :=
  match acts with
  | [] | [_] => true
  | a :: acts => if bool_decide (a = a_done) then false else done_last acts
  end.
Lemma done_is_last :
  every (λ cs, every (λ c, done_last (ClientMachine.step cs c).1) chars) client_states = true.
Proof. vm_cast_no_check (eq_refl true). Qed.
Lemma step_done_last cs b acts n :
  0 <= cs <= 123 → ClientMachine.step cs (char_of b) = (acts, n) → done_last acts = true.
Proof.
  intros Hcs%client_states_range E. pose proof done_is_last as H. rewrite every_iff in H.
  specialize (H cs Hcs). cbv beta in H. rewrite every_iff in H.
  specialize (H _ (char_of_chars b)). cbv beta in H. by rewrite E in H.
Qed.

Section flags.
Context {D : Type} (cb : callbacks D) (buffer : list byte) (len : Z).

Definition flags_seen (f : Z) (h h' : httpclient_parser) : Prop :=
  (Z.land f 3 = 0 → chunked h' = chunked h) ∧ (Z.land f 3 ≠ 0 → chunked h' = 1)
  ∧ (Z.land f 2 = 0 → chunks_done h' = chunks_done h).

Lemma flag_values f : 0 <= f < 4 → f = 0 ∨ f = 1 ∨ f = 2 ∨ f = 3.
Proof. lia. Qed.

Lemma run_action_flags p a f h0 h d h1 d1 o :
  0 <= f < 4 → flags_seen f h0 h → run_action cb buffer len p a (h, d) = ((h1, d1), o) →
  0 <= flag f a < 4 ∧ flags_seen (flag f a) h0 h1 ∧ (o = true ↔ a = a_done).
Proof.
  intros Hf (S1 & S2 & S3) E.
  assert (flags_seen (flag f a) h0 h1 ∧ (o = true ↔ a = a_done)) as [H1 H2].
  { destruct a; simpl in E; simplify_eq; (split; [|done]); try exact (conj S1 (conj S2 S3));
      destruct (flag_values f Hf) as [-> | [-> | [-> | ->]]];
      split_and!; cbn in *; intros; try done; by apply S3. }
  split; [|done]. destruct (flag_values f Hf) as [-> | [-> | [-> | ->]]]; by destruct a.
Qed.

Lemma run_actions_flags p acts : ∀ f h0 h d h' d' out,
  0 <= f < 4 → flags_seen f h0 h → done_last acts = true →
  run_actions cb buffer len p acts (h, d) = ((h', d'), out) →
  0 <= flags acts f < 4 ∧ flags_seen (flags acts f) h0 h'.
Proof.
  induction acts as [|a acts IH]; intros f h0 h d h' d' out Hf Hs Hl E; cbn [run_actions] in E; [by simplify_eq|].
  destruct (run_action cb buffer len p a (h, d)) as [[h1 d1] o] eqn:Ea.
  apply (run_action_flags _ _ f h0) in Ea as (Hf1 & Hs1 & Ho); [|done..].
  change (flags (a :: acts) f) with (flags acts (flag f a)). destruct o.
  - rewrite (proj1 Ho eq_refl) in Hl, Hf1, Hs1 |- *. simplify_eq. by destruct acts.
  - apply (IH _ _ h1 d1 h' d' out); [done|done| |done].
    destruct acts; [done|]. cbn [done_last] in Hl. by destruct (bool_decide (a = a_done)).
Qed.

Lemma run_actions_outcome p acts h d :
  (run_actions cb buffer len p acts (h, d)).2 = true ↔ a_done ∈ acts.
Proof.
  revert h d. induction acts as [|a acts IH]; intros h d; cbn [run_actions].
  { split; [done|by intros ?%elem_of_nil]. }
  destruct (run_action cb buffer len p a (h, d)) as [[h1 d1] o] eqn:Ea. rewrite elem_of_cons.
  assert (o = true ↔ a = a_done) as Ho by (destruct a; simpl in Ea; by simplify_eq).
  destruct o; [cbn; naive_solver|]. rewrite IH. naive_solver.
Qed.

Lemma resume_range rest : ∀ p cs s p' cs' s',
  0 <= cs <= 123 → resume cb buffer len rest p cs s = (p', cs', s') → 0 <= cs' <= 123.
Proof.
  induction rest as [|b rest IH]; intros p cs s p' cs' s' Hcs E; cbn [resume] in E; [by simplify_eq|].
  pose proof (next_cs_range cs b Hcs) as Hn. unfold next_cs in Hn.
  destruct (ClientMachine.step cs (char_of b)) as [acts n]. cbn [snd] in Hn.
  destruct (run_actions cb buffer len p acts s) as [s1 []]; [by simplify_eq|].
  destruct (n =? 0); [by simplify_eq|]. by eapply IH.
Qed.

(** Behind a header part, the flags that the second machine has. *)
Lemma resume_flags rest : ∀ p cs h d f h0 p' cs' h' d',
  0 < cs <= 123 → 0 <= f < 4 → flags_seen f h0 h →
  resume cb buffer len rest p cs (h, d) = (p', cs', (h', d')) → final_cs cs' = true → cs < 120 →
  ∃ n f', p' = p + Z.of_nat n ∧ (n <= length rest)%nat ∧ 0 <= f' < 4
    ∧ flagged_after (cs + 124 * f) (take n rest) = cs' + 124 * f' ∧ flags_seen f' h0 h'.
Proof.
  induction rest as [|b rest IH]; intros p cs h d f h0 p' cs' h' d' Hcs Hf Hs E Hfin Hlt.
  { cbn [resume] in E. simplify_eq. unfold final_cs, httpclient_parser_first_final in Hfin. lia. }
  cbn [resume] in E. destruct (ClientMachine.step cs (char_of b)) as [acts n] eqn:Es.
  pose proof (next_cs_range cs b ltac:(lia)) as Hn.
  assert (next_cs cs (char_of b) = n) as En by (unfold next_cs; by rewrite Es). rewrite En in Hn.
  destruct (run_actions cb buffer len p acts (h, d)) as [[h1 d1] out] eqn:Ea.
  pose proof (run_actions_outcome p acts h d) as Hout. rewrite Ea in Hout. cbn [snd] in Hout.
  apply (run_actions_flags _ _ f h0) in Ea as (Hf1 & Hs1); [|done|done|eapply (step_done_last cs b); [lia|done]].
  assert (n ≠ 0 → flagged_next (cs + 124 * f) (char_of b) = n + 124 * flags acts f) as Hnext.
  { intros Hn0. unfold flagged_next. rewrite (Z.mul_comm 124 f), Z_mod_plus_full, Z.div_add by lia.
    rewrite Z.mod_small, Z.div_small, Z.add_0_l, Es by lia. by rewrite (proj2 (Z.eqb_neq n 0) Hn0), Z.mul_comm. }
  destruct out.
  - simplify_eq. exists 1%nat, (flags acts f). split; [lia|]. split; [simpl; lia|]. split; [done|].
    split; [|done]. unfold flagged_after. cbn [firstn signed map fold_left].
    apply Hnext. intros Ez. by rewrite Ez in Hfin.
  - destruct (n =? 0) eqn:E0; [apply Z.eqb_eq in E0; simplify_eq; by rewrite E0 in Hfin|].
    apply Z.eqb_neq in E0.
    assert (n < 120) as Hn120.
    { rewrite (step_done cs b acts n ltac:(lia) Es) in Hout. destruct (final_cs n) eqn:Ef; [discriminate (proj2 Hout eq_refl)|].
      unfold final_cs, httpclient_parser_first_final in Ef. lia. }
    destruct (IH (p + 1) n h1 d1 (flags acts f) h0 p' cs' h' d') as (k & f' & -> & Hk & Hf' & Ef & Hs');
      [lia|done..|].
    exists (S k), f'. split; [lia|]. split; [simpl; lia|]. split; [done|]. split; [|done].
    unfold flagged_after in *. cbn [firstn signed map fold_left]. by rewrite Hnext.
Qed.
End flags.
