(* ===== verification/HttpClientProps.v ===== *)
(** * What the response parser guarantees

    It decides the grammar of httpclient_parser.rl, also when the text comes in pieces, with the
    final states that it does not report as finished. *)

From S2P Require Import Prelude CString Ragel ClientMachine HttpClientParser HttpResponseParser Regex UriGrammar ClientGrammar HttpClientSpec.
Import HttpClientParser.

(** A parser that has read [before], which is the beginning of a header part but not a whole one. *)
Record has_read (h : httpclient_parser) (before : list byte) : Prop := {
  hr_cs : cs h = after httpclient_parser_start before;
  hr_begins : begins before;
  hr_incomplete : ¬ complete before;
  hr_body : body_start h = 0;
}.

Lemma init_has_read memory : has_read (httpclient_parser_init memory) [].
Proof.
  constructor; [done| | |done]; [rewrite begins_spec|rewrite complete_spec]; by vm_compute.
Qed.

(** [w] is the first whole header part on the way. *)
Definition first_complete (before text : list byte) (n : nat) : Prop :=
  complete (before ++ take n text) ∧ ∀ m, (m < n)%nat → ¬ complete (before ++ take m text).

(** What the parser says after [n] characters of [text]. *)
Inductive verdict (before text : list byte) (h' : httpclient_parser) (n : nat) : Prop :=
  | header_part : first_complete before text n → body_start h' = Z.of_nat n →
      httpclient_parser_finish h' = (if bool_decide (cs h' = 120) then 1 else 0) →
      (special (before ++ take n text) ↔ cs h' ≠ 120) → verdict before text h' n
  | refused : (n < length text)%nat → begins (before ++ take n text) →
      ¬ begins (before ++ take (S n) text) → httpclient_parser_finish h' = -1 →
      verdict before text h' n
  | unfinished : n = length text → has_read h' (before ++ text) →
      httpclient_parser_finish h' = 0 → verdict before text h' n.

Section execute.
Context {D : Type} (cb : callbacks D).

Lemma has_read_range h before : has_read h before → 0 < cs h < 120.
Proof.
  intros [E Hb Hc _]. rewrite E. rewrite begins_spec in Hb. rewrite complete_spec in Hc.
  unfold final_cs, httpclient_parser_first_final in Hc.
  pose proof (after_range httpclient_parser_start before) as H.
  unfold httpclient_parser_start in *. lia.
Qed.

Lemma has_read_take h before text n :
  has_read h before → after (cs h) (take n text) = after httpclient_parser_start (before ++ take n text).
Proof. intros [-> _ _ _]. by rewrite after_app. Qed.

Lemma stops_verdict h before text n h' :
  has_read h before →
  (∀ m, (m < n)%nat → 0 < after (cs h) (take m text) < 120) →
  stops 0 (cs h) text (body_start h) n (cs h') (body_start h') → (n <= length text)%nat →
  verdict before text h' n.
Proof.
  intros Hr Hm Hs Hn. pose proof (has_read_take h before text) as Ht.
  unfold httpclient_parser_first_final in *.
  assert (∀ m, (m < n)%nat → ¬ complete (before ++ take m text)) as Hno.
  { intros m Hlt. rewrite complete_spec, <- Ht by done. unfold final_cs, httpclient_parser_first_final.
    specialize (Hm m Hlt). lia. }
  destruct Hs as [Hpos E Hf Hb|Hlt Hin E E' Hb| -> E Hin Hb].
  - rewrite Ht in E by done. apply header_part.
    + split; [|done]. by rewrite complete_spec, <- E.
    + by rewrite Hb.
    + unfold httpclient_parser_finish, httpclient_parser_has_error, httpclient_parser_is_finished,
        httpclient_parser_error, httpclient_parser_first_final.
      unfold final_cs, httpclient_parser_first_final in Hf. rewrite (proj2 (Z.eqb_neq _ 0)) by lia.
      by destruct (Z.eqb_spec (cs h') 120), (bool_decide_reflect (cs h' = 120)).
    + rewrite special_spec, <- E. unfold final_cs, other_final, httpclient_parser_first_final in *. lia.
  - rewrite Ht in E', Hin by done. apply refused; [done| | |].
    + rewrite begins_spec. lia.
    + rewrite begins_spec. by intros [].
    + unfold httpclient_parser_finish, httpclient_parser_has_error. by rewrite E.
  - rewrite <- (firstn_all text), Ht, firstn_all in E by done. apply unfinished; [done| |].
    + constructor; [done| | |by rewrite Hb; apply Hr].
      * rewrite begins_spec, <- E. lia.
      * rewrite complete_spec, <- E. unfold final_cs, httpclient_parser_first_final. lia.
    + unfold httpclient_parser_finish, httpclient_parser_has_error, httpclient_parser_is_finished,
        httpclient_parser_error, httpclient_parser_first_final.
      by rewrite !(proj2 (Z.eqb_neq _ _)) by lia.
Qed.

(** The parser at the beginning of a call. *)
Definition restarted (h : httpclient_parser) : httpclient_parser :=
  set_field_start 0 (set_field_len 0 (set_mark 0 (set_nread 0 h))).

(** The driver around the loop. *)
Lemma execute_verdict h before text memory d :
  has_read h before → text ≠ [] → Z.of_nat (length text) < 2 ^ 31 →
  ∃ n h' d', httpclient_parser_execute cb (text ++ x00 :: memory) (Z.of_nat (length text)) 0 (h, d)
               = Ret (Z.of_nat n, (h', d'))
    ∧ (n <= length text)%nat ∧ verdict before text h' n
    ∧ ∃ h1, resume cb (text ++ x00 :: memory) (Z.of_nat (length text)) text 0 (cs h) (restarted h, d)
            = (Z.of_nat n, cs h', (h1, d')) ∧ h' = set_nread (Z.of_nat n) (set_cs (cs h') h1).
Proof.
  intros Hr Hne Hlen. pose proof (has_read_range h before Hr) as Hcs.
  set (h0 := restarted h).
  set (buffer := text ++ x00 :: memory). set (len := Z.of_nat (length text)).
  assert (0 < len) as Hpos by (unfold len; destruct text; [done|simpl; lia]).
  assert (marks_inside len 0 h0) as Hm0 by (constructor; simpl; lia).
  assert (buffer !! length text = Some x00) as Hnul
    by (unfold buffer; by rewrite lookup_app_r, Nat.sub_diag by lia).
  assert (buffer.[Z.to_nat 0, length text - Z.to_nat 0] = text) as Htext.
  { change (Z.to_nat 0) with 0%nat. unfold buffer, len.
    by rewrite drop_0, Nat.sub_0_r, take_app_length. }
  assert (len < 2 ^ 63) as Hl by (fold len in Hlen; lia).
  destruct (resume_stops cb buffer len text 0 (cs h) h0 d Hcs)
    as (n & cs' & h' & d' & E & Hn & [Hmm Hms Hmb Hml] & Hnr & Hbetween & Hs); [lia|lia|done|done|].
  exists n, (set_nread (Z.of_nat n) (set_cs cs' h')), d'. split_and!; [|done| |by exists h'].
  - unfold httpclient_parser_execute. fold (restarted h). fold h0. rewrite (proj2 (Z.leb_le 0 len)) by lia.
    cbn [sylar_assert]. rewrite bind_Ret.
    replace (Z.to_nat len) with (length text) by (unfold len; lia).
    rewrite Hnul. cbn [deref]. rewrite bind_Ret.
    change (Byte.eqb x00 x00) with true. cbn [sylar_assert]. rewrite bind_Ret.
    rewrite (swrap_small 32 len), (swrap_small 32 0) by (unfold fits_s; lia).
    rewrite Z.eqb_refl. cbn [sylar_assert]. rewrite bind_Ret, Htext.
    assert (enter cb buffer len text 0 (cs h0) (h0, d) = resume cb buffer len text 0 (cs h) (h0, d))
      as ->.
    { unfold enter. destruct text as [|b text']; [done|]. change (cs h0) with (cs h).
      by rewrite (proj2 (Z.leb_le 1 _)), (proj2 (Z.leb_le _ 123)) by lia. }
    rewrite E. cbv beta iota zeta. cbn [set_cs set_nread nread body_start mark field_len field_start].
    rewrite Hnr. change (nread h0) with 0. rewrite !Z.add_0_l, !Z.sub_0_r.
    rewrite (uwrap_small 64) by (unfold fits_u; lia).
    rewrite (proj2 (Z.leb_le (Z.of_nat n) len)) by lia. cbn [sylar_assert]. rewrite !bind_Ret.
    assert (body_start h' <= len) as Hb.
    { destruct Hs as [? _ _ -> | _ _ _ _ -> | _ _ _ -> ]; [lia|..];
        change (body_start h0) with (body_start h); rewrite (hr_body _ _ Hr); lia. }
    rewrite (proj2 (Z.leb_le _ len) Hb). cbn [sylar_assert]. rewrite bind_Ret.
    rewrite (proj2 (Z.ltb_lt (mark h') len)), (proj2 (Z.leb_le (field_len h') len)),
      (proj2 (Z.ltb_lt (field_start h') len)) by lia. cbn [andb].
    rewrite (swrap_small 32) by (unfold fits_s; lia). done.
  - by apply (stops_verdict h).
Qed.
End execute.
