(* ===== verification/HttpClientRead.v ===== *)
(** * What the response parser makes of a response

    The text of a response and the object that [HttpResponseParser] fills from it. The states of
    the machine are grouped into sets; a check by computation says which actions lead from one to
    another. *)

From S2P Require Import Prelude CString Http Http11Spec HttpParser HttpParserProps.
From S2P Require Import Ragel ClientMachine HttpClientParser HttpResponseParser Regex UriGrammar ClientGrammar HttpClientSpec HttpClientProps.
Import ClientMachine HttpClientParser HttpResponseParser.

(** ** The text *)

Record response := mk_response {
  rs_minor : byte;
  rs_status : Z;
  rs_reason : list byte;
  rs_headers : list header;
}.

Definition reason_char (c : byte) : bool := negb (one_of newline c).
Definition field_char (c : byte) : bool := reason_char c.
Definition field_blank (c : byte) : bool := one_of [x09; x0b; x0c; x20] c.
Definition field_ok (f : header) : bool :=
  forallb token_char (h_name f) && negb (bool_decide (h_name f = []))
  && forallb field_blank (h_blanks f) && forallb field_char (h_value f)
  && match h_value f with c :: _ => negb (field_blank c) | [] => true end.
Definition response_ok (r : response) : Prop :=
  one_of (lit "01") (rs_minor r) = true ∧ 0 <= rs_status r < 2 ^ 31
  ∧ rs_reason r ≠ [] ∧ forallb reason_char (rs_reason r) = true
  ∧ forallb field_ok (rs_headers r) = true.

Definition response_text (r : response) : list byte :=
  lit "HTTP/1." ++ rs_minor r :: x20 :: dec (rs_status r) ++ x20 :: rs_reason r ++ newline
  ++ headers_text (rs_headers r) ++ newline.

(** ** The object *)

Definition set_response_fields (fs : list header) (r : HttpResponse.t) : HttpResponse.t :=
  fold_left (λ r f, HttpResponse.setHeader (h_name f) (h_value f) r) fs r.
Definition status_of (r : response) (d : HttpResponse.t) : HttpResponse.t :=
  HttpResponse.setReason (rs_reason r)
    (HttpResponse.setStatus (rs_status r)
      (HttpResponse.setVersion (if Byte.eqb (rs_minor r) x31 then 17 else 16) d)).
Definition response_of (r : response) (d : HttpResponse.t) : HttpResponse.t :=
  set_response_fields (rs_headers r) (status_of r d).

(** ** Sets of states *)

Definition class_bytes (f : byte → bool) : list byte :=
  filter (λ b, f b = true) (map (λ n, byte_of_Z (Z.of_nat n)) (seq 0 256)).
Definition acts_eqb (a b : list client_action) : bool := bool_decide (a = b).

(** Every character of the class leads from [H] into [H'], by one of the lists of actions. *)
Definition crosses (H : list Z) (f : byte → bool) (opts : list (list client_action)) (H' : list Z)
    : bool :=
  every (λ cs, every (λ b,
    let '(a, n) := step cs (char_of b) in
    if n =? 0 then false else if any (acts_eqb a) opts then any (Z.eqb n) H' else false)
    (class_bytes f)) H.

Definition line_states : list Z := [36; 113; 62; 43; 20].
(** Behind a line with a value, or the first line. *)
Definition plain_lines : list Z := [43; 20].
Definition name_states : list Z :=
  [90; 73; 25; 44; 91; 74; 26; 45; 92; 75; 27; 46; 93; 76; 28; 101; 47; 94; 77; 29; 102; 48; 78; 30;
   103; 49; 79; 31; 104; 50; 32; 105; 51; 33; 106; 52; 34; 107; 53; 108; 54; 109; 55; 110; 56; 111;
   57; 58; 59; 60; 117; 21].
Definition colon_states : list Z := [35; 112; 61; 22].
Definition value_states : list Z := [96; 81; 97; 82; 98; 83; 99; 84; 100; 85; 86; 87; 119; 23].
Definition cr_states : list Z := [95; 118; 80; 88; 71; 24].
Definition plain_cr : list Z := [88; 71; 24].
Lemma elem_of_class_bytes f b : f b = true → b ∈ class_bytes f.
Proof.
  intros H. apply list_elem_of_filter. split; [done|]. apply list_elem_of_fmap.
  pose proof (byte_to_Z_bounds b). exists (Z.to_nat (byte_to_Z b)). split.
  - by rewrite Z2Nat.id, byte_of_to_Z by lia.
  - apply elem_of_seq. lia.
Qed.

(** Each of the lists of actions that are possible. *)
Ltac each_option H :=
  first [by apply not_elem_of_nil in H
        |apply elem_of_cons in H as [->|H]; [|each_option H]].

(** The check of a way, evaluated where it is used. *)
Ltac by_check := match goal with |- _ = true => vm_cast_no_check (eq_refl true) end.

(** ** Stretches of a text *)

Section reads.
Context (body memory : list byte) (Q : Z → Z → data → Prop).

(** The buffer is [pre ++ rest ++ body], and [memory] behind it. *)
Definition loop (pre rest : list byte) (cs : Z) (s : httpclient_parser * data) :=
  resume cbs ((pre ++ rest ++ body) ++ memory) (Z.of_nat (length (pre ++ rest ++ body)))
    (rest ++ body) (Z.of_nat (length pre)) cs s.

(** From [cs] at the end of [pre], the loop ends at a position, in a state and with data of which
    [Q] holds. *)
Definition reads (pre rest : list byte) (cs : Z) (s : httpclient_parser * data) : Prop :=
  Z.of_nat (length (pre ++ rest ++ body)) < 2 ^ 31 →
  ∃ p' cs' h' d', loop pre rest cs s = (p', cs', (h', d')) ∧ Q p' cs' d'.

Lemma reads_cross H f opts H' pre b rest cs s :
  crosses H f opts H' = true → cs ∈ H → f b = true →
  (Z.of_nat (length pre) < 2 ^ 31 → ∀ acts, acts ∈ opts →
    ∃ s', run_actions cbs ((pre ++ (b :: rest) ++ body) ++ memory)
            (Z.of_nat (length (pre ++ (b :: rest) ++ body))) (Z.of_nat (length pre)) acts s = (s', false)
      ∧ ∀ n, n ∈ H' → reads (pre ++ [b]) rest n s') →
  reads pre (b :: rest) cs s.
Proof.
  unfold crosses, reads, loop. rewrite every_iff. intros Hc Hcs Hb Hr Hlen. specialize (Hc cs Hcs).
  cbv beta in Hc. rewrite every_iff in Hc. specialize (Hc b (elem_of_class_bytes _ _ Hb)). cbv beta in Hc.
  cbn [app resume]. destruct (step cs (char_of b)) as [acts n].
  destruct (n =? 0); [done|]. destruct (any _ opts) eqn:Ea; [|done].
  apply any_iff in Ea as (a & Ha & ->%bool_decide_eq_true).
  apply any_iff in Hc as (n' & Hn' & ->%Z.eqb_eq).
  destruct (Hr ltac:(rewrite (length_app pre) in Hlen; lia) a Ha) as (s' & E & Hn). cbn [app] in E.
  rewrite E. specialize (Hn n' Hn'). rewrite <- !app_assoc in Hn. cbn [app] in Hn.
  rewrite (length_app pre [b]), Nat.add_1_r, Nat2Z.inj_succ in Hn.
  rewrite <- app_assoc. cbn [app]. rewrite <- app_assoc. by apply Hn.
Qed.

(** A stretch on which [I] holds of the parser. *)
Lemma reads_stretch H f opts (I : httpclient_parser → Prop) pre w rest cs h d :
  crosses H f opts H = true → cs ∈ H → forallb f w = true → I h →
  (∀ h buffer len p acts, I h → acts ∈ opts →
     ∃ h', run_actions cbs buffer len p acts (h, d) = ((h', d), false) ∧ I h') →
  (∀ h cs', I h → cs' ∈ H → reads (pre ++ w) rest cs' (h, d)) →
  reads pre (w ++ rest) cs (h, d).
Proof.
  intros Hc Hcs Hw HI Ha. revert pre h cs HI Hcs.
  induction w as [|b w IH]; intros pre h cs HI Hcs Hn.
  - rewrite app_nil_r in Hn. by apply Hn.
  - simpl in Hw. apply andb_true_iff in Hw as [Hb Hw]. cbn [app].
    eapply reads_cross; [done..|]. intros _ acts Hacts.
    destruct (Ha h ((pre ++ (b :: w ++ rest) ++ body) ++ memory)
      (Z.of_nat (length (pre ++ (b :: w ++ rest) ++ body))) (Z.of_nat (length pre)) acts HI Hacts)
      as (h' & E & HI').
    exists (h', d). split; [done|]. intros n Hn'. apply IH; [done..|].
    intros h2 cs2 HI2 Hcs2. rewrite <- app_assoc. by apply Hn.
Qed.

(** A stretch without actions. *)
Lemma reads_plain H f pre w rest cs s :
  crosses H f [[]] H = true → cs ∈ H → forallb f w = true →
  (∀ cs', cs' ∈ H → reads (pre ++ w) rest cs' s) → reads pre (w ++ rest) cs s.
Proof.
  destruct s as [h d]. intros Hc Hcs Hw Hn.
  eapply (reads_stretch H f [[]] (λ x, x = h)); [done..| |].
  - intros ? ? ? ? acts -> ->%list_elem_of_singleton. by exists h.
  - intros ? cs' ->. apply Hn.
Qed.

(** *** A header field *)

Lemma len_from_length (a b : list byte) :
  Z.of_nat (length (a ++ b)) < 2 ^ 31 →
  len_from (Z.of_nat (length a)) (Z.of_nat (length (a ++ b))) = Z.of_nat (length b).
Proof.
  intros H. unfold len_from. rewrite length_app in *. rewrite uwrap_small by (unfold fits_u; lia). lia.
Qed.

Lemma ptr_to_app (a b : list byte) : ptr_to (a ++ b) (Z.of_nat (length a)) = b.
Proof. unfold ptr_to. by rewrite Nat2Z.id, drop_app_length. Qed.

(** The call for a field whose name and value are marked. *)
Lemma field_call pre f tail (d : data) :
  h_name f ≠ [] →
  on_response_http_field d
    (ptr_to (pre ++ h_name f ++ x3a :: h_blanks f ++ h_value f ++ tail) (Z.of_nat (length pre)))
    (Z.of_nat (length (h_name f)))
    (ptr_to (pre ++ h_name f ++ x3a :: h_blanks f ++ h_value f ++ tail)
       (Z.of_nat (length (pre ++ h_name f ++ x3a :: h_blanks f))))
    (Z.of_nat (length (h_value f)))
  = (HttpResponse.setHeader (h_name f) (h_value f) d.1, d.2).
Proof.
  intros Hne. unfold on_response_http_field.
  rewrite (proj2 (Z.eqb_neq _ 0)) by (destruct (h_name f); [done|simpl; lia]).
  rewrite ptr_to_app, cpp_string_app.
  replace (pre ++ h_name f ++ x3a :: h_blanks f ++ h_value f ++ tail)
    with ((pre ++ h_name f ++ x3a :: h_blanks f) ++ h_value f ++ tail)
    by (by rewrite <- !app_assoc).
  by rewrite ptr_to_app, cpp_string_app.
Qed.

Definition named (pre : list byte) (f : header) (h : httpclient_parser) : Prop :=
  field_start h = Z.of_nat (length pre) ∧ field_len h = Z.of_nat (length (h_name f)).

Lemma reads_token pre w rest cs h d :
  cs ∈ line_states → forallb token_char w = true → w ≠ [] →
  (∀ h' cs', cs' ∈ name_states → field_start h' = Z.of_nat (length pre) →
     reads (pre ++ w) rest cs' (h', d)) →
  reads pre (w ++ rest) cs (h, d).
Proof.
  destruct w as [|c w]; [done|]. intros Hcs [Hc Hw]%andb_true_iff _ Hn. cbn [app].
  eapply (reads_cross line_states token_char
    [[a_start_value; a_start_field]; [a_write_connection_close; a_start_field]; [a_start_field]] name_states);
    [by_check|done|done|].
  intros _ acts Hacts.
  assert (∃ h', field_start h' = Z.of_nat (length pre) ∧ ∀ buffer len,
    run_actions cbs buffer len (Z.of_nat (length pre)) acts (h, d) = ((h', d), false)) as (h1 & Hf & Hr)
    by (each_option Hacts; (eexists; split; [|intros; reflexivity]; done)).
  exists (h1, d). split; [apply Hr|]. intros n Hn1.
  eapply (reads_plain name_states token_char); [by_check|done|done|]. intros cs2 Hcs2.
  rewrite <- app_assoc. by apply Hn.
Qed.

Lemma reads_name pre f rest cs h d :
  cs ∈ line_states → forallb token_char (h_name f) = true → h_name f ≠ [] →
  (∀ h' cs', cs' ∈ colon_states → named pre f h' →
     reads (pre ++ h_name f ++ [x3a]) rest cs' (h', d)) →
  reads pre (h_name f ++ x3a :: rest) cs (h, d).
Proof.
  intros Hcs Ht Hne Hn. apply reads_token; [done..|]. intros h1 cs1 Hcs1 Hf.
  eapply (reads_cross name_states (Byte.eqb x3a) [[a_write_field]] colon_states); [by_check|done|done|].
  intros Hlen acts2 ->%list_elem_of_singleton. eexists. split; [done|]. intros n3 Hn3.
  rewrite <- app_assoc. apply Hn; [done|]. split; [done|]. cbn [field_len set_field_len].
  rewrite Hf. by apply len_from_length.
Qed.

Lemma reads_blanks pre f rest cs h d :
  cs ∈ colon_states → forallb field_blank (h_blanks f) = true → named pre f h →
  (∀ h' cs', cs' ∈ colon_states → named pre f h' →
     reads ((pre ++ h_name f ++ [x3a]) ++ h_blanks f) rest cs' (h', d)) →
  reads (pre ++ h_name f ++ [x3a]) (h_blanks f ++ rest) cs (h, d).
Proof.
  intros Hcs Hb Hh Hn.
  eapply (reads_stretch colon_states field_blank [[a_start_value]] (named pre f)); [by_check|done..| |].
  - intros h2 buffer len p acts [H1 H2] ->%list_elem_of_singleton. by eexists.
  - intros h' cs' Hh' Hcs'. by apply Hn.
Qed.

Lemma plain_cr_sub cs : cs ∈ plain_cr → cs ∈ cr_states.
Proof. unfold plain_cr, cr_states. set_solver. Qed.
Lemma plain_lines_sub cs : cs ∈ plain_lines → cs ∈ line_states.
Proof. unfold plain_lines, line_states. set_solver. Qed.

(** The value and the carriage return behind it. *)
Lemma reads_value pre f rest cs h d :
  cs ∈ colon_states → h_name f ≠ [] → forallb field_char (h_value f) = true →
  match h_value f with c :: _ => negb (field_blank c) | [] => true end = true → named pre f h →
  (∀ h' cs', cs' ∈ cr_states → (h_value f ≠ [] → cs' ∈ plain_cr) →
     reads (pre ++ h_name f ++ x3a :: h_blanks f ++ h_value f ++ [x0d]) rest cs'
       (h', (HttpResponse.setHeader (h_name f) (h_value f) d.1, d.2))) →
  reads ((pre ++ h_name f ++ [x3a]) ++ h_blanks f) (h_value f ++ x0d :: rest) cs (h, d).
Proof.
  intros Hcs Hne Hv Hv0 [Hs Hl] Hn.
  pose proof (field_call pre f (x0d :: rest ++ body ++ memory) d Hne) as Hcall.
  assert ((pre ++ h_name f ++ [x3a]) ++ h_blanks f = pre ++ h_name f ++ x3a :: h_blanks f) as ->
    by (by rewrite <- !app_assoc).
  set (start := pre ++ h_name f ++ x3a :: h_blanks f) in *.
  (* the last step, from a parser that has marked the value *)
  assert (∀ h2 acts, mark h2 = Z.of_nat (length start) → field_start h2 = Z.of_nat (length pre) →
    field_len h2 = Z.of_nat (length (h_name f)) → Z.of_nat (length (start ++ h_value f)) < 2 ^ 31 →
    acts ∈ [[a_write_content_len; a_write_value]; [a_write_value]] → ∃ h3,
    run_actions cbs ((pre ++ h_name f ++ x3a :: h_blanks f ++ h_value f ++ x0d :: rest ++ body ++ memory))
      (Z.of_nat (length (pre ++ h_name f ++ x3a :: h_blanks f ++ h_value f ++ x0d :: rest ++ body)))
      (Z.of_nat (length (start ++ h_value f))) acts (h2, d)
    = ((h3, (HttpResponse.setHeader (h_name f) (h_value f) d.1, d.2)), false)) as Hwrite.
  { intros h2 acts Hm Hs2 Hl2 Hlen Hacts. rewrite <- Hcall.
    each_option Hacts; eexists; cbn [run_actions run_action http_field cbs];
      cbn [set_content_len field_start field_len mark];
      by rewrite Hm, Hs2, Hl2, (len_from_length start (h_value f)) by done. }
  destruct (h_value f) as [|c v].
  - cbn [app]. eapply (reads_cross colon_states (Byte.eqb x0d) [[a_start_value; a_write_value]] cr_states);
      [by_check|done|done|].
    intros Hlen acts ->%list_elem_of_singleton.
    destruct (Hwrite (set_mark (Z.of_nat (length start)) h) [a_write_value]) as (h3 & E);
      [done..|by rewrite app_nil_r|set_solver|]. rewrite app_nil_r in E. exists (h3, (HttpResponse.setHeader (h_name f) [] d.1, d.2)).
    split.
    + etransitivity; [|exact E]. unfold start. rewrite <- !app_assoc. reflexivity.
    + intros n Hn'. unfold start. rewrite <- app_assoc. cbn [app] in *. rewrite <- app_assoc. by apply Hn.
  - simpl in Hv. apply andb_true_iff in Hv as [Hc Hv]. cbn [app].
    eapply (reads_cross colon_states (λ b, field_char b && negb (field_blank b)) [[a_start_value]] value_states);
      [by_check|done|by rewrite Hc|].
    intros _ acts ->%list_elem_of_singleton. eexists. split; [done|]. intros n Hn'.
    eapply (reads_plain value_states field_char); [by_check|done..|]. intros cs2 Hcs2.
    eapply (reads_cross value_states (Byte.eqb x0d)
      [[a_write_content_len; a_write_value]; [a_write_value]] plain_cr); [by_check|done|done|].
    intros Hlen acts Hacts. rewrite <- app_assoc in Hlen.
    destruct (Hwrite (set_mark (Z.of_nat (length start)) h) acts) as (h3 & E); [done..|].
    exists (h3, (HttpResponse.setHeader (h_name f) (c :: v) d.1, d.2)). split.
    + etransitivity; [|exact E]. unfold start. rewrite <- !app_assoc. reflexivity.
    + intros n2 Hn2. unfold start. repeat (rewrite <- app_assoc; cbn [app]). apply Hn; [|done].
      by apply plain_cr_sub.
Qed.

Lemma reads_field pre f rest cs h d :
  cs ∈ line_states → field_ok f = true →
  (∀ h' cs', cs' ∈ line_states → (h_value f ≠ [] → cs' ∈ plain_lines) →
     reads (pre ++ header_text f) rest cs' (h', (HttpResponse.setHeader (h_name f) (h_value f) d.1, d.2))) →
  reads pre (header_text f ++ rest) cs (h, d).
Proof.
  intros Hcs Hok Hn. unfold field_ok in Hok.
  repeat (apply andb_true_iff in Hok as [Hok ?]). apply negb_true_iff, bool_decide_eq_false in H2.
  unfold header_text in *. rewrite <- !app_assoc in *. cbn [app] in *. rewrite <- !app_assoc.
  apply reads_name; [done..|]. intros h1 cs1 Hcs1 Hh1. apply reads_blanks; [done..|].
  intros h2 cs2 Hcs2 Hh2. apply reads_value; [done..|]. intros h3 cs3 Hcs3 Hp.
  assert (∀ acts : list client_action, acts ∈ [[a_trans_chunked]; []] → ∃ h', ∀ buffer len p d,
    run_actions cbs buffer len p acts (h3, d) = ((h', d), false)) as Hr
    by (intros acts Hacts; each_option Hacts; eexists; intros; reflexivity).
  destruct (decide (h_value f = [])) as [Hv|Hv].
  - eapply (reads_cross cr_states (Byte.eqb x0a) [[a_trans_chunked]; []] line_states); [by_check|done|done|].
    intros _ acts Hacts. destruct (Hr acts Hacts) as (h4 & Hr4). eexists. split; [apply Hr4|].
    intros n4 Hn4. repeat (rewrite <- app_assoc; cbn [app]). by apply Hn.
  - eapply (reads_cross plain_cr (Byte.eqb x0a) [[a_trans_chunked]; []] plain_lines); [by_check|by apply Hp|done|].
    intros _ acts Hacts. destruct (Hr acts Hacts) as (h4 & Hr4). eexists. split; [apply Hr4|].
    intros n4 Hn4. repeat (rewrite <- app_assoc; cbn [app]). by apply Hn; [apply plain_lines_sub|].
Qed.

(** The last header has a value; [P] when there is none. *)
Definition last_value (P : Prop) (fs : list header) : Prop :=
  match last fs with Some f => h_value f ≠ [] | None => P end.

Lemma reads_fields fs : ∀ P pre rest cs h d,
  cs ∈ line_states → (P → cs ∈ plain_lines) → forallb field_ok fs = true →
  (∀ h' cs', cs' ∈ line_states → (last_value P fs → cs' ∈ plain_lines) →
     reads (pre ++ headers_text fs) rest cs' (h', (set_response_fields fs d.1, d.2))) →
  reads pre (headers_text fs ++ rest) cs (h, d).
Proof.
  induction fs as [|f fs IH]; intros P pre rest cs h d Hcs HP Hok Hn.
  - specialize (Hn h cs Hcs HP). cbn in Hn. rewrite app_nil_r in Hn. by destruct d.
  - simpl in Hok. apply andb_true_iff in Hok as [Hf Hok]. rewrite headers_text_cons, <- app_assoc.
    apply reads_field; [done..|]. intros h1 cs1 Hcs1 Hp1.
    apply (IH (h_value f ≠ [])); [done..|]. intros h2 cs2 Hcs2 Hp2.
    rewrite <- app_assoc, <- headers_text_cons. apply Hn; [done|]. intros Hl. apply Hp2.
    unfold last_value in *.
    destruct fs as [|g fs]; [exact Hl|]. rewrite last_cons_cons in Hl.
    destruct (last (g :: fs)) eqn:El; [done|by apply last_None in El].
Qed.

(** *** The empty line *)

Lemma last_step :
  every (λ cs, let '(a1, n1) := step cs 13 in let '(a, n) := step n1 10 in
    if acts_eqb a [a_done] then if final_cs n then
      if any (Z.eqb cs) plain_lines then n =? 120 else true
    else false else false) line_states = true.
Proof. vm_cast_no_check (eq_refl true). Qed.

Lemma reads_newline pre cs h d :
  cs ∈ line_states →
  (∀ cs', final_cs cs' = true → (cs ∈ plain_lines → cs' = 120) →
     Q (Z.of_nat (length (pre ++ newline))) cs' d) →
  reads pre newline cs (h, d).
Proof.
  intros Hcs HQ.
  eapply (reads_cross [cs] (Byte.eqb x0d) [[a_write_connection_close]; []] [next_cs cs 13]).
  { revert Hcs. clear HQ. unfold line_states. rewrite !elem_of_cons.
    intros [-> | [-> | [-> | [-> | [-> | []%not_elem_of_nil]]]]]; by vm_compute. }
  1: by apply list_elem_of_singleton.
  1: done.
  intros _ acts Hacts.
  assert (∃ h', ∀ buffer len p, run_actions cbs buffer len p acts (h, d) = ((h', d), false)) as (h1 & Hr)
    by (each_option Hacts; eexists; intros; reflexivity).
  exists (h1, d). split; [apply Hr|]. intros n ->%list_elem_of_singleton _. unfold loop. cbn [app resume].
  pose proof last_step as H. rewrite every_iff in H. specialize (H cs Hcs). cbv beta in H.
  unfold next_cs. destruct (step cs 13) as [a1 n1]. cbn [snd]. change (char_of x0a) with 10.
  destruct (step n1 10) as [a m]. unfold acts_eqb in H.
  case_bool_decide; [subst a|done]. destruct (final_cs m) eqn:Ef; [|done].
  cbn [run_actions run_action]. eexists _, m, _, _. split; [reflexivity|].
  replace (Z.of_nat (length (pre ++ [x0d])) + 1) with (Z.of_nat (length (pre ++ newline)))
    by (rewrite !length_app; simpl; lia).
  apply HQ; [done|]. intros Hpl. destruct (any (Z.eqb cs) plain_lines) eqn:Ea; [by apply Z.eqb_eq|].
  apply not_true_iff_false in Ea as []. apply any_iff. exists cs. split; [done|by apply Z.eqb_refl].
Qed.

(** A name that is not followed by a colon. *)
Lemma reads_refused pre b rest cs h d :
  every (λ cs, next_cs cs (char_of b) =? 0) name_states = true → cs ∈ name_states →
  every (λ cs, acts_eqb (step cs (char_of b)).1 []) name_states = true →
  Q (Z.of_nat (length pre)) 0 d → reads pre (b :: rest) cs (h, d).
Proof.
  rewrite !every_iff. intros Hz Hcs Ha HQ _. specialize (Hz cs Hcs). specialize (Ha cs Hcs).
  cbv beta in Hz, Ha. unfold acts_eqb, next_cs in *. unfold loop. cbn [app resume].
  destruct (step cs (char_of b)) as [a n]. cbn [fst snd] in *.
  apply bool_decide_eq_true in Ha as ->. apply Z.eqb_eq in Hz as ->. cbn [run_actions].
  by eexists _, _, _, _.
Qed.

(** *** The status line *)

Lemma reads_char pre b rest cs n s :
  step cs (char_of b) = ([], n) → n ≠ 0 → reads (pre ++ [b]) rest n s → reads pre (b :: rest) cs s.
Proof.
  intros E Hn Hr. eapply (reads_cross [cs] (Byte.eqb b) [[]] [n]).
  - unfold crosses. rewrite every_iff. intros ? ->%list_elem_of_singleton. rewrite every_iff.
    intros b' Hb'. apply list_elem_of_filter in Hb' as [<-%Byte.byte_dec_bl _].
    rewrite E, (proj2 (Z.eqb_neq n 0)) by done. cbn. by rewrite Z.eqb_refl.
  - by apply list_elem_of_singleton.
  - by apply Byte.byte_dec_lb.
  - intros _ acts ->%list_elem_of_singleton. exists s. split; [by destruct s|].
    by intros ? ->%list_elem_of_singleton.
Qed.

(** A word with the action [mark] on its first character, up to a character with [act]. *)
Lemma reads_marked H f g H1 c act H2 pre x w rest cs h d d2 :
  crosses H g [[a_mark]] H1 = true → crosses H1 f [[]] H1 = true →
  crosses H1 (Byte.eqb c) [[act]] H2 = true → cs ∈ H → g x = true → forallb f w = true →
  (∀ h buffer len, mark h = Z.of_nat (length pre) →
     Z.of_nat (length (pre ++ x :: w)) < 2 ^ 31 → buffer = pre ++ (x :: w) ++ c :: rest ++ body ++ memory →
     ∃ h', run_action cbs buffer len (Z.of_nat (length (pre ++ x :: w))) act (h, d) = ((h', d2), false)) →
  (∀ h' cs', cs' ∈ H2 → reads (pre ++ x :: w ++ [c]) rest cs' (h', d2)) →
  reads pre ((x :: w) ++ c :: rest) cs (h, d).
Proof.
  intros C0 C1 C2 Hcs Hx Hw Ha Hn. cbn [app]. eapply (reads_cross H g _ H1); [done..|].
  intros _ a ->%list_elem_of_singleton. eexists. split; [done|]. intros n1 Hn1.
  eapply (reads_plain H1 f); [done..|]. intros cs2 Hcs2.
  eapply (reads_cross H1 (Byte.eqb c) _ H2); [done|done|by apply Byte.byte_dec_lb|].
  intros Hlen a ->%list_elem_of_singleton.
  assert (pre ++ x :: w = (pre ++ [x]) ++ w) as Ew by (by rewrite <- app_assoc). rewrite Ew in Ha.
  destruct (Ha (set_mark (Z.of_nat (length pre)) h)
    ((((pre ++ [x]) ++ w) ++ (c :: rest) ++ body) ++ memory)
    (Z.of_nat (length (((pre ++ [x]) ++ w) ++ (c :: rest) ++ body)))) as (h' & E);
    [done|done|by rewrite <- !app_assoc|].
  exists (h', d2). split; [cbn [run_actions]; by rewrite E|].
  intros n Hn'. repeat (rewrite <- app_assoc; cbn [app]). by apply Hn.
Qed.
End reads.

Ltac char_step :=
  match goal with |- reads _ _ _ _ (?b :: _) ?cs _ =>
    let n := eval vm_compute in (next_cs cs (char_of b)) in
    apply (reads_char _ _ _ _ b _ cs n); [reflexivity|done|cbn [app]]
  end.

Lemma version_data minor tail (d : data) :
  one_of (lit "01") minor = true →
  on_response_version d (lit "HTTP/1." ++ minor :: tail) 8
  = (HttpResponse.setVersion (if Byte.eqb minor x31 then 17 else 16) d.1, d.2).
Proof.
  unfold one_of. intros [c [Hc Hm]]%existsb_exists. apply Byte.byte_dec_bl in Hm as <-.
  destruct Hc as [<-|[<-|[]]]; by destruct d.
Qed.

Lemma minor_digit minor : one_of (lit "01") minor = true → is_digit minor = true.
Proof. revert minor. apply byte_implies. by vm_compute. Qed.

(** The version, the status and the reason. *)
Lemma reads_version body memory Q minor rest h (d : data) :
  one_of (lit "01") minor = true →
  (∀ h' cs', cs' ∈ [16] → reads body memory Q (lit "HTTP/1." ++ minor :: [x20]) rest cs'
     (h', (HttpResponse.setVersion (if Byte.eqb minor x31 then 17 else 16) d.1, d.2))) →
  reads body memory Q [] (lit "HTTP/1." ++ minor :: x20 :: rest) 1 (h, d).
Proof.
  intros Hm Hn.
  change (lit "HTTP/1.") with [x48; x54; x54; x50; x2f; x31; x2e]. cbn [app].
  eapply (reads_cross _ _ _ [1] (Byte.eqb x48) [[a_mark]] [8]);
    [by_check|by apply list_elem_of_singleton|done|].
  intros _ a ->%list_elem_of_singleton. eexists. split; [done|]. intros n ->%list_elem_of_singleton.
  cbn [app]. do 6 char_step.
  eapply (reads_cross _ _ _ [14] is_digit [[]] [15]);
    [by_check|by apply list_elem_of_singleton|by apply minor_digit|].
  intros _ a ->%list_elem_of_singleton. exists (set_mark 0 h, d). split; [done|].
  intros n ->%list_elem_of_singleton. cbn [app].
  eapply (reads_cross _ _ _ [15] (Byte.eqb x20) [[a_http_version]] [16]);
    [by_check|by apply list_elem_of_singleton|done|].
  intros _ a ->%list_elem_of_singleton.
  exists (set_mark 0 h, (HttpResponse.setVersion (if Byte.eqb minor x31 then 17 else 16) d.1, d.2)).
  split; [|intros n Hn'; by apply Hn].
  rewrite <- (version_data minor ((x20 :: rest) ++ body ++ memory) d Hm). reflexivity.
Qed.

Lemma reads_status body memory Q pre n rest h (d : data) :
  0 <= n < 2 ^ 31 →
  (∀ h' cs', cs' ∈ [18] → reads body memory Q (pre ++ dec n ++ [x20]) rest cs'
     (h', (HttpResponse.setStatus n d.1, d.2))) →
  reads body memory Q pre (dec n ++ x20 :: rest) 16 (h, d).
Proof.
  intros Hb Hn. destruct (dec_ok n) as (Hd & _ & Hne); [lia|]. destruct (dec n) as [|x w] eqn:E; [done|].
  simpl in Hd. apply andb_true_iff in Hd as [Hx Hw].
  eapply (reads_marked _ _ _ [16] is_digit is_digit [17] x20 a_status_code [18]);
    [by_check|by_check|by_check|by apply list_elem_of_singleton|done|done| |exact Hn].
  intros h1 buffer len Hm Hlen ->. cbn [run_action]. rewrite Hm, len_from_length by done.
  unfold call. cbn [status_code cbs]. unfold on_response_status.
  rewrite <- E, !ptr_to_app, atoi_dec by done. by eexists.
Qed.

Lemma reads_reason body memory Q pre reason rest h (d : data) :
  reason ≠ [] → forallb reason_char reason = true →
  (∀ h', reads body memory Q (pre ++ reason ++ newline) rest 20
     (h', (HttpResponse.setReason reason d.1, d.2))) →
  reads body memory Q pre (reason ++ newline ++ rest) 18 (h, d).
Proof.
  intros Hne Hr Hn. destruct reason as [|x w]; [done|]. simpl in Hr. apply andb_true_iff in Hr as [Hx Hw].
  eapply (reads_marked _ _ _ [18] reason_char reason_char [19] x0d a_reason_phrase [24]);
    [by_check|by_check|by_check|by apply list_elem_of_singleton|done|done| |].
  - intros h1 buffer len Hm Hlen ->. cbn [run_action]. rewrite Hm, len_from_length by done.
    unfold call. cbn [reason_phrase cbs]. unfold on_response_reason.
    rewrite ptr_to_app, cpp_string_app. by eexists.
  - intros h' cs' ->%list_elem_of_singleton. char_step.
    repeat (rewrite <- app_assoc; cbn [app]). apply Hn.
Qed.

(** The status line and the headers. *)
Definition head_text (r : response) : list byte :=
  lit "HTTP/1." ++ rs_minor r :: x20 :: dec (rs_status r) ++ x20 :: rs_reason r ++ newline
  ++ headers_text (rs_headers r).

Lemma response_text_head r : response_text r = head_text r ++ newline.
Proof. unfold response_text, head_text. repeat (rewrite <- app_assoc; cbn [app]). done. Qed.

Lemma reads_head body memory Q r rest h (d : data) :
  response_ok r →
  (∀ h' cs', cs' ∈ line_states → (last_value True (rs_headers r) → cs' ∈ plain_lines) →
     reads body memory Q (head_text r) rest cs' (h', (response_of r d.1, d.2))) →
  reads body memory Q [] (head_text r ++ rest) httpclient_parser_start (h, d).
Proof.
  intros (Hm & Hs & Hne & Hr & Hf) Hn. unfold head_text in *.
  repeat (rewrite <- app_assoc; cbn [app]).
  apply reads_version; [done|]. intros h1 ? ->%list_elem_of_singleton.
  apply reads_status; [done|]. intros h2 ? ->%list_elem_of_singleton.
  apply reads_reason; [done..|]. intros h3.
  apply (reads_fields _ _ _ _ True); [unfold line_states; set_solver|unfold plain_lines; set_solver|done|].
  intros h4 cs4 Hcs4 Hp4. specialize (Hn h4 cs4 Hcs4 Hp4).
  repeat (rewrite <- app_assoc in Hn; cbn [app] in Hn).
  repeat (rewrite <- app_assoc; cbn [app]). done.
Qed.
