(* ===== verification/HttpResponseProps.v ===== *)
(** * What the response parser object guarantees

    It decides the grammar of httpclient_parser.rl; it reads the parts of a response; what
    [HttpResponse::dump] writes without a body is read back, and with a body it is refused. *)

From S2P Require Import Prelude CString StdOrdered Http HttpSpec Http11Spec HttpParser HttpParserProps.
From S2P Require Import Ragel ClientMachine HttpClientParser HttpResponseParser Regex UriGrammar ClientGrammar HttpClientSpec HttpClientProps HttpClientRead.
Import ClientMachine HttpClientParser HttpResponseParser.

(** The parser that a call of [execute] starts with. *)
Definition entering (chunck : bool) (p : t) : httpclient_parser :=
  if chunck then httpclient_parser_init (m_parser p) else m_parser p.

Lemma execute_decides (p : t) (chunck : bool) before text memory :
  has_read (entering chunck p) before → text ≠ [] → Z.of_nat (length text) < 2 ^ 31 →
  ∃ n p', execute (text ++ x00 :: memory) (length text) chunck p
            = Ret (Z.of_nat n, overwrite (text ++ x00 :: memory) 0 (drop n text), p')
    ∧ (n <= length text)%nat ∧ verdict before text (m_parser p') n
    ∧ ∃ h1, resume cbs (text ++ x00 :: memory) (Z.of_nat (length text)) text 0 (cs (entering chunck p))
              (restarted (entering chunck p), (m_data p, m_error p))
            = (Z.of_nat n, cs (m_parser p'), (h1, (m_data p', m_error p')))
          ∧ m_parser p' = set_nread (Z.of_nat n) (set_cs (cs (m_parser p')) h1).
Proof.
  intros Hr Hne Hlen.
  destruct (execute_verdict cbs (entering chunck p) before text memory (m_data p, m_error p) Hr Hne Hlen)
    as (n & h' & [d' e'] & E & Hn & Hv & Hres).
  exists n, (mk h' d' e'). split_and!; [|done..].
  unfold execute. cbv zeta. fold (entering chunck p). unfold data in *. rewrite E, bind_Ret. cbv beta iota.
  rewrite (proj2 (Z.ltb_ge _ 0)) by lia. do 3 f_equal. rewrite Nat2Z.id.
  rewrite drop_app_le by done. rewrite take_app_le by (rewrite length_drop; lia).
  by rewrite take_ge by (rewrite length_drop; lia).
Qed.

(** C14. [HttpResponseParser::execute] decides the grammar of httpclient_parser.rl: given a parser
    that has read a beginning and is not done, it never fails an assertion, and it stops behind the
    shortest text that is a header part or the line of a chunk, in front of the first character
    that no such text has there, or at the end. It is finished in the first case, except after a
    header part that ends with an empty [Connection], [Content-Length] or [Transfer-Encoding]; it
    reports an error in the second; and in the third it goes on with the next text. What it did not
    read is moved to the front of the buffer. *)
Theorem response_parser_decides (p : t) (chunck : bool) before text memory :
  has_read (entering chunck p) before → text ≠ [] → Z.of_nat (length text) < 2 ^ 31 →
  ∃ n p', execute (text ++ x00 :: memory) (length text) chunck p
            = Ret (Z.of_nat n, overwrite (text ++ x00 :: memory) 0 (drop n text), p')
    ∧ (n <= length text)%nat ∧ verdict before text (m_parser p') n.
Proof.
  intros Hr Hne Hlen. destruct (execute_decides p chunck before text memory Hr Hne Hlen)
    as (n & p' & E & Hn & Hv & _). eauto.
Qed.

(** ** Reading the parts *)

Definition fresh (memory : httpclient_parser) : t := make memory.

Lemma verdict_final before text h' n :
  verdict before text h' n → final_cs (cs h') = true →
  httpclient_parser_finish h' = (if bool_decide (cs h' = 120) then 1 else 0)
  ∧ (special (before ++ take n text) ↔ cs h' ≠ 120).
Proof.
  unfold final_cs, httpclient_parser_first_final. intros [? ? ? ?|? ? ? Hf|? Hr _] Hcs; [done| |].
  - unfold httpclient_parser_finish, httpclient_parser_has_error, httpclient_parser_error in Hf.
    destruct (cs h' =? 0) eqn:E; [lia|]. by destruct (httpclient_parser_is_finished h').
  - apply has_read_range in Hr. lia.
Qed.

(** What a fresh parser says about chunks, done with [n] characters of a response. *)
Definition announces (text : list byte) (n : nat) (h' : httpclient_parser) : Prop :=
  final_cs (cs h') = true → ¬ chunk_line (take n text) →
  (chunked h' ≠ 0 ↔ chunked_head (take n text)) ∧ chunks_done h' = 0.

Lemma announces_fresh {D} (cb : callbacks D) memory buffer len text n d h1 d1 h' :
  resume cb buffer len text 0 httpclient_parser_start (restarted (httpclient_parser_init memory), d)
    = (Z.of_nat n, cs h', (h1, d1)) →
  h' = set_nread (Z.of_nat n) (set_cs (cs h') h1) → announces text n h'.
Proof.
  intros E -> Hfin Hline. cbn [cs set_nread set_cs] in Hfin.
  destruct (resume_flags cb buffer len text 0 httpclient_parser_start (restarted (httpclient_parser_init memory))
    d 0 (restarted (httpclient_parser_init memory)) _ _ _ _ ltac:(done) ltac:(done) ltac:(done) E Hfin ltac:(done))
    as (k & f & Hk & _ & Hf & Ef & S1 & S2 & S3).
  assert (k = n) as -> by lia. change (httpclient_parser_start + 124 * 0) with httpclient_parser_start in Ef.
  rewrite chunk_line_spec, Ef in Hline. rewrite chunked_head_spec, Ef.
  unfold flagged_final in *. cbn [chunked chunks_done set_nread set_cs].
  pose proof (resume_range cb buffer len text _ httpclient_parser_start _ _ _ _ ltac:(done) E) as Hr.
  rewrite (Z.mul_comm 124 f), Z_mod_plus_full, Z.div_add, Z.mod_small, Z.div_small, Z.add_0_l in *
    by lia.
  rewrite Hfin in *. cbn [andb] in *.
  destruct (flag_values f Hf) as [-> | [-> | [-> | ->]]]; cbn in *;
    rewrite ?S1, ?S2, ?S3 by done; split; cbn; try done; naive_solver.
Qed.

Lemma response_nonempty r : head_text r ≠ [].
Proof. done. Qed.

(** From a fresh parser, through the status line and the headers. *)
Lemma execute_head (Q : Z → Z → data → Prop) r rest tail bytes memory :
  response_ok r → Z.of_nat (length (head_text r ++ rest ++ tail)) < 2 ^ 31 →
  (∀ h' cs', cs' ∈ line_states → (last_value True (rs_headers r) → cs' ∈ plain_lines) →
     reads tail (x00 :: bytes) Q (head_text r) rest cs'
       (h', (response_of r (HttpResponse.make 17 true), 0))) →
  let text := head_text r ++ rest ++ tail in
  ∃ n p', execute (text ++ x00 :: bytes) (length text) false (fresh memory)
            = Ret (Z.of_nat n, overwrite (text ++ x00 :: bytes) 0 (drop n text), p')
    ∧ verdict [] text (m_parser p') n ∧ Q (Z.of_nat n) (cs (m_parser p')) (m_data p', m_error p')
    ∧ announces text n (m_parser p').
Proof.
  intros Hok Hlen Hreads text.
  destruct (execute_decides (fresh memory) false [] text bytes) as (n & p' & E & Hn & Hv & h1 & Hres & Hp);
    [apply init_has_read|done|done|].
  exists n, p'. split_and!; [done|done| |eapply (announces_fresh cbs memory); [exact Hres|exact Hp]].
  destruct (reads_head tail (x00 :: bytes) Q r rest (restarted (entering false (fresh memory)))
    (HttpResponse.make 17 true, 0) Hok Hreads) as (pz & cs' & h' & d' & El & HQ).
  { cbn [app]. by rewrite <- app_assoc. }
  assert ((head_text r ++ rest) ++ tail = text) as Et by (by rewrite <- app_assoc).
  unfold loop in El. cbn [app length] in El. rewrite Et in El. change (Z.of_nat 0) with 0 in El.
  unfold entering, fresh, make in *. cbn [m_parser m_data m_error] in *. unfold data in *.
  change (cs (httpclient_parser_init memory)) with httpclient_parser_start in Hres.
  rewrite El in Hres. by simplify_eq.
Qed.

(** A response does not begin like the line of a chunk. *)
Lemma response_not_chunk r : ¬ chunk_line (response_text r).
Proof.
  intros H. unfold chunk_line in H.
  change (signed (response_text r)) with (72 :: signed (tail (response_text r))) in H.
  apply pd_complete in H as (r' & Hr' & _).
  assert (pd 72 ResponseGrammar.Chunked_Header = []) as E by (by vm_compute).
  rewrite E in Hr'. by apply elem_of_nil in Hr'.
Qed.

(** What a parser says that is done with the header part. *)
Lemma execute_response r tail bytes memory :
  response_ok r → Z.of_nat (length (response_text r ++ tail)) < 2 ^ 31 →
  let text := response_text r ++ tail in
  ∃ p', execute (text ++ x00 :: bytes) (length text) false (fresh memory)
          = Ret (Z.of_nat (length (response_text r)), overwrite (text ++ x00 :: bytes) 0 tail, p')
    ∧ m_data p' = response_of r (HttpResponse.make 17 true) ∧ hasError p' = false
    ∧ (isFinished p' = 1 ↔ ¬ special (response_text r))
    ∧ (last_value True (rs_headers r) → isFinished p' = 1)
    ∧ (chunked (m_parser p') ≠ 0 ↔ chunked_head (response_text r)) ∧ chunks_done (m_parser p') = 0.
Proof.
  intros Hok Hlen text.
  destruct (execute_head (λ p cs d, p = Z.of_nat (length (response_text r)) ∧ final_cs cs = true
      ∧ (last_value True (rs_headers r) → cs = 120)
      ∧ d = (response_of r (HttpResponse.make 17 true), 0)) r newline tail bytes memory Hok)
    as (n & p' & E & Hv & (Hn%Nat2Z.inj & Hf & Hp & [= Hd He]) & Ha).
  - by rewrite app_assoc, <- response_text_head.
  - intros h' cs' Hcs Hpl. apply reads_newline; [done|]. intros cs2 Hf Hp.
    split_and!; [by rewrite response_text_head|done| |done]. intros Hl. by apply Hp, Hpl.
  - rewrite app_assoc, <- response_text_head in E, Hv, Ha. fold text in E, Hv, Ha. subst n.
    destruct (verdict_final _ _ _ _ Hv Hf) as [Hfin Hsp].
    assert (take (length (response_text r)) text = response_text r) as Ht
      by (unfold text; by rewrite take_app_length).
    assert (drop (length (response_text r)) text = tail) as Hdr
      by (unfold text; by rewrite drop_app_length).
    rewrite Hdr in E. cbn [app] in Hsp. rewrite Ht in Hsp.
    specialize (Ha Hf). rewrite Ht in Ha. specialize (Ha (response_not_chunk r)).
    exists p'. unfold isFinished, hasError. rewrite Hfin, Hsp, He.
    split_and!; [done|done| |case_bool_decide; naive_solver| |by apply Ha|apply Ha].
    + unfold final_cs, httpclient_parser_first_final in Hf.
      unfold httpclient_parser_has_error, httpclient_parser_error.
      by rewrite (proj2 (Z.eqb_neq (cs (m_parser p')) 0)) by lia.
    + intros Hl. by rewrite (bool_decide_eq_true_2 _ (Hp Hl)).
Qed.

(** C13. The parser reads a response: from a status line of HTTP/1.0 or HTTP/1.1 with a status
    below 2^31 and a reason, and any number of header fields, it makes the object with this
    version, status and reason, and with the fields set in their order, whatever they are and
    whatever stands behind the empty line; that is moved to the front of the buffer. It is finished
    unless the last field is one of the three special ones without a value, and always when the
    last field has a value. *)
Theorem response_reads r tail bytes memory :
  response_ok r → Z.of_nat (length (response_text r ++ tail)) < 2 ^ 31 →
  let text := response_text r ++ tail in
  ∃ p', execute (text ++ x00 :: bytes) (length text) false (make memory)
          = Ret (Z.of_nat (length (response_text r)), overwrite (text ++ x00 :: bytes) 0 tail, p')
    ∧ m_data p' = response_of r (HttpResponse.make 17 true) ∧ hasError p' = false
    ∧ (isFinished p' = 1 ↔ ¬ special (response_text r))
    ∧ (last_value True (rs_headers r) → isFinished p' = 1).
Proof.
  intros Hok Hlen. destruct (execute_response r tail bytes memory Hok Hlen) as (p' & ? & ? & ? & ? & ? & _).
  by exists p'.
Qed.

(** ** What [HttpResponse::dump] writes *)

Definition sendable_field (kv : list byte * list byte) : bool := field_ok (as_header kv).
Definition cookie_header (c : list byte) : header := mk_header (lit "Set-Cookie") [x20] c.
Definition reason_of (r : HttpResponse.t) : list byte :=
  if bool_decide (HttpResponse.m_reason r = [])
  then HttpStatus.HttpStatusToString (HttpResponse.m_status r) else HttpResponse.m_reason r.
Definition wire_response (r : HttpResponse.t) : Prop :=
  (HttpResponse.m_version r = 16 ∨ HttpResponse.m_version r = 17)
  ∧ 0 <= HttpResponse.m_status r < 2 ^ 31
  ∧ reason_of r ≠ [] ∧ forallb reason_char (reason_of r) = true
  ∧ HttpResponse.m_websocket r = false
  ∧ forallb sendable_field (HttpResponse.m_headers r) = true
  ∧ forallb field_ok (map cookie_header (HttpResponse.m_cookies r)) = true.

Definition connection_header (r : HttpResponse.t) : header :=
  mk_header (lit "connection") [x20] (if HttpResponse.m_close r then lit "close" else lit "keep-alive").
Definition wire_of (r : HttpResponse.t) : response :=
  mk_response (if HttpResponse.m_version r =? 16 then x30 else x31) (HttpResponse.m_status r) (reason_of r)
    ((as_header <$> List.filter (λ kv, negb (is_connection kv)) (HttpResponse.m_headers r))
     ++ map cookie_header (HttpResponse.m_cookies r) ++ [connection_header r]).

Lemma cookie_lines cs :
  flat_map (λ i, lit "Set-Cookie: " ++ i ++ crlf) cs = headers_text (map cookie_header cs).
Proof.
  induction cs as [|c cs IH]; [done|]. cbn [flat_map map]. rewrite IH, headers_text_cons. f_equal.
Qed.

Lemma dump_wire r :
  wire_response r →
  HttpResponse.toString r = head_text (wire_of r)
    ++ (if bool_decide (HttpResponse.m_body r = []) then newline
        else lit "content-length; " ++ dec (Z.of_nat (length (HttpResponse.m_body r))) ++ crlf ++ crlf
               ++ HttpResponse.m_body r).
Proof.
  intros (Hv & _ & _ & _ & Hws & _). unfold HttpResponse.toString, head_text, wire_of.
  cbn [rs_minor rs_status rs_reason rs_headers]. rewrite Hws, header_lines, cookie_lines.
  set (hs := as_header <$> _). rewrite !headers_text_app.
  fold (reason_of r). set (body := if bool_decide _ then _ else _).
  change (if bool_decide _ then newline else ?x) with body.
  assert (lit "connection: " ++ (if HttpResponse.m_close r then lit "close" else lit "keep-alive") ++ crlf
    = headers_text [connection_header r]) as -> by (unfold connection_header; by destruct (HttpResponse.m_close r)).
  repeat (rewrite <- app_assoc; cbn [app]). by destruct Hv as [-> | ->].
Qed.

Lemma wire_of_ok r : wire_response r → response_ok (wire_of r).
Proof.
  intros (Hv & [Hs0 Hs] & Hne & Hr & _ & Hf & Hc). unfold response_ok, wire_of.
  cbn [rs_minor rs_status rs_reason rs_headers]. split_and!; try done; [|].
  - by destruct Hv as [-> | ->].
  - rewrite !forallb_app, Hc. apply andb_true_iff. split.
    + apply forallb_forall. intros h (kv & <- & Hkv)%in_map_iff. apply filter_In in Hkv as [Hkv _].
      rewrite forallb_forall in Hf. by apply Hf.
    + unfold connection_header. by destruct (HttpResponse.m_close r).
Qed.

(** What a name finds in the response that arrives: the last cookie is left of the cookies. *)
Definition arriving_field (r : HttpResponse.t) (k : list byte) : option (list byte) :=
  if same_name k (lit "connection")
  then Some (if HttpResponse.m_close r then lit "close" else lit "keep-alive")
  else match last (HttpResponse.m_cookies r) with
       | Some c => if same_name k (lit "Set-Cookie") then Some c else find_key (HttpResponse.m_headers r) k
       | None => find_key (HttpResponse.m_headers r) k
       end.

(** What [wire_of] makes of [d]: the last field of a name counts. *)
Lemma response_fields fs : ∀ q k,
  find_key (HttpResponse.m_headers (set_response_fields fs q)) k
  = match find (λ f, same_name k (h_name f)) (reverse fs) with
    | Some f => Some (h_value f) | None => find_key (HttpResponse.m_headers q) k end.
Proof.
  induction fs as [|f fs IH] using rev_ind; intros q k; [done|].
  unfold set_response_fields. rewrite fold_left_app, reverse_app. cbn [fold_left reverse app].
  change (reverse [f] ++ ?x) with (f :: x). cbn [find].
  fold (set_response_fields fs q). unfold HttpResponse.setHeader.
  cbn [HttpResponse.m_headers HttpResponse.setHeaders]. rewrite find_key_assign.
  destruct (same_name k (h_name f)); [done|]. apply IH.
Qed.

Lemma fields_of_both fs : ∀ q q',
  HttpResponse.m_headers q = HttpRequest.m_headers q' →
  HttpResponse.m_headers (set_response_fields fs q) = HttpRequest.m_headers (set_fields fs q').
Proof.
  induction fs as [|f fs IH]; intros q q' E; [done|]. apply IH. simpl. by rewrite E.
Qed.

Lemma set_response_fields_app a b q :
  set_response_fields (a ++ b) q = set_response_fields b (set_response_fields a q).
Proof. apply fold_left_app. Qed.

Lemma set_response_fields_rest fs : ∀ q,
  set_response_fields fs q
  = HttpResponse.setHeaders (HttpResponse.m_headers (set_response_fields fs q)) q.
Proof.
  induction fs as [|f fs IH]; intros q; [by destruct q|]. cbn [set_response_fields fold_left].
  change (fold_left _ fs ?x) with (set_response_fields fs x). rewrite (IH (HttpResponse.setHeader _ _ q)).
  by destruct q.
Qed.

Lemma cookie_fields cs q k :
  find_key (HttpResponse.m_headers (set_response_fields (map cookie_header cs) q)) k
  = match last cs with
    | Some c => if same_name k (lit "Set-Cookie") then Some c else find_key (HttpResponse.m_headers q) k
    | None => find_key (HttpResponse.m_headers q) k
    end.
Proof.
  rewrite response_fields. destruct cs as [|c cs] using rev_ind; [done|].
  rewrite last_snoc, map_app, reverse_app. change (reverse (map cookie_header [c]) ++ ?x)
    with (cookie_header c :: x). cbn [find h_name cookie_header].
  destruct (same_name k (lit "Set-Cookie")) eqn:E; [done|].
  destruct (find _ _) as [f|] eqn:Ef; [|done]. exfalso.
  apply find_some in Ef as [Hin%list_elem_of_In Hn]. rewrite elem_of_reverse in Hin.
  apply list_elem_of_fmap in Hin as (c' & -> & _). cbn [h_name cookie_header] in Hn. congruence.
Qed.

Lemma find_key_arrived r q k :
  map_sorted CaseInsensitiveLess (HttpResponse.m_headers r) → HttpResponse.m_headers q = [] →
  find_key (HttpResponse.m_headers (response_of (wire_of r) q)) k = arriving_field r k.
Proof.
  intros Hs Hq. unfold response_of, wire_of. cbn [rs_headers]. rewrite filter_connection.
  rewrite !set_response_fields_app. set (q1 := status_of _ q).
  assert (HttpResponse.m_headers q1 = []) as Hq1 by done.
  unfold set_response_fields at 1. cbn [fold_left]. unfold HttpResponse.setHeader.
  cbn [HttpResponse.m_headers HttpResponse.setHeaders connection_header h_name h_value].
  rewrite find_key_assign. unfold arriving_field. destruct (same_name k (lit "connection")) eqn:E; [done|].
  rewrite cookie_fields, (fields_of_both _ _ (HttpRequest.make 17 true)), find_key_set_fields_map
    by (done || by apply map_erase_sorted).
  rewrite find_key_erase, E.
  assert (match find_key (HttpResponse.m_headers r) k with
    | Some v => Some v | None => find_key (HttpRequest.m_headers (HttpRequest.make 17 true)) k end
    = find_key (HttpResponse.m_headers r) k) as -> by (by destruct (find_key _ k)).
  done.
Qed.

(** The object that arrives. *)
Definition response_arrives (r q : HttpResponse.t) : Prop :=
  HttpResponse.m_version q = HttpResponse.m_version r
  ∧ HttpResponse.m_status q = HttpResponse.m_status r
  ∧ HttpResponse.m_reason q = reason_of r
  ∧ HttpResponse.m_body q = []
  ∧ ∀ k, find_key (HttpResponse.m_headers q) k = arriving_field r k.

Lemma wire_arrives r :
  wire_response r → map_sorted CaseInsensitiveLess (HttpResponse.m_headers r) →
  response_arrives r (response_of (wire_of r) (HttpResponse.make 17 true)).
Proof.
  intros Hw Hs. unfold response_arrives. split_and!; [| | | |by intros; apply find_key_arrived].
  all: unfold response_of; rewrite set_response_fields_rest; unfold status_of, wire_of; try done.
  cbn. destruct Hw as [[-> | ->] _]; done.
Qed.

Lemma dump_arrives r tail bytes memory :
  wire_response r → map_sorted CaseInsensitiveLess (HttpResponse.m_headers r) →
  HttpResponse.m_body r = [] → Z.of_nat (length (HttpResponse.toString r ++ tail)) < 2 ^ 31 →
  let text := HttpResponse.toString r ++ tail in
  ∃ p', execute (text ++ x00 :: bytes) (length text) false (fresh memory)
          = Ret (Z.of_nat (length (HttpResponse.toString r)), overwrite (text ++ x00 :: bytes) 0 tail, p')
    ∧ isFinished p' = 1 ∧ hasError p' = false ∧ response_arrives r (m_data p').
Proof.
  intros Hw Hs Hb Hlen. pose proof (dump_wire r Hw) as Hd. rewrite Hb, bool_decide_eq_true_2 in Hd by done.
  rewrite <- response_text_head in Hd. rewrite Hd in *.
  destruct (execute_response (wire_of r) tail bytes memory (wire_of_ok r Hw) Hlen)
    as (p' & E & Hdata & He & _ & Hfin & _). exists p'. split; [exact E|]. split; [|split; [done|]].
  - apply Hfin. unfold last_value, wire_of. cbn [rs_headers]. rewrite app_assoc, last_snoc.
    cbn [h_value connection_header]. by destruct (HttpResponse.m_close r).
  - rewrite Hdata. by apply wire_arrives.
Qed.

(** C34. What [HttpResponse::dump] writes for a response without a body, and without websocket, is
    read back by the client's parser: version, status and reason arrive (the text of the status for
    an empty reason), and every header field, with [connection] as [m_close] says and the last of
    the cookies. *)
Theorem response_roundtrip r tail bytes memory :
  wire_response r → map_sorted CaseInsensitiveLess (HttpResponse.m_headers r) →
  HttpResponse.m_body r = [] → Z.of_nat (length (HttpResponse.toString r ++ tail)) < 2 ^ 31 →
  let text := HttpResponse.toString r ++ tail in
  ∃ p', execute (text ++ x00 :: bytes) (length text) false (make memory)
          = Ret (Z.of_nat (length (HttpResponse.toString r)), overwrite (text ++ x00 :: bytes) 0 tail, p')
    ∧ isFinished p' = 1 ∧ hasError p' = false ∧ response_arrives r (m_data p').
Proof. intros. by apply dump_arrives. Qed.

(** ** A body *)

Lemma dump_refused r bytes memory :
  wire_response r → HttpResponse.m_body r ≠ [] →
  Z.of_nat (length (HttpResponse.toString r)) < 2 ^ 31 →
  ∃ n buffer p', execute (HttpResponse.toString r ++ x00 :: bytes) (length (HttpResponse.toString r)) false
                   (fresh memory) = Ret (n, buffer, p')
    ∧ n = Z.of_nat (length (head_text (wire_of r)) + 14) ∧ isFinished p' = -1 ∧ hasError p' = true.
Proof.
  intros Hw Hb Hlen. pose proof (dump_wire r Hw) as Hd. rewrite bool_decide_eq_false_2 in Hd by done.
  set (rest := lit "content-length; " ++ _) in Hd. rewrite Hd in *.
  destruct (execute_head (λ p cs _, p = Z.of_nat (length (head_text (wire_of r)) + 14) ∧ cs = 0)
    (wire_of r) rest [] bytes memory (wire_of_ok r Hw)) as (n & p' & E & _ & (Hn & Hcs) & _).
  - by rewrite app_nil_r.
  - intros h' cs' Hline _. unfold rest. change (lit "content-length; ") with (lit "content-length" ++ [x3b; x20]).
    rewrite <- app_assoc. apply reads_token; [done..|]. intros h1 cs1 Hcs1 _.
    cbn [app]. apply reads_refused; [by_check|done|by_check|].
    split; [|done]. by rewrite !length_app.
  - rewrite app_nil_r in E. eexists _, _, p'. split; [exact E|]. split; [done|].
    unfold isFinished, hasError, httpclient_parser_finish, httpclient_parser_has_error. rewrite Hcs.
    split; [done|]. by rewrite orb_true_r.
Qed.

(** The client refuses what [HttpResponse::dump] writes for a response with a body: the length
    is announced with a semicolon ([content-length; N]), and the parser stops with an error at this
    character, whatever the response is. *)
Theorem own_response_refused r bytes memory :
  wire_response r → HttpResponse.m_body r ≠ [] →
  Z.of_nat (length (HttpResponse.toString r)) < 2 ^ 31 →
  ∃ n buffer p', execute (HttpResponse.toString r ++ x00 :: bytes) (length (HttpResponse.toString r)) false
                   (make memory) = Ret (n, buffer, p')
    ∧ n = Z.of_nat (length (head_text (wire_of r)) + 14) ∧ isFinished p' = -1 ∧ hasError p' = true.
Proof. intros. by apply dump_refused. Qed.

(** ** Witnesses *)

Definition blank_client : httpclient_parser := mk_parser 0 0 0 0 0 0 0 0 0 0 0.

Definition empty_connection : list byte := lit "HTTP/1.1 200 OK" ++ crlf ++ lit "Connection:" ++ crlf ++ crlf.

(** Here the exception: the parser has read the whole header part, and is not finished. *)
Lemma response_parser_decides_witness :
  has_read (entering false (make blank_client)) []
  ∧ ∃ n p', execute (empty_connection ++ [x00]) (length empty_connection) false (make blank_client)
              = Ret (Z.of_nat n, overwrite (empty_connection ++ [x00]) 0 (drop n empty_connection), p')
      ∧ (n <= length empty_connection)%nat ∧ verdict [] empty_connection (m_parser p') n.
Proof.
  split; [apply init_has_read|].
  apply (response_parser_decides (make blank_client) false [] empty_connection []);
    [apply init_has_read|done|by vm_compute].
Defined.

Lemma empty_connection_unfinished :
  ∃ buffer p', execute (empty_connection ++ [x00]) (length empty_connection) false (make blank_client)
                 = Ret (Z.of_nat (length empty_connection), buffer, p')
    ∧ final_cs (cs (m_parser p')) = true ∧ isFinished p' = 0 ∧ hasError p' = false.
Proof. eexists _, _. split; [vm_compute; reflexivity|]. by vm_compute. Qed.

Definition sample_parts : response :=
  mk_response x30 503 (lit "Service Unavailable")
    [mk_header (lit "Server") [x20] (lit "sylar 1.0"); mk_header (lit "Content-Length") [] (lit "2")].

Lemma response_reads_witness :
  ∃ p', execute ((response_text sample_parts ++ lit "ok") ++ x00 :: [])
          (length (response_text sample_parts ++ lit "ok")) false (make blank_client)
        = Ret (Z.of_nat (length (response_text sample_parts)),
               overwrite ((response_text sample_parts ++ lit "ok") ++ x00 :: []) 0 (lit "ok"), p')
    ∧ isFinished p' = 1 ∧ HttpResponse.m_status (m_data p') = 503
    ∧ HttpResponse.m_version (m_data p') = 16
    ∧ find_key (HttpResponse.m_headers (m_data p')) (lit "SERVER") = Some (lit "sylar 1.0").
Proof.
  destruct (response_reads sample_parts (lit "ok") [] blank_client) as (p' & E & Hd & _ & _ & Hf).
  - unfold response_ok. split; [done|]. split; [done|]. split; [done|]. by vm_compute.
  - by vm_compute.
  - exists p'. split; [exact E|]. split; [by apply Hf|]. rewrite Hd. by vm_compute.
Defined.

Definition sample_response : HttpResponse.t :=
  HttpResponse.mk 404 17 false false [] [] [(lit "Server", lit "sylar 1.0")] [lit "a=1"; lit "b=2"].

Lemma sample_wire body : wire_response (HttpResponse.setBody body sample_response).
Proof. unfold wire_response. split; [by right|]. split; [done|]. split; [done|]. by vm_compute. Qed.

Lemma response_roundtrip_witness :
  ∃ p', execute ((HttpResponse.toString sample_response ++ lit "tail") ++ x00 :: [])
          (length (HttpResponse.toString sample_response ++ lit "tail")) false (make blank_client)
        = Ret (Z.of_nat (length (HttpResponse.toString sample_response)),
               overwrite ((HttpResponse.toString sample_response ++ lit "tail") ++ x00 :: []) 0 (lit "tail"), p')
    ∧ isFinished p' = 1 ∧ HttpResponse.m_reason (m_data p') = lit "Not Found"
    ∧ find_key (HttpResponse.m_headers (m_data p')) (lit "set-cookie") = Some (lit "b=2").
Proof.
  destruct (response_roundtrip sample_response (lit "tail") [] blank_client)
    as (p' & E & Hf & _ & (_ & _ & Hr & _ & Hk)).
  - apply (sample_wire []).
  - apply (map_assign_sorted CaseInsensitiveLess (lit "Server") (lit "sylar 1.0") []). constructor.
  - done.
  - by vm_compute.
  - exists p'. split; [exact E|]. split; [exact Hf|]. rewrite Hr, Hk. by vm_compute.
Defined.

Lemma own_response_refused_witness :
  let r := HttpResponse.setBody (lit "hello") sample_response in
  ∃ n buffer p', execute (HttpResponse.toString r ++ x00 :: []) (length (HttpResponse.toString r)) false
                   (make blank_client) = Ret (n, buffer, p') ∧ isFinished p' = -1 ∧ hasError p' = true.
Proof.
  destruct (own_response_refused (HttpResponse.setBody (lit "hello") sample_response) [] blank_client)
    as (n & buffer & p' & E & _ & Hf & He); [apply sample_wire|done|by vm_compute|].
  exists n, buffer, p'. split; [exact E|]. by split.
Defined.

(** A value whose text comes in two pieces is lost: the marks start again at the front, and the
    field has no name. *)
Lemma split_value_lost :
  let first := lit "HTTP/1.1 200 OK" ++ crlf ++ lit "Server: syl" in
  let second := lit "ar" ++ crlf ++ crlf in
  ∃ b1 p1 b2 p2,
    execute (first ++ [x00]) (length first) false (make blank_client) = Ret (Z.of_nat (length first), b1, p1)
    ∧ execute (second ++ [x00]) (length second) false p1 = Ret (Z.of_nat (length second), b2, p2)
    ∧ isFinished p2 = 1 ∧ hasError p2 = false ∧ HttpResponse.m_headers (m_data p2) = [].
Proof.
  eexists _, _, _, _. split; [vm_compute; reflexivity|]. split; [vm_compute; reflexivity|]. by vm_compute.
Qed.
