(* ===== verification/FdManager.v ===== *)
(** * FdCtx and FdManager (sylar/fd_manager.h, sylar/fd_manager.cpp)

    What the hooks know about a descriptor, and the table of it. Contexts are shared objects of a
    store; the table holds their addresses. The system calls a new context makes are arguments:
    [fstat fd] is [None] on failure and else whether the descriptor is a socket, [getfl fd] the
    flags [fcntl(F_GETFL)] gives; calls of [fcntl(F_SETFL)] are recorded. *)

From S2P Require Import Prelude.

Definition SO_RCVTIMEO : Z := 20.
Definition SO_SNDTIMEO : Z := 21.
Definition O_NONBLOCK : Z := 2048.

Module FdCtx.
Record t := mk {
  m_isInit : bool;
  m_isSocket : bool;
  m_sysNonblock : bool;
  m_userNonblock : bool;
  m_isClosed : bool;
  m_fd : Z;
  m_recvTimeout : Z;
  m_sendTimeout : Z;
}.

(** [init()]: the result, the object and the flags given to [F_SETFL]. *)
Definition init (fstat : Z → option bool) (getfl : Z → Z) (c : t) : bool * t * option Z :=
  if m_isInit c then (true, c, None)
  else
    let '(isInit, isSocket) := match fstat (m_fd c) with None => (false, false) | Some s => (true, s) end in
    let flags := getfl (m_fd c) in
    (isInit,
     mk isInit isSocket isSocket false false (m_fd c) (u64 (-1)) (u64 (-1)),
     if isSocket && (Z.land flags O_NONBLOCK =? 0) then Some (Z.lor flags O_NONBLOCK) else None).

(** [FdCtx(fd)]. *)
Definition make (fstat : Z → option bool) (getfl : Z → Z) (fd : Z) : t * option Z :=
  let '(_, c, fl) := init fstat getfl (mk false false false false false fd (u64 (-1)) (u64 (-1))) in (c, fl).

Definition isInit (c : t) : bool := m_isInit c.
Definition isSocket (c : t) : bool := m_isSocket c.
Definition isClosed (c : t) : bool := m_isClosed c.
Definition setUserNonblock (v : bool) (c : t) : t :=
  mk (m_isInit c) (m_isSocket c) (m_sysNonblock c) v (m_isClosed c) (m_fd c) (m_recvTimeout c) (m_sendTimeout c).
Definition getUserNonblock (c : t) : bool := m_userNonblock c.
Definition setSysNonblock (v : bool) (c : t) : t :=
  mk (m_isInit c) (m_isSocket c) v (m_userNonblock c) (m_isClosed c) (m_fd c) (m_recvTimeout c) (m_sendTimeout c).
Definition getSysNonblock (c : t) : bool := m_sysNonblock c.
Definition setTimeout (type v : Z) (c : t) : t :=
  if type =? SO_RCVTIMEO
  then mk (m_isInit c) (m_isSocket c) (m_sysNonblock c) (m_userNonblock c) (m_isClosed c) (m_fd c) v (m_sendTimeout c)
  else mk (m_isInit c) (m_isSocket c) (m_sysNonblock c) (m_userNonblock c) (m_isClosed c) (m_fd c) (m_recvTimeout c) v.
Definition getTimeout (type : Z) (c : t) : Z :=
  if type =? SO_RCVTIMEO then m_recvTimeout c else m_sendTimeout c.
End FdCtx.

Module FdManager.
(** [heap]: the objects; [m_datas]: the table of [shared_ptr]s; [setfl]: the [F_SETFL] calls. *)
Record t := mk {
  m_datas : list (option Z);
  heap : gmap Z FdCtx.t;
  setfl : list (Z * Z);
}.

(** [FdManager()]. *)
Definition make (h : gmap Z FdCtx.t) : t := mk (replicate 64 None) h [].

Section manager.
Context (fstat : Z → option bool) (getfl : Z → Z).

(** [m_datas.size() <= fd] converts [fd] to [size_t]. *)
Definition beyond (fd : Z) (s : t) : bool := Z.of_nat (length (m_datas s)) <=? u64 fd.

(** The two parts of [get(fd, auto_create)]: the lookup under the read lock, [None] when it goes
    on; and the creation under the write lock, which stores without another test. *)
Definition get_lookup (fd : Z) (auto_create : bool) (s : t) : option (option Z) :=
  if beyond fd s then if auto_create then None else Some None
  else
    let p := m_datas s !! Z.to_nat fd in
    if bool_decide (p ≠ None ∧ p ≠ Some None) || negb auto_create then Some (default None p) else None.
Definition get_create (fd addr : Z) : ST t (option Z) := fun s =>
  let '(c, fl) := FdCtx.make fstat getfl fd in
  let s := mk (m_datas s) (<[addr := c]> (heap s)) (setfl s ++ match fl with Some v => [(fd, v)] | None => [] end) in
  if beyond fd s then (Undef, s)
  else (Ret (Some addr), mk (<[Z.to_nat fd := Some addr]> (m_datas s)) (heap s) (setfl s)).

(** [get(fd, auto_create)]; [addr] is where a new context is allocated. *)
Definition get (fd : Z) (auto_create : bool) (addr : Z) : ST t (option Z) :=
  r ← gets (get_lookup fd auto_create);
  match r with Some p => mret p | None => get_create fd addr end.

(** [del(fd)]. *)
Definition del (fd : Z) : ST t unit := fun s =>
  if beyond fd s then (Ret tt, s)
  else (Ret tt, mk (<[Z.to_nat fd := None]> (m_datas s)) (heap s) (setfl s)).
End manager.

(** ** What it guarantees *)

(** The context of a descriptor. *)
Definition find (fd : Z) (s : t) : option Z := default None (m_datas s !! Z.to_nat fd).

Definition inv (s : t) : Prop :=
  length (m_datas s) = 64%nat
  ∧ ∀ fd p, 0 <= fd → find fd s = Some p → ∃ c, heap s !! p = Some c ∧ FdCtx.m_fd c = fd.

Lemma beyond_ok fd s : - 2 ^ 31 <= fd < 2 ^ 31 → inv s → beyond fd s = negb ((0 <=? fd) && (fd <? 64)).
Proof.
  intros Hfd [Hl _]. unfold beyond. rewrite Hl. change (Z.of_nat 64) with 64.
  destruct (Z.leb_spec 0 fd).
  - rewrite uwrap_small by (unfold fits_u; lia). destruct (Z.leb_spec 64 fd), (Z.ltb_spec fd 64); try lia; done.
  - replace (u64 fd) with (2 ^ 64 + fd) by (unfold uwrap; apply (Z.mod_unique_pos _ _ (-1)); lia).
    destruct (Z.leb_spec 64 (2 ^ 64 + fd)); [done|lia].
Qed.

Lemma find_insert fd fd' p (s : t) h f :
  inv s → 0 <= fd < 64 → 0 <= fd' →
  find fd' (mk (<[Z.to_nat fd := p]> (m_datas s)) h f) = if decide (fd' = fd) then p else find fd' s.
Proof.
  intros [Hl _] Hfd Hfd'. unfold find. cbn [m_datas]. case_decide as E.
  - subst. rewrite list_lookup_insert_eq by lia. done.
  - rewrite list_lookup_insert_ne by lia. done.
Qed.

(** The table keeps, for descriptors 0 to 63, the context created for that descriptor: looking
    one up gives it, and creates it once when asked to, in the state [FdCtx] describes (sockets
    made non-blocking, once); deleting forgets it; other descriptors are not affected. The
    table never grows, so creating a context for a descriptor outside that range, which every
    hooked [socket] and [accept] does, stores past its end. *)
Theorem fd_table fstat getfl s fd auto_create addr :
  inv s → - 2 ^ 31 <= fd < 2 ^ 31 → heap s !! addr = None →
  let '(r, s') := get fstat getfl fd auto_create addr s in
  if (0 <=? fd) && (fd <? 64) then
    inv s' ∧ inv (del fd s').2 ∧ find fd (del fd s').2 = None
    ∧ (∀ fd', 0 <= fd' → fd' ≠ fd → find fd' s' = find fd' s ∧ find fd' (del fd s').2 = find fd' s)
    ∧ match find fd s with
      | Some p => r = Ret (Some p) ∧ s' = s
      | None =>
          if auto_create
          then r = Ret (Some addr) ∧ find fd s' = Some addr
            ∧ heap s' = <[addr := (FdCtx.make fstat getfl fd).1]> (heap s)
            ∧ setfl s' = setfl s ++ (if default false (fstat fd) && (Z.land (getfl fd) O_NONBLOCK =? 0)
                                     then [(fd, Z.lor (getfl fd) O_NONBLOCK)] else [])
          else r = Ret None ∧ s' = s
      end
  else if auto_create then r = Undef else r = Ret None ∧ s' = s.
Proof.
  intros Hinv Hfd Haddr. pose proof Hinv as [Hl Hc].
  pose proof (beyond_ok fd s Hfd Hinv) as Hb.
  destruct (get fstat getfl fd auto_create addr s) as [r s'] eqn:E.
  unfold get in E. rewrite (st_bind_Ret (gets (get_lookup fd auto_create)) _ s _ s eq_refl) in E.
  unfold get_lookup in E. rewrite Hb in E.
  destruct ((0 <=? fd) && (fd <? 64)) eqn:Hr; cbn [negb] in E.
  - assert (0 <= fd < 64) as Hr' by lia.
    destruct (lookup_lt_is_Some_2 (m_datas s) (Z.to_nat fd)) as [p Hp]; [lia|].
    assert (find fd s = p) as Hfind by (unfold find; by rewrite Hp).
    assert (∀ s1, inv s1 → inv (del fd s1).2 ∧ find fd (del fd s1).2 = None
      ∧ ∀ fd', 0 <= fd' → fd' ≠ fd → find fd' (del fd s1).2 = find fd' s1) as Hdel.
    { intros s1 Hs1. unfold del. rewrite (beyond_ok fd s1 Hfd Hs1), Hr. cbn [negb snd]. split_and!.
      - destruct Hs1 as [Hl1 Hc1]. split; [cbn; by rewrite length_insert|]. intros fd' q Hfd'.
        rewrite find_insert by done. destruct (decide (fd' = fd)); [done|]. by apply Hc1.
      - rewrite find_insert by (done || lia). by rewrite decide_True by done.
      - intros fd' H0 Hne. rewrite find_insert by done. by rewrite decide_False by done. }
    rewrite Hp in E. rewrite Hfind. destruct p as [p|].
    + rewrite bool_decide_true in E by done. cbn [orb default] in E.
      injection E as <- <-. destruct (Hdel s Hinv) as (? & ? & ?). split_and!; try done. by eauto.
    + rewrite bool_decide_false in E by tauto. destruct auto_create; cbn [orb negb default] in E.
      * unfold get_create in E. destruct (FdCtx.make fstat getfl fd) as [c fl] eqn:Em.
        cbv zeta in E. assert (beyond fd (mk (m_datas s) (<[addr:=c]> (heap s))
          (setfl s ++ match fl with Some v => [(fd, v)] | None => [] end)) = false) as Hb'
          by (unfold beyond in *; cbn [m_datas]; by rewrite Hb).
        rewrite Hb' in E. injection E as <- <-.
        assert (c = (FdCtx.make fstat getfl fd).1 ∧ FdCtx.m_fd c = fd
          ∧ fl = if default false (fstat fd) && (Z.land (getfl fd) O_NONBLOCK =? 0)
                 then Some (Z.lor (getfl fd) O_NONBLOCK) else None) as (Hc' & Hcfd & Hfl).
        { rewrite Em. unfold FdCtx.make, FdCtx.init in Em. cbn in Em.
          destruct (fstat fd); simplify_eq/=; done. }
        assert (inv (mk (<[Z.to_nat fd:=Some addr]> (m_datas s)) (<[addr:=c]> (heap s))
          (setfl s ++ match fl with Some v => [(fd, v)] | None => [] end))) as Hinv'.
        { split; [cbn; by rewrite length_insert|]. intros fd' q Hfd'.
          rewrite find_insert by done. cbn [heap]. destruct (decide (fd' = fd)) as [Ed|Ed].
          - intros [= <-]. exists c. rewrite lookup_insert_eq. subst. done.
          - intros Hq. destruct (Hc fd' q Hfd' Hq) as (c' & Hc1 & Hc2). exists c'.
            rewrite lookup_insert_ne by congruence. done. }
        cbn [m_datas heap setfl]. destruct (Hdel _ Hinv') as (Hd1 & Hd2 & Hd3).
        split_and!; try done.
        -- intros fd' H0 Hne. rewrite Hd3, find_insert by done. by rewrite decide_False by done.
        -- rewrite find_insert by (done || lia). by rewrite decide_True by done.
        -- cbn [setfl]. rewrite Hfl. by destruct (default false (fstat fd) && _).
      * injection E as <- <-. destruct (Hdel s Hinv) as (? & ? & ?). split_and!; try done. by eauto.
  - destruct auto_create; [|injection E as <- <-; done].
    unfold get_create in E. destruct (FdCtx.make fstat getfl fd) as [c fl]. cbv zeta in E.
    assert (beyond fd (mk (m_datas s) (<[addr:=c]> (heap s))
      (setfl s ++ match fl with Some v => [(fd, v)] | None => [] end)) = true) as Hb'
      by (unfold beyond in *; cbn [m_datas]; by rewrite Hb).
    rewrite Hb' in E. by simplify_eq.
Qed.

Lemma fdctx_make_inv h : inv (make h).
Proof.
  split; [done|]. intros fd p Hfd. unfold find, make. cbn [m_datas].
  destruct (replicate 64 None !! Z.to_nat fd) eqn:E; [|done]. by apply lookup_replicate in E as [-> _].
Qed.

Lemma fd_table_witness :
  let '(r, s') := get (fun _ => Some true) (fun _ => 0) 64 true 1 (make ∅) in r = Undef.
Proof.
  pose proof (fd_table (fun _ => Some true) (fun _ => 0) (make ∅) 64 true 1 (fdctx_make_inv ∅)
    ltac:(lia) (lookup_empty 1)) as H.
  destruct (get _ _ 64 true 1 (make ∅)). exact H.
Defined.
End FdManager.
