(* ===== verification/Socket.v ===== *)
(** * Sockets (sylar/socket.h, sylar/socket.cpp)

    An object over a descriptor: its descriptor, whether it is connected, and the two addresses it
    remembers. The calls of the socket layer, which the hooks replace, are the class [Sys] over a
    state of the world; the table of descriptors is part of that world. An operation acts on the
    object and the world. *)

From S2P Require Import Prelude Endian CString Address FdManager.

Definition SOCK_STREAM : Z := 1.
Definition SOCK_DGRAM : Z := 2.
Definition SOL_SOCKET : Z := 1.
Definition SO_REUSEADDR : Z := 2.
Definition SO_ERROR : Z := 4.
Definition IPPROTO_TCP : Z := 6.
Definition TCP_NODELAY : Z := 1.

(** What [setsockopt] is given here: an [int] or a [timeval]. *)
Inductive optval := OptInt (v : Z) | OptTimeval (tv_sec tv_usec : Z).

(** The calls with their results. A receiving call gives the number it returns and the bytes it
    stores; [getpeername] the memory it writes and the length, or nothing when it fails. *)
Class Sys (W : Type) := {
  fdmgr : W → FdManager.t;
  sys_socket : Z → Z → Z → W → Z * W;
  sys_accept : Z → W → Z * W;
  sys_bind : Z → list byte → Z → W → Z * W;
  sys_connect : Z → list byte → Z → W → Z * W;
  connect_with_timeout : Z → list byte → Z → Z → W → Z * W;
  sys_listen : Z → Z → W → Z * W;
  sys_close : Z → W → Z * W;
  sys_send : Z → list byte → Z → W → Z * W;
  sys_sendto : Z → list byte → Z → list byte → Z → W → Z * W;
  sys_sendmsg : Z → list (list byte) → option (list byte * Z) → Z → W → Z * W;
  sys_recv : Z → Z → Z → W → (Z * list byte) * W;
  sys_recvfrom : Z → Z → Z → Z → W → (Z * list byte * list byte) * W;
  sys_recvmsg : Z → list Z → option Z → Z → W → (Z * list byte * list byte) * W;
  sys_getpeername : Z → Z → W → option (list byte * Z);
  sys_getsockopt : Z → Z → Z → W → option Z;
  sys_setsockopt : Z → Z → Z → optval → W → Z * W;
}.

(** [sockaddr] memory of an address after a call has written [m] into it. *)
Definition address_store (a : Address.t) (m : list byte) : outcome Address.t :=
  if (length (Address.getAddr a) <? length m)%nat then Undef
  else
    let m := overwrite (Address.getAddr a) 0 m in
    match a with
    | Address.IPv4 _ => x ← Address.sockaddr_in_of m; Ret (Address.IPv4 x)
    | Address.IPv6 _ => x ← Address.sockaddr_in6_of m; Ret (Address.IPv6 x)
    | Address.Unix u => Ret (Address.Unix (UnixAddress.mk (le_join (m.[0, 2])) (drop 2 m) (UnixAddress.m_length u)))
    | Address.Unknown _ => x ← Address.sockaddr_of m; Ret (Address.Unknown x)
    end.

Module Socket.
Record t := mk {
  m_sock : Z;
  m_family : Z;
  m_type : Z;
  m_protocol : Z;
  m_isConnected : bool;
  m_localAddress : option Address.t;
  m_remoteAddress : option Address.t;
}.

Definition make (family type protocol : Z) : t := mk (-1) family type protocol false None None.
Definition CreateTCP (address : Address.t) : t := make (Address.getFamily address) SOCK_STREAM 0.
Definition CreateUDP (address : Address.t) : t := make (Address.getFamily address) SOCK_DGRAM 0.
Definition CreateTCPSocket : t := make AF_INET SOCK_STREAM 0.
Definition CreateUDPSocket : t := make AF_INET SOCK_DGRAM 0.
Definition CreateTCPSocket6 : t := make AF_INET6 SOCK_STREAM 0.
Definition CreateUDPSocket6 : t := make AF_INET6 SOCK_DGRAM 0.
Definition CreateTCPUnixSocket : t := make AF_UNIX SOCK_STREAM 0.
Definition CreateUDPUnixSocket : t := make AF_UNIX SOCK_DGRAM 0.

Definition set_sock (v : Z) (o : t) : t :=
  mk v (m_family o) (m_type o) (m_protocol o) (m_isConnected o) (m_localAddress o) (m_remoteAddress o).
Definition set_isConnected (v : bool) (o : t) : t :=
  mk (m_sock o) (m_family o) (m_type o) (m_protocol o) v (m_localAddress o) (m_remoteAddress o).
Definition set_localAddress (v : option Address.t) (o : t) : t :=
  mk (m_sock o) (m_family o) (m_type o) (m_protocol o) (m_isConnected o) v (m_remoteAddress o).
Definition set_remoteAddress (v : option Address.t) (o : t) : t :=
  mk (m_sock o) (m_family o) (m_type o) (m_protocol o) (m_isConnected o) (m_localAddress o) v.

Definition isConnected (o : t) : bool := m_isConnected o.
Definition isVaild (o : t) : bool := negb (m_sock o =? -1).

(** [operator<<]. *)
Definition dec_int (v : Z) : list byte := if v <? 0 then lit "-" ++ dec (- v) else dec v.
Definition dump (o : t) : outcome (list byte) :=
  l ← match m_localAddress o with
      | Some a => s ← Address.toString a; Ret (lit " local_address=" ++ s)
      | None => Ret []
      end;
  r ← match m_remoteAddress o with
      | Some a => s ← Address.toString a; Ret (lit " remote_address" ++ s)
      | None => Ret []
      end;
  Ret (lit "[Socket sock=" ++ dec_int (m_sock o)
       ++ lit " is_connected=" ++ (if m_isConnected o then lit "1" else lit "0")
       ++ lit " family=" ++ dec_int (m_family o) ++ lit " type=" ++ dec_int (m_type o)
       ++ lit " protocol=" ++ dec_int (m_protocol o) ++ l ++ r ++ lit "]").

Section operations.
Context {W : Type} `{Sys W}.

(** Access to the object, and a call on the world. *)
Definition obj : ST (t * W) t := gets fst.
Definition upd (f : t → t) : ST (t * W) unit := modify (fun s => (f s.1, s.2)).
Definition call {A} (f : W → A * W) : ST (t * W) A := fun s => let '(a, w) := f s.2 in (Ret a, (s.1, w)).

(** [FdMgr::GetInstance()->get(fd)]. *)
Definition fd_ctx (fd : Z) (w : W) : option FdCtx.t :=
  p ← default None (FdManager.get_lookup fd false (fdmgr w)); FdManager.heap (fdmgr w) !! p.

Definition setOption (level optname : Z) (v : optval) : ST (t * W) bool :=
  o ← obj; rt ← call (sys_setsockopt (m_sock o) level optname v); mret (rt =? 0).
Definition getOption (level optname : Z) : ST (t * W) (option Z) :=
  s ← get; mret (sys_getsockopt (m_sock s.1) level optname s.2).

Definition getSendTimeout : ST (t * W) Z :=
  s ← get;
  mret match fd_ctx (m_sock s.1) s.2 with Some c => s64 (FdCtx.getTimeout SO_SNDTIMEO c) | None => -1 end.
Definition getRecvTimeout : ST (t * W) Z :=
  s ← get;
  mret match fd_ctx (m_sock s.1) s.2 with Some c => s64 (FdCtx.getTimeout SO_RCVTIMEO c) | None => -1 end.

Definition timeval_of (v : Z) : optval := OptTimeval (s32 (Z.quot v 1000)) (s32 (Z.rem v 1000 * 1000)).
Definition setSendTimeout (v : Z) : ST (t * W) unit :=
  setOption SOL_SOCKET SO_SNDTIMEO (timeval_of v);; mret tt.
Definition setRecvTimeout (v : Z) : ST (t * W) unit :=
  setOption SOL_SOCKET SO_RCVTIMEO (timeval_of v);; mret tt.

Definition getError : ST (t * W) Z :=
  e ← getOption SOL_SOCKET SO_ERROR; mret (default (-1) e).

Definition initSock : ST (t * W) unit :=
  setOption SOL_SOCKET SO_REUSEADDR (OptInt 1);;
  o ← obj;
  if m_type o =? SOCK_STREAM then setOption IPPROTO_TCP TCP_NODELAY (OptInt 1);; mret tt else mret tt.

Definition newSock : ST (t * W) unit :=
  o ← obj;
  fd ← call (sys_socket (m_family o) (m_type o) (m_protocol o));
  upd (set_sock fd);;
  if negb (fd =? -1) then initSock else mret tt.

(** The address object a name is received in. *)
Definition address_for (family : Z) : Address.t :=
  if family =? AF_INET then Address.IPv4 (IPv4Address.make 0 0)
  else if family =? AF_INET6 then Address.IPv6 IPv6Address.make
  else if family =? AF_UNIX then Address.Unix UnixAddress.make
  else Address.Unknown (UnknownAddress.make family).

(** The part the two getters share: both ask for the name of the peer. [None]: the call failed. *)
Definition peer_address : ST (t * W) (option Address.t) :=
  s ← get;
  let o := s.1 in
  let result := address_for (m_family o) in
  match sys_getpeername (m_sock o) (Address.getAddrLen result) s.2 with
  | None => mret None
  | Some (m, addrlen) =>
      a ← lift (address_store result m);
      mret (Some match a with
                 | Address.Unix u =>
                     if m_family o =? AF_UNIX then Address.Unix (UnixAddress.setAddrLen addrlen u) else a
                 | _ => a
                 end)
  end.

Definition getRemoteAddress : ST (t * W) Address.t :=
  o ← obj;
  match m_remoteAddress o with
  | Some a => mret a
  | None =>
      r ← peer_address;
      match r with
      | None => mret (Address.Unknown (UnknownAddress.make (m_family o)))
      | Some a => upd (set_remoteAddress (Some a));; mret a
      end
  end.

Definition getLocalAddress : ST (t * W) Address.t :=
  o ← obj;
  match m_localAddress o with
  | Some a => mret a
  | None =>
      r ← peer_address;
      match r with
      | None => mret (Address.Unknown (UnknownAddress.make (m_family o)))
      | Some a => upd (set_localAddress (Some a));; mret a
      end
  end.

Definition init (sock : Z) : ST (t * W) bool :=
  s ← get;
  match fd_ctx sock s.2 with
  | Some c =>
      if FdCtx.isSocket c && negb (FdCtx.isClosed c) then
        upd (set_sock sock);;
        upd (set_isConnected true);;
        initSock;;
        getLocalAddress;;
        getRemoteAddress;;
        mret true
      else mret false
  | None => mret false
  end.

(** [accept()]: the new object, if any; an object that [init] refuses holds no descriptor when it
    is destroyed. *)
Definition accept : ST (t * W) (option t) := fun s =>
  let '(newsock, w) := sys_accept (m_sock s.1) s.2 in
  if newsock =? -1 then (Ret None, (s.1, w))
  else
    match init newsock (make (m_family s.1) (m_type s.1) (m_protocol s.1), w) with
    | (Ret b, (o, w)) => (Ret (if b then Some o else None), (s.1, w))
    | (Throw e, (_, w)) => (Throw e, (s.1, w))
    | (Abort, (_, w)) => (Abort, (s.1, w))
    | (Undef, (_, w)) => (Undef, (s.1, w))
    | (NoFuel, (_, w)) => (NoFuel, (s.1, w))
    end.

Definition close : ST (t * W) bool :=
  o ← obj;
  if negb (m_isConnected o) && (m_sock o =? -1) then mret true
  else
    upd (set_isConnected false);;
    (if negb (m_sock o =? -1) then call (sys_close (m_sock o));; upd (set_sock (-1)) else mret tt);;
    mret false.

Definition bind (addr : Address.t) : ST (t * W) bool :=
  (o ← obj; if isVaild o then mret tt else newSock);;
  o ← obj;
  if negb (isVaild o) then mret false
  else if negb (Address.getFamily addr =? m_family o) then mret false
  else
    rt ← call (sys_bind (m_sock o) (Address.getAddr addr) (Address.getAddrLen addr));
    if negb (rt =? 0) then mret false
    else getLocalAddress;; mret true.

Definition connect (addr : Address.t) (timeout_ms : Z) : ST (t * W) bool :=
  upd (set_remoteAddress (Some addr));;
  (o ← obj; if isVaild o then mret tt else newSock);;
  o ← obj;
  if negb (isVaild o) then mret false
  else if negb (Address.getFamily addr =? m_family o) then mret false
  else
    rt ← (if timeout_ms =? u64 (-1)
          then call (sys_connect (m_sock o) (Address.getAddr addr) (Address.getAddrLen addr))
          else call (connect_with_timeout (m_sock o) (Address.getAddr addr) (Address.getAddrLen addr) timeout_ms));
    if negb (rt =? 0) then close;; mret false
    else
      upd (set_isConnected true);;
      getRemoteAddress;;
      getLocalAddress;;
      mret true.

Definition listen (backlog : Z) : ST (t * W) bool :=
  o ← obj;
  if negb (isVaild o) then mret false
  else rt ← call (sys_listen (m_sock o) backlog); mret (rt =? 0).

(** Sending and receiving; results are converted from [ssize_t] to [int]. *)
Definition send (buffer : list byte) (flags : Z) : ST (t * W) Z :=
  o ← obj;
  if isConnected o then n ← call (sys_send (m_sock o) buffer flags); mret (s32 n) else mret (-1).
Definition send_iov (buffers : list (list byte)) (flags : Z) : ST (t * W) Z :=
  o ← obj;
  if isConnected o then n ← call (sys_sendmsg (m_sock o) buffers None flags); mret (s32 n) else mret (-1).
Definition sendTo (buffer : list byte) (to : Address.t) (flags : Z) : ST (t * W) Z :=
  o ← obj;
  if isConnected o then
    n ← call (sys_sendto (m_sock o) buffer flags (Address.getAddr to) (Address.getAddrLen to)); mret (s32 n)
  else mret (-1).
Definition sendTo_iov (buffers : list (list byte)) (to : Address.t) (flags : Z) : ST (t * W) Z :=
  o ← obj;
  if isConnected o then
    n ← call (sys_sendmsg (m_sock o) buffers (Some (Address.getAddr to, Address.getAddrLen to)) flags);
    mret (s32 n)
  else mret (-1).
Definition recv (length flags : Z) : ST (t * W) (Z * list byte) :=
  o ← obj;
  if isConnected o then r ← call (sys_recv (m_sock o) length flags); mret (s32 r.1, r.2) else mret (-1, []).
Definition recv_iov (buffers : list Z) (flags : Z) : ST (t * W) (Z * list byte) :=
  o ← obj;
  if isConnected o then
    r ← call (sys_recvmsg (m_sock o) buffers None flags); mret (s32 r.1.1, r.1.2)
  else mret (-1, []).
Definition recvFrom (length : Z) (from : Address.t) (flags : Z) : ST (t * W) (Z * list byte * Address.t) :=
  o ← obj;
  if isConnected o then
    r ← call (sys_recvfrom (m_sock o) length flags (Address.getAddrLen from));
    a ← lift (address_store from r.2); mret (s32 r.1.1, r.1.2, a)
  else mret (-1, [], from).
Definition recvFrom_iov (buffers : list Z) (from : Address.t) (flags : Z)
    : ST (t * W) (Z * list byte * Address.t) :=
  o ← obj;
  if isConnected o then
    r ← call (sys_recvmsg (m_sock o) buffers (Some (Address.getAddrLen from)) flags);
    a ← lift (address_store from r.2); mret (s32 r.1.1, r.1.2, a)
  else mret (-1, [], from).
End operations.
End Socket.
