(* ===== verification/SocketProps.v ===== *)
(** * What keeps a socket object in order

    The invariant of [Socket]: an object that says it is connected has a descriptor, and the kind
    of the socket never changes. Every operation keeps it, in every world and however it ends. *)

From S2P Require Import Prelude Endian Address FdManager Socket.
Import Socket.

Section triples.
Context {W : Type} `{Sys W}.

(** [m] takes objects with [P] to objects with [Q], whatever it returns. *)
Definition triple {A} (P : t → Prop) (m : ST (t * W) A) (Q : t → Prop) : Prop :=
  ∀ o w r o' w', P o → m (o, w) = (r, (o', w')) → Q o'.

Lemma triple_bind {A B} P (m : ST (t * W) A) R (f : A → ST (t * W) B) Q :
  triple P m R → (∀ a, triple R (f a) Q) → (∀ o, R o → Q o) → triple P (m ≫= f) Q.
Proof.
  intros Hm Hf HRQ o w r o' w' HP E. unfold mbind, st_bind in E.
  destruct (m (o, w)) as [x [o1 w1]] eqn:Em. specialize (Hm o w x o1 w1 HP Em).
  destruct x; [by eapply Hf|simplify_eq; by apply HRQ..].
Qed.

Lemma triple_obj {B} (P : t → Prop) (f : t → ST (t * W) B) Q :
  (∀ x, P x → triple (λ o, o = x) (f x) Q) → triple P (obj ≫= f) Q.
Proof.
  intros Hf o w r o' w' HP E. unfold mbind, st_bind, obj, gets in E. cbn in E. by eapply Hf.
Qed.

Lemma triple_get {B} (P : t → Prop) (f : t * W → ST (t * W) B) Q :
  (∀ x, P x.1 → triple (λ o, o = x.1) (f x) Q) → triple P (get ≫= f) Q.
Proof.
  intros Hf o w r o' w' HP E. unfold mbind, st_bind, get in E. cbn in E.
  by eapply (Hf (o, w)).
Qed.

Lemma triple_ret {A} (P : t → Prop) (a : A) : triple P (mret a) P.
Proof. intros o w r o' w' HP E. unfold mret, st_ret in E. by simplify_eq. Qed.
Lemma triple_lift {A} (P : t → Prop) (a : outcome A) : triple P (lift a) P.
Proof. intros o w r o' w' HP E. unfold lift in E. by simplify_eq. Qed.
Lemma triple_call {A} (P : t → Prop) (c : W → A * W) : triple P (call c) P.
Proof. intros o w r o' w' HP E. unfold call in E. destruct (c _). by simplify_eq/=. Qed.
Lemma triple_upd (P Q : t → Prop) f : (∀ o, P o → Q (f o)) → triple P (upd f) Q.
Proof. intros Hf o w r o' w' HP E. unfold upd, modify in E. simplify_eq/=. by apply Hf. Qed.

Lemma triple_weaken {A} (P P' Q Q' : t → Prop) (m : ST (t * W) A) :
  (∀ o, P' o → P o) → (∀ o, Q o → Q' o) → triple P m Q → triple P' m Q'.
Proof. intros HP HQ Hm o w r o' w' H1 E. by eapply HQ, Hm, E; apply HP. Qed.
End triples.

#[export] Hint Resolve triple_ret triple_lift triple_call : socket.

(** An object that says it is connected has a descriptor. *)
Definition wf (o : t) : Prop := m_isConnected o = true → m_sock o ≠ -1.
(** The kind of socket the object was made for. *)
Definition kind (o : t) : Z * Z * Z := (m_family o, m_type o, m_protocol o).
Definition good (k : Z * Z * Z) (o : t) : Prop := wf o ∧ kind o = k.
(** Objects with a descriptor. *)
Definition valid (k : Z * Z * Z) (o : t) : Prop := m_sock o ≠ -1 ∧ kind o = k.

Lemma valid_good k o : valid k o → good k o.
Proof. intros [? ?]. split; [by intros ?|done]. Qed.

Section operations.
Context {W : Type} `{Sys W}.
Implicit Types (P : t → Prop).

(** Predicates that the remembered addresses do not matter for. *)
Definition address_free (P : t → Prop) : Prop :=
  ∀ o a, P o → P (set_localAddress a o) ∧ P (set_remoteAddress a o).

(** Below the object itself, the predicate is what counts. *)
Lemma triple_at {A} P x (m : ST (t * W) A) Q : P x → triple P m Q → triple (λ o, o = x) m Q.
Proof. intros Hx. apply triple_weaken; [by intros o ->|done]. Qed.

Lemma setOption_keeps P level optname v : triple P (setOption level optname v) P.
Proof.
  apply triple_obj. intros x Hx. apply (triple_at P); [done|].
  eapply triple_bind; [apply triple_call|intros a; apply triple_ret|done].
Qed.

Lemma seq_keeps {A B} P (m : ST (t * W) A) (n : ST (t * W) B) Q :
  triple P m P → triple P n Q → (∀ o, P o → Q o) → triple P (m ≫= λ _, n) Q.
Proof. intros Hm Hn HPQ. eapply triple_bind; [apply Hm|by intros|done]. Qed.

Lemma initSock_keeps P : triple P initSock P.
Proof.
  apply seq_keeps; [apply setOption_keeps| |done]. apply triple_obj. intros x Hx. apply (triple_at P); [done|].
  destruct (_ =? _); [|apply triple_ret].
  apply seq_keeps; [apply setOption_keeps|apply triple_ret|done].
Qed.

Lemma peer_address_keeps P : triple P peer_address P.
Proof.
  apply triple_get. intros x Hx. apply (triple_at P x.1); [done|].
  cbv zeta. case_match; [case_match|apply triple_ret]. 
  eapply triple_bind; [apply triple_lift|intros a; apply triple_ret|done].
Qed.

Lemma getRemoteAddress_keeps P : address_free P → triple P getRemoteAddress P.
Proof.
  intros HP. apply triple_obj. intros x Hx.
  apply (triple_at P); [done|].
  destruct (m_remoteAddress x); [apply triple_ret|].
  eapply triple_bind; [apply peer_address_keeps| |done]. intros [a|]; [|apply triple_ret].
  apply seq_keeps; [apply triple_upd; intros o Ho; by apply HP|apply triple_ret|done].
Qed.
Lemma getLocalAddress_keeps P : address_free P → triple P getLocalAddress P.
Proof.
  intros HP. apply triple_obj. intros x Hx.
  apply (triple_at P); [done|].
  destruct (m_localAddress x); [apply triple_ret|].
  eapply triple_bind; [apply peer_address_keeps| |done]. intros [a|]; [|apply triple_ret].
  apply seq_keeps; [apply triple_upd; intros o Ho; by apply HP|apply triple_ret|done].
Qed.

Lemma good_address_free k : address_free (good k).
Proof. by intros o a [? ?]. Qed.
Lemma valid_address_free k : address_free (valid k).
Proof. by intros o a [? ?]. Qed.

(** [newSock] is called for objects without a descriptor. *)
Lemma newSock_keeps k : triple (λ o, good k o ∧ m_sock o = -1) newSock (good k).
Proof.
  apply triple_obj. intros x [[Hw Hk] Hm].
  apply (triple_weaken (λ o, m_isConnected o = false ∧ kind o = k) _ (good k)).
  - intros o ->. split; [|done]. unfold wf in Hw. destruct (m_isConnected x); [by destruct Hw|done].
  - done.
  - eapply triple_bind; [apply triple_call| |intros o [Ho Hk']; split; [by intros Hc; rewrite Hc in Ho|done]].
    intros fd. apply (triple_weaken (λ o, m_isConnected o = false ∧ kind o = k) _
      (λ o, m_isConnected o = false ∧ kind o = k)); [done| |].
    { intros o [Ho Hk']. split; [intros Hc; by rewrite Hc in Ho|done]. }
    apply seq_keeps; [by apply triple_upd| |done]. destruct (negb _); [apply initSock_keeps|apply triple_ret].
Qed.

(** The first step of [bind] and [connect]. *)
Lemma ensure_keeps k :
  triple (good k) (o ← obj; if isVaild o then mret tt else newSock) (good k).
Proof.
  apply triple_obj. intros x Hx. destruct (isVaild x) eqn:E.
  - eapply triple_weaken; [|intros o Ho; exact Ho|apply triple_ret]. by intros o ->.
  - eapply triple_weaken; [|intros o Ho; exact Ho|apply newSock_keeps].
    intros o ->. split; [done|]. unfold isVaild in E. lia.
Qed.

Lemma isVaild_sock o : isVaild o = true → m_sock o ≠ -1.
Proof. unfold isVaild. lia. Qed.

Lemma close_keeps_good k : triple (good k) close (good k).
Proof.
  apply triple_obj. intros x Hx. apply (triple_weaken (λ o, kind o = k ∧ o = x) _ (good k)).
  { intros o ->. split; [apply Hx|done]. } { done. }
  destruct (negb _ && _) eqn:E.
  - eapply triple_weaken; [|intros o Ho; exact Ho|apply triple_ret]. by intros o [_ ->].
  - eapply (triple_bind _ _ (λ o, kind o = k ∧ m_isConnected o = false)).
    + apply triple_upd. by intros o [? ->].
    + intros _. apply (triple_weaken (λ o, kind o = k ∧ m_isConnected o = false) _
        (λ o, kind o = k ∧ m_isConnected o = false)); [done| |].
      { intros o [? Ho]. split; [intros Hc; by rewrite Hc in Ho|done]. }
      apply seq_keeps; [|apply triple_ret|done]. destruct (negb (m_sock x =? -1)); [|apply triple_ret].
      apply seq_keeps; [apply triple_call|by apply triple_upd|done].
    + intros o [? Ho]. split; [intros Hc; by rewrite Hc in Ho|done].
Qed.

Lemma bind_keeps_good k addr : triple (good k) (bind addr) (good k).
Proof.
  apply seq_keeps; [apply ensure_keeps| |done]. apply triple_obj. intros x Hx.
  apply (triple_at (good k)); [done|].
  destruct (negb (isVaild x)); [apply triple_ret|]. destruct (negb _); [apply triple_ret|].
  eapply triple_bind; [apply triple_call| |done]. intros rt. destruct (negb _); [apply triple_ret|].
  apply seq_keeps; [apply getLocalAddress_keeps, good_address_free|apply triple_ret|done].
Qed.

(** The last step of [connect]. *)
Lemma connected_keeps k :
  triple (valid k) (upd (set_isConnected true);; getRemoteAddress;; getLocalAddress;; mret true)
    (λ o, valid k o ∧ m_isConnected o = true).
Proof.
  eapply (triple_bind _ _ (λ o, valid k o ∧ m_isConnected o = true)); [by apply triple_upd| |done].
  intros _. assert (address_free (λ o, valid k o ∧ m_isConnected o = true)) by (by intros o a [[? ?] ?]).
  apply seq_keeps; [by apply getRemoteAddress_keeps| |done].
  apply seq_keeps; [by apply getLocalAddress_keeps|apply triple_ret|done].
Qed.

Lemma connect_keeps_good k addr timeout_ms : triple (good k) (connect addr timeout_ms) (good k).
Proof.
  apply seq_keeps; [apply triple_upd; intros o Ho; by apply good_address_free| |done].
  apply seq_keeps; [apply ensure_keeps| |done]. apply triple_obj. intros x Hx.
  destruct (isVaild x) eqn:E; cbn [negb]; [|by eapply triple_weaken; [|intros o Ho; exact Ho|apply triple_ret]; intros o ->].
  apply (triple_weaken (λ o, valid k o ∧ good k o) _ (good k)).
  { intros o ->. split; [|done]. split; [by apply isVaild_sock|apply Hx]. } { done. }
  destruct (negb _); [eapply triple_weaken; [|intros o Ho; exact Ho|apply triple_ret]; by intros o [_ ?]|].
  eapply (triple_bind _ _ (λ o, valid k o ∧ good k o)).
  - destruct (_ =? _); apply triple_call.
  - intros rt. destruct (negb _).
    + eapply triple_weaken; [|intros o Ho; exact Ho|apply seq_keeps; [apply close_keeps_good|apply triple_ret|done]].
      by intros o [_ ?].
    + eapply triple_weaken; [| |apply connected_keeps].
      * by intros o [? _].
      * intros o [? _]. by apply valid_good.
  - by intros o [_ ?].
Qed.

Lemma call_keeps P {A B} (c : t → W → A * W) (g : A → B) (d : B) :
  triple P (o ← obj; if isConnected o then a ← call (c o); mret (g a) else mret d) P.
Proof.
  apply triple_obj. intros x Hx. apply (triple_at P); [done|]. destruct (isConnected x); [|apply triple_ret].
  eapply triple_bind; [apply triple_call|intros a; apply triple_ret|done].
Qed.

Lemma address_call_keeps P {A B} (c : t → W → A * W) (g : A → outcome Address.t) (h : A → Address.t → B) (d : B) :
  triple P (o ← obj; if isConnected o then a ← call (c o); x ← lift (g a); mret (h a x) else mret d) P.
Proof.
  apply triple_obj. intros x Hx. apply (triple_at P); [done|]. destruct (isConnected x); [|apply triple_ret].
  eapply triple_bind; [apply triple_call| |done]. intros a.
  eapply triple_bind; [apply triple_lift|intros y; apply triple_ret|done].
Qed.

Lemma listen_keeps P backlog : triple P (listen backlog) P.
Proof.
  apply triple_obj. intros x Hx. apply (triple_at P); [done|]. destruct (negb _); [apply triple_ret|].
  eapply triple_bind; [apply triple_call|intros a; apply triple_ret|done].
Qed.

Lemma accept_keeps P : triple P accept P.
Proof.
  intros o w r o' w' HP E. unfold accept in E. cbn [fst snd] in E.
  destruct (sys_accept _ _) as [newsock w1]. destruct (newsock =? -1); [by simplify_eq|].
  destruct (init _ _) as [[] [o1 w2]]; by simplify_eq.
Qed.

(** An object that [accept] returns is connected, with a descriptor, and of the same kind. *)
Lemma init_connected sock k o w o' w' :
  sock ≠ -1 → kind o = k → init sock (o, w) = (Ret true, (o', w')) → valid k o' ∧ m_isConnected o' = true.
Proof.
  intros Hs Hk E. unfold init in E. unfold mbind at 1, st_bind at 1, get in E. cbn [fst snd] in E.
  destruct (fd_ctx sock w) as [c|]; [|done]. destruct (_ && _); [|done].
  set (P := λ o, valid k o ∧ m_isConnected o = true).
  assert (address_free P) as HP by (by intros x a [[? ?] ?]).
  change (((upd (set_sock sock);; upd (set_isConnected true);; initSock;; getLocalAddress;;
    getRemoteAddress;; mret true) : ST (t * W) bool) (o, w))
    with ((initSock;; getLocalAddress;; getRemoteAddress;; mret true : ST (t * W) bool)
      (set_isConnected true (set_sock sock o), w)) in E.
  assert (triple P (initSock;; getLocalAddress;; getRemoteAddress;; mret true : ST (t * W) bool) P) as Ht.
  { apply seq_keeps; [apply initSock_keeps| |done].
    apply seq_keeps; [by apply getLocalAddress_keeps| |done].
    apply seq_keeps; [by apply getRemoteAddress_keeps|apply triple_ret|done]. }
  by eapply Ht, E.
Qed.

Lemma accept_connected o w n s :
  accept (o, w) = (Ret (Some n), s) → valid (kind o) n ∧ m_isConnected n = true.
Proof.
  intros E. unfold accept in E. cbn [fst snd] in E.
  destruct (sys_accept _ _) as [newsock w1]. destruct (newsock =? -1) eqn:Hs; [done|].
  apply Z.eqb_neq in Hs. destruct (init _ _) as [[[]| | | |] [o1 w2]] eqn:Ei; simplify_eq.
  by eapply init_connected in Ei.
Qed.

(** An object that [connect] has connected says so. *)
Lemma connect_connected addr timeout_ms o w o' w' :
  connect addr timeout_ms (o, w) = (Ret true, (o', w')) → m_isConnected o' = true.
Proof.
  intros E. unfold connect in E.
  apply st_bind_inv in E as (? & [o1 w1] & _ & E). apply st_bind_inv in E as (? & [o2 w2] & _ & E).
  unfold mbind at 1, st_bind at 1, obj at 1, gets in E. cbn [fst] in E.
  destruct (isVaild o2) eqn:Hv; [|done]. cbn [negb] in E. destruct (negb _); [done|].
  apply st_bind_inv in E as (rt & [o3 w3] & Ec & E).
  assert (valid (kind o2) o3) as Ho3.
  { assert (valid (kind o2) o2) as Ho2 by (split; [by apply isVaild_sock|done]).
    destruct (timeout_ms =? _); by eapply (triple_call (valid (kind o2))), Ec. }
  destruct (negb (rt =? 0)).
  - by apply st_bind_inv in E as (? & ? & _ & E).
  - by apply (connected_keeps (kind o2)) in E as [_ ?].
Qed.

(** ** All operations *)

Inductive operation :=
  | op_setOption (level optname : Z) (v : optval) | op_getOption (level optname : Z)
  | op_setSendTimeout (v : Z) | op_setRecvTimeout (v : Z)
  | op_bind (a : Address.t) | op_connect (a : Address.t) (timeout_ms : Z) | op_listen (backlog : Z)
  | op_accept | op_close
  | op_send (buffer : list byte) (flags : Z) | op_send_iov (buffers : list (list byte)) (flags : Z)
  | op_sendTo (buffer : list byte) (to : Address.t) (flags : Z)
  | op_sendTo_iov (buffers : list (list byte)) (to : Address.t) (flags : Z)
  | op_recv (length flags : Z) | op_recv_iov (buffers : list Z) (flags : Z)
  | op_recvFrom (length : Z) (from : Address.t) (flags : Z)
  | op_recvFrom_iov (buffers : list Z) (from : Address.t) (flags : Z)
  | op_getRemoteAddress | op_getLocalAddress.

Definition run (op : operation) : ST (t * W) unit :=
  match op with
  | op_setOption level optname v => setOption level optname v;; mret tt
  | op_getOption level optname => getOption level optname;; mret tt
  | op_setSendTimeout v => setSendTimeout v
  | op_setRecvTimeout v => setRecvTimeout v
  | op_bind a => bind a;; mret tt
  | op_connect a timeout_ms => connect a timeout_ms;; mret tt
  | op_listen backlog => listen backlog;; mret tt
  | op_accept => accept;; mret tt
  | op_close => close;; mret tt
  | op_send buffer flags => send buffer flags;; mret tt
  | op_send_iov buffers flags => send_iov buffers flags;; mret tt
  | op_sendTo buffer to flags => sendTo buffer to flags;; mret tt
  | op_sendTo_iov buffers to flags => sendTo_iov buffers to flags;; mret tt
  | op_recv length flags => recv length flags;; mret tt
  | op_recv_iov buffers flags => recv_iov buffers flags;; mret tt
  | op_recvFrom length from flags => recvFrom length from flags;; mret tt
  | op_recvFrom_iov buffers from flags => recvFrom_iov buffers from flags;; mret tt
  | op_getRemoteAddress => getRemoteAddress;; mret tt
  | op_getLocalAddress => getLocalAddress;; mret tt
  end.
Fixpoint run_all (ops : list operation) : ST (t * W) unit :=
  match ops with [] => mret tt | op :: ops => run op;; run_all ops end.

Lemma run_keeps k op : triple (good k) (run op) (good k).
Proof.
  destruct op; cbn [run]; (apply seq_keeps; [|apply triple_ret|done]) || idtac;
    first [apply setOption_keeps|apply bind_keeps_good|apply connect_keeps_good|apply listen_keeps
          |apply accept_keeps|apply close_keeps_good|apply call_keeps|apply address_call_keeps
          |apply getRemoteAddress_keeps, good_address_free|apply getLocalAddress_keeps, good_address_free
          |apply triple_get; intros x Hx; apply (triple_at (good k) x.1); [done|apply triple_ret]].
Qed.

Lemma run_all_keeps k ops : triple (good k) (run_all ops) (good k).
Proof.
  induction ops as [|op ops IH]; cbn [run_all]; [apply triple_ret|].
  apply seq_keeps; [apply run_keeps|apply IH|done].
Qed.

(** C28. The type invariant of a socket: whatever operations are called on a new object, in whatever
    order, with whatever arguments, in whatever world and however they end, an object that says it
    is connected has a descriptor, and it still is of the family, type and protocol it was made
    for; what it accepts is connected, has a descriptor and is of the same kind. *)
Theorem socket_typed ops family type protocol (w : W) r o' w' :
  run_all ops (make family type protocol, w) = (r, (o', w')) →
  (m_isConnected o' = true → m_sock o' ≠ -1) ∧ kind o' = (family, type, protocol)
  ∧ ∀ n s, accept (o', w') = (Ret (Some n), s) →
      m_isConnected n = true ∧ m_sock n ≠ -1 ∧ kind n = (family, type, protocol).
Proof.
  intros E. apply (run_all_keeps (family, type, protocol)) in E as [Hw Hk]; [|done].
  split; [exact Hw|]. split; [done|]. intros n s [[Hs Hkn] Hc]%accept_connected. by rewrite Hkn.
Qed.
End operations.
