(* ===== verification/Stream.v ===== *)
(** * Streams (sylar/stream.h, sylar/stream.cpp, sylar/socket_stream.h, sylar/socket_stream.cpp)

    The abstract class [Stream] is a class of operations over a state of its own; its loops that
    transfer a given number of bytes are written against that interface. [SocketStream] is the
    instance over a socket. A [void*] argument is the memory it points into and an offset:
    storing outside that memory is undefined. *)

From S2P Require Import Prelude Endian Buffer BufferFacts BufferSpec Socket.
Import ByteArray.

(** The virtual operations. [read] and [write] of a [ByteArray] act on that array too. *)
Class Stream (S : Type) := {
  stream_read : Z → ST S (Z * list byte);
  stream_read_ba : Z → ST (S * t) Z;
  stream_write : list byte → ST S Z;
  stream_write_ba : Z → ST (S * t) Z;
  stream_close : ST S unit;
}.

(** Storing received bytes at an offset of a block of memory. *)
Definition store (memory : list byte) (offset : Z) (bytes : list byte) : outcome (list byte) :=
  if (offset <? 0) || (Z.of_nat (length memory) <? offset + Z.of_nat (length bytes)) then Undef
  else Ret (overwrite memory (Z.to_nat offset) bytes).

(** An operation on a part of the state. *)
Definition on_fst {S T A} (m : ST S A) : ST (S * T) A := fun s => let '(r, x) := m s.1 in (r, (x, s.2)).
Definition on_snd {S T A} (m : ST T A) : ST (S * T) A := fun s => let '(r, x) := m s.2 in (r, (s.1, x)).

Module Stream.
Section stream.
Context {S : Type} `{Stream S}.

(** [readFixSize(buffer, length)], the buffer being [memory] from [at_] on. *)
Fixpoint readFixSize_loop (fuel : nat) (memory : list byte) (at_ offset left : Z)
    : ST S (option Z * list byte) :=
  match fuel with
  | O => lift NoFuel
  | Datatypes.S fuel =>
      if 0 <? left then
        r ← stream_read left;
        let len := r.1 in
        memory ← (if len <=? 0 then mret memory else lift (store memory (at_ + offset) r.2));
        if len <=? 0 then mret (Some (s32 len), memory)
        else readFixSize_loop fuel memory at_ (offset + len) (left - len)
      else mret (None, memory)
  end.
Definition readFixSize (memory : list byte) (at_ length : Z) : ST S (Z * list byte) :=
  r ← readFixSize_loop (Datatypes.S (Z.to_nat (s64 length))) memory at_ 0 (s64 length);
  mret (default (s32 length) r.1, r.2).

(** [writeFixSize(buffer, length)]. *)
Fixpoint writeFixSize_loop (fuel : nat) (buffer : list byte) (offset left : Z) : ST S (option Z) :=
  match fuel with
  | O => lift NoFuel
  | Datatypes.S fuel =>
      if 0 <? left then
        len ← stream_write (buffer.[Z.to_nat offset, Z.to_nat left]);
        if len <=? 0 then mret (Some (s32 len))
        else writeFixSize_loop fuel buffer (offset + len) (left - len)
      else mret None
  end.
Definition writeFixSize (buffer : list byte) (length : Z) : ST S Z :=
  r ← writeFixSize_loop (Datatypes.S (Z.to_nat (s64 length))) buffer 0 (s64 length);
  mret (default (s32 length) r).

(** The same on a [ByteArray]. *)
Fixpoint fix_size_loop (op : Z → ST (S * t) Z) (fuel : nat) (left : Z) : ST (S * t) (option Z) :=
  match fuel with
  | O => lift NoFuel
  | Datatypes.S fuel =>
      if 0 <? left then
        len ← op left;
        if len <=? 0 then mret (Some (s32 len)) else fix_size_loop op fuel (left - len)
      else mret None
  end.
Definition readFixSize_ba (length : Z) : ST (S * t) Z :=
  r ← fix_size_loop stream_read_ba (Datatypes.S (Z.to_nat (s64 length))) (s64 length);
  mret (default (s32 length) r).
Definition writeFixSize_ba (length : Z) : ST (S * t) Z :=
  r ← fix_size_loop stream_write_ba (Datatypes.S (Z.to_nat (s64 length))) (s64 length);
  mret (default (s32 length) r).
End stream.
End Stream.

Module SocketStream.
(** [m_socket] may be null. *)
Record t := mk { m_socket : option Socket.t; m_owner : bool }.
Definition make (sock : option Socket.t) (owner : bool) : t := mk sock owner.
Definition isConnected (s : t) : bool :=
  match m_socket s with Some o => Socket.isConnected o | None => false end.

Section operations.
Context {W : Type} `{Sys W}.

(** A call of a member of the socket. *)
Definition on_socket {A} (m : ST (Socket.t * W) A) : ST (t * W) A := fun s =>
  match m_socket s.1 with
  | None => (Undef, s)
  | Some o => let '(r, (o, w)) := m (o, s.2) in (r, (mk (Some o) (m_owner s.1), w))
  end.

Definition read (length : Z) : ST (t * W) (Z * list byte) :=
  s ← get;
  if negb (isConnected s.1) then mret (-1, []) else on_socket (Socket.recv length 0).

(** The received bytes go into the vectors, in order. *)
Definition read_ba `{Heap} (length : Z) : ST ((t * W) * ByteArray.t) Z :=
  s ← get;
  if negb (isConnected s.1.1) then mret (-1)
  else
    r ← on_snd (getWriteBuffers [] length);
    let iovs := r.2 in
    if bool_decide (iovs = []) then lift Undef
    else
      r ← on_fst (on_socket (Socket.recv_iov (iov_len <$> iovs) 0));
      on_snd (modify (fun b => set_nodes (scatter (m_nodes b) iovs r.2) b));;
      let rt := r.1 in
      (if 0 <? rt then on_snd (b ← get; setPosition (u64 (getPosition b + rt))) else mret tt);;
      mret rt.

Definition write (buffer : list byte) : ST (t * W) Z :=
  s ← get;
  if negb (isConnected s.1) then mret (-1) else on_socket (Socket.send buffer 0).

(** The vectors are those of [getWriteBuffers]. *)
Definition write_ba `{Heap} (length : Z) : ST ((t * W) * ByteArray.t) Z :=
  s ← get;
  if negb (isConnected s.1.1) then mret (-1)
  else
    r ← on_snd (getWriteBuffers [] length);
    let iovs := r.2 in
    if bool_decide (iovs = []) then lift Undef
    else
      ns ← on_snd (gets m_nodes);
      rt ← on_fst (on_socket (Socket.send_iov (iov_bytes ns <$> iovs) 0));
      (if 0 <? rt then on_snd (b ← get; setPosition (u64 (getPosition b + rt))) else mret tt);;
      mret rt.

Definition close : ST (t * W) unit :=
  s ← get;
  match m_socket s.1 with Some _ => on_socket Socket.close;; mret tt | None => mret tt end.

(** [~SocketStream()]. *)
Definition destroy : ST (t * W) unit :=
  s ← get;
  if m_owner s.1 then close else mret tt.

Definition getRemoteAddress : ST (t * W) (option Address.Address.t) :=
  s ← get;
  match m_socket s.1 with
  | Some _ => a ← on_socket Socket.getRemoteAddress; mret (Some a) | None => mret None end.
Definition getLocalAddress : ST (t * W) (option Address.Address.t) :=
  s ← get;
  match m_socket s.1 with
  | Some _ => a ← on_socket Socket.getLocalAddress; mret (Some a) | None => mret None end.
Definition getRemoteAddressString : ST (t * W) (list byte) :=
  a ← getRemoteAddress;
  match a with Some a => lift (Address.Address.toString a) | None => mret [] end.
Definition getLocalAddressString : ST (t * W) (list byte) :=
  a ← getLocalAddress;
  match a with Some a => lift (Address.Address.toString a) | None => mret [] end.
End operations.

#[global] Instance socket_stream `{Heap} `{Sys W} : Stream (t * W) := {
  stream_read := read;
  stream_read_ba := read_ba;
  stream_write := write;
  stream_write_ba := write_ba;
  stream_close := close;
}.
End SocketStream.
