(* ===== verification/HttpConnection.v ===== *)
(** * HTTP clients (sylar/http/http_connection.h, sylar/http/http_connection.cpp)

    A connection sends requests and receives responses over a stream; [HttpResult] is what a
    request comes to; the static functions [DoGet], [DoPost] and [DoRequest] make a connection for
    one request. A connection is used through the interface [Stream] where the code uses it so.
    The buffer and the parser object of a response are memory that was just allocated: what it
    holds is an argument. *)

From S2P Require Import Prelude Endian CString StdOrdered Http HttpParser Address Uri.
From S2P Require Import HttpClientParser HttpResponseParser Buffer FdManager Socket Stream.

Module HttpResult.
Inductive Error :=
  | OK | INVALID_URL | INVALID_HOST | CONNECT_FAILED | SEND_CLOSE_BY_PEER | SEND_SOCKET_ERROR
  | TIMEOUT | CREATE_SOCKET_ERROR | POOL_GET_CONNECTION | POOL_INVALID_CONNECTION.
Definition code (e : Error) : Z :=
  match e with
  | OK => 0 | INVALID_URL => 1 | INVALID_HOST => 2 | CONNECT_FAILED => 3 | SEND_CLOSE_BY_PEER => 4
  | SEND_SOCKET_ERROR => 5 | TIMEOUT => 6 | CREATE_SOCKET_ERROR => 7 | POOL_GET_CONNECTION => 8
  | POOL_INVALID_CONNECTION => 9
  end.
Record t := mk { result : Z; response : option HttpResponse.t; error : list byte }.
Definition make (e : Error) (response : option HttpResponse.t) (error : list byte) : t :=
  mk (code e) response error.

Definition toString (r : t) : list byte :=
  lit "[HttpResult result" ++ Socket.dec_int (result r) ++ lit " error=" ++ error r
  ++ lit " response="
  ++ match response r with Some rsp => HttpResponse.toString rsp | None => lit "nullptr" end
  ++ lit "]".
End HttpResult.

Module HttpConnection.
(** [std::string]: [append(s, n)] of the memory from [s] on, and [resize(n)]. *)
Definition append {S} `{Heap} (body data : list byte) (n : Z) : ST S (list byte) :=
  if string_max_size - Z.of_nat (length body) <? n then throw length_error
  else if Z.of_nat (length data) <? n then lift Undef
  else mret (body ++ take (Z.to_nat n) data).
Definition resize {S} `{Heap} (body : list byte) (n : Z) : ST S (list byte) :=
  if string_max_size <? n then throw length_error
  else mret (take (Z.to_nat n) body ++ replicate (Z.to_nat n - length body) x00).

(** A sum of two [int]s: overflow is undefined. *)
Definition int_sum (a b : Z) : outcome Z :=
  if (- 2 ^ 31 <=? a + b) && (a + b <? 2 ^ 31) then Ret (a + b) else Undef.

Section connection.
Context {S : Type} `{Stream S} `{Heap}.
(** [GetHttpRequestBufferSize()], and [boost::lexical_cast<uint64_t>]. *)
Context (buff_size : Z) (lexical_cast : list byte → option Z).

(** What both reading loops do with the bytes of a [read]: they are stored, and a zero behind
    them. *)
Definition store_terminated (data : list byte) (at_ : Z) (bytes : list byte) (len : Z) : outcome (list byte) :=
  data ← store data at_ bytes; store data len [x00].

(** The first [do] loop: nothing when it gives up, else the buffer, the parser, and the number of
    bytes behind the header. *)
Fixpoint recv_loop (fuel : nat) (data : list byte) (parser : HttpResponseParser.t) (offset : Z)
    : ST S (option (list byte * HttpResponseParser.t * Z)) :=
  match fuel with
  | O => lift NoFuel
  | Datatypes.S fuel =>
      r ← stream_read (u64 (buff_size - offset));
      let len := r.1 in
      if len <=? 0 then stream_close;; mret None
      else
        len' ← lift (int_sum len offset);
        data ← lift (store_terminated data offset r.2 len');
        e ← lift (HttpResponseParser.execute data (Z.to_nat (u64 len')) false parser);
        let '(nparse, data, parser) := e in
        if HttpResponseParser.hasError parser then stream_close;; mret None
        else
          let offset := s32 (u64 (len' - nparse)) in
          if offset =? s32 buff_size then stream_close;; mret None
          else if negb (HttpResponseParser.isFinished parser =? 0) then mret (Some (data, parser, offset))
          else recv_loop fuel data parser offset
  end.

(** The inner [do] loop of a chunked body: the line of a chunk. It begins with a [read]. *)
Fixpoint line_loop (fuel : nat) (data : list byte) (parser : HttpResponseParser.t) (len : Z)
    : ST S (option (list byte * HttpResponseParser.t * Z)) :=
  match fuel with
  | O => lift NoFuel
  | Datatypes.S fuel =>
      r ← stream_read (u64 (buff_size - len));
      let rt := r.1 in
      if rt <=? 0 then stream_close;; mret None
      else
        len' ← lift (int_sum len rt);
        data ← lift (store_terminated data len r.2 len');
        e ← lift (HttpResponseParser.execute data (Z.to_nat (u64 len')) true parser);
        let '(nparse, data, parser) := e in
        if HttpResponseParser.hasError parser then stream_close;; mret None
        else
          let len := s32 (u64 (len' - nparse)) in
          if len =? s32 buff_size then mret None
          else if negb (HttpResponseParser.isFinished parser =? 0) then mret (Some (data, parser, len))
          else line_loop fuel data parser len
  end.

(** The rest of a chunk that the buffer does not hold. *)
Fixpoint rest_loop (fuel : nat) (data body : list byte) (left : Z)
    : ST S (option (list byte * list byte)) :=
  match fuel with
  | O => lift NoFuel
  | Datatypes.S fuel =>
      if 0 <? left then
        r ← stream_read (u64 (if s32 buff_size <? left then s32 buff_size else left));
        let rt := r.1 in
        if rt <=? 0 then mret None
        else
          data ← lift (store data 0 r.2);
          body ← append body data (u64 rt);
          rest_loop fuel data body (left - rt)
      else mret (Some (data, body))
  end.

(** One chunk, behind its line: [client_parser] is the copy of the parser from the end of the
    header. *)
Definition recv_chunk (fuel : nat) (client_parser : HttpClientParser.httpclient_parser)
    (data body : list byte) (len : Z) : ST S (option (list byte * list byte * Z)) :=
  let content_len := HttpClientParser.content_len client_parser in
  limit ← lift (int_sum content_len 2);
  if limit <=? len then
    body ← append body data (u64 content_len);
    mret (Some (overwrite data 0 (data.[Z.to_nat limit, Z.to_nat (len - limit)]), body, len - limit))
  else
    body ← append body data (u64 len);
    r ← rest_loop fuel data body (content_len - len + 2);
    match r with
    | None => mret None
    | Some (data, body) =>
        body ← resize body (u64 (Z.of_nat (length body) - 2)); mret (Some (data, body, 0))
    end.

Fixpoint chunk_loop (fuel : nat) (client_parser : HttpClientParser.httpclient_parser)
    (data : list byte) (parser : HttpResponseParser.t) (body : list byte) (len : Z)
    : ST S (option (list byte * HttpResponseParser.t)) :=
  match fuel with
  | O => lift NoFuel
  | Datatypes.S fuel =>
      h ← line_loop fuel data parser len;
      match h with
      | None => mret None
      | Some (data, parser, len) =>
          c ← recv_chunk fuel client_parser data body len;
          match c with
          | None => mret None
          | Some (data, body, len) =>
              if HttpClientParser.chunks_done client_parser =? 0
              then chunk_loop fuel client_parser data parser body len
              else mret (Some (body, parser))
          end
      end
  end.

(** A body of the announced length: what came with the header is copied, the rest is read. *)
Definition recv_body (data : list byte) (parser : HttpResponseParser.t) (offset : Z)
    : ST S (option (list byte)) :=
  let length := s64 (HttpResponseParser.getContentLength lexical_cast parser) in
  if 0 <? length then
    if string_max_size <? length then throw length_error
    else
      let body := replicate (Z.to_nat length) x00 in
      let '(body, len) :=
        if offset <=? length then (overwrite body 0 (take (Z.to_nat offset) data), offset)
        else (overwrite body 0 (take (Z.to_nat length) data), s32 length) in
      let length := length - offset in
      if 0 <? length then
        r ← Stream.readFixSize body len length;
        if r.1 <=? 0 then stream_close;; mret None else mret (Some r.2)
      else mret (Some body)
  else mret (Some []).

Definition recvResponse (fuel : nat) (fresh : HttpClientParser.httpclient_parser * list byte)
    : ST S (option HttpResponse.t) :=
  h ← recv_loop fuel fresh.2 (HttpResponseParser.make fresh.1) 0;
  match h with
  | None => mret None
  | Some (data, parser, offset) =>
      let client_parser := HttpResponseParser.m_parser parser in
      r ← (if negb (HttpClientParser.chunked client_parser =? 0)
           then chunk_loop fuel client_parser data parser [] offset
           else body ← recv_body data parser offset;
                mret (option_map (λ body, (body, parser)) body));
      mret (option_map (λ '(body, parser),
        let rsp := HttpResponseParser.m_data parser in
        if bool_decide (body = []) then rsp else HttpResponse.setBody body rsp) r)
  end.

Definition sendRequest (rsp : HttpRequest.t) : ST S Z :=
  let data := HttpRequest.toString rsp in
  Stream.writeFixSize data (Z.of_nat (length data)).
End connection.

(** ** Requests for a single connection *)

(** The loop over the headers, shared with the pool: the request, and whether it names a host. *)
Definition add_header (st : HttpRequest.t * bool) (i : list byte * list byte) : HttpRequest.t * bool :=
  let '(req, has_host) := st in
  if bool_decide (strcasecmp i.1 (lit "connection") = Eq) then
    if bool_decide (strcasecmp i.2 (lit "keep-alive") = Eq) then (HttpRequest.setClose false req, has_host)
    else (req, has_host)
  else
    let has_host :=
      if negb has_host && bool_decide (strcasecmp i.1 (lit "host") = Eq)
      then negb (bool_decide (i.2 = [])) else has_host in
    (HttpRequest.setHeader i.1 i.2 req, has_host).
Definition add_headers (headers : list (list byte * list byte)) (host body : list byte)
    (req : HttpRequest.t) : HttpRequest.t :=
  let '(req, has_host) := fold_left add_header headers (req, false) in
  HttpRequest.setBody body
    (if has_host : bool then req else HttpRequest.setHeader (lit "Host") host req).

Section static.
Context {W : Type} `{Sys W} `{Heap}.
Context (buff_size : Z) (lexical_cast : list byte → option Z).
Context (getaddrinfo : list byte → option (list byte) → Z → Z → Z →
    option (list (option (list byte) * Z))).
Context (errno : W → Z) (strerror : Z → list byte).

(** The text for an error of [sendRequest]. *)
Definition send_error (w : W) : list byte :=
  lit "send request socket error errno= " ++ Socket.dec_int (errno w)
  ++ lit "errstr=" ++ strerror (errno w).
Definition timeout_error (addr : list byte) (timeout_ms : Z) : list byte :=
  lit "recv response timeout: " ++ addr ++ lit "timeout_ms=" ++ dec timeout_ms.

(** A request on a connection, and its result; [addr] makes the text of the peer's address. *)
Definition exchange (fuel : nat) (fresh : HttpClientParser.httpclient_parser * list byte)
    (addr : ST (SocketStream.t * W) (list byte)) (req : HttpRequest.t) (timeout_ms : Z)
    : ST (SocketStream.t * W) HttpResult.t :=
  SocketStream.on_socket (Socket.setRecvTimeout (s64 timeout_ms));;
  rt ← sendRequest req;
  if rt =? 0 then
    a ← addr;
    mret (HttpResult.make HttpResult.SEND_CLOSE_BY_PEER None (lit "send request closed by peer: " ++ a))
  else if rt <? 0 then
    s ← get; mret (HttpResult.make HttpResult.SEND_SOCKET_ERROR None (send_error s.2))
  else
    rsp ← recvResponse buff_size lexical_cast fuel fresh;
    match rsp with
    | None =>
        a ← addr;
        mret (HttpResult.make HttpResult.TIMEOUT None (timeout_error a timeout_ms))
    | Some rsp => mret (HttpResult.make HttpResult.OK (Some rsp) (lit "ok"))
    end.

(** A stream that lives as long as [m] runs. *)
Definition with_stream {A} (c : SocketStream.t) (m : ST (SocketStream.t * W) A) : ST W A := fun w =>
  let '(r, s) := m (c, w) in
  let '(_, s) := SocketStream.destroy s in (r, s.2).

Definition DoRequest_req (fuel : nat) (fresh : HttpClientParser.httpclient_parser * list byte)
    (req : HttpRequest.t) (uri : Uri.t) (timeout_ms : Z) : ST W HttpResult.t :=
  addr ← lift (Uri.createAddress getaddrinfo uri);
  match addr with
  | None =>
      mret (HttpResult.make HttpResult.INVALID_HOST None (lit "invalid host: " ++ Uri.m_host uri))
  | Some addr =>
      let sock := Socket.CreateTCP addr in
      with_stream (SocketStream.make (Some sock) true)
        (exchange fuel fresh (lift (Address.toString addr)) req timeout_ms)
  end.

(** The request that is built for a URL. *)
Definition uri_request (method : HttpMethod.t) (uri : Uri.t)
    (headers : list (list byte * list byte)) (body : list byte) : HttpRequest.t :=
  let req := HttpRequest.make 17 true in
  let req := HttpRequest.setPath (Uri.getPath uri) req in
  let req := HttpRequest.setQuery (Uri.m_query uri) req in
  let req := HttpRequest.setFragment (Uri.m_fragment uri) req in
  let req := HttpRequest.setMethod method req in
  add_headers headers (Uri.m_host uri) body req.
Definition DoRequest_uri (fuel : nat) (fresh : HttpClientParser.httpclient_parser * list byte)
    (method : HttpMethod.t) (uri : Uri.t) (timeout_ms : Z)
    (headers : list (list byte * list byte)) (body : list byte) : ST W HttpResult.t :=
  DoRequest_req fuel fresh (uri_request method uri headers body) uri timeout_ms.

Definition DoRequest (fuel : nat) (fresh : HttpClientParser.httpclient_parser * list byte)
    (method : HttpMethod.t) (url : list byte) (timeout_ms : Z)
    (headers : list (list byte * list byte)) (body : list byte) : ST W HttpResult.t :=
  uri ← lift (Uri.Create url);
  match uri with
  | None => mret (HttpResult.make HttpResult.INVALID_URL None (lit "invalid url:" ++ url))
  | Some uri => DoRequest_uri fuel fresh method uri timeout_ms headers body
  end.
Definition DoGet fuel fresh := DoRequest fuel fresh HttpMethod.GET.
Definition DoPost fuel fresh := DoRequest fuel fresh HttpMethod.POST.
Definition DoGet_uri fuel fresh := DoRequest_uri fuel fresh HttpMethod.GET.
Definition DoPost_uri fuel fresh := DoRequest_uri fuel fresh HttpMethod.POST.
End static.
End HttpConnection.
