(* ===== verification/HttpPool.v ===== *)
(** * The pool of HTTP connections (sylar/http/http_connection.h, sylar/http/http_connection.cpp)

    [HttpConnectionPool]: the list of idle connections, which a request takes one from or opens
    one for, and which gets it back. A connection is reached by one pointer, that of the list or
    that of the request that uses it, and stands here for what the pointer shows. The clock is an
    argument of the operations that read it. *)

From S2P Require Import Prelude Endian CString StdOrdered Http Address Uri.
From S2P Require Import HttpClientParser Buffer FdManager Socket Stream HttpConnection.

Module HttpConnectionPool.
(** What [HttpConnection] adds to the stream. *)
Record conn := mk_conn { stream : SocketStream.t; m_createTime : Z; m_request : Z }.
Definition new_conn (sock : Socket.t) : conn := mk_conn (SocketStream.make (Some sock) true) 0 0.
Definition isConnected (c : conn) : bool := SocketStream.isConnected (stream c).

Record t := mk {
  m_host : list byte;
  m_vhost : list byte;
  m_port : Z;
  m_maxSize : Z;
  m_maxAliveTime : Z;
  m_maxRequest : Z;
  m_conns : list conn;
  m_total : Z;
}.

Definition make (host vhost : list byte) (port max_size max_alive_time max_request : Z) : t :=
  mk host vhost port max_size max_alive_time max_request [] 0.
Definition set_conns (v : list conn) (p : t) : t :=
  mk (m_host p) (m_vhost p) (m_port p) (m_maxSize p) (m_maxAliveTime p) (m_maxRequest p) v (m_total p).
Definition set_total (v : Z) (p : t) : t :=
  mk (m_host p) (m_vhost p) (m_port p) (m_maxSize p) (m_maxAliveTime p) (m_maxRequest p) (m_conns p) v.

(** The loop that takes connections from the front: those it drops, the one it keeps, the rest. *)
Definition still_young (now maxAlive : Z) (c : conn) : bool := now <? u64 (m_createTime c + maxAlive).
Fixpoint pick (now maxAlive : Z) (conns : list conn) : list conn * option conn * list conn :=
  match conns with
  | [] => ([], None, [])
  | c :: conns =>
      if negb (isConnected c) || still_young now maxAlive c then
        let '(invalid, ptr, rest) := pick now maxAlive conns in (c :: invalid, ptr, rest)
      else ([], Some c, conns)
  end.

Section operations.
Context {W : Type} `{Sys W} `{Heap}.
Context (buff_size : Z) (lexical_cast : list byte → option Z).
Context (getaddrinfo : list byte → option (list byte) → Z → Z → Z →
    option (list (option (list byte) * Z))).
Context (errno : W → Z) (strerror : Z → list byte).

Definition pool : ST (t * W) t := gets fst.
Definition upd (f : t → t) : ST (t * W) unit := modify (λ s, (f s.1, s.2)).

(** [delete conn]: the destructor of the stream closes the socket. *)
Definition delete (c : conn) : ST (t * W) unit := λ s,
  let '(r, (_, w)) := SocketStream.destroy (stream c, s.2) in (r, (s.1, w)).
Fixpoint delete_all (cs : list conn) : ST (t * W) unit :=
  match cs with [] => mret tt | c :: cs => delete c;; delete_all cs end.

(** A new socket, connected to the address; one that cannot be connected is destroyed. *)
Definition open (addr : Address.t) : ST (t * W) (option conn) := λ s,
  match Socket.connect addr (u64 (-1)) (Socket.CreateTCP addr, s.2) with
  | (Ret true, (o, w)) => (Ret (Some (new_conn o)), (s.1, w))
  | (Ret false, sw) => let '(_, (_, w)) := Socket.close sw in (Ret None, (s.1, w))
  | (Throw e, (_, w)) => (Throw e, (s.1, w))
  | (Abort, (_, w)) => (Abort, (s.1, w))
  | (Undef, (_, w)) => (Undef, (s.1, w))
  | (NoFuel, (_, w)) => (NoFuel, (s.1, w))
  end.

(** The pointer of the result gives its connection back to [ReleasePtr]. *)
Definition getConnection (now_ms : Z) : ST (t * W) (option conn) :=
  p ← pool;
  let '(invalid, ptr, rest) := pick now_ms (m_maxAliveTime p) (m_conns p) in
  upd (set_conns rest);;
  delete_all invalid;;
  upd (λ p, set_total (s32 (m_total p - s32 (Z.of_nat (length invalid)))) p);;
  match ptr with
  | Some c => mret (Some c)
  | None =>
      addr ← lift (Address.LookupAnyIPAddress getaddrinfo (m_host p) AF_UNSPEC 0 0);
      match addr with
      | None => mret None
      | Some addr =>
          c ← open (Address.setPort (u16 (m_port p)) addr);
          match c with
          | None => mret None
          | Some c => upd (λ p, set_total (s32 (m_total p + 1)) p);; mret (Some c)
          end
      end
  end.

Definition ReleasePtr (now_ms : Z) (c : conn) : ST (t * W) unit :=
  let c := mk_conn (stream c) (m_createTime c) (u64 (m_request c + 1)) in
  p ← pool;
  if negb (isConnected c) || (now_ms <=? u64 (m_createTime c + m_maxAliveTime p))
     || (m_maxRequest p <=? m_request c)
  then delete c;; upd (λ p, set_total (s32 (m_total p - 1)) p)
  else upd (λ p, set_conns (m_conns p ++ [c]) p).

(** What a request does with its connection; it is given back however the exchange ends. *)
Definition use (fuel : nat) (fresh : HttpClientParser.httpclient_parser * list byte)
    (release_ms : Z) (req : HttpRequest.t) (timeout_ms : Z) (place : list byte) (c : conn)
    : ST (t * W) HttpResult.t := λ s,
  let '(r, (c', w)) :=
    match SocketStream.m_socket (stream c) with
    | None => (Ret (HttpResult.make HttpResult.POOL_INVALID_CONNECTION None place), (stream c, s.2))
    | Some _ =>
        HttpConnection.exchange buff_size lexical_cast errno strerror fuel fresh
          (a ← SocketStream.on_socket Socket.getRemoteAddress; lift (Address.toString a))
          req timeout_ms (stream c, s.2)
    end in
  let '(_, s) := ReleasePtr release_ms (mk_conn c' (m_createTime c) (m_request c)) (s.1, w) in (r, s).

(** [doRequest(req, timeout_ms)]; the second time is when the connection is given back. *)
Definition doRequest_req (fuel : nat) (fresh : HttpClientParser.httpclient_parser * list byte)
    (now_ms release_ms : Z) (req : HttpRequest.t) (timeout_ms : Z) : ST (t * W) HttpResult.t :=
  c ← getConnection now_ms;
  p ← pool;
  let place := lit "pool host:" ++ m_host p ++ lit " port:" ++ dec (m_port p) in
  match c with
  | None => mret (HttpResult.make HttpResult.POOL_GET_CONNECTION None place)
  | Some c => use fuel fresh release_ms req timeout_ms place c
  end.

Definition doRequest (fuel : nat) (fresh : HttpClientParser.httpclient_parser * list byte)
    (now_ms release_ms : Z) (method : HttpMethod.t) (url : list byte) (timeout_ms : Z)
    (headers : list (list byte * list byte)) (body : list byte) : ST (t * W) HttpResult.t :=
  p ← pool;
  let req := HttpRequest.make 17 true in
  let req := HttpRequest.setPath url req in
  let req := HttpRequest.setMethod method req in
  let req := HttpRequest.setClose false req in
  let host := if bool_decide (m_vhost p = []) then m_host p else m_vhost p in
  doRequest_req fuel fresh now_ms release_ms (HttpConnection.add_headers headers host body req) timeout_ms.

(** The target that the [Uri] overloads write into a string stream. *)
Definition target (uri : Uri.t) : list byte :=
  Uri.getPath uri ++ (if bool_decide (Uri.m_query uri = []) then [] else lit "?") ++ Uri.m_query uri
  ++ (if bool_decide (Uri.m_fragment uri = []) then [] else lit "#") ++ Uri.m_fragment uri.

Definition doRequest_uri fuel fresh now_ms release_ms method (uri : Uri.t) :=
  doRequest fuel fresh now_ms release_ms method (target uri).
Definition doGet fuel fresh now_ms release_ms := doRequest fuel fresh now_ms release_ms HttpMethod.GET.
Definition doPost fuel fresh now_ms release_ms := doRequest fuel fresh now_ms release_ms HttpMethod.POST.
Definition doGet_uri fuel fresh now_ms release_ms (uri : Uri.t) :=
  doGet fuel fresh now_ms release_ms (target uri).
Definition doPost_uri fuel fresh now_ms release_ms (uri : Uri.t) :=
  doPost fuel fresh now_ms release_ms (target uri).
End operations.
End HttpConnectionPool.
