(* ===== verification/HttpPoolProps.v ===== *)
(** * What the pool of connections keeps

    The pool and the connections that are taken from it, as a state machine whose steps are
    [getConnection] and [ReleasePtr]: in any order, by any number of users, while the world does
    what it likes. A request through the pool is a sequence of such steps. *)

From S2P Require Import Prelude Endian Http Address Uri HttpClientParser Buffer FdManager Socket SocketProps Stream HttpConnection HttpPool.
Import HttpConnectionPool.

Section pool.
Context {W : Type} `{Sys W} `{Heap}.
Context (getaddrinfo : list byte → option (list byte) → Z → Z → Z →
    option (list (option (list byte) * Z))).
Notation getConnection := (getConnection getaddrinfo).

(** ** The operations *)

Lemma destroy_ret (s : SocketStream.t * W) : ∃ c w, SocketStream.destroy s = (Ret tt, (c, w)).
Proof.
  destruct s as [[[o|] []] w]; [|by eexists _, _..].
  destruct o as [fd fam ty pr con la ra].
  unfold SocketStream.destroy, SocketStream.close, SocketStream.on_socket, Socket.close.
  unfold mbind, st_bind, get, Socket.obj, gets, Socket.upd, modify, Socket.call, mret, st_ret. cbn.
  destruct con, (fd =? -1); cbn; try (by eexists _, _); destruct (sys_close fd w); by eexists _, _.
Qed.

Lemma delete_ret c (p : t) (w : W) : ∃ w', delete c (p, w) = (Ret tt, (p, w')).
Proof.
  unfold delete. cbn [fst snd]. destruct (destroy_ret (stream c, w)) as (c' & w' & ->). by exists w'.
Qed.

Lemma delete_all_ret cs (p : t) : ∀ w : W, ∃ w', delete_all cs (p, w) = (Ret tt, (p, w')).
Proof.
  induction cs as [|c cs IH]; intros w; [by exists w|]. cbn [delete_all].
  destruct (delete_ret c p w) as (w1 & E). destruct (IH w1) as (w' & E').
  exists w'. by st_run exact E.
Qed.

(** A connection that was just opened. *)
Definition is_new (c : conn) : Prop := isConnected c = true ∧ m_createTime c = 0 ∧ m_request c = 0.

Lemma open_new addr (p : t) (w : W) c s : open addr (p, w) = (Ret (Some c), s) → is_new c ∧ s.1 = p.
Proof.
  unfold open. cbn [fst snd].
  destruct (Socket.connect addr (u64 (-1)) (Socket.CreateTCP addr, w)) as [[[]| | | |] [o w1]] eqn:E;
    try (by intros); [|by destruct (Socket.close _) as [? [? ?]]].
  intros [= <- <-]. apply connect_connected in E. by split.
Qed.
Lemma open_pool addr (p : t) (w : W) r s : open addr (p, w) = (Ret r, s) → s.1 = p.
Proof.
  unfold open. cbn [fst snd].
  destruct (Socket.connect addr (u64 (-1)) (Socket.CreateTCP addr, w)) as [[[]| | | |] [o w1]];
    [|destruct (Socket.close _) as [? [? ?]]|..]; by intros; simplify_eq/=.
Qed.

(** What [getConnection] does to the pool: the connections it drops are at the front. *)
Lemma getConnection_spec now (p : t) (w : W) r p' w' :
  getConnection now (p, w) = (Ret r, (p', w')) →
  ∃ invalid ptr rest,
    pick now (m_maxAliveTime p) (m_conns p) = (invalid, ptr, rest)
    ∧ let p1 := set_total (s32 (m_total p - s32 (Z.of_nat (length invalid)))) (set_conns rest p) in
      match ptr with
      | Some c => r = Some c ∧ p' = p1
      | None => match r with
                | Some c => is_new c ∧ p' = set_total (s32 (m_total p1 + 1)) p1
                | None => p' = p1
                end
      end.
Proof.
  intros E. unfold HttpConnectionPool.getConnection in E.
  unfold mbind at 1, st_bind at 1, pool, gets in E. cbn [fst] in E.
  destruct (pick _ _ _) as [[invalid ptr] rest]. exists invalid, ptr, rest. split; [done|].
  unfold mbind at 1, st_bind at 1, upd at 1, modify in E. cbn [fst snd] in E.
  destruct (delete_all_ret invalid (set_conns rest p) w) as (w1 & Ed).
  unfold mbind at 1, st_bind at 1 in E. rewrite Ed in E. cbv beta iota in E.
  unfold mbind at 1, st_bind at 1, upd at 1, modify in E. cbn [fst snd] in E.
  destruct ptr as [c|]; [by unfold mret, st_ret in E; simplify_eq|].
  apply st_bind_inv in E as (addr & s1 & Ea & E). unfold lift in Ea. injection Ea as _ <-.
  destruct addr as [addr|]; [|by unfold mret, st_ret in E; simplify_eq].
  apply st_bind_inv in E as (c & [p2 w2] & Eo & E). pose proof (open_pool _ _ _ _ _ Eo) as Hp.
  cbn [fst] in Hp. subst p2. destruct c as [c|]; [|by unfold mret, st_ret in E; simplify_eq].
  apply open_new in Eo as [Hnew _]. unfold mbind, st_bind, upd, modify, mret, st_ret in E. by simplify_eq/=.
Qed.

(** What [ReleasePtr] does to it. *)
Definition counted (c : conn) : conn := mk_conn (stream c) (m_createTime c) (u64 (m_request c + 1)).
Definition keeps (now : Z) (p : t) (c : conn) : bool :=
  isConnected c && negb (now <=? u64 (m_createTime c + m_maxAliveTime p))
  && negb (m_maxRequest p <=? m_request c).

Lemma ReleasePtr_spec now c (p : t) (w : W) :
  ∃ w', ReleasePtr now c (p, w)
    = (Ret tt, (if keeps now p (counted c) then set_conns (m_conns p ++ [counted c]) p
                else set_total (s32 (m_total p - 1)) p, w')).
Proof.
  unfold ReleasePtr. fold (counted c). cbv zeta. unfold mbind at 1, st_bind at 1, pool, gets. cbn [fst].
  destruct (delete_ret (counted c) p w) as (w1 & Ed). unfold keeps.
  destruct (isConnected (counted c)), (now <=? _), (m_maxRequest p <=? _); cbn [negb andb orb];
    first [by exists w|exists w1; by st_run exact Ed].
Qed.

(** ** The state machine *)

(** The pool with the connections that are taken. *)
Definition state : Type := t * list conn.

Inductive pool_step : state → state → Prop :=
  | take_step (p : t) (w : W) out now c p' w' :
      getConnection now (p, w) = (Ret (Some c), (p', w')) → pool_step (p, out) (p', c :: out)
  | miss_step (p : t) (w : W) out now p' w' :
      getConnection now (p, w) = (Ret None, (p', w')) → pool_step (p, out) (p', out)
  | give_step (p : t) (w : W) out1 c out2 now used p' w' :
      ReleasePtr now (mk_conn used (m_createTime c) (m_request c)) (p, w) = (Ret tt, (p', w')) →
      pool_step (p, out1 ++ c :: out2) (p', out1 ++ out2).

Inductive reachable (p0 : t) : state → Prop :=
  | at_first : reachable p0 (p0, [])
  | by_step s s' : reachable p0 s → pool_step s s' → reachable p0 s'.

(** The total counts the connections, modulo 2^32. *)
Definition accounts (s : state) : Prop :=
  m_total s.1 = s32 (Z.of_nat (length (m_conns s.1) + length s.2)).
(** An idle connection can be used again; one that is taken was, or is new. *)
Definition idle_ok (maxRequest : Z) (c : conn) : Prop :=
  isConnected c = true ∧ m_createTime c = 0 ∧ 0 < m_request c < maxRequest.
Definition taken_ok (maxRequest : Z) (c : conn) : Prop :=
  m_createTime c = 0 ∧ 0 <= m_request c ∧ (m_request c = 0 ∨ m_request c < maxRequest).
Definition same_limits (p q : t) : Prop :=
  m_maxRequest p = m_maxRequest q ∧ m_maxAliveTime p = m_maxAliveTime q.
Definition pool_inv (p0 : t) (s : state) : Prop :=
  accounts s ∧ same_limits s.1 p0 ∧ Forall (idle_ok (m_maxRequest p0)) (m_conns s.1)
  ∧ Forall (taken_ok (m_maxRequest p0)) s.2.

Lemma pick_app now maxAlive cs invalid ptr rest :
  pick now maxAlive cs = (invalid, ptr, rest) →
  cs = invalid ++ match ptr with Some c => [c] | None => [] end ++ rest
  ∧ (ptr = None → rest = []).
Proof.
  revert invalid ptr rest. induction cs as [|c cs IH]; intros invalid ptr rest E; cbn [pick] in E.
  - by simplify_eq.
  - destruct (_ || _); [|by simplify_eq].
    destruct (pick now maxAlive cs) as [[i q] x]. destruct (IH _ _ _ eq_refl) as [-> Hn].
    by simplify_eq.
Qed.

Lemma swrap_sub a b : s32 (s32 a - s32 b) = s32 (a - b).
Proof.
  unfold swrap. replace (32 - 1) with 31 by lia.
  assert (0 < 2 ^ 32) by lia.
  set (A := a + 2 ^ 31). set (B := b + 2 ^ 31).
  replace (A mod 2 ^ 32 - 2 ^ 31 - (B mod 2 ^ 32 - 2 ^ 31) + 2 ^ 31) with (A mod 2 ^ 32 - B mod 2 ^ 32 + 2 ^ 31) by lia.
  f_equal. rewrite Zplus_mod, <- Zminus_mod, <- Zplus_mod. f_equal. unfold A, B. lia.
Qed.

Lemma swrap_step a d : -2 ^ 31 <= d < 2 ^ 31 → s32 (s32 a + d) = s32 (a + d).
Proof.
  intros Hd. replace d with (- - d) at 1 by lia. rewrite Z.add_opp_r.
  destruct (decide (d = - 2 ^ 31)) as [->|Hne].
  - unfold swrap. replace (32 - 1) with 31 by lia. f_equal.
    replace ((a + 2 ^ 31) mod 2 ^ 32 - 2 ^ 31 - - - 2 ^ 31 + 2 ^ 31) with ((a + 2 ^ 31) mod 2 ^ 32 - 2 ^ 31) by lia.
    rewrite <- (Z.mod_small (2 ^ 31) (2 ^ 32)) at 2 by lia. rewrite <- Zminus_mod. f_equal. lia.
  - replace (- d) with (s32 (- d)) by (apply swrap_small; [lia|unfold fits_s; simpl; lia]).
    rewrite swrap_sub. f_equal. lia.
Qed.

(** ** The invariant *)

Lemma take_inv p0 (p : t) (w : W) out now r p' w' :
  pool_inv p0 (p, out) → getConnection now (p, w) = (Ret r, (p', w')) →
  pool_inv p0 (p', match r with Some c => c :: out | None => out end).
Proof.
  intros (Ha & [Hl1 Hl2] & Hidle & Hout) E. cbn [fst snd] in *. unfold accounts in *. cbn [fst snd] in *.
  apply getConnection_spec in E as (invalid & ptr & rest & Hp & E). cbv zeta in E.
  apply pick_app in Hp as [Hc Hn]. rewrite Hc in Hidle, Ha.
  apply Forall_app in Hidle as [_ [Hptr Hrest]%Forall_app]. rewrite !length_app in Ha.
  destruct ptr as [c|].
  - destruct E as [-> ->]. unfold pool_inv, accounts. cbn [fst snd m_conns m_total m_maxRequest set_conns set_total length].
    split; [|split; [done|split; [done|]]].
    + rewrite Ha, swrap_sub. f_equal. simpl. lia.
    + apply Forall_cons. split; [|done]. apply Forall_singleton in Hptr as (_ & ? & ?). split; [done|]. lia.
  - specialize (Hn eq_refl) as ->. destruct r as [c|].
    + destruct E as [(_ & Ht & Hr) ->]. unfold pool_inv, accounts.
      cbn [fst snd m_conns m_total m_maxRequest set_conns set_total length].
      split; [|split; [done|split; [done|]]].
      * rewrite Ha, swrap_sub, swrap_step by lia. f_equal. simpl. lia.
      * apply Forall_cons. split; [|done]. split; [done|]. lia.
    + subst p'. unfold pool_inv, accounts.
      cbn [fst snd m_conns m_total m_maxRequest set_conns set_total length].
      split; [|done]. rewrite Ha, swrap_sub. f_equal. simpl. lia.
Qed.

Lemma give_inv p0 (p : t) (w : W) out1 c out2 now used p' w' :
  0 <= m_maxRequest p0 < 2 ^ 32 →
  pool_inv p0 (p, out1 ++ c :: out2) →
  ReleasePtr now (mk_conn used (m_createTime c) (m_request c)) (p, w) = (Ret tt, (p', w')) →
  pool_inv p0 (p', out1 ++ out2).
Proof.
  intros Hmax (Ha & [Hl1 Hl2] & Hidle & Hout) E. cbn [fst snd] in *. unfold accounts in *. cbn [fst snd] in *.
  destruct (ReleasePtr_spec now (mk_conn used (m_createTime c) (m_request c)) p w) as (w1 & Er).
  rewrite Er in E. simplify_eq. apply Forall_app in Hout as [Ho1 [[Ht Hr] Ho2]%Forall_cons].
  rewrite length_app in Ha. cbn [length] in Ha. set (c' := counted _).
  assert (m_request c' = m_request c + 1) as Hreq.
  { unfold c', counted. cbn [m_request]. apply uwrap_small. unfold fits_u. simpl. lia. }
  destruct (keeps now p c') eqn:Hk; unfold pool_inv, accounts;
    cbn [fst snd m_conns m_total m_maxRequest set_conns set_total].
  - apply andb_true_iff in Hk as [[Hcon _]%andb_true_iff Hlim].
    split; [|split; [done|split; [|by apply Forall_app]]].
    + rewrite Ha, !length_app. f_equal. simpl. lia.
    + apply Forall_app. split; [done|]. apply Forall_singleton. split; [done|]. split; [done|]. lia.
  - split; [|split; [done|split; [done|by apply Forall_app]]].
    rewrite Ha, length_app. change (m_total p - 1) with (m_total p + -1) in *.
    replace (s32 (Z.of_nat (length (m_conns p) + (length out1 + Datatypes.S (length out2)))) - 1)
      with (s32 (Z.of_nat (length (m_conns p) + (length out1 + Datatypes.S (length out2)))) + -1) by lia.
    rewrite swrap_step by lia. f_equal. lia.
Qed.

Lemma pool_reachable_inv p0 s :
  m_conns p0 = [] → m_total p0 = 0 → 0 <= m_maxRequest p0 < 2 ^ 32 → reachable p0 s → pool_inv p0 s.
Proof.
  intros Hc Ht Hmax. induction 1 as [|s s' _ IH Hstep].
  - unfold pool_inv, accounts. cbn [fst snd]. rewrite Hc, Ht. by repeat constructor.
  - destruct Hstep as [p w out now c p' w' E|p w out now p' w' E|p w out1 c out2 now used p' w' E].
    + by apply (take_inv p0 p w out now (Some c) p' w').
    + by apply (take_inv p0 p w out now None p' w').
    + by apply (give_inv p0 p w out1 c out2 now used p' w').
Qed.

(** ** Requests *)

Section requests.
Context (buff_size : Z) (lexical_cast : list byte → option Z) (errno : W → Z) (strerror : Z → list byte).

(** A request through the pool is a step that takes a connection and one that gives it back, or
    one that takes none. *)
Lemma doRequest_reachable p0 fuel fresh now release req timeout_ms (p : t) (w : W) out r p' w' :
  reachable p0 (p, out) →
  doRequest_req buff_size lexical_cast getaddrinfo errno strerror fuel fresh now release req timeout_ms (p, w)
    = (Ret r, (p', w')) →
  reachable p0 (p', out).
Proof.
  intros Hp E. unfold doRequest_req in E. apply st_bind_inv in E as (c & [p1 w1] & Eg & E).
  unfold mbind at 1, st_bind at 1, pool, gets in E. cbn [fst] in E. cbv zeta in E.
  destruct c as [c|].
  2:{ unfold mret, st_ret in E. simplify_eq. eapply by_step; [exact Hp|]. by eapply miss_step. }
  unfold use in E. cbn [fst snd] in E.
  destruct (match SocketStream.m_socket (stream c) with None => _ | Some _ => _ end) as [x [used w2]].
  destruct (ReleasePtr_spec release (mk_conn used (m_createTime c) (m_request c)) p1 w2) as (w3 & Er).
  rewrite Er in E. simplify_eq. eapply by_step; [eapply by_step; [exact Hp|by eapply take_step]|].
  by eapply (give_step p1 w2 [] c out release used).
Qed.
End requests.

(** C26. The pool accounts for its connections: however its users take connections, use them and
    give them back, one after the other or at the same time, by whole requests or by single calls,
    [m_total] is the number of idle connections and of those in use (modulo 2^32), every idle
    connection is connected and has carried fewer requests than [m_maxRequest], and one that is
    taken is new or such a one. *)
Theorem pool_accounts host vhost port max_size max_alive max_request s :
  0 <= max_request < 2 ^ 32 → reachable (make host vhost port max_size max_alive max_request) s →
  m_total s.1 = s32 (Z.of_nat (length (m_conns s.1) + length s.2))
  ∧ Forall (idle_ok max_request) (m_conns s.1) ∧ Forall (taken_ok max_request) s.2
  ∧ ∀ buff_size lexical_cast errno strerror fuel fresh now release req timeout_ms w r p' w',
      doRequest_req buff_size lexical_cast getaddrinfo errno strerror fuel fresh now release req timeout_ms
        (s.1, w) = (Ret r, (p', w')) →
      m_total p' = s32 (Z.of_nat (length (m_conns p') + length s.2)).
Proof.
  intros Hmax Hs. pose proof (pool_reachable_inv (make host vhost port max_size max_alive max_request) s eq_refl eq_refl Hmax Hs) as (Ha & _ & Hi & Ho).
  split; [exact Ha|]. split; [exact Hi|]. split; [exact Ho|].
  intros ? ? ? ? ? ? ? ? ? ? w r p' w' E. destruct s as [p out]. cbn [fst snd] in *.
  eapply doRequest_reachable in E; [|exact Hs].
  by destruct (pool_reachable_inv (make host vhost port max_size max_alive max_request) _ eq_refl eq_refl Hmax E) as (Ha' & _).
Qed.

(** Idle connections are used again, the one that was given back first before the others, and
    they do not grow old: once the clock is past [m_maxAliveTime] itself (creation times are never
    set), an idle connection is taken without a look at its age or at the network, and nothing is
    closed; a connection that is given back while it is connected and has requests left goes to
    the end of the list. The limits on age and number have no effect. *)
Theorem pool_reuses host vhost port max_size max_alive max_request s c cs now (w : W) :
  0 <= max_request < 2 ^ 32 → 0 <= max_alive < 2 ^ 32 → max_alive <= now →
  reachable (make host vhost port max_size max_alive max_request) s → m_conns s.1 = c :: cs →
  getConnection now (s.1, w) = (Ret (Some c), (set_conns cs s.1, w))
  ∧ ∀ d used later, d ∈ s.2 → max_alive < later → SocketStream.isConnected used = true →
      m_request d + 1 < max_request →
      ∃ w', ReleasePtr later (mk_conn used (m_createTime d) (m_request d)) (s.1, w)
        = (Ret tt, (set_conns (c :: cs ++ [counted (mk_conn used (m_createTime d) (m_request d))]) s.1, w')).
Proof.
  intros Hmax Halive Hnow Hs Hc. destruct s as [p out]. cbn [fst snd] in *.
  pose proof (pool_reachable_inv (make host vhost port max_size max_alive max_request) _ eq_refl eq_refl Hmax Hs) as (Ha & [Hl1 Hl2] & Hi & Ho).
  unfold accounts in Ha. cbn [fst snd make m_maxRequest m_maxAliveTime] in *. split.
  - rewrite Hc in Hi, Ha. apply Forall_cons in Hi as [(Hcon & Ht & _) _].
    unfold HttpConnectionPool.getConnection. unfold mbind at 1, st_bind at 1, pool, gets. cbn [fst].
    rewrite Hc. cbn [pick]. unfold still_young. rewrite Hcon, Ht, Hl2, Z.add_0_l.
    rewrite uwrap_small by (unfold fits_u; simpl; lia). rewrite (proj2 (Z.ltb_ge now _)) by lia. cbn [negb orb].
    unfold mbind at 1, st_bind at 1, upd at 1, modify. cbn [delete_all fst snd length].
    unfold mbind, st_bind, upd, modify, mret, st_ret. cbn [fst snd m_total set_conns set_total]. do 3 f_equal.
    destruct p as [h v po ms ma mr co to]. unfold set_total, set_conns. cbn in *. f_equal.
    change (s32 (Z.of_nat 0)) with (s32 0). rewrite Ha, swrap_sub. by rewrite Z.sub_0_r.
  - intros d used later Hd Hlater Hcon Hreq. rewrite Forall_forall in Ho.
    destruct (Ho d Hd) as (Ht & Hr & _).
    destruct (ReleasePtr_spec later (mk_conn used (m_createTime d) (m_request d)) p w) as (w' & E).
    exists w'. rewrite E. unfold keeps. set (d' := counted _).
    assert (isConnected d' = true) as -> by exact Hcon.
    assert (m_createTime d' = 0) as -> by exact Ht.
    assert (m_request d' = m_request d + 1) as ->
      by (unfold d', counted; cbn [m_request]; apply uwrap_small; unfold fits_u; simpl; lia).
    rewrite Hl1, Hl2, Z.add_0_l, uwrap_small by (unfold fits_u; simpl; lia).
    rewrite (proj2 (Z.leb_gt later _)), (proj2 (Z.leb_gt max_request _)) by lia. cbn [negb andb].
    by rewrite Hc.
Qed.
End pool.
