(* ===== verification/StreamProps.v ===== *)
(** * What the streams guarantee

    The contract [ByteStream] of a stream that carries bytes in order, in pieces of any size;
    that [SocketStream] meets it when the socket layer does; and that the loops which transfer a
    given number of bytes transfer exactly these, or say that they could not. *)

From S2P Require Import Prelude Endian Buffer BufferFacts BufferSpec BufferIO FdManager Socket Stream.
Import ByteArray.

(** What a transfer of [k] of the bytes [l] may report: an error or the end, or a positive number
    of bytes, at most what was asked for. *)
Definition piece (n k : Z) (l : list byte) : Prop :=
  (k <= 0 ∧ l = []) ∨ (0 < k <= n ∧ Z.of_nat (length l) = k).

(** The bytes that reads will still deliver, and those written so far. *)
Class ByteStream (S : Type) `{Stream S} := {
  incoming : S → list byte;
  outgoing : S → list byte;
  read_piece n s : 0 < n < 2 ^ 31 →
    ∃ k l s', stream_read n s = (Ret (k, l), s') ∧ fits_s 32 k ∧ piece n k l
      ∧ incoming s = l ++ incoming s' ∧ outgoing s' = outgoing s;
  write_piece (l : list byte) s : 0 < Z.of_nat (length l) < 2 ^ 31 →
    ∃ k s', stream_write l s = (Ret k, s') ∧ fits_s 32 k
      ∧ piece (Z.of_nat (length l)) k (take (Z.to_nat k) l)
      ∧ outgoing s' = outgoing s ++ take (Z.to_nat k) l ∧ incoming s' = incoming s;
}.

Lemma store_ok memory offset l :
  0 <= offset → offset + Z.of_nat (length l) <= Z.of_nat (length memory) →
  store memory offset l = Ret (overwrite memory (Z.to_nat offset) l).
Proof.
  intros. unfold store. rewrite (proj2 (Z.ltb_ge _ _)), (proj2 (Z.ltb_ge _ _)) by lia. done.
Qed.

Lemma store_beyond memory offset l :
  Z.of_nat (length memory) < offset + Z.of_nat (length l) → store memory offset l = Undef.
Proof.
  intros H. unfold store. rewrite (proj2 (Z.ltb_lt _ (offset + _)) H). by rewrite orb_true_r.
Qed.

(** What a transfer of [n] bytes reports: all of them, or an error or the end before the last. *)
Definition all_or_failed (n r : Z) (l : list byte) : Prop :=
  (r = n ∧ Z.of_nat (length l) = n) ∨ (r <= 0 ∧ Z.of_nat (length l) < n).

Section byte_stream.
Context {S : Type} `{ByteStream S}.
Implicit Types (s : S).

Lemma readFixSize_loop_ok fuel : ∀ memory at_ offset left s,
  (Z.to_nat left < fuel)%nat → 0 <= at_ → 0 <= offset → 0 <= left < 2 ^ 31 →
  at_ + offset + left <= Z.of_nat (length memory) →
  ∃ r l s', Stream.readFixSize_loop fuel memory at_ offset left s
      = (Ret (r, overwrite memory (Z.to_nat (at_ + offset)) l), s')
    ∧ match r with None => Z.of_nat (length l) = left | Some r => r <= 0 ∧ Z.of_nat (length l) < left end
    ∧ incoming s = l ++ incoming s' ∧ outgoing s' = outgoing s.
Proof.
  induction fuel as [|fuel IH]; intros memory at_ offset left s Hf Ha Ho Hl Hfit; [lia|].
  cbn [Stream.readFixSize_loop]. destruct (Z.ltb_spec 0 left) as [Hpos|Hpos].
  - destruct (read_piece left s) as (k & l & s1 & E & Hk & Hp & Hin & Hout); [lia|].
    st_run exact E. cbn [fst snd]. destruct Hp as [[Hk0 ->]|[Hk0 Hlen]].
    + rewrite (proj2 (Z.leb_le _ _)) by done. st_run reflexivity.
      exists (Some (s32 k)), [], s1. rewrite overwrite_nil, swrap_small by (done || lia).
      simpl. split; [done|]. split; [lia|done].
    + rewrite (proj2 (Z.leb_gt _ _)) by lia.
      st_run (apply lift_Ret, store_ok; lia).
      destruct (IH (overwrite memory (Z.to_nat (at_ + offset)) l) at_ (offset + k) (left - k) s1)
        as (r & l' & s' & E' & Hr & Hin' & Hout'); try lia.
      { rewrite length_overwrite by lia. lia. }
      exists r, (l ++ l'), s'. rewrite E'. split; [|split; [|split]].
      * do 3 f_equal. replace (Z.to_nat (at_ + (offset + k)))
          with (Z.to_nat (at_ + offset) + length l)%nat by lia.
        by rewrite overwrite_split by lia.
      * rewrite length_app. destruct r; lia.
      * by rewrite Hin, Hin', app_assoc.
      * by rewrite Hout', Hout.
  - exists None, [], s. rewrite overwrite_nil. split; [done|]. simpl. split; [lia|done].
Qed.

Lemma readFixSize_ok memory at_ n s :
  0 <= at_ → 0 <= n < 2 ^ 31 → at_ + n <= Z.of_nat (length memory) →
  ∃ r l s', Stream.readFixSize memory at_ n s = (Ret (r, overwrite memory (Z.to_nat at_) l), s')
    ∧ all_or_failed n r l ∧ incoming s = l ++ incoming s' ∧ outgoing s' = outgoing s.
Proof.
  intros Ha Hn Hfit. unfold Stream.readFixSize.
  rewrite (swrap_small 64), (swrap_small 32) by (lia || (unfold fits_s; simpl; lia)).
  destruct (readFixSize_loop_ok (Datatypes.S (Z.to_nat n)) memory at_ 0 n s)
    as (r & l & s' & E & Hr & Hio); try lia.
  rewrite Z.add_0_r in E. st_run exact E. exists (default n r), l, s'. split; [done|].
  split; [|done]. unfold all_or_failed. destruct r; simpl; [right|left]; lia.
Qed.

Lemma writeFixSize_loop_ok fuel : ∀ buffer offset left s,
  (Z.to_nat left < fuel)%nat → 0 <= offset → 0 <= left < 2 ^ 31 →
  offset + left <= Z.of_nat (length buffer) →
  ∃ r l s', Stream.writeFixSize_loop fuel buffer offset left s = (Ret r, s')
    ∧ l `prefix_of` buffer.[Z.to_nat offset, Z.to_nat left]
    ∧ match r with None => Z.of_nat (length l) = left | Some r => r <= 0 ∧ Z.of_nat (length l) < left end
    ∧ outgoing s' = outgoing s ++ l ∧ incoming s' = incoming s.
Proof.
  induction fuel as [|fuel IH]; intros buffer offset left s Hf Ho Hl Hfit; [lia|].
  cbn [Stream.writeFixSize_loop]. destruct (Z.ltb_spec 0 left) as [Hpos|Hpos].
  - set (x := buffer.[_, _]).
    assert (Z.of_nat (length x) = left) as Hx
      by (unfold x; rewrite length_take, length_drop; lia).
    destruct (write_piece x s) as (k & s1 & E & Hk & Hp & Hout & Hin); [lia|].
    st_run exact E. destruct Hp as [[Hk0 Hn]|[Hk0 Hlen]].
    + rewrite (proj2 (Z.leb_le _ _)) by done. exists (Some (s32 k)), [], s1.
      rewrite swrap_small by (done || lia). split; [done|]. split; [apply prefix_nil|].
      split; [simpl; lia|]. by rewrite Hout, Hn.
    + rewrite (proj2 (Z.leb_gt _ _)) by lia.
      destruct (IH buffer (offset + k) (left - k) s1) as (r & l & s' & E' & Hpre & Hr & Hout' & Hin');
        try lia.
      exists r, (take (Z.to_nat k) x ++ l), s'. split; [done|]. split; [|split; [|split]].
      * replace x with (take (Z.to_nat k) x ++ drop (Z.to_nat k) x) at 2 by apply take_drop.
        apply prefix_app. replace (drop (Z.to_nat k) x)
          with (buffer.[Z.to_nat (offset + k), Z.to_nat (left - k)]); [done|].
        unfold x. rewrite skipn_firstn_comm, drop_drop. f_equal; [lia|]. f_equal. lia.
      * rewrite length_app. destruct r; lia.
      * by rewrite Hout', Hout, app_assoc.
      * by rewrite Hin', Hin.
  - exists None, [], s. split; [done|]. split; [apply prefix_nil|]. rewrite app_nil_r.
    simpl. split; [lia|done].
Qed.

Lemma writeFixSize_ok buffer s :
  Z.of_nat (length buffer) < 2 ^ 31 →
  ∃ r l s', Stream.writeFixSize buffer (Z.of_nat (length buffer)) s = (Ret r, s')
    ∧ l `prefix_of` buffer ∧ all_or_failed (Z.of_nat (length buffer)) r l
    ∧ outgoing s' = outgoing s ++ l ∧ incoming s' = incoming s.
Proof.
  intros Hn. unfold Stream.writeFixSize. set (n := Z.of_nat (length buffer)) in *.
  rewrite (swrap_small 64), (swrap_small 32) by (lia || (unfold fits_s; simpl; lia)).
  destruct (writeFixSize_loop_ok (Datatypes.S (Z.to_nat n)) buffer 0 n s)
    as (r & l & s' & E & Hpre & Hr & Hio); try lia.
  st_run exact E. exists (default n r), l, s'. split; [done|].
  rewrite drop_0, take_ge in Hpre by lia. split; [done|]. split; [|done].
  unfold all_or_failed. destruct r; simpl; [right|left]; lia.
Qed.

(** On a stream that delivers and takes bytes in pieces of any size, [readFixSize] stores
    exactly the next [n] bytes of the stream and returns [n], and [writeFixSize] puts exactly the
    bytes of the buffer on the stream; or the stream failed or ended first, and they return what
    it reported with the bytes that did get through, in order. They return in every case. *)
Theorem fix_size_transfers memory at_ n buffer s :
  0 <= at_ → 0 <= n < 2 ^ 31 → at_ + n <= Z.of_nat (length memory) →
  Z.of_nat (length buffer) < 2 ^ 31 →
  (∃ r l s', Stream.readFixSize memory at_ n s = (Ret (r, overwrite memory (Z.to_nat at_) l), s')
     ∧ all_or_failed n r l ∧ incoming s = l ++ incoming s' ∧ outgoing s' = outgoing s)
  ∧ ∃ r l s', Stream.writeFixSize buffer (Z.of_nat (length buffer)) s = (Ret r, s')
     ∧ l `prefix_of` buffer ∧ all_or_failed (Z.of_nat (length buffer)) r l
     ∧ outgoing s' = outgoing s ++ l ∧ incoming s' = incoming s.
Proof. intros. split; [by apply readFixSize_ok|by apply writeFixSize_ok]. Qed.
End byte_stream.

(** ** Streams over sockets *)

Definition total (lens : list Z) : Z := foldr Z.add 0 lens.

(** What is used of the socket layer: calls on a descriptor take the next bytes that arrived for
    it, in order, and hand bytes over in order; they return at least -1. *)
Class ByteSys (W : Type) `{Sys W} := {
  sys_in : Z → W → list byte;
  sys_out : Z → W → list byte;
  recv_piece fd n flags w : 0 < n < 2 ^ 31 →
    ∃ k l w', sys_recv fd n flags w = ((k, l), w') ∧ -1 <= k ∧ piece n k l
      ∧ sys_in fd w = l ++ sys_in fd w' ∧ sys_out fd w' = sys_out fd w;
  recvmsg_piece fd lens flags w : 0 < total lens < 2 ^ 31 →
    ∃ k l m w', sys_recvmsg fd lens None flags w = ((k, l, m), w') ∧ -1 <= k ∧ piece (total lens) k l
      ∧ sys_in fd w = l ++ sys_in fd w' ∧ sys_out fd w' = sys_out fd w;
  send_piece fd (l : list byte) flags w : 0 < Z.of_nat (length l) < 2 ^ 31 →
    ∃ k w', sys_send fd l flags w = (k, w') ∧ -1 <= k
      ∧ piece (Z.of_nat (length l)) k (take (Z.to_nat k) l)
      ∧ sys_out fd w' = sys_out fd w ++ take (Z.to_nat k) l ∧ sys_in fd w' = sys_in fd w;
  sendmsg_piece fd ls flags w : let l := concat ls in 0 < Z.of_nat (length l) < 2 ^ 31 →
    ∃ k w', sys_sendmsg fd ls None flags w = (k, w') ∧ -1 <= k
      ∧ piece (Z.of_nat (length l)) k (take (Z.to_nat k) l)
      ∧ sys_out fd w' = sys_out fd w ++ take (Z.to_nat k) l ∧ sys_in fd w' = sys_in fd w;
}.

Section socket_stream.
Context `{Heap} {W : Type} `{ByteSys W}.
Implicit Types (s : SocketStream.t * W) (b : t) (f : Flat.t).

Definition socket_in s : list byte :=
  match SocketStream.m_socket s.1 with Some o => sys_in (Socket.m_sock o) s.2 | None => [] end.
Definition socket_out s : list byte :=
  match SocketStream.m_socket s.1 with Some o => sys_out (Socket.m_sock o) s.2 | None => [] end.

Lemma piece_fits n k l : n < 2 ^ 31 → -1 <= k → piece n k l → fits_s 32 k.
Proof. intros ? ? [[? ?]|[? ?]]; unfold fits_s; simpl; lia. Qed.

(** A call of the socket layer on a connected socket. *)
Lemma on_connected {A} (f : Socket.t → ST (Socket.t * W) A) (g : ST (Socket.t * W) A) o own w :
  Socket.isConnected o = true →
  SocketStream.on_socket (o ← Socket.obj; if Socket.isConnected o then f o else g)
    (SocketStream.mk (Some o) own, w) = SocketStream.on_socket (f o) (SocketStream.mk (Some o) own, w).
Proof.
  intros Hc. unfold SocketStream.on_socket. cbn [SocketStream.m_socket fst snd].
  rewrite (st_bind_Ret Socket.obj _ (o, w) o (o, w) eq_refl). by rewrite Hc.
Qed.

Lemma on_call {A B} (c : W → A * W) (g : A → B) o own w a w' :
  c w = (a, w') →
  SocketStream.on_socket (n ← Socket.call c; mret (g n)) (SocketStream.mk (Some o) own, w)
  = (Ret (g a), (SocketStream.mk (Some o) own, w')).
Proof.
  intros E. unfold SocketStream.on_socket, Socket.call, mbind, st_bind.
  cbn [SocketStream.m_socket fst snd]. by rewrite E.
Qed.

Lemma socket_read_piece n s : 0 < n < 2 ^ 31 →
  ∃ k l s', SocketStream.read n s = (Ret (k, l), s') ∧ fits_s 32 k ∧ piece n k l
    ∧ socket_in s = l ++ socket_in s' ∧ socket_out s' = socket_out s ∧ s'.1 = s.1.
Proof.
  intros Hn. unfold SocketStream.read. st_run reflexivity.
  destruct (SocketStream.isConnected s.1) eqn:Hc; cbn [negb].
  - destruct s as [[[o|] own] w]; [|discriminate]. change (Socket.isConnected o = true) in Hc.
    destruct (recv_piece (Socket.m_sock o) n 0 w Hn) as (k & l & w' & E & Hk & Hp & Hin & Hout).
    exists k, l, (SocketStream.mk (Some o) own, w').
    unfold Socket.recv. rewrite on_connected, (on_call _ _ _ _ _ _ _ E) by done. cbn [fst snd].
    rewrite swrap_small by (lia || (eapply piece_fits; [|done..]; lia)).
    split; [done|]. split; [eapply piece_fits; [|done..]; lia|]. by unfold socket_in, socket_out.
  - exists (-1), [], s. split; [done|]. split; [done|]. split; [left; done|done].
Qed.

Lemma socket_write_piece (l : list byte) s : 0 < Z.of_nat (length l) < 2 ^ 31 →
  ∃ k s', SocketStream.write l s = (Ret k, s') ∧ fits_s 32 k
    ∧ piece (Z.of_nat (length l)) k (take (Z.to_nat k) l)
    ∧ socket_out s' = socket_out s ++ take (Z.to_nat k) l ∧ socket_in s' = socket_in s ∧ s'.1 = s.1.
Proof.
  intros Hn. unfold SocketStream.write. st_run reflexivity.
  destruct (SocketStream.isConnected s.1) eqn:Hc; cbn [negb].
  - destruct s as [[[o|] own] w]; [|discriminate]. change (Socket.isConnected o = true) in Hc.
    destruct (send_piece (Socket.m_sock o) l 0 w Hn) as (k & w' & E & Hk & Hp & Hout & Hin).
    exists k, (SocketStream.mk (Some o) own, w').
    unfold Socket.send. rewrite on_connected, (on_call _ _ _ _ _ _ _ E) by done.
    rewrite swrap_small by (lia || (eapply piece_fits; [|done..]; lia)).
    split; [done|]. split; [eapply piece_fits; [|done..]; lia|]. by unfold socket_in, socket_out.
  - exists (-1), s. split; [done|]. split; [done|]. split; [left; done|]. by rewrite app_nil_r.
Qed.

#[export] Program Instance socket_byte_stream : ByteStream (SocketStream.t * W) := {
  incoming := socket_in;
  outgoing := socket_out;
}.
Next Obligation.
  intros n s Hn. destruct (socket_read_piece n s Hn) as (k & l & s' & ? & ? & ? & ? & ? & _).
  by exists k, l, s'.
Qed.
Next Obligation.
  intros l s Hn. destruct (socket_write_piece l s Hn) as (k & s' & ? & ? & ? & ? & ? & _).
  by exists k, s'.
Qed.

Lemma iovs_cover_total ns base vs : ∀ pos len,
  iovs_cover ns base pos vs len → total (iov_len <$> vs) = len.
Proof.
  induction vs as [|v vs IH]; intros pos len; [by intros ->|].
  intros (_ & _ & _ & _ & _ & Hv). cbn [fmap list_fmap total foldr].
  change (foldr Z.add 0 ?x) with (total x). rewrite (IH _ _ Hv). lia.
Qed.

Lemma scatter_nil vs : ∀ ns, scatter ns vs [] = ns.
Proof.
  induction vs as [|v vs IH]; intros ns; [done|]. simpl. rewrite Nat.min_0_r.
  destruct (ns !! iov_node v) as [nd|] eqn:E; [|done].
  change (take 0 []) with (@nil byte). rewrite overwrite_nil, drop_nil.
  rewrite list_insert_id by (by destruct nd). apply IH.
Qed.

(** [read(ba, length)] receives into the buffer: what came is appended at its cursor. *)
Lemma socket_read_ba_ok n s b f :
  refines b f → 0 < n < 2 ^ 31 → room b (Z.to_nat n) →
  ∃ k l s' b', SocketStream.read_ba n (s, b) = (Ret k, (s', b')) ∧ fits_s 32 k ∧ piece n k l
    ∧ refines b' (Flat.write l f)
    ∧ m_position b' = m_position b + Z.of_nat (length l) ∧ m_baseSize b' = m_baseSize b
    ∧ socket_in s = l ++ socket_in s' ∧ socket_out s' = socket_out s.
Proof.
  intros Href Hn Hroom. unfold SocketStream.read_ba. st_run reflexivity. cbn [fst].
  destruct (SocketStream.isConnected s.1) eqn:Hc; cbn [negb].
  2:{ exists (-1), [], s, b. split; [done|]. split; [done|]. split; [left; done|].
      unfold Flat.write. rewrite overwrite_nil, Nat.add_0_r, Z.add_0_r. by destruct f. }
  destruct s as [[[o|] own] w]; [|discriminate]. change (Socket.isConnected o = true) in Hc.
  destruct (write_buffers_ok b f [] n Href) as (b1 & vs & E & Hr1 & Hp1 & Hb1 & Hcap & Hvs); [lia|done|].
  st_run (unfold on_snd; cbn [fst snd]; by rewrite E). cbn [fst snd app].
  pose proof (iovs_cover_total _ _ _ _ _ Hvs) as Htot.
  rewrite bool_decide_false by (intros ->; cbn in Htot; lia).
  destruct (recvmsg_piece (Socket.m_sock o) (iov_len <$> vs) 0 w) as (k & l & m & w' & Er & Hk & Hpc & Hin & Hout);
    [lia|]. rewrite Htot in Hpc.
  assert (fits_s 32 k) as Hfit by (eapply piece_fits; [|done..]; lia).
  st_run (unfold on_fst, Socket.recv_iov; cbn [fst snd];
    by rewrite on_connected, (on_call _ _ _ _ _ _ _ Er)).
  cbn [fst snd]. rewrite swrap_small by (lia || done).
  st_run reflexivity. cbn [fst snd].
  exists k, l, (SocketStream.mk (Some o) own, w').
  destruct Hpc as [[Hk0 ->]|[Hk0 Hlen]].
  - exists b1. rewrite (proj2 (Z.ltb_ge _ _)) by done. st_run reflexivity.
    rewrite scatter_nil. split; [by destruct b1|]. split; [done|]. split; [by left|].
    unfold Flat.write. rewrite overwrite_nil, Nat.add_0_r, Z.add_0_r.
    split; [by destruct f|]. split; [lia|]. done.
  - destruct (fill_buffers_ok b1 f vs n l) as (b2 & E2 & Hr2 & Hp2 & Hb2); try done; [lia|].
    exists b2. rewrite (proj2 (Z.ltb_lt _ _)) by lia.
    pose proof (refines_wf _ _ Hr1) as Hwf1. pose proof (wf_pos _ Hwf1). pose proof (wf_cap64 _ Hwf1).
    st_run (unfold on_snd; cbn [fst snd]; st_run reflexivity; unfold getPosition; cbn [m_position set_nodes];
      rewrite (u64_small (m_position b1 + k)) by lia; replace k with (Z.of_nat (length l)) by lia; by rewrite E2).
    split; [done|]. split; [done|]. split; [by right|]. split; [done|]. split; [lia|].
    split; [congruence|]. done.
Qed.
Lemma refines_position b f : refines b f → Z.of_nat (Flat.cur f) = m_position b.
Proof.
  intros [Hwf _ Hcur]. pose proof (wf_pos _ Hwf). rewrite <- Hcur. unfold cursor. lia.
Qed.

Lemma readFixSize_ba_loop_ok fuel : ∀ left s b f,
  (Z.to_nat left < fuel)%nat → refines b f → 0 <= left < 2 ^ 31 → room b (Z.to_nat left) →
  ∃ r l s' b', Stream.fix_size_loop stream_read_ba fuel left (s, b) = (Ret r, (s', b'))
    ∧ match r with None => Z.of_nat (length l) = left | Some r => r <= 0 ∧ Z.of_nat (length l) < left end
    ∧ refines b' (Flat.write l f) ∧ socket_in s = l ++ socket_in s' ∧ socket_out s' = socket_out s.
Proof.
  induction fuel as [|fuel IH]; intros left s b f Hf Href Hl Hroom; [lia|].
  cbn [Stream.fix_size_loop]. destruct (Z.ltb_spec 0 left) as [Hpos|Hpos].
  - destruct (socket_read_ba_ok left s b f) as (k & l & s1 & b1 & E & Hfit & Hp & Hr & Hp1 & Hb1 & Hin & Hout);
      [done|lia|done|].
    st_run exact E. destruct Hp as [[Hk0 ->]|[Hk0 Hlen]].
    + rewrite (proj2 (Z.leb_le _ _)) by done. exists (Some (s32 k)), [], s1, b1.
      rewrite swrap_small by (lia || done). simpl. split; [done|]. split; [lia|done].
    + rewrite (proj2 (Z.leb_gt _ _)) by lia.
      destruct (IH (left - k) s1 b1 (Flat.write l f)) as (r & l' & s' & b' & E' & Hr' & Href' & Hin' & Hout');
        [lia|done|lia|unfold room in *; lia|].
      exists r, (l ++ l'), s', b'. split; [done|]. split; [|split; [|split]].
      * rewrite length_app. destruct r; lia.
      * rewrite <- Flat_write_app; [done|]. destruct (refines_bounds b f Href) as (? & ? & ? & _). lia.
      * by rewrite Hin, Hin', app_assoc.
      * by rewrite Hout', Hout.
  - exists None, [], s, b. split; [done|]. simpl. split; [lia|].
    unfold Flat.write. rewrite overwrite_nil, Nat.add_0_r. by destruct f.
Qed.

(** C29. Receiving into a [ByteArray]: [readFixSize] of a socket stream appends to the array, at
    its cursor, exactly the next bytes of the connection, in order, whatever the pieces they come
    in; it returns their number, or what the socket reported with fewer of them appended. *)
Theorem receive_refines n s b f :
  refines b f → 0 <= n < 2 ^ 31 → room b (Z.to_nat n) →
  ∃ r l s' b', Stream.readFixSize_ba n (s, b) = (Ret r, (s', b'))
    ∧ all_or_failed n r l ∧ refines b' (Flat.write l f)
    ∧ socket_in s = l ++ socket_in s' ∧ socket_out s' = socket_out s.
Proof.
  intros Href Hn Hroom. unfold Stream.readFixSize_ba.
  rewrite (swrap_small 64), (swrap_small 32) by (lia || (unfold fits_s; simpl; lia)).
  destruct (readFixSize_ba_loop_ok (Datatypes.S (Z.to_nat n)) n s b f) as (r & l & s' & b' & E & Hr & Hio);
    [lia|done..|].
  st_run exact E. exists (default n r), l, s', b'. split; [done|]. split; [|done].
  unfold all_or_failed. destruct r; simpl; [right|left]; lia.
Qed.

Lemma concat_iov_bytes ns vs : concat (iov_bytes ns <$> vs) = iovs_bytes ns vs.
Proof. done. Qed.

(** Moving the cursor over bytes of memory makes them readable as they are. *)
Lemma sent_is_written b f k :
  refines b f → m_position b + Z.of_nat k <= m_capacity b →
  ∃ b2, setPosition (m_position b + Z.of_nat k) b = (Ret tt, b2)
    ∧ refines b2 (Flat.write ((flat (m_nodes b)).[Z.to_nat (m_position b), k]) f).
Proof.
  intros Href Hfit. pose proof Href as [Hwf Hdata Hcur].
  pose proof (wf_pos _ Hwf). pose proof (wf_size _ Hwf). pose proof (length_flat_wf _ Hwf).
  destruct (setPosition_flat b f (m_position b + Z.of_nat k) Href)
    as (b2 & g & E & [Hwf2 Hd2 Hc2] & Hg & M1 & M2 & M3 & M4 & M5 & M6); [lia|].
  exists b2. split; [done|]. set (l := _.[_, _]).
  assert (length l = k) as Hl by (unfold l; rewrite length_take, length_drop; lia).
  split; [done| |unfold cursor in *; simpl; lia].
  unfold content. rewrite M4, M6. simpl. rewrite <- Hdata, <- Hcur. unfold content, cursor.
  rewrite <- take_overwrite_grow by lia. rewrite Hl. f_equal; [lia|].
  unfold overwrite. rewrite Hl. unfold l. rewrite <- drop_drop, take_drop. by rewrite take_drop.
Qed.

(** [write(ba, length)] of a socket stream collects with [getWriteBuffers]: it sends [length]
    bytes of memory from the cursor on, of which only the first are the unread bytes of the
    array; the rest is memory that was never written, and the array grows over what was sent. *)
Theorem send_from_buffer n s b f :
  refines b f → 0 < n < 2 ^ 31 → room b (Z.to_nat n) →
  SocketStream.isConnected s.1 = true →
  ∃ k l s' b', SocketStream.write_ba n (s, b) = (Ret k, (s', b')) ∧ piece n k l
    ∧ socket_out s' = socket_out s ++ l ∧ socket_in s' = socket_in s
    ∧ take (length (Flat.unread f)) l = take (length l) (Flat.unread f)
    ∧ refines b' (Flat.write l f).
Proof.
  intros Href Hn Hroom Hc. unfold SocketStream.write_ba. st_run reflexivity. cbn [fst].
  rewrite Hc. cbn [negb]. destruct s as [[[o|] own] w]; [|discriminate].
  change (Socket.isConnected o = true) in Hc.
  destruct (write_buffers_ok b f [] n Href) as (b1 & vs & E & Hr1 & Hp1 & Hb1 & Hcap & Hvs); [lia|done|].
  st_run (unfold on_snd; cbn [fst snd]; by rewrite E). cbn [fst snd app].
  rewrite bool_decide_false by (intros ->; cbn in Hvs; lia).
  st_run reflexivity. cbn [fst snd].
  pose proof (refines_wf _ _ Hr1) as Hwf1. pose proof (wf_pos _ Hwf1). pose proof (wf_cap64 _ Hwf1).
  pose proof (wf_base _ Hwf1). pose proof (length_flat_wf _ Hwf1).
  assert (iovs_bytes (m_nodes b1) vs = (flat (m_nodes b1)).[Z.to_nat (m_position b1), Z.to_nat n]) as Hbytes
    by (apply (iovs_cover_bytes (m_baseSize b1)); done || lia || apply Hwf1).
  set (x := iovs_bytes _ _) in Hbytes.
  assert (Z.of_nat (length x) = n) as Hx by (rewrite Hbytes, length_take, length_drop; lia).
  destruct (sendmsg_piece (Socket.m_sock o) (iov_bytes (m_nodes b1) <$> vs) 0 w) as (k & w' & Es & Hk & Hpc & Hout & Hin);
    change (concat _) with x in *; [lia|]. rewrite Hx in Hpc.
  assert (fits_s 32 k) as Hfit by (eapply piece_fits; [|done..]; lia).
  st_run (unfold on_fst, Socket.send_iov; cbn [fst snd];
    by rewrite on_connected, (on_call _ _ _ _ _ _ _ Es)).
  rewrite swrap_small by (lia || done).
  exists k, (take (Z.to_nat k) x), (SocketStream.mk (Some o) own, w').
  destruct Hpc as [[Hk0 El]|[Hk0 Hlen]].
  - exists b1. rewrite (proj2 (Z.ltb_ge _ _)) by done. st_run reflexivity.
    split; [done|]. split; [left; done|]. split; [done|]. split; [done|].
    rewrite El. split; [by rewrite take_nil|].
    unfold Flat.write. rewrite overwrite_nil, Nat.add_0_r. by destruct f.
  - rewrite (proj2 (Z.ltb_lt _ _)) by lia.
    destruct (sent_is_written b1 f (Z.to_nat k) Hr1) as (b2 & E2 & Hr2); [lia|].
    assert (take (Z.to_nat k) x = (flat (m_nodes b1)).[Z.to_nat (m_position b1), Z.to_nat k]) as Hl
      by (rewrite Hbytes, take_take; f_equal; lia).
    exists b2. st_run (unfold on_snd; cbn [fst snd]; st_run reflexivity; unfold getPosition;
      rewrite (u64_small (m_position b1 + k)) by lia; replace k with (Z.of_nat (Z.to_nat k)) by lia; by rewrite E2).
    split; [done|]. split; [by right|]. split; [done|]. split; [done|]. rewrite Hl. split; [|done].
    rewrite (unread_range b1 f Hr1), !length_take, !length_drop, !take_take. f_equal. lia.
Qed.
End socket_stream.
