(* ===== verification/Wire.v ===== *)
(** * A concrete socket layer

    A peer whose bytes arrive in given pieces and that takes at most [quota] bytes at a time. It
    meets the contract [ByteSys], and the theorems on streams, sessions and servers are applied
    to it. *)

From S2P Require Import Prelude Endian Buffer BufferFacts BufferSpec Address FdManager Socket SocketProps Stream StreamProps.

Record wire := mk_wire {
  pieces : list (list byte);
  quota : Z;
  sent : list byte;
  fds : FdManager.t;
  opened : bool;
}.

Definition wire_recv (n : Z) (w : wire) : (Z * list byte) * wire :=
  match pieces w with
  | [] => ((0, []), w)
  | p :: ps =>
      if Z.of_nat (length p) <=? n
      then ((Z.of_nat (length p), p), mk_wire ps (quota w) (sent w) (fds w) (opened w))
      else ((n, take (Z.to_nat n) p),
            mk_wire (drop (Z.to_nat n) p :: ps) (quota w) (sent w) (fds w) (opened w))
  end.

Definition wire_send (l : list byte) (w : wire) : Z * wire :=
  let k := Z.min (Z.of_nat (length l)) (quota w) in
  if k <=? 0 then (-1, w)
  else (k, mk_wire (pieces w) (quota w) (sent w ++ take (Z.to_nat k) l) (fds w) (opened w)).

#[export] Instance wire_sys : Sys wire := {
  fdmgr := fds;
  sys_socket _ _ _ w := (3, w);
  sys_accept _ w := (3, w);
  sys_bind _ _ _ w := (0, w);
  sys_connect _ _ _ w := (0, w);
  connect_with_timeout _ _ _ _ w := (0, w);
  sys_listen _ _ w := (0, w);
  sys_close _ w := (0, mk_wire (pieces w) (quota w) (sent w) (fds w) false);
  sys_send _ l _ w := wire_send l w;
  sys_sendto _ l _ _ _ w := wire_send l w;
  sys_sendmsg _ ls _ _ w := wire_send (concat ls) w;
  sys_recv _ n _ w := wire_recv n w;
  sys_recvfrom _ n _ _ w := let '(r, w) := wire_recv n w in ((r, []), w);
  sys_recvmsg _ lens _ _ w := let '(r, w) := wire_recv (total lens) w in ((r, []), w);
  sys_getpeername _ _ _ := None;
  sys_getsockopt _ _ _ _ := Some 0;
  sys_setsockopt _ _ _ _ w := (0, w);
}.

Lemma wire_recv_piece n w : 0 < n →
  ∃ k l w', wire_recv n w = ((k, l), w') ∧ -1 <= k ∧ piece n k l
    ∧ concat (pieces w) = l ++ concat (pieces w') ∧ sent w' = sent w.
Proof.
  intros Hn. unfold wire_recv. destruct w as [ps q out f op]. cbn.
  destruct ps as [|p ps]; [exists 0, []; eexists; split; [done|]; split; [lia|]; split; [by left|done]|].
  destruct (Z.leb_spec (Z.of_nat (length p)) n); do 3 eexists; (split; [done|]); (split; [lia|]); cbn.
  - split; [|done]. destruct p; [by left|right; simpl in *; lia].
  - split; [right; rewrite length_take; lia|]. split; [|done].
    rewrite <- (take_drop (Z.to_nat n) p) at 1. by rewrite <- app_assoc.
Qed.

Lemma wire_send_piece l w : 0 < Z.of_nat (length l) →
  ∃ k w', wire_send l w = (k, w') ∧ -1 <= k ∧ piece (Z.of_nat (length l)) k (take (Z.to_nat k) l)
    ∧ sent w' = sent w ++ take (Z.to_nat k) l ∧ concat (pieces w') = concat (pieces w).
Proof.
  intros Hl. unfold wire_send. destruct (Z.leb_spec (Z.min (Z.of_nat (length l)) (quota w)) 0);
    do 2 eexists; (split; [done|]); (split; [lia|]).
  - split; [by left|]. by rewrite app_nil_r.
  - split; [|done]. right. rewrite length_take. lia.
Qed.

#[export] Program Instance wire_bytes : ByteSys wire := {
  sys_in _ w := concat (pieces w);
  sys_out _ w := sent w;
}.
Next Obligation. intros. apply wire_recv_piece. lia. Qed.
Next Obligation.
  intros fd lens flags w Hn. destruct (wire_recv_piece (total lens) w) as (k & l & w' & E & H); [lia|].
  exists k, l, [], w'. cbn. by rewrite E.
Qed.
Next Obligation. intros. apply wire_send_piece. lia. Qed.
Next Obligation. intros fd ls flags w l Hl. apply (wire_send_piece (concat ls)). exact (proj1 Hl). Qed.

(** A connected socket over it. *)
Definition wire_of (ps : list (list byte)) (q : Z) : wire := mk_wire ps q [] (FdManager.make ∅) true.
Definition stream_of (ps : list (list byte)) (q : Z) : SocketStream.t * wire :=
  (SocketStream.make (Some (Socket.mk 3 2 1 0 true None None)) true, wire_of ps q).

#[local] Instance filled_heap : Heap := { uninit := fun _ _ => x2a; string_max_size := 2 ^ 62 }.

Lemma fix_size_transfers_witness :
  ∃ r l s', Stream.readFixSize (lit "........") 1 6 (stream_of [lit "ab"; lit "cde"; lit "fgh"] 2)
      = (Ret (r, overwrite (lit "........") 1 l), s')
    ∧ all_or_failed 6 r l ∧ lit "abcdefgh" = l ++ incoming s'.
Proof.
  destruct (fix_size_transfers (lit "........") 1 6 (lit "xyz")
    (stream_of [lit "ab"; lit "cde"; lit "fgh"] 2)) as [(r & l & s' & E & Hr & Hin & _) _]; [by vm_compute..|].
  exists r, l, s'. split; [exact E|]. split; [exact Hr|exact Hin].
Defined.

Lemma receive_refines_witness :
  ∃ r l s' b', Stream.readFixSize_ba 5 (stream_of [lit "ab"; lit "cdefg"] 2, ByteArray.make 4) = (Ret r, (s', b'))
    ∧ refines b' (Flat.write l (Flat.mk [] 0)) ∧ lit "abcdefg" = l ++ socket_in s'.
Proof.
  destruct (receive_refines 5 (stream_of [lit "ab"; lit "cdefg"] 2) (ByteArray.make 4) (Flat.mk [] 0))
    as (r & l & s' & b' & E & _ & Hr & Hin & _).
  - split; [apply make_wf; lia|done|done].
  - lia.
  - by vm_compute.
  - exists r, l, s', b'. split; [exact E|]. split; [exact Hr|exact Hin].
Defined.

Lemma send_from_buffer_witness :
  ∃ k l s' b', SocketStream.write_ba 3 (stream_of [] 9, ByteArray.make 4) = (Ret k, (s', b'))
    ∧ piece 3 k l ∧ socket_out s' = l ∧ take 0 l = take (length l) [].
Proof.
  destruct (send_from_buffer 3 (stream_of [] 9) (ByteArray.make 4) (Flat.mk [] 0))
    as (k & l & s' & b' & E & Hp & Hout & _ & Hu & _).
  - split; [apply make_wf; lia|done|done].
  - lia.
  - by vm_compute.
  - done.
  - exists k, l, s', b'. split; [exact E|]. split; [exact Hp|]. split; [exact Hout|exact Hu].
Defined.

(** Three bytes of a block that was never written are sent. *)
Example write_ba_leaks :
  (SocketStream.write_ba 3 (stream_of [] 9, ByteArray.make 4)).1 = Ret 3
  ∧ sent (SocketStream.write_ba 3 (stream_of [] 9, ByteArray.make 4)).2.1.2 = lit "***".
Proof. by vm_compute. Qed.

(** A socket that is connected, used and closed. *)
Lemma socket_typed_witness :
  ∃ o' w', run_all [op_connect (Address.IPv4 (IPv4Address.make 0 80)) (u64 (-1)); op_send (lit "abc") 0; op_recv 2 0]
             (Socket.make AF_INET 1 0, wire_of [lit "xyz"] 2) = (Ret tt, (o', w'))
    ∧ Socket.m_isConnected o' = true ∧ Socket.m_sock o' ≠ -1 ∧ sent w' = lit "ab".
Proof.
  eexists _, _. split; [vm_compute; reflexivity|]. split; [done|]. split; [|done].
  apply (socket_typed [op_connect (Address.IPv4 (IPv4Address.make 0 80)) (u64 (-1)); op_send (lit "abc") 0; op_recv 2 0]
    AF_INET 1 0 (wire_of [lit "xyz"] 2) (Ret tt) _
    (mk_wire [lit "z"] 2 (lit "ab") (FdManager.make ∅) true)); [vm_compute; reflexivity|done].
Defined.
