(* ===== verification/HttpSession.v ===== *)
(** * HTTP sessions and the HTTP server (sylar/http/http_session.cpp, sylar/http/http_server.cpp)

    What a server does with a connection: it receives a request from the stream, has it answered
    by a servlet, sends the answer, and goes on while both sides keep the connection. The session
    is used through the interface [Stream]. The buffer and the parser object of a request are
    memory that was just allocated: what it holds is an argument, for each request. *)

From S2P Require Import Prelude Endian CString StdOrdered Http Http11Parser HttpParser Servlet.
From S2P Require Import Buffer Socket Stream.

Module HttpSession.
Section session.
Context {S : Type} `{Stream S} `{Heap}.
(** [GetHttpRequestBufferSize()], and [boost::lexical_cast<uint64_t>]. *)
Context (buff_size : Z) (lexical_cast : list byte → option Z).

(** The [do] loop of [recvRequest]: nothing when it gives up, else the buffer, the parser and the
    number of bytes behind the header. *)
Fixpoint recv_loop (fuel : nat) (data : list byte) (parser : HttpRequestParser.t) (offset : Z)
    : ST S (option (list byte * HttpRequestParser.t * Z)) :=
  match fuel with
  | O => lift NoFuel
  | Datatypes.S fuel =>
      r ← stream_read (u64 (buff_size - offset));
      let len := r.1 in
      if len <=? 0 then stream_close;; mret None
      else
        data ← lift (store data offset r.2);
        let len := s32 (len + offset) in
        e ← lift (HttpRequestParser.execute data (Z.to_nat (u64 len)) parser);
        let '(nparse, data, parser) := e in
        if HttpRequestParser.hasError parser then stream_close;; mret None
        else
          let offset := s32 (u64 (len - nparse)) in
          if offset =? s32 buff_size then stream_close;; mret None
          else if negb (HttpRequestParser.isFinished parser =? 0) then mret (Some (data, parser, offset))
          else recv_loop fuel data parser offset
  end.

(** The body: what was received with the header is copied, the rest is read behind it. *)
Definition recv_body (data : list byte) (parser : HttpRequestParser.t) (offset : Z)
    : ST S (option (list byte)) :=
  let length := s64 (HttpRequestParser.getContentLength lexical_cast parser) in
  if 0 <? length then
    if string_max_size <? length then throw length_error
    else
      let body := replicate (Z.to_nat length) x00 in
      let '(body, len) :=
        if offset <=? length then (overwrite body 0 (take (Z.to_nat offset) data), s32 length)
        else (body, 0) in
      let length := length - offset in
      if 0 <? length then
        r ← Stream.readFixSize body len length;
        if 0 <? r.1 then stream_close;; mret None else mret (Some r.2)
      else mret (Some body)
  else mret (Some []).

Definition recvRequest (fuel : nat) (fresh : http_parser * list byte) : ST S (option HttpRequest.t) :=
  h ← recv_loop fuel fresh.2 (HttpRequestParser.make fresh.1) 0;
  match h with
  | None => mret None
  | Some (data, parser, offset) =>
      body ← recv_body data parser offset;
      match body with
      | None => mret None
      | Some body =>
          let req := HttpRequestParser.m_data parser in
          let length := s64 (HttpRequestParser.getContentLength lexical_cast parser) in
          let req := if 0 <? length then HttpRequest.setBody body req else req in
          mret (Some (HttpRequest.init req))
      end
  end.

Definition sendResponse (rsp : HttpResponse.t) : ST S Z :=
  let data := HttpResponse.toString rsp in
  Stream.writeFixSize data (Z.of_nat (length data)).
End session.
End HttpSession.

Module HttpServer.
Section server.
Context {Cb Ty : Type} (fnmatch : list byte → list byte → bool).
Context (callback : Cb → HttpRequest.t → HttpResponse.t → Z * HttpResponse.t).
Context (other : Ty → HttpRequest.t → HttpResponse.t → Z * HttpResponse.t).

Record t := mk {
  m_isKeepAlive : bool;
  m_dispatch : ServletDispatch.t Cb Ty;
  m_type : list byte;
  m_name : list byte;
}.

Definition make (keepalive : bool) : t := mk keepalive ServletDispatch.make (lit "http") (lit "sylar/1.0.0").
Definition getServletDispatch (v : t) := m_dispatch v.
Definition setServletDispatch (d : ServletDispatch.t Cb Ty) (v : t) : t := mk (m_isKeepAlive v) d (m_type v) (m_name v).
Definition setName (name : list byte) (v : t) : t :=
  mk (m_isKeepAlive v) (ServletDispatch.setDefault (new_NotFoundServlet name) (m_dispatch v)) (m_type v) name.

Context {S : Type} `{Stream S} `{Heap}.
Context (buff_size : Z) (lexical_cast : list byte → option Z).

(** The answer to a request. *)
Definition respond (v : t) (req : HttpRequest.t) : HttpResponse.t :=
  let rsp := HttpResponse.make (HttpRequest.m_version req) (HttpRequest.m_close req || negb (m_isKeepAlive v)) in
  (ServletDispatch.handle fnmatch callback other (m_dispatch v) req rsp).2.

(** The [do] loop of [handleClient]; [fresh i] is the memory the [i]-th request gets. *)
Fixpoint handle_loop (v : t) (fresh : nat → http_parser * list byte) (fuel : nat) : ST S unit :=
  match fuel with
  | O => lift NoFuel
  | Datatypes.S fuel =>
      req ← HttpSession.recvRequest buff_size lexical_cast fuel (fresh O);
      match req with
      | None => mret tt
      | Some req =>
          HttpSession.sendResponse (respond v req);;
          if negb (m_isKeepAlive v) || HttpRequest.m_close req then mret tt
          else handle_loop v (fun i => fresh (Datatypes.S i)) fuel
      end
  end.
Definition handleClient (v : t) (fresh : nat → http_parser * list byte) (fuel : nat) : ST S unit :=
  handle_loop v fresh fuel;; stream_close.
End server.
End HttpServer.
