(* ===== verification/HttpSessionProps.v ===== *)
(** * What the HTTP server does with a connection

    The contract [SegmentStream] of a connection whose peer sends each message in one piece and
    takes what it is sent; and, for every such connection, that the server receives each request
    as it was sent, answers every one in order, and stops where it should. *)

From S2P Require Import Prelude Endian CString StdOrdered Http HttpSpec HttpProps.
From S2P Require Import Http11Parser Http11Safe Http11Spec HttpParser HttpParserProps Servlet.
From S2P Require Import Buffer BufferFacts Socket Stream StreamProps HttpSession.

Class SegmentStream (S : Type) `{Stream S} := {
  live : S → Prop;
  segments : S → list (list byte);
  written : S → list byte;
  read_segment p ps n s : live s → segments s = p :: ps → p ≠ [] →
    Z.of_nat (length p) <= n < 2 ^ 31 →
    ∃ s', stream_read n s = (Ret (Z.of_nat (length p), p), s') ∧ live s' ∧ segments s' = ps
      ∧ written s' = written s;
  read_partly p ps n s : live s → segments s = p :: ps → 0 < n < Z.of_nat (length p) → n < 2 ^ 31 →
    ∃ s', stream_read n s = (Ret (n, take (Z.to_nat n) p), s') ∧ live s'
      ∧ segments s' = drop (Z.to_nat n) p :: ps ∧ written s' = written s;
  read_end n s : live s → segments s = [] → 0 < n < 2 ^ 31 →
    ∃ k s', stream_read n s = (Ret (k, []), s') ∧ k <= 0 ∧ live s' ∧ segments s' = []
      ∧ written s' = written s;
  write_some (l : list byte) s : live s → 0 < Z.of_nat (length l) < 2 ^ 31 →
    ∃ k s', stream_write l s = (Ret k, s') ∧ 0 < k <= Z.of_nat (length l) ∧ live s'
      ∧ written s' = written s ++ take (Z.to_nat k) l ∧ segments s' = segments s;
  close_keeps s : ∃ s', stream_close s = (Ret tt, s') ∧ segments s' = segments s
      ∧ written s' = written s;
}.

(** Requests the session can receive: what [wire_request] asks for, a sorted header map that does
    not name the length of the body itself. *)
Definition servable (r : HttpRequest.t) : Prop :=
  wire_request r ∧ map_sorted CaseInsensitiveLess (HttpRequest.m_headers r)
  ∧ find_key (HttpRequest.m_headers r) (lit "content-length") = None.

(** The request as the servlets see it. *)
Definition received_as (r q : HttpRequest.t) : Prop :=
  HttpRequest.m_method q = HttpRequest.m_method r
  ∧ HttpRequest.m_version q = HttpRequest.m_version r
  ∧ HttpRequest.m_path q = HttpRequest.m_path r
  ∧ HttpRequest.m_query q = HttpRequest.m_query r
  ∧ HttpRequest.m_fragment q = HttpRequest.m_fragment r
  ∧ HttpRequest.m_body q = HttpRequest.m_body r
  ∧ HttpRequest.m_close q = HttpRequest.m_close r
  ∧ ∀ k, find_key (HttpRequest.m_headers q) k = arriving r k.

Section session.
Context {S : Type} `{SegmentStream S} `{Heap}.
Context (buff_size : Z) (lexical_cast : list byte → option Z).
Hypothesis Hbuff : 0 < buff_size < 2 ^ 31.
(** [boost::lexical_cast<uint64_t>] reads decimal numbers. *)
Hypothesis Hcast : ∀ n, 0 <= n < 2 ^ 64 → lexical_cast (dec n) = Some n.
Implicit Types (s : S) (r q : HttpRequest.t).

Lemma writeFixSize_all fuel : ∀ (buffer : list byte) offset left s,
  live s → (Z.to_nat left < fuel)%nat → 0 <= offset → 0 <= left < 2 ^ 31 →
  offset + left = Z.of_nat (length buffer) →
  ∃ s', Stream.writeFixSize_loop fuel buffer offset left s = (Ret None, s') ∧ live s'
    ∧ written s' = written s ++ drop (Z.to_nat offset) buffer ∧ segments s' = segments s.
Proof.
  induction fuel as [|fuel IH]; intros buffer offset left s Hs Hf Ho Hl Hfit; [lia|].
  cbn [Stream.writeFixSize_loop]. destruct (Z.ltb_spec 0 left) as [Hpos|Hpos].
  - set (x := buffer.[_, _]).
    assert (x = drop (Z.to_nat offset) buffer) as Ex
      by (unfold x; rewrite take_ge; [done|rewrite length_drop; lia]).
    assert (Z.of_nat (length x) = left) as Hx by (rewrite Ex, length_drop; lia).
    destruct (write_some x s) as (k & s1 & E & Hk & Hs1 & Hw & Hseg); [done|lia|].
    st_run exact E. rewrite (proj2 (Z.leb_gt _ _)) by lia.
    destruct (IH buffer (offset + k) (left - k) s1) as (s' & E' & Hs' & Hw' & Hseg'); try lia; [done|].
    exists s'. split; [exact E'|]. split; [done|]. split; [|congruence].
    rewrite Hw', Hw, <- app_assoc. f_equal. rewrite <- Ex.
    replace (drop (Z.to_nat (offset + k)) buffer) with (drop (Z.to_nat k) x); [by rewrite take_drop|].
    rewrite Ex, drop_drop. f_equal. lia.
  - exists s. rewrite drop_ge by lia. by rewrite app_nil_r.
Qed.

Lemma sendResponse_ok rsp s :
  live s → Z.of_nat (length (HttpResponse.toString rsp)) < 2 ^ 31 →
  ∃ s', HttpSession.sendResponse rsp s = (Ret (Z.of_nat (length (HttpResponse.toString rsp))), s')
    ∧ live s' ∧ written s' = written s ++ HttpResponse.toString rsp ∧ segments s' = segments s.
Proof.
  intros Hs Hn. unfold HttpSession.sendResponse, Stream.writeFixSize. cbv zeta.
  set (l := HttpResponse.toString rsp) in *. set (n := Z.of_nat (length l)) in *.
  rewrite (swrap_small 64), (swrap_small 32) by (lia || (unfold fits_s; simpl; lia)).
  destruct (writeFixSize_all (Datatypes.S (Z.to_nat n)) l 0 n s) as (s' & E & H'); try lia; [done|].
  st_run exact E. exists s'. rewrite drop_0 in H'. done.
Qed.

(** What the parser says about the length of the body. *)
Lemma content_length r p :
  servable r → arrives r (HttpRequestParser.m_data p) →
  Z.of_nat (length (HttpRequest.m_body r)) < 2 ^ 31 →
  s64 (HttpRequestParser.getContentLength lexical_cast p) = Z.of_nat (length (HttpRequest.m_body r)).
Proof.
  intros (_ & _ & Hn) (_ & _ & _ & _ & _ & _ & Hk & _) Hlen.
  unfold HttpRequestParser.getContentLength, getAs. rewrite Hk. unfold arriving.
  change (same_name (lit "content-length") (lit "content-length")) with true.
  change (same_name (lit "content-length") (lit "connection")) with false.
  rewrite andb_true_r. cbv iota. rewrite Hn.
  case_bool_decide as E; cbn [negb]; [by rewrite E|].
  rewrite Hcast by lia. cbn [default]. apply swrap_small; unfold fits_s; simpl; lia.
Qed.

(** The header of [r] and some of what follows it arrive in one piece. *)
Lemma recv_loop_header fuel r tail ps memory data s :
  live s → segments s = (header_of r ++ tail) :: ps → servable r → fuel ≠ O →
  Z.of_nat (length data) = buff_size → Z.of_nat (length (header_of r ++ tail)) <= buff_size →
  Z.of_nat (length tail) ≠ buff_size →
  ∃ p data' s', HttpSession.recv_loop buff_size fuel data (HttpRequestParser.make memory) 0 s
      = (Ret (Some (data', p, Z.of_nat (length tail))), s')
    ∧ arrives r (HttpRequestParser.m_data p) ∧ take (length tail) data' = tail
    ∧ live s' ∧ segments s' = ps ∧ written s' = written s.
Proof.
  intros Hs Hseg [Hw [Hsort _]] Hf Hdata Hlen Htail. destruct fuel as [|fuel]; [done|].
  set (x := header_of r ++ tail) in *.
  assert (0 < Z.of_nat (length x)) as Hx.
  { unfold x. rewrite length_app. assert (header_of r ≠ []); [|destruct (header_of r); [done|simpl; lia]].
    unfold header_of, request_text. by destruct (rq_method _). }
  cbn [HttpSession.recv_loop]. rewrite Z.sub_0_r, u64_small by lia.
  destruct (read_segment x ps buff_size s) as (s1 & E & Hs1 & Hseg1 & Hw1); [done|done|by destruct x|lia|].
  st_run exact E. cbn [fst snd]. rewrite (proj2 (Z.leb_gt _ _)) by lia.
  st_run (apply lift_Ret, store_ok; lia). rewrite Z.add_0_r, (swrap_small 32)
    by (lia || (unfold fits_s; simpl; lia)).
  change (Z.to_nat 0) with 0%nat. rewrite u64_small, Nat2Z.id by lia.
  assert (overwrite data 0 x = x ++ drop (length x) data) as -> by done.
  destruct (execute_header r tail (drop (length x) data) memory) as (p & Ex & Hfin & Herr & Harr);
    [done|done|fold x; lia|]. fold x in Ex.
  st_run (apply lift_Ret, Ex). cbv beta iota zeta. rewrite Herr.
  assert (Z.of_nat (length x) - Z.of_nat (length (header_of r)) = Z.of_nat (length tail)) as ->
    by (unfold x; rewrite length_app; lia).
  assert (Z.of_nat (length tail) <= Z.of_nat (length x)) by (unfold x; rewrite length_app; lia).
  rewrite u64_small, (swrap_small 32), (swrap_small 32) by (lia || (unfold fits_s; simpl; lia)).
  rewrite (proj2 (Z.eqb_neq _ _)), Hfin by done. cbn [negb Z.eqb].
  exists p, (overwrite (x ++ drop (length x) data) 0 tail), s1. split; [done|]. split; [done|].
  split; [apply (take_app_length tail)|done].
Qed.

Lemma request_text_length r :
  HttpRequest.toString r = header_of r ++ HttpRequest.m_body r → 0 < Z.of_nat (length (header_of r)).
Proof.
  intros _. assert (header_of r ≠ []); [|destruct (header_of r); [done|simpl; lia]].
  unfold header_of, request_text. by destruct (rq_method _).
Qed.

Lemma init_body q v : HttpRequest.init (HttpRequest.setBody v q) = HttpRequest.setBody v (HttpRequest.init q).
Proof.
  unfold HttpRequest.init, HttpRequest.getHeader. cbn [HttpRequest.m_headers HttpRequest.setBody].
  by case_bool_decide.
Qed.

Lemma init_same q :
  HttpRequest.m_method (HttpRequest.init q) = HttpRequest.m_method q
  ∧ HttpRequest.m_version (HttpRequest.init q) = HttpRequest.m_version q
  ∧ HttpRequest.m_path (HttpRequest.init q) = HttpRequest.m_path q
  ∧ HttpRequest.m_query (HttpRequest.init q) = HttpRequest.m_query q
  ∧ HttpRequest.m_fragment (HttpRequest.init q) = HttpRequest.m_fragment q
  ∧ HttpRequest.m_body (HttpRequest.init q) = HttpRequest.m_body q
  ∧ HttpRequest.m_headers (HttpRequest.init q) = HttpRequest.m_headers q.
Proof. unfold HttpRequest.init. by case_bool_decide. Qed.

(** A request that arrives in one piece is received as it was sent. *)
Lemma recvRequest_ok fuel r ps fresh s :
  live s → segments s = HttpRequest.toString r :: ps → servable r → fuel ≠ O →
  Z.of_nat (length fresh.2) = buff_size → Z.of_nat (length (HttpRequest.toString r)) <= buff_size →
  buff_size <= string_max_size →
  ∃ q s', HttpSession.recvRequest buff_size lexical_cast fuel fresh s = (Ret (Some q), s')
    ∧ received_as r q ∧ live s' ∧ segments s' = ps ∧ written s' = written s.
Proof.
  intros Hs Hseg Hr Hf Hfresh Hlen Hmax. pose proof (toString_wire r (proj1 Hr)) as Et.
  fold (header_of r) in Et. pose proof (request_text_length r Et) as Hh.
  set (body := HttpRequest.m_body r) in *. set (n := Z.of_nat (length body)) in *.
  assert (Z.of_nat (length (HttpRequest.toString r)) = Z.of_nat (length (header_of r)) + n) as Hn
    by (rewrite Et, length_app; lia).
  destruct (recv_loop_header fuel r body ps fresh.1 fresh.2 s) as (p & data & s1 & E & Harr & Hd & Hs1 & Hseg1 & Hw1);
    try done; [by rewrite <- Et|by rewrite <- Et|lia|].
  unfold HttpSession.recvRequest. st_run exact E. cbv beta iota zeta. fold n.
  assert (s64 (HttpRequestParser.getContentLength lexical_cast p) = n) as Hc
    by (apply content_length; [done|done|fold body; lia]).
  unfold HttpSession.recv_body. rewrite Hc.
  assert (received_as r (HttpRequest.init
    (if 0 <? n then HttpRequest.setBody body (HttpRequestParser.m_data p) else HttpRequestParser.m_data p))) as Hok.
  { destruct Harr as (A1 & A2 & A3 & A4 & A5 & Ab & A6 & A7).
    destruct (init_same (HttpRequestParser.m_data p)) as (B1 & B2 & B3 & B4 & B5 & B6 & B7).
    assert (body = if 0 <? n then body else HttpRequest.m_body (HttpRequest.init (HttpRequestParser.m_data p))) as Hb.
    { destruct (Z.ltb_spec 0 n); [done|]. rewrite B6, Ab. apply nil_length_inv. lia. }
    unfold received_as. fold body. rewrite Hb. destruct (0 <? n); rewrite ?init_body;
    cbn [HttpRequest.setBody HttpRequest.m_method HttpRequest.m_version HttpRequest.m_path
      HttpRequest.m_query HttpRequest.m_fragment HttpRequest.m_body HttpRequest.m_close HttpRequest.m_headers];
      by rewrite B1, B2, B3, B4, B5, B7. }
  eexists _, s1. split; [|split; [exact Hok|done]].
  destruct (Z.ltb_spec 0 n) as [Hpos|Hpos]; [|by st_run reflexivity].
  rewrite (proj2 (Z.ltb_ge _ _)), (proj2 (Z.leb_le _ _)) by lia. cbv beta iota zeta.
  rewrite Z.sub_diag. change (0 <? 0) with false. cbv iota. st_run reflexivity.
  do 4 f_equal.
  unfold n. rewrite Nat2Z.id, Hd. unfold overwrite. rewrite drop_ge, app_nil_r; [done|].
  rewrite length_replicate. simpl. lia.
Qed.

(** Part of the body is missing in the piece that ends the header, and comes in the next: it is
    stored behind the end of the body. *)
Lemma recvRequest_split fuel r b1 b2 ps fresh s :
  live s → segments s = (header_of r ++ b1) :: b2 :: ps → servable r → fuel ≠ O →
  HttpRequest.m_body r = b1 ++ b2 → b2 ≠ [] →
  Z.of_nat (length fresh.2) = buff_size → Z.of_nat (length (HttpRequest.toString r)) <= buff_size →
  buff_size <= string_max_size →
  ∃ s', HttpSession.recvRequest buff_size lexical_cast fuel fresh s = (Undef, s').
Proof.
  intros Hs Hseg Hr Hf Hb Hb2 Hfresh Hlen Hmax. pose proof (toString_wire r (proj1 Hr)) as Et.
  fold (header_of r) in Et. pose proof (request_text_length r Et) as Hh.
  rewrite Et, Hb, !length_app in Hlen.
  assert (0 < Z.of_nat (length b2)) by (destruct b2; [done|simpl; lia]).
  destruct (recv_loop_header fuel r b1 (b2 :: ps) fresh.1 fresh.2 s) as (p & data & s1 & E & Harr & Hd & Hs1 & Hseg1 & Hw1);
    try done; [rewrite length_app; lia|lia|].
  unfold HttpSession.recvRequest. st_run exact E. cbv beta iota zeta.
  assert (s64 (HttpRequestParser.getContentLength lexical_cast p) = Z.of_nat (length (b1 ++ b2))) as Hc
    by (rewrite <- Hb; apply content_length; [done|done|rewrite Hb, length_app; lia]).
  unfold HttpSession.recv_body. rewrite Hc, length_app.
  rewrite (proj2 (Z.ltb_lt _ _)), (proj2 (Z.ltb_ge _ _)), (proj2 (Z.leb_le _ _)) by lia.
  cbv beta iota zeta. rewrite (proj2 (Z.ltb_lt _ _)) by lia.
  set (body := overwrite _ _ _). assert (length body = length b1 + length b2)%nat as Hbody.
  { unfold body. rewrite length_overwrite; rewrite ?length_replicate, ?length_take; lia. }
  destruct (read_segment b2 ps (Z.of_nat (length b2)) s1) as (s2 & E2 & _); [done|done|done|lia|].
  exists s2. unfold Stream.readFixSize. unfold mbind at 1, st_bind at 1. unfold mbind at 1, st_bind at 1.
  unfold mbind at 1, st_bind at 1.
  replace (Z.of_nat (length b1 + length b2) - Z.of_nat (length b1)) with (Z.of_nat (length b2)) by lia.
  rewrite swrap_small by (lia || (unfold fits_s; simpl; lia)).
  cbn [Stream.readFixSize_loop]. rewrite (proj2 (Z.ltb_lt _ _)) by lia.
  st_run exact E2. cbn [fst snd]. rewrite (proj2 (Z.leb_gt _ _)) by lia.
  unfold mbind at 1, st_bind at 1, lift at 1. rewrite store_beyond; [done|].
  rewrite Hbody, Z.add_0_r, swrap_small by (lia || (unfold fits_s; simpl; lia)). lia.
Qed.

(** At the end of the stream the session is closed. *)
Lemma recvRequest_end fuel fresh s :
  live s → segments s = [] → fuel ≠ O →
  ∃ s', HttpSession.recvRequest buff_size lexical_cast fuel fresh s = (Ret None, s')
    ∧ segments s' = [] ∧ written s' = written s.
Proof.
  intros Hs Hseg Hf. destruct fuel as [|fuel]; [done|]. unfold HttpSession.recvRequest.
  destruct (read_end buff_size s) as (k & s1 & E & Hk & Hs1 & Hseg1 & Hw1); [done|done|lia|].
  destruct (close_keeps s1) as (s2 & E2 & Hseg2 & Hw2).
  exists s2. split; [|split; congruence].
  st_run (cbn [HttpSession.recv_loop]; rewrite Z.sub_0_r, u64_small by lia; st_run exact E; cbn [fst snd];
    rewrite (proj2 (Z.leb_le _ _)) by done; st_run exact E2; reflexivity). done.
Qed.

Section server.
Context {Cb Ty : Type} (fnmatch : list byte → list byte → bool).
Context (callback : Cb → HttpRequest.t → HttpResponse.t → Z * HttpResponse.t).
Context (other : Ty → HttpRequest.t → HttpResponse.t → Z * HttpResponse.t).
Implicit Types (v : HttpServer.t (Cb:=Cb) (Ty:=Ty)).
Let answer v q : list byte := HttpResponse.toString (HttpServer.respond fnmatch callback other v q).

(** The requests that are answered: up to the first after which either side closes. *)
Fixpoint served (keepalive : bool) (rs : list HttpRequest.t) : list HttpRequest.t :=
  match rs with
  | [] => []
  | r :: rs => r :: if keepalive && negb (HttpRequest.m_close r) then served keepalive rs else []
  end.

Lemma handle_loop_ok v rs : ∀ fresh fuel s,
  live s → segments s = HttpRequest.toString <$> rs → (Datatypes.S (length rs) < fuel)%nat →
  Forall servable rs →
  Forall (fun r => Z.of_nat (length (HttpRequest.toString r)) <= buff_size) rs →
  (∀ i, Z.of_nat (length (fresh i).2) = buff_size) → buff_size <= string_max_size →
  (∀ r q, r ∈ rs → received_as r q → Z.of_nat (length (answer v q)) < 2 ^ 31) →
  ∃ qs s', HttpServer.handle_loop fnmatch callback other buff_size lexical_cast v fresh fuel s = (Ret tt, s')
    ∧ Forall2 received_as (served (HttpServer.m_isKeepAlive v) rs) qs
    ∧ written s' = written s ++ concat (answer v <$> qs)
    ∧ segments s' = HttpRequest.toString <$> drop (length qs) rs.
Proof.
  induction rs as [|r rs IH]; intros fresh fuel s Hs Hseg Hfuel Hok Hlen Hfresh Hmax Hans;
    (destruct fuel as [|fuel]; [simpl in Hfuel; lia|]); cbn [HttpServer.handle_loop length] in *.
  - destruct (recvRequest_end fuel (fresh 0%nat) s) as (s' & E & Hseg' & Hw'); [done|done|lia|].
    exists [], s'. st_run exact E. rewrite app_nil_r. split; [done|]. split; [constructor|done].
  - apply Forall_cons in Hok as [Hr Hok]. apply Forall_cons in Hlen as [Hlr Hlen].
    destruct (recvRequest_ok fuel r (HttpRequest.toString <$> rs) (fresh 0%nat) s)
      as (q & s1 & E & Hq & Hs1 & Hseg1 & Hw1); try done; [lia|].
    st_run exact E. cbv beta iota.
    destruct (sendResponse_ok (HttpServer.respond fnmatch callback other v q) s1) as (s2 & E2 & Hs2 & Hw2 & Hseg2);
      [done|by apply (Hans r); [apply list_elem_of_here|]|].
    st_run exact E2. assert (HttpRequest.m_close q = HttpRequest.m_close r) as Hclose by apply Hq.
    rewrite Hclose. cbn [served].
    destruct (HttpServer.m_isKeepAlive v) eqn:Hka, (HttpRequest.m_close r) eqn:Hcl; cbn [negb orb andb].
    2:{ destruct (IH (fun i => fresh (Datatypes.S i)) fuel s2) as (qs & s' & E' & Hqs & Hw' & Hseg'); try done.
        - by rewrite Hseg2.
        - lia.
        - intros r' q' Hin. apply Hans. by apply list_elem_of_further.
        - exists (q :: qs), s'. rewrite E'. split; [done|]. split; [apply Forall2_cons; by split|].
          split; [|done]. rewrite Hw', Hw2, Hw1. cbn. by rewrite <- app_assoc. }
    all: exists [q], s2; split; [done|]; split; [apply Forall2_cons; split; [exact Hq|by apply Forall2_nil]|];
      rewrite Hw2, Hw1, Hseg2, Hseg1; cbn; rewrite app_nil_r; (split; [done|by rewrite drop_0]).
Qed.

(** C8. A connection from its first byte to its last: whatever requests the client sends, each in
    one piece and none before the answer to the one before, the server hands every request to its
    servlet with method, version, target, header fields and body as they were sent, and writes
    exactly the answers, in the order of the requests, whatever pieces they are sent in; it goes
    on as long as both sides keep the connection, and [handleClient] returns. *)
Theorem serves_connection v rs fresh fuel s :
  live s → segments s = HttpRequest.toString <$> rs → (Datatypes.S (length rs) < fuel)%nat →
  Forall servable rs →
  Forall (fun r => Z.of_nat (length (HttpRequest.toString r)) <= buff_size) rs →
  (∀ i, Z.of_nat (length (fresh i).2) = buff_size) → buff_size <= string_max_size →
  (∀ r q, r ∈ rs → received_as r q → Z.of_nat (length (answer v q)) < 2 ^ 31) →
  ∃ qs s', HttpServer.handleClient fnmatch callback other buff_size lexical_cast v fresh fuel s = (Ret tt, s')
    ∧ Forall2 received_as (served (HttpServer.m_isKeepAlive v) rs) qs
    ∧ written s' = written s ++ concat (answer v <$> qs)
    ∧ segments s' = HttpRequest.toString <$> drop (length qs) rs.
Proof.
  intros. destruct (handle_loop_ok v rs fresh fuel s) as (qs & s1 & E & Hqs & Hw & Hseg); try done.
  destruct (close_keeps s1) as (s' & E' & Hseg' & Hw').
  exists qs, s'. unfold HttpServer.handleClient. st_run exact E. rewrite E', Hw', Hseg'. done.
Qed.
End server.

(** A request whose body does not arrive with its header is not received: the session reads
    the rest of the body to the address behind the body's last byte. *)
Theorem split_body_overruns fuel r b1 b2 ps fresh s :
  live s → segments s = (header_of r ++ b1) :: b2 :: ps → servable r → fuel ≠ O →
  HttpRequest.m_body r = b1 ++ b2 → b2 ≠ [] →
  Z.of_nat (length fresh.2) = buff_size → Z.of_nat (length (HttpRequest.toString r)) <= buff_size →
  buff_size <= string_max_size →
  ∃ s', HttpSession.recvRequest buff_size lexical_cast fuel fresh s = (Undef, s').
Proof. apply recvRequest_split. Qed.
End session.
