(* ===== verification/HttpConnectionProps.v ===== *)
(** * What an HTTP client's connection does

    For every connection whose peer sends in pieces as [SegmentStream] says: a response with an
    announced length is received as it was sent; a chunked one never is. And whatever the socket
    layer does, the requests of the static functions are never sent. *)

From S2P Require Import Prelude Endian CString StdOrdered Http HttpSpec Http11Spec HttpParser HttpParserProps Address Uri.
From S2P Require Import Ragel ClientMachine HttpClientParser HttpResponseParser HttpClientSpec HttpClientProps HttpClientRead HttpResponseProps.
From S2P Require Import Buffer BufferFacts FdManager Socket Stream StreamProps HttpConnection HttpSessionProps.
Import HttpClientParser HttpConnection.

(** The object that the header part of [r] makes. *)
Definition received_head (r : response) : HttpResponse.t := response_of r (HttpResponse.make 17 true).

Lemma received_head_body r : HttpResponse.m_body (received_head r) = [].
Proof. unfold received_head, response_of. by rewrite set_response_fields_rest. Qed.

Section client.
Context {S : Type} `{SegmentStream S} `{Heap}.
Context (buff_size : Z) (lexical_cast : list byte → option Z).
Hypothesis Hbuff : 0 < buff_size < 2 ^ 31.
Implicit Types (s : S) (r : response).

Lemma store_terminated_ok (data x : list byte) :
  (length x < length data)%nat →
  store_terminated data 0 x (Z.of_nat (length x)) = Ret (x ++ x00 :: drop (Datatypes.S (length x)) data).
Proof.
  intros Hx. unfold store_terminated. rewrite store_ok, bind_Ret by lia. change (Z.to_nat 0) with 0%nat.
  assert (overwrite data 0 x = x ++ drop (length x) data) as -> by done.
  rewrite store_ok, Nat2Z.id.
  - f_equal. unfold overwrite. rewrite take_app_length, drop_app_ge, drop_drop by lia.
    simpl. do 3 f_equal. lia.
  - lia.
  - rewrite length_app, length_drop. simpl. lia.
Qed.

Lemma int_sum_ok a b : - 2 ^ 31 <= a + b < 2 ^ 31 → int_sum a b = Ret (a + b).
Proof.
  intros Hab. unfold int_sum. by rewrite (proj2 (Z.leb_le _ _)), (proj2 (Z.ltb_lt _ _)) by lia.
Qed.

(** The header part of a response and some of what follows it arrive in one piece. *)
Lemma recv_loop_head fuel r tail ps memory data s :
  live s → segments s = (response_text r ++ tail) :: ps → response_ok r → ¬ special (response_text r) →
  fuel ≠ O → Z.of_nat (length data) = buff_size + 1 →
  Z.of_nat (length (response_text r ++ tail)) <= buff_size →
  ∃ p data' s', recv_loop buff_size fuel data (HttpResponseParser.make memory) 0 s
      = (Ret (Some (data', p, Z.of_nat (length tail))), s')
    ∧ HttpResponseParser.m_data p = received_head r ∧ take (length tail) data' = tail
    ∧ (chunked (HttpResponseParser.m_parser p) ≠ 0 ↔ chunked_head (response_text r))
    ∧ chunks_done (HttpResponseParser.m_parser p) = 0
    ∧ live s' ∧ segments s' = ps ∧ written s' = written s.
Proof.
  intros Hs Hseg Hok Hsp Hf Hdata Hlen. destruct fuel as [|fuel]; [done|].
  set (x := response_text r ++ tail) in *.
  assert (0 < Z.of_nat (length (response_text r))) as Hr by (simpl; lia).
  assert (Z.of_nat (length x) = Z.of_nat (length (response_text r)) + Z.of_nat (length tail)) as Hx
    by (unfold x; rewrite length_app; lia).
  cbn [recv_loop]. rewrite Z.sub_0_r, u64_small by lia.
  destruct (read_segment x ps buff_size s) as (s1 & E & Hs1 & Hseg1 & Hw1); [done|done|by intros Ex; rewrite Ex in Hx; simpl in Hx; lia|lia|].
  st_run exact E. cbn [fst snd]. rewrite (proj2 (Z.leb_gt _ _)) by lia.
  st_run (apply lift_Ret, int_sum_ok; lia). rewrite Z.add_0_r.
  st_run (apply lift_Ret, store_terminated_ok; lia).
  rewrite u64_small, Nat2Z.id by lia.
  destruct (execute_response r tail (drop (Datatypes.S (length x)) data) memory)
    as (p & Ex & Hd & Herr & Hfin & _ & Hch & Hdone); [done|fold x; lia|]. fold x in Ex.
  st_run (apply lift_Ret, Ex). cbv beta iota zeta. rewrite Herr.
  assert (Z.of_nat (length x) - Z.of_nat (length (response_text r)) = Z.of_nat (length tail)) as -> by lia.
  rewrite u64_small, (swrap_small 32), (swrap_small 32) by (lia || (unfold fits_s; simpl; lia)).
  rewrite (proj2 (Z.eqb_neq _ _)), (proj2 Hfin Hsp) by (done || lia). cbn [negb Z.eqb].
  eexists p, _, s1. split; [done|]. split; [done|]. split; [apply (take_app_length tail)|done].
Qed.

(** The pieces that follow fill the rest of a block of memory. *)
Lemma readFixSize_segments bs : ∀ fuel memory at_ offset ps s,
  live s → segments s = bs ++ ps → Forall (λ b, b ≠ []) bs → (length bs < fuel)%nat →
  0 <= at_ → 0 <= offset → Z.of_nat (length (concat bs)) < 2 ^ 31 →
  at_ + offset + Z.of_nat (length (concat bs)) <= Z.of_nat (length memory) →
  ∃ s', Stream.readFixSize_loop fuel memory at_ offset (Z.of_nat (length (concat bs))) s
      = (Ret (None, overwrite memory (Z.to_nat (at_ + offset)) (concat bs)), s')
    ∧ live s' ∧ segments s' = ps ∧ written s' = written s.
Proof.
  induction bs as [|b bs IH]; intros fuel memory at_ offset ps s Hs Hseg Hne Hf Ha Ho Hn Hfit;
    (destruct fuel as [|fuel]; [simpl in Hf; lia|]); cbn [Stream.readFixSize_loop].
  - exists s. cbn [concat]. rewrite overwrite_nil. done.
  - apply Forall_cons in Hne as [Hb Hne]. cbn [concat length] in *. rewrite length_app in *.
    assert (0 < Z.of_nat (length b)) by (destruct b; [done|simpl; lia]).
    rewrite (proj2 (Z.ltb_lt _ _)) by lia.
    destruct (read_segment b (bs ++ ps) (Z.of_nat (length b + length (concat bs))) s)
      as (s1 & E & Hs1 & Hseg1 & Hw1); [done|done|done|lia|].
    st_run exact E. cbn [fst snd]. rewrite (proj2 (Z.leb_gt _ _)) by lia.
    st_run (apply lift_Ret, store_ok; lia).
    replace (Z.of_nat (length b + length (concat bs)) - Z.of_nat (length b))
      with (Z.of_nat (length (concat bs))) by lia.
    destruct (IH fuel (overwrite memory (Z.to_nat (at_ + offset)) b) at_ (offset + Z.of_nat (length b)) ps s1)
      as (s' & E' & Hs' & Hseg' & Hw'); try done; try lia.
    { rewrite length_overwrite by lia. lia. }
    exists s'. rewrite E'. split; [|split; [done|split; [done|congruence]]]. do 3 f_equal.
    rewrite <- (overwrite_split memory) by lia. f_equal. lia.
Qed.

Lemma recv_body_ok parser offset data b1 bs ps body s :
  live s → segments s = bs ++ ps → Forall (λ b, b ≠ []) bs → body = b1 ++ concat bs →
  HttpResponseParser.getContentLength lexical_cast parser = Z.of_nat (length body) →
  Z.of_nat (length body) < 2 ^ 31 → Z.of_nat (length body) <= string_max_size →
  take (length b1) data = b1 → offset = Z.of_nat (length b1) →
  ∃ s', recv_body lexical_cast data parser offset s = (Ret (Some body), s')
    ∧ live s' ∧ segments s' = ps ∧ written s' = written s.
Proof.
  intros Hs Hseg Hne Hbody Hc Hn Hmax Hd ->. unfold recv_body.
  rewrite Hc, (swrap_small 64) by (lia || (unfold fits_s; simpl; lia)).
  assert (length body = length b1 + length (concat bs))%nat as Hl by (by rewrite Hbody, length_app).
  destruct (Z.ltb_spec 0 (Z.of_nat (length body))) as [Hpos|Hz].
  - rewrite (proj2 (Z.ltb_ge _ _)), (proj2 (Z.leb_le _ _)) by lia. rewrite !Nat2Z.id, Hd.
    assert (overwrite (replicate (length body) x00) 0 b1 = b1 ++ replicate (length (concat bs)) x00) as ->.
    { unfold overwrite. simpl. by rewrite drop_replicate, Hl, Nat.add_comm, Nat.add_sub. }
    destruct (Z.ltb_spec 0 (Z.of_nat (length body) - Z.of_nat (length b1))) as [Hrest|Hrest].
    + replace (Z.of_nat (length body) - Z.of_nat (length b1)) with (Z.of_nat (length (concat bs))) by lia.
      assert (length bs <= length (concat bs))%nat as Hcount.
      { clear -Hne. induction Hne as [|b bs Hb Hne IH]; [done|]. simpl. rewrite length_app.
        destruct b; [done|simpl; lia]. }
      destruct (readFixSize_segments bs (Datatypes.S (length (concat bs)))
        (b1 ++ replicate (length (concat bs)) x00) (Z.of_nat (length b1)) 0 ps s)
        as (s' & E & Hs' & Hseg' & Hw'); try done; try lia.
      { rewrite length_app, length_replicate. lia. }
      exists s'. split; [|done]. unfold Stream.readFixSize.
      rewrite (swrap_small 64), (swrap_small 32), Nat2Z.id by (lia || (unfold fits_s; simpl; lia)).
      st_run (st_run exact E; reflexivity). cbn [fst snd default].
      rewrite (proj2 (Z.leb_gt _ _)) by lia. unfold mret, st_ret. do 3 f_equal.
      rewrite Z.add_0_r, Nat2Z.id. unfold overwrite.
      by rewrite take_app_length, drop_ge, app_nil_r by (rewrite length_app, length_replicate; lia).
    + assert (concat bs = []) as Hcs by (apply nil_length_inv; lia).
      assert (bs = []) as -> by (destruct bs as [|[|] ?]; [done| |done]; by apply Forall_cons in Hne as [? _]).
      exists s. split; [|done]. rewrite Hbody. simpl. done.
  - assert (body = []) as -> by (apply nil_length_inv; lia). symmetry in Hbody.
    apply app_nil in Hbody as [-> Hcs].
    assert (bs = []) as -> by (destruct bs as [|[|] ?]; [done| |done]; by apply Forall_cons in Hne as [? _]).
    by exists s.
Qed.

Lemma recvResponse_ok fuel r b1 bs ps body fresh s :
  live s → segments s = (response_text r ++ b1) :: bs ++ ps → response_ok r →
  ¬ special (response_text r) → ¬ chunked_head (response_text r) →
  body = b1 ++ concat bs → Forall (λ b, b ≠ []) bs →
  getAs lexical_cast (HttpResponse.m_headers (received_head r)) (lit "content-length") 0
    = Z.of_nat (length body) →
  Z.of_nat (length body) < 2 ^ 31 → Z.of_nat (length body) <= string_max_size → fuel ≠ O →
  Z.of_nat (length fresh.2) = buff_size + 1 → Z.of_nat (length (response_text r ++ b1)) <= buff_size →
  ∃ s', recvResponse buff_size lexical_cast fuel fresh s
      = (Ret (Some (HttpResponse.setBody body (received_head r))), s')
    ∧ live s' ∧ segments s' = ps ∧ written s' = written s.
Proof.
  intros Hs Hseg Hok Hsp Hch Hbody Hne Hc Hn Hmax Hf Hfresh Hlen.
  destruct (recv_loop_head fuel r b1 (bs ++ ps) fresh.1 fresh.2 s)
    as (p & data & s1 & E & Hd & Ht & Hchunk & _ & Hs1 & Hseg1 & Hw1); try done.
  destruct (recv_body_ok p (Z.of_nat (length b1)) data b1 bs ps body s1)
    as (s' & E' & Hs' & Hseg' & Hw'); try done.
  { unfold HttpResponseParser.getContentLength. by rewrite Hd. }
  exists s'. split; [|split; [done|split; [done|congruence]]].
  unfold recvResponse. st_run exact E. cbv beta iota zeta.
  assert (chunked (HttpResponseParser.m_parser p) = 0) as ->.
  { destruct (decide (chunked (HttpResponseParser.m_parser p) = 0)); [done|]. exfalso. by apply Hch, Hchunk. }
  change (negb (0 =? 0)) with false. cbv iota. st_run (st_run exact E'; reflexivity). cbn [option_map].
  rewrite Hd. case_bool_decide as Hb; [|done]. rewrite Hb.
  pose proof (received_head_body r) as Hrb. unfold mret, st_ret. do 2 f_equal.
  destruct (received_head r). cbn in *. by subst.
Qed.

(** ** Chunks *)

Lemma chunk_loop_never fuel : ∀ cp data parser body len s x s',
  chunks_done cp = 0 → chunk_loop buff_size fuel cp data parser body len s ≠ (Ret (Some x), s').
Proof.
  induction fuel as [|fuel IH]; intros cp data parser body len s x s' Hcp E; cbn [chunk_loop] in E.
  - done.
  - apply st_bind_inv in E as (h & s1 & _ & E). destruct h as [[[data1 parser1] len1]|]; [|done].
    apply st_bind_inv in E as (c & s2 & _ & E). destruct c as [[[data2 body2] len2]|]; [|done].
    rewrite Hcp in E. change (0 =? 0) with true in E. cbv iota in E. by apply IH in E.
Qed.
End client.

(** C15. A response is received as it was sent: for every response without chunks whose last field is
    not an empty special one, with the header part and perhaps some of the body in one piece and
    the rest in any pieces, and whatever follows on the connection, [recvResponse] returns the
    object with version, status, reason and fields as sent and with the body of the announced
    length, reads exactly these pieces, writes nothing, and leaves the connection open. *)
Theorem receives_response {S : Type} `{SegmentStream S} `{Heap} (buff_size : Z)
    (lexical_cast : list byte → option Z) fuel r b1 bs ps body fresh (s : S) :
  0 < buff_size < 2 ^ 31 →
  live s → segments s = (response_text r ++ b1) :: bs ++ ps → response_ok r →
  ¬ special (response_text r) → ¬ chunked_head (response_text r) →
  body = b1 ++ concat bs → Forall (λ b, b ≠ []) bs →
  getAs lexical_cast (HttpResponse.m_headers (received_head r)) (lit "content-length") 0
    = Z.of_nat (length body) →
  Z.of_nat (length body) < 2 ^ 31 → Z.of_nat (length body) <= string_max_size → fuel ≠ O →
  Z.of_nat (length fresh.2) = buff_size + 1 → Z.of_nat (length (response_text r ++ b1)) <= buff_size →
  ∃ s', recvResponse buff_size lexical_cast fuel fresh s
      = (Ret (Some (HttpResponse.setBody body (received_head r))), s')
    ∧ live s' ∧ segments s' = ps ∧ written s' = written s.
Proof. intros Hbuff. by apply recvResponse_ok. Qed.

(** A chunked response is never received: [recvResponse] asks a copy of the parser, made at the
    end of the header, whether the last chunk has come, and this copy never says so. Whatever
    chunks the peer sends in whatever pieces, there is no response in the end. *)
Theorem chunked_response_lost {S : Type} `{SegmentStream S} `{Heap} (buff_size : Z)
    (lexical_cast : list byte → option Z) fuel r tail ps fresh (s : S) :
  0 < buff_size < 2 ^ 31 →
  live s → segments s = (response_text r ++ tail) :: ps → response_ok r →
  ¬ special (response_text r) → chunked_head (response_text r) →
  Z.of_nat (length fresh.2) = buff_size + 1 → Z.of_nat (length (response_text r ++ tail)) <= buff_size →
  ∀ rsp s', recvResponse buff_size lexical_cast fuel fresh s ≠ (Ret (Some rsp), s').
Proof.
  intros Hbuff Hs Hseg Hok Hsp Hch Hfresh Hlen rsp s' E. unfold recvResponse in E.
  destruct fuel as [|fuel]; [done|].
  destruct (recv_loop_head buff_size Hbuff (Datatypes.S fuel) r tail ps fresh.1 fresh.2 s)
    as (p & data & s1 & Eh & _ & _ & Hchunk & Hdone & _); try done.
  apply st_bind_inv in E as (h & s2 & E1 & E). rewrite Eh in E1. simplify_eq. cbv beta iota zeta in E.
  rewrite (proj2 (Z.eqb_neq _ 0)) in E by (by apply Hchunk). cbn [negb] in E.
  apply st_bind_inv in E as (c & s3 & E2 & E). destruct c as [c|]; [|done].
  by apply chunk_loop_never in E2.
Qed.

(** ** Requests of the static functions *)

Lemma request_nonempty req : HttpRequest.toString req ≠ [].
Proof. unfold HttpRequest.toString. intros E. apply app_nil in E as [_ E]. by destruct (HttpRequest.m_path req). Qed.

Section static.
Context {W : Type} `{Sys W} `{Heap}.
Context (buff_size : Z) (lexical_cast : list byte → option Z).
Context (getaddrinfo : list byte → option (list byte) → Z → Z → Z →
    option (list (option (list byte) * Z))).
Context (errno : W → Z) (strerror : Z → list byte).

(** Writing to a stream that is not connected fails at once. *)
Lemma sendRequest_unconnected req (c : SocketStream.t) (w : W) :
  SocketStream.isConnected c = false → Z.of_nat (length (HttpRequest.toString req)) < 2 ^ 63 →
  sendRequest (S:=SocketStream.t * W) req (c, w) = (Ret (-1), (c, w)).
Proof.
  intros Hc Hlen. unfold sendRequest, Stream.writeFixSize. cbv zeta.
  assert (0 < Z.of_nat (length (HttpRequest.toString req))) as Hpos.
  { pose proof (request_nonempty req). destruct (HttpRequest.toString req); [done|simpl; lia]. }
  rewrite (swrap_small 64) by (lia || (unfold fits_s; simpl; lia)).
  cbn [Stream.writeFixSize_loop]. rewrite (proj2 (Z.ltb_lt _ _)) by lia.
  st_run (st_run (unfold stream_write; cbn; unfold SocketStream.write, get, mbind, st_bind; cbn [fst];
    rewrite Hc; reflexivity); reflexivity).
  done.
Qed.

Lemma exchange_unconnected fuel fresh addr req timeout_ms sock (w : W) :
  Socket.m_isConnected sock = false → Socket.m_sock sock = -1 →
  Z.of_nat (length (HttpRequest.toString req)) < 2 ^ 63 →
  let w' := (sys_setsockopt (-1) SOL_SOCKET SO_RCVTIMEO (Socket.timeval_of (s64 timeout_ms)) w).2 in
  with_stream (SocketStream.make (Some sock) true)
    (exchange buff_size lexical_cast errno strerror fuel fresh addr req timeout_ms) w
  = (Ret (HttpResult.make HttpResult.SEND_SOCKET_ERROR None (send_error errno strerror w')), w').
Proof.
  intros Hc Hm Hlen w'. unfold with_stream, exchange.
  assert (SocketStream.on_socket (Socket.setRecvTimeout (s64 timeout_ms)) (SocketStream.make (Some sock) true, w)
    = (Ret tt, (SocketStream.make (Some sock) true, w'))) as E1.
  { unfold SocketStream.on_socket, Socket.setRecvTimeout, Socket.setOption, Socket.obj, Socket.call, gets, w'.
    unfold mbind, st_bind. cbn. rewrite Hm. by destruct (sys_setsockopt _ _ _ _ _). }
  unfold mbind at 1, st_bind at 1. rewrite E1. cbv beta iota.
  unfold mbind at 1, st_bind at 1. rewrite sendRequest_unconnected by done. cbv beta iota.
  change (-1 =? 0) with false. change (-1 <? 0) with true. cbv iota.
  unfold mbind at 1, st_bind at 1, get. cbv beta iota. unfold mret, st_ret.
  unfold SocketStream.destroy, SocketStream.close, SocketStream.on_socket, Socket.close, Socket.obj, gets, get.
  unfold mbind, st_bind, mret, st_ret. cbn. by rewrite Hc, Hm.
Qed.

(** The static functions never send anything: they make a socket for the address of the URL and
    write to it without connecting it. For every URL that [Uri::Create] reads and whose host is
    resolved, [DoRequest] returns [SEND_SOCKET_ERROR] and no response, whatever the socket layer
    would do; all it does there is to set the timeout of the descriptor -1. *)
Theorem DoRequest_never_sends fuel fresh method url timeout_ms headers body uri addr (w : W) :
  Uri.Create url = Ret (Some uri) → Uri.createAddress getaddrinfo uri = Ret (Some addr) →
  Z.of_nat (length (HttpRequest.toString (uri_request method uri headers body))) < 2 ^ 63 →
  let w' := (sys_setsockopt (-1) SOL_SOCKET SO_RCVTIMEO (Socket.timeval_of (s64 timeout_ms)) w).2 in
  DoRequest buff_size lexical_cast getaddrinfo errno strerror fuel fresh method url timeout_ms headers body w
  = (Ret (HttpResult.make HttpResult.SEND_SOCKET_ERROR None (send_error errno strerror w')), w').
Proof.
  intros Hu Ha Hlen w'. unfold DoRequest. st_run (by apply lift_Ret). cbv beta iota.
  unfold DoRequest_uri, DoRequest_req. cbv zeta. st_run (by apply lift_Ret). cbv beta iota.
  by apply exchange_unconnected.
Qed.
End static.
