(* ===== verification/HttpSessionWitness.v ===== *)
(** * Sessions over the concrete socket layer

    [SegmentStream] is met by a socket stream over a [wire]; the theorems on the HTTP server are
    applied to two requests of a client. *)

From S2P Require Import Prelude Endian CString StdOrdered StringUtil Http HttpSpec HttpProps.
From S2P Require Import Http11Parser Http11Spec Http11Props HttpParser HttpParserProps Servlet.
From S2P Require Import Buffer BufferFacts FdManager Socket Stream StreamProps Wire HttpSession HttpSessionProps.

#[local] Instance zero_heap : Heap := { uninit := fun _ _ => x00; string_max_size := 2 ^ 62 }.

(** The socket is connected and the peer takes what it is sent. *)
Definition wire_live (s : SocketStream.t * wire) : Prop :=
  SocketStream.isConnected s.1 = true ∧ 0 < quota s.2.

Lemma wire_live_socket s :
  wire_live s → ∃ o own w, s = (SocketStream.mk (Some o) own, w) ∧ Socket.isConnected o = true ∧ 0 < quota w.
Proof. destruct s as [[[o|] own] w]; intros [Hc Hq]; [|done]. by exists o, own, w. Qed.

Lemma wire_read s n k l w' :
  wire_live s → sys_recv (W:=wire) 0 n 0 s.2 = ((k, l), w') → fits_s 32 k →
  SocketStream.read n s = (Ret (k, l), (s.1, w')).
Proof.
  intros (o & own & w & -> & Hc & _)%wire_live_socket E Hk. cbn [fst snd] in *.
  unfold SocketStream.read. st_run reflexivity. cbn [fst].
  change (SocketStream.isConnected _) with (Socket.isConnected o). rewrite Hc. cbn [negb].
  unfold Socket.recv. rewrite on_connected, (on_call _ _ _ _ _ _ _ E) by done.
  cbn [fst snd]. by rewrite swrap_small by (lia || done).
Qed.

#[export] Program Instance wire_segments : SegmentStream (SocketStream.t * wire) := {
  live := wire_live;
  segments s := pieces s.2;
  written s := sent s.2;
}.
Next Obligation.
  intros p ps n s Hs Hseg Hp Hn. cbn beta in *. destruct (wire_live_socket s Hs) as (o & own & w & -> & Hc & Hq).
  cbn [snd] in *. exists (SocketStream.mk (Some o) own, mk_wire ps (quota w) (sent w) (fds w) (opened w)).
  split; [|by split; [split|]]. apply wire_read; [done| |unfold fits_s; simpl; lia].
  cbn. unfold wire_recv. rewrite Hseg, (proj2 (Z.leb_le _ _)) by lia. done.
Qed.
Next Obligation.
  intros p ps n s Hs Hseg Hn Hn2. cbn beta in *. destruct (wire_live_socket s Hs) as (o & own & w & -> & Hc & Hq).
  cbn [snd] in *. exists (SocketStream.mk (Some o) own,
    mk_wire (drop (Z.to_nat n) p :: ps) (quota w) (sent w) (fds w) (opened w)).
  split; [|by split; [split|]]. apply wire_read; [done| |unfold fits_s; simpl; lia].
  cbn. unfold wire_recv. rewrite Hseg, (proj2 (Z.leb_gt _ _)) by lia. done.
Qed.
Next Obligation.
  intros n s Hs Hseg Hn. cbn beta in *. exists 0, s. split; [|done].
  destruct s as [x w]. cbn [snd] in *. apply (wire_read (x, w)); [done| |done].
  cbn. unfold wire_recv. by rewrite Hseg.
Qed.
Next Obligation.
  intros l s Hs Hl. cbn beta in *. destruct (wire_live_socket s Hs) as (o & own & w & -> & Hc & Hq).
  set (k := Z.min (Z.of_nat (length l)) (quota w)).
  exists k, (SocketStream.mk (Some o) own,
    mk_wire (pieces w) (quota w) (sent w ++ take (Z.to_nat k) l) (fds w) (opened w)).
  split; [|split; [lia|by split; [split|]]].
  cbn [stream_write SocketStream.socket_stream]. unfold SocketStream.write. st_run reflexivity. cbn [fst].
  change (SocketStream.isConnected _) with (Socket.isConnected o). rewrite Hc. cbn [negb].
  assert (sys_send (Socket.m_sock o) l 0 w
    = (k, mk_wire (pieces w) (quota w) (sent w ++ take (Z.to_nat k) l) (fds w) (opened w))) as E.
  { cbn. unfold wire_send. fold k. rewrite (proj2 (Z.leb_gt _ _)) by lia. done. }
  unfold Socket.send. rewrite on_connected, (on_call _ _ _ _ _ _ _ E) by done.
  rewrite swrap_small by (lia || (unfold fits_s; simpl; lia)). done.
Qed.
Next Obligation.
  intros [[[[fd fam ty pr con la ra]|] own] w]; [|by eexists].
  cbn [stream_close SocketStream.socket_stream]. unfold SocketStream.close, SocketStream.on_socket, Socket.close.
  unfold mbind, st_bind, get, Socket.obj, gets, Socket.upd, modify, Socket.call, mret, st_ret.
  cbn. destruct con, (fd =? -1); cbn; by eexists.
Qed.

(** ** A server that knows no page, and a client that asks twice *)

Definition numbers (s : list byte) : option Z := Some (dec_value s).
Lemma numbers_ok n : 0 <= n < 2 ^ 64 → numbers (dec n) = Some n.
Proof. intros Hn. unfold numbers. by destruct (dec_ok n (proj1 Hn)) as (_ & -> & _). Qed.

Definition plain_server : HttpServer.t (Cb:=Empty_set) (Ty:=Empty_set) := HttpServer.make true.
Definition no_callback (f : Empty_set) (q : HttpRequest.t) (p : HttpResponse.t) : Z * HttpResponse.t := (0, p).
Definition asks : list HttpRequest.t := [HttpRequest.setClose false sample_request; sample_request].
Definition fresh_memory (i : nat) : http_parser * list byte := (blank_parser, replicate (Z.to_nat 4096) x00).

Lemma plain_answer r q :
  r ∈ asks → received_as r q →
  Z.of_nat (length (HttpResponse.toString
    (HttpServer.respond (fun _ _ => false) no_callback no_callback plain_server q))) < 2 ^ 31.
Proof.
  intros Hr (_ & Hv & _ & _ & _ & _ & Hc & _).
  unfold HttpServer.respond, ServletDispatch.handle, ServletDispatch.getMatchedServlet.
  change (ServletDispatch.m_datas _) with (∅ : gmap (list byte) (ServletCreator Empty_set Empty_set)).
  rewrite lookup_empty, Hv, Hc.
  apply elem_of_cons in Hr as [->|Hr%list_elem_of_singleton]; [by vm_compute|subst; by vm_compute].
Qed.

Lemma asks_servable : Forall servable asks.
Proof.
  assert (servable sample_request) as H.
  { split; [|split; [apply map_assign_sorted; [apply _|constructor]|by vm_compute]].
    split; [discriminate|]. split; [discriminate|]. split; [by right|].
    split; [by vm_compute|]. split; [by vm_compute|]. split; [by vm_compute|]. by vm_compute. }
  by repeat apply Forall_cons_2.
Qed.

Lemma serves_connection_witness :
  ∃ qs s', HttpServer.handleClient (fun _ _ => false) no_callback no_callback 4096 numbers plain_server
      fresh_memory 5 (stream_of (HttpRequest.toString <$> asks) 100) = (Ret tt, s')
    ∧ Forall2 received_as asks qs ∧ pieces s'.2 = HttpRequest.toString <$> drop (length qs) asks.
Proof.
  destruct (serves_connection 4096 numbers ltac:(lia) numbers_ok (fun _ _ => false) no_callback no_callback
    plain_server asks fresh_memory 5 (stream_of (HttpRequest.toString <$> asks) 100))
    as (qs & s' & E & Hqs & _ & Hseg).
  - by split.
  - done.
  - cbn. lia.
  - apply asks_servable.
  - repeat (apply Forall_cons_2; [by vm_compute|]). by apply Forall_nil_2.
  - intros i. by vm_compute.
  - by vm_compute.
  - apply plain_answer.
  - exists qs, s'. split; [exact E|]. split; [exact Hqs|exact Hseg].
Defined.

Lemma split_body_overruns_witness :
  ∃ s', HttpSession.recvRequest 4096 numbers 3 (fresh_memory 0)
      (stream_of [header_of sample_request ++ lit "q=s"; lit "econd"] 100) = (Undef, s').
Proof.
  apply (split_body_overruns 4096 numbers ltac:(lia) numbers_ok 3 sample_request (lit "q=s") (lit "econd") []).
  - by split.
  - done.
  - apply (Forall_forall servable asks); [apply asks_servable|]. by apply list_elem_of_further, list_elem_of_here.
  - done.
  - by vm_compute.
  - done.
  - by vm_compute.
  - by vm_compute.
  - by vm_compute.
Defined.
