(* ===== verification/HttpConnectionWitness.v ===== *)
(** * HTTP clients over the concrete socket layer

    The theorems on clients at a connection of [Wire], and a run that receives a chunked response. *)

From S2P Require Import Prelude Endian CString StdOrdered Http HttpSpec Http11Spec Address Uri.
From S2P Require Import Ragel ClientMachine HttpClientParser HttpResponseParser HttpClientSpec HttpClientProps HttpClientRead HttpResponseProps.
From S2P Require Import Buffer FdManager Socket Stream Wire HttpConnection HttpPool HttpPoolProps HttpSessionProps HttpSessionWitness HttpConnectionProps.
Import HttpClientParser HttpConnection.

#[local] Instance client_heap : Heap := { uninit := fun _ _ => x00; string_max_size := 2 ^ 62 }.

Lemma not_special w : other_final (after httpclient_parser_start w) = false → ¬ special w.
Proof. intros E H%special_spec. congruence. Qed.
Lemma not_chunked w : flagged_final 1 (flagged_after httpclient_parser_start w) = false → ¬ chunked_head w.
Proof. intros E H%chunked_head_spec. congruence. Qed.

Definition client_memory : HttpClientParser.httpclient_parser * list byte :=
  (blank_client, replicate (Z.to_nat 513) x2a).
Definition told_response : response :=
  mk_response x31 200 (lit "OK")
    [mk_header (lit "Content-Length") [x20] (lit "5"); mk_header (lit "Server") [x20] (lit "other")].

Lemma receives_response_witness :
  ∃ s', recvResponse 512 numbers 1 client_memory
          (stream_of [response_text told_response ++ lit "he"; lit "ll"; lit "o"; lit "next"] 9)
        = (Ret (Some (HttpResponse.setBody (lit "hello") (received_head told_response))), s')
    ∧ segments s' = [lit "next"].
Proof.
  destruct (receives_response 512 numbers 1 told_response (lit "he") [lit "ll"; lit "o"] [lit "next"] (lit "hello")
    client_memory (stream_of [response_text told_response ++ lit "he"; lit "ll"; lit "o"; lit "next"] 9))
    as (s' & E & _ & Hseg & _).
  - lia.
  - by split.
  - done.
  - unfold response_ok. split; [done|]. split; [done|]. split; [done|]. by vm_compute.
  - apply not_special. by vm_compute.
  - apply not_chunked. by vm_compute.
  - done.
  - by repeat constructor.
  - by vm_compute.
  - by vm_compute.
  - by vm_compute.
  - done.
  - by vm_compute.
  - by vm_compute.
  - exists s'. split; [exact E|exact Hseg].
Defined.

Definition chunked_response : response :=
  mk_response x31 200 (lit "OK") [mk_header (lit "Transfer-Encoding") [x20] (lit "chunked")].
Definition chunks : list byte := lit "5" ++ crlf ++ lit "hello" ++ crlf ++ lit "0" ++ crlf ++ crlf.

Lemma chunked_response_lost_witness :
  ∀ rsp s', recvResponse 512 numbers 9 client_memory (stream_of [response_text chunked_response; chunks] 9)
            ≠ (Ret (Some rsp), s').
Proof.
  apply (chunked_response_lost 512 numbers 9 chunked_response [] [chunks] client_memory
    (stream_of [response_text chunked_response; chunks] 9)).
  - lia.
  - by split.
  - by rewrite app_nil_r.
  - unfold response_ok. split; [done|]. split; [done|]. split; [done|]. by vm_compute.
  - apply not_special. by vm_compute.
  - apply chunked_head_spec. by vm_compute.
  - by vm_compute.
  - by vm_compute.
Defined.

(** The stale length is -1, which is no length of a string. *)
Lemma chunked_run_throws :
  (recvResponse 512 numbers 9 client_memory (stream_of [response_text chunked_response; chunks] 9)).1
  = Throw length_error.
Proof. vm_compute. reflexivity. Qed.

(** ** A name that is resolved *)

(** Every name is 127.0.0.1. *)
Definition loopback_memory : list byte := [x02; x00; x00; x00; x7f; x00; x00; x01] ++ replicate 8 x00.
Definition resolve (node : list byte) (service : option (list byte)) (family type protocol : Z)
    : option (list (option (list byte) * Z)) := Some [(Some loopback_memory, 16)].
Definition no_errno (w : wire) : Z := 9.
Definition strerror_text (e : Z) : list byte := lit "Bad file descriptor".

Lemma DoRequest_never_sends_witness :
  ∃ r, DoRequest 512 numbers resolve no_errno strerror_text 1 client_memory HttpMethod.GET
         (lit "http://localhost:8020/index?x=1") 1000 [(lit "connection", lit "keep-alive")] (lit "body")
         (wire_of [lit "HTTP/1.1 200 OK"] 9)
       = (Ret r, wire_of [lit "HTTP/1.1 200 OK"] 9)
    ∧ HttpResult.result r = 5 ∧ HttpResult.response r = None.
Proof.
  pose proof (DoRequest_never_sends 512 numbers resolve no_errno strerror_text 1 client_memory HttpMethod.GET
    (lit "http://localhost:8020/index?x=1") 1000 [(lit "connection", lit "keep-alive")] (lit "body")) as H.
  eexists. split.
  - eapply H; [vm_compute; reflexivity|vm_compute; reflexivity|by vm_compute].
  - by split.
Defined.

(** ** A pool of at most one connection *)

Import HttpConnectionPool.

Definition small_pool : t := make (lit "localhost") [] 80 1 5000 100.
Definition clock : Z := 1700000000000.
Definition taken_at (p : t) (w : wire) : outcome (option conn) * (t * wire) :=
  getConnection resolve clock (p, w).
Definition pool_of (r : outcome (option conn) * (t * wire)) : t := r.2.1.
Definition conn_of (r : outcome (option conn) * (t * wire)) : conn :=
  match r.1 with Ret (Some c) => c | _ => mk_conn (SocketStream.make None false) 0 0 end.

Definition take1 := taken_at small_pool (wire_of [] 9).
Definition take2 := taken_at (pool_of take1) (wire_of [] 9).
Definition give1 := ReleasePtr clock (mk_conn (stream (conn_of take1)) 0 0) (pool_of take2, wire_of [] 9).

Lemma after_take1 : reachable resolve small_pool (pool_of take1, [conn_of take1]).
Proof.
  eapply by_step; [apply at_first|]. apply (take_step resolve small_pool (wire_of [] 9) [] clock _ _ take1.2.2).
  vm_compute. reflexivity.
Qed.
Lemma after_take2 : reachable resolve small_pool (pool_of take2, [conn_of take2; conn_of take1]).
Proof.
  eapply by_step; [apply after_take1|].
  apply (take_step resolve (pool_of take1) (wire_of [] 9) [conn_of take1] clock _ _ take2.2.2).
  vm_compute. reflexivity.
Qed.
Lemma after_give1 : reachable resolve small_pool (give1.2.1, [conn_of take2]).
Proof.
  eapply by_step; [apply after_take2|].
  apply (give_step resolve (pool_of take2) (wire_of [] 9) [conn_of take2] (conn_of take1) [] clock
    (stream (conn_of take1)) _ give1.2.2).
  vm_compute. reflexivity.
Qed.

(** [m_maxSize] is 1, and two connections are open. *)
Lemma pool_accounts_witness :
  m_maxSize (pool_of take2) = 1 ∧ m_total (pool_of take2) = 2
  ∧ m_total (pool_of take2)
    = s32 (Z.of_nat (length (m_conns (pool_of take2)) + length [conn_of take2; conn_of take1])).
Proof.
  split; [done|]. split; [by vm_compute|].
  apply (pool_accounts resolve (lit "localhost") [] 80 1 5000 100 (pool_of take2, [conn_of take2; conn_of take1]));
    [done|apply after_take2].
Defined.

Lemma pool_reuses_witness :
  ∃ c, getConnection resolve (clock + 86400000) (give1.2.1, wire_of [] 9)
       = (Ret (Some c), (set_conns [] give1.2.1, wire_of [] 9)) ∧ m_request c = 1.
Proof.
  exists (counted (conn_of take1)). split; [|by vm_compute].
  apply (pool_reuses resolve (lit "localhost") [] 80 1 5000 100 (give1.2.1, [conn_of take2])
    (counted (conn_of take1)) []); [done|done|by vm_compute|apply after_give1|by vm_compute].
Defined.
