(* ===== verification/Exchange.v ===== *)
(** * A client and a server

    The two ends of a connection together: what [HttpConnection] sends is what the peer of
    [HttpServer] receives, and the other way round. The two streams are any of [SegmentStream];
    the network hands over what was written in one piece. *)

From S2P Require Import Prelude Endian CString StdOrdered Http HttpSpec HttpProps Http11Parser Http11Spec HttpParser HttpParserProps Servlet.
From S2P Require Import Address Uri Ragel ClientMachine HttpClientParser HttpResponseParser HttpClientSpec HttpClientProps HttpClientRead HttpResponseProps.
From S2P Require Import Buffer BufferFacts FdManager Socket Stream StreamProps Wire HttpSession HttpSessionProps HttpSessionWitness.
From S2P Require Import HttpConnection HttpConnectionProps HttpConnectionWitness.
Import HttpClientParser.

(** What was written between two states of a stream. *)
Definition transmitted {S : Type} `{SegmentStream S} (s s' : S) : list byte :=
  drop (length (written s)) (written s').

Lemma transmitted_app {S : Type} `{SegmentStream S} (s s' : S) l :
  written s' = written s ++ l → transmitted s s' = l.
Proof. intros E. unfold transmitted. by rewrite E, drop_app_length. Qed.

Section client.
Context {C : Type} `{SegmentStream C} `{Heap}.
Implicit Types (c : C) (r : HttpRequest.t) (a : HttpResponse.t).

Lemma sendRequest_ok r c :
  live c → Z.of_nat (length (HttpRequest.toString r)) < 2 ^ 31 →
  ∃ c', HttpConnection.sendRequest r c = (Ret (Z.of_nat (length (HttpRequest.toString r))), c')
    ∧ live c' ∧ written c' = written c ++ HttpRequest.toString r ∧ segments c' = segments c.
Proof.
  intros Hc Hn. unfold HttpConnection.sendRequest, Stream.writeFixSize. cbv zeta.
  set (l := HttpRequest.toString r) in *. set (n := Z.of_nat (length l)) in *.
  rewrite (swrap_small 64), (swrap_small 32) by (lia || (unfold fits_s; simpl; lia)).
  destruct (writeFixSize_all (Datatypes.S (Z.to_nat n)) l 0 n c) as (c' & E & H'); try lia; [done|].
  st_run exact E. exists c'. rewrite drop_0 in H'. done.
Qed.

Context (buff_size : Z) (lexical_cast : list byte → option Z).
Hypothesis Hbuff : 0 < buff_size < 2 ^ 31.

(** A response of [HttpServer] without a body arrives. *)
Lemma recvResponse_empty fuel a fresh c :
  live c → segments c = [HttpResponse.toString a] → wire_response a →
  map_sorted CaseInsensitiveLess (HttpResponse.m_headers a) →
  find_key (HttpResponse.m_headers a) (lit "content-length") = None →
  ¬ chunked_head (HttpResponse.toString a) → HttpResponse.m_body a = [] → fuel ≠ O →
  Z.of_nat (length fresh.2) = buff_size + 1 → Z.of_nat (length (HttpResponse.toString a)) <= buff_size →
  0 <= string_max_size →
  ∃ p c', HttpConnection.recvResponse buff_size lexical_cast fuel fresh c = (Ret (Some p), c')
    ∧ response_arrives a p.
Proof.
  intros Hc Hseg Hw Hs Hn Hch Hb Hf Hfresh Hlen Hmax.
  pose proof (dump_wire a Hw) as Hd. rewrite Hb, bool_decide_eq_true_2 in Hd by done.
  rewrite <- response_text_head in Hd. rewrite Hd in Hseg, Hch, Hlen.
  pose proof (wire_of_ok a Hw) as Hok. pose proof (wire_arrives a Hw Hs) as Harr.
  assert (¬ special (response_text (HttpResponseProps.wire_of a))) as Hsp.
  { destruct (execute_response (HttpResponseProps.wire_of a) [] [] fresh.1 Hok) as (p' & _ & _ & _ & Hfin & Hlast & _).
    - rewrite app_nil_r. lia.
    - apply Hfin, Hlast. unfold last_value, HttpResponseProps.wire_of. cbn [rs_headers]. rewrite app_assoc, last_snoc.
      cbn [h_value connection_header]. by destruct (HttpResponse.m_close a). }
  destruct (recvResponse_ok buff_size lexical_cast Hbuff fuel (HttpResponseProps.wire_of a) [] [] [] [] fresh c)
    as (c' & E & _); try done.
  - by rewrite app_nil_r.
  - destruct Harr as (_ & _ & _ & _ & Hk). unfold getAs, received_head. rewrite Hk. unfold arriving_field.
    change (same_name (lit "content-length") (lit "connection")) with false.
    change (same_name (lit "content-length") (lit "Set-Cookie")) with false. cbv iota. rewrite Hn.
    by destruct (last _).
  - by rewrite app_nil_r.
  - exists (HttpResponse.setBody [] (received_head (HttpResponseProps.wire_of a))), c'. split; [exact E|].
    pose proof (received_head_body (HttpResponseProps.wire_of a)) as Hrb. unfold received_head in *.
    destruct (response_of (HttpResponseProps.wire_of a) (HttpResponse.make 17 true)). cbn in Hrb. by subst.
Qed.

(** One with a body does not: the parser refuses the line that announces it. *)
Lemma recvResponse_body fuel a fresh c :
  live c → segments c = [HttpResponse.toString a] → wire_response a →
  HttpResponse.m_body a ≠ [] → fuel ≠ O →
  Z.of_nat (length fresh.2) = buff_size + 1 → Z.of_nat (length (HttpResponse.toString a)) <= buff_size →
  ∃ c', HttpConnection.recvResponse buff_size lexical_cast fuel fresh c = (Ret None, c').
Proof.
  intros Hc Hseg Hw Hb Hf Hfresh Hlen. destruct fuel as [|fuel]; [done|].
  set (x := HttpResponse.toString a) in *.
  assert (0 < Z.of_nat (length x)).
  { unfold x, HttpResponse.toString. rewrite length_app. change (length (lit "HTTP/")) with 5%nat. lia. }
  assert (x ≠ []) as Hx by (intros Ex; rewrite Ex in *; done).
  destruct (read_segment x [] buff_size c) as (c1 & E & Hc1 & _); [done..|lia|].
  destruct (dump_refused a (drop (Datatypes.S (length x)) fresh.2) fresh.1 Hw Hb)
    as (n & buffer & p & Ex & _ & _ & Herr); [fold x; lia|]. fold x in Ex.
  destruct (close_keeps c1) as (c2 & E2 & _).
  exists c2. unfold HttpConnection.recvResponse.
  assert (HttpConnection.recv_loop buff_size (Datatypes.S fuel) fresh.2 (HttpResponseParser.make fresh.1) 0 c
    = (Ret None, c2)) as El; [|by st_run exact El].
  cbn [HttpConnection.recv_loop]. rewrite Z.sub_0_r, u64_small by lia.
  st_run exact E. cbn [fst snd]. rewrite (proj2 (Z.leb_gt _ _)) by lia.
  st_run (apply lift_Ret, int_sum_ok; lia). rewrite Z.add_0_r.
  st_run (apply lift_Ret, store_terminated_ok; lia). rewrite u64_small, Nat2Z.id by lia.
  st_run (apply lift_Ret, Ex). cbv beta iota zeta. rewrite Herr. by st_run exact E2.
Qed.
End client.

Section exchange.
Context {C : Type} `{HC : SegmentStream C} {S : Type} `{HS : SegmentStream S} `{Heap}.
(** The configured sizes of the two processes, and [boost::lexical_cast<uint64_t>]. *)
Context (client_size server_size : Z) (lexical_cast : list byte → option Z).
Hypothesis Hclient : 0 < client_size < 2 ^ 31.
Hypothesis Hserver : 0 < server_size < 2 ^ 31.
Hypothesis Hcast : ∀ n, 0 <= n < 2 ^ 64 → lexical_cast (dec n) = Some n.
Context {Cb Ty : Type} (fnmatch : list byte → list byte → bool).
Context (callback : Cb → HttpRequest.t → HttpResponse.t → Z * HttpResponse.t).
Context (other : Ty → HttpRequest.t → HttpResponse.t → Z * HttpResponse.t).
Context (v : HttpServer.t (Cb:=Cb) (Ty:=Ty)).

Let answer (q : HttpRequest.t) : HttpResponse.t := HttpServer.respond fnmatch callback other v q.

(** An answer that can be sent and that says nothing of a body of its own accord. *)
Definition plain_answer (a : HttpResponse.t) : Prop :=
  wire_response a ∧ map_sorted CaseInsensitiveLess (HttpResponse.m_headers a)
  ∧ find_key (HttpResponse.m_headers a) (lit "content-length") = None
  ∧ ¬ chunked_head (HttpResponse.toString a)
  ∧ Z.of_nat (length (HttpResponse.toString a)) <= client_size.

(** C7. A request and its answer, from end to end: what a client sends, the server hands to its servlet
    with method, version, target, fields and body as they were sent, and what the servlet answers,
    the client receives with version, status, reason and every field, provided the answer has no
    body; an answer with a body is never received, since the framework's own client refuses the
    line by which its server announces the length. Both ends return. *)
Theorem exchange r (c c2 : C) (s : S) fuel fresh_c fresh_s :
  live c → live s → live c2 → servable r →
  Z.of_nat (length (HttpRequest.toString r)) <= server_size → server_size <= string_max_size →
  Z.of_nat (length fresh_c.2) = client_size + 1 → (∀ i, Z.of_nat (length (fresh_s i).2) = server_size) →
  (2 < fuel)%nat → (∀ q, received_as r q → plain_answer (answer q)) →
  ∃ n c1, HttpConnection.sendRequest r c = (Ret n, c1) ∧ 0 < n
    ∧ (segments s = [transmitted c c1] →
       ∃ q s', HttpServer.handleClient fnmatch callback other server_size lexical_cast v fresh_s fuel s = (Ret tt, s')
         ∧ received_as r q
         ∧ (segments c2 = [transmitted s s'] →
            ∃ p c3, HttpConnection.recvResponse client_size lexical_cast fuel fresh_c c2 = (Ret p, c3)
              ∧ match p with
                | Some p => HttpResponse.m_body (answer q) = [] ∧ response_arrives (answer q) p
                | None => HttpResponse.m_body (answer q) ≠ []
                end)).
Proof.
  intros Hc Hs Hc2 Hr Hlen Hmax Hfc Hfs Hfuel Hans.
  destruct (sendRequest_ok r c Hc) as (c1 & E1 & _ & Hw1 & _); [lia|].
  exists (Z.of_nat (length (HttpRequest.toString r))), c1. split; [exact E1|].
  pose proof (toString_wire r (proj1 Hr)) as Et. fold (header_of r) in Et. split.
  { pose proof (request_text_length r Et). rewrite Et, length_app. lia. }
  rewrite (transmitted_app c c1 _ Hw1). intros Hseg.
  destruct (handle_loop_ok server_size lexical_cast Hserver Hcast fnmatch callback other v [r] fresh_s fuel s)
    as (qs & s1 & E2 & Hqs & Hw2 & _); try done.
  { by apply Forall_singleton. }
  { by apply Forall_singleton. }
  { intros r' q ->%list_elem_of_singleton Hq. destruct (Hans q Hq) as (_ & _ & _ & _ & Hl). unfold answer in Hl. lia. }
  assert (served (HttpServer.m_isKeepAlive v) [r] = [r]) as Esv by (cbn; by destruct (_ && _)).
  rewrite Esv in Hqs. apply Forall2_cons_inv_l in Hqs as (q & qs' & Hq & ->%Forall2_nil_inv_l & ->).
  destruct (close_keeps s1) as (s' & E3 & _ & Hw3).
  exists q, s'. split; [unfold HttpServer.handleClient; by st_run exact E2|]. split; [exact Hq|].
  rewrite (transmitted_app s s' (HttpResponse.toString (answer q))); [|by rewrite Hw3, Hw2; cbn; rewrite app_nil_r].
  intros Hseg2. destruct (Hans q Hq) as (Hw & Hsort & Hnone & Hch & Hl).
  destruct (decide (HttpResponse.m_body (answer q) = [])) as [Hb|Hb].
  - destruct (recvResponse_empty client_size lexical_cast Hclient fuel (answer q) fresh_c c2)
      as (p & c3 & E & Harr); try done; try lia. by exists (Some p), c3.
  - destruct (recvResponse_body client_size lexical_cast Hclient fuel (answer q) fresh_c c2)
      as (c3 & E); try done; try lia. by exists None, c3.
Qed.
End exchange.

(** ** Two requests to a server with one servlet

    The path of the first has a servlet that answers without a body; the other is not found, which
    is told with a body. *)
#[local] Existing Instance client_heap.

Definition quiet (f : unit) (q : HttpRequest.t) (p : HttpResponse.t) : Z * HttpResponse.t :=
  (0, HttpResponse.setHeader (lit "Server") (lit "quiet") (HttpResponse.setStatus 204 p)).
Definition no_class (T : Empty_set) (q : HttpRequest.t) (p : HttpResponse.t) : Z * HttpResponse.t := (0, p).
Definition quiet_server : HttpServer.t (Cb:=unit) (Ty:=Empty_set) :=
  HttpServer.setServletDispatch
    (ServletDispatch.addServlet_cb (HttpRequest.m_path sample_request) tt ServletDispatch.make) (HttpServer.make true).
Definition lost_request : HttpRequest.t := HttpRequest.setPath (lit "/lost") sample_request.

Definition serve (r : HttpRequest.t) : SocketStream.t * wire :=
  (HttpServer.handleClient (fun _ _ => false) quiet no_class 4096 numbers quiet_server fresh_memory 5
    (stream_of [HttpRequest.toString r] 100)).2.
Definition answered (r : HttpRequest.t) : SocketStream.t * wire := stream_of [sent (serve r).2] 70.

Lemma quiet_answer r q :
  r = sample_request ∨ r = lost_request → received_as r q →
  plain_answer 4096 (HttpServer.respond (fun _ _ => false) quiet no_class quiet_server q).
Proof.
  intros Hr (_ & Hv & Hp & _ & _ & _ & Hc & _).
  unfold HttpServer.respond, ServletDispatch.handle, ServletDispatch.getMatchedServlet. rewrite Hv, Hp, Hc.
  assert (∀ a, wire_response a → map_sorted CaseInsensitiveLess (HttpResponse.m_headers a) →
    find_key (HttpResponse.m_headers a) (lit "content-length") = None →
    flagged_final 1 (flagged_after httpclient_parser_start (HttpResponse.toString a)) = false →
    Z.of_nat (length (HttpResponse.toString a)) <= 4096 → plain_answer 4096 a) as Hok.
  { intros a H1 H2 H3 H4 H5. split; [done|]. split; [done|]. split; [done|]. split; [by apply not_chunked|done]. }
  destruct Hr as [-> | ->]; apply Hok; try (by vm_compute).
  - split; [by right|]. split; [done|]. split; [done|]. by vm_compute.
  - apply map_assign_sorted; [apply _|constructor].
  - split; [by right|]. split; [done|]. split; [done|]. by vm_compute.
  - apply map_assign_sorted; [apply _|]. apply map_assign_sorted; [apply _|constructor].
Qed.

Lemma quiet_servable r : r = sample_request ∨ r = lost_request → servable r.
Proof.
  assert (servable sample_request) as H by (apply (proj1 (Forall_forall servable asks) asks_servable); right; left).
  intros [-> | ->]; [done|]. destruct H as ((H1 & H2 & H3 & _ & H4) & Hr). split; [|done].
  split; [done|]. split; [done|]. split; [done|]. by split.
Qed.

Lemma exchange_witness :
  ∃ p c3 c4,
    HttpConnection.recvResponse 4096 numbers 5 (blank_client, replicate (Z.to_nat 4097) x2a) (answered sample_request)
      = (Ret (Some p), c3) ∧ HttpResponse.m_status p = 204
    ∧ find_key (HttpResponse.m_headers p) (lit "server") = Some (lit "quiet")
    ∧ HttpConnection.recvResponse 4096 numbers 5 (blank_client, replicate (Z.to_nat 4097) x2a) (answered lost_request)
      = (Ret None, c4).
Proof.
  assert (∀ r, r = sample_request ∨ r = lost_request → ∃ q p c3, received_as r q
    ∧ HttpConnection.recvResponse 4096 numbers 5 (blank_client, replicate (Z.to_nat 4097) x2a) (answered r) = (Ret p, c3)
    ∧ let a := HttpServer.respond (fun _ _ => false) quiet no_class quiet_server q in
      match p with
      | Some p => HttpResponse.m_body a = [] ∧ response_arrives a p
      | None => HttpResponse.m_body a ≠ []
      end) as H.
  { intros r Hr.
    destruct (exchange 4096 4096 numbers ltac:(lia) ltac:(lia) numbers_ok (fun _ _ => false) quiet no_class quiet_server
      r (stream_of [] 50) (answered r) (stream_of [HttpRequest.toString r] 100) 5
      (blank_client, replicate (Z.to_nat 4097) x2a) fresh_memory) as (n & c1 & E1 & _ & Hx).
    - by split.
    - by split.
    - by split.
    - by apply quiet_servable.
    - destruct Hr as [-> | ->]; by vm_compute.
    - by vm_compute.
    - by vm_compute.
    - intros i. by vm_compute.
    - lia.
    - intros q. by apply quiet_answer.
    - destruct Hx as (q & s' & E2 & Hq & Hy).
      { assert (c1 = (HttpConnection.sendRequest r (stream_of [] 50)).2) as -> by (by rewrite E1).
        destruct Hr as [-> | ->]; by vm_compute. }
      destruct Hy as (p & c3 & E3 & Hp).
      { assert (s' = serve r) as -> by (unfold serve; by rewrite E2). by destruct Hr as [-> | ->]. }
      by exists q, p, c3. }
  destruct (H sample_request) as (q & p & c3 & (_ & Hv & Hpa & _ & _ & _ & Hc & _) & E & Hp); [by left|].
  destruct (H lost_request) as (q' & p' & c4 & (_ & Hv' & Hpa' & _ & _ & _ & Hc' & _) & E' & Hp'); [by right|].
  unfold HttpServer.respond, ServletDispatch.handle, ServletDispatch.getMatchedServlet in Hp, Hp'.
  rewrite Hv, Hpa, Hc in Hp. rewrite Hv', Hpa', Hc' in Hp'.
  destruct p as [p|]; [|by destruct Hp]. destruct p' as [p'|]; [by destruct Hp'|].
  exists p, c3, c4. split; [exact E|]. destruct Hp as (_ & _ & Hs & _ & _ & Hk).
  split; [by rewrite Hs|]. split; [|exact E']. rewrite Hk. by vm_compute.
Defined.
