(* ===== verification/Scheduler.v ===== *)
(** * Fiber and Scheduler (sylar/fiber.h, fiber.cpp, scheduler.h, scheduler.cpp): data and operations

    A fiber is an object of a shared store; a context switch ends one function of the model and
    starts another, so that steps of several threads can be put in any order. What a saved
    [ucontext_t] resumes is recorded in [m_ctx]. Thread-local variables are looked up by thread
    number; addresses returned by [new] are arguments. *)

From S2P Require Import Prelude.

Module Fiber.
Section fiber.
Context {Cb : Type}.

Inductive State := INIT | HOLD | EXEC | TERM | READY | EXCEPT.
#[global] Instance State_eq_dec : EqDecision State.
Proof. solve_decision. Defined.

(** What a context resumes: an entry function, a point inside the fiber's function, or the end
    of [MainFunc] or [CallerMainFunc], after the last switch. Falling off that end with
    [uc_link] null exits the thread. *)
Inductive context := Entry (use_caller : bool) | Suspended | Finished.

Record t := mk {
  m_state : State;
  m_id : Z;
  m_stacksize : Z;
  m_ctx : context;
  m_stack : bool;
  m_cb : option Cb;
}.
Definition set_state (v : State) (f : t) : t := mk v (m_id f) (m_stacksize f) (m_ctx f) (m_stack f) (m_cb f).
Definition set_ctx (v : context) (f : t) : t := mk (m_state f) (m_id f) (m_stacksize f) v (m_stack f) (m_cb f).
Definition set_cb (v : option Cb) (f : t) : t := mk (m_state f) (m_id f) (m_stacksize f) (m_ctx f) (m_stack f) v.

(** The [thread_local] variables of fiber.cpp and scheduler.cpp. *)
Record TLS := mkTLS {
  t_fiber : option Z;
  t_threadFiber : option Z;
  t_scheduler_fiber : option Z;
}.
Definition no_fibers : TLS := mkTLS None None None.

Record world := mkW {
  fibers : gmap Z t;
  s_fiber_id : Z;
  s_fiber_count : Z;
  tls : gmap Z TLS;
}.
Definition set_fibers (v : gmap Z t) (w : world) : world := mkW v (s_fiber_id w) (s_fiber_count w) (tls w).
Definition set_tls (v : gmap Z TLS) (w : world) : world := mkW (fibers w) (s_fiber_id w) (s_fiber_count w) v.
Definition set_count (v : Z) (w : world) : world := mkW (fibers w) (s_fiber_id w) v (tls w).
Definition set_fiber_id (v : Z) (w : world) : world := mkW (fibers w) v (s_fiber_count w) (tls w).

Definition tls_of (tid : Z) (w : world) : TLS := default no_fibers (tls w !! tid).
Definition get (f : Z) : ST world t := fun w => (deref (fibers w !! f), w).
Definition put (f : Z) (o : t) : ST world unit := modify (fun w => set_fibers (<[f := o]> (fibers w)) w).
Definition update (f : Z) (g : t → t) : ST world unit := o ← get f; put f (g o).
Definition set_t_fiber (tid : Z) (v : option Z) : ST world unit :=
  modify (fun w => let l := tls_of tid w in
    set_tls (<[tid := mkTLS v (t_threadFiber l) (t_scheduler_fiber l)]> (tls w)) w).
Definition set_t_threadFiber (tid : Z) (v : option Z) : ST world unit :=
  modify (fun w => let l := tls_of tid w in
    set_tls (<[tid := mkTLS (t_fiber l) v (t_scheduler_fiber l)]> (tls w)) w).
Definition set_t_scheduler_fiber (tid : Z) (v : option Z) : ST world unit :=
  modify (fun w => let l := tls_of tid w in
    set_tls (<[tid := mkTLS (t_fiber l) (t_threadFiber l) v]> (tls w)) w).

(** [GetFiberId()]. *)
Definition GetFiberId (tid : Z) : ST world Z :=
  l ← gets (tls_of tid);
  match t_fiber l with
  | Some f => o ← get f; mret (m_id o)
  | None => mret 0
  end.

(** [SetThis(f)]. *)
Definition SetThis (tid : Z) (f : option Z) : ST world unit := set_t_fiber tid f.

(** [Fiber()]: [m_id] and [m_stacksize] keep what was in memory. *)
Definition new_main (tid addr garbage : Z) : ST world unit :=
  put addr (mk EXEC garbage garbage Suspended false None);;
  SetThis tid (Some addr);;
  modify (fun w => set_count (u64 (s_fiber_count w + 1)) w).

(** [Fiber(cb, stacksize, use_caller)]. *)
Definition new (addr : Z) (cb : option Cb) (stacksize : Z) (use_caller : bool) : ST world unit :=
  modify (fun w => set_fiber_id (u64 (s_fiber_id w + 1)) w);;
  id ← gets s_fiber_id;
  modify (fun w => set_count (u64 (s_fiber_count w + 1)) w);;
  put addr (mk INIT id (u32 (if stacksize =? 0 then 128 * 1024 else stacksize)) (Entry use_caller) true cb).

(** [~Fiber()]: its assertions and effects. *)
Definition may_be_reset (o : t) : bool :=
  match m_state o with TERM | INIT | EXCEPT => true | _ => false end.
Definition delete (tid addr : Z) : ST world unit :=
  modify (fun w => set_count (u64 (s_fiber_count w - 1)) w);;
  o ← get addr;
  if m_stack o then lift (sylar_assert (may_be_reset o))
  else
    lift (sylar_assert (match m_cb o with None => true | Some _ => false end));;
    lift (sylar_assert (bool_decide (m_state o = EXEC)));;
    l ← gets (tls_of tid);
    if bool_decide (t_fiber l = Some addr) then SetThis tid None else mret tt.

(** [reset(cb)]. *)
Definition reset (addr : Z) (cb : option Cb) : ST world unit :=
  o ← get addr;
  lift (sylar_assert (m_stack o));;
  lift (sylar_assert (may_be_reset o));;
  put addr (mk INIT (m_id o) (m_stacksize o) (Entry false) (m_stack o) cb).

(** [swapIn()] up to the switch: what is resumed. *)
Definition swapIn (tid f : Z) : ST world context :=
  SetThis tid (Some f);;
  o ← get f;
  lift (sylar_assert (negb (bool_decide (m_state o = EXEC))));;
  put f (set_state EXEC o);;
  l ← gets (tls_of tid);
  main ← lift (deref (t_scheduler_fiber l));
  update main (set_ctx Suspended);;
  mret (m_ctx o).

(** [swapOut()] up to the switch; [ctx] is where the fiber is left. *)
Definition swapOut (tid f : Z) (ctx : context) : ST world unit :=
  l ← gets (tls_of tid);
  SetThis tid (t_scheduler_fiber l);;
  _ ← lift (deref (t_scheduler_fiber l));
  update f (set_ctx ctx).

(** [call()] and [back()] up to the switch. *)
Definition call (tid f : Z) : ST world context :=
  SetThis tid (Some f);;
  o ← get f;
  put f (set_state EXEC o);;
  l ← gets (tls_of tid);
  main ← lift (deref (t_threadFiber l));
  update main (set_ctx Suspended);;
  mret (m_ctx o).
Definition back (tid f : Z) (ctx : context) : ST world unit :=
  l ← gets (tls_of tid);
  SetThis tid (t_threadFiber l);;
  _ ← lift (deref (t_threadFiber l));
  update f (set_ctx ctx).

(** [GetThis()]; [addr] and [garbage] are used when the thread has no fiber yet. *)
Definition GetThis (tid addr garbage : Z) : ST world Z :=
  l ← gets (tls_of tid);
  match t_fiber l with
  | Some f => mret f
  | None =>
      new_main tid addr garbage;;
      l ← gets (tls_of tid);
      lift (sylar_assert (bool_decide (t_fiber l = Some addr)));;
      set_t_threadFiber tid (Some addr);;
      lift (deref (t_fiber l))
  end.

(** [YieldToReady()] and [YieldToHold()], up to and from the assignment of the state. *)
Definition yield_state (tid : Z) (v : State) (addr garbage : Z) : ST world Z :=
  cur ← GetThis tid addr garbage;
  update cur (set_state v);;
  mret cur.
Definition YieldToReady (tid addr garbage : Z) : ST world unit :=
  cur ← yield_state tid READY addr garbage; swapOut tid cur Suspended.
Definition YieldToHold (tid addr garbage : Z) : ST world unit :=
  cur ← yield_state tid HOLD addr garbage; swapOut tid cur Suspended.

(** [MainFunc()] and [CallerMainFunc()] once [m_cb] has returned or thrown. *)
Definition main_func_state (cur : Z) (threw : bool) : ST world unit :=
  update cur (fun o => if threw then set_state EXCEPT o else set_state TERM (set_cb None o)).
Definition MainFunc_end (tid : Z) (threw : bool) (addr garbage : Z) : ST world unit :=
  cur ← GetThis tid addr garbage;
  main_func_state cur threw;;
  swapOut tid cur Finished.
Definition CallerMainFunc_end (tid : Z) (threw : bool) (addr garbage : Z) : ST world unit :=
  cur ← GetThis tid addr garbage;
  main_func_state cur threw;;
  back tid cur Finished.

Definition TotalFibers (w : world) : Z := s_fiber_count w.
End fiber.
Arguments t : clear implicits.
Arguments world : clear implicits.
End Fiber.

Module Scheduler.
Section scheduler.
Context {Cb : Type}.

(** What [schedule] accepts: [Fiber::ptr] or [Fiber::ptr*], [std::function] or a pointer to one;
    each may be empty. *)
Record FiberAndThread := mkFT {
  fiber : option Z;
  cb : option Cb;
  thread : Z;
}.
Definition empty_task : FiberAndThread := mkFT None None (-1).

Record t := mk {
  m_fibers : list FiberAndThread;
  m_threadIds : list Z;
  m_threadCount : Z;
  m_activeThreadCount : Z;
  m_idleThreadCount : Z;
  m_stopping : bool;
  m_autoStop : bool;
  m_rootThread : Z;
  m_rootFiber : option Z;
  world : Fiber.world Cb;
}.
Definition set_tasks (v : list FiberAndThread) (s : t) : t :=
  mk v (m_threadIds s) (m_threadCount s) (m_activeThreadCount s) (m_idleThreadCount s)
    (m_stopping s) (m_autoStop s) (m_rootThread s) (m_rootFiber s) (world s).
Definition set_active (v : Z) (s : t) : t :=
  mk (m_fibers s) (m_threadIds s) (m_threadCount s) v (m_idleThreadCount s)
    (m_stopping s) (m_autoStop s) (m_rootThread s) (m_rootFiber s) (world s).
Definition set_idle (v : Z) (s : t) : t :=
  mk (m_fibers s) (m_threadIds s) (m_threadCount s) (m_activeThreadCount s) v
    (m_stopping s) (m_autoStop s) (m_rootThread s) (m_rootFiber s) (world s).
Definition set_stopping (v : bool) (s : t) : t :=
  mk (m_fibers s) (m_threadIds s) (m_threadCount s) (m_activeThreadCount s) (m_idleThreadCount s)
    v (m_autoStop s) (m_rootThread s) (m_rootFiber s) (world s).
Definition set_autoStop (v : bool) (s : t) : t :=
  mk (m_fibers s) (m_threadIds s) (m_threadCount s) (m_activeThreadCount s) (m_idleThreadCount s)
    (m_stopping s) v (m_rootThread s) (m_rootFiber s) (world s).
Definition set_world (v : Fiber.world Cb) (s : t) : t :=
  mk (m_fibers s) (m_threadIds s) (m_threadCount s) (m_activeThreadCount s) (m_idleThreadCount s)
    (m_stopping s) (m_autoStop s) (m_rootThread s) (m_rootFiber s) v.

(** Operations on fibers, as operations on the scheduler's state. *)
Definition on_world {A} (m : ST (Fiber.world Cb) A) : ST t A := fun s =>
  let '(r, w) := m (world s) in (r, set_world w s).

(** [Scheduler(threads, use_caller, name)], with the root fiber's address and the calling
    thread's id; the main fiber is created by [Fiber::GetThis()]. *)
Definition make (threads : Z) (use_caller : bool) (has_scheduler : bool) (run : Cb)
    (tid main_addr garbage root_addr : Z) : ST (Fiber.world Cb) t :=
  lift (sylar_assert (0 <? threads));;
  if use_caller then
    _ ← Fiber.GetThis tid main_addr garbage;
    lift (sylar_assert (negb has_scheduler));;
    Fiber.new root_addr (Some run) 0 true;;
    Fiber.set_t_scheduler_fiber tid (Some root_addr);;
    gets (fun w => mk [] [tid] (threads - 1) 0 0 true false tid (Some root_addr) w)
  else gets (fun w => mk [] [] threads 0 0 true false (-1) None w).

(** [start()]: [false] when the scheduler runs already; else the ids of the new threads. *)
Definition start (ids : list Z) (s : t) : bool * t :=
  if negb (m_stopping s) then (false, s)
  else (true, mk (m_fibers s) (m_threadIds s ++ take (Z.to_nat (m_threadCount s)) ids) (m_threadCount s)
          (m_activeThreadCount s) (m_idleThreadCount s) false (m_autoStop s) (m_rootThread s)
          (m_rootFiber s) (world s)).

(** [stopping()]. *)
Definition stopping (s : t) : bool :=
  m_autoStop s && m_stopping s
  && match m_fibers s with [] => true | _ => false end && (m_activeThreadCount s =? 0).

(** [stop()] up to the wait for the threads: whether the root fiber is entered. [is_this]:
    the calling thread's scheduler is this one. *)
Definition stop (tid : Z) (is_this : bool) : ST t bool :=
  modify (set_autoStop true);;
  n ← gets m_threadCount;
  root ← gets m_rootFiber;
  done ← (match root with
          | Some f =>
              o ← on_world (Fiber.get f);
              if (n =? 0) && match Fiber.m_state o with Fiber.TERM | Fiber.INIT => true | _ => false end
              then modify (set_stopping true);; gets stopping
              else mret false
          | None => mret false
          end);
  if (done : bool) then mret false
  else
    r ← gets m_rootThread;
    lift (sylar_assert (if negb (r =? -1) then is_this else negb is_this));;
    modify (set_stopping true);;
    match root with
    | Some f =>
        st ← gets stopping;
        if (st : bool) then mret false else _ ← on_world (Fiber.call tid f); mret true
    | None => mret false
    end.

(** [scheduleNoLock(fc, thread)]: an empty task is not queued. *)
Definition scheduleNoLock (ft : FiberAndThread) : ST t bool :=
  need_tickle ← gets (fun s => match m_fibers s with [] => true | _ => false end);
  (match fiber ft, cb ft with
   | None, None => mret tt
   | _, _ => modify (fun s => set_tasks (m_fibers s ++ [ft]) s)
   end);;
  mret need_tickle.

(** [schedule(fc, thread)], and [schedule(begin, end)]. Neither wakes anybody. *)
Definition schedule (ft : FiberAndThread) : ST t unit := _ ← scheduleNoLock ft; mret tt.
Fixpoint schedule_all (l : list FiberAndThread) : ST t unit :=
  match l with
  | [] => mret tt
  | ft :: l => _ ← scheduleNoLock (mkFT (fiber ft) (cb ft) (-1)); schedule_all l
  end.

(** ** [run()]

    The search under the lock: the task taken, and the list without it. *)
Fixpoint find_task (tid : Z) (w : Fiber.world Cb) (l : list FiberAndThread)
    : outcome (option (FiberAndThread * list FiberAndThread)) :=
  match l with
  | [] => Ret None
  | ft :: l' =>
      let skip := r ← find_task tid w l';
                  Ret (match r with Some (x, rest) => Some (x, ft :: rest) | None => None end) in
      if negb (thread ft =? -1) && negb (thread ft =? tid) then skip
      else
        _ ← sylar_assert (match fiber ft, cb ft with None, None => false | _, _ => true end);
        match fiber ft with
        | Some f =>
            o ← deref (Fiber.fibers w !! f);
            if bool_decide (Fiber.m_state o = Fiber.EXEC) then skip else Ret (Some (ft, l'))
        | None => Ret (Some (ft, l'))
        end
  end.

Definition take_task (tid : Z) : ST t (FiberAndThread * bool) :=
  l ← gets m_fibers;
  w ← gets world;
  r ← lift (find_task tid w l);
  match r with
  | Some (ft, rest) =>
      modify (fun s => set_active (u64 (m_activeThreadCount s + 1)) (set_tasks rest s));; mret (ft, true)
  | None => mret (empty_task, false)
  end.

Definition dec_active : ST t unit := modify (fun s => set_active (u64 (m_activeThreadCount s - 1)) s).

(** Where a thread is in the loop: about to look for a task; with one; inside the fiber it
    switched to; back from it; after the decrement; gone; or taken down by a fiber that ran off
    its end. *)
Inductive pc :=
  | Loop
  | Taken (ft : FiberAndThread) (is_active : bool)
  | InFiber (f : Z) | BackFiber (f : Z) | PostFiber (f : Z)
  | InCb (f : Z) | BackCb (f : Z) | PostCb (f : Z)
  | InIdle | BackIdle
  | Exited | Dead (in_task : bool).

Record worker := mkWorker {
  tid : Z;
  at_pc : pc;
  idle_fiber : Z;
  cb_fiber : option Z;
}.
Definition goto (p : pc) (k : worker) : worker := mkWorker (tid k) p (idle_fiber k) (cb_fiber k).

(** [swapIn] of the scheduler's loop: the thread ends up inside the fiber, or is gone when the
    fiber had ended before. *)
Definition enter (k : worker) (f : Z) (p : pc) : ST t worker :=
  c ← on_world (Fiber.swapIn (tid k) f);
  mret (goto (match c with
              | Fiber.Finished => Dead (match p with InIdle => false | _ => true end)
              | _ => p end) k).

Definition fiber_state (f : Z) : ST t Fiber.State := o ← on_world (Fiber.get f); mret (Fiber.m_state o).
Definition set_fiber_state (f : Z) (v : Fiber.State) : ST t unit := on_world (Fiber.update f (Fiber.set_state v)).

(** One statement group of the loop; [addr] is the address of a new fiber. *)
Definition run_step (addr : Z) (k : worker) : ST t worker :=
  match at_pc k with
  | Loop => r ← take_task (tid k); mret (goto (Taken r.1 r.2) k)
  | Taken ft is_active =>
      go ← (match fiber ft with
            | Some f =>
                s ← fiber_state f;
                mret (negb (bool_decide (s = Fiber.TERM)) || negb (bool_decide (s = Fiber.EXCEPT)))
            | None => mret false
            end);
      if (go : bool) then
        match fiber ft with Some f => enter k f (InFiber f) | None => lift Undef end
      else
        match cb ft with
        | Some g =>
            f ← (match cb_fiber k with
                 | Some f => on_world (Fiber.reset f (Some g));; mret f
                 | None => on_world (Fiber.new addr (Some g) 0 false);; mret addr
                 end);
            enter (mkWorker (tid k) (at_pc k) (idle_fiber k) (Some f)) f (InCb f)
        | None =>
            if is_active then dec_active;; mret (goto Loop k)
            else
              s ← fiber_state (idle_fiber k);
              if bool_decide (s = Fiber.TERM) then mret (goto Exited k)
              else
                modify (fun s => set_idle (u64 (m_idleThreadCount s + 1)) s);;
                enter k (idle_fiber k) InIdle
        end
  | BackFiber f => dec_active;; mret (goto (PostFiber f) k)
  | PostFiber f =>
      s ← fiber_state f;
      (if bool_decide (s = Fiber.READY) then schedule (mkFT (Some f) None (-1))
       else if negb (bool_decide (s = Fiber.TERM)) && negb (bool_decide (s = Fiber.EXCEPT))
       then set_fiber_state f Fiber.HOLD else mret tt);;
      mret (goto Loop k)
  | BackCb f => dec_active;; mret (goto (PostCb f) k)
  | PostCb f =>
      s ← fiber_state f;
      if bool_decide (s = Fiber.READY) then
        schedule (mkFT (Some f) None (-1));; mret (mkWorker (tid k) Loop (idle_fiber k) None)
      else if bool_decide (s = Fiber.EXCEPT) || bool_decide (s = Fiber.TERM) then
        on_world (Fiber.reset f None);; mret (goto Loop k)
      else set_fiber_state f Fiber.HOLD;; mret (mkWorker (tid k) Loop (idle_fiber k) None)
  | BackIdle =>
      modify (fun s => set_idle (u64 (m_idleThreadCount s - 1)) s);;
      s ← fiber_state (idle_fiber k);
      (if negb (bool_decide (s = Fiber.TERM)) && negb (bool_decide (s = Fiber.EXCEPT))
       then set_fiber_state (idle_fiber k) Fiber.HOLD else mret tt);;
      mret (goto Loop k)
  | _ => mret k
  end.

(** The start of [run()], and the fiber a thread is inside. *)
Definition run_start (this : Z) (main_addr garbage idle_addr : Z) (idle : Cb) : ST t worker :=
  r ← gets m_rootThread;
  (if this =? r then mret tt
   else main ← on_world (Fiber.GetThis this main_addr garbage);
        on_world (Fiber.set_t_scheduler_fiber this (Some main)));;
  on_world (Fiber.new idle_addr (Some idle) 0 false);;
  mret (mkWorker this Loop idle_addr None).

(** The base class's [idle()]: what it does next. *)
Definition idle (s : t) : bool := negb (stopping s).

(** [tickle()] of the base class only logs; [hasIdleThreads()]. *)
Definition hasIdleThreads (s : t) : bool := 0 <? m_idleThreadCount s.
End scheduler.
Arguments t : clear implicits.
Arguments FiberAndThread : clear implicits.
Arguments pc : clear implicits.
Arguments worker : clear implicits.
End Scheduler.
