(* ===== verification/SchedulerSpec.v ===== *)
(** * Scheduler: threads in any order

    The system of one scheduler and its threads, each somewhere in [run], as a step relation,
    and the invariant that ties the counters and the task list to where the threads are. *)

From S2P Require Import Prelude Scheduler.
Import Scheduler.

Section system.
Context {Cb : Type}.
Implicit Types (s : t Cb) (k : worker Cb) (ks : list (worker Cb)) (ft : FiberAndThread Cb) (p : pc Cb).

Definition nonempty ft : bool := match fiber ft, cb ft with None, None => false | _, _ => true end.

(** ** Searching the list *)

(** What makes a thread pass a task over. *)
Definition passed_over (tid : Z) (w : Fiber.world Cb) ft : Prop :=
  thread ft ≠ -1 ∧ thread ft ≠ tid
  ∨ ∃ f o, fiber ft = Some f ∧ Fiber.fibers w !! f = Some o ∧ Fiber.m_state o = Fiber.EXEC.
Definition takable (tid : Z) (w : Fiber.world Cb) ft : Prop :=
  (thread ft = -1 ∨ thread ft = tid) ∧ nonempty ft = true
  ∧ ∀ f, fiber ft = Some f → ∃ o, Fiber.fibers w !! f = Some o ∧ Fiber.m_state o ≠ Fiber.EXEC.

Lemma find_task_ok tid w (l : list (FiberAndThread Cb)) :
  Forall (λ ft, nonempty ft = true ∧ ∀ f, fiber ft = Some f → is_Some (Fiber.fibers w !! f)) l →
  (∃ l1 ft l2, find_task tid w l = Ret (Some (ft, l1 ++ l2)) ∧ l = l1 ++ ft :: l2
     ∧ Forall (passed_over tid w) l1 ∧ takable tid w ft)
  ∨ (find_task tid w l = Ret None ∧ Forall (passed_over tid w) l).
Proof.
  induction l as [|ft l IH]; intros Hl; [by right|].
  apply Forall_cons in Hl as [[Hne Hf] Hl]. specialize (IH Hl). cbn [find_task].
  set (skip := (find_task tid w l ≫= _)).
  assert (passed_over tid w ft →
    (∃ l1 ft' l2, skip = Ret (Some (ft', l1 ++ l2)) ∧ ft :: l = l1 ++ ft' :: l2
       ∧ Forall (passed_over tid w) l1 ∧ takable tid w ft')
    ∨ (skip = Ret None ∧ Forall (passed_over tid w) (ft :: l))) as Hskip.
  { intros Hp. unfold skip. destruct IH as [(l1 & ft' & l2 & -> & -> & ? & ?)|[-> ?]].
    - left. exists (ft :: l1), ft', l2. split_and!; [done..|by constructor|done].
    - right. split; [done|by constructor]. }
  destruct (negb (thread ft =? -1) && negb (thread ft =? tid)) eqn:Ht.
  { apply Hskip. left. lia. }
  assert (thread ft = -1 ∨ thread ft = tid) as Htid by lia.
  fold (nonempty ft). rewrite Hne. cbn [sylar_assert]. rewrite bind_Ret.
  destruct (fiber ft) as [f|] eqn:Ef.
  - destruct (Hf f eq_refl) as [o Ho]. rewrite Ho. cbn [deref]. rewrite bind_Ret.
    case_bool_decide as Hx; [apply Hskip; right; eauto|].
    left. exists [], ft, l. split_and!; [done..|]. split_and!; [done..|]. naive_solver.
  - left. exists [], ft, l. split_and!; [done..|]. split_and!; [done..|]. naive_solver.
Qed.

Lemma find_task_split tid w (l : list (FiberAndThread Cb)) ft rest :
  find_task tid w l = Ret (Some (ft, rest)) →
  nonempty ft = true ∧ (thread ft = -1 ∨ thread ft = tid) ∧ l ≡ₚ ft :: rest.
Proof.
  revert rest. induction l as [|x l IH]; intros rest; cbn [find_task]; [done|].
  set (skip := (find_task tid w l ≫= _)).
  assert (skip = Ret (Some (ft, rest)) →
    nonempty ft = true ∧ (thread ft = -1 ∨ thread ft = tid) ∧ x :: l ≡ₚ ft :: rest) as Hskip.
  { unfold skip. destruct (find_task tid w l) as [[[y r]|]| | | |]; try done.
    rewrite bind_Ret. intros. simplify_eq. destruct (IH r eq_refl) as (? & ? & ->).
    split_and!; [done..|]. solve_Permutation. }
  destruct (negb (thread x =? -1) && negb (thread x =? tid)) eqn:Ht; [done|].
  assert (thread x = -1 ∨ thread x = tid) as Htid by lia. fold (nonempty x). destruct (nonempty x) eqn:Hx; [|done].
  cbn [sylar_assert]. rewrite bind_Ret. destruct (fiber x) as [f|]; [|intros; by simplify_eq].
  destruct (Fiber.fibers w !! f); [|done]. cbn [deref]. rewrite bind_Ret.
  case_bool_decide; [done|]. intros. by simplify_eq.
Qed.

(** ** What a thread is doing *)

Definition holding k : list (FiberAndThread Cb) :=
  match at_pc k with Taken ft true => [ft] | _ => [] end.
Definition busy k : Z :=
  match at_pc k with
  | Taken _ true | InFiber _ | BackFiber _ | InCb _ | BackCb _ | Dead true => 1
  | _ => 0
  end.
Definition idling k : Z :=
  match at_pc k with InIdle | BackIdle | Dead false => 1 | _ => 0 end.

(** A thread has a task exactly when it counted itself as active. *)
Definition worker_ok k : Prop :=
  match at_pc k with
  | Taken ft b => nonempty ft = b ∧ (b = true → thread ft = -1 ∨ thread ft = tid k)
  | _ => True
  end.

(** What a task asks for: a fiber to go on, or a callback to run. *)
Inductive job := RunFiber (f : Z) | RunCb (g : Cb).
Definition job_of ft : option job :=
  match fiber ft, cb ft with
  | Some f, _ => Some (RunFiber f)
  | None, Some g => Some (RunCb g)
  | None, None => None
  end.

(** What the thread is seen to execute: its running fiber, when the store says that this fiber
    is in execution; the job is the fiber itself, or the callback the fiber holds when the
    thread runs a callback. A thread that was taken down has switched to its running fiber. *)
Definition current k s : option (Z * Fiber.t Cb) :=
  match Fiber.t_fiber (Fiber.tls_of (tid k) (world s)) with
  | Some f =>
      match Fiber.fibers (world s) !! f with
      | Some o => if bool_decide (Fiber.m_state o = Fiber.EXEC) then Some (f, o) else None
      | None => None
      end
  | None => None
  end.
Definition executes k s : list job :=
  match at_pc k, current k s with
  | InFiber f, Some (f', _) => if bool_decide (f = f') then [RunFiber f] else []
  | Dead true, Some (f, _) => [RunFiber f]
  | InCb f, Some (f', o) =>
      if bool_decide (f = f') then match Fiber.m_cb o with Some g => [RunCb g] | None => [] end else []
  | _, _ => []
  end.

(** The jobs a step of a thread starts: what it executes afterwards, unless it was inside a fiber
    (or gone) before. *)
Definition started k k' s' : list (Z * job) :=
  match at_pc k with
  | InFiber _ | InCb _ | InIdle | Dead _ | Exited => []
  | _ => map (pair (tid k')) (executes k' s')
  end.

(** A task and its start: the job is that of the task, on a thread the task may run on. *)
Definition start_of ft (x : Z * job) : Prop :=
  job_of ft = Some x.2 ∧ (thread ft = -1 ∨ thread ft = x.1).

(** Tasks a step adds to the list, and tasks the thread stops holding. *)
Definition ready s f : list (FiberAndThread Cb) :=
  match Fiber.fibers (world s) !! f with
  | Some o => if bool_decide (Fiber.m_state o = Fiber.READY) then [mkFT (Some f) None (-1)] else []
  | None => []
  end.
Definition submits s k : list (FiberAndThread Cb) :=
  match at_pc k with PostFiber f | PostCb f => ready s f | _ => [] end.
Definition drops k : list (FiberAndThread Cb) := holding k.

Definition view s : list (FiberAndThread Cb) * Z * Z :=
  (m_fibers s, m_activeThreadCount s, m_idleThreadCount s).

Lemma on_world_view {A} (m : ST (Fiber.world Cb) A) s a s' :
  on_world m s = (Ret a, s') → view s' = view s.
Proof. unfold on_world. destruct (m (world s)). intros. by simplify_eq. Qed.

Lemma fiber_state_ok f s x s' :
  fiber_state f s = (Ret x, s') →
  s' = s ∧ ∃ o, Fiber.fibers (world s) !! f = Some o ∧ x = Fiber.m_state o.
Proof.
  unfold fiber_state. intros H. st_inv. revert H0. unfold on_world, Fiber.get.
  destruct (Fiber.fibers (world s) !! f) as [o|] eqn:E; cbn; [|done]. intros. simplify_eq.
  split; [by destruct s|eauto].
Qed.

Lemma enter_ok k f p s k' s' :
  enter k f p s = (Ret k', s') →
  view s' = view s ∧ tid k' = tid k
  ∧ (at_pc k' = p ∨ at_pc k' = Dead (match p with InIdle => false | _ => true end)).
Proof.
  unfold enter. intros H. st_inv. apply on_world_view in H0.
  split; [done|]. split; [done|]. cbn. destruct a; auto.
Qed.

Lemma schedule_ok ft s u s' :
  nonempty ft = true → schedule ft s = (Ret u, s') →
  view s' = (m_fibers s ++ [ft], m_activeThreadCount s, m_idleThreadCount s) ∧ world s' = world s.
Proof.
  unfold schedule, scheduleNoLock, nonempty. intros Hn H. st_inv.
  destruct (fiber ft), (cb ft); st_inv; done.
Qed.

Lemma take_task_ok tid s r s' :
  take_task tid s = (Ret r, s') →
  nonempty r.1 = r.2 ∧ (r.2 = true → thread r.1 = -1 ∨ thread r.1 = tid)
  ∧ m_idleThreadCount s' = m_idleThreadCount s
  ∧ if r.2 then m_fibers s ≡ₚ r.1 :: m_fibers s' ∧ m_activeThreadCount s' = u64 (m_activeThreadCount s + 1)
    else s' = s.
Proof.
  unfold take_task. intros H. st_inv. destruct a1 as [[ft rest]|]; st_inv; [|done].
  destruct (find_task_split _ _ _ _ _ H) as (Hn & Ht & Hp). done.
Qed.

(** The effect of a step on the counters and on the tasks. *)
Definition accounts s k s' k' : Prop :=
  worker_ok k' ∧ tid k' = tid k
  ∧ m_activeThreadCount s' = u64 (m_activeThreadCount s + busy k' - busy k)
  ∧ m_idleThreadCount s' = u64 (m_idleThreadCount s + idling k' - idling k)
  ∧ submits s k ++ holding k ++ m_fibers s ≡ₚ drops k ++ holding k' ++ m_fibers s'.

Definition counters_fit s : Prop :=
  fits_u 64 (m_activeThreadCount s) ∧ fits_u 64 (m_idleThreadCount s).

Lemma accounts_view s k s' k' :
  counters_fit s → view s' = view s → tid k' = tid k → worker_ok k' →
  busy k' = busy k → idling k' = idling k → submits s k = [] → holding k' = [] →
  accounts s k s' k'.
Proof.
  intros [Ha Hi] Hv Ht Hw Hb Hd Hs Hh. unfold view in Hv. injection Hv as E1 E2 E3.
  unfold accounts. rewrite Hb, Hd, Hs, Hh, E1, E2, E3. unfold drops.
  rewrite !Z.add_simpl_r, !uwrap_small by done. done.
Qed.

Lemma enter_accounts f p k1 k s0 s k' s' :
  counters_fit s → m_fibers s0 = m_fibers s →
  m_activeThreadCount s = m_activeThreadCount s0 → 
  enter k1 f p s = (Ret k', s') → tid k1 = tid k →
  match at_pc k with Taken _ _ => True | _ => False end →
  (p = InIdle ∧ m_idleThreadCount s = u64 (m_idleThreadCount s0 + 1) ∧ holding k = [] ∧ busy k = 0
   ∨ (∃ g, p = InFiber g ∨ p = InCb g) ∧ m_idleThreadCount s = m_idleThreadCount s0 ∧ busy k = 1) →
  accounts s0 k s' k'.
Proof.
  intros [Ha Hi] Hf Hact He Ht Hw Hp.
  destruct (enter_ok _ _ _ _ _ _ He) as (Hv & Ht' & Hpc). unfold view in Hv.
  injection Hv as E1 E2 E3. unfold accounts, submits, drops.
  assert (idling k = 0) as Hid by (unfold idling; by destruct (at_pc k)).
  assert (worker_ok k' ∧ holding k' = []) as [? ->].
  { unfold worker_ok, holding.
    destruct Hp as [(-> & _)|[(g & [-> | ->]) _]], Hpc as [-> | ->]; done. }
  rewrite Hid, E1, E2, E3, Hf. split_and!; [done|congruence|..].
  - destruct Hp as [(-> & _ & _ & ->)|[(g & Hg) [_ ->]]].
    + assert (busy k' = 0) as -> by (unfold busy; by destruct Hpc as [-> | ->]).
      by rewrite Z.add_0_r, Z.sub_0_r, <- Hact, uwrap_small.
    + assert (busy k' = 1) as -> by (unfold busy; destruct Hg as [-> | ->]; by destruct Hpc as [-> | ->]).
      by rewrite Z.add_simpl_r, <- Hact, uwrap_small.
  - destruct Hp as [(-> & -> & _ & _)|[(g & Hg) [Hid0 _]]].
    + assert (idling k' = 1) as -> by (unfold idling; by destruct Hpc as [-> | ->]).
      by rewrite Z.sub_0_r.
    + assert (idling k' = 0) as -> by (unfold idling; destruct Hg as [-> | ->]; by destruct Hpc as [-> | ->]).
      by rewrite Z.sub_0_r, Z.add_0_r, <- Hid0, uwrap_small.
  - by destruct (at_pc k).
Qed.

(** The condition in front of [swapIn] holds for every state. *)
Lemma guard_true (x : Fiber.State) :
  negb (bool_decide (x = Fiber.TERM)) || negb (bool_decide (x = Fiber.EXCEPT)) = true.
Proof. by destruct x. Qed.

Lemma take_accounts addr s k s' k' :
  counters_fit s → at_pc k = Loop → run_step addr k s = (Ret k', s') → accounts s k s' k'.
Proof.
  intros [Ha Hi] Hpc. unfold run_step. rewrite Hpc. intros H. st_inv.
  destruct (take_task_ok _ _ _ _ H0) as (Hn & Hth & Hidle & Hr). destruct a as [ft b]. cbn in *.
  unfold accounts, worker_ok, busy, idling, submits, drops, holding. rewrite Hpc. cbn.
  destruct b.
  - destruct Hr as [-> ->]. rewrite Hidle, !Z.sub_0_r, !Z.add_0_r, (uwrap_small _ (m_idleThreadCount s)) by done.
    done.
  - subst s'. rewrite !Z.sub_0_r, !Z.add_0_r, !uwrap_small by done. done.
Qed.

Lemma taken_accounts addr s k s' k' ft b :
  counters_fit s → at_pc k = Taken ft b → nonempty ft = b →
  run_step addr k s = (Ret k', s') → accounts s k s' k'.
Proof.
  intros Hc Hpc Hn.
  assert (match at_pc k with Taken _ _ => True | _ => False end) as Hw by by rewrite Hpc.
  unfold run_step. rewrite Hpc. unfold nonempty in Hn. intros H. st_inv.
  destruct (fiber ft) as [f|] eqn:Ef.
  - st_inv. apply fiber_state_ok in H2 as [-> _]. rewrite guard_true in H1. subst.
    eapply (enter_accounts f (InFiber f) k k s s); eauto. right. unfold busy. rewrite Hpc. eauto.
  - st_inv. destruct (cb ft) as [g|] eqn:Eg.
    + subst. st_inv. pose proof Hc as Hc'.
      match goal with He : enter _ _ _ ?s1 = _, Hc : counters_fit ?so |- _ =>
        rename He into Henter;
        assert (view s1 = view so) as Hv;
        [destruct (cb_fiber k); st_inv; by eapply on_world_view|]
      end.
      unfold view in Hv. injection Hv as E1 E2 E3.
      eapply (enter_accounts _ (InCb _)); [| | |exact Henter|..]; try done.
      { unfold counters_fit. by rewrite E2, E3. }
      right. split; [eauto|]. split; [done|]. unfold busy. by rewrite Hpc.
    + subst. st_inv. match goal with Hs : fiber_state _ _ = _ |- _ => apply fiber_state_ok in Hs as [-> _] end.
      destruct (bool_decide _); st_inv.
      * apply accounts_view; try done; unfold busy, idling, submits, holding; by rewrite Hpc.
      * match goal with He : enter _ _ _ _ = _ |- _ => eapply (enter_accounts _ InIdle k k);
          [| | |exact He|..]; try done end.
        { split; [apply Hc|]. cbn. apply uwrap_fits. lia. }
        left. unfold holding, busy. rewrite Hpc. done.
Qed.

Lemma post_accounts addr s k s' k' :
  counters_fit s → match at_pc k with PostFiber _ | PostCb _ => True | _ => False end →
  run_step addr k s = (Ret k', s') → accounts s k s' k'.
Proof.
  intros Hc.
  assert (∀ f k1, ready s f = [mkFT (Some f) None (-1)] →
    submits s k = ready s f → holding k = [] → busy k = 0 → idling k = 0 → at_pc k1 = Loop → tid k1 = tid k →
    ∀ u, schedule (mkFT (Some f) None (-1)) s = (Ret u, s') → accounts s k s' k1) as Hready.
  { intros f k1 Hr Hs Hh Hb Hi Hk Ht u Hu. apply schedule_ok in Hu as [Hv _]; [|done].
    unfold view in Hv. injection Hv as E1 E2 E3. unfold accounts, drops, worker_ok, busy at 1, idling at 1, holding at 3.
    rewrite Hk, Hs, Hr, Hh, Hb, Hi, E1, E2, E3, !Z.sub_0_r, !Z.add_0_r. destruct Hc as [Ha Hid].
    rewrite !uwrap_small by done. split_and!; [done..|]. solve_Permutation. }
  assert (∀ k1, view s' = view s → submits s k = [] → holding k = [] → busy k = 0 → idling k = 0 →
    at_pc k1 = Loop → tid k1 = tid k → accounts s k s' k1) as Hother.
  { intros k1 Hv Hs Hh Hb Hi Hk Ht. apply accounts_view; try done; unfold worker_ok, busy, idling, holding in *;
      rewrite Hk; by try symmetry. }
  unfold run_step. destruct (at_pc k) as [| | | |f| | |f| | | |] eqn:Hpc; try done;
    intros _ H; st_inv; apply fiber_state_ok in H0 as [-> (o & Ho & ->)].
  all: assert (submits s k = ready s f ∧ holding k = [] ∧ busy k = 0 ∧ idling k = 0)
    as (Hsub & Hh & Hb & Hi) by (unfold submits, holding, busy, idling; by rewrite Hpc).
  all: assert (ready s f = if bool_decide (Fiber.m_state o = Fiber.READY)
    then [mkFT (Some f) None (-1)] else []) as Hrd by (unfold ready; by rewrite Ho).
  all: destruct (bool_decide (Fiber.m_state o = Fiber.READY)) eqn:Er; st_inv.
  - by eapply Hready.
  - destruct (negb _ && _); st_inv; apply Hother; try done; try congruence.
    unfold set_fiber_state in *. by eapply on_world_view.
  - by eapply Hready.
  - destruct (_ || _); st_inv; apply Hother; try done; try congruence;
      unfold set_fiber_state in *; by eapply on_world_view.
Qed.

Lemma back_accounts addr s k s' k' :
  counters_fit s → match at_pc k with BackFiber _ | BackCb _ | BackIdle => True | _ => False end →
  run_step addr k s = (Ret k', s') → accounts s k s' k'.
Proof.
  intros [Ha Hi]. unfold run_step, dec_active.
  destruct (at_pc k) as [| | |f| | |f| | | | |] eqn:Hpc; try done; intros _ H; st_inv;
    unfold accounts, worker_ok, busy, idling, submits, drops, holding; rewrite Hpc;
    cbn [goto at_pc tid].
  1,2: cbn; rewrite !Z.add_0_r, !Z.sub_0_r, (uwrap_small _ (m_idleThreadCount _)) by done; done.
  match goal with Hs : fiber_state _ _ = _ |- _ => apply fiber_state_ok in Hs as [-> _] end.
  assert (view s' = (m_fibers s, m_activeThreadCount s, u64 (m_idleThreadCount s - 1))) as Hv.
  { destruct (negb _ && _); st_inv; [|done]. unfold set_fiber_state in *.
    match goal with Hw : on_world _ _ = _ |- _ => by apply on_world_view in Hw end. }
  unfold view in Hv. injection Hv as E1 E2 E3. rewrite E1, E2, E3.
  rewrite !Z.add_0_r, !Z.sub_0_r, (uwrap_small _ (m_activeThreadCount _)) by done. done.
Qed.

Lemma rest_accounts addr s k s' k' :
  counters_fit s → match at_pc k with InFiber _ | InCb _ | InIdle | Exited | Dead _ => True | _ => False end →
  run_step addr k s = (Ret k', s') → accounts s k s' k'.
Proof.
  intros Hc Hpc. assert (run_step addr k s = (Ret k, s)) as -> by by (unfold run_step; destruct (at_pc k)).
  intros. simplify_eq. apply accounts_view; try done; unfold worker_ok, submits, holding; by destruct (at_pc k').
Qed.

Lemma run_step_accounts addr s k s' k' :
  counters_fit s → worker_ok k → run_step addr k s = (Ret k', s') → accounts s k s' k'.
Proof.
  intros Hc Hw Hr. unfold worker_ok in Hw. destruct (at_pc k) as [|ft b| | | | | | | | | |] eqn:Hpc.
  1: by eapply take_accounts.
  1: destruct Hw; by eapply taken_accounts.
  all: first [eapply rest_accounts; eauto; by rewrite Hpc | eapply back_accounts; eauto; by rewrite Hpc
             | eapply post_accounts; eauto; by rewrite Hpc].
Qed.

(** ** What a step starts *)

(** A switch leaves the thread with the fiber as its running one, in execution. *)
Lemma fiber_get_ok f (w : Fiber.world Cb) o w' :
  Fiber.get f w = (Ret o, w') → w' = w ∧ Fiber.fibers w !! f = Some o.
Proof. unfold Fiber.get. destruct (Fiber.fibers w !! f); cbn; intros; by simplify_eq. Qed.

Lemma fiber_update_ok f g (w : Fiber.world Cb) u w' :
  Fiber.update f g w = (Ret u, w') →
  ∃ o, Fiber.fibers w !! f = Some o ∧ w' = Fiber.set_fibers (<[f := g o]> (Fiber.fibers w)) w.
Proof.
  unfold Fiber.update. intros H. st_inv. apply fiber_get_ok in H0 as [-> Ho].
  unfold Fiber.put in *. st_inv. eauto.
Qed.

Lemma swapIn_inv t f (w : Fiber.world Cb) c w' :
  Fiber.swapIn t f w = (Ret c, w') →
  ∃ o o', Fiber.fibers w !! f = Some o ∧ c = Fiber.m_ctx o
    ∧ Fiber.t_fiber (Fiber.tls_of t w') = Some f ∧ Fiber.fibers w' !! f = Some o'
    ∧ Fiber.m_state o' = Fiber.EXEC ∧ Fiber.m_cb o' = Fiber.m_cb o.
Proof.
  unfold Fiber.swapIn, Fiber.SetThis, Fiber.set_t_fiber, Fiber.put. intros H. st_inv.
  match goal with Hg : Fiber.get _ _ = _ |- _ => apply fiber_get_ok in Hg as [-> Ho] end.
  match goal with Hu : Fiber.update _ _ _ = _ |- _ => apply fiber_update_ok in Hu as (om & Hm & ->) end.
  cbn in Ho. eexists _, (if decide (a4 = f) then _ else _). split; [exact Ho|]. split; [done|].
  split; [unfold Fiber.tls_of; cbn; by rewrite lookup_insert_eq|].
  cbn in Hm |- *. destruct (decide (a4 = f)) as [->|Hne].
  - rewrite lookup_insert_eq in Hm |- *. simplify_eq. done.
  - rewrite lookup_insert_ne, lookup_insert_eq by done. done.
Qed.

Lemma enter_starts k f p s k' s' :
  enter k f p s = (Ret k', s') →
  ∃ o o', Fiber.fibers (world s) !! f = Some o ∧ current k' s' = Some (f, o')
    ∧ Fiber.m_cb o' = Fiber.m_cb o ∧ tid k' = tid k
    ∧ at_pc k' = match Fiber.m_ctx o with
                 | Fiber.Finished => Dead (match p with InIdle => false | _ => true end)
                 | _ => p
                 end.
Proof.
  unfold enter. intros H. st_inv. unfold on_world in H0.
  destruct (Fiber.swapIn (tid k) f (world s)) as [r w] eqn:E. injection H0 as -> <-.
  apply swapIn_inv in E as (o & o' & Ho & -> & Ht & Ho' & Hx & Hc).
  exists o, o'. split_and!; [done| |done..].
  unfold current. cbn [tid goto world set_world]. rewrite Ht, Ho'. by rewrite bool_decide_true.
Qed.

(** The fiber that is made, or made new again, for a callback. *)
Lemma fresh_fiber addr k g s f s' :
  (match cb_fiber k with
   | Some f => on_world (Fiber.reset f (Some g));; mret f
   | None => on_world (Fiber.new addr (Some g) 0 false);; mret addr
   end) s = (Ret f, s') →
  ∃ o, Fiber.fibers (world s') !! f = Some o ∧ Fiber.m_ctx o = Fiber.Entry false ∧ Fiber.m_cb o = Some g.
Proof.
  intros H. destruct (cb_fiber k) as [f0|]; st_inv; unfold on_world in H0;
    match type of H0 with (let '(_, _) := ?m in _) = _ => destruct m as [r w] eqn:E end;
    injection H0 as -> <-.
  - unfold Fiber.reset, Fiber.put in E. st_inv. eexists. split; [apply lookup_insert_eq|done].
  - unfold Fiber.new, Fiber.put in E. st_inv. eexists. split; [apply lookup_insert_eq|done].
Qed.

(** A thread with a task starts it in its next step, if that step returns. *)
Lemma taken_starts addr s k s' k' ft :
  at_pc k = Taken ft true → nonempty ft = true → run_step addr k s = (Ret k', s') →
  ∃ j, job_of ft = Some j ∧ started k k' s' = [(tid k, j)].
Proof.
  intros Hpc Hn. unfold run_step, nonempty, job_of, started, executes in *. rewrite Hpc. intros H. st_inv.
  destruct (fiber ft) as [f|] eqn:Ef.
  - st_inv. apply fiber_state_ok in H2 as [-> _]. rewrite guard_true in H1.
    exists (RunFiber f). split; [done|].
    apply enter_starts in H1 as (o & o' & Ho & Hc & _ & -> & Hp). rewrite Hp, Hc.
    destruct (Fiber.m_ctx o); by rewrite ?bool_decide_true.
  - st_inv. destruct (cb ft) as [g|]; [|done]. st_inv. exists (RunCb g). split; [done|].
    apply fresh_fiber in H0 as (o1 & Ho1 & Hx & Hg).
    apply enter_starts in H2 as (o & o' & Ho & Hc & Hcb & -> & Hp). rewrite Hp, Hc.
    rewrite Ho in Ho1. simplify_eq. rewrite Hx, bool_decide_true, Hcb, Hg by done. done.
Qed.

(** No other step starts anything. *)
Lemma others_start_nothing addr s k s' k' :
  worker_ok k → holding k = [] → run_step addr k s = (Ret k', s') → started k k' s' = [].
Proof.
  unfold worker_ok, holding, run_step, started, executes. intros Hw Hh H.
  destruct (at_pc k) as [|ft [] |f|f|f|f|f|f| | | |] eqn:Hpc; try done; st_inv; try done.
  - destruct Hw as [Hn _]. unfold nonempty in Hn. destruct (fiber ft), (cb ft); try done. st_inv.
    destruct (bool_decide _); st_inv; [done|].
    match goal with He : enter _ _ _ _ = _ |- _ => apply enter_starts in He as (o & o' & _ & _ & _ & _ & ->) end.
    by destruct (Fiber.m_ctx o).
  - destruct (bool_decide _); st_inv; [done|]. destruct (_ || _); by st_inv.
Qed.

(** ** The system *)

Definition sum (f : worker Cb → Z) ks : Z := foldr (λ k n, f k + n) 0 ks.

Lemma sum_insert f ks i k k' : ks !! i = Some k → sum f (<[i := k']> ks) = sum f ks - f k + f k'.
Proof.
  revert i. induction ks as [|x ks IH]; intros [|i] Hi; simplify_eq/=; [lia|].
  rewrite (IH i) by done. lia.
Qed.

Lemma sum_bounds f ks : (∀ k, 0 <= f k <= 1) → 0 <= sum f ks <= Z.of_nat (length ks).
Proof.
  intros Hf. induction ks as [|k ks IH]; [simpl; lia|]. cbn [sum foldr length]. fold (sum f ks).
  specialize (Hf k). lia.
Qed.

Lemma sum_zero f ks : (∀ k, 0 <= f k) → sum f ks = 0 → Forall (λ k, f k = 0) ks.
Proof.
  intros Hf. induction ks as [|k ks IH]; [done|]. cbn [sum foldr]. fold (sum f ks). intros Hs.
  assert (0 <= sum f ks) by (clear -Hf; induction ks; cbn; [lia|]; specialize (Hf a); fold (sum f ks); lia).
  specialize (Hf k). constructor; [lia|]. apply IH. lia.
Qed.

Lemma busy_bounds k : 0 <= busy k <= 1.
Proof. unfold busy. destruct (at_pc k) as [|? []| | | | | | | | | |[]]; lia. Qed.
Lemma idling_bounds k : 0 <= idling k <= 1.
Proof. unfold idling. destruct (at_pc k) as [| | | | | | | | | | |[]]; lia. Qed.

Lemma held_insert ks i k k' :
  ks !! i = Some k → holding k' ++ (ks ≫= holding) ≡ₚ holding k ++ (<[i := k']> ks ≫= holding).
Proof.
  revert i. induction ks as [|x ks IH]; intros [|i] Hi; simplify_eq/=; [solve_Permutation|].
  rewrite (Permutation_app_swap_app (holding k')), IH by done. solve_Permutation.
Qed.

(** A thread that is inside a fiber, and leaves it. *)
Definition inside k : bool := match at_pc k with InFiber _ | InCb _ | InIdle => true | _ => false end.
Definition left_fiber k : worker Cb :=
  goto (match at_pc k with InFiber f => BackFiber f | InCb f => BackCb f | InIdle => BackIdle | p => p end) k.

Definition system : Type := t Cb * list (worker Cb).

(** One step, with the tasks it submits and the jobs it starts. What a fiber does to fibers is
    not restricted; [start] and [stop] set the flags. *)
Inductive step : system → list (FiberAndThread Cb) → list (Z * job) → system → Prop :=
  | step_run s ks i k addr k' s' :
      ks !! i = Some k → run_step addr k s = (Ret k', s') →
      step (s, ks) (submits s k) (started k k' s') (s', <[i := k']> ks)
  | step_user s ks i k w (leaves : bool) :
      ks !! i = Some k → inside k = true →
      step (s, ks) [] [] (set_world w s, <[i := if leaves then left_fiber k else k]> ks)
  | step_schedule s ks ft u s' :
      schedule ft s = (Ret u, s') →
      step (s, ks) (if nonempty ft then [ft] else []) [] (s', ks)
  | step_flags s ks b1 b2 : step (s, ks) [] [] (set_stopping b1 (set_autoStop b2 s), ks).

Inductive reachable : list (FiberAndThread Cb) → list (Z * job) → system → Prop :=
  | reachable_start s ks :
      m_fibers s = [] → m_activeThreadCount s = 0 → m_idleThreadCount s = 0 →
      Forall (λ k, at_pc k = Loop) ks → Z.of_nat (length ks) < 2 ^ 32 → reachable [] [] (s, ks)
  | reachable_step sub st sub' st' x y :
      reachable sub st x → step x sub' st' y → reachable (sub ++ sub') (st ++ st') y.

(** [done] are the tasks that were started, in the order of their starts. *)
Record consistent (sub done : list (FiberAndThread Cb)) (st : list (Z * job)) (x : system) : Prop := {
  cons_active : m_activeThreadCount x.1 = sum busy x.2;
  cons_idle : m_idleThreadCount x.1 = sum idling x.2;
  cons_ok : Forall worker_ok x.2;
  cons_tasks : sub ≡ₚ m_fibers x.1 ++ (x.2 ≫= holding) ++ done;
  cons_starts : Forall2 start_of done st;
  cons_size : Z.of_nat (length x.2) < 2 ^ 32;
}.

Lemma consistent_start s ks :
  m_fibers s = [] → m_activeThreadCount s = 0 → m_idleThreadCount s = 0 →
  Forall (λ k, at_pc k = Loop) ks → Z.of_nat (length ks) < 2 ^ 32 → consistent [] [] [] (s, ks).
Proof.
  intros Hf Ha Hi Hk Hs.
  assert (sum busy ks = 0 ∧ sum idling ks = 0 ∧ Forall worker_ok ks ∧ (ks ≫= holding) = []) as (H1 & H2 & H3 & H4).
  { clear Hs. induction Hk as [|k ks Hk _ (IH1 & IH2 & IH3 & IH4)]; [done|]. cbn [sum foldr].
    rewrite bind_cons. fold (sum busy ks) (sum idling ks). rewrite IH1, IH2, IH4.
    unfold busy, idling, holding. rewrite Hk. split_and!; [done..| |done].
    constructor; [|done]. unfold worker_ok. by rewrite Hk. }
  split; cbn; [by rewrite Ha|by rewrite Hi|done| |done|done]. by rewrite Hf, H4.
Qed.

Lemma consistent_counters sub dn st x : consistent sub dn st x → counters_fit x.1.
Proof.
  intros [Ha Hi _ _ _ Hs]. unfold counters_fit, fits_u. rewrite Ha, Hi.
  pose proof (sum_bounds busy x.2 busy_bounds). pose proof (sum_bounds idling x.2 idling_bounds). lia.
Qed.

Lemma consistent_worker sub dn st s ks i k k' s' sub' st' :
  consistent sub dn st (s, ks) → ks !! i = Some k → accounts s k s' k' → submits s k = sub' →
  Forall2 start_of (drops k) st' →
  consistent (sub ++ sub') (dn ++ drops k) (st ++ st') (s', <[i := k']> ks).
Proof.
  intros Hcons Hk (Hw & Ht & Ha & Hi & Hp) Hsub Hst. subst sub'.
  pose proof Hcons as [Ha0 Hi0 Hok Hp0 Hst0 Hs]. cbn [fst snd] in *.
  pose proof (sum_bounds busy (<[i:=k']> ks) busy_bounds) as Hb.
  pose proof (sum_bounds idling (<[i:=k']> ks) idling_bounds) as Hd. rewrite length_insert in Hb, Hd.
  split; cbn [fst snd].
  - rewrite Ha, Ha0, (sum_insert _ _ _ _ k' Hk) in *.
    rewrite uwrap_small by (unfold fits_u; lia). lia.
  - rewrite Hi, Hi0, (sum_insert _ _ _ _ k' Hk) in *.
    rewrite uwrap_small by (unfold fits_u; lia). lia.
  - by apply Forall_insert.
  - pose proof (held_insert ks i k k' Hk) as Hh.
    apply (Permutation_app_inv_l (holding k)). rewrite Hp0.
    transitivity ((submits s k ++ holding k ++ m_fibers s) ++ (ks ≫= holding) ++ dn); [solve_Permutation|].
    rewrite Hp. unfold drops.
    transitivity (holding k ++ m_fibers s' ++ (holding k' ++ (ks ≫= holding)) ++ dn); [solve_Permutation|].
    rewrite Hh. solve_Permutation.
  - by apply Forall2_app.
  - by rewrite length_insert.
Qed.

(** What a thread stops holding is what it starts. *)
Lemma run_step_starts addr s k s' k' :
  worker_ok k → run_step addr k s = (Ret k', s') → Forall2 start_of (drops k) (started k k' s').
Proof.
  intros Hw Hr. destruct (decide (holding k = [])) as [Hh|Hh].
  { unfold drops. by rewrite Hh, (others_start_nothing addr s k s' k'). }
  unfold worker_ok, drops, holding in *. destruct (at_pc k) as [|ft [] | | | | | | | | | |] eqn:Hpc; try done.
  destruct Hw as [Hn Ht], (taken_starts addr s k s' k' ft Hpc Hn Hr) as (j & Hj & ->).
  constructor; [|done]. split; [done|by apply Ht].
Qed.

Lemma consistent_step sub dn st x sub' st' y :
  consistent sub dn st x → step x sub' st' y → ∃ dn', consistent (sub ++ sub') (dn ++ dn') (st ++ st') y.
Proof.
  intros Hc Hstep. pose proof (consistent_counters _ _ _ _ Hc) as Hfit. destruct Hstep.
  - assert (worker_ok k) as Hw.
    { pose proof (cons_ok _ _ _ _ Hc) as Hok. rewrite Forall_lookup in Hok. by eapply Hok. }
    exists (drops k). eapply consistent_worker; eauto using run_step_starts, run_step_accounts.
  - exists (drops k). set (k' := if leaves then left_fiber k else k).
    assert (drops k = [] ∧ submits s k = [] ∧ accounts s k (set_world w s) k') as (Hd & Hs & Hacc).
    { unfold drops, holding, submits, inside in *.
      assert (busy k' = busy k ∧ idling k' = idling k ∧ tid k' = tid k ∧ worker_ok k' ∧ holding k' = []) as (?&?&?&?&?).
      { unfold k', busy, idling, worker_ok, holding, left_fiber. by destruct leaves, (at_pc k). }
      split_and!; [by destruct (at_pc k)..|]. apply accounts_view; try done; [].
      unfold submits. by destruct (at_pc k). }
    eapply consistent_worker; eauto. by rewrite Hd.
  - exists []. destruct Hc as [Ha Hi Hok Hp Hst Hs]. destruct (nonempty ft) eqn:Hn.
    + apply schedule_ok in H as [Hv _]; [|done]. unfold view in Hv. injection Hv as E1 E2 E3.
      split; cbn [fst snd] in *; try congruence; rewrite ?E1, ?Hp, ?app_nil_r; [solve_Permutation|done].
    + assert (s' = s) as ->.
      { revert H. unfold schedule, scheduleNoLock, nonempty in *. intros H. st_inv.
        destruct (fiber ft), (cb ft); try done; by st_inv. }
      rewrite !app_nil_r. by split.
  - exists []. destruct Hc. rewrite !app_nil_r. by split.
Qed.

Lemma reachable_consistent sub st x : reachable sub st x → ∃ dn, consistent sub dn st x.
Proof.
  induction 1 as [|sub st sub' st' x y _ [dn IH] Hs]; [exists []; by apply consistent_start|].
  destruct (consistent_step _ _ _ _ _ _ _ IH Hs) as [dn' ?]. by eexists.
Qed.
End system.
Arguments job Cb : clear implicits.
