(* ===== verification/SchedulerProps.v ===== *)
(** * Fiber and Scheduler: theorems

    Every task is started once; the counters say what the threads are doing; which task a thread
    takes; what a switch into a fiber and back changes; and two ways in which it goes wrong. *)

From S2P Require Import Prelude Scheduler SchedulerSpec.
Import Scheduler.

Section theorems.
Context {Cb : Type}.
Implicit Types (s : t Cb) (k : worker Cb) (ks : list (worker Cb)) (ft : FiberAndThread Cb).
Implicit Types (o om : Fiber.t Cb) (w : Fiber.world Cb).

Lemma stopping_true s :
  stopping s = true → m_fibers s = [] ∧ m_activeThreadCount s = 0.
Proof.
  unfold stopping. intros Hs. destruct (m_fibers s); [split; [done|lia]|].
  by rewrite andb_false_r in Hs.
Qed.

Lemma held_not_busy ks : Forall (λ k, busy k = 0) ks → (ks ≫= holding) = [].
Proof.
  induction 1 as [|k ks Hk _ IH]; [done|]. rewrite bind_cons, IH, app_nil_r.
  unfold busy, holding in *. by destruct (at_pc k) as [|? []| | | | | | | | | |].
Qed.

(** C3. Whatever the order in which threads run, fibers switch and tasks are scheduled: the tasks
    submitted so far (those a fiber that yielded as ready resubmits included) are, as a
    multiset, those in the list, those a thread has just taken and those that are [done]; and
    the tasks that are done are, one by one, the jobs that were started. A job counts as started
    when a thread that was outside is seen inside: its running fiber, in state [EXEC] in the
    store, is the fiber of the task, or a fiber that holds the callback of the task; and a task
    pinned to a thread is started by that thread. So no task is lost, dropped or started twice.
    [m_activeThreadCount] and [m_idleThreadCount] are the numbers of threads with a task and in
    the idle fiber. When [stopping] answers true, every task was started and no thread is inside
    one. *)
Theorem scheduler_accounts sub st s ks :
  reachable sub st (s, ks) →
  ∃ dn, sub ≡ₚ m_fibers s ++ (ks ≫= holding) ++ dn ∧ Forall2 start_of dn st
  ∧ m_activeThreadCount s = sum busy ks ∧ m_idleThreadCount s = sum idling ks
  ∧ (stopping s = true → sub ≡ₚ dn ∧ Forall (λ k, busy k = 0) ks).
Proof.
  intros [dn [Ha Hi Hok Hp Hst Hs]]%reachable_consistent. cbn in *. exists dn. split_and!; [done..|].
  intros [Hf Hz]%stopping_true. rewrite Ha in Hz.
  apply sum_zero in Hz; [|intros k; apply busy_bounds].
  split; [|done]. by rewrite Hp, Hf, (held_not_busy ks Hz).
Qed.

(** A thread takes the first task of the list that is not pinned to another thread and is not
    a fiber in execution; the tasks before it are passed over and keep their place, the count of
    active threads goes up. With no such task nothing changes. *)
Theorem take_task_first tid s :
  Forall (λ ft, nonempty ft = true ∧ ∀ f, fiber ft = Some f → is_Some (Fiber.fibers (world s) !! f)) (m_fibers s) →
  (∃ l1 ft l2, m_fibers s = l1 ++ ft :: l2
     ∧ Forall (passed_over tid (world s)) l1 ∧ takable tid (world s) ft
     ∧ take_task tid s = (Ret (ft, true), set_active (u64 (m_activeThreadCount s + 1)) (set_tasks (l1 ++ l2) s)))
  ∨ (Forall (passed_over tid (world s)) (m_fibers s) ∧ take_task tid s = (Ret (empty_task, false), s)).
Proof.
  intros Hl. unfold take_task.
  destruct (find_task_ok tid (world s) (m_fibers s) Hl) as [(l1 & ft & l2 & E & El & Hp & Ht)|[E Hp]].
  - left. exists l1, ft, l2. split_and!; [done..|]. do 2 st_run reflexivity.
    st_run (unfold lift; by rewrite E). reflexivity.
  - right. split; [done|]. do 2 st_run reflexivity. by st_run (unfold lift; by rewrite E).
Qed.

(** ** Switches *)

Lemma swapIn_ok tid f o main om (w : Fiber.world Cb) :
  Fiber.fibers w !! f = Some o → Fiber.m_state o ≠ Fiber.EXEC →
  Fiber.t_scheduler_fiber (Fiber.tls_of tid w) = Some main → main ≠ f →
  Fiber.fibers w !! main = Some om →
  Fiber.swapIn tid f w
  = (Ret (Fiber.m_ctx o),
     Fiber.mkW (<[main := Fiber.set_ctx Fiber.Suspended om]> (<[f := Fiber.set_state Fiber.EXEC o]> (Fiber.fibers w)))
       (Fiber.s_fiber_id w) (Fiber.s_fiber_count w)
       (<[tid := Fiber.mkTLS (Some f) (Fiber.t_threadFiber (Fiber.tls_of tid w)) (Some main)]> (Fiber.tls w))).
Proof.
  intros Hf Hs Hmain Hne Hm. unfold Fiber.swapIn. st_run reflexivity.
  st_run (unfold Fiber.get; cbn; by rewrite Hf). cbn. rewrite bool_decide_false by done. 
  do 2 st_run reflexivity. st_run reflexivity. unfold Fiber.tls_of at 1. cbn. rewrite lookup_insert_eq. cbn.
  rewrite Hmain. st_run reflexivity. unfold Fiber.update.
  st_run (st_run (unfold Fiber.get; cbn; by rewrite lookup_insert_ne, Hm by done); reflexivity).
  cbn. reflexivity.
Qed.

(** After a switch into [f] from the scheduler's fiber. *)
Definition switched (tid f : Z) (o : Fiber.t Cb) (main : Z) (om : Fiber.t Cb) (w : Fiber.world Cb) : Fiber.world Cb :=
  Fiber.mkW (<[main := Fiber.set_ctx Fiber.Suspended om]> (<[f := Fiber.set_state Fiber.EXEC o]> (Fiber.fibers w)))
    (Fiber.s_fiber_id w) (Fiber.s_fiber_count w)
    (<[tid := Fiber.mkTLS (Some f) (Fiber.t_threadFiber (Fiber.tls_of tid w)) (Some main)]> (Fiber.tls w)).

Lemma tls_switched tid f o main om w :
  Fiber.tls_of tid (switched tid f o main om w)
  = Fiber.mkTLS (Some f) (Fiber.t_threadFiber (Fiber.tls_of tid w)) (Some main).
Proof. unfold Fiber.tls_of at 1. cbn. by rewrite lookup_insert_eq. Qed.

Lemma fiber_switched tid f o main om w :
  main ≠ f →
  Fiber.fibers (switched tid f o main om w) !! f = Some (Fiber.set_state Fiber.EXEC o).
Proof. intros Hne. cbn. by rewrite lookup_insert_ne, lookup_insert_eq. Qed.

Lemma yield_state_ok tid f o main om w v addr garbage :
  main ≠ f →
  Fiber.yield_state tid v addr garbage (switched tid f o main om w)
  = (Ret f, Fiber.set_fibers (<[f := Fiber.set_state v o]> (Fiber.fibers (switched tid f o main om w)))
              (switched tid f o main om w)).
Proof.
  intros Hne. unfold Fiber.yield_state, Fiber.GetThis, Fiber.update.
  erewrite st_bind_Ret; [|st_run reflexivity; rewrite tls_switched; reflexivity].
  st_run (st_run (unfold Fiber.get; by rewrite fiber_switched by done); reflexivity). reflexivity.
Qed.

Lemma yield_ok tid f o main om w v addr garbage :
  main ≠ f →
  (cur ← Fiber.yield_state tid v addr garbage; Fiber.swapOut tid cur Fiber.Suspended) (switched tid f o main om w)
  = (Ret tt, Fiber.mkW
      (<[f := Fiber.set_ctx Fiber.Suspended (Fiber.set_state v o)]> (Fiber.fibers (switched tid f o main om w)))
      (Fiber.s_fiber_id w) (Fiber.s_fiber_count w)
      (<[tid := Fiber.mkTLS (Some main) (Fiber.t_threadFiber (Fiber.tls_of tid w)) (Some main)]> (Fiber.tls w))).
Proof.
  intros Hne. st_run (by apply yield_state_ok). set (w1 := switched tid f o main om w).
  unfold Fiber.swapOut. st_run reflexivity.
  change (Fiber.tls_of tid (Fiber.set_fibers _ w1)) with (Fiber.tls_of tid w1).
  unfold w1. rewrite tls_switched. cbn [Fiber.t_scheduler_fiber]. fold w1.
  do 2 st_run reflexivity. unfold Fiber.update.
  erewrite st_bind_Ret; [|unfold Fiber.get; cbn; rewrite lookup_insert_eq; reflexivity].
  unfold Fiber.put, modify, w1, Fiber.set_fibers, Fiber.set_tls. cbn.
  rewrite insert_insert_eq. change (Fiber.tls_of tid (Fiber.mkW _ _ _ _)) with (Fiber.tls_of tid (switched tid f o main om w)).
  rewrite tls_switched. cbn. by rewrite insert_insert_eq.
Qed.

(** A switch from the scheduler's fiber [main] into [f] resumes what [f] last left, makes [f]
    the thread's running fiber, in state [EXEC], and a second switch into it, from any thread,
    fails the assertion. When it then yields, the thread is back in [main], [f] is left in the
    state the yield asks for, to be resumed where it stopped, and no other fiber has changed. *)
Theorem switch_and_yield tid f o main om w :
  Fiber.fibers w !! f = Some o → Fiber.m_state o ≠ Fiber.EXEC →
  Fiber.t_scheduler_fiber (Fiber.tls_of tid w) = Some main → main ≠ f →
  Fiber.fibers w !! main = Some om →
  ∃ w1, Fiber.swapIn tid f w = (Ret (Fiber.m_ctx o), w1)
    ∧ (∀ addr g, Fiber.GetThis tid addr g w1 = (Ret f, w1))
    ∧ (∀ tid', (Fiber.swapIn tid' f w1).1 = Abort)
    ∧ ∀ addr g v, v = Fiber.READY ∨ v = Fiber.HOLD →
      ∃ w2, (if bool_decide (v = Fiber.READY) then Fiber.YieldToReady tid addr g w1
             else Fiber.YieldToHold tid addr g w1) = (Ret tt, w2)
        ∧ Fiber.t_fiber (Fiber.tls_of tid w2) = Some main
        ∧ Fiber.fibers w2 !! f = Some (Fiber.set_ctx Fiber.Suspended (Fiber.set_state v o))
        ∧ ∀ f', f' ≠ f → f' ≠ main → Fiber.fibers w2 !! f' = Fiber.fibers w !! f'.
Proof.
  intros Hf Hs Hm Hne Hom. exists (switched tid f o main om w). split_and!.
  - by apply swapIn_ok.
  - intros addr g. unfold Fiber.GetThis. st_run reflexivity. by rewrite tls_switched.
  - intros tid'. unfold Fiber.swapIn. erewrite st_bind_Ret; [|reflexivity].
    erewrite st_bind_Ret; [|unfold Fiber.get; cbn; rewrite lookup_insert_ne, lookup_insert_eq by done; reflexivity].
    done.
  - intros addr g v Hv. pose proof (yield_ok tid f o main om w v addr g Hne) as Hy.
    eexists. split_and!.
    + destruct Hv as [-> | ->]; exact Hy.
    + unfold Fiber.tls_of. cbn. by rewrite lookup_insert_eq.
    + cbn. by rewrite lookup_insert_eq.
    + intros f' H1 H2. cbn. by rewrite !lookup_insert_ne by done.
Qed.

(** ** What goes wrong *)

Lemma fiber_state_run s f o :
  Fiber.fibers (world s) !! f = Some o → fiber_state f s = (Ret (Fiber.m_state o), s).
Proof.
  intros Hf. unfold fiber_state.
  erewrite st_bind_Ret; [|unfold on_world, Fiber.get; rewrite Hf; reflexivity]. by destruct s.
Qed.

(** The test in front of [swapIn], [state != TERM || state != EXCEPT], never fails, so a fiber
    that has ended and is scheduled again is switched into. Its context continues behind the
    last switch of [MainFunc], which returns and takes the thread down with it; the thread is
    never counted out, and from then on [stopping] never answers true. *)
Theorem ended_fiber_kills_thread s k addr f o main om :
  at_pc k = Taken (mkFT (Some f) None (-1)) true →
  Fiber.fibers (world s) !! f = Some o → Fiber.m_state o = Fiber.TERM → Fiber.m_ctx o = Fiber.Finished →
  Fiber.t_scheduler_fiber (Fiber.tls_of (tid k) (world s)) = Some main → main ≠ f →
  Fiber.fibers (world s) !! main = Some om →
  (∃ s', run_step addr k s = (Ret (goto (Dead true) k), s')
     ∧ m_activeThreadCount s' = m_activeThreadCount s)
  ∧ ∀ sub st s' ks i, reachable sub st (s', ks) → ks !! i = Some (goto (Dead true) k) → stopping s' = false.
Proof.
  intros Hpc Hf Hs Hc Hm Hne Hom. split.
  - eexists. split.
    { unfold run_step. rewrite Hpc. cbn [fiber cb].
      st_run (st_run exact (fiber_state_run s f o Hf); reflexivity).
      rewrite guard_true. unfold enter.
      erewrite st_bind_Ret; [|unfold on_world; rewrite (swapIn_ok _ _ _ _ _ _ Hf) by (done || by rewrite Hs); reflexivity].
      rewrite Hc. reflexivity. }
    done.
  - intros sub st s' ks i [dn [Ha _ _ _ _ _]]%reachable_consistent Hk. cbn in *.
    destruct (stopping s') eqn:E; [|done]. apply stopping_true in E as [_ Hz]. rewrite Ha in Hz.
    apply sum_zero in Hz; [|intros k'; apply busy_bounds]. rewrite Forall_lookup in Hz.
    specialize (Hz _ _ Hk). done.
Qed.

Lemma enter_run k f p s o main om :
  Fiber.fibers (world s) !! f = Some o → Fiber.m_state o ≠ Fiber.EXEC → Fiber.m_ctx o ≠ Fiber.Finished →
  Fiber.t_scheduler_fiber (Fiber.tls_of (tid k) (world s)) = Some main → main ≠ f →
  Fiber.fibers (world s) !! main = Some om →
  ∃ s', enter k f p s = (Ret (goto p k), s').
Proof.
  intros Hf Hs Hc Hm Hne Hom. eexists. unfold enter.
  erewrite st_bind_Ret; [|unfold on_world; rewrite (swapIn_ok _ _ _ _ _ _ Hf Hs Hm Hne Hom); reflexivity].
  by destruct (Fiber.m_ctx o).
Qed.

(** [YieldToHold] sets the state to [HOLD] before it leaves the fiber. As long as the state is
    [EXEC], another thread that finds the fiber in the list passes it over; between the
    assignment and the switch it takes the fiber and enters it, at the point where it was last
    left, while the first thread is still executing it. *)
Theorem yield_before_switch_race s k1 k2 f o main om addr a g :
  at_pc k1 = InFiber f → at_pc k2 = Loop → m_fibers s = [mkFT (Some f) None (-1)] →
  Fiber.t_fiber (Fiber.tls_of (tid k1) (world s)) = Some f →
  Fiber.fibers (world s) !! f = Some o → Fiber.m_state o = Fiber.EXEC → Fiber.m_ctx o ≠ Fiber.Finished →
  Fiber.t_scheduler_fiber (Fiber.tls_of (tid k2) (world s)) = Some main → main ≠ f →
  Fiber.fibers (world s) !! main = Some om →
  run_step addr k2 s = (Ret (goto (Taken empty_task false) k2), s)
  ∧ ∃ s1 s2 s3 k2' k2'',
    on_world (Fiber.yield_state (tid k1) Fiber.HOLD a g) s = (Ret f, s1)
    ∧ run_step addr k2 s1 = (Ret k2', s2) ∧ run_step addr k2' s2 = (Ret k2'', s3)
    ∧ at_pc k2'' = InFiber f.
Proof.
  intros Hp1 Hp2 Hl Ht Hf Hs Hc Hm Hne Hom. split.
  { unfold run_step. rewrite Hp2.
    rewrite (st_bind_Ret _ _ s (empty_task, false) s); [reflexivity|]. unfold take_task. do 2 st_run reflexivity.
    rewrite Hl. st_run (unfold lift; cbn; rewrite Hf; cbn; rewrite bool_decide_true by done; reflexivity).
    reflexivity. }
  set (o' := Fiber.set_state Fiber.HOLD o).
  set (w1 := Fiber.set_fibers (<[f := o']> (Fiber.fibers (world s))) (world s)).
  assert (Fiber.fibers w1 !! f = Some o') as Hf1 by (cbn; by rewrite lookup_insert_eq).
  assert (Fiber.fibers w1 !! main = Some om) as Hom1 by (cbn; by rewrite lookup_insert_ne).
  set (s2 := set_active (u64 (m_activeThreadCount s + 1)) (set_tasks [] (set_world w1 s))).
  set (k2' := goto (Taken (mkFT (Some f) None (-1)) true) k2).
  destruct (enter_run k2' f (InFiber f) s2 o' main om) as [s3 E3]; try done.
  exists (set_world w1 s), s2, s3, k2', (goto (InFiber f) k2'). split_and!; [| | |done].
  - unfold on_world, Fiber.yield_state.
    erewrite st_bind_Ret; [|unfold Fiber.GetThis; st_run reflexivity; rewrite Ht; reflexivity].
    erewrite st_bind_Ret; [|unfold Fiber.update; erewrite st_bind_Ret; [reflexivity|]; unfold Fiber.get; rewrite Hf; reflexivity].
    reflexivity.
  - unfold run_step. rewrite Hp2.
    rewrite (st_bind_Ret _ _ _ (mkFT (Some f) None (-1), true) s2); [reflexivity|].
    unfold take_task. do 2 st_run reflexivity. change (m_fibers (set_world w1 s)) with (m_fibers s). rewrite Hl.
    change (world (set_world w1 s)) with w1.
    st_run (unfold lift; cbn [find_task]; cbn -[w1]; rewrite Hf1; cbn; reflexivity). reflexivity.
  - unfold run_step. cbn [at_pc k2' goto fiber cb].
    st_run (st_run exact (fiber_state_run s2 f o' Hf1); reflexivity). exact E3.
Qed.
End theorems.

(** ** Witnesses

    Threads 1 and 2 with main fibers 10 and 20, idle fibers 11 and 21, and a fiber 30. *)

Definition an_object (st : Fiber.State) (c : Fiber.context) : Fiber.t unit := Fiber.mk st 1 131072 c true None.
Definition a_world (st : Fiber.State) (c : Fiber.context) : Fiber.world unit :=
  Fiber.mkW (<[10 := an_object Fiber.EXEC Fiber.Suspended]> (<[20 := an_object Fiber.EXEC Fiber.Suspended]>
    (<[11 := an_object Fiber.INIT (Fiber.Entry false)]> (<[21 := an_object Fiber.INIT (Fiber.Entry false)]>
    {[30 := an_object st c]})))) 5 5
    (<[1 := Fiber.mkTLS (Some 30) (Some 10) (Some 10)]> {[2 := Fiber.mkTLS (Some 20) (Some 20) (Some 20)]}).
Definition a_scheduler (q : list (FiberAndThread unit)) (st : Fiber.State) (c : Fiber.context) : t unit :=
  mk q [1; 2] 2 0 0 false false (-1) None (a_world st c).
Definition a_worker (p : pc unit) : worker unit := mkWorker 2 p 21 None.
Definition fiber_30 : FiberAndThread unit := mkFT (Some 30) None (-1).

(** Fiber 30 is scheduled, taken by thread 2 and entered. *)
Definition queued : t unit := a_scheduler [fiber_30] Fiber.HOLD Fiber.Suspended.
Definition taken : t unit := (take_task 2 queued).2.
Definition entered : t unit := (run_step 40 (a_worker (Taken fiber_30 true)) taken).2.

Lemma entered_reachable : reachable [fiber_30] [(2, RunFiber 30)] (entered, [a_worker (InFiber 30)]).
Proof.
  apply (reachable_step [fiber_30] [] [] [(2, RunFiber 30)] (taken, [a_worker (Taken fiber_30 true)])).
  - apply (reachable_step [fiber_30] [] [] [] (queued, [a_worker Loop])).
    + apply (reachable_step [] [] [fiber_30] [] (a_scheduler [] Fiber.HOLD Fiber.Suspended, [a_worker Loop])).
      * apply reachable_start; try done. by repeat constructor.
      * by apply (step_schedule _ _ fiber_30 tt).
    + by apply (step_run queued [a_worker Loop] 0 (a_worker Loop) 40 (a_worker (Taken fiber_30 true)) taken).
  - by apply (step_run taken [a_worker (Taken fiber_30 true)] 0 (a_worker (Taken fiber_30 true)) 40
      (a_worker (InFiber 30)) entered).
Qed.

Lemma scheduler_accounts_witness :
  ∃ dn, [fiber_30] ≡ₚ m_fibers entered ++ ([a_worker (InFiber 30)] ≫= holding) ++ dn
    ∧ Forall2 start_of dn [(2, RunFiber 30)].
Proof.
  destruct (scheduler_accounts [fiber_30] [(2, RunFiber 30)] entered [a_worker (InFiber 30)]) as (dn & H1 & H2 & _).
  - exact entered_reachable.
  - by exists dn.
Defined.

Lemma take_task_first_witness :
  m_fibers (take_task 2 (a_scheduler [mkFT None (Some tt) 1; fiber_30] Fiber.HOLD Fiber.Suspended)).2
  = [mkFT None (Some tt) 1].
Proof.
  destruct (take_task_first 2 (a_scheduler [mkFT None (Some tt) 1; fiber_30] Fiber.HOLD Fiber.Suspended)) as [_|[_ H]].
  - constructor; [split; [done|]; intros f H; discriminate H|]. constructor; [|done].
    split; [done|]. intros f H. injection H as <-. by eexists.
  - by vm_compute.
  - by vm_compute.
Defined.

Lemma switch_and_yield_witness :
  ∃ w1, Fiber.swapIn 2 30 (a_world Fiber.HOLD Fiber.Suspended) = (Ret Fiber.Suspended, w1).
Proof.
  destruct (switch_and_yield 2 30 (an_object Fiber.HOLD Fiber.Suspended) 20 (an_object Fiber.EXEC Fiber.Suspended)
    (a_world Fiber.HOLD Fiber.Suspended)) as (w1 & H & _); [by vm_compute|done|by vm_compute|done|by vm_compute|].
  by exists w1.
Defined.

Lemma ended_fiber_kills_thread_witness :
  ∃ s', run_step 40 (a_worker (Taken fiber_30 true)) (a_scheduler [] Fiber.TERM Fiber.Finished)
        = (Ret (a_worker (Dead true)), s').
Proof.
  destruct (ended_fiber_kills_thread (a_scheduler [] Fiber.TERM Fiber.Finished) (a_worker (Taken fiber_30 true)) 40 30
    (an_object Fiber.TERM Fiber.Finished) 20 (an_object Fiber.EXEC Fiber.Suspended)) as [(s' & H & _) _];
    [done|by vm_compute|done|done|by vm_compute|done|by vm_compute|]. by exists s'.
Defined.

Lemma yield_before_switch_race_witness :
  run_step 40 (a_worker Loop) (a_scheduler [fiber_30] Fiber.EXEC Fiber.Suspended)
  = (Ret (a_worker (Taken empty_task false)), a_scheduler [fiber_30] Fiber.EXEC Fiber.Suspended).
Proof.
  apply (yield_before_switch_race (a_scheduler [fiber_30] Fiber.EXEC Fiber.Suspended)
    (mkWorker 1 (InFiber 30) 11 None) (a_worker Loop) 30 (an_object Fiber.EXEC Fiber.Suspended) 20
    (an_object Fiber.EXEC Fiber.Suspended) 40 0 0); try done; by vm_compute.
Defined.
