(* ===== verification/IOManager.v ===== *)
(** * IOManager (sylar/iomanager.h, sylar/iomanager.cpp): data and operations

    Which events of which descriptors are awaited, by whom, and what becomes of them.  A
    descriptor's [FdContext] is the element of [m_fdContexts] at its number; every operation
    runs under that context's mutex and is one function of the state, except [addEvent] and
    [contextResize], which look the context up under the manager's lock first.  The kernel's
    side is the class [Epoll]; the calling thread's scheduler and fiber are arguments; calls
    of [Scheduler::schedule] are recorded in [scheduled], in order. *)

From S2P Require Import Prelude.

Inductive ctl_op := EPOLL_CTL_ADD | EPOLL_CTL_MOD | EPOLL_CTL_DEL.

Definition EPOLLIN : Z := 1.
Definition EPOLLOUT : Z := 4.
Definition EPOLLERR : Z := 8.
Definition EPOLLHUP : Z := 16.
Definition EPOLLET : Z := 2 ^ 31.

(** An epoll instance: what is registered, and [epoll_ctl] as documented. A call may fail for
    reasons of its own; then nothing changes. *)
Class Epoll := {
  kernel : Type;
  registered : kernel → Z → option Z;
  epoll_ctl : kernel → ctl_op → Z → Z → bool * kernel;
  ctl_failed k op fd ev k' : epoll_ctl k op fd ev = (false, k') → k' = k;
  ctl_done k op fd ev k' :
    epoll_ctl k op fd ev = (true, k') →
    (registered k fd = None ↔ op = EPOLL_CTL_ADD)
    ∧ registered k' fd = (match op with EPOLL_CTL_DEL => None | _ => Some ev end)
    ∧ ∀ fd', fd' ≠ fd → registered k' fd' = registered k fd';
}.

Module IOManager.
Section manager.
Context {Cb : Type} `{Epoll}.

Definition NONE : Z := 0.
Definition READ : Z := 1.
Definition WRITE : Z := 4.

Record EventContext := mkEC {
  scheduler : option Z;
  fiber : option Z;
  cb : option Cb;
}.
Definition empty_context : EventContext := mkEC None None None.

Record FdContext := mkFC {
  read : EventContext;
  write : EventContext;
  events : Z;
}.
Definition new_FdContext : FdContext := mkFC empty_context empty_context NONE.

(** What [schedule] is given. *)
Inductive task := TaskFiber (f : Z) | TaskCb (f : Cb).

Record t := mk {
  m_fdContexts : list FdContext;
  m_pendingEventCount : Z;
  epfd : kernel;
  scheduled : list (Z * task);
}.

Definition set_contexts (v : list FdContext) (s : t) : t :=
  mk v (m_pendingEventCount s) (epfd s) (scheduled s).
Definition set_pending (v : Z) (s : t) : t := mk (m_fdContexts s) v (epfd s) (scheduled s).
Definition set_epfd (v : kernel) (s : t) : t :=
  mk (m_fdContexts s) (m_pendingEventCount s) v (scheduled s).
Definition set_scheduled (v : list (Z * task)) (s : t) : t :=
  mk (m_fdContexts s) (m_pendingEventCount s) (epfd s) v.
Definition set_events (v : Z) (c : FdContext) : FdContext := mkFC (read c) (write c) v.

(** [++m_pendingEventCount] and [--m_pendingEventCount] on an [atomic<size_t>]. *)
Definition inc_pending : ST t unit := modify (fun s => set_pending (u64 (m_pendingEventCount s + 1)) s).
Definition dec_pending : ST t unit := modify (fun s => set_pending (u64 (m_pendingEventCount s - 1)) s).

(** [m_fdContexts[fd]]. *)
Definition context_at (fd : Z) : ST t FdContext := fun s =>
  (if fd <? 0 then Undef else deref (m_fdContexts s !! Z.to_nat fd), s).
Definition assign (fd : Z) (c : FdContext) : ST t unit :=
  modify (fun s => set_contexts (<[Z.to_nat fd := c]> (m_fdContexts s)) s).

(** [epoll_ctl(m_epfd, op, fd, &epevent)]: whether it returned 0. *)
Definition ctl (op : ctl_op) (fd ev : Z) : ST t bool := fun s =>
  let '(ok, k) := epoll_ctl (epfd s) op fd ev in (Ret ok, set_epfd k s).

(** [e & f] as a condition. *)
Definition has (e f : Z) : bool := negb (Z.land e f =? 0).

(** [FdContext::getContext(event)]. *)
Definition getContext (event : Z) (c : FdContext) : outcome EventContext :=
  if event =? READ then Ret (read c)
  else if event =? WRITE then Ret (write c)
  else Abort.
Definition put_context (event : Z) (e : EventContext) (c : FdContext) : FdContext :=
  if event =? READ then mkFC e (write c) (events c) else mkFC (read c) e (events c).

(** [FdContext::resetContext(ctx)]. *)
Definition resetContext (event : Z) (c : FdContext) : FdContext := put_context event empty_context c.

(** [ctx.scheduler->schedule(...)]: an empty task is not queued. *)
Definition schedule (sched : option Z) (w : option task) : ST t unit := fun s =>
  match sched with
  | None => (Undef, s)
  | Some p =>
      (Ret tt, match w with Some w => set_scheduled (scheduled s ++ [(p, w)]) s | None => s end)
  end.

(** [FdContext::triggerEvent(event)]; [schedule] takes the callback or fiber out of the
    context, and the context forgets the scheduler. *)
Definition triggerEvent (fd event : Z) : ST t unit :=
  c ← context_at fd;
  lift (sylar_assert (has (events c) event));;
  let c := set_events (Z.ldiff (events c) event) c in
  ctx ← lift (getContext event c);
  match cb ctx with
  | Some f =>
      schedule (scheduler ctx) (Some (TaskCb f));;
      assign fd (put_context event (mkEC None (fiber ctx) None) c)
  | None =>
      schedule (scheduler ctx) (TaskFiber <$> fiber ctx);;
      assign fd (put_context event (mkEC None None None) c)
  end.

(** [contextResize(size)]. *)
Definition contextResize (size : Z) : ST t unit :=
  modify (fun s =>
    let n := Z.to_nat size in
    set_contexts (take n (m_fdContexts s)
                  ++ replicate (n - length (m_fdContexts s)) new_FdContext) s).

(** The first part of [addEvent], under the manager's lock: whether the vector is long enough,
    and the resize that is done after the lock was dropped and taken again. *)
Definition addEvent_fits (fd : Z) (s : t) : bool := fd <? s32 (Z.of_nat (length (m_fdContexts s))).
Definition addEvent_resize (fd : Z) : ST t unit := contextResize (fd * 3 / 2).

(** The rest, under the context's mutex. [this_fiber] is the calling fiber, [exec] whether its
    state is [EXEC]. *)
Definition addEvent_locked (this_scheduler : option Z) (this_fiber : Z) (exec : bool)
    (fd event : Z) (f : option Cb) : ST t Z :=
  c ← context_at fd;
  lift (sylar_assert (negb (has (events c) event)));;
  let op := if events c =? 0 then EPOLL_CTL_ADD else EPOLL_CTL_MOD in
  ok ← ctl op fd (Z.lor EPOLLET (Z.lor (events c) event));
  if negb ok then mret (-1)
  else
    inc_pending;;
    let c := set_events (Z.lor (events c) event) c in
    assign fd c;;
    ctx ← lift (getContext event c);
    lift (sylar_assert (bool_decide (scheduler ctx = None) && bool_decide (fiber ctx = None)
                        && match cb ctx with None => true | Some _ => false end));;
    match f with
    | Some _ => assign fd (put_context event (mkEC this_scheduler (fiber ctx) f) c);; mret 0
    | None =>
        lift (sylar_assert exec);;
        assign fd (put_context event (mkEC this_scheduler (Some this_fiber) (cb ctx)) c);;
        mret 0
    end.

Definition addEvent (this_scheduler : option Z) (this_fiber : Z) (exec : bool)
    (fd event : Z) (f : option Cb) : ST t Z :=
  fits ← gets (addEvent_fits fd);
  (if (fits : bool) then mret tt else addEvent_resize fd);;
  addEvent_locked this_scheduler this_fiber exec fd event f.

(** [!fd_ctx->events & event]: the negation binds tighter than the conjunction. *)
Definition not_events_and (c : FdContext) (event : Z) : bool :=
  has (if events c =? 0 then 1 else 0) event.

(** [delEvent(fd, event)]. *)
Definition delEvent (fd event : Z) : ST t bool :=
  fits ← gets (addEvent_fits fd);
  if negb (fits : bool) then mret false
  else
    c ← context_at fd;
    if not_events_and c event then mret false
    else
      let new_events := Z.ldiff (events c) event in
      let op := if new_events =? 0 then EPOLL_CTL_DEL else EPOLL_CTL_MOD in
      ok ← ctl op fd (Z.lor EPOLLET new_events);
      if negb ok then mret false
      else
        dec_pending;;
        let c := set_events new_events c in
        assign fd c;;
        ctx ← lift (getContext event c);
        assign fd (resetContext event c);;
        mret true.

(** [cancelEvent(fd, event)]. *)
Definition cancelEvent (fd event : Z) : ST t bool :=
  fits ← gets (addEvent_fits fd);
  if negb (fits : bool) then mret false
  else
    c ← context_at fd;
    if not_events_and c event then mret false
    else
      let new_events := Z.ldiff (events c) event in
      let op := if new_events =? 0 then EPOLL_CTL_DEL else EPOLL_CTL_MOD in
      ok ← ctl op fd (Z.lor EPOLLET new_events);
      if negb ok then mret false
      else
        triggerEvent fd event;;
        dec_pending;;
        mret true.

(** [if (fd_ctx->events & event) { fd_ctx->triggerEvent(event); --m_pendingEventCount; }]. *)
Definition trigger_if_registered (fd event : Z) : ST t unit :=
  c ← context_at fd;
  if has (events c) event then triggerEvent fd event;; dec_pending else mret tt.

(** [cancelAll(fd)]. *)
Definition cancelAll (fd : Z) : ST t bool :=
  fits ← gets (addEvent_fits fd);
  if negb (fits : bool) then mret false
  else
    c ← context_at fd;
    if events c =? 0 then mret false
    else
      ok ← ctl EPOLL_CTL_DEL fd 0;
      if negb ok then mret false
      else
        trigger_if_registered fd READ;;
        trigger_if_registered fd WRITE;;
        c ← context_at fd;
        lift (sylar_assert (events c =? 0));;
        mret true.

(** One descriptor of the loop in [idle] over what [epoll_wait] delivered: [ev] is
    [event.events]. *)
Definition real_events (registered_events ev : Z) : Z :=
  let ev := if has ev (Z.lor EPOLLERR EPOLLHUP)
            then Z.lor ev (Z.land (Z.lor EPOLLIN EPOLLOUT) registered_events) else ev in
  Z.lor (if has ev EPOLLIN then READ else NONE) (if has ev EPOLLOUT then WRITE else NONE).

Definition idle_event (fd ev : Z) : ST t unit :=
  c ← context_at fd;
  let real := real_events (events c) ev in
  if Z.land (events c) real =? NONE then mret tt
  else
    let left_events := Z.ldiff (events c) real in
    let op := if left_events =? 0 then EPOLL_CTL_DEL else EPOLL_CTL_MOD in
    ok ← ctl op fd (Z.lor EPOLLET left_events);
    if negb ok then mret tt
    else
      (if has real READ then triggerEvent fd READ;; dec_pending else mret tt);;
      (if has real WRITE then triggerEvent fd WRITE;; dec_pending else mret tt).

(** [stopping(timeout)], given what the timers and the scheduler answer. *)
Definition stopping (next_timer : Z) (scheduler_stopping : bool) (s : t) : bool :=
  (next_timer =? 2 ^ 64 - 1) && (m_pendingEventCount s =? 0) && scheduler_stopping.

(** The timeout [idle] passes to [epoll_wait]. *)
Definition MAX_TIMEOUT : Z := 3000.
Definition idle_timeout (next_timeout : Z) : Z :=
  let next_timeout :=
    if negb (next_timeout =? 2 ^ 64 - 1)
    then if MAX_TIMEOUT <? s32 next_timeout then MAX_TIMEOUT else next_timeout
    else MAX_TIMEOUT in
  s32 next_timeout.

(** [IOManager(...)]: the vector of contexts, [k] the new epoll instance with the pipe in it. *)
Definition make (k : kernel) : t := mk (replicate 32 new_FdContext) 0 k [].
End manager.
Arguments t Cb {_}.
Arguments task Cb : clear implicits.
Arguments FdContext Cb : clear implicits.
Arguments EventContext Cb : clear implicits.
End IOManager.
