(* ===== verification/IOManagerSpec.v ===== *)
(** * IOManager: invariant

    The bookkeeping invariant of [IOManager] and what each operation does to it. *)

From S2P Require Import Prelude IOManager.
Import IOManager.

Section invariant.
Context {Cb : Type} `{Epoll}.
Implicit Types (s : t Cb) (c : FdContext Cb) (e fd ev : Z).

(** The descriptor of the pipe that wakes [idle] up: it is registered, but not through a
    context. *)
Context (pipe : Z).

Definition context_of s fd : FdContext Cb := default new_FdContext (m_fdContexts s !! Z.to_nat fd).
Definition ctx_of e c : EventContext Cb := if e =? READ then read c else write c.

(** A context that waits, and what it will schedule where. *)
Definition armed (x : EventContext Cb) (p : Z) (w : task Cb) : Prop :=
  x = match w with TaskFiber f => mkEC (Some p) (Some f) None | TaskCb f => mkEC (Some p) None (Some f) end.

Definition event_ok e c : Prop :=
  if has (events c) e then ∃ p w, armed (ctx_of e c) p w else ctx_of e c = empty_context.

Definition context_ok c : Prop :=
  events c ∈ [0; 1; 4; 5] ∧ event_ok READ c ∧ event_ok WRITE c.

Definition count c : Z :=
  (if has (events c) READ then 1 else 0) + (if has (events c) WRITE then 1 else 0).
Definition total (l : list (FdContext Cb)) : Z := foldr (fun c n => count c + n) 0 l.

(** What the kernel should have registered for a context. *)
Definition interest c : option Z :=
  if events c =? 0 then None else Some (Z.lor EPOLLET (events c)).

(** Contexts are consistent, [m_pendingEventCount] is the number of registered events, and the
    kernel's interest set mirrors the contexts. *)
Record inv s : Prop := {
  inv_contexts : Forall context_ok (m_fdContexts s);
  inv_pending : m_pendingEventCount s = total (m_fdContexts s);
  inv_kernel fd : 0 <= fd → fd ≠ pipe → registered (epfd s) fd = interest (context_of s fd);
  inv_size : 32 <= Z.of_nat (length (m_fdContexts s)) < 2 ^ 31;
}.

Definition is_event e : Prop := e = READ ∨ e = WRITE.
Definition other e : Z := if e =? READ then WRITE else READ.

(** ** Events and contexts *)

Lemma context_ok_new : context_ok new_FdContext.
Proof. split; [|split; reflexivity]. vm_compute. left. Qed.

Lemma count_bounds c : 0 <= count c <= 2.
Proof. unfold count. destruct (has _ READ), (has _ WRITE); lia. Qed.

Lemma total_app l1 l2 : total (l1 ++ l2) = total l1 + total l2.
Proof. induction l1 as [|c l1 IH]; simpl; [done|]. rewrite IH. lia. Qed.

Lemma total_bounds l : 0 <= total l <= 2 * Z.of_nat (length l).
Proof.
  induction l as [|c l IH]; [simpl; lia|]. cbn [total foldr length]. fold (total l).
  pose proof (count_bounds c). lia.
Qed.

Lemma total_insert l i c c' :
  l !! i = Some c → total (<[i := c']> l) = total l - count c + count c'.
Proof.
  revert i. induction l as [|d l IH]; intros [|i] Hi; simplify_eq/=; [lia|].
  rewrite (IH i) by done. lia.
Qed.

Lemma total_replicate n : total (replicate n new_FdContext) = 0.
Proof. induction n as [|n IH]; [done|]. simpl. rewrite IH. done. Qed.

(** The cases of a registration mask. *)
Lemma events_cases c :
  context_ok c → events c = 0 ∨ events c = 1 ∨ events c = 4 ∨ events c = 5.
Proof. intros [Hev _]. set_solver. Qed.

Lemma event_ok_of e c : is_event e → context_ok c → event_ok e c.
Proof. by intros [-> | ->] (_ & ? & ?). Qed.

(** Registering [e], and taking it out. *)
Definition arm e (x : EventContext Cb) c : FdContext Cb :=
  put_context e x (set_events (Z.lor (events c) e) c).
Definition disarm e c : FdContext Cb :=
  put_context e empty_context (set_events (Z.ldiff (events c) e) c).

Lemma arm_ok e x p w c :
  is_event e → context_ok c → has (events c) e = false → armed x p w →
  context_ok (arm e x c) ∧ count (arm e x c) = count c + 1.
Proof.
  intros He Hc Hh Hx. pose proof Hc as (_ & Hr & Hw).
  destruct c as [r w' ev]. unfold event_ok, ctx_of in *. simpl in *.
  destruct (events_cases _ Hc) as [E|[E|[E|E]]]; simpl in E; subst ev;
    destruct He as [-> | ->]; try discriminate Hh; unfold context_ok, event_ok, count, ctx_of; simpl;
    (split; [split_and!; [set_solver|..]; eauto|done]).
Qed.

Lemma disarm_ok e c :
  is_event e → context_ok c → has (events c) e = true →
  context_ok (disarm e c) ∧ count (disarm e c) = count c - 1.
Proof.
  intros He Hc Hh. pose proof Hc as (_ & Hr & Hw).
  destruct c as [r w' ev]. unfold event_ok, ctx_of in *. simpl in *.
  destruct (events_cases _ Hc) as [E|[E|[E|E]]]; simpl in E; subst ev;
    destruct He as [-> | ->]; try discriminate Hh; unfold context_ok, event_ok, count, ctx_of; simpl;
    (split; [split_and!; [set_solver|..]; eauto|done]).
Qed.

Lemma events_arm e x c : is_event e → events (arm e x c) = Z.lor (events c) e.
Proof. by intros [-> | ->]. Qed.
Lemma events_disarm e c : is_event e → events (disarm e c) = Z.ldiff (events c) e.
Proof. by intros [-> | ->]. Qed.

Lemma lor_not_zero e c : is_event e → context_ok c → Z.lor (events c) e =? 0 = false.
Proof.
  intros He Hc. destruct (events_cases _ Hc) as [-> |[-> |[-> | ->]]], He as [-> | ->]; done.
Qed.

(** ** Changing one context *)

Lemma lookup_context s fd :
  0 <= fd < Z.of_nat (length (m_fdContexts s)) →
  m_fdContexts s !! Z.to_nat fd = Some (context_of s fd).
Proof.
  intros Hfd. unfold context_of.
  destruct (lookup_lt_is_Some_2 (m_fdContexts s) (Z.to_nat fd)) as [c Hc]; [lia|]. by rewrite Hc.
Qed.

Lemma context_at_ok s fd :
  0 <= fd < Z.of_nat (length (m_fdContexts s)) → context_at fd s = (Ret (context_of s fd), s).
Proof.
  intros Hfd. unfold context_at. rewrite (proj2 (Z.ltb_ge _ _)), lookup_context by lia. done.
Qed.

Lemma inv_context s fd : inv s → context_ok (context_of s fd).
Proof.
  intros Hinv. unfold context_of. destruct (_ !! _) as [c|] eqn:E; [|apply context_ok_new].
  pose proof (inv_contexts _ Hinv) as Hf. rewrite Forall_lookup in Hf. by eapply Hf.
Qed.

Lemma inv_update s fd c' p' k' q' :
  inv s → 0 <= fd < Z.of_nat (length (m_fdContexts s)) → fd ≠ pipe → context_ok c' →
  p' = m_pendingEventCount s - count (context_of s fd) + count c' →
  registered k' fd = interest c' →
  (∀ fd', fd' ≠ fd → registered k' fd' = registered (epfd s) fd') →
  inv (mk (<[Z.to_nat fd := c']> (m_fdContexts s)) p' k' q').
Proof.
  intros [Hc Hp Hk Hs] Hfd Hpipe Hc' -> Hreg Hoth. pose proof (lookup_context s fd Hfd) as Hl.
  split; cbn [m_fdContexts m_pendingEventCount epfd].
  - by apply Forall_insert.
  - rewrite (total_insert _ _ _ _ Hl). lia.
  - intros fd' Hfd' Hp'. unfold context_of. cbn [m_fdContexts].
    destruct (decide (fd' = fd)) as [->|Hne].
    + rewrite list_lookup_insert_eq by lia. done.
    + rewrite list_lookup_insert_ne by lia. rewrite Hoth by done. by apply Hk.
  - by rewrite length_insert.
Qed.

(** ** Single operations *)

(** A valid target: a context of the vector that is not the pipe's. *)
Definition in_range s fd : Prop :=
  0 <= fd < Z.of_nat (length (m_fdContexts s)) ∧ fd ≠ pipe.

Definition with_context s fd c' p' k' q' : t Cb :=
  mk (<[Z.to_nat fd := c']> (m_fdContexts s)) p' k' q'.

Lemma set_epfd_same s : set_epfd (epfd s) s = s.
Proof. by destruct s. Qed.

Lemma ctl_cases s op fd ev :
  (ctl op fd ev s = (Ret false, s))
  ∨ ∃ k', ctl op fd ev s = (Ret true, set_epfd k' s)
    ∧ (registered (epfd s) fd = None ↔ op = EPOLL_CTL_ADD)
    ∧ registered k' fd = (match op with EPOLL_CTL_DEL => None | _ => Some ev end)
    ∧ ∀ fd', fd' ≠ fd → registered k' fd' = registered (epfd s) fd'.
Proof.
  unfold ctl. destruct (epoll_ctl (epfd s) op fd ev) as [[] k'] eqn:E.
  - right. exists k'. split; [done|]. by eapply ctl_done.
  - left. apply ctl_failed in E as ->. by rewrite set_epfd_same.
Qed.

Lemma pending_bounds s :
  inv s → 0 <= m_pendingEventCount s < 2 ^ 33.
Proof.
  intros Hinv. rewrite (inv_pending _ Hinv).
  pose proof (total_bounds (m_fdContexts s)). pose proof (inv_size _ Hinv). lia.
Qed.

Lemma count_le_total s fd : inv s → in_range s fd → count (context_of s fd) <= m_pendingEventCount s.
Proof.
  intros Hinv [Hfd _]. rewrite (inv_pending _ Hinv).
  pose proof (total_insert _ _ _ new_FdContext (lookup_context s fd Hfd)) as Ht.
  pose proof (total_bounds (<[Z.to_nat fd:=new_FdContext]> (m_fdContexts s))).
  change (count new_FdContext) with 0 in Ht. lia.
Qed.

Lemma put_put e x y c : is_event e → put_context e x (put_context e y c) = put_context e x c.
Proof. by intros [-> | ->]. Qed.

Lemma getContext_ok e c : is_event e → getContext e c = Ret (ctx_of e c).
Proof. by intros [-> | ->]. Qed.

Lemma ctx_of_set_events e v c : ctx_of e (set_events v c) = ctx_of e c.
Proof. done. Qed.

Lemma list_insert_twice {A} (l : list A) i x y : <[i := x]> (<[i := y]> l) = <[i := x]> l.
Proof. apply list_insert_insert_eq. Qed.

Lemma triggerEvent_ok s fd e p w :
  in_range s fd → is_event e → has (events (context_of s fd)) e = true →
  armed (ctx_of e (context_of s fd)) p w →
  triggerEvent fd e s
  = (Ret tt, with_context s fd (disarm e (context_of s fd)) (m_pendingEventCount s) (epfd s)
               (scheduled s ++ [(p, w)])).
Proof.
  intros [Hfd _] He Hh Ha. unfold triggerEvent. st_run (by apply context_at_ok).
  set (c := context_of s fd) in *. st_run (by rewrite Hh). cbv zeta.
  st_run (by rewrite getContext_ok). rewrite ctx_of_set_events, Ha.
  unfold disarm. destruct w as [f|f]; cbn [cb scheduler fiber fmap option_fmap option_map];
    st_run reflexivity; done.
Qed.

Lemma interest_arm e x c :
  is_event e → context_ok c → interest (arm e x c) = Some (Z.lor EPOLLET (Z.lor (events c) e)).
Proof. intros He Hc. unfold interest. by rewrite events_arm, lor_not_zero. Qed.

Lemma interest_disarm e c :
  is_event e →
  interest (disarm e c) = if Z.ldiff (events c) e =? 0 then None
    else Some (Z.lor EPOLLET (Z.ldiff (events c) e)).
Proof. intros He. unfold interest. by rewrite events_disarm. Qed.

(** What a thread awaits when it registers itself or a callback. *)
Definition awaited (this_fiber : Z) (f : option Cb) : task Cb :=
  match f with Some f => TaskCb f | None => TaskFiber this_fiber end.
Definition armed_context (p : Z) (w : task Cb) : EventContext Cb :=
  match w with TaskFiber f => mkEC (Some p) (Some f) None | TaskCb f => mkEC (Some p) None (Some f) end.

Lemma addEvent_locked_ok s p this_fiber fd e f :
  inv s → in_range s fd → is_event e →
  let c := context_of s fd in
  let r := addEvent_locked (Some p) this_fiber true fd e f s in
  if has (events c) e then r = (Abort, s)
  else r = (Ret (-1), s)
    ∨ ∃ k', r = (Ret 0, with_context s fd (arm e (armed_context p (awaited this_fiber f)) c)
                         (m_pendingEventCount s + 1) k' (scheduled s))
      ∧ inv r.2.
Proof.
  intros Hinv Hr He c r. pose proof Hr as [Hfd Hp].
  destruct (has (events c) e) eqn:Hh.
  { unfold r, addEvent_locked. st_run (by apply context_at_ok).
    unfold mbind, st_bind, lift. fold c. by rewrite Hh. }
  pose proof (inv_context s fd Hinv) as Hc. fold c in Hc.
  assert (ctx_of e c = empty_context) as Hempty.
  { pose proof (event_ok_of e c He Hc) as H1. unfold event_ok in H1. by rewrite Hh in H1. }
  set (op := if events c =? 0 then EPOLL_CTL_ADD else EPOLL_CTL_MOD).
  set (ev := Z.lor EPOLLET (Z.lor (events c) e)).
  destruct (ctl_cases s op fd ev) as [E | (k' & E & Hadd & Hreg & Hoth)].
  { left. unfold r, addEvent_locked. st_run (by apply context_at_ok). fold c.
    st_run (by rewrite Hh). by st_run exact E. }
  right. exists k'. pose proof (pending_bounds s Hinv).
  assert (r = (Ret 0, with_context s fd (arm e (armed_context p (awaited this_fiber f)) c)
              (m_pendingEventCount s + 1) k' (scheduled s))) as ->.
  { unfold r, addEvent_locked. st_run (by apply context_at_ok). fold c. st_run (by rewrite Hh).
    fold op. fold ev. st_run exact E. cbn [negb]. do 2 st_run reflexivity.
    st_run (by rewrite getContext_ok). rewrite ctx_of_set_events, Hempty.
    st_run reflexivity. unfold with_context, arm.
    rewrite <- (uwrap_small 64 (m_pendingEventCount s + 1)) by (unfold fits_u; lia).
    destruct f as [f|]; [st_run reflexivity|do 2 st_run reflexivity];
      unfold mret, st_ret, set_contexts, set_pending;
      cbn [m_fdContexts m_pendingEventCount epfd scheduled set_epfd]; by rewrite list_insert_twice. }
  split; [done|]. set (w := awaited this_fiber f).
  destruct (arm_ok e (armed_context p w) p w c He Hc Hh) as [Hok Hcount]; [by destruct w|].
  apply inv_update; try done; [fold c; lia|].
  rewrite interest_arm, Hreg by done. unfold op. by destruct (events c =? 0).
Qed.

(** The kernel call of the three removers. *)
Lemma remove_ctl_cases s fd e :
  let c := context_of s fd in
  let new_events := Z.ldiff (events c) e in
  let op := if new_events =? 0 then EPOLL_CTL_DEL else EPOLL_CTL_MOD in
  is_event e →
  ctl op fd (Z.lor EPOLLET new_events) s = (Ret false, s)
  ∨ ∃ k', ctl op fd (Z.lor EPOLLET new_events) s = (Ret true, set_epfd k' s)
    ∧ registered (epfd s) fd ≠ None ∧ registered k' fd = interest (disarm e c)
    ∧ ∀ fd', fd' ≠ fd → registered k' fd' = registered (epfd s) fd'.
Proof.
  intros c new_events op He.
  destruct (ctl_cases s op fd (Z.lor EPOLLET new_events)) as [E|(k' & E & Hadd & Hreg & Hoth)];
    [by left|right].
  exists k'. split_and!; [done| | |done].
  - intros Hn%Hadd. unfold op in Hn. by destruct (new_events =? 0).
  - rewrite interest_disarm, Hreg by done. unfold op. fold new_events.
    by destruct (new_events =? 0).
Qed.

Lemma not_events_and_registered e c :
  is_event e → context_ok c → has (events c) e = true → not_events_and c e = false.
Proof.
  intros He Hc Hh. unfold not_events_and.
  destruct (events_cases _ Hc) as [E|[E|[E|E]]]; rewrite E in *;
    destruct He as [-> | ->]; done.
Qed.

Lemma fits_in_range s fd : inv s → in_range s fd → addEvent_fits fd s = true.
Proof.
  intros Hinv [Hfd _]. unfold addEvent_fits. pose proof (inv_size _ Hinv).
  rewrite swrap_small by (unfold fits_s; lia). apply Z.ltb_lt. lia.
Qed.

(** Taking out a registered event. *)
Lemma delEvent_registered s fd e :
  inv s → in_range s fd → is_event e → has (events (context_of s fd)) e = true →
  let r := delEvent fd e s in
  r = (Ret false, s)
  ∨ ∃ k', r = (Ret true, with_context s fd (disarm e (context_of s fd))
                (m_pendingEventCount s - 1) k' (scheduled s))
    ∧ inv r.2.
Proof.
  intros Hinv Hr He Hh r. set (c := context_of s fd) in *. pose proof Hr as [Hfd Hp].
  pose proof (inv_context s fd Hinv) as Hc. fold c in Hc.
  pose proof (not_events_and_registered e c He Hc Hh) as Hn.
  assert (r = (ok ← ctl (if Z.ldiff (events c) e =? 0 then EPOLL_CTL_DEL else EPOLL_CTL_MOD) fd
      (Z.lor EPOLLET (Z.ldiff (events c) e));
    if negb ok then mret false else
      dec_pending;; assign fd (set_events (Z.ldiff (events c) e) c);;
      ctx ← lift (getContext e (set_events (Z.ldiff (events c) e) c));
      assign fd (resetContext e (set_events (Z.ldiff (events c) e) c));; mret true) s) as ->.
  { unfold r, delEvent. st_run reflexivity. rewrite fits_in_range by done. cbn [negb].
    st_run (by apply context_at_ok). fold c. by rewrite Hn. }
  destruct (remove_ctl_cases s fd e He) as [E|(k' & E & Hreg0 & Hreg & Hoth)]; fold c in E.
  { left. by st_run exact E. }
  right. exists k'. pose proof (pending_bounds s Hinv). fold c in Hreg.
  destruct (disarm_ok e c He Hc Hh) as [Hok Hcount]. pose proof (count_bounds (disarm e c)).
  pose proof (count_le_total s fd Hinv Hr). fold c in H2.
  match goal with |- ?x = _ ∧ _ => assert (x = (Ret true, with_context s fd (disarm e c)
    (m_pendingEventCount s - 1) k' (scheduled s))) as -> end.
  { st_run exact E. cbn [negb]. do 2 st_run reflexivity. st_run (by rewrite getContext_ok).
    st_run reflexivity. unfold mret, st_ret, with_context, set_contexts, set_pending.
    cbn [m_fdContexts m_pendingEventCount epfd scheduled set_epfd].
    by rewrite list_insert_twice, uwrap_small by (unfold fits_u; lia). }
  split; [done|]. apply inv_update; try done. fold c. lia.
Qed.

Lemma registered_armed s fd e :
  inv s → is_event e → has (events (context_of s fd)) e = true →
  ∃ p w, armed (ctx_of e (context_of s fd)) p w.
Proof.
  intros Hinv He Hh. pose proof (event_ok_of e _ He (inv_context s fd Hinv)) as H1.
  unfold event_ok in H1. by rewrite Hh in H1.
Qed.

Lemma context_of_with s fd c' p' k' q' :
  in_range s fd → context_of (with_context s fd c' p' k' q') fd = c'.
Proof. intros [Hfd _]. unfold context_of. cbn. by rewrite list_lookup_insert_eq by lia. Qed.

Lemma in_range_with s fd c' p' k' q' fd' :
  in_range s fd' → in_range (with_context s fd c' p' k' q') fd'.
Proof. unfold in_range. cbn. by rewrite length_insert. Qed.

Lemma with_with s fd c1 p1 k1 q1 c2 p2 k2 q2 :
  with_context (with_context s fd c1 p1 k1 q1) fd c2 p2 k2 q2 = with_context s fd c2 p2 k2 q2.
Proof. unfold with_context. cbn. by rewrite list_insert_twice. Qed.

(** [triggerEvent] and the decrement that always follows it. *)
Lemma trigger_dec_ok s fd e p w {A} (m : ST (t Cb) A) :
  in_range s fd → is_event e → has (events (context_of s fd)) e = true →
  armed (ctx_of e (context_of s fd)) p w → 1 <= m_pendingEventCount s < 2 ^ 64 →
  (triggerEvent fd e;; dec_pending;; m) s
  = m (with_context s fd (disarm e (context_of s fd)) (m_pendingEventCount s - 1) (epfd s)
         (scheduled s ++ [(p, w)])).
Proof.
  intros Hr He Hh Ha Hp. st_run (by eapply triggerEvent_ok). st_run reflexivity.
  unfold set_pending. cbn. by rewrite uwrap_small by (unfold fits_u; lia).
Qed.

(** Both removers, up to the kernel call. *)
Definition after_ctl (fd e : Z) c (k : ST (t Cb) bool) : ST (t Cb) bool :=
  ok ← ctl (if Z.ldiff (events c) e =? 0 then EPOLL_CTL_DEL else EPOLL_CTL_MOD) fd
         (Z.lor EPOLLET (Z.ldiff (events c) e));
  if negb ok then mret false else k.

Lemma cancelEvent_unfold s fd e :
  inv s → in_range s fd → not_events_and (context_of s fd) e = false →
  cancelEvent fd e s
  = after_ctl fd e (context_of s fd) (triggerEvent fd e;; dec_pending;; mret true) s.
Proof.
  intros Hinv Hr Hn. unfold cancelEvent. st_run reflexivity.
  rewrite fits_in_range by done. cbn [negb]. destruct Hr as [Hfd _].
  st_run (by apply context_at_ok). by rewrite Hn.
Qed.

Lemma cancelEvent_registered s fd e p w :
  inv s → in_range s fd → is_event e → has (events (context_of s fd)) e = true →
  armed (ctx_of e (context_of s fd)) p w →
  let r := cancelEvent fd e s in
  r = (Ret false, s)
  ∨ ∃ k', r = (Ret true, with_context s fd (disarm e (context_of s fd))
                (m_pendingEventCount s - 1) k' (scheduled s ++ [(p, w)]))
    ∧ inv r.2.
Proof.
  intros Hinv Hr He Hh Ha r. set (c := context_of s fd) in *.
  pose proof (inv_context s fd Hinv) as Hc. fold c in Hc.
  unfold r. rewrite cancelEvent_unfold by eauto using not_events_and_registered. fold c.
  unfold after_ctl.
  destruct (remove_ctl_cases s fd e He) as [E|(k' & E & Hreg0 & Hreg & Hoth)]; fold c in E.
  { left. by st_run exact E. }
  right. exists k'. pose proof (pending_bounds s Hinv) as Hb. fold c in Hreg.
  destruct (disarm_ok e c He Hc Hh) as [Hok Hcount]. pose proof (count_bounds (disarm e c)).
  pose proof (count_le_total s fd Hinv Hr) as Hle. fold c in Hle.
  match goal with |- ?x = _ ∧ _ => assert (x = (Ret true, with_context s fd (disarm e c)
    (m_pendingEventCount s - 1) k' (scheduled s ++ [(p, w)]))) as -> end.
  { st_run exact E. cbn [negb].
    rewrite (trigger_dec_ok (set_epfd k' s) fd e p w) by (done || (cbn; lia)). done. }
  split; [done|]. destruct Hr as [Hfd Hpipe]. apply inv_update; try done. fold c. lia.
Qed.

(** An idle context: both removers refuse. For [READ] because of the guard, for [WRITE] because
    the kernel knows nothing of the descriptor. *)
Lemma remove_idle s fd e :
  inv s → in_range s fd → is_event e → events (context_of s fd) = 0 →
  delEvent fd e s = (Ret false, s) ∧ cancelEvent fd e s = (Ret false, s).
Proof.
  intros Hinv Hr He Hz. pose proof Hr as [Hfd Hp].
  pose proof (fits_in_range s fd Hinv Hr) as Hfit.
  assert (registered (epfd s) fd = None) as Hnone.
  { rewrite (inv_kernel _ Hinv) by (done || lia). unfold interest. by rewrite Hz. }
  destruct (not_events_and (context_of s fd) e) eqn:Hn.
  - unfold delEvent, cancelEvent. split; st_run reflexivity; rewrite Hfit; cbn [negb];
      st_run (by apply context_at_ok); by rewrite Hn.
  - destruct (remove_ctl_cases s fd e He) as [E|(k' & _ & Hreg0 & _)]; [|done].
    unfold delEvent, cancelEvent.
    split; st_run reflexivity; rewrite Hfit; cbn [negb]; st_run (by apply context_at_ok);
      rewrite Hn; cbv zeta; by st_run exact E.
Qed.

(** A context that is not in the vector. *)
Lemma remove_out_of_range s fd e :
  inv s → Z.of_nat (length (m_fdContexts s)) <= fd →
  delEvent fd e s = (Ret false, s) ∧ cancelEvent fd e s = (Ret false, s)
  ∧ cancelAll fd s = (Ret false, s).
Proof.
  intros Hinv Hfd. assert (addEvent_fits fd s = false) as Hfit.
  { unfold addEvent_fits. pose proof (inv_size _ Hinv).
    rewrite swrap_small by (unfold fits_s; lia). by apply Z.ltb_ge. }
  unfold delEvent, cancelEvent, cancelAll. split_and!; st_run reflexivity; by rewrite Hfit.
Qed.
End invariant.
