(* ===== verification/IOManagerSteps.v ===== *)
(** * IOManager: waiters, masks of events, growth

    What is waiting in a context, how [cancelAll] and [idle] take several events out at once,
    and how [addEvent] lengthens the vector of contexts. *)

From S2P Require Import Prelude IOManager IOManagerSpec.
Import IOManager.

Section steps.
Context {Cb : Type} `{Epoll}.
Implicit Types (s : t Cb) (c : FdContext Cb) (e fd ev real : Z).
Context (pipe : Z).

(** ** Waiters *)

(** Who waits for an event, and where it is to run. *)
Definition waiting e c : list (Z * task Cb) :=
  match ctx_of e c with
  | mkEC (Some p) _ (Some f) => [(p, TaskCb f)]
  | mkEC (Some p) (Some f) None => [(p, TaskFiber f)]
  | _ => []
  end.
Definition context_waiters c : list (Z * task Cb) := waiting READ c ++ waiting WRITE c.
Definition waiters s : list (Z * task Cb) := m_fdContexts s ≫= context_waiters.

Lemma waiting_armed e c p w : armed (ctx_of e c) p w → waiting e c = [(p, w)].
Proof. unfold waiting, armed. intros ->. by destruct w. Qed.

Lemma waiting_count c : context_ok c → Z.of_nat (length (context_waiters c)) = count c.
Proof.
  intros (_ & Hr & Hw). unfold context_waiters, count, event_ok in *. rewrite length_app.
  destruct (has (events c) READ), (has (events c) WRITE);
    repeat match goal with H : ∃ _, _ |- _ => destruct H as (? & ? & H%waiting_armed) end;
    rewrite ?Hr, ?Hw; try done; unfold waiting; rewrite ?Hr, ?Hw; done.
Qed.

Lemma waiting_other_put e e' x c :
  is_event e → is_event e' → e ≠ e' → waiting e (put_context e' x c) = waiting e c.
Proof. by intros [-> | ->] [-> | ->]. Qed.

Lemma waiters_bind l1 l2 : (l1 ++ l2) ≫= context_waiters = (l1 ≫= context_waiters) ++ (l2 ≫= context_waiters).
Proof. apply bind_app. Qed.

Lemma waiters_insert (l : list (FdContext Cb)) i c c' :
  l !! i = Some c →
  context_waiters c' ++ (l ≫= context_waiters)
  ≡ₚ context_waiters c ++ (<[i := c']> l ≫= context_waiters).
Proof.
  revert i. induction l as [|d l IH]; intros [|i] Hi; simplify_eq/=; [solve_Permutation|].
  rewrite (Permutation_app_swap_app (context_waiters c')), IH by done. solve_Permutation.
Qed.

(** ** Masks *)

Definition disarm_mask real c : FdContext Cb :=
  let c := if has real READ then disarm READ c else c in
  if has real WRITE then disarm WRITE c else c.
Definition waiting_mask real c : list (Z * task Cb) :=
  (if has real READ then waiting READ c else []) ++ (if has real WRITE then waiting WRITE c else []).

(** A set of events that are all registered. *)
Definition sub_mask real c : Prop := real ∈ [0; 1; 4; 5] ∧ Z.land (events c) real = real.

Lemma disarm_mask_ok real c :
  context_ok c → sub_mask real c →
  context_ok (disarm_mask real c) ∧ events (disarm_mask real c) = Z.ldiff (events c) real
  ∧ context_waiters c ≡ₚ waiting_mask real c ++ context_waiters (disarm_mask real c).
Proof.
  intros Hc [Hreal Hsub]. pose proof Hc as (_ & Hr & Hw).
  destruct c as [r w ev]. unfold event_ok, ctx_of in *. simpl in *.
  unfold context_waiters, waiting_mask, context_ok, event_ok.
  assert (real = 0 ∨ real = 1 ∨ real = 4 ∨ real = 5) as Hreal' by set_solver.
  destruct (events_cases _ Hc) as [E|[E|[E|E]]]; simpl in E; subst ev;
    destruct Hreal' as [-> |[-> |[-> | ->]]]; try discriminate Hsub; simpl;
    (split_and!; [set_solver|by eauto|by eauto|done|]); unfold waiting, ctx_of; simpl in *;
    repeat match goal with H : ∃ _, _ |- _ => destruct H as (? & [] & H) end; unfold armed in *;
    rewrite ?Hr, ?Hw; simpl; rewrite ?app_nil_r; solve_Permutation.
Qed.

Lemma sub_mask_registered real c e :
  is_event e → sub_mask real c → has real e = true → has (events c) e = true.
Proof.
  intros He [Hreal Hsub] Hh. unfold has in *. rewrite <- Hsub in Hh.
  destruct (Z.land (events c) e =? 0) eqn:E; [|done]. apply Z.eqb_eq in E.
  rewrite <- Z.land_assoc, (Z.land_comm real), Z.land_assoc, E in Hh. done.
Qed.

(** One conditional trigger. *)
Definition trigger_opt (b : bool) fd e : ST (t Cb) unit :=
  if b then triggerEvent fd e;; dec_pending else mret tt.

Lemma trigger_opt_ok s fd e b :
  in_range pipe s fd → is_event e → context_ok (context_of s fd) →
  (b = true → has (events (context_of s fd)) e = true) →
  count (context_of s fd) <= m_pendingEventCount s < 2 ^ 64 →
  let c := context_of s fd in
  trigger_opt b fd e s
  = (Ret tt, with_context s fd (if b then disarm e c else c)
       (m_pendingEventCount s - (if b then 1 else 0)) (epfd s)
       (scheduled s ++ if b then waiting e c else [])).
Proof.
  intros Hr He Hc Hb Hp c. unfold trigger_opt. destruct b.
  - specialize (Hb eq_refl). pose proof (event_ok_of e c He Hc) as Hok. unfold event_ok in Hok.
    fold c in Hb. rewrite Hb in Hok. destruct Hok as (p & w & Ha).
    destruct (disarm_ok e c He Hc Hb) as [_ Hcnt]. pose proof (count_bounds (disarm e c)).
    change (triggerEvent fd e;; dec_pending)
      with (triggerEvent fd e;; (dec_pending : ST (t Cb) unit)).
    st_run (by eapply triggerEvent_ok). rewrite (waiting_armed e c p w Ha).
    unfold dec_pending, modify, set_pending. cbn.
    rewrite uwrap_small by (unfold fits_u; unfold c in *; lia). done.
  - unfold mret, st_ret, with_context. rewrite Z.sub_0_r, app_nil_r. destruct Hr as [Hfd _].
    rewrite list_insert_id by (apply lookup_context; lia). by destruct s.
Qed.

(** What a successful removal of a set of events leaves, when the kernel was told. *)
Definition fired_state s fd real k' : t Cb :=
  let c := context_of s fd in
  with_context s fd (disarm_mask real c) (m_pendingEventCount s - count c + count (disarm_mask real c))
    k' (scheduled s ++ waiting_mask real c).

(** The state after the first and after the second of two triggers. *)
Definition first_context real c : FdContext Cb := if has real READ then disarm READ c else c.
Definition first_state s fd real : t Cb :=
  let c := context_of s fd in
  with_context s fd (first_context real c) (m_pendingEventCount s - (if has real READ then 1 else 0))
    (epfd s) (scheduled s ++ if has real READ then waiting READ c else []).

Lemma first_context_ok real c :
  context_ok c → sub_mask real c →
  let c1 := first_context real c in
  context_ok c1 ∧ count c1 = count c - (if has real READ then 1 else 0)
  ∧ has (events c1) WRITE = has (events c) WRITE ∧ waiting WRITE c1 = waiting WRITE c.
Proof.
  intros Hc Hsub. unfold first_context. cbn zeta.
  destruct (has real READ) eqn:E; [|split_and!; [done|lia|done..]].
  destruct (disarm_ok READ c (or_introl eq_refl) Hc) as [? ->].
  { by apply (sub_mask_registered real); [left|..]. }
  split_and!; [done..| |done]. rewrite events_disarm by by left.
  by destruct (events_cases c Hc) as [-> |[-> |[-> | ->]]].
Qed.

Lemma trigger_two s fd real :
  in_range pipe s fd → context_ok (context_of s fd) → sub_mask real (context_of s fd) →
  count (context_of s fd) <= m_pendingEventCount s < 2 ^ 64 →
  let s1 := first_state s fd real in
  trigger_opt (has real READ) fd READ s = (Ret tt, s1)
  ∧ trigger_opt (has real WRITE) fd WRITE s1 = (Ret tt, fired_state s fd real (epfd s))
  ∧ in_range pipe s1 fd ∧ context_of s1 fd = first_context real (context_of s fd).
Proof.
  intros Hr Hc Hsub Hp s1.
  assert (in_range pipe s1 fd) as Hr1 by by apply in_range_with.
  assert (context_of s1 fd = first_context real (context_of s fd)) as Hc1
    by by eapply context_of_with.
  set (c := context_of s fd) in *.
  pose proof (λ Hh, sub_mask_registered real c READ (or_introl eq_refl) Hsub Hh) as HR.
  pose proof (λ Hh, sub_mask_registered real c WRITE (or_intror eq_refl) Hsub Hh) as HW.
  destruct (first_context_ok real c Hc Hsub) as (H1 & H2 & H3 & H4).
  pose proof (count_bounds (first_context real c)) as Hb1.
  split_and!; [|  |done..].
  { apply trigger_opt_ok; try done. by left. }
  rewrite (trigger_opt_ok s1 fd WRITE (has real WRITE)); rewrite ?Hc1; try done.
  - unfold s1, first_state, fired_state. fold c. rewrite with_with. cbn.
    rewrite <- app_assoc, H4.
    assert (count (disarm_mask real c) = count (first_context real c) - (if has real WRITE then 1 else 0)) as Hd.
    { unfold disarm_mask. fold (first_context real c). destruct (has real WRITE) eqn:E; [|lia].
      destruct (disarm_ok WRITE _ (or_intror eq_refl) H1) as [_ ->]; [by rewrite H3, HW|done]. }
    rewrite Hd, H2. unfold disarm_mask. repeat f_equal. lia.
  - by right.
  - by rewrite H3.
  - cbn. fold c. rewrite H2. destruct (has real READ); lia.
Qed.

Lemma trigger_if_registered_opt s fd e :
  in_range pipe s fd →
  trigger_if_registered fd e s = trigger_opt (has (events (context_of s fd)) e) fd e s.
Proof.
  intros [Hfd _]. unfold trigger_if_registered, trigger_opt. st_run (by apply context_at_ok).
  by destruct (has _ e).
Qed.

Lemma fired_state_inv s fd real k' :
  inv pipe s → in_range pipe s fd → sub_mask real (context_of s fd) →
  registered k' fd = interest (disarm_mask real (context_of s fd)) →
  (∀ fd', fd' ≠ fd → registered k' fd' = registered (epfd s) fd') →
  inv pipe (fired_state s fd real k').
Proof.
  intros Hinv [Hfd Hp] Hsub Hreg Hoth. apply inv_update; try done.
  by apply disarm_mask_ok; [eapply inv_context|].
Qed.

Lemma interest_disarm_mask real c :
  context_ok c → sub_mask real c →
  interest (disarm_mask real c) = if Z.ldiff (events c) real =? 0 then None
    else Some (Z.lor EPOLLET (Z.ldiff (events c) real)).
Proof. intros Hc Hs. unfold interest. by rewrite (proj1 (proj2 (disarm_mask_ok real c Hc Hs))). Qed.

Lemma sub_mask_all c : context_ok c → sub_mask (events c) c.
Proof. intros [He _]. split; [done|]. apply Z.land_diag. Qed.

Lemma cancelAll_ok s fd :
  inv pipe s → in_range pipe s fd → 
  let c := context_of s fd in
  let r := cancelAll fd s in
  if events c =? 0 then r = (Ret false, s)
  else r = (Ret false, s)
    ∨ ∃ k', r = (Ret true, fired_state s fd (events c) k')
      ∧ events (disarm_mask (events c) c) = 0 ∧ inv pipe r.2.
Proof.
  intros Hinv Hr c r. pose proof Hr as [Hfd Hpipe].
  assert (r = (if events c =? 0 then mret false else
      ok ← ctl EPOLL_CTL_DEL fd 0;
      if negb ok then mret false else
        trigger_if_registered fd READ;; trigger_if_registered fd WRITE;;
        c ← context_at fd; lift (sylar_assert (events c =? 0));; mret true) s) as ->.
  { unfold r, cancelAll. st_run reflexivity. rewrite (fits_in_range pipe) by done. cbn [negb].
    by st_run (by apply context_at_ok). }
  destruct (events c =? 0) eqn:Hz; [done|].
  destruct (ctl_cases s EPOLL_CTL_DEL fd 0) as [E|(k' & E & Hadd & Hreg & Hoth)];
    [left; by st_run exact E|right; exists k'].
  pose proof (inv_context pipe s fd Hinv) as Hc. fold c in Hc.
  pose proof (sub_mask_all c Hc) as Hsub.
  destruct (disarm_mask_ok _ c Hc Hsub) as (_ & Hev & _). rewrite Z.ldiff_diag in Hev.
  pose proof (pending_bounds pipe s Hinv). pose proof (count_le_total pipe s fd Hinv Hr) as Hle. fold c in Hle.
  match goal with |- ?x = _ ∧ _ => assert (x = (Ret true, fired_state s fd (events c) k')) as -> end.
  { st_run exact E. cbn [negb].
    destruct (trigger_two (set_epfd k' s) fd (events c)) as (H1 & H2 & H3 & H4);
      [done|done|done|change (count c <= m_pendingEventCount s < 2 ^ 64); lia|].
    destruct (first_context_ok (events c) c Hc Hsub) as (_ & _ & H5 & _).
    st_run exact (eq_trans (trigger_if_registered_opt (set_epfd k' s) fd READ Hr) H1).
    assert (trigger_if_registered fd WRITE (first_state (set_epfd k' s) fd (events c))
      = (Ret tt, fired_state s fd (events c) k')) as T2.
    { rewrite trigger_if_registered_opt, H4 by done.
      change (context_of (set_epfd k' s) fd) with c. rewrite H5. exact H2. }
    st_run exact T2.
    assert (in_range pipe (fired_state s fd (events c) k') fd) as [Hfd' _] by by apply in_range_with.
    st_run exact (context_at_ok (fired_state s fd (events c) k') fd Hfd').
    unfold fired_state at 1. fold c. rewrite (context_of_with pipe) by done.
    st_run (by rewrite Hev). done. }
  split; [done|]. split; [done|]. apply fired_state_inv; try done.
  fold c. rewrite interest_disarm_mask, Z.ldiff_diag by done. done.
Qed.

(** ** [idle] *)

Lemma real_events_mask (r ev : Z) : real_events r ev ∈ [0; 1; 4; 5].
Proof.
  unfold real_events, READ, WRITE, NONE.
  cbv zeta. generalize (if has ev (Z.lor EPOLLERR EPOLLHUP)
    then Z.lor ev (Z.land (Z.lor EPOLLIN EPOLLOUT) r) else ev). intros x.
  destruct (has x EPOLLIN), (has x EPOLLOUT); set_solver.
Qed.

(** [idle_event] from the kernel call on. *)
Definition idle_rest fd real c : ST (t Cb) unit :=
  ok ← ctl (if Z.ldiff (events c) real =? 0 then EPOLL_CTL_DEL else EPOLL_CTL_MOD) fd
         (Z.lor EPOLLET (Z.ldiff (events c) real));
  if negb ok then mret tt else
    trigger_opt (has real READ) fd READ;; trigger_opt (has real WRITE) fd WRITE.

Lemma idle_event_unfold s fd ev :
  in_range pipe s fd →
  let c := context_of s fd in
  let real := real_events (events c) ev in
  idle_event fd ev s = (if Z.land (events c) real =? 0 then mret tt else idle_rest fd real c) s.
Proof. intros [Hfd _] c real. unfold idle_event. by st_run (by apply context_at_ok). Qed.

Lemma idle_ctl_cases s fd real :
  let c := context_of s fd in
  let op := if Z.ldiff (events c) real =? 0 then EPOLL_CTL_DEL else EPOLL_CTL_MOD in
  ctl op fd (Z.lor EPOLLET (Z.ldiff (events c) real)) s = (Ret false, s)
  ∨ ∃ k', ctl op fd (Z.lor EPOLLET (Z.ldiff (events c) real)) s = (Ret true, set_epfd k' s)
    ∧ registered k' fd = (if Z.ldiff (events c) real =? 0 then None
                          else Some (Z.lor EPOLLET (Z.ldiff (events c) real)))
    ∧ ∀ fd', fd' ≠ fd → registered k' fd' = registered (epfd s) fd'.
Proof.
  intros c op.
  destruct (ctl_cases s op fd (Z.lor EPOLLET (Z.ldiff (events c) real))) as [E|(k' & E & _ & Hreg & Hoth)];
    [by left|right].
  exists k'. split_and!; [done| |done]. rewrite Hreg. unfold op. by destruct (_ =? 0).
Qed.

Lemma idle_event_ok s fd ev :
  inv pipe s → in_range pipe s fd →
  let c := context_of s fd in
  let real := real_events (events c) ev in
  let r := idle_event fd ev s in
  Z.land (events c) real = 0 ∨ Z.land (events c) real = real →
  r = (Ret tt, s)
  ∨ ∃ k', r = (Ret tt, fired_state s fd real k') ∧ sub_mask real c ∧ inv pipe r.2.
Proof.
  intros Hinv Hr c real r Hev. unfold r. rewrite idle_event_unfold by done. fold c real.
  destruct (Z.land (events c) real =? 0) eqn:Hz; [by left|].
  destruct Hev as [Hev|Hev]; [by rewrite Hev in Hz|].
  pose proof (inv_context pipe s fd Hinv) as Hc. fold c in Hc.
  assert (sub_mask real c) as Hsub by by split; [apply real_events_mask|].
  destruct (idle_ctl_cases s fd real) as [E|(k' & E & Hreg & Hoth)]; fold c in E;
    [left; unfold idle_rest; by st_run exact E|right; exists k']. fold c in Hreg.
  pose proof (pending_bounds pipe s Hinv).
  pose proof (count_le_total pipe s fd Hinv Hr) as Hle. fold c in Hle.
  match goal with |- ?x = _ ∧ _ => assert (x = (Ret tt, fired_state s fd real k')) as -> end.
  { unfold idle_rest. st_run exact E. cbn [negb].
    destruct (trigger_two (set_epfd k' s) fd real) as (H1 & H2 & _);
      [done|done|done|change (count c <= m_pendingEventCount s < 2 ^ 64); lia|].
    st_run exact H1. exact H2. }
  split; [done|]. split; [done|]. apply fired_state_inv; try done.
  fold c. by rewrite interest_disarm_mask.
Qed.

(** ** Growth of the vector *)

Lemma contextResize_grow s size :
  Z.of_nat (length (m_fdContexts s)) <= size →
  contextResize size s
  = (Ret tt, set_contexts (m_fdContexts s
      ++ replicate (Z.to_nat size - length (m_fdContexts s)) new_FdContext) s).
Proof. intros Hs. unfold contextResize, modify. by rewrite take_ge by lia. Qed.

Lemma context_of_grow s n fd :
  context_of (set_contexts (m_fdContexts s ++ replicate n new_FdContext) s) fd = context_of s fd.
Proof.
  unfold context_of. cbn. destruct (decide (Z.to_nat fd < length (m_fdContexts s))%nat) as [H1|H1].
  - by rewrite lookup_app_l.
  - rewrite lookup_app_r, (lookup_ge_None_2 (m_fdContexts s)) by lia.
    destruct (replicate n _ !! _) eqn:E; [|done]. by apply lookup_replicate in E as [-> _].
Qed.

Lemma waiters_grow s n :
  waiters (set_contexts (m_fdContexts s ++ replicate n new_FdContext) s) = waiters s.
Proof.
  unfold waiters, set_contexts. cbn [m_fdContexts]. rewrite waiters_bind.
  etrans; [|apply app_nil_r]. f_equal. induction n as [|n IH]; [done|]. exact IH.
Qed.

Lemma contextResize_inv s size :
  inv pipe s → Z.of_nat (length (m_fdContexts s)) <= size < 2 ^ 31 →
  let s' := (contextResize size s).2 in
  inv pipe s' ∧ Z.of_nat (length (m_fdContexts s')) = size ∧ waiters s' = waiters s
  ∧ scheduled s' = scheduled s ∧ (∀ fd, context_of s' fd = context_of s fd).
Proof.
  intros Hinv Hs s'. unfold s'. rewrite contextResize_grow by lia. cbn [snd].
  set (n := (_ - _)%nat).
  split_and!; [|cbn; rewrite length_app, length_replicate; lia|apply waiters_grow|done|apply context_of_grow].
  split.
  - cbn. apply Forall_app; split; [apply Hinv|]. apply Forall_replicate, context_ok_new.
  - unfold set_contexts. cbn [m_fdContexts m_pendingEventCount].
    rewrite total_app, total_replicate, (inv_pending _ _ Hinv). lia.
  - intros fd Hfd Hp. rewrite context_of_grow. by apply (inv_kernel _ _ Hinv).
  - pose proof (inv_size _ _ Hinv). cbn. rewrite length_app, length_replicate. lia.
Qed.

(** After its first part [addEvent] has a context for the descriptor. *)
Lemma addEvent_start s p this_fiber exec fd e f :
  inv pipe s → 0 <= fd < 2 ^ 30 → fd ≠ pipe →
  ∃ s', addEvent p this_fiber exec fd e f s = addEvent_locked p this_fiber exec fd e f s'
    ∧ inv pipe s' ∧ in_range pipe s' fd ∧ waiters s' = waiters s ∧ scheduled s' = scheduled s
    ∧ (∀ fd', context_of s' fd' = context_of s fd').
Proof.
  intros Hinv Hfd Hp. pose proof (inv_size _ _ Hinv).
  destruct (addEvent_fits fd s) eqn:Hf.
  - exists s. unfold addEvent. split_and!; [|done| |done..].
    + st_run reflexivity. rewrite Hf. by st_run reflexivity.
    + split; [|done]. unfold addEvent_fits in Hf.
      rewrite swrap_small in Hf by (unfold fits_s; lia). lia.
  - assert (Z.of_nat (length (m_fdContexts s)) <= fd).
    { unfold addEvent_fits in Hf. rewrite swrap_small in Hf by (unfold fits_s; lia). lia. }
    assert (fd + 1 <= fd * 3 / 2) by (apply Z.div_le_lower_bound; lia).
    assert (fd * 3 / 2 < 2 ^ 31) by (apply Z.div_lt_upper_bound; lia).
    destruct (contextResize_inv s (fd * 3 / 2) Hinv) as (G1 & G2 & G3 & G4 & G5); [lia|].
    exists (contextResize (fd * 3 / 2) s).2. split_and!; [|done| |done..].
    + unfold addEvent. st_run reflexivity. rewrite Hf. by st_run reflexivity.
    + split; [|done]. rewrite G2. lia.
Qed.

(** ** A count that is too low

    No operation looks at [m_pendingEventCount]: it is only counted up and down. So a state whose
    count is [m] too low (modulo 2^64) goes through the same steps as the state with the right
    count. *)

Definition short (m : Z) s : t Cb := set_pending (u64 (m_pendingEventCount s - m)) s.

Lemma short_0 s : inv pipe s → short 0 s = s.
Proof.
  intros Hinv. pose proof (pending_bounds pipe s Hinv). unfold short.
  rewrite Z.sub_0_r, uwrap_small by (unfold fits_u; lia). by destruct s.
Qed.
Lemma short_short m n s : short m (short n s) = short (n + m) s.
Proof.
  unfold short, set_pending. cbn. f_equal. unfold uwrap. rewrite Zminus_mod_idemp_l. f_equal. lia.
Qed.

(** A computation that does not look at the count. *)
Class Blind {A} (x : ST (t Cb) A) : Prop := blind m s : x (short m s) = ((x s).1, short m (x s).2).

#[global] Instance blind_ret {A} (a : A) : Blind (mret a).
Proof. done. Qed.
#[global] Instance blind_lift {A} (o : outcome A) : Blind (lift o).
Proof. done. Qed.
#[global] Instance blind_bind {A B} (x : ST (t Cb) A) (f : A → ST (t Cb) B) :
  Blind x → (∀ a, Blind (f a)) → Blind (x ≫= f).
Proof.
  intros Hx Hf m s. unfold mbind, st_bind. rewrite (Hx m s).
  destruct (x s) as [[a| | | |] s1]; cbn; [apply Hf|done..].
Qed.
#[global] Instance blind_if {A} (b : bool) (x y : ST (t Cb) A) : Blind x → Blind y → Blind (if b then x else y).
Proof. by destruct b. Qed.
#[global] Instance blind_fits fd : Blind (gets (addEvent_fits fd)).
Proof. done. Qed.
#[global] Instance blind_context_at fd : Blind (context_at fd).
Proof. done. Qed.
#[global] Instance blind_assign fd c : Blind (assign fd c).
Proof. done. Qed.
#[global] Instance blind_resize size : Blind (contextResize size).
Proof. done. Qed.
#[global] Instance blind_ctl op fd ev : Blind (ctl op fd ev).
Proof. intros m s. unfold ctl. cbn. by destruct (epoll_ctl _ _ _ _). Qed.
#[global] Instance blind_schedule p w : Blind (schedule p w).
Proof. intros m s. unfold schedule. destruct p; [|done]. by destruct w. Qed.
#[global] Instance blind_inc : Blind inc_pending.
Proof.
  intros m s. unfold inc_pending, modify, short, set_pending. cbn. do 2 f_equal.
  unfold uwrap. rewrite Zplus_mod_idemp_l, Zminus_mod_idemp_l. f_equal. lia.
Qed.
#[global] Instance blind_dec : Blind dec_pending.
Proof.
  intros m s. unfold dec_pending, modify, short, set_pending. cbn. do 2 f_equal.
  unfold uwrap. rewrite !Zminus_mod_idemp_l. f_equal. lia.
Qed.
#[global] Instance blind_trigger fd e : Blind (triggerEvent fd e).
Proof. unfold triggerEvent. repeat (apply blind_bind; [apply _|intros ?]). destruct (cb _); apply _. Qed.
#[global] Instance blind_locked p this exec fd e f : Blind (addEvent_locked p this exec fd e f).
Proof.
  unfold addEvent_locked. repeat (apply blind_bind; [apply _|intros ?]). apply blind_if; [apply _|].
  repeat (apply blind_bind; [apply _|intros ?]). destruct f; apply _.
Qed.
#[global] Instance blind_addEvent p this exec fd e f : Blind (addEvent p this exec fd e f).
Proof. unfold addEvent, addEvent_resize. apply _. Qed.
#[global] Instance blind_delEvent fd e : Blind (delEvent fd e).
Proof. unfold delEvent. apply _. Qed.
#[global] Instance blind_cancelEvent fd e : Blind (cancelEvent fd e).
Proof. unfold cancelEvent. apply _. Qed.
#[global] Instance blind_cancelAll fd : Blind (cancelAll fd).
Proof. unfold cancelAll, trigger_if_registered. apply _. Qed.
#[global] Instance blind_idle fd ev : Blind (idle_event fd ev).
Proof. unfold idle_event. apply _. Qed.

Lemma blind_run {A} (x : ST (t Cb) A) `{!Blind x} m s r s' :
  x (short m s) = (r, s') → ∃ s1, x s = (r, s1) ∧ s' = short m s1.
Proof. rewrite (blind m s). destruct (x s) as [q s1]. intros. simplify_eq. by exists s1. Qed.
End steps.
