(* ===== verification/IOManagerProps.v ===== *)
(** * IOManager: theorems

    Every waiter that is registered is scheduled once, taken back, or still waiting; what the
    single operations do on every branch; and the three places where the bookkeeping fails. *)

From S2P Require Import Prelude IOManager IOManagerSpec IOManagerSteps.
Import IOManager.

Section reachable.
Context {Cb : Type} `{Epoll}.
Implicit Types (s : t Cb) (c : FdContext Cb) (e fd ev real : Z).
Context (pipe : Z).

(** ** What the operations do to the waiters *)

Lemma context_of_other s fd c' p' k' q' fd' :
  0 <= fd' → 0 <= fd → fd' ≠ fd → context_of (with_context s fd c' p' k' q') fd' = context_of s fd'.
Proof.
  intros Hf Hf' Hne. unfold context_of, with_context. cbn [m_fdContexts].
  by rewrite list_lookup_insert_ne by lia.
Qed.

Lemma waiters_with s fd c' p' k' q' :
  in_range pipe s fd →
  context_waiters c' ++ waiters s ≡ₚ context_waiters (context_of s fd) ++ waiters (with_context s fd c' p' k' q').
Proof. intros [Hfd _]. apply waiters_insert. by apply lookup_context. Qed.

Lemma context_waiters_arm e p w c :
  is_event e → context_ok c → has (events c) e = false →
  context_waiters (arm e (armed_context p w) c) ≡ₚ (p, w) :: context_waiters c.
Proof.
  intros He Hc Hh. pose proof (event_ok_of e c He Hc) as Hok. unfold event_ok in Hok.
  rewrite Hh in Hok. unfold context_waiters, arm.
  destruct He as [-> | ->], c as [r wr ev], w; unfold waiting, ctx_of in *; simpl in *;
    rewrite Hok; simpl; solve_Permutation.
Qed.

Lemma waiters_arm s fd e p w p' k' q' :
  inv pipe s → in_range pipe s fd → is_event e → has (events (context_of s fd)) e = false →
  waiters (with_context s fd (arm e (armed_context p w) (context_of s fd)) p' k' q')
  ≡ₚ (p, w) :: waiters s.
Proof.
  intros Hinv Hr He Hh.
  eapply (Permutation_app_inv_l (context_waiters (context_of s fd))).
  rewrite <- (waiters_with s fd (arm e (armed_context p w) (context_of s fd)) p' k' q' Hr).
  rewrite context_waiters_arm by eauto using inv_context. solve_Permutation.
Qed.

Lemma waiters_mask s fd real p' k' q' :
  inv pipe s → in_range pipe s fd → sub_mask real (context_of s fd) →
  waiters s ≡ₚ waiting_mask real (context_of s fd)
    ++ waiters (with_context s fd (disarm_mask real (context_of s fd)) p' k' q').
Proof.
  intros Hinv Hr Hsub. set (c := context_of s fd) in *.
  destruct (disarm_mask_ok real c) as (_ & _ & Hperm); [by eapply inv_context|done|].
  eapply (Permutation_app_inv_l (context_waiters (disarm_mask real c))).
  rewrite (waiters_with s fd _ p' k' q' Hr). fold c. rewrite Hperm. solve_Permutation.
Qed.

Lemma sub_mask_single e c : is_event e → context_ok c → has (events c) e = true → sub_mask e c.
Proof.
  intros He Hc Hh.
  destruct (events_cases _ Hc) as [E|[E|[E|E]]], He as [-> | ->]; rewrite E in Hh; try discriminate Hh;
    (split; [set_solver|by rewrite E]).
Qed.

Lemma disarm_single e c : is_event e → disarm e c = disarm_mask e c ∧ waiting e c = waiting_mask e c.
Proof. intros [-> | ->]; (split; [done|]); unfold waiting_mask; simpl; [by rewrite app_nil_r|done]. Qed.

Lemma has_count c e : is_event e → has (events c) e = true → 1 <= count c.
Proof. unfold count. intros [-> | ->] ->; destruct (has _ _); lia. Qed.

(** A reported event that is not registered any more, next to one that is. *)
Lemma idle_stale s fd ev :
  inv pipe s → in_range pipe s fd →
  let c := context_of s fd in
  let real := real_events (events c) ev in
  Z.land (events c) real ≠ 0 → Z.land (events c) real ≠ real →
  idle_event fd ev s = (Ret tt, s) ∨ (idle_event fd ev s).1 = Abort.
Proof.
  intros Hinv Hr c real Hnz Hne. rewrite (idle_event_unfold pipe) by done. fold c real.
  rewrite (proj2 (Z.eqb_neq _ _) Hnz). unfold idle_rest.
  destruct (idle_ctl_cases s fd real) as [E|(k' & E & _)]; fold c in E; [left; by st_run exact E|right].
  erewrite st_bind_Ret; [|exact E]. cbn [negb].
  pose proof (inv_context pipe s fd Hinv) as Hc. fold c in Hc.
  assert (real = 5 ∧ (events c = 1 ∨ events c = 4)) as (-> & Hev).
  { pose proof (real_events_mask (events c) ev) as Hm. fold real in Hm.
    assert (real = 0 ∨ real = 1 ∨ real = 4 ∨ real = 5) as Hm' by set_solver.
    destruct (events_cases _ Hc) as [E1|[E1|[E1|E1]]]; rewrite E1 in *;
      destruct Hm' as [E2|[E2|[E2|E2]]]; rewrite E2 in *; try done; auto. }
  pose proof Hr as [Hfd _]. set (s1 := set_epfd k' s).
  assert (context_at fd s1 = (Ret c, s1)) as Hat by exact (context_at_ok s1 fd Hfd).
  assert (∀ s2 e, context_at fd s2 = (Ret (context_of s2 fd), s2) →
    has (events (context_of s2 fd)) e = false → (trigger_opt true fd e s2).1 = Abort) as Habort.
  { intros s2 e H1 H2. unfold trigger_opt, triggerEvent, mbind, st_bind. rewrite H1. unfold lift at 1.
    by rewrite H2. }
  change (has 5 READ) with true. change (has 5 WRITE) with true.
  destruct Hev as [Hev|Hev].
  - pose proof (pending_bounds pipe s Hinv).
    pose proof (count_le_total pipe s fd Hinv Hr) as Hle. fold c in Hle.
    destruct (trigger_two pipe s1 fd 1) as (H1 & _ & [H3 _] & H4);
      [done|done|by split; [set_solver|change (context_of s1 fd) with c; rewrite Hev]
      |change (count c <= m_pendingEventCount s < 2 ^ 64); lia|].
    erewrite st_bind_Ret; [|exact H1]. apply Habort; [apply context_at_ok, H3|].
    rewrite H4. change (context_of s1 fd) with c. unfold first_context. simpl. by rewrite Hev.
  - unfold mbind, st_bind. pose proof (Habort s1 READ Hat) as Ha.
    change (context_of s1 fd) with c in Ha. rewrite Hev in Ha. specialize (Ha eq_refl).
    destruct (trigger_opt true fd READ s1) as [[] ?]; by simplify_eq/=.
Qed.

Lemma cancelEvent_aborts s fd e k' :
  inv pipe s → in_range pipe s fd → is_event e → events (context_of s fd) = other e →
  epoll_ctl (epfd s) EPOLL_CTL_MOD fd (Z.lor EPOLLET (other e)) = (true, k') →
  (cancelEvent fd e s).1 = Abort.
Proof.
  intros Hinv Hr He Hev Hctl. pose proof Hr as [Hfd Hp]. set (c := context_of s fd) in *.
  assert (not_events_and c e = false) as Hn
    by (unfold not_events_and; rewrite Hev; by destruct He as [-> | ->]).
  assert (Z.ldiff (events c) e = other e) as Hdiff by (rewrite Hev; by destruct He as [-> | ->]).
  assert (has (events c) e = false) as Hh by (rewrite Hev; by destruct He as [-> | ->]).
  assert (ctl EPOLL_CTL_MOD fd (Z.lor EPOLLET (other e)) s = (Ret true, set_epfd k' s)) as E
    by (unfold ctl; by rewrite Hctl).
  assert ((other e =? 0) = false) as Ho by by destruct He as [-> | ->].
  rewrite (cancelEvent_unfold pipe) by done. unfold after_ctl. fold c. rewrite Hdiff, Ho.
  erewrite st_bind_Ret; [|exact E]. cbn [negb].
  unfold mbind, st_bind, triggerEvent, mbind, st_bind.
  rewrite (context_at_ok (set_epfd k' s)) by done. change (context_of (set_epfd k' s) fd) with c.
  unfold lift at 1. by rewrite Hh.
Qed.

(** The outcome of a step from a state with the right count: the waiters before and the new ones
    are those that were scheduled, those taken back and those that are still there; and the count
    is [m] too low afterwards. *)
Definition balanced s a d m s' : Prop :=
  ∃ s1 fired, s' = short m s1 ∧ inv pipe s1 ∧ scheduled s1 = scheduled s ++ fired
    ∧ a ++ waiters s ≡ₚ fired ++ d ++ waiters s1.

Lemma balanced_quiet s s' :
  inv pipe s' → scheduled s' = scheduled s → waiters s' = waiters s → balanced s [] [] 0 s'.
Proof.
  intros Hinv Hs Hw. exists s', []. rewrite (short_0 pipe), Hs, Hw, app_nil_r by done. done.
Qed.
Lemma balanced_refl s : inv pipe s → balanced s [] [] 0 s.
Proof. intros. by apply balanced_quiet. Qed.

Lemma balanced_exact s a d s' fired :
  inv pipe s' → scheduled s' = scheduled s ++ fired → a ++ waiters s ≡ₚ fired ++ d ++ waiters s' →
  balanced s a d 0 s'.
Proof. intros. exists s', fired. by rewrite (short_0 pipe). Qed.

Lemma balanced_fired s fd real k' :
  inv pipe s → in_range pipe s fd → sub_mask real (context_of s fd) →
  inv pipe (fired_state s fd real k') → balanced s [] [] 0 (fired_state s fd real k').
Proof. intros Hinv Hr Hsub Hinv'. eapply balanced_exact; [done|done|]. by apply waiters_mask. Qed.

Lemma not_registered_cases s fd e :
  inv pipe s → is_event e → has (events (context_of s fd)) e = false →
  events (context_of s fd) = 0 ∨ events (context_of s fd) = other e.
Proof.
  intros Hinv He Hh. pose proof (inv_context pipe s fd Hinv) as Hc.
  destruct (events_cases _ Hc) as [E|[E|[E|E]]], He as [-> | ->]; rewrite E in *; auto; done.
Qed.

(** Removing an event that is not registered: refused, by the guard or by the kernel; or, when the
    other event is registered, [delEvent] takes one off the count, and [cancelEvent] fails an
    assertion. *)
Lemma remove_unregistered s fd e :
  inv pipe s → in_range pipe s fd → is_event e → has (events (context_of s fd)) e = false →
  (delEvent fd e s = (Ret false, s)
   ∨ ∃ k', delEvent fd e s = (Ret true, short 1 (set_epfd k' s)) ∧ inv pipe (set_epfd k' s))
  ∧ (cancelEvent fd e s = (Ret false, s) ∨ (cancelEvent fd e s).1 = Abort).
Proof.
  intros Hinv Hr He Hh. pose proof Hr as [Hfd Hp].
  destruct (not_registered_cases s fd e Hinv He Hh) as [Hev|Hev].
  { destruct (remove_idle pipe s fd e Hinv Hr He Hev) as [-> ->]. by split; left. }
  set (c := context_of s fd) in *.
  assert (not_events_and c e = false) as Hn
    by (unfold not_events_and; rewrite Hev; by destruct He as [-> | ->]).
  assert (Z.ldiff (events c) e = other e) as Hdiff by (rewrite Hev; by destruct He as [-> | ->]).
  assert ((other e =? 0) = false) as Ho by by destruct He as [-> | ->].
  destruct (remove_ctl_cases s fd e He) as [E|(k' & E & _ & Hreg & Hoth)];
    fold c in E; rewrite Hdiff, Ho in E.
  { unfold delEvent, cancelEvent.
    split; left; st_run reflexivity; rewrite (fits_in_range pipe) by done; cbn [negb];
      st_run (by apply context_at_ok); fold c; rewrite Hn, Hdiff; cbv zeta; rewrite Ho; by st_run exact E. }
  assert (put_context e empty_context (set_events (other e) c) = c) as Hsame.
  { pose proof (event_ok_of e c He (inv_context pipe s fd Hinv)) as Hok. unfold event_ok in Hok. rewrite Hh in Hok.
    destruct He as [-> | ->], c as [r w ev]; unfold ctx_of in Hok; simpl in *; by subst. }
  split; right.
  - exists k'. split.
    + unfold delEvent. st_run reflexivity. rewrite (fits_in_range pipe) by done. cbn [negb].
      st_run (by apply context_at_ok). fold c. rewrite Hn, Hdiff. cbv zeta. rewrite Ho.
      st_run exact E. cbn [negb]. do 2 st_run reflexivity. st_run (by rewrite getContext_ok).
      st_run reflexivity. unfold mret, st_ret, short, resetContext. do 2 f_equal. rewrite Hsame. cbn.
      rewrite list_insert_twice, list_insert_id; [done|]. rewrite lookup_context by lia. done.
    + split; [apply Hinv|apply Hinv| |apply Hinv]. intros fd' H0 Hne. cbn [epfd set_epfd].
      change (context_of (set_epfd k' s) fd') with (context_of s fd').
      destruct (decide (fd' = fd)) as [->|Hd]; [|rewrite Hoth by done; by apply (inv_kernel _ _ Hinv)].
      rewrite Hreg. fold c. unfold interest. rewrite events_disarm, Hdiff, Ho, Hev, Ho by done. done.
  - destruct (epoll_ctl (epfd s) EPOLL_CTL_MOD fd (Z.lor EPOLLET (other e))) as [ok k1] eqn:Ek.
    eapply (cancelEvent_aborts s fd e k1); try done. rewrite Ek. f_equal.
    revert E. unfold ctl. rewrite Ek. congruence.
Qed.

Lemma addEvent_locked_balanced s p this_fiber fd e f r s' :
  inv pipe s → in_range pipe s fd → is_event e →
  addEvent_locked (Some p) this_fiber true fd e f s = (Ret r, s') →
  balanced s (if r =? 0 then [(p, awaited this_fiber f)] else []) [] 0 s'.
Proof.
  intros Hinv Hr He Hadd. pose proof (addEvent_locked_ok pipe s p this_fiber fd e f Hinv Hr He) as Hl.
  cbv zeta in Hl. rewrite Hadd in Hl. destruct (has _ e) eqn:Hh; [done|].
  destruct Hl as [Hl|(k' & Hl & Hinv')]; simplify_eq/=; [by apply balanced_refl|].
  eapply (balanced_exact _ _ _ _ []); [done|by rewrite app_nil_r|]. cbn [app]. by rewrite waiters_arm.
Qed.

Lemma addEvent_balanced s p this_fiber fd e f r s' :
  inv pipe s → 0 <= fd < 2 ^ 30 → fd ≠ pipe → is_event e →
  addEvent (Some p) this_fiber true fd e f s = (Ret r, s') →
  balanced s (if r =? 0 then [(p, awaited this_fiber f)] else []) [] 0 s'.
Proof.
  intros Hinv Hfd Hp He Hadd.
  destruct (addEvent_start pipe s (Some p) this_fiber true fd e f Hinv Hfd Hp)
    as (s1 & E & Hinv1 & Hr & Hw & Hs & Hc).
  rewrite E in Hadd. apply addEvent_locked_balanced in Hadd as (s2 & fired & ? & ? & Hq & Hperm); [|done..].
  exists s2, fired. by rewrite <- Hw, <- Hs.
Qed.

Lemma delEvent_balanced s fd e b s' :
  inv pipe s → 0 <= fd → fd ≠ pipe → is_event e → delEvent fd e s = (Ret b, s') →
  let c := context_of s fd in
  balanced s [] (if b then waiting e c else []) (if b && negb (has (events c) e) then 1 else 0) s'.
Proof.
  intros Hinv Hfd Hp He Hd c.
  destruct (decide (fd < Z.of_nat (length (m_fdContexts s)))) as [Hlt|Hge].
  2: { destruct (remove_out_of_range pipe s fd e Hinv) as (E & _ & _); [lia|]. rewrite Hd in E.
       simplify_eq. by apply balanced_refl. }
  assert (in_range pipe s fd) as Hr by done. destruct (has (events c) e) eqn:Hh.
  - rewrite andb_false_r. destruct (disarm_single e c He) as [E1 E2].
    destruct (delEvent_registered pipe s fd e Hinv Hr He Hh) as [Hl|(k' & Hl & Hinv')];
      rewrite Hd in *; simplify_eq; [by apply balanced_refl|].
    eapply (balanced_exact _ _ _ _ []); [done|by rewrite app_nil_r|]. cbn [app]. rewrite E2.
    fold c. rewrite E1. apply waiters_mask; [done..|].
    by eapply sub_mask_single; [|eapply inv_context|].
  - destruct (remove_unregistered s fd e Hinv Hr He Hh) as [[E|(k' & E & Hinv')] _];
      rewrite Hd in E; simplify_eq; [by apply balanced_refl|].
    exists (set_epfd k' s), []. split_and!; [done|done|by rewrite app_nil_r|]. cbn [app].
    pose proof (event_ok_of e c He (inv_context pipe s fd Hinv)) as Hok. unfold event_ok in Hok.
    rewrite Hh in Hok. unfold waiting. by rewrite Hok.
Qed.

Lemma cancelEvent_balanced s fd e b s' :
  inv pipe s → 0 <= fd → fd ≠ pipe → is_event e →
  cancelEvent fd e s = (Ret b, s') → balanced s [] [] 0 s'.
Proof.
  intros Hinv Hfd Hp He Hd.
  destruct (decide (fd < Z.of_nat (length (m_fdContexts s)))) as [Hlt|Hge].
  2: { destruct (remove_out_of_range pipe s fd e Hinv) as (_ & E & _); [lia|]. rewrite Hd in E.
       simplify_eq. by apply balanced_refl. }
  assert (in_range pipe s fd) as Hr by done. destruct (has (events (context_of s fd)) e) eqn:Hh.
  - destruct (disarm_single e (context_of s fd) He) as [E1 E2].
    destruct (registered_armed pipe s fd e Hinv He Hh) as (p & w & Ha).
    destruct (cancelEvent_registered pipe s fd e p w Hinv Hr He Hh Ha) as [Hl|(k' & Hl & Hinv')];
      rewrite Hd in *; simplify_eq; [by apply balanced_refl|].
    eapply (balanced_exact _ _ _ _ [(p, w)]); [done|done|].
    rewrite <- (waiting_armed e _ p w Ha), E1, E2. apply waiters_mask; [done..|].
    by eapply sub_mask_single; [|eapply inv_context|].
  - destruct (remove_unregistered s fd e Hinv Hr He Hh) as [_ [E|E]]; rewrite Hd in E; [|done].
    simplify_eq. by apply balanced_refl.
Qed.

Lemma cancelAll_balanced s fd b s' :
  inv pipe s → 0 <= fd → fd ≠ pipe → cancelAll fd s = (Ret b, s') → balanced s [] [] 0 s'.
Proof.
  intros Hinv Hfd Hp Hd.
  destruct (decide (fd < Z.of_nat (length (m_fdContexts s)))) as [Hlt|Hge].
  2: { destruct (remove_out_of_range pipe s fd READ Hinv) as (_ & _ & E); [lia|]. rewrite Hd in E.
       simplify_eq. by apply balanced_refl. }
  pose proof (cancelAll_ok pipe s fd Hinv (conj (conj Hfd Hlt) Hp)) as Hc. cbv zeta in Hc. rewrite Hd in Hc.
  destruct (_ =? 0); [simplify_eq; by apply balanced_refl|].
  destruct Hc as [Hc|(k' & Hc & _ & Hinv')]; simplify_eq; [by apply balanced_refl|].
  apply balanced_fired; [done..| |done]. apply sub_mask_all. by eapply inv_context.
Qed.

Lemma total_waiters (l : list (FdContext Cb)) :
  Forall context_ok l → total l = Z.of_nat (length (l ≫= context_waiters)).
Proof.
  induction 1 as [|c l Hc _ IH]; [done|]. cbn [total foldr].
  rewrite bind_cons, length_app. pose proof (waiting_count c Hc). fold (total l). lia.
Qed.

Lemma pending_waiters s :
  inv pipe s → m_pendingEventCount s = Z.of_nat (length (waiters s)).
Proof. intros Hinv. rewrite (inv_pending _ _ Hinv). apply total_waiters, Hinv. Qed.

Lemma inv_make k :
  (∀ fd, 0 <= fd → fd ≠ pipe → registered k fd = None) → inv pipe (make (Cb := Cb) k).
Proof.
  intros Hk. split; [|done| |done].
  - apply Forall_replicate, context_ok_new.
  - intros fd Hfd Hp. cbn [epfd make]. rewrite Hk by done. unfold context_of.
    cbn [m_fdContexts make]. destruct (replicate 32 _ !! _) eqn:E; [|done].
    by apply lookup_replicate in E as [-> _].
Qed.

(** ** Histories *)

(** One step of a thread that returns, with the waiters it registers, those it takes back, and
    what it counts too few. [addEvent] is one step, or two with other steps in between: the one
    that lengthens the vector of contexts, and the one under the mutex of the context. *)
Inductive step s : list (Z * task Cb) → list (Z * task Cb) → Z → t Cb → Prop :=
  | step_addEvent p this_fiber fd e f r s' :
      0 <= fd < 2 ^ 30 → fd ≠ pipe → is_event e →
      addEvent (Some p) this_fiber true fd e f s = (Ret r, s') →
      step s (if r =? 0 then [(p, awaited this_fiber f)] else []) [] 0 s'
  | step_addEvent_resize fd s' :
      0 <= fd < 2 ^ 30 → Z.of_nat (length (m_fdContexts s)) <= fd * 3 / 2 →
      addEvent_resize fd s = (Ret tt, s') → step s [] [] 0 s'
  | step_addEvent_locked p this_fiber fd e f r s' :
      in_range pipe s fd → is_event e →
      addEvent_locked (Some p) this_fiber true fd e f s = (Ret r, s') →
      step s (if r =? 0 then [(p, awaited this_fiber f)] else []) [] 0 s'
  | step_delEvent fd e b s' :
      0 <= fd → fd ≠ pipe → is_event e → delEvent fd e s = (Ret b, s') →
      step s [] (if b then waiting e (context_of s fd) else [])
        (if b && negb (has (events (context_of s fd)) e) then 1 else 0) s'
  | step_cancelEvent fd e b s' :
      0 <= fd → fd ≠ pipe → is_event e → cancelEvent fd e s = (Ret b, s') → step s [] [] 0 s'
  | step_cancelAll fd b s' :
      0 <= fd → fd ≠ pipe → cancelAll fd s = (Ret b, s') → step s [] [] 0 s'
  | step_idle fd ev s' :
      in_range pipe s fd → idle_event fd ev s = (Ret tt, s') → step s [] [] 0 s'.

Inductive reachable : list (Z * task Cb) → list (Z * task Cb) → Z → t Cb → Prop :=
  | reachable_make k :
      (∀ fd, 0 <= fd → fd ≠ pipe → registered k fd = None) → reachable [] [] 0 (make k)
  | reachable_step a d m a' d' m' s s' :
      reachable a d m s → step s a' d' m' s' → reachable (a ++ a') (d ++ d') (m + m') s'.

Lemma step_ok s a d m s' : inv pipe s → step s a d m s' → balanced s a d m s'.
Proof.
  intros Hinv Hstep. inv Hstep.
  - by eapply addEvent_balanced.
  - destruct (contextResize_inv pipe s (fd * 3 / 2) Hinv) as (Hi & _ & Hw & Hs & _).
    { split; [done|]. apply Z.div_lt_upper_bound; lia. }
    unfold addEvent_resize in *. rewrite H2 in *. by apply balanced_quiet.
  - by eapply addEvent_locked_balanced.
  - by eapply delEvent_balanced.
  - by eapply cancelEvent_balanced.
  - by eapply cancelAll_balanced.
  - set (real := real_events (events (context_of s fd)) ev).
    destruct (decide (Z.land (events (context_of s fd)) real = 0 ∨ Z.land (events (context_of s fd)) real = real)) as [Hr|Hr].
    + destruct (idle_event_ok pipe s fd ev Hinv H0 Hr) as [Hc|(k' & Hc & Hsub & Hinv')];
        rewrite H1 in *; simplify_eq; [by apply balanced_refl|]. by apply balanced_fired.
    + destruct (idle_stale s fd ev Hinv H0) as [E|E]; [fold real; tauto..| |]; rewrite H1 in E; [|done].
      simplify_eq. by apply balanced_refl.
Qed.

(** The steps from a state with a count that is too low are those from the state with the right
    count. *)
Lemma step_short n s a d m s' : step (short n s) a d m s' → ∃ s1, step s a d m s1 ∧ s' = short n s1.
Proof.
  intros Hstep. inv Hstep;
    match goal with E : _ (short n s) = _ |- _ => apply blind_run in E as (s1 & E & ->); [|apply _] end;
    exists s1; (split; [|done]);
    change (context_of (short n s)) with (context_of s);
    [by eapply step_addEvent|by eapply step_addEvent_resize|by eapply step_addEvent_locked
    |by eapply step_delEvent|by eapply step_cancelEvent|by eapply step_cancelAll|by eapply step_idle].
Qed.

(** The states of histories: right but for the count. *)
Lemma reachable_inv a d m s :
  reachable a d m s → ∃ s0, s = short m s0 ∧ inv pipe s0 ∧ a ≡ₚ scheduled s ++ d ++ waiters s.
Proof.
  induction 1 as [k Hk|a d m a' d' m' s s' _ (s0 & -> & Hinv & Hperm) Hstep].
  - exists (make k). rewrite (short_0 pipe) by by apply inv_make. split; [done|]. split; [by apply inv_make|done].
  - apply step_short in Hstep as (s1 & Hstep & ->).
    apply step_ok in Hstep as (s2 & fired & -> & Hinv' & Hs & Hp); [|done].
    exists s2. rewrite short_short, (Z.add_comm m'). split; [done|]. split; [done|].
    change (scheduled (short _ s2)) with (scheduled s2). change (waiters (short _ s2)) with (waiters s2).
    change (scheduled (short _ s0)) with (scheduled s0) in Hperm. change (waiters (short _ s0)) with (waiters s0) in Hperm.
    rewrite Hs, Hperm, <- !app_assoc, (Permutation_app_comm _ a'), Hp. solve_Permutation.
Qed.

(** C2. After any history of operations that returned (adding, deleting and cancelling events,
    registered or not, of any descriptors, and whatever [epoll_wait] reported for the contexts),
    one after the other, except that others may come between the two locks of [addEvent] as long
    as this does not shorten the vector of contexts: the waiters registered so far are, as a multiset, those handed to a scheduler, those taken back by
    [delEvent] and those still in a context, so none is lost and none is woken twice; the kernel
    has exactly the events of each context registered, edge-triggered; and
    [m_pendingEventCount] is, modulo 2^64, the number of waiters left less the number [m] of calls
    of [delEvent] that answered true for an event that was not registered, so it is right exactly
    as long as there was no such call. *)
Theorem events_conserved a d m s :
  reachable a d m s →
  a ≡ₚ scheduled s ++ d ++ waiters s
  ∧ (∀ fd, 0 <= fd → fd ≠ pipe → registered (epfd s) fd = interest (context_of s fd))
  ∧ m_pendingEventCount s = u64 (Z.of_nat (length (waiters s)) - m).
Proof.
  intros (s0 & -> & Hinv & Hperm)%reachable_inv. split; [done|]. split; [apply (inv_kernel _ _ Hinv)|].
  change (waiters (short m s0)) with (waiters s0). rewrite <- (pending_waiters s0 Hinv). done.
Qed.

(** Registering [e] on a descriptor. A second registration of the same event is refused by
    an assertion. Otherwise the kernel may refuse, and then -1 comes back and nothing is
    registered; or the waiter (the callback, or else the calling fiber) is added with the
    calling thread's scheduler, the events of the context gain [e], the count goes up by one,
    other contexts and the scheduled tasks are as before; the vector of contexts has grown when
    the descriptor was beyond its end. *)
Theorem addEvent_registers s p this_fiber fd e f :
  inv pipe s → 0 <= fd < 2 ^ 30 → fd ≠ pipe → is_event e →
  let '(r, s') := addEvent (Some p) this_fiber true fd e f s in
  if has (events (context_of s fd)) e then r = Abort
  else inv pipe s' ∧ in_range pipe s' fd ∧ scheduled s' = scheduled s
    ∧ (∀ fd', 0 <= fd' → fd' ≠ fd → context_of s' fd' = context_of s fd')
    ∧ (r = Ret (-1) ∧ waiters s' = waiters s ∧ context_of s' fd = context_of s fd
       ∨ r = Ret 0 ∧ waiters s' ≡ₚ (p, awaited this_fiber f) :: waiters s
         ∧ events (context_of s' fd) = Z.lor (events (context_of s fd)) e
         ∧ m_pendingEventCount s' = m_pendingEventCount s + 1).
Proof.
  intros Hinv Hfd Hp He.
  destruct (addEvent_start pipe s (Some p) this_fiber true fd e f Hinv Hfd Hp)
    as (s1 & E & Hinv1 & Hr & Hw & Hs & Hc).
  assert (m_pendingEventCount s1 = m_pendingEventCount s) as Hn.
  { by rewrite !pending_waiters, Hw by done. }
  rewrite E. pose proof (addEvent_locked_ok pipe s1 p this_fiber fd e f Hinv1 Hr He) as Hl.
  cbv zeta in Hl. rewrite Hc in Hl. destruct (has _ e) eqn:Hh; [by rewrite Hl|].
  destruct Hl as [Hl|(k' & Hl & Hinv')]; rewrite Hl in *; cbn [snd] in *.
  - split_and!; [done..|by eauto|by left].
  - split_and!; [done|by apply in_range_with|done| |right; split_and!].
    + intros fd' Hfd' Hne. rewrite <- (Hc fd'). apply context_of_other; [done|lia|done].
    + done.
    + rewrite <- Hw, <- Hc. apply waiters_arm; [done..|]. by rewrite Hc.
    + rewrite (context_of_with pipe) by done. by apply events_arm.
    + cbn. lia.
Qed.

(** [delEvent] and [cancelEvent] outside the vector, on a context that waits for nothing and
    for a registered event. The first two are refused. In the third the kernel may refuse;
    otherwise both take the event's waiter out, and only that, [delEvent] forgetting it,
    [cancelEvent] handing it to the scheduler it was registered with. *)
Theorem delEvent_cancelEvent s fd e :
  inv pipe s → 0 <= fd → fd ≠ pipe → is_event e →
  let c := context_of s fd in
  (events c = 0 → delEvent fd e s = (Ret false, s) ∧ cancelEvent fd e s = (Ret false, s))
  ∧ (has (events c) e = true →
     ∃ p w, waiting e c = [(p, w)]
     ∧ (delEvent fd e s = (Ret false, s)
        ∨ ∃ k', delEvent fd e s
          = (Ret true, with_context s fd (disarm e c) (m_pendingEventCount s - 1) k' (scheduled s)))
     ∧ (cancelEvent fd e s = (Ret false, s)
        ∨ ∃ k', cancelEvent fd e s
          = (Ret true, with_context s fd (disarm e c) (m_pendingEventCount s - 1) k'
                         (scheduled s ++ [(p, w)])))).
Proof.
  intros Hinv Hfd Hp He c.
  destruct (decide (fd < Z.of_nat (length (m_fdContexts s)))) as [Hlt|Hge].
  - assert (in_range pipe s fd) as Hr by done. split.
    { intros Hz. by apply (remove_idle pipe). }
    intros Hh. destruct (registered_armed pipe s fd e Hinv He Hh) as (p & w & Ha).
    exists p, w. split; [by apply waiting_armed|]. split.
    + destruct (delEvent_registered pipe s fd e Hinv Hr He Hh) as [?|(k' & ? & _)]; eauto.
    + destruct (cancelEvent_registered pipe s fd e p w Hinv Hr He Hh Ha) as [?|(k' & ? & _)]; eauto.
  - destruct (remove_out_of_range pipe s fd e Hinv) as (H1 & H2 & _); [lia|]. split; [done|].
    unfold c, context_of. rewrite lookup_ge_None_2 by lia. by destruct He as [-> | ->].
Qed.

(** The guard [!fd_ctx->events & event] does not do what it is there for: for an event that
    is not registered, while the other event of the descriptor is, both removers go on. When
    the kernel accepts, [delEvent] answers true and takes one off [m_pendingEventCount] although
    nothing was removed, so the count no longer is the number of waiters; [cancelEvent] fails
    the assertion of [triggerEvent]. *)
Theorem remove_unregistered_event s fd e k' :
  inv pipe s → in_range pipe s fd → is_event e →
  let c := context_of s fd in
  events c = other e →
  epoll_ctl (epfd s) EPOLL_CTL_MOD fd (Z.lor EPOLLET (other e)) = (true, k') →
  (∃ s', delEvent fd e s = (Ret true, s')
     ∧ m_fdContexts s' = m_fdContexts s ∧ scheduled s' = scheduled s
     ∧ m_pendingEventCount s' = m_pendingEventCount s - 1)
  ∧ (cancelEvent fd e s).1 = Abort.
Proof.
  intros Hinv Hr He c Hev Hctl.
  assert (has (events c) e = false) as Hh by (rewrite Hev; by destruct He as [-> | ->]).
  split; [|by apply (cancelEvent_aborts s fd e k')].
  pose proof (pending_bounds pipe s Hinv). pose proof (count_le_total pipe s fd Hinv Hr) as Hle.
  fold c in Hle. assert (count c = 1) as Hcnt by (unfold count; rewrite Hev; by destruct He as [-> | ->]).
  destruct (remove_unregistered s fd e Hinv Hr He Hh) as [[E|(k1 & E & _)] _].
  - exfalso. assert (∃ s', delEvent fd e s = (Ret true, s')) as [s' E'].
    { eexists. unfold delEvent. st_run reflexivity. rewrite (fits_in_range pipe) by done. cbn [negb].
      st_run (by apply context_at_ok; apply Hr). fold c.
      assert (not_events_and c e = false) as -> by (unfold not_events_and; rewrite Hev; by destruct He as [-> | ->]).
      assert (Z.ldiff (events c) e = other e) as -> by (rewrite Hev; by destruct He as [-> | ->]).
      assert ((other e =? 0) = false) as Ho by by destruct He as [-> | ->]. cbv zeta. rewrite Ho.
      st_run (unfold ctl; rewrite Hctl; reflexivity). cbn [negb]. do 2 st_run reflexivity.
      st_run (by rewrite getContext_ok). by st_run reflexivity. }
    rewrite E in E'. discriminate.
  - eexists. split; [exact E|]. cbn. rewrite uwrap_small by (unfold fits_u; lia). done.
Qed.

Lemma waiting_mask_all c : context_ok c → waiting_mask (events c) c = context_waiters c.
Proof.
  intros (_ & Hr & Hw). unfold waiting_mask, context_waiters, event_ok, waiting in *.
  destruct (has (events c) READ), (has (events c) WRITE); rewrite ?Hr, ?Hw; done.
Qed.

(** What [idle] does with one reported descriptor. When nothing of what was reported is
    registered, or the kernel refuses, nothing. Otherwise, provided all that was reported (an
    error or hang-up counting as everything registered) is still registered, exactly these
    events are taken out, each waiter is scheduled once, the reader before the writer. When a
    reported event has been removed meanwhile while another is registered, an assertion of
    [triggerEvent] fails. *)
Theorem idle_wakes_reported s fd ev :
  inv pipe s → in_range pipe s fd →
  let c := context_of s fd in
  let real := real_events (events c) ev in
  let '(r, s') := idle_event fd ev s in
  (s' = s ∧ r = Ret tt)
  ∨ Z.land (events c) real ≠ 0
    ∧ if Z.land (events c) real =? real
      then r = Ret tt ∧ inv pipe s' ∧ scheduled s' = scheduled s ++ waiting_mask real c
        ∧ events (context_of s' fd) = Z.ldiff (events c) real
        ∧ waiters s ≡ₚ waiting_mask real c ++ waiters s'
      else r = Abort.
Proof.
  intros Hinv Hr c real. destruct (idle_event fd ev s) as [r s'] eqn:E.
  destruct (decide (Z.land (events c) real = 0 ∨ Z.land (events c) real = real)) as [Hok|Hbad].
  - destruct (idle_event_ok pipe s fd ev Hinv Hr Hok) as [Hi|(k' & Hi & Hsub & Hinv')];
      fold c real in Hi; rewrite E in Hi; simplify_eq; [by left|].
    destruct (decide (Z.land (events c) real = 0)) as [Hz|Hnz].
    { rewrite (idle_event_unfold pipe) in E by done. fold c real in E. rewrite Hz in E.
      change ((Ret tt, s) = (Ret tt, fired_state s fd real k')) in E. left. split; congruence. }
    right. split; [done|]. destruct Hok as [|Hok]; [done|]. rewrite Hok, Z.eqb_refl.
    rewrite (idle_event_unfold pipe) in Hinv' by done. fold c real in Hinv', Hsub.
    split_and!; [done| |done| |by apply waiters_mask].
    + rewrite (idle_event_unfold pipe) in E by done. fold c real in E. by rewrite E in Hinv'.
    + unfold fired_state. rewrite (context_of_with pipe) by done. fold c.
      apply disarm_mask_ok; [by eapply inv_context|done].
  - assert (idle_event fd ev s = (Ret tt, s) ∨ (idle_event fd ev s).1 = Abort) as Hs
      by (apply idle_stale; fold c real; tauto).
    rewrite E in Hs. destruct Hs as [Hs|Hs]; simplify_eq/=; [by left|].
    right. split; [tauto|]. destruct (_ =? _) eqn:Eq; [|done]. apply Z.eqb_eq in Eq. tauto.
Qed.

(** At most one task waits for an event, and an event that was taken out is not registered. *)
Lemma waiting_le_1 e c : (length (waiting e c) <= 1)%nat.
Proof. unfold waiting. destruct (ctx_of e c) as [[p|] [f|] [g|]]; cbn; lia. Qed.

Lemma has_ldiff e c ev :
  is_event e → context_ok c → let real := real_events (events c) ev in
  has real e = true → has (Z.ldiff (events c) real) e = false.
Proof.
  intros He Hc real Hh. pose proof (real_events_mask (events c) ev) as Hm. fold real in Hm.
  assert (real = 0 ∨ real = 1 ∨ real = 4 ∨ real = 5) as Hm' by set_solver.
  destruct (events_cases _ Hc) as [-> |[-> |[-> | ->]]], Hm' as [E|[E|[E|E]]]; rewrite E in *;
    destruct He as [-> | ->]; done.
Qed.

(** What the kernel says when the events [real] are taken out of [events] of a descriptor. *)
Definition lets_go (k : kernel) fd (events real : Z) : option kernel :=
  let left := Z.ldiff events real in
  let '(ok, k') := epoll_ctl k (if left =? 0 then EPOLL_CTL_DEL else EPOLL_CTL_MOD) fd (Z.lor EPOLLET left) in
  if ok then Some k' else None.

(** When what was reported is all registered or not registered at all, the kernel's answer decides. *)
Lemma idle_event_exact s fd ev :
  inv pipe s → in_range pipe s fd →
  let c := context_of s fd in
  let real := real_events (events c) ev in
  Z.land (events c) real = 0 ∨ Z.land (events c) real = real →
  match (if Z.land (events c) real =? 0 then None else lets_go (epfd s) fd (events c) real) with
  | None => idle_event fd ev s = (Ret tt, s)
  | Some k' => idle_event fd ev s = (Ret tt, fired_state s fd real k') ∧ sub_mask real c
      ∧ inv pipe (fired_state s fd real k')
  end.
Proof.
  intros Hinv Hr c real Hok. pose proof (idle_event_unfold pipe s fd ev Hr) as Eu. cbv zeta in Eu.
  fold c in Eu. fold real in Eu.
  destruct (Z.land (events c) real =? 0) eqn:Hz; [exact Eu|].
  destruct Hok as [Hok|Hok]; [lia|]. unfold idle_rest in Eu. unfold lets_go.
  destruct (epoll_ctl _ _ _ _) as [ok k1] eqn:Hctl.
  assert (ctl (if Z.ldiff (events c) real =? 0 then EPOLL_CTL_DEL else EPOLL_CTL_MOD) fd
    (Z.lor EPOLLET (Z.ldiff (events c) real)) s = (Ret ok, set_epfd k1 s)) as Ec by (unfold ctl; by rewrite Hctl).
  erewrite st_bind_Ret in Eu; [|exact Ec]. destruct ok; cbn [negb] in Eu.
  - assert (sub_mask real c) as Hsub by by split; [apply real_events_mask|].
    pose proof (inv_context pipe s fd Hinv) as Hc. fold c in Hc.
    pose proof (pending_bounds pipe s Hinv). pose proof (count_le_total pipe s fd Hinv Hr) as Hle. fold c in Hle.
    destruct (trigger_two pipe (set_epfd k1 s) fd real) as (H1 & H2 & _);
      [done|done|done|change (count c <= m_pendingEventCount s < 2 ^ 64); lia|].
    erewrite st_bind_Ret in Eu; [|exact H1]. rewrite H2 in Eu.
    change (idle_event fd ev s = (Ret tt, fired_state s fd real k1)) in Eu. split_and!; [done|done|].
    destruct (idle_event_ok pipe s fd ev Hinv Hr (or_intror Hok)) as [E|(k' & E & _ & Hinv')];
      [rewrite Eu in E; injection E as ->; exact Hinv|]. by rewrite Eu in Hinv'.
  - apply ctl_failed in Hctl as ->. by rewrite Eu, set_epfd_same.
Qed.

(** What was reported is all registered and the kernel accepts the change: the waiters of these
    events are scheduled. *)
Lemma idle_event_fires s fd ev :
  inv pipe s → in_range pipe s fd →
  let c := context_of s fd in
  let real := real_events (events c) ev in
  Z.land (events c) real ≠ 0 → Z.land (events c) real = real →
  (∃ k', let left := Z.ldiff (events c) real in
     epoll_ctl (epfd s) (if left =? 0 then EPOLL_CTL_DEL else EPOLL_CTL_MOD) fd (Z.lor EPOLLET left)
     = (true, k')) →
  ∃ s', idle_event fd ev s = (Ret tt, s') ∧ inv pipe s'
    ∧ scheduled s' = scheduled s ++ waiting_mask real c
    ∧ events (context_of s' fd) = Z.ldiff (events c) real.
Proof.
  intros Hinv Hr c real Hnz Hall [k1 Hctl].
  pose proof (idle_event_exact s fd ev Hinv Hr (or_intror Hall)) as He. fold c real in He.
  rewrite (proj2 (Z.eqb_neq _ _) Hnz) in He. unfold lets_go in He. cbv zeta in Hctl. rewrite Hctl in He.
  destruct He as (E & Hsub & Hinv'). eexists. split_and!; [exact E|done|done|].
  unfold fired_state. rewrite (context_of_with pipe) by done. fold c.
  by apply disarm_mask_ok; [by eapply inv_context|].
Qed.

(** The same in a state that is right but for its count. *)
Definition sound s : Prop := ∃ m s0, s = short m s0 ∧ inv pipe s0.

Lemma sound_inv s : inv pipe s → sound s.
Proof. intros Hs. exists 0, s. by rewrite (short_0 pipe). Qed.
Lemma sound_step s a d m s' : sound s → step s a d m s' → sound s'.
Proof.
  intros (n & s0 & -> & Hinv) Hstep. apply step_short in Hstep as (s1 & Hstep & ->).
  apply step_ok in Hstep as (s2 & fired & -> & Hinv' & _); [|done]. rewrite short_short. by exists (m + n), s2.
Qed.

Lemma idle_event_sound s fd ev :
  sound s → in_range pipe s fd →
  let c := context_of s fd in
  let real := real_events (events c) ev in
  Z.land (events c) real = 0 ∨ Z.land (events c) real = real →
  match (if Z.land (events c) real =? 0 then None else lets_go (epfd s) fd (events c) real) with
  | None => idle_event fd ev s = (Ret tt, s)
  | Some k' => ∃ s', idle_event fd ev s = (Ret tt, s') ∧ sound s' ∧ epfd s' = k'
      ∧ scheduled s' = scheduled s ++ waiting_mask real c ∧ waiters s ≡ₚ waiting_mask real c ++ waiters s'
      ∧ length (m_fdContexts s') = length (m_fdContexts s)
      ∧ ∀ fd', 0 <= fd' → fd' ≠ fd → context_of s' fd' = context_of s fd'
  end.
Proof.
  intros (m & s0 & -> & Hinv) Hr c real Hok.
  pose proof (idle_event_exact s0 fd ev Hinv Hr Hok) as He. change (context_of s0 fd) with c in He. fold real in He.
  change (epfd (short m s0)) with (epfd s0). rewrite (blind m s0).
  destruct (if Z.land (events c) real =? 0 then _ else _) as [k'|]; [|by rewrite He].
  destruct He as (-> & Hsub & Hinv'). eexists. split; [reflexivity|].
  split; [by exists m, (fired_state s0 fd real k')|]. split; [done|]. split; [done|].
  split; [by apply (waiters_mask s0)|]. split; [cbn; apply length_insert|].
  intros fd' H1 H2. apply (context_of_other s0); [done|apply Hr|done].
Qed.

(** [cancelAll] outside the vector or on a context that waits for nothing is refused;
    otherwise, unless the kernel refuses, it takes every event of the context out, and schedules
    the reader and then the writer. *)
Theorem cancelAll_wakes_all s fd :
  inv pipe s → 0 <= fd → fd ≠ pipe →
  let c := context_of s fd in
  (events c = 0 → cancelAll fd s = (Ret false, s))
  ∧ (events c ≠ 0 →
     cancelAll fd s = (Ret false, s)
     ∨ ∃ s', cancelAll fd s = (Ret true, s')
       ∧ inv pipe s' ∧ events (context_of s' fd) = 0
       ∧ scheduled s' = scheduled s ++ context_waiters c
       ∧ waiters s ≡ₚ context_waiters c ++ waiters s').
Proof.
  intros Hinv Hfd Hp c. pose proof (inv_context pipe s fd Hinv) as Hc. fold c in Hc.
  destruct (decide (fd < Z.of_nat (length (m_fdContexts s)))) as [Hlt|Hge].
  - assert (in_range pipe s fd) as Hr by done.
    pose proof (cancelAll_ok pipe s fd Hinv Hr) as Hok. cbv zeta in Hok. fold c in Hok.
    split; intros Hz; [by rewrite Hz in Hok|]. rewrite (proj2 (Z.eqb_neq _ _) Hz) in Hok.
    destruct Hok as [?|(k' & E & Hev & Hinv')]; [by left|right]. eexists. split; [done|].
    rewrite E in Hinv'. pose proof (waiting_mask_all c Hc) as Hw.
    split_and!; [done| | |].
    + unfold fired_state. by rewrite (context_of_with pipe).
    + cbn. fold c. by rewrite Hw.
    + rewrite <- Hw. apply waiters_mask; [done..|]. by apply sub_mask_all.
  - destruct (remove_out_of_range pipe s fd READ Hinv) as (_ & _ & H1); [lia|]. split; [done|by left].
Qed.

(** [addEvent] tests the length of the vector and lengthens it under different holds of the
    lock, and the length it sets is computed from its own descriptor only. When another thread
    has lengthened the vector further in between, the second thread shortens it again: contexts
    with registered events fall off it, after which they can be neither deleted nor cancelled,
    while they still count as pending, so the manager never stops. *)
Theorem contextResize_race s fd fd' e next sched :
  inv pipe s → 0 <= fd' → fd' * 3 / 2 <= fd → fd < Z.of_nat (length (m_fdContexts s)) →
  32 <= fd' * 3 / 2 → has (events (context_of s fd)) e = true → is_event e →
  let s' := (addEvent_resize fd' s).2 in
  delEvent fd e s' = (Ret false, s') ∧ cancelEvent fd e s' = (Ret false, s')
  ∧ cancelAll fd s' = (Ret false, s')
  ∧ Z.of_nat (length (waiters s')) < m_pendingEventCount s' ∧ stopping next sched s' = false.
Proof.
  intros Hinv Hfd' Hle Hlt H32 Hh He s'. pose proof (inv_size _ _ Hinv) as Hsize.
  set (n := Z.to_nat (fd' * 3 / 2)).
  assert (s' = set_contexts (take n (m_fdContexts s)) s) as ->.
  { unfold s', addEvent_resize, contextResize, modify. cbn [snd]. f_equal.
    unfold n. replace (_ - _)%nat with 0%nat by lia. by rewrite app_nil_r. }
  set (s' := set_contexts _ s).
  assert (addEvent_fits fd s' = false) as Hf.
  { unfold addEvent_fits, s'. cbn. rewrite length_take, swrap_small by (unfold fits_s; lia).
    apply Z.ltb_ge. lia. }
  assert (Z.of_nat (length (waiters s')) < m_pendingEventCount s') as Hw.
  { cbn [m_pendingEventCount s' set_contexts]. rewrite (pending_waiters s Hinv).
    unfold waiters, s', set_contexts. cbn [m_fdContexts].
    rewrite <- (take_drop n (m_fdContexts s)) at 2. rewrite waiters_bind, length_app.
    assert (m_fdContexts s !! Z.to_nat fd = Some (context_of s fd)) as Hl by (apply lookup_context; lia).
    assert (drop n (m_fdContexts s) !! (Z.to_nat fd - n)%nat = Some (context_of s fd)) as Hd.
    { rewrite lookup_drop, <- Hl. f_equal. unfold n. lia. }
    apply list_elem_of_lookup_2, list_elem_of_split in Hd as (l1 & l2 & ->).
    rewrite waiters_bind, bind_cons, !length_app.
    pose proof (waiting_count _ (inv_context pipe s fd Hinv)) as Hcnt.
    pose proof (has_count _ e He Hh). lia. }
  split_and!; [unfold delEvent|unfold cancelEvent|unfold cancelAll|done|];
    [st_run reflexivity; by rewrite Hf..|].
  unfold stopping. rewrite (proj2 (Z.eqb_neq (m_pendingEventCount s') 0)) by lia.
  by rewrite andb_false_r.
Qed.
End reachable.

Lemma s32_mod n :
  s32 n = if n mod 2 ^ 32 <? 2 ^ 31 then n mod 2 ^ 32 else n mod 2 ^ 32 - 2 ^ 32.
Proof.
  unfold swrap. pose proof (Z.mod_pos_bound n (2 ^ 32)). pose proof (Z.div_mod n (2 ^ 32)).
  change (32 - 1) with 31.
  destruct (Z.ltb_spec (n mod 2 ^ 32) (2 ^ 31)).
  - rewrite <- (Z.mod_unique_pos (n + 2 ^ 31) (2 ^ 32) (n / 2 ^ 32) (n mod 2 ^ 32 + 2 ^ 31)); lia.
  - rewrite <- (Z.mod_unique_pos (n + 2 ^ 31) (2 ^ 32) (n / 2 ^ 32 + 1) (n mod 2 ^ 32 - 2 ^ 31)); lia.
Qed.

(** The timeout given to [epoll_wait] lies between 0 and 3000 ms, 3000 when there is no
    timer, unless the next timer is due in 2^31 ms or more: then the conversion to [int] makes
    it negative for some values, which [epoll_wait] takes as waiting for ever. *)
Theorem idle_timeout_bounds next_timeout :
  0 <= next_timeout < 2 ^ 64 →
  (next_timeout < 2 ^ 31 → idle_timeout next_timeout = Z.min 3000 next_timeout)
  ∧ idle_timeout (2 ^ 64 - 1) = 3000
  ∧ (idle_timeout next_timeout < 0 ↔
     next_timeout ≠ 2 ^ 64 - 1 ∧ 2 ^ 31 <= next_timeout mod 2 ^ 32).
Proof.
  intros Hn. split_and!; [|done|].
  - intros Hs. unfold idle_timeout, MAX_TIMEOUT. rewrite (proj2 (Z.eqb_neq _ _)) by lia.
    cbn [negb]. rewrite (swrap_small 32 next_timeout) by (unfold fits_s; lia).
    destruct (Z.ltb_spec 3000 next_timeout); rewrite swrap_small by (unfold fits_s; lia); lia.
  - unfold idle_timeout, MAX_TIMEOUT. destruct (Z.eqb_spec next_timeout (2 ^ 64 - 1)) as [->|Hne].
    { vm_compute. split; [done|]. by intros [[] _]. }
    cbn [negb]. pose proof (Z.mod_pos_bound next_timeout (2 ^ 32)) as Hm.
    destruct (Z.ltb_spec 3000 (s32 next_timeout)) as [Hs|Hs]; rewrite s32_mod in Hs.
    + rewrite (swrap_small 32 3000) by (unfold fits_s; lia). destruct (Z.ltb_spec (next_timeout mod 2 ^ 32) (2 ^ 31)); lia.
    + rewrite s32_mod. destruct (Z.ltb_spec (next_timeout mod 2 ^ 32) (2 ^ 31)); lia.
Qed.

(** ** Witnesses

    A kernel that accepts everything that is documented to be accepted. *)

Definition map_ctl (k : gmap Z Z) (op : ctl_op) (fd ev : Z) : bool * gmap Z Z :=
  match op, k !! fd with
  | EPOLL_CTL_ADD, None => (true, <[fd := ev]> k)
  | EPOLL_CTL_MOD, Some _ => (true, <[fd := ev]> k)
  | EPOLL_CTL_DEL, Some _ => (true, delete fd k)
  | _, _ => (false, k)
  end.

Lemma map_ctl_failed k op fd ev k' : map_ctl k op fd ev = (false, k') → k' = k.
Proof. destruct op; unfold map_ctl; destruct (k !! fd); congruence. Qed.

Lemma map_ctl_done k op fd ev k' :
  map_ctl k op fd ev = (true, k') →
  (k !! fd = None ↔ op = EPOLL_CTL_ADD)
  ∧ k' !! fd = (match op with EPOLL_CTL_DEL => None | _ => Some ev end)
  ∧ ∀ fd', fd' ≠ fd → k' !! fd' = k !! fd'.
Proof.
  destruct op; unfold map_ctl; destruct (k !! fd) eqn:E; intros; simplify_eq;
    (split_and!; [split; by simplify_option_eq|by simplify_map_eq|intros; by simplify_map_eq]).
Qed.

#[local] Instance map_epoll : Epoll := {|
  kernel := gmap Z Z; registered k fd := k !! fd; epoll_ctl := map_ctl;
  ctl_failed := map_ctl_failed; ctl_done := map_ctl_done
|}.

(** The pipe is descriptor 4. A fiber [7] waits to read from descriptor 5, on scheduler 1. *)
Definition pipe_kernel : kernel := {[4 := Z.lor EPOLLET EPOLLIN]} : gmap Z Z.
Definition start : t unit := make pipe_kernel.
Definition reading : t unit := (addEvent (Some 1) 7 true 5 READ None start).2.

Lemma pipe_kernel_ok fd : 0 <= fd → fd ≠ 4 → registered pipe_kernel fd = None.
Proof. intros _ Hne. by apply lookup_singleton_ne. Qed.

Lemma start_reachable : reachable 4 [] [] 0 start.
Proof. apply reachable_make, pipe_kernel_ok. Qed.

Lemma reading_step : step 4 start [(1, TaskFiber 7)] [] 0 reading.
Proof. apply (step_addEvent 4 start 1 7 5 READ None 0); [lia|done|by left|by vm_compute..]. Qed.
Lemma reading_reachable : reachable 4 [(1, TaskFiber 7)] [] 0 reading.
Proof. exact (reachable_step 4 [] [] 0 [(1, TaskFiber 7)] [] 0 _ _ start_reachable reading_step). Qed.

(** A state whose count is right. *)
Lemma exact_inv a d (s : t unit) : reachable 4 a d 0 s → inv 4 s.
Proof. intros (s0 & -> & Hinv & _)%reachable_inv. by rewrite (short_0 4). Qed.
Lemma start_inv : inv 4 start.
Proof. eapply exact_inv, start_reachable. Qed.
Lemma reading_inv : inv 4 reading.
Proof. eapply exact_inv, reading_reachable. Qed.

(** The write of descriptor 5, which nobody waits for, is deleted; then the read is reported. *)
Definition mistaken : t unit := (delEvent 5 WRITE reading).2.
Definition woken_up : t unit := (idle_event 5 EPOLLIN mistaken).2.

Lemma events_conserved_witness :
  [(1, TaskFiber 7)] ≡ₚ scheduled woken_up ++ [] ++ waiters woken_up
  ∧ m_pendingEventCount woken_up = 2 ^ 64 - 1.
Proof.
  destruct (events_conserved 4 [(1, TaskFiber 7)] [] 1 woken_up) as (H1 & _ & H2).
  - apply (reachable_step 4 [(1, TaskFiber 7)] [] 1 [] [] 0 mistaken).
    + apply (reachable_step 4 [(1, TaskFiber 7)] [] 0 [] [] 1 reading); [apply reading_reachable|].
      apply (step_delEvent 4 reading 5 WRITE true); [lia|lia|by right|by vm_compute].
    + apply (step_idle 4 mistaken 5 EPOLLIN); [by split; [vm_compute|]|by vm_compute].
  - split; [exact H1|]. rewrite H2. by vm_compute.
Defined.

Lemma addEvent_registers_witness :
  scheduled (addEvent (Some 1) 7 true 5 WRITE (Some tt) reading).2 = scheduled reading.
Proof.
  pose proof (addEvent_registers 4 reading 1 7 5 WRITE (Some tt) reading_inv) as Hr.
  specialize (Hr ltac:(lia) ltac:(lia) (or_intror eq_refl)).
  destruct (addEvent _ _ _ _ _ _ reading) as [r s'].
  assert (has (events (context_of reading 5)) WRITE = false) as Hh by by vm_compute.
  rewrite Hh in Hr. apply Hr.
Defined.

Lemma delEvent_cancelEvent_witness :
  has (events (context_of reading 5)) READ = true ∧ ∃ p w, waiting READ (context_of reading 5) = [(p, w)].
Proof.
  assert (has (events (context_of reading 5)) READ = true) as Hh by by vm_compute.
  destruct (delEvent_cancelEvent 4 reading 5 READ reading_inv) as [_ Hd]; [lia|lia|by left|].
  destruct (Hd Hh) as (p & w & ? & _). split; [exact Hh|by exists p, w].
Defined.

Lemma remove_unregistered_event_witness : (cancelEvent 5 WRITE reading).1 = Abort.
Proof.
  eapply (remove_unregistered_event 4 reading 5 WRITE _ reading_inv);
    [by split; [vm_compute|]|by right|done|by vm_compute].
Defined.

Lemma idle_wakes_reported_witness :
  let '(r, s') := idle_event 5 EPOLLHUP reading in r = Ret tt.
Proof.
  pose proof (idle_wakes_reported 4 reading 5 EPOLLHUP reading_inv ltac:(by split; [vm_compute|])) as Hi.
  cbv zeta in Hi. destruct (idle_event 5 EPOLLHUP reading) as [r s'].
  assert (Z.land (events (context_of reading 5)) (real_events (events (context_of reading 5)) EPOLLHUP)
    =? real_events (events (context_of reading 5)) EPOLLHUP = true) as Hl by by vm_compute.
  rewrite Hl in Hi. by destruct Hi as [[_ ?]|(_ & ? & _)].
Defined.

Lemma cancelAll_wakes_all_witness :
  cancelAll 5 reading = (Ret false, reading)
  ∨ ∃ s', cancelAll 5 reading = (Ret true, s') ∧ scheduled s' = [(1, TaskFiber 7)].
Proof.
  destruct (cancelAll_wakes_all 4 reading 5 reading_inv) as [_ Hc]; [lia|lia|].
  destruct Hc as [?|(s' & ? & _ & _ & Hs & _)]; [by vm_compute|by left|right].
  exists s'. split; [done|]. rewrite Hs. by vm_compute.
Defined.

(** Two threads add descriptors 60 and 40: the second one shortens the vector to 60. *)
Definition far : t unit := (addEvent (Some 1) 7 true 60 READ None start).2.

Lemma far_inv : inv 4 far.
Proof.
  eapply (exact_inv [(1, TaskFiber 7)] []).
  apply (reachable_step 4 [] [] 0 [(1, TaskFiber 7)] [] 0 start); [apply start_reachable|].
  apply (step_addEvent 4 start 1 7 60 READ None 0); [lia|done|by left|by vm_compute..].
Qed.

Lemma contextResize_race_witness :
  stopping (2 ^ 64 - 1) true (addEvent_resize 40 far).2 = false.
Proof.
  apply (contextResize_race 4 far 60 40 READ); [apply far_inv|lia|vm_compute; discriminate| |
    vm_compute; discriminate|by vm_compute|by left]. by vm_compute.
Defined.

Lemma idle_timeout_bounds_witness : idle_timeout 100 = 100.
Proof. apply (idle_timeout_bounds 100); lia. Defined.
