(* ===== verification/Reactor.v ===== *)
(** * The idle fiber of an IOManager (sylar/iomanager.cpp: idle, stopping, tickle)

    What a thread of the reactor does when there is no task: it asks the timers how long it may
    wait, waits in [epoll_wait], schedules the callbacks of the timers that are due and the waiters
    of the descriptors that were reported, and yields. One round of the loop ends where the fiber
    yields. The kernel's answers, the clock and what the scheduler says about stopping are
    arguments; between two rounds the other operations of [Timers] and [IOManager] run. *)

From S2P Require Import Prelude StdOrdered Timers TimersSpec IOManager IOManagerSpec IOManagerSteps IOManagerProps.

Module Reactor.
Section reactor.
Context {Cb : Type} `{Epoll}.

(** The two base objects with state, and the bytes in the pipe that wakes a thread up. *)
Record world := mk {
  tim : TimerManager.t Cb;
  iom : IOManager.t Cb;
  m_tickleFds : Z;
}.
Definition on_tim {A} (m : ST (TimerManager.t Cb) A) : ST world A := fun w =>
  let '(r, x) := m (tim w) in (r, mk x (iom w) (m_tickleFds w)).
Definition on_iom {A} (m : ST (IOManager.t Cb) A) : ST world A := fun w =>
  let '(r, x) := m (iom w) in (r, mk (tim w) x (m_tickleFds w)).

(** [tickle()], and [onTimerInsertedAtFront()], which is the same: a byte for the pipe when a
    thread is idle. *)
Definition tickle (hasIdleThreads : bool) (w : world) : world :=
  if hasIdleThreads then mk (tim w) (iom w) (m_tickleFds w + 1) else w.

(** [while (read(...) == 1);] on the pipe, which does not block. *)
Definition pipe_read (n : Z) : Z * Z := if 0 <? n then (Z.min n 256, n - Z.min n 256) else (-1, n).
Fixpoint drain (fuel : nat) (n : Z) : outcome Z :=
  match fuel with
  | O => NoFuel
  | S fuel => let '(r, n) := pipe_read n in if r =? 1 then drain fuel n else Ret n
  end.

(** ** Waiting

    An event comes from the pipe or from a context: [epoll_data] holds a descriptor or a pointer,
    and no pointer is taken for the descriptor of the pipe. *)
Inductive source := Tickle | Fd (fd : Z).
Inductive answer := Interrupted | Failed | Reported (l : list (source * Z)).

(** What becomes of [next_timeout] in each turn of the inner loop. *)
Definition clip (next_timeout : Z) : Z :=
  if negb (next_timeout =? 2 ^ 64 - 1)
  then if IOManager.MAX_TIMEOUT <? s32 next_timeout then IOManager.MAX_TIMEOUT else next_timeout
  else IOManager.MAX_TIMEOUT.

(** The inner [do] loop, with the answers of the kernel: the timeouts that were passed, and what
    was reported. *)
Fixpoint wait (next_timeout : Z) (answers : list answer) : outcome (list Z * list (source * Z)) :=
  match answers with
  | [] => NoFuel
  | a :: answers =>
      let next_timeout := clip next_timeout in
      match a with
      | Interrupted => r ← wait next_timeout answers; Ret (s32 next_timeout :: r.1, r.2)
      | Failed => Ret ([s32 next_timeout], [])
      | Reported l => Ret ([s32 next_timeout], l)
      end
  end.

(** [schedule(cbs.begin(), cbs.end())]: [this] is this scheduler. *)
Fixpoint schedule_all (this : Z) (cbs : list (option Cb)) : ST (IOManager.t Cb) unit :=
  match cbs with
  | [] => mret tt
  | cb :: cbs => IOManager.schedule (Some this) (IOManager.TaskCb <$> cb);; schedule_all this cbs
  end.

(** The loop over the reported events. *)
Fixpoint dispatch (events : list (source * Z)) : ST world unit :=
  match events with
  | [] => mret tt
  | (Tickle, _) :: events =>
      w ← get;
      n ← lift (drain 2 (m_tickleFds w));
      modify (fun w => mk (tim w) (iom w) n);;
      dispatch events
  | (Fd fd, ev) :: events => on_iom (IOManager.idle_event fd ev);; dispatch events
  end.

(** [stopping(timeout)]: the answer, and the timeout. *)
Definition stopping (now : Z) (scheduler_stopping : bool) : ST world (bool * Z) :=
  timeout ← on_tim (TimerManager.getNextTimer now);
  w ← get;
  mret (IOManager.stopping timeout scheduler_stopping (iom w), timeout).

(** One round: nothing when the loop ends, else the timeouts that were passed. [now0] is the clock
    at the beginning, [now] when [epoll_wait] has returned, [now_timer] the address of the
    temporary of [listExpiredCb]. *)
Definition idle_round (this now0 now now_timer : Z) (scheduler_stopping : bool) (answers : list answer)
    : ST world (option (list Z)) :=
  st ← stopping now0 scheduler_stopping;
  if (st.1 : bool) && (st.2 =? 2 ^ 64 - 1) then mret None
  else
    r ← lift (wait st.2 answers);
    cbs ← on_tim (TimerManager.listExpiredCb now_timer now []);
    (match cbs with [] => mret tt | _ => on_iom (schedule_all this cbs) end);;
    dispatch r.2;;
    mret (Some r.1).
End reactor.
Arguments world Cb {_}.
End Reactor.

(** ** One round *)

Import Reactor.

Lemma clip_timeout n : IOManager.idle_timeout n = s32 (clip n).
Proof. reflexivity. Qed.
Lemma clip_idempotent n : clip (clip n) = clip n.
Proof.
  unfold clip. destruct (Z.eqb_spec n (2 ^ 64 - 1)) as [->|Hn]; cbn [negb]; [done|].
  destruct (Z.ltb_spec IOManager.MAX_TIMEOUT (s32 n)); [done|].
  rewrite (proj2 (Z.eqb_neq _ _)) by done. cbn [negb]. by rewrite (proj2 (Z.ltb_ge _ _)).
Qed.

Lemma clip_small n : 0 <= n < 2 ^ 31 → IOManager.idle_timeout n = Z.min 3000 n.
Proof.
  intros Hn. rewrite clip_timeout. unfold clip, IOManager.MAX_TIMEOUT.
  rewrite (proj2 (Z.eqb_neq _ _)) by lia. cbn [negb]. rewrite (swrap_small 32 n) by (unfold fits_s; lia).
  destruct (Z.ltb_spec 3000 n); rewrite swrap_small by (unfold fits_s; lia); lia.
Qed.

(** The pipe is empty after at most 256 bytes. *)
Lemma drain_ok n : 0 <= n → drain 2 n = Ret (Z.max 0 (n - 256)).
Proof.
  intros Hn. cbn [drain]. unfold pipe_read at 1. destruct (Z.ltb_spec 0 n) as [Hp|Hp].
  - destruct (Z.eqb_spec (Z.min n 256) 1) as [E|E]; [|f_equal; lia].
    assert (n = 1) as -> by lia. done.
  - assert (n = 0) as -> by lia. done.
Qed.

(** Signals and the last answer. *)
Definition interrupted (k : nat) (l : option (list (source * Z))) : list answer :=
  replicate k Interrupted ++ [match l with Some l => Reported l | None => Failed end].

Lemma wait_ok k l : ∀ next, wait next (interrupted k l)
  = Ret (replicate (S k) (IOManager.idle_timeout next), default [] l).
Proof.
  induction k as [|k IH]; intros next.
  - by destruct l.
  - cbn [interrupted replicate app wait]. fold (interrupted k l). rewrite IH, bind_Ret. cbn [fst snd].
    by rewrite !clip_timeout, clip_idempotent.
Qed.

Section round.
Context {Cb : Type} `{Epoll}.
Implicit Types (s : IOManager.t Cb) (w : world Cb).
Context (pipe : Z).
Abbreviation sound := (IOManagerProps.sound pipe).
Abbreviation in_range := (in_range pipe).

(** What the callbacks of timers become. *)
Definition tasks (this : Z) (cbs : list (option Cb)) : list (Z * IOManager.task Cb) :=
  (λ f, (this, IOManager.TaskCb f)) <$> omap id cbs.

Definition with_scheduled s q : IOManager.t Cb := IOManager.set_scheduled (IOManager.scheduled s ++ q) s.

Lemma schedule_all_ok this cbs : ∀ s, schedule_all this cbs s = (Ret tt, with_scheduled s (tasks this cbs)).
Proof.
  induction cbs as [|cb cbs IH]; intros s; cbn [schedule_all].
  - unfold with_scheduled. cbn. rewrite app_nil_r. by destruct s.
  - st_run reflexivity. rewrite IH. unfold tasks. cbn [omap list_omap id].
    destruct cb as [f|]; [|by destruct s]. unfold with_scheduled. cbn. by rewrite <- app_assoc.
Qed.

Lemma with_scheduled_sound s q : sound s → sound (with_scheduled s q).
Proof.
  intros (m & s0 & -> & [Hc Hp Hk Hs]). by exists m, (with_scheduled s0 q).
Qed.

(** A report that [idle] can treat: of a context in the vector, and of nothing that was removed
    while something else is still registered. *)
Definition real_of s (r : source * Z) : Z :=
  match r.1 with
  | Tickle => 0
  | Fd fd => IOManager.real_events (IOManager.events (context_of s fd)) r.2
  end.
Definition report_ok s (r : source * Z) : Prop :=
  match r.1 with
  | Tickle => True
  | Fd fd => in_range s fd ∧
      let e := IOManager.events (context_of s fd) in
      Z.land e (real_of s r) = 0 ∨ Z.land e (real_of s r) = real_of s r
  end.
(** The waiters of a report. *)
Definition woken s (r : source * Z) : list (Z * IOManager.task Cb) :=
  match r.1 with Tickle => [] | Fd fd => waiting_mask (real_of s r) (context_of s fd) end.

Lemma real_of_same s s' fd ev :
  context_of s' fd = context_of s fd → real_of s' (Fd fd, ev) = real_of s (Fd fd, ev).
Proof. unfold real_of. cbn. by intros ->. Qed.

(** The reports that are served: those with a registered event whose change the kernel accepts, asked
    in the order of the reports; and the kernel afterwards. *)
Fixpoint served s (k : kernel) (l : list (source * Z)) : list (source * Z) * kernel :=
  match l with
  | [] => ([], k)
  | (Tickle, _) :: l => served s k l
  | (Fd fd, ev) :: l =>
      let e := IOManager.events (context_of s fd) in
      let real := IOManager.real_events e ev in
      match (if Z.land e real =? 0 then None else lets_go k fd e real) with
      | None => served s k l
      | Some k' => let r := served s k' l in ((Fd fd, ev) :: r.1, r.2)
      end
  end.

(** Reports on other descriptors are not touched. *)
Definition same_for s s' (r : source * Z) : Prop :=
  match r.1 with Tickle => True | Fd fd => context_of s' fd = context_of s fd end.

Lemma served_same s s' l : Forall (same_for s s') l → ∀ k, served s' k l = served s k l.
Proof.
  induction 1 as [|[[|fd] ev] l Hr _ IH]; intros k; cbn [served]; [done|apply IH|].
  unfold same_for in Hr. cbn in Hr. rewrite Hr.
  destruct (if Z.land _ _ =? 0 then _ else _) as [k'|]; by rewrite IH.
Qed.

Lemma served_sublist s l : ∀ k, (served s k l).1 `sublist_of` l.
Proof.
  induction l as [|[[|fd] ev] l IH]; intros k; cbn [served]; [done|by apply sublist_cons|].
  destruct (if Z.land _ _ =? 0 then _ else _) as [k'|]; cbn; [by apply sublist_skip|by apply sublist_cons].
Qed.

Lemma woken_same s s' r : same_for s s' r → woken s' r = woken s r.
Proof. destruct r as [[|fd] ev]; [done|]. unfold same_for, woken, real_of. cbn. by intros ->. Qed.

Lemma report_ok_same s s' r :
  same_for s s' r → length (IOManager.m_fdContexts s') = length (IOManager.m_fdContexts s) →
  report_ok s r → report_ok s' r.
Proof.
  destruct r as [[|fd] ev]; [done|]. unfold same_for, report_ok, real_of, in_range, IOManagerSpec.in_range. cbn.
  by intros -> ->.
Qed.

(** The reports are treated one after the other. *)
Lemma dispatch_ok l : ∀ w,
  sound (iom w) → 0 <= m_tickleFds w → NoDup l.*1 → Forall (report_ok (iom w)) l →
  let sv := served (iom w) (IOManager.epfd (iom w)) l in
  ∃ w', dispatch l w = (Ret tt, w') ∧ tim w' = tim w
    ∧ sound (iom w') ∧ 0 <= m_tickleFds w' ∧ IOManager.epfd (iom w') = sv.2
    ∧ IOManager.scheduled (iom w') = IOManager.scheduled (iom w) ++ (sv.1 ≫= woken (iom w))
    ∧ waiters (iom w) ≡ₚ (sv.1 ≫= woken (iom w)) ++ waiters (iom w').
Proof.
  induction l as [|[src ev] l IH]; intros w Hinv Hn Hnd Hok; cbn [dispatch served].
  { exists w. cbn. by rewrite app_nil_r. }
  cbn [fmap list_fmap fst] in Hnd. apply NoDup_cons in Hnd as [Hsrc Hnd].
  apply Forall_cons in Hok as [Hr Hok]. destruct src as [|fd].
  - st_run reflexivity. st_run (apply lift_Ret, drain_ok; done). st_run reflexivity.
    apply (IH (mk (tim w) (iom w) (Z.max 0 (m_tickleFds w - 256)))); [done|cbn; lia|done|done].
  - destruct Hr as [Hfd Hev]. pose proof (idle_event_sound pipe (iom w) fd ev Hinv Hfd Hev) as He.
    cbv zeta in He. destruct (if Z.land _ _ =? 0 then _ else _) as [k'|].
    + destruct He as (s' & E & Hs' & Hk & Hq & Hw & Hlen & Hsame).
      assert (Forall (same_for (iom w) s') l) as Hl.
      { apply Forall_forall. intros [[|fd'] ev'] Hin; [done|]. unfold same_for. cbn. rewrite Forall_forall in Hok.
        apply Hsame; [apply (Hok _ Hin)|]. intros ->. apply Hsrc.
        by apply (list_elem_of_fmap_2 fst _ (Fd fd, ev')). }
      st_run (unfold on_iom; rewrite E; reflexivity).
      destruct (IH (mk (tim w) s' (m_tickleFds w))) as (w' & E' & Ht & Hi & Hn' & Hk' & Hq' & Hw'); [done|done|done| |].
      { rewrite Forall_forall in Hok, Hl |- *. intros r Hin. by eapply report_ok_same; auto. }
      cbn [iom tim m_tickleFds] in *. rewrite Hk in *. rewrite (served_same (iom w) s' l Hl k') in *.
      set (sv := served (iom w) k' l) in *.
      assert (sv.1 ≫= woken s' = sv.1 ≫= woken (iom w)) as Es.
      { apply Forall_bind_ext, Forall_forall. intros r Hin. rewrite Forall_forall in Hl. apply woken_same, Hl.
        eapply elem_of_submseteq; [exact Hin|]. apply sublist_submseteq, served_sublist. }
      rewrite Es in *. exists w'. split_and!; [exact E'|done..| |]; cbn [fst snd mbind list_bind];
        change (woken (iom w) (Fd fd, ev))
          with (waiting_mask (IOManager.real_events (IOManager.events (context_of (iom w) fd)) ev) (context_of (iom w) fd)).
      * by rewrite Hq', Hq, <- app_assoc.
      * rewrite Hw, <- app_assoc. by apply Permutation_app_head.
    + st_run (unfold on_iom; rewrite He; reflexivity). destruct w as [ti io n]. by apply (IH (mk ti io n)).
Qed.

(** ** The reactor while the program runs *)

(** The timers and the contexts are in order. *)
Definition consistent w : Prop :=
  TimersSpec.inv (tim w) ∧ sound (iom w) ∧ 0 <= m_tickleFds w.
(** What a round finds: a clock past the epoch, a fresh address, each descriptor reported once. *)
Definition round_ok w (now0 now_timer : Z) (l : list (source * Z)) : Prop :=
  0 < now0 ∧ fits_u 64 now0 ∧ TimerManager.heap (tim w) !! now_timer = None
  ∧ NoDup l.*1 ∧ Forall (report_ok (iom w)) l.

Lemma idle_round_ok this now0 now now_timer stop k l w :
  consistent w → round_ok w now0 now_timer (default [] l) →
  ∃ next, TimerManager.getNextTimer now0 (tim w) = (Ret next, TimerManager.set_tickled false (tim w))
    ∧ if IOManager.stopping next stop (iom w)
      then idle_round this now0 now now_timer stop (interrupted k l) w
           = (Ret None, mk (TimerManager.set_tickled false (tim w)) (iom w) (m_tickleFds w))
      else let sv := served (iom w) (IOManager.epfd (iom w)) (default [] l) in
           ∃ w', idle_round this now0 now now_timer stop (interrupted k l) w
             = (Ret (Some (replicate (S k) (IOManager.idle_timeout next))), w')
           ∧ consistent w' ∧ IOManager.epfd (iom w') = sv.2
           ∧ IOManager.scheduled (iom w') = IOManager.scheduled (iom w)
               ++ tasks this (callbacks (TimerManager.heap (tim w)) (due (tim w) now))
               ++ (sv.1 ≫= woken (iom w))
           ∧ waiters (iom w) ≡ₚ (sv.1 ≫= woken (iom w)) ++ waiters (iom w').
Proof.
  intros (Ht & Hi & Hp) (_ & Hnow & Hfresh & Hnd & Hok).
  destruct (getNextTimer_ok (tim w) now0 Ht Hnow) as (next & En & _). exists next. split; [done|].
  set (t1 := TimerManager.set_tickled false (tim w)) in *.
  assert (stopping now0 stop w = (Ret (IOManager.stopping next stop (iom w), next),
    mk t1 (iom w) (m_tickleFds w))) as Es.
  { unfold stopping. st_run (unfold on_tim; rewrite En; reflexivity). done. }
  assert (TimersSpec.inv t1) as Ht1 by by apply inv_set_tickled.
  unfold idle_round. st_run exact Es. cbn [fst snd].
  destruct (IOManager.stopping next stop (iom w)) eqn:Estop.
  { unfold IOManager.stopping in Estop. apply andb_true_iff in Estop as [[En' _]%andb_true_iff _].
    by rewrite En'. }
  cbn [andb]. st_run (rewrite wait_ok; reflexivity). cbn [fst snd].
  destruct (listExpiredCb_ok t1 now_timer now [] Ht1 Hfresh) as (t2 & El & Ht2 & _).
  st_run (unfold on_tim; cbn [tim]; rewrite El; reflexivity). cbn [app iom m_tickleFds].
  set (cbs := callbacks _ _).
  assert ((match cbs with [] => mret tt | _ => on_iom (schedule_all this cbs) end) (mk t2 (iom w) (m_tickleFds w))
    = (Ret tt, mk t2 (with_scheduled (iom w) (tasks this cbs)) (m_tickleFds w))) as Ec.
  { destruct cbs as [|cb cbs'] eqn:E.
    - unfold with_scheduled, tasks. cbn. rewrite app_nil_r. by destruct (iom w).
    - unfold on_iom. cbn [iom]. by rewrite schedule_all_ok. }
  st_run exact Ec.
  destruct (dispatch_ok (default [] l) (mk t2 (with_scheduled (iom w) (tasks this cbs)) (m_tickleFds w)))
    as (w' & Ed & Htim & Hinv & Hp' & Hk & Hq & Hw);
    [by apply with_scheduled_sound|done|done|exact Hok|].
  exists w'. st_run exact Ed. split; [done|].
  split; [split; [by rewrite Htim|done]|]. cbn [iom] in *.
  rewrite (served_same (iom w) (with_scheduled (iom w) (tasks this cbs))) in Hk, Hq, Hw
    by (apply Forall_forall; intros [[|] ?] _; done).
  split; [exact Hk|]. split; [rewrite Hq; cbn; by rewrite <- app_assoc|exact Hw].
Qed.

(** The steps of the program: operations on timers and on events by any thread, a wake-up, and the
    rounds of the idle fibers. *)
Inductive step w : world Cb → Prop :=
| step_timers o t' : valid (tim w) o → TimersSpec.run o (tim w) = (Ret tt, t') →
    step w (mk t' (iom w) (m_tickleFds w))
| step_events a d m s' : IOManagerProps.step pipe (iom w) a d m s' →
    step w (mk (tim w) s' (m_tickleFds w))
| step_tickle idle : step w (tickle idle w)
| step_idle this now0 now now_timer stop k l r w' :
    round_ok w now0 now_timer (default [] l) →
    idle_round this now0 now now_timer stop (interrupted k l) w = (Ret r, w') → step w w'.

Definition start (now : Z) (k : kernel) : world Cb := mk (TimerManager.make now) (IOManager.make k) 0.
(** Only the pipe is registered when the program starts. *)
Definition reached w : Prop :=
  ∃ now k, (∀ fd, 0 <= fd → fd ≠ pipe → registered k fd = None) ∧ rtc step (start now k) w.

Lemma reactor_step_consistent w w' : consistent w → step w w' → consistent w'.
Proof.
  intros Hc Hs. pose proof Hc as (Ht & Hi & Hp).
  destruct Hs as [o t' Hv E|a d m s' E|idle|this now0 now now_timer stop k l r w' Hr E].
  - destruct (run_ok (tim w) o Ht Hv) as (t & E' & Ht'). rewrite E in E'. simplify_eq. done.
  - split; [done|]. split; [|done]. by eapply (sound_step pipe).
  - unfold tickle. destruct idle; [|done]. split; [done|]. split; [done|cbn; lia].
  - destruct (idle_round_ok this now0 now now_timer stop k l w Hc Hr) as (next & _ & Hrun).
    destruct (IOManager.stopping next stop (iom w)).
    + rewrite E in Hrun. simplify_eq. split; [by apply inv_set_tickled|done].
    + destruct Hrun as (w1 & E1 & H1 & _). rewrite E in E1. by simplify_eq.
Qed.

Lemma reached_consistent w : reached w → consistent w.
Proof.
  intros (now & k & Hk & Hs). assert (consistent (start now k)) as H0.
  { split; [apply make_inv|]. split; [by apply sound_inv, inv_make|done]. }
  induction Hs as [|w0 w1 w2 H1 _ IH]; [done|]. by apply IH, (reactor_step_consistent w0).
Qed.

(** [~0ull] says that there is no timer, and no timer is due before what [getNextTimer] says. *)
Lemma no_timer_next w now0 now_timer next l :
  consistent w → round_ok w now0 now_timer l →
  TimerManager.getNextTimer now0 (tim w) = (Ret next, TimerManager.set_tickled false (tim w)) →
  next = 2 ^ 64 - 1 ↔ TimerManager.m_timers (tim w) = [].
Proof.
  intros (Ht & _) (Hpos & Hnow & _) En. destruct (getNextTimer_ok (tim w) now0 Ht Hnow) as (next' & En' & Hr).
  rewrite En in En'. simplify_eq. destruct (TimerManager.m_timers (tim w)) as [|p ts] eqn:El; [done|].
  destruct Hr as [-> _]. split; [|done]. intros E. exfalso.
  destruct (inv_heap _ Ht p) as [tm Htm]; [rewrite El; by left|].
  pose proof (inv_next _ Ht p tm Htm) as Hf. unfold TimerManager.next_at, fits_u in *. rewrite Htm in E. lia.
Qed.

Lemma next_before w now0 now_timer next l p tm :
  consistent w → round_ok w now0 now_timer l →
  TimerManager.getNextTimer now0 (tim w) = (Ret next, TimerManager.set_tickled false (tim w)) →
  TimerManager.heap (tim w) !! p = Some tm → p ∈ TimerManager.m_timers (tim w) →
  0 <= next <= Z.max 0 (TimerManager.m_next tm - now0).
Proof.
  intros (Ht & _) (_ & Hnow & _) En Hp Hin. destruct (getNextTimer_ok (tim w) now0 Ht Hnow) as (next' & En' & Hr).
  rewrite En in En'. simplify_eq. destruct (TimerManager.m_timers (tim w)) as [|p0 ts] eqn:El.
  - by apply elem_of_nil in Hin.
  - destruct Hr as [-> Hle]. specialize (Hle p Hin). unfold TimerManager.next_at at 2 in Hle.
    rewrite Hp in Hle. lia.
Qed.

(** C6. One round of the idle loop, in any state that operations on timers and on events (one at a
    time), wake-ups and earlier rounds lead to, when nothing that is reported was removed in
    between next to something still registered. The loop ends exactly when there is no timer, the
    count of pending events is 0 and the scheduler stops; then nothing is scheduled. Otherwise the
    callbacks of exactly the timers that are due are scheduled, the earliest first; then the
    reports are treated in their order: for each one with a registered event the kernel is asked
    to let the events go, and exactly for those it does, the waiters of these events are scheduled,
    once; everybody else still waits, and the kernel is left in the state of its last answer. *)
Theorem idle_round_serves w this now0 now now_timer stop k l :
  reached w → round_ok w now0 now_timer (default [] l) →
  ∃ r w', idle_round this now0 now now_timer stop (interrupted k l) w = (Ret r, w')
    ∧ (r = None ↔ TimerManager.m_timers (tim w) = []
         ∧ IOManager.m_pendingEventCount (iom w) = 0 ∧ stop = true)
    ∧ (r = None → iom w' = iom w)
    ∧ (r ≠ None →
         let sv := served (iom w) (IOManager.epfd (iom w)) (default [] l) in
         IOManager.scheduled (iom w') = IOManager.scheduled (iom w)
             ++ tasks this (callbacks (TimerManager.heap (tim w)) (due (tim w) now))
             ++ (sv.1 ≫= woken (iom w))
         ∧ waiters (iom w) ≡ₚ (sv.1 ≫= woken (iom w)) ++ waiters (iom w')
         ∧ IOManager.epfd (iom w') = sv.2).
Proof.
  intros Hc%reached_consistent Hr.
  destruct (idle_round_ok this now0 now now_timer stop k l w Hc Hr) as (next & En & Hrun).
  pose proof (no_timer_next w now0 now_timer next (default [] l) Hc Hr En) as Hnext.
  unfold IOManager.stopping in Hrun. destruct (_ && _) eqn:E.
  - apply andb_true_iff in E as [[E1%Z.eqb_eq E2%Z.eqb_eq]%andb_true_iff E3].
    eexists _, _. split; [exact Hrun|]. split; [|done]. split; [|done]. intros _. by rewrite <- Hnext.
  - destruct Hrun as (w' & Er & _ & Hk & Hq & Hw).
    eexists _, w'. split; [exact Er|]. split; [|by split].
    split; [done|]. intros (Hn & Hz & Hs). rewrite <- Hnext in Hn. by rewrite Hn, Hz, Hs in E.
Qed.

(** C10. No deadline is missed: in any state that is reached and for any timer with a callback, a round
    of the idle loop passes timeouts to epoll_wait between 0 and the time left until the deadline,
    and at most 3 seconds, as long as less than 2^31 milliseconds are left; and the first round
    whose clock has come to the deadline schedules the callback. *)
Theorem timer_deadline w this now0 now now_timer stop k l p tm cb :
  reached w → round_ok w now0 now_timer (default [] l) →
  TimerManager.heap (tim w) !! p = Some tm → TimerManager.m_cb tm = Some cb →
  ∃ passed w', idle_round this now0 now now_timer stop (interrupted k l) w = (Ret (Some passed), w')
    ∧ (TimerManager.m_next tm - now0 < 2 ^ 31 →
         ∀ t, t ∈ passed → 0 <= t <= Z.min 3000 (Z.max 0 (TimerManager.m_next tm - now0)))
    ∧ (TimerManager.m_next tm <= now → (this, IOManager.TaskCb cb) ∈ IOManager.scheduled (iom w')).
Proof.
  intros Hc%reached_consistent Hr Hp Hcb.
  destruct (idle_round_ok this now0 now now_timer stop k l w Hc Hr) as (next & En & Hrun).
  pose proof Hc as (Ht & _). pose proof (no_timer_next w now0 now_timer next (default [] l) Hc Hr En) as Hnext.
  assert (p ∈ TimerManager.m_timers (tim w)) as Hin by (eapply inv_cb; [done..|]; by rewrite Hcb).
  unfold IOManager.stopping in Hrun. rewrite (proj2 (Z.eqb_neq next (2 ^ 64 - 1))) in Hrun.
  2: { intros E%Hnext. rewrite E in Hin. by apply elem_of_nil in Hin. }
  destruct Hrun as (w' & Er & _ & _ & Hq & _).
  eexists _, w'. split; [exact Er|]. split.
  - intros Hleft t ->%elem_of_replicate_inv.
    pose proof (next_before w now0 now_timer next (default [] l) p tm Hc Hr En Hp Hin) as Hb.
    assert (0 <= next < 2 ^ 31) as Hn by lia.
    rewrite clip_small by done. lia.
  - intros Hdue. rewrite Hq, !elem_of_app. right. left.
    apply list_elem_of_fmap. exists cb. split; [done|]. apply list_elem_of_omap. exists (Some cb).
    split; [|done]. unfold callbacks. apply list_elem_of_In, in_map_iff. exists p.
    split; [unfold callback; by rewrite Hp|]. apply list_elem_of_In. unfold due.
    destruct (rolled_over _ _); [done|]. apply list_elem_of_filter. split; [|done].
    unfold TimerManager.next_at. by rewrite Hp.
Qed.
End round.

(** ** A concrete round

    Two timers, due at 105 and 103; fiber 7 waits to read from descriptor 5; a wake-up is in the
    pipe, which is descriptor 4. *)
#[local] Existing Instance map_epoll.

Definition two_timers : TimerManager.t nat :=
  (TimerManager.addTimer 100 20 3 (Some 2%nat) true
    (TimerManager.addTimer 100 10 5 (Some 1%nat) false (TimerManager.make 100)).2).2.
Definition one_reader : IOManager.t nat :=
  (IOManager.addEvent (Some 1) 7 true 5 IOManager.READ None (IOManager.make pipe_kernel)).2.
Definition busy : world nat := mk two_timers one_reader 1.
Definition reports : list (source * Z) := [(Tickle, IOManager.EPOLLIN); (Fd 5, IOManager.EPOLLIN)].

Lemma busy_reached : reached 4 busy.
Proof.
  exists 100, pipe_kernel. split; [apply pipe_kernel_ok|].
  eapply rtc_l; [apply (step_timers 4 _ (AddTimer 100 10 5 (Some 1%nat) false)); reflexivity|].
  eapply rtc_l; [apply (step_timers 4 _ (AddTimer 100 20 3 (Some 2%nat) true)); reflexivity|].
  eapply rtc_l; [eapply (step_events 4), (step_addEvent 4 _ 1 7 5 IOManager.READ None 0);
    [lia|done|by left|by vm_compute]|].
  eapply rtc_l; [apply (step_tickle 4 _ true)|]. reflexivity.
Qed.

Lemma busy_round : round_ok 4 busy 102 99 reports.
Proof.
  split; [lia|]. split; [done|]. split; [done|]. split.
  - apply NoDup_cons. split; [by intros ?%list_elem_of_singleton|apply NoDup_singleton].
  - apply Forall_cons. split; [done|]. apply Forall_cons. split; [|by constructor].
    split; [by split; [vm_compute|]|]. right. by vm_compute.
Qed.

Lemma idle_round_serves_witness :
  ∃ w', idle_round 1 102 104 99 false (interrupted 1 (Some reports)) busy = (Ret (Some [1; 1]), w')
    ∧ IOManager.scheduled (iom w') = [(1, IOManager.TaskCb 2%nat); (1, IOManager.TaskFiber 7)].
Proof.
  destruct (idle_round_serves 4 busy 1 102 104 99 false 1 (Some reports) busy_reached busy_round)
    as (r & w' & E & _ & _ & Hs).
  assert (r = Some [1; 1] ∧ IOManager.scheduled (iom w') = [(1, IOManager.TaskCb 2%nat); (1, IOManager.TaskFiber 7)])
    as [-> Hq].
  { assert ((idle_round 1 102 104 99 false (interrupted 1 (Some reports)) busy) = (Ret r, w')) as E' by exact E.
    vm_compute in E'. by simplify_eq. }
  exists w'. split; [exact E|exact Hq].
Defined.

Lemma timer_deadline_witness :
  ∃ passed w', idle_round 1 102 105 99 false (interrupted 1 None) busy = (Ret (Some passed), w')
    ∧ (∀ t, t ∈ passed → 0 <= t <= 3) ∧ (1, IOManager.TaskCb 1%nat) ∈ IOManager.scheduled (iom w').
Proof.
  destruct (timer_deadline 4 busy 1 102 105 99 false 1 None 10 (TimerManager.newTimer 100 5 (Some 1%nat) false) 1%nat
    busy_reached) as (passed & w' & E & Hb & Hs).
  - split; [lia|]. split; [done|]. split; [done|]. split; constructor.
  - reflexivity.
  - reflexivity.
  - exists passed, w'. split; [exact E|]. split; [apply Hb; by vm_compute|apply Hs; by vm_compute].
Defined.
