(* ===== verification/Hook.v ===== *)
(** * Hooked system calls (sylar/hook.h, sylar/hook.cpp)

    The calls of libc as a fiber sees them: a call that would block registers the fiber with the
    reactor, sets a timer when the descriptor has a timeout, and yields. The functions end where
    the fiber yields ([Waiting]) and go on in a function of their own when it is resumed. The
    original functions are arguments that act on a kernel of their own; [now] is the clock, and
    the addresses of new timers and [timer_info]s are arguments. *)

From S2P Require Import Prelude StdOrdered Timers IOManager FdManager.

Definition EINTR : Z := 4.
Definition EBADF : Z := 9.
Definition EAGAIN : Z := 11.
Definition ETIMEDOUT : Z := 110.
Definition EINPROGRESS : Z := 115.
Definition SOL_SOCKET : Z := 1.
Definition FIONBIO : Z := 21537.

Module Hook.
(** What a timer of this file does: the callbacks of [do_io] and [connect_with_timeout], under the
    condition that the [timer_info] is still there, and the wake-up of a sleeping fiber. *)
Inductive timer_cb :=
  | Timeout (c : ConditionTimer.bound (Z * Z))
  | Wake (scheduler fiber : Z).

(** A call ends or waits; the fiber that waits remembers its timer. *)
Inductive progress :=
  | Done (n : Z)
  | Waiting (timer : option Z).

Section hook.
Context {Cb K : Type} `{Epoll}.

(** [tinfo]: the [timer_info]s that exist, with their [cancelled]. *)
Record world := mk {
  fdm : FdManager.t;
  iom : IOManager.t Cb;
  tim : TimerManager.t timer_cb;
  tinfo : gmap Z Z;
  errno : Z;
  kern : K;
}.
Definition set_fdm v w := mk v (iom w) (tim w) (tinfo w) (errno w) (kern w).
Definition set_iom v w := mk (fdm w) v (tim w) (tinfo w) (errno w) (kern w).
Definition set_tim v w := mk (fdm w) (iom w) v (tinfo w) (errno w) (kern w).
Definition set_tinfo v w := mk (fdm w) (iom w) (tim w) v (errno w) (kern w).
Definition set_errno v w := mk (fdm w) (iom w) (tim w) (tinfo w) v (kern w).
Definition set_kern v w := mk (fdm w) (iom w) (tim w) (tinfo w) (errno w) v.

Definition on_fdm {A} (m : ST FdManager.t A) : ST world A := fun w =>
  let '(r, x) := m (fdm w) in (r, set_fdm x w).
Definition on_iom {A} (m : ST (IOManager.t Cb) A) : ST world A := fun w =>
  let '(r, x) := m (iom w) in (r, set_iom x w).
Definition on_tim {A} (m : ST (TimerManager.t timer_cb) A) : ST world A := fun w =>
  let '(r, x) := m (tim w) in (r, set_tim x w).

(** An original function: its result, and [errno] when it fails. *)
Definition origin : Type := K → (Z * Z) * K.
Definition call (f : origin) : ST world Z := fun w =>
  let '((n, e), k) := f (kern w) in
  let w := set_kern k w in (Ret n, if n =? -1 then set_errno e w else w).
Definition fail (e : Z) : ST world Z := modify (set_errno e);; mret (-1).

(** [FdMgr::GetInstance()->get(fd)]. *)
Definition fd_ctx (fd : Z) (w : world) : option FdCtx.t :=
  p ← default None (FdManager.get_lookup fd false (fdm w)); FdManager.heap (fdm w) !! p.
Definition assign_ctx (fd : Z) (f : FdCtx.t → FdCtx.t) : ST world unit := modify (fun w =>
  match default None (FdManager.get_lookup fd false (fdm w)) with
  | Some p => set_fdm (FdManager.mk (FdManager.m_datas (fdm w)) (alter f p (FdManager.heap (fdm w)))
                         (FdManager.setfl (fdm w))) w
  | None => w
  end).

(** The thread: whether hooks are on, its [IOManager] ([None]: there is none) as a scheduler, the
    running fiber and whether its state is [EXEC]. *)
Context (t_hook_enable : bool) (this_iom : option Z) (this_fiber : Z) (exec : bool).
Context (fstat : Z → option bool) (getfl : Z → Z).

(** ** do_io *)

(** The lambda given to [addConditionTimer]; the [fd] and the event are captured. *)
Definition run_timer (f : timer_cb) : ST world unit :=
  match f with
  | Timeout c =>
      w ← get;
      match tinfo w !! ConditionTimer.weak_cond c with
      | None => mret tt
      | Some cancelled =>
          if negb (cancelled =? 0) then mret tt
          else
            modify (fun w => set_tinfo (<[ConditionTimer.weak_cond c := ETIMEDOUT]> (tinfo w)) w);;
            on_iom (IOManager.cancelEvent (ConditionTimer.cb c).1 (ConditionTimer.cb c).2);;
            mret tt
      end
  | Wake p f => on_iom (IOManager.schedule (Some p) (Some (IOManager.TaskFiber f)))
  end.

Definition cancel_timer (timer : option Z) : ST world unit :=
  match timer with Some p => on_tim (TimerManager.cancel p);; mret tt | None => mret tt end.

(** The [timer_info] goes away when the function returns. *)
Definition finish (ti n : Z) : ST world progress :=
  modify (fun w => set_tinfo (delete ti (tinfo w)) w);; mret (Done n).

Fixpoint call_uninterrupted (fuel : nat) (f : origin) : ST world Z :=
  match fuel with
  | O => lift NoFuel
  | S fuel =>
      n ← call f;
      w ← get;
      if (n =? -1) && (errno w =? EINTR) then call_uninterrupted fuel f else mret n
  end.

(** From [retry] to the yield. [ti] and [p] are the addresses of the [timer_info] and of a timer. *)
Definition retry (fuel : nat) (now ti p fd : Z) (f : origin) (event to : Z) : ST world progress :=
  n ← call_uninterrupted fuel f;
  w ← get;
  if (n =? -1) && (errno w =? EAGAIN) then
    match this_iom with
    | None => lift Undef
    | Some iom =>
        timer ← (if negb (to =? u64 (-1)) then
                   t ← on_tim (TimerManager.addTimer now p to
                                 (Some (Timeout (ConditionTimer.mkBound ti (fd, event)))) false);
                   mret (Some t)
                 else mret None);
        rt ← on_iom (IOManager.addEvent (Some iom) this_fiber exec fd event None);
        if negb (rt =? 0) then cancel_timer timer;; finish ti (-1) else mret (Waiting timer)
    end
  else finish ti n.

Definition do_io (fuel : nat) (now ti p fd : Z) (f : origin) (event timeout_so : Z) : ST world progress :=
  if negb t_hook_enable then n ← call f; mret (Done n)
  else
    w ← get;
    match fd_ctx fd w with
    | None => n ← call f; mret (Done n)
    | Some ctx =>
        if FdCtx.isClosed ctx then n ← fail EBADF; mret (Done n)
        else if negb (FdCtx.isSocket ctx) || FdCtx.getUserNonblock ctx then n ← call f; mret (Done n)
        else
          let to := FdCtx.getTimeout timeout_so ctx in
          modify (fun w => set_tinfo (<[ti := 0]> (tinfo w)) w);;
          retry fuel now ti p fd f event to
    end.

(** What follows [YieldToHold]: [timer] is what the fiber was waiting with, [to] the timeout. *)
Definition do_io_resume (fuel : nat) (now ti p fd : Z) (f : origin) (event to : Z) (timer : option Z)
    : ST world progress :=
  cancel_timer timer;;
  w ← get;
  let cancelled := default 0 (tinfo w !! ti) in
  if negb (cancelled =? 0) then
    modify (set_errno cancelled);;
    finish ti (-1)
  else retry fuel now ti p fd f event to.

(** ** connect *)

(** The end of [connect_with_timeout]; [getsockopt_error] gives the result of
    [getsockopt(SO_ERROR)] and the error it stores, or [errno] when it fails. *)
Definition connect_result (ti : Z) (getsockopt_error : K → Z * Z) : ST world progress :=
  w ← get;
  let '(rt, error) := getsockopt_error (kern w) in
  if rt =? -1 then modify (set_errno error);; finish ti (-1)
  else if error =? 0 then finish ti 0
  else modify (set_errno error);; finish ti (-1).

Definition connect_with_timeout (now ti p fd : Z) (connect_f : origin) (getsockopt_error : K → Z * Z)
    (timeout_ms : Z) : ST world progress :=
  if negb t_hook_enable then n ← call connect_f; mret (Done n)
  else
    w ← get;
    match fd_ctx fd w with
    | None => n ← fail EBADF; mret (Done n)
    | Some ctx =>
        if FdCtx.isClosed ctx then n ← fail EBADF; mret (Done n)
        else if negb (FdCtx.isSocket ctx) then n ← call connect_f; mret (Done n)
        else if FdCtx.getUserNonblock ctx then n ← call connect_f; mret (Done n)
        else
          n ← call connect_f;
          w ← get;
          if n =? 0 then mret (Done 0)
          else if negb (n =? -1) || negb (errno w =? EINPROGRESS) then mret (Done n)
          else
            match this_iom with
            | None => lift Undef
            | Some iom =>
                modify (fun w => set_tinfo (<[ti := 0]> (tinfo w)) w);;
                timer ← (if negb (timeout_ms =? u64 (-1)) then
                           t ← on_tim (TimerManager.addTimer now p timeout_ms
                             (Some (Timeout (ConditionTimer.mkBound ti (fd, IOManager.WRITE)))) false);
                           mret (Some t)
                         else mret None);
                rt ← on_iom (IOManager.addEvent (Some iom) this_fiber exec fd IOManager.WRITE None);
                if rt =? 0 then mret (Waiting timer)
                else cancel_timer timer;; connect_result ti getsockopt_error
            end
    end.

(** What follows the yield. *)
Definition connect_resume (ti : Z) (getsockopt_error : K → Z * Z) (timer : option Z) : ST world progress :=
  cancel_timer timer;;
  w ← get;
  let cancelled := default 0 (tinfo w !! ti) in
  if negb (cancelled =? 0) then
    modify (set_errno cancelled);;
    finish ti (-1)
  else connect_result ti getsockopt_error.

(** ** Sleeping *)

(** [sleep], [usleep] and [nanosleep]: the milliseconds each asks for, and what they share. *)
Definition sleep_ms (seconds : Z) : Z := u32 (seconds * 1000).
Definition usleep_ms (usec : Z) : Z := usec / 1000.
Definition nanosleep_ms (tv_sec tv_nsec : Z) : Z := s32 (tv_sec * 1000 + Z.quot (Z.quot tv_nsec 1000) 1000).
Definition sleep_for (f : origin) (now p ms : Z) : ST world progress :=
  if negb t_hook_enable then n ← call f; mret (Done n)
  else
    match this_iom with
    | None => lift Undef
    | Some iom =>
        on_tim (TimerManager.addTimer now p (u64 ms) (Some (Wake iom this_fiber)) false);;
        mret (Waiting (Some p))
    end.
Definition sleep_resume : ST world progress := mret (Done 0).

(** ** Descriptors *)

(** [socket], and what [accept] does with a new descriptor; [addr] is where its context goes. *)
Definition socket (socket_f : origin) (addr : Z) : ST world Z :=
  fd ← call socket_f;
  if negb t_hook_enable then mret fd
  else if fd =? -1 then mret fd
  else on_fdm (FdManager.get fstat getfl fd true addr);; mret fd.
Definition accept_done (fd addr : Z) : ST world Z :=
  (if 0 <=? fd then on_fdm (FdManager.get fstat getfl fd true addr);; mret tt else mret tt);; mret fd.

Definition close (close_f : origin) (fd : Z) : ST world Z :=
  if negb t_hook_enable then call close_f
  else
    w ← get;
    match fd_ctx fd w with
    | Some _ =>
        (match this_iom with Some _ => on_iom (IOManager.cancelAll fd);; mret tt | None => mret tt end);;
        on_fdm (FdManager.del fd);;
        call close_f
    | None => call close_f
    end.

(** [fcntl]: [fcntl_f arg] is the call with this argument. *)
Inductive fcntl_cmd := F_SETFL (arg : Z) | F_GETFL | OtherCmd.
Definition managed (c : option FdCtx.t) : bool :=
  match c with Some c => negb (FdCtx.isClosed c) && FdCtx.isSocket c | None => false end.
Definition fcntl (fcntl_f : option Z → origin) (fd : Z) (cmd : fcntl_cmd) : ST world Z :=
  match cmd with
  | F_SETFL arg =>
      w ← get;
      if negb (managed (fd_ctx fd w)) then call (fcntl_f (Some arg))
      else
        assign_ctx fd (FdCtx.setUserNonblock (negb (Z.land arg O_NONBLOCK =? 0)));;
        let sys := match fd_ctx fd w with Some c => FdCtx.getSysNonblock c | None => false end in
        call (fcntl_f (Some (if sys then Z.lor arg O_NONBLOCK else Z.ldiff arg O_NONBLOCK)))
  | F_GETFL =>
      arg ← call (fcntl_f None);
      w ← get;
      if negb (managed (fd_ctx fd w)) then mret arg
      else
        let user := match fd_ctx fd w with Some c => FdCtx.getUserNonblock c | None => false end in
        mret (if user then Z.lor arg O_NONBLOCK else Z.ldiff arg O_NONBLOCK)
  | OtherCmd => call (fcntl_f None)
  end.

(** [ioctl]; [arg] is the integer a [FIONBIO] request points to. *)
Definition ioctl (ioctl_f : origin) (fd request arg : Z) : ST world Z :=
  if request =? FIONBIO then
    w ← get;
    if negb (managed (fd_ctx fd w)) then call ioctl_f
    else assign_ctx fd (FdCtx.setUserNonblock (negb (arg =? 0)));; call ioctl_f
  else call ioctl_f.

(** [setsockopt]; the value of a timeout is a [timeval]. The result is stored in an [uint64_t]. *)
Definition setsockopt (setsockopt_f : origin) (fd level optname tv_sec tv_usec : Z) : ST world Z :=
  if negb t_hook_enable then call setsockopt_f
  else
    (if (level =? SOL_SOCKET) && ((optname =? SO_RCVTIMEO) || (optname =? SO_SNDTIMEO))
     then assign_ctx fd (FdCtx.setTimeout optname (u64 (tv_sec * 1000 + Z.quot tv_usec 1000)))
     else mret tt);;
    call setsockopt_f.

(** ** The calls that read and write

    Each is [do_io] with the event it waits for and the timeout of the descriptor that counts. *)
Inductive io_call := Cread | Creadv | Crecv | Crecvfrom | Crecvmsg | Cwrite | Cwritev | Csend | Csendto | Csendmsg.
Definition io_event (c : io_call) : Z :=
  match c with
  | Cread | Creadv | Crecv | Crecvfrom | Crecvmsg => IOManager.READ
  | Cwrite | Cwritev | Csend | Csendto | Csendmsg => IOManager.WRITE
  end.
Definition io_timeout (c : io_call) : Z :=
  match c with
  | Cread | Creadv | Crecv | Crecvfrom | Crecvmsg => SO_RCVTIMEO
  | Cwrite | Cwritev | Csend | Csendto | Csendmsg => SO_SNDTIMEO
  end.
Definition io (c : io_call) (fuel : nat) (now ti p fd : Z) (f : origin) : ST world progress :=
  do_io fuel now ti p fd f (io_event c) (io_timeout c).
(** [accept] up to its end or its yield; [accept_done] follows when it is done. *)
Definition accept (fuel : nat) (now ti p fd : Z) (accept_f : origin) (addr : Z) : ST world progress :=
  r ← do_io fuel now ti p fd accept_f IOManager.READ SO_RCVTIMEO;
  match r with Done n => n ← accept_done n addr; mret (Done n) | Waiting t => mret (Waiting t) end.
Definition getsockopt (getsockopt_f : origin) : ST world Z := call getsockopt_f.
End hook.

(** ** The settings

    [set_hook_enable] of a thread; the timeout of [connect] is a static [uint64_t] that follows the
    configured [int]; [hook_init] looks the original functions up, each time it is called, since
    [is_inited] stays unset. *)
Definition is_hook_enable (t_hook_enable : bool) : bool := t_hook_enable.
Definition set_hook_enable (flag : bool) (t_hook_enable : bool) : bool := flag.
Definition g_tcp_connect_timeout : list byte * Z := (lit "tcp.connect.timeout", 5000).
Definition s_connect_timeout : Z := u64 (-1).
Definition HookIniter (value : Z) : Z := u64 value.
Definition connect_timeout_changed (old_value new_value : Z) : Z := u64 new_value.
Definition hook_init {F} (dlsym : list byte → option F) (names : list (list byte)) (is_inited : bool)
    (functions : gmap (list byte) (option F)) : bool * gmap (list byte) (option F) :=
  if is_inited then (is_inited, functions)
  else (is_inited, foldl (fun m name => <[name := dlsym name]> m) functions names).
Definition HOOK_FUN : list (list byte) :=
  [lit "sleep"; lit "usleep"; lit "nanosleep"; lit "socket"; lit "connect"; lit "accept"; lit "read"; lit "readv";
   lit "recv"; lit "recvfrom"; lit "recvmsg"; lit "write"; lit "writev"; lit "send"; lit "sendto"; lit "sendmsg";
   lit "close"; lit "fcntl"; lit "ioctl"; lit "getsockopt"; lit "setsockopt"].
Section connect.
Context {Cb K : Type} `{Epoll} (t_hook_enable : bool) (this_iom : option Z) (this_fiber : Z) (exec : bool).
Definition connect (s_connect_timeout now ti p fd : Z) (connect_f : origin (K:=K)) (getsockopt_error : K → Z * Z)
    : ST (world (Cb:=Cb) (K:=K)) progress :=
  connect_with_timeout t_hook_enable this_iom this_fiber exec now ti p fd connect_f getsockopt_error s_connect_timeout.
End connect.
Arguments world Cb K {_}.
End Hook.
