(* ===== verification/HookProps.v ===== *)
(** * What the hooked calls guarantee

    How a call that would block waits, and that the wait ends: composed from the reactor, the
    timers and the table of descriptors. *)

From S2P Require Import Prelude StdOrdered Timers TimersSpec IOManager IOManagerSpec IOManagerSteps IOManagerProps.
From S2P Require Import FdManager Socket Hook.
Import Hook.

Section waiting.
Context {Cb K : Type} `{Epoll}.
Context (pipe : Z).
Implicit Types (w : world Cb K) (fd e ti p to : Z) (f : origin (K:=K)).

(** A fiber that waits in [do_io]: the reactor will schedule it for the event [e] of [fd], its
    [timer_info] is not cancelled, and its timer fires at [deadline]. *)
Record waits w (sched fiber ti p fd e deadline : Z) : Prop := {
  waits_iom : IOManagerSpec.inv pipe (iom w);
  waits_range : in_range pipe (iom w) fd;
  waits_event : is_event e;
  waits_registered : IOManager.has (IOManager.events (context_of (iom w) fd)) e = true;
  waits_fiber : armed (ctx_of e (context_of (iom w) fd)) sched (IOManager.TaskFiber fiber);
  waits_info : tinfo w !! ti = Some 0;
  waits_tim : TimersSpec.inv (tim w);
  waits_timer : ∃ ms, TimerManager.heap (tim w) !! p
    = Some (TimerManager.mkTimer false ms deadline (Some (Timeout (ConditionTimer.mkBound ti (fd, e)))));
}.

Lemma on_iom_run {A} (m : ST (IOManager.t Cb) A) w r x :
  m (iom w) = (r, x) → on_iom m w = (r, set_iom x w).
Proof. unfold on_iom. by intros ->. Qed.
Lemma on_tim_run {A} (m : ST (TimerManager.t timer_cb) A) w r x :
  m (tim w) = (r, x) → on_tim m w = (r, set_tim x w).
Proof. unfold on_tim. by intros ->. Qed.

(** A thread with hooks, a scheduler and a running fiber. *)
Context (sched this_fiber : Z).

(** A timer that is cancelled: it keeps no callback. *)
Lemma cancel_timer_ok p w tm :
  TimersSpec.inv (tim w) → TimerManager.heap (tim w) !! p = Some tm →
  ∃ x, cancel_timer (Some p) w = (Ret tt, set_tim x w) ∧ TimersSpec.inv x
    ∧ TimerManager.heap x = <[p := TimerManager.set_cb None tm]> (TimerManager.heap (tim w)).
Proof.
  intros Hinv Htm. destruct (cancel_ok _ _ _ Hinv Htm) as [E Hi].
  unfold cancel_timer. destruct (TimerManager.m_cb tm) eqn:Ecb; rewrite E in Hi.
  - eexists. st_run (apply on_tim_run; exact E). split; [done|]. split; [exact Hi|].
    cbn. rewrite <- (insert_id (TimerManager.heap (tim w)) p tm) at 1 by done.
    by rewrite alter_insert_eq.
  - exists (tim w). st_run (apply on_tim_run; exact E). split; [done|]. split; [done|].
    rewrite insert_id; [done|]. rewrite Htm. destruct tm; cbn in *. by subst.
Qed.

(** ** Entering the wait *)

(** The call says that it would block. *)
Definition blocks f w (k : K) : Prop := f (kern w) = ((-1, EAGAIN), k).

Lemma call_blocks fuel f w k :
  blocks f w k → fuel ≠ O → call_uninterrupted fuel f w = (Ret (-1), set_errno EAGAIN (set_kern k w)).
Proof.
  intros Hb Hf. destruct fuel as [|fuel]; [done|]. cbn [call_uninterrupted].
  unfold mbind at 1, st_bind at 1, call. rewrite Hb. by st_run reflexivity.
Qed.

Lemma retry_blocks fuel now ti p fd f e to w k :
  IOManagerSpec.inv pipe (iom w) → 0 <= fd < 2 ^ 30 → fd ≠ pipe → is_event e →
  IOManager.has (IOManager.events (context_of (iom w) fd)) e = false →
  tinfo w !! ti = Some 0 → TimersSpec.inv (tim w) → TimerManager.heap (tim w) !! p = None →
  blocks f w k → fuel ≠ O → to ≠ u64 (-1) →
  ∃ w', (retry (Some sched) this_fiber true fuel now ti p fd f e to w = (Ret (Waiting (Some p)), w')
         ∧ waits w' sched this_fiber ti p fd e (u64 (now + to)))
     ∨ (retry (Some sched) this_fiber true fuel now ti p fd f e to w = (Ret (Done (-1)), w')
         ∧ waiters (iom w') = waiters (iom w) ∧ tinfo w' = delete ti (tinfo w)
         ∧ ∃ tm, TimerManager.heap (tim w') !! p = Some tm ∧ TimerManager.m_cb tm = None).
Proof.
  intros Hinv Hfd Hp He Hh Hti Htim Hpf Hb Hf Hto.
  unfold retry. set (w1 := set_errno EAGAIN (set_kern k w)).
  st_run (by apply call_blocks). st_run reflexivity. fold w1.
  change ((-1 =? -1) && (errno w1 =? EAGAIN)) with true. cbv iota.
  rewrite (proj2 (Z.eqb_neq to (u64 (-1))) Hto). cbn [negb].
  destruct (addTimer_ok (tim w) now p to (Some (Timeout (ConditionTimer.mkBound ti (fd, e)))) false Htim Hpf)
    as (t1 & Et & Hti1 & Hheap & _).
  st_run (st_run (apply on_tim_run; exact Et); reflexivity). cbn [iom tim set_tim].
  destruct (addEvent_start pipe (iom w) (Some sched) this_fiber true fd e None Hinv Hfd Hp)
    as (s1 & E1 & Hinv1 & Hr1 & Hw1 & Hs1 & Hc1).
  pose proof (addEvent_locked_ok pipe s1 sched this_fiber fd e None Hinv1 Hr1 He) as Hl.
  cbv zeta in Hl. rewrite Hc1, Hh in Hl.
  set (w2 := set_tim t1 w1). set (tm := TimerManager.newTimer now to (Some (Timeout (ConditionTimer.mkBound ti (fd, e)))) false).
  assert (TimerManager.heap t1 !! p = Some tm) as Hp1 by (rewrite Hheap; apply lookup_insert_eq).
  destruct Hl as [Hl|(k' & Hl & Hinv')].
  - destruct (cancel_timer_ok p (set_iom s1 w2) tm) as (t2 & Ec & Hit2 & Htm2); [done|done|].
    eexists. right. st_run (apply on_iom_run; cbn; by rewrite E1, Hl). cbn [negb Z.eqb].
    st_run exact Ec. split; [reflexivity|]. cbn. split; [done|]. split; [done|].
    exists (TimerManager.set_cb None tm). split; [rewrite Htm2; apply lookup_insert_eq|done].
  - rewrite Hl in Hinv'. cbn [snd] in Hinv'.
    eexists. left. st_run (apply on_iom_run; cbn; by rewrite E1, Hl). cbn [negb Z.eqb].
    split; [reflexivity|]. split; cbn [iom tim tinfo set_iom w2 set_tim w1 set_errno set_kern]; try done.
    + by apply in_range_with.
    + rewrite (context_of_with pipe) by done. rewrite events_arm by done. unfold IOManager.has.
      apply negb_true_iff, Z.eqb_neq. rewrite Z.land_lor_distr_l, Z.land_diag.
      destruct He as [-> | ->]; intros [_ E]%Z.lor_eq_0_iff; done.
    + rewrite (context_of_with pipe) by done. by destruct He as [-> | ->].
    + exists to. exact Hp1.
Qed.

(** ** The wait ends *)

(** The timer of a waiting fiber is due at its deadline. *)
Lemma timer_due w ti p fd e fiber deadline now :
  waits w sched fiber ti p fd e deadline → deadline <= now → rolled_over (tim w) now = false →
  Some (Timeout (ConditionTimer.mkBound ti (fd, e))) ∈ callbacks (TimerManager.heap (tim w)) (due (tim w) now).
Proof.
  intros Hw Hd Hr. destruct (waits_timer _ _ _ _ _ _ _ _ Hw) as [ms Hp].
  unfold callbacks. apply list_elem_of_In, in_map_iff. exists p. split.
  - unfold callback. by rewrite Hp.
  - apply list_elem_of_In. unfold due. rewrite Hr. apply list_elem_of_filter. split.
    + unfold TimerManager.next_at. by rewrite Hp.
    + eapply inv_cb; [apply Hw|exact Hp|done].
Qed.

Lemma finish_run ti n w : finish ti n w = (Ret (Done n), set_tinfo (delete ti (tinfo w)) w).
Proof. done. Qed.

(** After a timeout the call fails, whatever other threads did in between. *)
Lemma resume_timed_out fiber fuel now ti p p' fd f e to w tm :
  tinfo w !! ti = Some ETIMEDOUT → TimersSpec.inv (tim w) → TimerManager.heap (tim w) !! p = Some tm →
  ∃ w', do_io_resume (Some sched) fiber true fuel now ti p' fd f e to (Some p) w = (Ret (Done (-1)), w')
    ∧ errno w' = ETIMEDOUT ∧ tinfo w' = delete ti (tinfo w) ∧ iom w' = iom w
    ∧ ∃ tm', TimerManager.heap (tim w') !! p = Some tm' ∧ TimerManager.m_cb tm' = None.
Proof.
  intros Hti Hinv Htm. destruct (cancel_timer_ok p w tm Hinv Htm) as (x & E & Hi & Hx).
  unfold do_io_resume. eexists. st_run exact E. st_run reflexivity.
  cbn [tinfo set_tim]. rewrite Hti. change (default 0 (Some ETIMEDOUT)) with ETIMEDOUT. cbv zeta.
  change (negb (ETIMEDOUT =? 0)) with true. cbv iota.
  st_run reflexivity. rewrite finish_run. split; [reflexivity|]. cbn. split; [done|]. split; [done|].
  split; [done|]. rewrite Hx, lookup_insert_eq. by eexists.
Qed.

(** Running the callback of the timer while the event is still awaited. *)
Lemma run_timer_wakes_at w ti fd e fiber :
  IOManagerSpec.inv pipe (iom w) → in_range pipe (iom w) fd → is_event e →
  IOManager.has (IOManager.events (context_of (iom w) fd)) e = true →
  armed (ctx_of e (context_of (iom w) fd)) sched (IOManager.TaskFiber fiber) →
  tinfo w !! ti = Some 0 →
  (∃ k', let ev := Z.ldiff (IOManager.events (context_of (iom w) fd)) e in
     epoll_ctl (IOManager.epfd (iom w)) (if ev =? 0 then EPOLL_CTL_DEL else EPOLL_CTL_MOD) fd (Z.lor EPOLLET ev)
     = (true, k')) →
  ∃ x, run_timer (Timeout (ConditionTimer.mkBound ti (fd, e))) w = (Ret tt, x)
    ∧ IOManager.scheduled (iom x) = IOManager.scheduled (iom w) ++ [(sched, IOManager.TaskFiber fiber)]
    ∧ IOManager.has (IOManager.events (context_of (iom x) fd)) e = false
    ∧ tinfo x !! ti = Some ETIMEDOUT.
Proof.
  intros Hinv Hr He Hh Ha Hti [k1 Hctl]. unfold run_timer. st_run reflexivity.
  cbn [ConditionTimer.weak_cond ConditionTimer.cb fst snd].
  rewrite Hti. cbn [negb Z.eqb]. st_run reflexivity.
  set (w1 := set_tinfo _ w). change (iom w) with (iom w1) in *.
  destruct (cancelEvent_registered pipe (iom w1) fd e sched (IOManager.TaskFiber fiber))
    as [E|(k' & E & _)]; try done.
  - exfalso. rewrite (cancelEvent_unfold pipe) in E
      by (done || (apply (not_events_and_registered e); [done|by apply (inv_context pipe)|done])).
    unfold after_ctl in E. rewrite (st_bind_Ret _ _ _ true (IOManager.set_epfd k1 (iom w1))) in E
      by (unfold IOManager.ctl; cbv zeta in Hctl; by rewrite Hctl).
    cbn [negb] in E. pose proof (pending_bounds pipe (iom w1) Hinv) as Hb.
    pose proof (count_le_total pipe (iom w1) fd Hinv Hr) as Hle.
    pose proof (has_count (context_of (iom w1) fd) e He Hh).
    rewrite (trigger_dec_ok pipe (IOManager.set_epfd k1 (iom w1)) fd e sched (IOManager.TaskFiber fiber)) in E
      by (done || (change (1 <= IOManager.m_pendingEventCount (iom w1) < 2 ^ 64); lia)). discriminate.
  - eexists. st_run (apply on_iom_run; exact E). split; [reflexivity|]. cbn [iom tinfo set_iom].
    split; [done|]. split; [|apply lookup_insert_eq].
    rewrite (context_of_with pipe) by done. rewrite events_disarm by done.
    unfold IOManager.has. apply negb_false_iff, Z.eqb_eq. by rewrite Z.land_ldiff.
Qed.

(** The context of a descriptor that the hooks manage. *)
Definition manages w fd (c : FdCtx.t) : Prop :=
  fd_ctx fd w = Some c ∧ FdCtx.isClosed c = false ∧ FdCtx.isSocket c = true
  ∧ FdCtx.getUserNonblock c = false.

(** One call of the original function that is neither interrupted nor would block. *)
Definition answers f w (n err : Z) (k : K) : Prop :=
  f (kern w) = ((n, err), k) ∧ (n ≠ -1 ∨ (err ≠ EINTR ∧ err ≠ EAGAIN)).
Definition answered w (n err : Z) (k : K) : world Cb K :=
  let x := set_kern k w in if n =? -1 then set_errno err x else x.

Lemma answers_call f w n err k : answers f w n err k → call f w = (Ret n, answered w n err k).
Proof. intros [Hf _]. unfold call. by rewrite Hf. Qed.

Lemma retry_answers fuel now ti p fd f e to w n err k :
  answers f w n err k → fuel ≠ O →
  retry (Some sched) this_fiber true fuel now ti p fd f e to w
  = (Ret (Done n), set_tinfo (delete ti (tinfo w)) (answered w n err k)).
Proof.
  intros Ha Hfuel. pose proof (answers_call f w n err k Ha) as Hc. destruct Ha as [_ Hn].
  unfold retry. destruct fuel as [|fuel]; [done|]. set (w2 := answered w n err k) in *.
  assert ((n =? -1) && (errno w2 =? EINTR) = false ∧ (n =? -1) && (errno w2 =? EAGAIN) = false) as [E1 E2].
  { unfold w2, answered. destruct (Z.eqb_spec n (-1)) as [->|]; [|done]. cbn [errno set_errno andb].
    destruct Hn as [?|[H1 H2]]; [done|]. by rewrite !(proj2 (Z.eqb_neq _ _)). }
  st_run (cbn [call_uninterrupted]; st_run exact Hc; st_run reflexivity; by rewrite E1).
  st_run reflexivity. rewrite E2, finish_run. unfold w2, answered. by destruct (n =? -1).
Qed.

(** A hooked call on a descriptor that is not managed, is not a socket or was made
    non-blocking by the user, or in a thread without hooks, is one call of the original function
    and nothing else; on a closed one it fails with EBADF without a call. On a managed socket a
    result other than EINTR and EAGAIN is returned as it is, with reactor and timers untouched. *)
Theorem do_io_passes_through fuel now ti p fd f e so w n err k hook :
  f (kern w) = ((n, err), k) → n ≠ -1 ∨ (err ≠ EINTR ∧ err ≠ EAGAIN) → fuel ≠ O →
  let r := do_io hook (Some sched) this_fiber true fuel now ti p fd f e so w in
  let w' := let x := set_kern k w in if n =? -1 then set_errno err x else x in
  if negb hook then r = (Ret (Done n), w')
  else match fd_ctx fd w with
       | None => r = (Ret (Done n), w')
       | Some c =>
           if FdCtx.isClosed c then r = (Ret (Done (-1)), set_errno EBADF w)
           else if negb (FdCtx.isSocket c) || FdCtx.getUserNonblock c then r = (Ret (Done n), w')
           else r = (Ret (Done n), set_tinfo (delete ti (tinfo w)) w') 
       end.
Proof.
  intros Hf Hn Hfuel r w'.
  assert (answers f w n err k) as Ha by done.
  pose proof (answers_call f w n err k Ha) as Hc. change (answered w n err k) with w' in Hc.
  unfold r, do_io. destruct hook; cbn [negb]; [|by st_run exact Hc].
  st_run reflexivity. destruct (fd_ctx fd w) as [c|]; [|by st_run exact Hc].
  destruct (FdCtx.isClosed c); [by st_run reflexivity|].
  destruct (negb (FdCtx.isSocket c) || FdCtx.getUserNonblock c); [by st_run exact Hc|].
  cbv zeta. st_run reflexivity.
  rewrite (retry_answers fuel now ti p fd f e _ (set_tinfo (<[ti:=0]> (tinfo w)) w) n err k) by done.
  unfold answered, w'. cbn [tinfo set_tinfo kern]. rewrite delete_insert_eq.
  by destruct (n =? -1).
Qed.

(** C18. A hooked call on a managed socket with a timeout that answers EAGAIN: the fiber waits,
    that is, the reactor holds it (and nobody else) for this event of this descriptor, and a timer
    is set to the timeout; or the kernel refused the event, and the call fails with nothing left
    behind: no waiter, no [timer_info], and a timer without its callback. *)
Theorem do_io_waits fuel now ti p fd f e so w c k :
  manages w fd c → let to := FdCtx.getTimeout so c in to ≠ u64 (-1) →
  IOManagerSpec.inv pipe (iom w) → 0 <= fd < 2 ^ 30 → fd ≠ pipe → is_event e →
  IOManager.has (IOManager.events (context_of (iom w) fd)) e = false →
  TimersSpec.inv (tim w) → TimerManager.heap (tim w) !! p = None → blocks f w k → fuel ≠ O →
  ∃ w', (do_io true (Some sched) this_fiber true fuel now ti p fd f e so w = (Ret (Waiting (Some p)), w')
         ∧ waits w' sched this_fiber ti p fd e (u64 (now + to)))
     ∨ (do_io true (Some sched) this_fiber true fuel now ti p fd f e so w = (Ret (Done (-1)), w')
         ∧ waiters (iom w') = waiters (iom w) ∧ tinfo w' = delete ti (tinfo w)
         ∧ ∃ tm, TimerManager.heap (tim w') !! p = Some tm ∧ TimerManager.m_cb tm = None).
Proof.
  intros (Hc & Hcl & Hs & Hu) to Hto Hinv Hfd Hp He Hh Htim Hpf Hb Hf.
  destruct (retry_blocks fuel now ti p fd f e to (set_tinfo (<[ti := 0]> (tinfo w)) w) k)
    as (w' & Hw); try done; [apply lookup_insert_eq|].
  exists w'. unfold do_io. cbn [negb].
  assert (∀ r, r = retry (Some sched) this_fiber true fuel now ti p fd f e to (set_tinfo (<[ti := 0]> (tinfo w)) w) →
    do_io true (Some sched) this_fiber true fuel now ti p fd f e so w = r) as Hrun.
  { intros r ->. unfold do_io. cbn [negb]. st_run reflexivity. rewrite Hc, Hcl, Hs, Hu. cbn [negb orb].
    cbv zeta. by st_run reflexivity. }
  destruct Hw as [[E Hw]|[E Hw]]; [left|right]; (split; [by apply Hrun|]); [done|].
  destruct Hw as (H1 & H2 & H3). split; [done|]. split; [|done]. rewrite H2. cbn. by rewrite delete_insert_eq.
Qed.

(** C17. A wait with a timeout ends. Once the clock has reached the deadline, the next poll of the
    timers hands out the callback of this wait; running it, if the kernel does not refuse, takes
    the event out of the reactor and schedules the waiting fiber, once; and whenever the fiber is
    resumed after that, whatever happened in between, the call returns -1 with ETIMEDOUT, its
    [timer_info] is gone and its timer holds no callback. *)
Theorem timeout_ends_wait w ti p fd e fiber deadline now now_timer :
  waits w sched fiber ti p fd e deadline → deadline <= now → rolled_over (tim w) now = false →
  TimerManager.heap (tim w) !! now_timer = None →
  (∃ k', let ev := Z.ldiff (IOManager.events (context_of (iom w) fd)) e in
     epoll_ctl (IOManager.epfd (iom w)) (if ev =? 0 then EPOLL_CTL_DEL else EPOLL_CTL_MOD) fd (Z.lor EPOLLET ev)
     = (true, k')) →
  let cb := Timeout (ConditionTimer.mkBound ti (fd, e)) in
  ∃ cbs t1 x,
    TimerManager.listExpiredCb now_timer now [] (tim w) = (Ret cbs, t1) ∧ Some cb ∈ cbs
    ∧ run_timer cb (set_tim t1 w) = (Ret tt, x)
    ∧ IOManager.scheduled (iom x) = IOManager.scheduled (iom w) ++ [(sched, IOManager.TaskFiber fiber)]
    ∧ IOManager.has (IOManager.events (context_of (iom x) fd)) e = false
    ∧ ∀ fuel now' p' f so (y : world Cb K) tm, tinfo y !! ti = tinfo x !! ti → TimersSpec.inv (tim y) →
        TimerManager.heap (tim y) !! p = Some tm →
        ∃ y', do_io_resume (Some sched) fiber true fuel now' ti p' fd f e so (Some p) y = (Ret (Done (-1)), y')
          ∧ errno y' = ETIMEDOUT ∧ tinfo y' !! ti = None
          ∧ ∃ tm', TimerManager.heap (tim y') !! p = Some tm' ∧ TimerManager.m_cb tm' = None.
Proof.
  intros Hw Hd Hr Hnew [k' Hctl] cb.
  destruct (listExpiredCb_ok (tim w) now_timer now [] (waits_tim _ _ _ _ _ _ _ _ Hw) Hnew)
    as (t1 & E & Hinv1 & _).
  pose proof (timer_due w ti p fd e fiber deadline now Hw Hd Hr) as Hin.
  exists (callbacks (TimerManager.heap (tim w)) (due (tim w) now)), t1.
  destruct (run_timer_wakes_at (set_tim t1 w) ti fd e fiber) as (x & Ex & Hs & Hev & Hti); try apply Hw.
  { by exists k'. }
  exists x. split; [exact E|]. split; [exact Hin|]. split; [exact Ex|]. split; [exact Hs|].
  split; [exact Hev|]. intros fuel now' p' f so y tm Hy Hyt Hyp. rewrite Hti in Hy.
  destruct (resume_timed_out fiber fuel now' ti p p' fd f e so y tm) as (y' & E' & He & Ht & _ & Hc); try done.
  exists y'. split; [exact E'|]. split; [done|]. split; [|done]. rewrite Ht. apply lookup_delete_eq.
Qed.
End waiting.

(** ** The event comes *)

Section ready.
Context {Cb K : Type} `{Epoll}.
Context (pipe sched : Z).
Implicit Types (w : world Cb K) (fd e ti p to : Z) (f : origin (K:=K)).

(** A resumed call that was not cancelled: it is made again, and its timer holds no callback. *)
Lemma resume_retries fiber fuel now ti p p' fd f e to w tm :
  tinfo w !! ti = Some 0 → TimersSpec.inv (tim w) → TimerManager.heap (tim w) !! p = Some tm →
  ∃ x, TimersSpec.inv x
    ∧ TimerManager.heap x = <[p := TimerManager.set_cb None tm]> (TimerManager.heap (tim w))
    ∧ do_io_resume (Some sched) fiber true fuel now ti p' fd f e to (Some p) w
      = retry (Some sched) fiber true fuel now ti p' fd f e to (set_tim x w).
Proof.
  intros Hti Hinv Htm. destruct (cancel_timer_ok p w tm Hinv Htm) as (x & E & Hi & Hx).
  exists x. split_and!; [done..|]. unfold do_io_resume. st_run exact E. st_run reflexivity.
  cbn [tinfo set_tim]. by rewrite Hti.
Qed.

(** The fiber that waits is among the waiters of a set of events with its own. *)
Lemma waits_in_mask w ti p fd e fiber deadline real :
  waits pipe w sched fiber ti p fd e deadline → IOManager.has real e = true →
  ∃ before after, waiting_mask real (context_of (iom w) fd)
    = before ++ [(sched, IOManager.TaskFiber fiber)] ++ after
    ∧ (length before + length after <= 1)%nat.
Proof.
  intros Hw Hreal.
  pose proof (waiting_armed e (context_of (iom w) fd) sched _ (waits_fiber _ _ _ _ _ _ _ _ _ Hw)) as Hx.
  pose proof (fun x => waiting_le_1 x (context_of (iom w) fd)) as Hle. unfold waiting_mask.
  destruct (waits_event _ _ _ _ _ _ _ _ _ Hw) as [-> | ->]; rewrite Hreal, Hx.
  - exists []. eexists. split; [reflexivity|]. cbn [length Nat.add].
    destruct (IOManager.has real IOManager.WRITE); [apply Hle|cbn; lia].
  - eexists _, []. split; [by rewrite app_nil_r|]. cbn [length]. rewrite Nat.add_0_r.
    destruct (IOManager.has real IOManager.READ); [apply Hle|cbn; lia].
Qed.

(** C16. A wait ends when the event comes. When [epoll_wait] reports the event of a waiting call
    (with nothing that is not registered), and the kernel accepts the change, the loop takes the
    event out of the reactor and schedules the waiting fiber, once. When the fiber is resumed
    before the timeout, its timer loses its callback, and the call is made again: an answer other
    than EINTR and EAGAIN is the result of the hooked call, which leaves no [timer_info], no
    waiter and no armed timer behind; another EAGAIN makes the fiber wait again, for the whole
    timeout counted from then on, unless the kernel refuses. *)
Theorem ready_ends_wait w ti p fd e fiber deadline ev :
  waits pipe w sched fiber ti p fd e deadline →
  let c := context_of (iom w) fd in
  let real := IOManager.real_events (IOManager.events c) ev in
  IOManager.has real e = true → Z.land (IOManager.events c) real = real →
  (∃ k', let left := Z.ldiff (IOManager.events c) real in
     epoll_ctl (IOManager.epfd (iom w)) (if left =? 0 then EPOLL_CTL_DEL else EPOLL_CTL_MOD) fd
       (Z.lor EPOLLET left) = (true, k')) →
  ∃ s before after,
    on_iom (IOManager.idle_event fd ev) w = (Ret tt, set_iom s w)
    ∧ IOManagerSpec.inv pipe s
    ∧ IOManager.scheduled s
      = IOManager.scheduled (iom w) ++ before ++ [(sched, IOManager.TaskFiber fiber)] ++ after
    ∧ (length before + length after <= 1)%nat
    ∧ IOManager.has (IOManager.events (context_of s fd)) e = false
    ∧ ∀ fuel now p' f to (y : world Cb K) tm,
        tinfo y !! ti = tinfo w !! ti → TimersSpec.inv (tim y) → fuel ≠ O →
        TimerManager.heap (tim y) !! p = Some tm →
        let r := do_io_resume (Some sched) fiber true fuel now ti p' fd f e to (Some p) y in
        (∀ n err k, answers f y n err k →
           ∃ y', r = (Ret (Done n), y') ∧ kern y' = k ∧ iom y' = iom y
             ∧ errno y' = (if n =? -1 then err else errno y)
             ∧ tinfo y' = delete ti (tinfo y)
             ∧ TimerManager.heap (tim y') !! p = Some (TimerManager.set_cb None tm))
        ∧ (∀ k, blocks f y k → to ≠ u64 (-1) → 0 <= fd < 2 ^ 30 → fd ≠ pipe →
           IOManagerSpec.inv pipe (iom y) →
           IOManager.has (IOManager.events (context_of (iom y) fd)) e = false →
           TimerManager.heap (tim y) !! p' = None →
           ∃ y', (r = (Ret (Waiting (Some p')), y') ∧ waits pipe y' sched fiber ti p' fd e (u64 (now + to)))
             ∨ (r = (Ret (Done (-1)), y') ∧ waiters (iom y') = waiters (iom y)
                ∧ tinfo y' = delete ti (tinfo y))).
Proof.
  intros Hw c real Hreal Hsub Hctl.
  destruct (waits_in_mask w ti p fd e fiber deadline real Hw Hreal) as (before & after & Hm & Hlen).
  destruct (idle_event_fires pipe (iom w) fd ev (waits_iom _ _ _ _ _ _ _ _ _ Hw)
    (waits_range _ _ _ _ _ _ _ _ _ Hw)) as (s & E & Hinv & Hs & Hev); [|done|done|].
  { intros Hz. fold c real in Hz. rewrite Hsub in Hz. rewrite Hz in Hreal.
    by destruct (waits_event _ _ _ _ _ _ _ _ _ Hw) as [-> | ->]. }
  fold c real in Hs, Hev. unfold c in Hs. rewrite Hm in Hs.
  exists s, before, after. split; [by apply on_iom_run|]. split; [done|]. split; [done|].
  split; [done|]. split.
  { rewrite Hev. apply has_ldiff; [apply Hw| |done]. apply (inv_context pipe), Hw. }
  intros fuel now p' f to y tm Hy Hyt Hfuel Htm r.
  assert (tinfo y !! ti = Some 0) as Hti by (rewrite Hy; apply Hw).
  destruct (resume_retries fiber fuel now ti p p' fd f e to y tm Hti Hyt Htm) as (x & Hx & Hp & Er).
  split.
  - intros n err k Ha. eexists. unfold r. rewrite Er.
    rewrite (retry_answers sched fiber fuel now ti p' fd f e to _ n err k) by done.
    split; [reflexivity|]. unfold answered.
    destruct (n =? -1); cbn; rewrite Hp, lookup_insert_eq; by split_and!.
  - intros k Hb Hto Hfd Hpipe Hiy Hh Hfresh. unfold r. rewrite Er.
    destruct (retry_blocks pipe sched fiber fuel now ti p' fd f e to (set_tim x y) k)
      as (y' & [[E1 H1]|[E1 (H1 & H2 & _)]]); try done; try apply Hw.
    + cbn. rewrite Hp, lookup_insert_ne; [done|]. intros ->. congruence.
    + exists y'. by left.
    + exists y'. right. by split_and!.
Qed.
End ready.

Section late.
Context {Cb K : Type} `{Epoll}.
Context (pipe : Z).

(** A timer that fires after its event did, but before the fiber is resumed and cancels it:
    the call will be reported as timed out although it is ready; and when another fiber waits for
    the other event of the same descriptor and the kernel accepts the change, the program ends in
    the failed assertion of [triggerEvent]. *)
Theorem late_timeout (w : world Cb K) ti fd e :
  IOManagerSpec.inv pipe (iom w) → in_range pipe (iom w) fd → is_event e → tinfo w !! ti = Some 0 →
  let c := context_of (iom w) fd in
  let r := run_timer (Timeout (ConditionTimer.mkBound ti (fd, e))) w in
  (IOManager.events c = 0 → r = (Ret tt, set_tinfo (<[ti := ETIMEDOUT]> (tinfo w)) w))
  ∧ (∀ k', IOManager.events c = other e →
      epoll_ctl (IOManager.epfd (iom w)) EPOLL_CTL_MOD fd (Z.lor EPOLLET (other e)) = (true, k') →
      r.1 = Abort).
Proof.
  intros Hinv Hr He Hti c r.
  set (w1 := set_tinfo (<[ti := ETIMEDOUT]> (tinfo w)) w).
  assert (r = (on_iom (IOManager.cancelEvent fd e);; mret tt) w1) as ->.
  { unfold r, run_timer. st_run reflexivity. cbn [ConditionTimer.weak_cond ConditionTimer.cb fst snd].
    rewrite Hti. cbn [negb Z.eqb]. by st_run reflexivity. }
  split.
  - intros Hz. destruct (remove_idle pipe (iom w1) fd e) as [_ E]; try done.
    st_run (apply on_iom_run; exact E). by destruct w.
  - intros k' Hev Hctl. pose proof (cancelEvent_aborts pipe (iom w1) fd e k' Hinv Hr He Hev Hctl) as Ha.
    unfold mbind, st_bind, on_iom. destruct (IOManager.cancelEvent fd e (iom w1)) as [q x].
    cbn in Ha. by subst.
Qed.

(** The descriptor flags the kernel keeps, as [fcntl] sets and gets them. *)
Context (flags : K → Z) (fcntl_f : option Z → origin (K:=K)).
Hypothesis fcntl_set : ∀ v k, ∃ k', fcntl_f (Some v) k = ((0, 0), k') ∧ flags k' = v.
Hypothesis fcntl_get : ∀ k, fcntl_f None k = ((flags k, 0), k).

Lemma fd_ctx_assign fd g (w : world Cb K) c :
  fd_ctx fd w = Some c → fd_ctx fd (assign_ctx fd g w).2 = Some (g c).
Proof.
  unfold fd_ctx, assign_ctx, modify. cbn [snd].
  destruct (default None (FdManager.get_lookup fd false (fdm w))) as [p|] eqn:E; [|done].
  intros Hc. cbn in Hc. unfold FdManager.get_lookup, FdManager.beyond in *. cbn [fdm set_fdm FdManager.m_datas].
  rewrite E. cbn. by rewrite lookup_alter_eq, Hc.
Qed.

Lemma lor_ldiff_flag a b : Z.ldiff (Z.lor a b) b = Z.ldiff a b.
Proof. apply Z.bits_inj'. intros n Hn. rewrite !Z.ldiff_spec, Z.lor_spec. by destruct (Z.testbit a n), (Z.testbit b n). Qed.

Lemma flag_on a : Z.land a O_NONBLOCK ≠ 0 → Z.lor a O_NONBLOCK = a.
Proof.
  intros Ha. apply Z.bits_inj'. intros n Hn. rewrite Z.lor_spec.
  change O_NONBLOCK with (2 ^ 11). rewrite (Z.pow2_bits_eqb 11 n) by lia.
  destruct (Z.eqb_spec 11 n) as [<-|]; [|by rewrite orb_false_r]. rewrite orb_true_r.
  destruct (Z.testbit a 11) eqn:E; [done|]. exfalso. apply Ha. apply Z.bits_inj'. intros m Hm.
  rewrite Z.land_spec, Z.bits_0. change O_NONBLOCK with (2 ^ 11). rewrite (Z.pow2_bits_eqb 11 m) by lia.
  destruct (Z.eqb_spec 11 m) as [<-|]; [by rewrite E|apply andb_false_r].
Qed.

Lemma flag_off a : Z.land a O_NONBLOCK = 0 → Z.ldiff a O_NONBLOCK = a.
Proof.
  intros Ha. apply Z.bits_inj'. intros n Hn. rewrite Z.ldiff_spec.
  pose proof (f_equal (fun x => Z.testbit x n) Ha) as Hb. cbn beta in Hb. rewrite Z.land_spec, Z.bits_0 in Hb.
  by destruct (Z.testbit a n), (Z.testbit O_NONBLOCK n).
Qed.

(** What a user sets with [F_SETFL] on a managed socket is what [F_GETFL] gives back, and
    decides whether later calls of the user block, while the kernel always gets O_NONBLOCK. *)
Theorem nonblock_is_hidden (w : world Cb K) fd c arg :
  fd_ctx fd w = Some c → managed (Some c) = true → FdCtx.getSysNonblock c = true → 0 <= arg →
  ∃ w1 n w2 c',
    fcntl fcntl_f fd (F_SETFL arg) w = (Ret n, w1) ∧ n = 0
    ∧ fcntl fcntl_f fd F_GETFL w1 = (Ret arg, w2)
    ∧ flags (kern w2) = Z.lor arg O_NONBLOCK
    ∧ fd_ctx fd w2 = Some c' ∧ FdCtx.getUserNonblock c' = negb (Z.land arg O_NONBLOCK =? 0).
Proof.
  intros Hc Hm Hsys Harg. set (g := FdCtx.setUserNonblock (negb (Z.land arg O_NONBLOCK =? 0))).
  pose proof (fd_ctx_assign fd g w c Hc) as Hg.
  destruct (assign_ctx fd g w) as [u wa] eqn:Ea. cbn [snd] in Hg.
  assert (u = Ret tt ∧ kern wa = kern w) as [-> Hk].
  { unfold assign_ctx, modify in Ea. injection Ea as <- <-. split; [done|].
    by destruct (default None _). }
  destruct (fcntl_set (Z.lor arg O_NONBLOCK) (kern wa)) as (k' & Ef & Hfl).
  set (w1 := set_kern k' wa). exists w1, 0, w1, (g c).
  assert (fd_ctx fd w1 = Some (g c)) as Hg1 by exact Hg.
  assert (managed (Some (g c)) = true) as Hm1 by exact Hm.
  split; [|split; [done|split; [|split; [exact Hfl|split; [exact Hg1|done]]]]].
  - unfold fcntl. st_run reflexivity. rewrite Hc, Hm, Hsys. cbn [negb]. fold g.
    st_run exact Ea. cbv zeta. unfold call. by rewrite Ef.
  - assert (0 <= Z.lor arg O_NONBLOCK) as Hpos by (apply Z.lor_nonneg; split; [done|by vm_compute]).
    assert (call (fcntl_f None) w1 = (Ret (Z.lor arg O_NONBLOCK), w1)) as Eg.
    { unfold call. rewrite (fcntl_get (kern w1)). cbn [kern w1 set_kern]. rewrite Hfl.
      by rewrite (proj2 (Z.eqb_neq _ _)) by lia. }
    unfold fcntl. st_run exact Eg. st_run reflexivity. rewrite Hg1, Hm1. cbn [negb]. cbv zeta.
    change (FdCtx.getUserNonblock (g c)) with (negb (Z.land arg O_NONBLOCK =? 0)).
    destruct (Z.eqb_spec (Z.land arg O_NONBLOCK) 0) as [E|E]; cbn [negb].
    + by rewrite lor_ldiff_flag, flag_off.
    + rewrite flag_on; [by rewrite flag_on|]. by rewrite flag_on.
Qed.

(** The timeout a socket is given in milliseconds is the one its hooked calls wait for:
    [setRecvTimeout(v)] and [setSendTimeout(v)] pass it as seconds and microseconds, the hook
    turns it back and keeps it with the descriptor; -1 means no timeout. *)
Theorem timeout_roundtrip (w : world Cb K) (f : origin) fd c v optname :
  fd_ctx fd w = Some c → 0 <= v < 2 ^ 31 ∨ v = -1 → optname = SO_RCVTIMEO ∨ optname = SO_SNDTIMEO →
  match Socket.timeval_of v with
  | OptTimeval sec usec =>
      ∃ c', fd_ctx fd (setsockopt true f fd SOL_SOCKET optname sec usec w).2 = Some c'
        ∧ FdCtx.getTimeout optname c' = u64 v
        ∧ FdCtx.getTimeout (if optname =? SO_RCVTIMEO then SO_SNDTIMEO else SO_RCVTIMEO) c'
          = FdCtx.getTimeout (if optname =? SO_RCVTIMEO then SO_SNDTIMEO else SO_RCVTIMEO) c
  | OptInt _ => False
  end.
Proof.
  intros Hc Hv Ho. unfold Socket.timeval_of.
  set (sec := s32 (Z.quot v 1000)). set (usec := s32 (Z.rem v 1000 * 1000)).
  assert (sec * 1000 + Z.quot usec 1000 = v) as E.
  { destruct Hv as [Hv| ->]; [|by vm_compute]. unfold sec, usec.
    rewrite Z.quot_div_nonneg, Z.rem_mod_nonneg by lia.
    pose proof (Z.mod_pos_bound v 1000 eq_refl). pose proof (Z.div_mod v 1000 ltac:(lia)).
    rewrite !(swrap_small 32) by (lia || (unfold fits_s; simpl; lia)).
    rewrite Z.quot_div_nonneg, Z.div_mul by lia. lia. }
  unfold setsockopt. cbn [negb].
  assert ((optname =? SO_RCVTIMEO) || (optname =? SO_SNDTIMEO) = true) as -> by (by destruct Ho as [-> | ->]).
  cbn [Z.eqb andb SOL_SOCKET]. rewrite E.
  set (g := FdCtx.setTimeout optname (u64 v)).
  pose proof (fd_ctx_assign fd g w c Hc) as Hg. destruct (assign_ctx fd g w) as [u wa] eqn:Ea.
  cbn [snd] in Hg. exists (g c).
  assert (u = Ret tt) as -> by (unfold assign_ctx, modify in Ea; by injection Ea as <- <-).
  split.
  - change (SOL_SOCKET =? SOL_SOCKET) with true. cbv iota.
    rewrite (st_bind_Ret _ _ w tt wa Ea). unfold call. destruct (f (kern wa)) as [[n e] k].
    cbn [snd]. by destruct (n =? -1).
  - destruct Ho as [-> | ->]; done.
Qed.
End late.

(** ** Instances

    Descriptor 5 is a socket with a receive timeout of 250 ms; its calls would block. *)

#[local] Existing Instance IOManagerProps.map_epoll.

Definition socket_ctx : FdCtx.t := FdCtx.mk true true true false false 5 250 (u64 (-1)).
Definition fd_table_5 : FdManager.t :=
  FdManager.mk (<[5%nat := Some 900]> (replicate 64 None)) {[900 := socket_ctx]} [].
Definition calm : world unit Z := mk fd_table_5 IOManagerProps.start (TimerManager.make 1000) ∅ 0 0.
Definition would_block : origin (K:=Z) := fun k => ((-1, EAGAIN), k).

Lemma do_io_passes_through_witness :
  do_io true (Some 1) 7 true 3 1000 800 700 5 (fun k => ((12, 0), k)) IOManager.READ SO_RCVTIMEO calm
  = (Ret (Done 12), set_tinfo (delete 800 ∅) (set_kern 0 calm)).
Proof.
  refine (do_io_passes_through 1 7 3 1000 800 700 5 (fun k => ((12, 0), k)) IOManager.READ SO_RCVTIMEO calm
    12 0 0 true eq_refl _ _).
  - by left.
  - done.
Defined.

Lemma do_io_waits_witness :
  ∃ w', (do_io true (Some 1) 7 true 3 1000 800 700 5 would_block IOManager.READ SO_RCVTIMEO calm
           = (Ret (Waiting (Some 700)), w') ∧ waits 4 w' 1 7 800 700 5 IOManager.READ 1250)
     ∨ (do_io true (Some 1) 7 true 3 1000 800 700 5 would_block IOManager.READ SO_RCVTIMEO calm
           = (Ret (Done (-1)), w') ∧ waiters (iom w') = waiters (iom calm)).
Proof.
  destruct (do_io_waits 4 1 7 3 1000 800 700 5 would_block IOManager.READ SO_RCVTIMEO calm socket_ctx 0)
    as (w' & Hw).
  - by vm_compute.
  - by vm_compute.
  - apply IOManagerProps.start_inv.
  - lia.
  - lia.
  - by left.
  - by vm_compute.
  - apply make_inv.
  - done.
  - done.
  - done.
  - exists w'. destruct Hw as [[E Hw]|[E [Hw _]]]; [left; by split|right; by split].
Defined.

(** The fiber 7 in that wait. *)
Definition blocked : world unit Z :=
  (do_io true (Some 1) 7 true 3 1000 800 700 5 would_block IOManager.READ SO_RCVTIMEO calm).2.

Lemma blocked_waits : waits 4 blocked 1 7 800 700 5 IOManager.READ 1250.
Proof.
  destruct (retry_blocks 4 1 7 3 1000 800 700 5 would_block IOManager.READ 250
    (set_tinfo {[800 := 0]} calm) 0) as (w' & Hw);
    [apply IOManagerProps.start_inv|lia|lia|by left|by vm_compute|done|apply make_inv|done..|].
  assert (retry (Some 1) 7 true 3 1000 800 700 5 would_block IOManager.READ 250 (set_tinfo {[800 := 0]} calm)
    = (Ret (Waiting (Some 700)), blocked)) as E by by vm_compute.
  rewrite E in Hw. destruct Hw as [[[= <-] Hw]|[Hw _]]; [exact Hw|discriminate Hw].
Qed.

Lemma timeout_ends_wait_witness :
  ∃ cbs t1 x,
    TimerManager.listExpiredCb 600 1250 [] (tim blocked) = (Ret cbs, t1)
    ∧ run_timer (Timeout (ConditionTimer.mkBound 800 (5, IOManager.READ))) (set_tim t1 blocked) = (Ret tt, x)
    ∧ IOManager.scheduled (iom x) = IOManager.scheduled (iom blocked) ++ [(1, IOManager.TaskFiber 7)].
Proof.
  destruct (timeout_ends_wait 4 1 blocked 800 700 5 IOManager.READ 7 1250 1250 600 blocked_waits)
    as (cbs & t1 & x & E & _ & Ex & Hs & _).
  - lia.
  - by vm_compute.
  - by vm_compute.
  - eexists. by vm_compute.
  - exists cbs, t1, x. split; [exact E|]. split; [exact Ex|exact Hs].
Defined.

(** The same fiber when the socket becomes readable at 1100, before the deadline 1250. *)
Lemma ready_ends_wait_witness :
  ∃ s y', on_iom (IOManager.idle_event 5 EPOLLIN) blocked = (Ret tt, set_iom s blocked)
    ∧ (∃ before after, IOManager.scheduled s
         = IOManager.scheduled (iom blocked) ++ before ++ [(1, IOManager.TaskFiber 7)] ++ after)
    ∧ do_io_resume (Some 1) 7 true 3 1100 800 701 5 (fun k => ((12, 0), k)) IOManager.READ 250 (Some 700)
        (set_iom s blocked) = (Ret (Done 12), y')
    ∧ tinfo y' = delete 800 (tinfo blocked).
Proof.
  destruct (ready_ends_wait 4 1 blocked 800 700 5 IOManager.READ 7 1250 EPOLLIN blocked_waits)
    as (s & before & after & E & _ & Hs & _ & _ & Hr).
  - by vm_compute.
  - by vm_compute.
  - eexists. by vm_compute.
  - destruct (waits_timer _ _ _ _ _ _ _ _ _ blocked_waits) as [ms Htm].
    destruct (Hr 3%nat 1100 701 (fun k => ((12, 0), k)) 250 (set_iom s blocked) _ eq_refl
      (waits_tim _ _ _ _ _ _ _ _ _ blocked_waits) (Nat.neq_succ_0 2) Htm) as [Ha _].
    destruct (Ha 12 0 (kern blocked)) as (y' & Ey & _ & _ & _ & Hy & _).
    { split; [done|by left]. }
    exists s, y'. split; [exact E|]. split; [by exists before, after|]. split; [exact Ey|exact Hy].
Defined.

(** Fiber 8 waits to read from descriptor 5 while the write of fiber 7 has just become ready. *)
Definition ready_late : world unit Z := set_tinfo {[801 := 0]} (set_iom IOManagerProps.reading calm).

Lemma late_timeout_witness :
  (run_timer (Timeout (ConditionTimer.mkBound 801 (5, IOManager.WRITE))) ready_late).1 = Abort.
Proof.
  destruct (late_timeout 4 ready_late 801 5 IOManager.WRITE IOManagerProps.reading_inv) as [_ Hl].
  - by split; [vm_compute|].
  - by right.
  - by vm_compute.
  - eapply Hl; [by vm_compute|by vm_compute].
Defined.

Definition fcntl_reg (arg : option Z) (k : Z) : (Z * Z) * Z :=
  match arg with Some v => ((0, 0), v) | None => ((k, 0), k) end.

Lemma nonblock_is_hidden_witness :
  ∃ w1 w2, fcntl fcntl_reg 5 (F_SETFL 1) calm = (Ret 0, w1) ∧ fcntl fcntl_reg 5 F_GETFL w1 = (Ret 1, w2)
    ∧ kern w2 = 2049.
Proof.
  destruct (nonblock_is_hidden (fun k => k) fcntl_reg (fun v k => ex_intro _ v (conj eq_refl eq_refl))
    (fun k => eq_refl) calm 5 socket_ctx 1) as (w1 & n & w2 & c' & E1 & -> & E2 & Hf & _); [by vm_compute..|].
  exists w1, w2. split; [exact E1|]. split; [exact E2|exact Hf].
Defined.

Lemma timeout_roundtrip_witness :
  ∃ c', fd_ctx 5 (setsockopt true would_block 5 SOL_SOCKET SO_SNDTIMEO 1 500000 calm).2 = Some c'
    ∧ FdCtx.getTimeout SO_SNDTIMEO c' = 1500.
Proof.
  destruct (timeout_roundtrip calm would_block 5 socket_ctx 1500 SO_SNDTIMEO) as (c' & E & Ht & _).
  - by vm_compute.
  - left. lia.
  - by right.
  - exists c'. split; [exact E|exact Ht].
Defined.
