(* ===== verification/Config.v ===== *)
(** * Configuration (sylar/config.h, sylar/config.cpp)

    Variables with a value of some type, a text form and callbacks for changes, in a registry by
    name; a YAML document sets the variables it names. The types are codes with their values, so
    that one registry holds variables of all of them and a cast that finds another type fails as
    [dynamic_pointer_cast] does. YAML documents belong to a library: what is asked of them is the
    class [Yaml]. *)

From S2P Require Import Prelude CString StdOrdered StringUtil.

(** What the module asks of [YAML::Node]: [Load] and [LoadFile] may throw; iterating over a
    node gives pairs, indexing it gives its elements, and [<<] prints it. *)
Class Yaml (Node : Type) := {
  IsScalar : Node → bool;
  IsMap : Node → bool;
  Scalar : Node → list byte;
  pairs : Node → list (Node * Node);
  elements_of : Node → list Node;
  emit : Node → list byte;
  Load : list byte → outcome Node;
  sequence : list Node → Node;
  mapping : list (list byte * Node) → Node;
}.

(** [operator<] of [std::string]. *)
Fixpoint string_lt (l r : list byte) : bool :=
  match l, r with
  | _, [] => false
  | [], _ :: _ => true
  | a :: l, b :: r =>
      if byte_to_Z a <? byte_to_Z b then true
      else if byte_to_Z b <? byte_to_Z a then false else string_lt l r
  end.

(** ** [LexicalCast] between YAML text and containers *)

Module LexicalCast.
Section casts.
Context {Node : Type} `{Yaml Node} {T : Type}.
Context (of_string : list byte → outcome T) (to_string : T → outcome (list byte)).

(** The loop over the elements, each printed and cast in turn. *)
Fixpoint cast_all (l : list Node) : outcome (list T) :=
  match l with
  | [] => Ret []
  | n :: l => x ← of_string (emit n); xs ← cast_all l; Ret (x :: xs)
  end.
Definition vector_of_string (v : list byte) : outcome (list T) := node ← Load v; cast_all (elements_of node).
Definition list_of_string (v : list byte) : outcome (list T) := node ← Load v; cast_all (elements_of node).
Definition set_of_string (lt : T → T → bool) (v : list byte) : outcome (list T) :=
  node ← Load v; xs ← cast_all (elements_of node); Ret (foldl (fun s x => set_insert lt x s) [] xs).
Definition unordered_set_of_string `{Countable T} (v : list byte) : outcome (gset T) :=
  node ← Load v; xs ← cast_all (elements_of node); Ret (foldl (fun s x => s ∪ {[x]}) ∅ xs).

Fixpoint node_all (l : list T) : outcome (list Node) :=
  match l with
  | [] => Ret []
  | x :: l => s ← to_string x; n ← Load s; ns ← node_all l; Ret (n :: ns)
  end.
Definition string_of_sequence (v : list T) : outcome (list byte) := ns ← node_all v; Ret (emit (sequence ns)).
Definition string_of_list (v : list T) : outcome (list byte) := string_of_sequence v.
(** A set is walked in its order. *)
Definition string_of_set (v : list T) : outcome (list byte) := string_of_sequence v.
(** [enum]: the order in which the hash table is walked. *)
Definition string_of_unordered_set `{Countable T} (enum : gset T → list T) (v : gset T) : outcome (list byte) :=
  string_of_sequence (enum v).

Fixpoint cast_pairs (l : list (Node * Node)) : outcome (list (list byte * T)) :=
  match l with
  | [] => Ret []
  | it :: l => x ← of_string (emit it.2); xs ← cast_pairs l; Ret ((Scalar it.1, x) :: xs)
  end.
Definition map_of_string (v : list byte) : outcome (list (list byte * T)) :=
  node ← Load v; xs ← cast_pairs (pairs node);
  Ret (foldl (fun m x => map_insert string_lt x.1 x.2 m) [] xs).
(** [insert] keeps the value of a key that is there. *)
Definition unordered_map_of_string (v : list byte) : outcome (gmap (list byte) T) :=
  node ← Load v; xs ← cast_pairs (pairs node);
  Ret (foldl (fun m x => match m !! x.1 with Some _ => m | None => <[x.1 := x.2]> m end) ∅ xs).

Fixpoint node_pairs (l : list (list byte * T)) : outcome (list (list byte * Node)) :=
  match l with
  | [] => Ret []
  | i :: l => s ← to_string i.2; n ← Load s; ns ← node_pairs l; Ret ((i.1, n) :: ns)
  end.
Definition string_of_map (v : list (list byte * T)) : outcome (list byte) :=
  ns ← node_pairs v; Ret (emit (mapping ns)).
Definition string_of_unordered_map (enum : gmap (list byte) T → list (list byte * T))
    (v : gmap (list byte) T) : outcome (list byte) := string_of_map (enum v).
End casts.
End LexicalCast.

(** ** One variable *)

(** [std::transform] of a name with [tolower]. *)
Definition lower (name : list byte) : list byte := (fun c => byte_of_Z (tolower c)) <$> name.

Module ConfigVar.
Section var.
Context {T Cb : Type} `{EqDecision T}.
Context (FromStr : list byte → outcome T) (ToStr : T → outcome (list byte)).
(** A callback runs on the old and the new value; it may throw. *)
Context {W : Type} (call : Cb → T → T → W → outcome unit * W).

Record t := mk {
  m_name : list byte;
  m_description : list byte;
  m_val : T;
  m_cbs : list (Z * Cb);
}.
Definition set_val (v : T) (o : t) : t := mk (m_name o) (m_description o) v (m_cbs o).
Definition set_cbs (v : list (Z * Cb)) (o : t) : t := mk (m_name o) (m_description o) (m_val o) v.

Definition make (name : list byte) (default_value : T) (description : list byte) : t :=
  mk (lower name) description default_value [].
Definition getName (o : t) : list byte := m_name o.
Definition getDescription (o : t) : list byte := m_description o.

Definition toString (o : t) : outcome (list byte) :=
  match ToStr (m_val o) with Throw _ => Ret [] | r => r end.

Definition getValue (o : t) : T := m_val o.

(** The loop over the callbacks: the first one that throws ends it. *)
Fixpoint notify (cbs : list (Z * Cb)) (old_value new_value : T) : ST (t * W) unit :=
  match cbs with
  | [] => mret tt
  | i :: cbs =>
      (fun s => let '(r, w) := call i.2 old_value new_value s.2 in (r, (s.1, w)));;
      notify cbs old_value new_value
  end.
Definition setValue (v : T) : ST (t * W) unit :=
  o ← gets fst;
  if decide (v = m_val o) then mret tt
  else notify (m_cbs o) (m_val o) v;; modify (fun s => (set_val v s.1, s.2)).

Definition fromString (val : list byte) : ST (t * W) bool := fun s =>
  match (v ← lift (FromStr val); setValue v) s with
  | (Ret _, s) | (Throw _, s) => (Ret false, s)
  | (Abort, s) => (Abort, s)
  | (Undef, s) => (Undef, s)
  | (NoFuel, s) => (NoFuel, s)
  end.

(** [s_fun_id] is shared by all variables of a type: it goes in and comes out. *)
Definition addListener (cb : Cb) (s_fun_id : Z) (o : t) : Z * t :=
  let id := u64 (s_fun_id + 1) in (id, set_cbs (map_assign Z.ltb id cb (m_cbs o)) o).
Definition delListener (key : Z) (o : t) : t := set_cbs (map_erase Z.ltb key (m_cbs o)) o.
Definition getListener (key : Z) (o : t) : option Cb := map_get Z.ltb key (m_cbs o).
Definition clearListener (o : t) : t := set_cbs [] o.
End var.
Arguments t : clear implicits.
End ConfigVar.

(** ** The registry *)

(** The characters of a name. *)
Definition name_chars : list byte := lit "abcdefghikjlmnopqrstuvwxyz._012345678".
Definition valid_name (name : list byte) : bool :=
  match StringUtil.find_first_not_of name name_chars with None => true | Some _ => false end.

Module Config.
Section config.
Context {Ty : Type} `{Countable Ty} (Val Cb : Ty → Type) `{∀ T, EqDecision (Val T)}.
Context (FromStr : ∀ T, list byte → outcome (Val T)) (ToStr : ∀ T, Val T → outcome (list byte)).
Context {W : Type} (call : ∀ T, Cb T → Val T → Val T → W → outcome unit * W).

(** A [ConfigVarBase::ptr] points to a variable of some type. *)
Record any := Any { type_of : Ty; var : ConfigVar.t (Val type_of) (Cb type_of) }.

Record t := mk {
  datas : gmap (list byte) Z;
  vars : gmap Z any;
  s_fun_id : gmap Ty Z;
  world : W;
}.
Definition set_datas (v : gmap (list byte) Z) (s : t) : t := mk v (vars s) (s_fun_id s) (world s).
Definition set_var (p : Z) (v : any) (w : W) (s : t) : t := mk (datas s) (<[p := v]> (vars s)) (s_fun_id s) w.
Definition start (w : W) : t := mk ∅ ∅ ∅ w.

(** [dynamic_pointer_cast<ConfigVar<T>>]. *)
Definition cast (T : Ty) (a : any) : option (ConfigVar.t (Val T) (Cb T)) :=
  match decide (type_of a = T) with
  | left E => Some (eq_rect (type_of a) (fun T => ConfigVar.t (Val T) (Cb T)) (var a) T E)
  | right _ => None
  end.

(** [Lookup(name, default_value, description)]; [addr] is where a new variable is put. A null
    pointer is [None]. *)
Definition Lookup (T : Ty) (name : list byte) (default_value : Val T) (description : list byte) (addr : Z)
    : ST t (option Z) :=
  s ← get;
  match datas s !! name with
  | Some p =>
      a ← lift (deref (vars s !! p));
      mret (match cast T a with Some _ => Some p | None => None end)
  | None =>
      if negb (valid_name name) then throw invalid_argument
      else
        modify (set_var addr (Any T (ConfigVar.make name default_value description)) (world s));;
        modify (fun s => set_datas (<[name := addr]> (datas s)) s);;
        mret (Some addr)
  end.

(** [Lookup(name)] and [LookupBase(name)]. *)
Definition Lookup_existing (T : Ty) (name : list byte) : ST t (option Z) :=
  s ← get;
  match datas s !! name with
  | None => mret None
  | Some p => a ← lift (deref (vars s !! p)); mret (match cast T a with Some _ => Some p | None => None end)
  end.
Definition LookupBase (name : list byte) (s : t) : option Z := datas s !! name.

(** A virtual call on a variable, and a call through a pointer of its own type. *)
Definition on_var {A} (p : Z) (m : ∀ T, ST (ConfigVar.t (Val T) (Cb T) * W) A) : ST t A := fun s =>
  match vars s !! p with
  | None => (Undef, s)
  | Some a => let '(r, (o, w)) := m (type_of a) (var a, world s) in (r, set_var p (Any (type_of a) o) w s)
  end.
Definition on_typed {A} (T : Ty) (p : Z) (m : ST (ConfigVar.t (Val T) (Cb T) * W) A) : ST t A := fun s =>
  match vars s !! p ≫= cast T with
  | None => (Undef, s)
  | Some o => let '(r, (o, w)) := m (o, world s) in (r, set_var p (Any T o) w s)
  end.

Definition fromString (p : Z) (val : list byte) : ST t bool :=
  on_var p (fun T => ConfigVar.fromString (FromStr T) (call T) val).
Definition toString (p : Z) : ST t (list byte) :=
  on_var p (fun T s => (ConfigVar.toString (ToStr T) s.1, s)).
Definition getValue (T : Ty) (p : Z) : ST t (Val T) := on_typed T p (gets (fun s => ConfigVar.getValue s.1)).
Definition setValue (T : Ty) (p : Z) (v : Val T) : ST t unit := on_typed T p (ConfigVar.setValue (call T) v).

Definition addListener (T : Ty) (p : Z) (cb : Cb T) : ST t Z :=
  n ← gets (fun s => default 0 (s_fun_id s !! T));
  id ← on_typed T p (fun s => let '(id, o) := ConfigVar.addListener cb n s.1 in (Ret id, (o, s.2)));
  modify (fun s => mk (datas s) (vars s) (<[T := id]> (s_fun_id s)) (world s));;
  mret id.
Definition delListener (T : Ty) (p : Z) (key : Z) : ST t unit :=
  on_typed T p (modify (fun s => (ConfigVar.delListener key s.1, s.2))).
Definition clearListener (T : Ty) (p : Z) : ST t unit :=
  on_typed T p (modify (fun s => (ConfigVar.clearListener s.1, s.2))).

(** [Visit(cb)]: [enum] is the order in which the table is walked. *)
Definition Visit (enum : gmap (list byte) Z → list (list byte * Z)) (cb : Z → ST t unit) : ST t unit :=
  s ← get;
  foldr (fun it (rest : ST t unit) => cb it.2;; rest) (mret tt) (enum (datas s)).

(** ** Documents *)

Section yaml.
Context {Node : Type} `{Yaml Node}.

(** [ListAllMember(prefix, node, output)]: the loop over the pairs of a map, around the
    recursion. *)
Fixpoint ListAllMember (fuel : nat) (prefix : list byte) (node : Node) (output : list (list byte * Node))
    : outcome (list (list byte * Node)) :=
  match fuel with
  | O => NoFuel
  | S fuel =>
      if negb (valid_name prefix) then Ret output
      else
        let output := output ++ [(prefix, node)] in
        if IsMap node then
          foldl (fun (out : outcome (list (list byte * Node))) it =>
            output ← out;
            ListAllMember fuel (match prefix with [] => Scalar it.1 | _ => prefix ++ lit "." ++ Scalar it.1 end)
              it.2 output) (Ret output) (pairs node)
        else Ret output
  end.

(** One round of the loop of [LoadFromYaml]. *)
Definition load_member (i : list byte * Node) : ST t unit :=
  match i.1 with
  | [] => mret tt
  | _ =>
      s ← get;
      match LookupBase (lower i.1) s with
      | Some p =>
          (if IsScalar i.2 then fromString p (Scalar i.2) else fromString p (emit i.2));; mret tt
      | None => mret tt
      end
  end.
Fixpoint load_members (l : list (list byte * Node)) : ST t unit :=
  match l with
  | [] => mret tt
  | i :: l => load_member i;; load_members l
  end.
Definition LoadFromYaml (fuel : nat) (root : Node) : ST t unit :=
  all_nodes ← lift (ListAllMember fuel [] root []); load_members all_nodes.

(** [LoadFromConfDir(path, force)]: the table of the times of the files, the time of a file, and
    its document. The call that would list the files is commented out. *)
Context (st_mtime : list byte → W → Z) (LoadFile : list byte → W → outcome Node).
Definition load_file (fuel : nat) (force : bool) (i : list byte) : ST (gmap (list byte) Z * t) unit := fun s =>
  let m := st_mtime i (world s.2) in
  if negb force && (default 0 (s.1 !! i) =? m) then (Ret tt, (<[i := default 0 (s.1 !! i)]> s.1, s.2))
  else
    let times := <[i := m]> s.1 in
    match (root ← lift (LoadFile i (world s.2)); LoadFromYaml fuel root) s.2 with
    | (Ret _, c) | (Throw _, c) => (Ret tt, (times, c))
    | (Abort, c) => (Abort, (times, c))
    | (Undef, c) => (Undef, (times, c))
    | (NoFuel, c) => (NoFuel, (times, c))
    end.
Fixpoint load_files (fuel : nat) (force : bool) (files : list (list byte)) : ST (gmap (list byte) Z * t) unit :=
  match files with
  | [] => mret tt
  | i :: files => load_file fuel force i;; load_files fuel force files
  end.
Definition LoadFromConfDir (fuel : nat) (path : list byte) (force : bool) : ST (gmap (list byte) Z * t) unit :=
  load_files fuel force [].
End yaml.
End config.
End Config.
