(* ===== verification/ConfigProps.v ===== *)
(** * What the configuration module does

    The walk through a document ends and lists the members whose names are valid all the way down;
    the registry keeps every variable under its name, at its address and of its type; and a
    change of a value is told to the callbacks that are registered, in their order. *)

From S2P Require Import Prelude CString StdOrdered StringUtil StringProps Config.

Lemma valid_name_spec name : valid_name name = true ↔ Forall (.∈ name_chars) name.
Proof.
  unfold valid_name. pose proof (find_first_spec name name_chars) as Hf.
  destruct (StringUtil.find_first_not_of name name_chars) as [i|]; [|done]. split; [done|].
  intros Hall. destruct Hf as [_ (x & Hi%list_elem_of_lookup_2 & Hx)].
  rewrite Forall_forall in Hall. by apply Hall in Hi.
Qed.

(** The valid characters are no capital letters. *)
Lemma lower_valid name : valid_name name = true → lower name = name.
Proof.
  rewrite valid_name_spec. induction 1 as [|c name Hc _ IH]; [done|]. unfold lower in *. cbn [fmap list_fmap].
  rewrite IH. f_equal. clear -Hc. revert c Hc. apply Forall_forall. vm_compute.
  repeat constructor.
Qed.

(** ** The walk through a document *)

Section document.
Context {Node : Type} `{Yaml Node}.

Definition join (prefix key : list byte) : list byte :=
  match prefix with [] => key | _ => prefix ++ lit "." ++ key end.

(** [p] names the member [n] of [node], which is itself called [prefix]: the keys on the way to it
    are those of maps, and each name on the way is valid. *)
Inductive member : list byte → Node → list byte → Node → Prop :=
| member_here prefix node : valid_name prefix = true → member prefix node prefix node
| member_below prefix node it p n :
    valid_name prefix = true → IsMap node = true → it ∈ pairs node →
    member (join prefix (Scalar it.1)) it.2 p n → member prefix node p n.

Lemma member_valid prefix node p n : member prefix node p n → valid_name p = true.
Proof. by induction 1. Qed.

(** A document is finite: its members are smaller than it. *)
Context (size : Node → nat) (Hsize : ∀ node it, it ∈ pairs node → (size it.2 < size node)%nat).

(** What one call of the walk adds. *)
Definition lists (fuel : nat) (prefix : list byte) (node : Node) : Prop :=
  ∀ output, ∃ l, Config.ListAllMember fuel prefix node output = Ret (output ++ l)
    ∧ ∀ p n, (p, n) ∈ l ↔ member prefix node p n.

Lemma lists_pairs fuel prefix (its : list (Node * Node)) :
  (∀ it, it ∈ its → lists fuel (join prefix (Scalar it.1)) it.2) →
  ∀ output, ∃ l,
    foldl (fun (out : outcome (list (list byte * Node))) it =>
      output ← out; Config.ListAllMember fuel (join prefix (Scalar it.1)) it.2 output) (Ret output) its
    = Ret (output ++ l)
    ∧ ∀ p n, (p, n) ∈ l ↔ ∃ it, it ∈ its ∧ member (join prefix (Scalar it.1)) it.2 p n.
Proof.
  induction its as [|it its IH]; intros Hits output; cbn [foldl].
  { exists []. rewrite app_nil_r. split; [done|]. set_solver. }
  destruct (Hits it ltac:(left) output) as (l & E & Hl). rewrite bind_Ret, E.
  destruct (IH (λ x Hx, Hits x ltac:(by right)) (output ++ l)) as (l' & E' & Hl').
  exists (l ++ l'). rewrite app_assoc. split; [done|]. intros p n.
  rewrite elem_of_app, Hl, Hl'. set_solver.
Qed.

Lemma ListAllMember_lists fuel : ∀ prefix node, (size node < fuel)%nat → lists fuel prefix node.
Proof.
  induction fuel as [|fuel IH]; intros prefix node Hf output; [lia|]. cbn [Config.ListAllMember].
  destruct (valid_name prefix) eqn:Hv; simpl.
  2:{ exists []. rewrite app_nil_r. split; [done|]. intros p n. split; [set_solver|].
      destruct 1; congruence. }
  destruct (IsMap node) eqn:Hm.
  - destruct (lists_pairs fuel prefix (pairs node)) with (output := output ++ [(prefix, node)])
      as (l & E & Hl).
    { intros it Hit. apply IH. specialize (Hsize _ _ Hit). lia. }
    exists ((prefix, node) :: l). rewrite <- app_assoc in E. split; [exact E|]. intros p n.
    rewrite elem_of_cons, Hl. split.
    + intros [[= -> ->]|(it & Hit & Hp)]; [by apply member_here|by eapply member_below].
    + destruct 1 as [|? ? it p n _ _ Hit Hp]; [by left|right; eauto].
  - exists [(prefix, node)]. split; [done|]. intros p n. rewrite list_elem_of_singleton. split.
    + intros [= -> ->]. by apply member_here.
    + destruct 1; [done|congruence].
Qed.

(** C36. The walk through a configuration document ends for every finite document and lists exactly
    the members that are reached through keys of maps such that each dotted name on the way has
    only the characters a name may have; so a listed name is its own lower-case form, and a member
    under a key with a capital letter or a 9 is passed over with all below it. *)
Theorem document_listed root :
  ∃ l, Config.ListAllMember (S (size root)) [] root [] = Ret l
    ∧ (∀ p n, (p, n) ∈ l ↔ member [] root p n)
    ∧ ∀ p n, (p, n) ∈ l → Forall (.∈ name_chars) p ∧ lower p = p.
Proof using Hsize.
  destruct (ListAllMember_lists (S (size root)) [] root (Nat.lt_succ_diag_r _) []) as (l & E & Hl).
  exists l. split; [done|]. split; [done|].
  intros p n Hp. apply Hl, member_valid in Hp. split; [by apply valid_name_spec|by apply lower_valid].
Qed.
End document.

(** ** The registry *)

Section registry.
Context {Ty : Type} `{Countable Ty} {Val Cb : Ty → Type} `{∀ T, EqDecision (Val T)}.
Context (FromStr : ∀ T, list byte → outcome (Val T)).
Context {W : Type} (call : ∀ T, Cb T → Val T → Val T → W → outcome unit * W).
Context {Node : Type} `{Yaml Node}.
Abbreviation state := (Config.t Val Cb (W := W)).
Implicit Types (s : state) (a : Config.any Val Cb).

Definition name_of a : list byte := ConfigVar.m_name (Config.var _ _ a).

(** What a program does with the registry and the variables it got from it. *)
Inductive step : state → state → Prop :=
| step_Lookup T name v d addr s r s' :
    Config.vars _ _ s !! addr = None → Config.Lookup Val Cb T name v d addr s = (r, s') → step s s'
| step_setValue T p v s r s' : Config.setValue Val Cb call T p v s = (r, s') → step s s'
| step_fromString p val s r s' : Config.fromString Val Cb FromStr call p val s = (r, s') → step s s'
| step_addListener T p cb s r s' : Config.addListener Val Cb T p cb s = (r, s') → step s s'
| step_delListener T p key s r s' : Config.delListener Val Cb T p key s = (r, s') → step s s'
| step_clearListener T p s r s' : Config.clearListener Val Cb T p s = (r, s') → step s s'
| step_LoadFromYaml fuel root s r s' : Config.LoadFromYaml Val Cb FromStr call fuel root s = (r, s') → step s s'.

(** Every name is valid and leads to a variable of that name. *)
Definition registered s : Prop := ∀ name p, Config.datas _ _ s !! name = Some p →
  valid_name name = true ∧ ∃ a, Config.vars _ _ s !! p = Some a ∧ name_of a = name.

(** A later state has the same names, and the variables keep type and name. *)
Definition extends s s' : Prop :=
  (∀ name p, Config.datas _ _ s !! name = Some p → Config.datas _ _ s' !! name = Some p)
  ∧ ∀ p a, Config.vars _ _ s !! p = Some a →
      ∃ a', Config.vars _ _ s' !! p = Some a'
        ∧ Config.type_of _ _ a' = Config.type_of _ _ a ∧ name_of a' = name_of a.

#[export] Instance extends_preorder : PreOrder extends.
Proof.
  split.
  - intros s. split; [done|]. intros p a Hp. by exists a.
  - intros s1 s2 s3 [Hd Hv] [Hd' Hv']. split; [by eauto|]. intros p a Hp.
    apply Hv in Hp as (a1 & Hp & Et & En). apply Hv' in Hp as (a2 & Hp & Et' & En').
    exists a2. by rewrite Et', En'.
Qed.

(** The steps that only change variables. *)
Definition same_names s s' : Prop := extends s s' ∧ Config.datas _ _ s' = Config.datas _ _ s.

Lemma same_names_refl s : same_names s s.
Proof. by split. Qed.
Lemma same_names_trans s1 s2 s3 : same_names s1 s2 → same_names s2 s3 → same_names s1 s3.
Proof. intros [He Ed] [He' Ed']. split; [by etrans|by rewrite Ed']. Qed.

Lemma same_names_registered s s' : same_names s s' → registered s → registered s'.
Proof.
  intros [[_ Hv] Ed] Hs name p Hp. rewrite Ed in Hp. apply Hs in Hp as (Hn & a & Ha & <-).
  split; [done|]. apply Hv in Ha as (a' & ? & _ & ?). by exists a'.
Qed.

Lemma set_var_same_names p a a' w s :
  Config.vars _ _ s !! p = Some a → Config.type_of _ _ a' = Config.type_of _ _ a → name_of a' = name_of a →
  same_names s (Config.set_var Val Cb p a' w s).
Proof.
  intros Hp Et En. split; [|done]. split; [done|]. intros q b Hq. cbn.
  destruct (decide (q = p)) as [->|Hne]; simplify_map_eq; eauto.
Qed.

(** Operations of one variable keep its name. *)
Definition keeps_name {T A} (m : ST (ConfigVar.t (Val T) (Cb T) * W) A) : Prop :=
  ∀ x r y, m x = (r, y) → ConfigVar.m_name y.1 = ConfigVar.m_name x.1.

Lemma keeps_name_pure {T A} (m : ST (ConfigVar.t (Val T) (Cb T) * W) A) :
  (∀ x, ConfigVar.m_name (m x).2.1 = ConfigVar.m_name x.1) → keeps_name m.
Proof. intros Hm x r y E. by rewrite <- (Hm x), E. Qed.

Lemma keeps_name_bind {T A B} (m : ST (ConfigVar.t (Val T) (Cb T) * W) A) (f : A → ST _ B) :
  keeps_name m → (∀ v, keeps_name (f v)) → keeps_name (m ≫= f).
Proof.
  intros Hm Hf x r y E. unfold mbind, st_bind in E. destruct (m x) as [o z] eqn:Em.
  apply Hm in Em. destruct o; simplify_eq; try done. by rewrite (Hf _ _ _ _ E).
Qed.

Lemma notify_keeps T cbs old new : keeps_name (ConfigVar.notify (call T) cbs old new).
Proof.
  induction cbs as [|i cbs IH]; cbn [ConfigVar.notify]; [by apply keeps_name_pure|].
  apply keeps_name_bind; [|done]. apply keeps_name_pure. intros x. by destruct (call _ _ _ _ _).
Qed.

Lemma setValue_keeps T v : keeps_name (ConfigVar.setValue (call T) v).
Proof.
  apply keeps_name_bind; [by apply keeps_name_pure|]. intros o. destruct (decide _); [by apply keeps_name_pure|].
  apply keeps_name_bind; [apply notify_keeps|]. intros ?. by apply keeps_name_pure.
Qed.

Lemma fromString_keeps T val : keeps_name (ConfigVar.fromString (FromStr T) (call T) val).
Proof.
  intros x r y E. unfold ConfigVar.fromString in E.
  assert (keeps_name (v ← lift (FromStr T val); ConfigVar.setValue (call T) v)) as Hk.
  { apply keeps_name_bind; [by apply keeps_name_pure|]. apply setValue_keeps. }
  destruct ((v ← lift _; _) x) as [o z] eqn:Ex. apply Hk in Ex. by destruct o; simplify_eq.
Qed.

Lemma on_var_same_names {A} p (m : ∀ T, ST (ConfigVar.t (Val T) (Cb T) * W) A) s r s' :
  (∀ T, keeps_name (m T)) → Config.on_var Val Cb p m s = (r, s') → same_names s s'.
Proof.
  intros Hm E. unfold Config.on_var in E.
  destruct (Config.vars _ _ s !! p) as [[T o]|] eqn:Hp; [|simplify_eq; apply same_names_refl].
  cbn in E. destruct (m T (o, _)) as [v [o' w']] eqn:Em. simplify_eq.
  eapply set_var_same_names; [done..|]. apply (Hm _ _ _ _ Em).
Qed.

Lemma cast_spec T a o : Config.cast Val Cb T a = Some o → a = Config.Any _ _ T o.
Proof. destruct a as [T' o']. unfold Config.cast. cbn. case_decide; [|done]. by subst; intros [= ->]. Qed.

Lemma cast_iff T a : match Config.cast Val Cb T a with Some _ => Config.type_of _ _ a = T | None => Config.type_of _ _ a ≠ T end.
Proof. destruct a as [T' o']. unfold Config.cast. cbn. by case_decide. Qed.

Lemma on_typed_same_names {A} T p (m : ST (ConfigVar.t (Val T) (Cb T) * W) A) s r s' :
  keeps_name m → Config.on_typed Val Cb T p m s = (r, s') → same_names s s'.
Proof.
  intros Hm E. unfold Config.on_typed in E.
  destruct (Config.vars _ _ s !! p ≫= _) as [o|] eqn:Hp; [|simplify_eq; apply same_names_refl].
  apply bind_Some in Hp as (a & Hp & ->%cast_spec).
  destruct (m (o, _)) as [v [o' w']] eqn:Em. simplify_eq.
  eapply set_var_same_names; [done..|]. apply (Hm _ _ _ Em).
Qed.

(** Computations that keep the names, and their sequences. *)
Definition quiet {A} (m : ST state A) : Prop := ∀ s r s', m s = (r, s') → same_names s s'.

Lemma quiet_pure {A} (m : ST state A) : (∀ s, same_names s (m s).2) → quiet m.
Proof. intros Hm s r s' E. specialize (Hm s). by rewrite E in Hm. Qed.

Lemma quiet_bind {A B} (m : ST state A) (f : A → ST state B) :
  quiet m → (∀ v, quiet (f v)) → quiet (m ≫= f).
Proof.
  intros Hm Hf s r s' E. unfold mbind, st_bind in E. destruct (m s) as [o s1] eqn:Em.
  apply Hm in Em. destruct o; simplify_eq; try done. eapply same_names_trans; [done|]. by eapply Hf.
Qed.

Lemma quiet_ret {A} (v : A) : quiet (mret v).
Proof. apply quiet_pure. intros s. apply same_names_refl. Qed.

Lemma setValue_quiet T p v : quiet (Config.setValue Val Cb call T p v).
Proof. intros s r s'. apply on_typed_same_names, setValue_keeps. Qed.
Lemma fromString_quiet p val : quiet (Config.fromString Val Cb FromStr call p val).
Proof. intros s r s'. apply on_var_same_names. intros T. apply fromString_keeps. Qed.

Lemma addListener_quiet T p cb : quiet (Config.addListener Val Cb T p cb).
Proof.
  apply quiet_bind; [by apply quiet_pure, same_names_refl|]. intros n.
  apply quiet_bind; [intros s r s'; by apply on_typed_same_names, keeps_name_pure|]. intros id.
  apply quiet_bind; [|intros ?; apply quiet_ret]. apply quiet_pure. intros s. by split; [split; eauto|].
Qed.

Lemma load_members_quiet (l : list (list byte * Node)) : quiet (Config.load_members Val Cb FromStr call l).
Proof.
  induction l as [|[p n] l IH]; cbn [Config.load_members]; [apply quiet_ret|].
  apply quiet_bind; [|done]. unfold Config.load_member. cbn [fst snd].
  destruct p as [|c p]; [apply quiet_ret|].
  apply quiet_bind; [by apply quiet_pure, same_names_refl|]. intros s.
  destruct (Config.LookupBase _ _ _ _); [|apply quiet_ret].
  apply quiet_bind; [|intros ?; apply quiet_ret]. destruct (IsScalar n); apply fromString_quiet.
Qed.

Lemma LoadFromYaml_quiet fuel (root : Node) : quiet (Config.LoadFromYaml Val Cb FromStr call fuel root).
Proof.
  apply quiet_bind; [by apply quiet_pure, same_names_refl|]. intros l. apply load_members_quiet.
Qed.

(** What [Lookup] does with a name that is registered, and with one that is not. *)
Lemma Lookup_declared T name v d addr s p a :
  Config.datas _ _ s !! name = Some p → Config.vars _ _ s !! p = Some a →
  Config.Lookup Val Cb T name v d addr s
  = (Ret (if decide (Config.type_of _ _ a = T) then Some p else None), s).
Proof.
  intros Hd Hp. unfold Config.Lookup, mbind, st_bind, get. cbn. rewrite Hd. unfold lift, deref. rewrite Hp.
  unfold mret, st_ret. pose proof (cast_iff T a). destruct (Config.cast _ _ _ _); by case_decide.
Qed.

Lemma Lookup_existing_declared T name s p a :
  Config.datas _ _ s !! name = Some p → Config.vars _ _ s !! p = Some a →
  Config.Lookup_existing Val Cb T name s
  = (Ret (if decide (Config.type_of _ _ a = T) then Some p else None), s).
Proof.
  intros Hd Hp. unfold Config.Lookup_existing, mbind, st_bind, get. cbn. rewrite Hd. unfold lift, deref. rewrite Hp.
  unfold mret, st_ret. pose proof (cast_iff T a). destruct (Config.cast _ _ _ _); by case_decide.
Qed.

Lemma Lookup_new T name v d addr s :
  Config.datas _ _ s !! name = None →
  Config.Lookup Val Cb T name v d addr s
  = if valid_name name then
      (Ret (Some addr),
       Config.set_datas Val Cb (<[name := addr]> (Config.datas _ _ s))
         (Config.set_var Val Cb addr (Config.Any _ _ T (ConfigVar.make name v d)) (Config.world _ _ s) s))
    else (Throw invalid_argument, s).
Proof.
  intros Hd. unfold Config.Lookup, mbind, st_bind, get. cbn. rewrite Hd. by destruct (valid_name name).
Qed.

Lemma step_keeps s s' : step s s' → registered s → registered s' ∧ extends s s'.
Proof.
  intros Hstep Hs.
  assert (same_names s s' → registered s' ∧ extends s s') as Hquiet.
  { intros Hq. split; [by eapply same_names_registered|apply Hq]. }
  destruct Hstep as [T name v d addr s r s' Hf E|T p v s r s' E|p val s r s' E|T p cb s r s' E
    |T p key s r s' E|T p s r s' E|fuel root s r s' E].
  2: by eapply Hquiet, setValue_quiet. 2: by eapply Hquiet, fromString_quiet.
  2: by eapply Hquiet, addListener_quiet.
  2-3: by eapply Hquiet, on_typed_same_names, E; apply keeps_name_pure.
  2: by eapply Hquiet, LoadFromYaml_quiet.
  destruct (Config.datas _ _ s !! name) as [p|] eqn:Hd.
  { destruct (Hs _ _ Hd) as (_ & a & Ha & _). rewrite (Lookup_declared _ _ _ _ _ _ _ _ Hd Ha) in E.
    simplify_eq. apply Hquiet, same_names_refl. }
  rewrite Lookup_new in E by done. destruct (valid_name name) eqn:Hv; simplify_eq;
    [|apply Hquiet, same_names_refl].
  split.
  - intros n q Hq. cbn in Hq |- *. destruct (decide (n = name)) as [->|Hne]; simplify_map_eq.
    + split; [done|]. eexists. split; [done|]. unfold name_of. cbn. by apply lower_valid.
    + destruct (Hs _ _ Hq) as (Hn & a & Ha & En). split; [done|]. exists a.
      rewrite lookup_insert_ne by congruence. done.
  - split; cbn.
    + intros n q Hq. by rewrite lookup_insert_ne by congruence.
    + intros q a Ha. exists a. by rewrite lookup_insert_ne by congruence.
Qed.

Lemma steps_keep s s' : rtc step s s' → registered s → registered s' ∧ extends s s'.
Proof.
  induction 1 as [s|s1 s2 s3 Hstep _ IH]; intros Hs; [done|].
  apply step_keeps in Hstep as [H2 He]; [|done]. destruct (IH H2) as [H3 He']. split; [done|by etrans].
Qed.

Lemma start_registered w : registered (Config.start Val Cb w).
Proof. intros name p Hp. cbn in Hp. by simplify_map_eq. Qed.

(** C27. A variable is declared once: whatever has happened to the registry, when Lookup hands out a
    variable, then the name is valid, and after any further declarations, changes of values and
    callbacks, and documents, every Lookup of the name with this type gives the same variable and
    with another type a null pointer, both without a change, and the variable still has its name. *)
Theorem declared_once w s1 s2 s3 T name v d addr p :
  rtc step (Config.start Val Cb w) s1 → Config.vars _ _ s1 !! addr = None →
  Config.Lookup Val Cb T name v d addr s1 = (Ret (Some p), s2) → rtc step s2 s3 →
  valid_name name = true
  ∧ (∃ a, Config.vars _ _ s3 !! p = Some a ∧ Config.type_of _ _ a = T ∧ name_of a = name)
  ∧ ∀ T' v' d' addr', let result := if decide (T = T') then Some p else None in
      Config.Lookup Val Cb T' name v' d' addr' s3 = (Ret result, s3)
      ∧ Config.Lookup_existing Val Cb T' name s3 = (Ret result, s3).
Proof.
  intros Hr1 Hf E Hr3. apply steps_keep in Hr1 as [Hr1 _]; [|apply start_registered].
  pose proof (step_Lookup _ _ _ _ _ _ _ _ Hf E) as Hstep. apply step_keeps in Hstep as [Hr2 _]; [|done].
  assert (Config.datas _ _ s2 !! name = Some p
    ∧ ∃ a, Config.vars _ _ s2 !! p = Some a ∧ Config.type_of _ _ a = T) as (Hd & a & Ha & Et).
  { destruct (Config.datas _ _ s1 !! name) as [q|] eqn:Hd.
    - destruct (Hr1 _ _ Hd) as (_ & a & Ha & _). rewrite (Lookup_declared _ _ _ _ _ _ _ _ Hd Ha) in E.
      case_decide; simplify_eq. eauto.
    - rewrite Lookup_new in E by done. destruct (valid_name name); simplify_eq. cbn. simplify_map_eq. eauto. }
  destruct (Hr2 _ _ Hd) as (Hv & a0 & Ha0 & En). simplify_eq.
  apply steps_keep in Hr3 as [Hr3 [Hd3 Hv3]]; [|done]. apply Hd3 in Hd. apply Hv3 in Ha as (a' & Ha & Et' & En').
  split; [done|]. split; [by exists a'; rewrite Et', En'|]. rewrite <- Et'. intros T' v' d' addr' result.
  split; [by apply Lookup_declared|by apply Lookup_existing_declared].
Qed.
End registry.

(** ** Callbacks *)

Section listeners.
Context {T Cb : Type} `{EqDecision T}.
Implicit Types (o : ConfigVar.t T Cb) (l : list (Z * Cb)).

(** What happens to the callbacks of a variable; [Elsewhere]: another variable of its type gets
    one, from the same counter. *)
Inductive event := Add (cb : Cb) | Del (key : Z) | Clear | Elsewhere.
Definition happen (s : Z * ConfigVar.t T Cb) (e : event) : Z * ConfigVar.t T Cb :=
  match e with
  | Add cb => ConfigVar.addListener cb s.1 s.2
  | Del key => (s.1, ConfigVar.delListener key s.2)
  | Clear => (s.1, ConfigVar.clearListener s.2)
  | Elsewhere => (u64 (s.1 + 1), s.2)
  end.

(** The callbacks that are registered after these events, the counter having been [n] before. *)
Definition removes (id : Z) (e : event) : bool :=
  match e with Del key => key =? id | Clear => true | _ => false end.
Definition removed (id : Z) (es : list event) : bool := existsb (removes id) es.
Fixpoint alive (n : Z) (es : list event) : list (Z * Cb) :=
  match es with
  | [] => []
  | Add cb :: es => (if removed (n + 1) es then [] else [(n + 1, cb)]) ++ alive (n + 1) es
  | Elsewhere :: es => alive (n + 1) es
  | (Del _ | Clear) :: es => alive n es
  end.

Definition survivors (l : list (Z * Cb)) (es : list event) : list (Z * Cb) :=
  filter (fun i => removed i.1 es = false) l.

Lemma assign_last id cb l :
  Forall (fun i => i.1 < id) l → map_assign Z.ltb id cb l = l ++ [(id, cb)].
Proof.
  induction 1 as [|[k c] l Hk _ IH]; [done|]. cbn [map_assign]. cbn in Hk.
  destruct (id <? k) eqn:E1; [lia|]. destruct (k <? id) eqn:E2; [|lia]. by rewrite IH.
Qed.

Lemma survivors_app l l' es : survivors (l ++ l') es = survivors l es ++ survivors l' es.
Proof. apply filter_app. Qed.

Lemma survivors_none l : survivors l [] = l.
Proof. unfold survivors. induction l as [|i l IH]; [done|]. rewrite filter_cons_True by done. by rewrite IH. Qed.

Lemma survivors_keep l e es : (∀ id, removes id e = false) → survivors l (e :: es) = survivors l es.
Proof. intros He. unfold survivors. apply list_filter_iff. intros i. unfold removed. cbn. by rewrite He. Qed.

Lemma survivors_del l key es :
  survivors l (Del key :: es) = survivors (map_erase Z.ltb key l) es.
Proof.
  unfold survivors, map_erase. rewrite list_filter_filter. apply list_filter_iff. intros i.
  unfold removed. cbn. rewrite orb_false_iff. unfold equivb.
  rewrite andb_false_iff, !negb_false_iff, !Z.ltb_lt, Z.eqb_neq. split; intros [? ?]; split; (lia || done).
Qed.

Lemma survivors_clear l es : survivors l (Clear :: es) = [].
Proof. unfold survivors. induction l as [|i l IH]; [done|]. by rewrite filter_cons_False by (unfold removed; simpl; congruence). Qed.

(** The counter does not wrap around, so a new callback comes last. *)
Lemma happen_alive es : ∀ n o,
  0 <= n → n + Z.of_nat (length es) < 2 ^ 64 → Forall (fun i => i.1 <= n) (ConfigVar.m_cbs o) →
  let o' := (foldl happen (n, o) es).2 in
  ConfigVar.m_cbs o' = survivors (ConfigVar.m_cbs o) es ++ alive n es
  ∧ ConfigVar.m_val o' = ConfigVar.m_val o.
Proof.
  induction es as [|e es IH]; intros n o Hn Hb Hl; cbn [foldl].
  { by rewrite survivors_none, app_nil_r. }
  cbn [length] in Hb. destruct e as [cb|key| |]; cbn [happen fst snd alive].
  - unfold ConfigVar.addListener. replace (u64 (n + 1)) with (n + 1) by (symmetry; apply uwrap_small; unfold fits_u; lia).
    assert (Forall (fun i => i.1 < n + 1) (ConfigVar.m_cbs o)) as Hlt.
    { eapply Forall_impl; [exact Hl|]. intros i Hi. cbn in *. lia. }
    edestruct (IH (n + 1)) as [Ec Ev]; [| | |cbv zeta; rewrite Ec, Ev]; [lia|lia| |].
    { cbn. rewrite assign_last by done. apply Forall_app. split; [|by repeat constructor].
      eapply Forall_impl; [exact Hlt|]. intros i Hi. cbn in *. lia. }
    split; [|done]. cbn [ConfigVar.m_cbs ConfigVar.set_cbs].
    rewrite assign_last, survivors_app, survivors_keep, <- app_assoc by done. f_equal. f_equal.
    unfold survivors. cbn. by destruct (removed (n + 1) es).
  - edestruct (IH n) as [Ec Ev]; [| | |cbv zeta; rewrite Ec, Ev]; [lia|lia| |].
    { by apply Forall_forall; intros i [_ Hi]%list_elem_of_filter; apply (proj1 (Forall_forall _ _) Hl). }
    split; [|done]. by rewrite survivors_del.
  - edestruct (IH n) as [Ec Ev]; [| | |cbv zeta; rewrite Ec, Ev]; [lia|lia|constructor|].
    split; [|done]. by rewrite survivors_clear.
  - replace (u64 (n + 1)) with (n + 1) by (symmetry; apply uwrap_small; unfold fits_u; lia).
    edestruct (IH (n + 1) o) as [Ec Ev]; [| | |cbv zeta; rewrite Ec, Ev]; [lia|lia| |].
    { eapply Forall_impl; [exact Hl|]. intros i Hi. cbn in *. lia. }
    split; [|done]. by rewrite survivors_keep.
Qed.

(** Callbacks that write down what they are called with, and throw when [fails] says so. *)
Context (fails : Cb → T → T → option exn).
Definition logging (cb : Cb) (old new : T) (w : list (Cb * T * T)) : outcome unit * list (Cb * T * T) :=
  (match fails cb old new with Some e => Throw e | None => Ret tt end, w ++ [(cb, old, new)]).

Definition calls (l : list (Z * Cb)) (old new : T) : list (Cb * T * T) := (fun i => (i.2, old, new)) <$> l.
Definition quiet_calls (l : list (Z * Cb)) (old new : T) : Prop := Forall (fun i => fails i.2 old new = None) l.

Lemma notify_all l old new o w : quiet_calls l old new →
  ConfigVar.notify logging l old new (o, w) = (Ret tt, (o, w ++ calls l old new)).
Proof.
  intros Hl. revert w. induction Hl as [|i l Hi _ IH]; intros w; cbn; [by rewrite app_nil_r|].
  unfold mbind, st_bind, logging. cbn. rewrite Hi, IH. by rewrite <- app_assoc.
Qed.

Lemma notify_throws l i l' old new e o w : quiet_calls l old new → fails i.2 old new = Some e →
  ConfigVar.notify logging (l ++ i :: l') old new (o, w) = (Throw e, (o, w ++ calls (l ++ [i]) old new)).
Proof.
  intros Hl Hi. revert w. induction Hl as [|j l Hj _ IH]; intros w; cbn.
  - unfold mbind, st_bind, logging. cbn. by rewrite Hi.
  - unfold mbind, st_bind, logging. cbn. rewrite Hj, IH. unfold calls. by rewrite <- app_assoc.
Qed.

(** C32. A change is told to the callbacks that are registered: after any additions and removals,
    also of callbacks of other variables of the type, setValue with a new value calls exactly the
    callbacks that were added and not removed since, in the order they were added, each with the
    old and the new value, and then stores it; a callback that throws ends this, and the value
    stays as it was; with an equal value nothing happens. *)
Theorem listeners_notified n name v0 descr es v w :
  0 <= n → n + Z.of_nat (length es) < 2 ^ 64 →
  let o := (foldl happen (n, ConfigVar.make name v0 descr) es).2 in
  let r := ConfigVar.setValue logging v (o, w) in
  (v = v0 → r = (Ret tt, (o, w)))
  ∧ (v ≠ v0 → quiet_calls (alive n es) v0 v →
      r = (Ret tt, (ConfigVar.set_val v o, w ++ calls (alive n es) v0 v)))
  ∧ ∀ l i l' e, v ≠ v0 → alive n es = l ++ i :: l' → quiet_calls l v0 v → fails i.2 v0 v = Some e →
      r = (Throw e, (o, w ++ calls (l ++ [i]) v0 v)).
Proof.
  intros Hn Hb o r.
  destruct (happen_alive es n (ConfigVar.make name v0 descr)) as [Ec Ev]; [done..|by apply Forall_nil|].
  fold o in Ec, Ev. cbn in Ec, Ev.
  unfold r, ConfigVar.setValue, gets, mbind, st_bind. cbn. rewrite Ev, Ec. case_decide as Hv.
  - by repeat split.
  - split; [done|]. split.
    + intros _ Hq. by rewrite notify_all.
    + intros l i l' e _ -> Hq Hi. by rewrite (notify_throws _ _ _ _ _ e).
Qed.
End listeners.

(** ** The theorems on configuration at concrete documents and variables *)

(** Documents of scalars and maps. *)
Inductive doc := Leaf (s : list byte) | Dict (l : list (list byte * doc)).
Fixpoint doc_size (d : doc) : nat :=
  match d with Leaf _ => 1 | Dict l => S (foldr (fun kv n => (doc_size kv.2 + n)%nat) 0%nat l) end.
#[export] Instance doc_yaml : Yaml doc := {
  IsScalar d := match d with Leaf _ => true | _ => false end;
  IsMap d := match d with Dict _ => true | _ => false end;
  Scalar d := match d with Leaf s => s | _ => [] end;
  pairs d := match d with Dict l => (fun kv => (Leaf kv.1, kv.2)) <$> l | _ => [] end;
  elements_of d := [];
  emit d := [];
  Load s := Ret (Leaf s);
  sequence l := Leaf [];
  mapping l := Dict l;
}.
Lemma doc_smaller (d : doc) it : it ∈ pairs d → (doc_size it.2 < doc_size d)%nat.
Proof.
  destruct d as [|l]; cbn [pairs doc_yaml]; [by intros ?%not_elem_of_nil|].
  intros (kv & -> & Hkv)%list_elem_of_fmap. cbn. induction Hkv as [|? ? ? ? IH]; cbn; lia.
Qed.

Definition settings : doc := Dict [
  (lit "tcp", Dict [(lit "timeout", Leaf (lit "17")); (lit "Port", Leaf (lit "80"))]);
  (lit "port9", Leaf (lit "1"))].

Lemma document_listed_witness :
  ∃ l, Config.ListAllMember (S (doc_size settings)) [] settings [] = Ret l
    ∧ l.*1 = [[]; lit "tcp"; lit "tcp.timeout"] ∧ ∀ p n, (p, n) ∈ l → lower p = p.
Proof.
  destruct (document_listed doc_size doc_smaller settings) as (l & E & _ & H).
  exists l. split; [exact E|]. split; [|intros p n Hp; exact (proj2 (H p n Hp))].
  vm_compute in E. injection E as <-. reflexivity.
Defined.

(** Variables with numbers or texts, read from decimal text. *)
Definition value (T : bool) : Type := if T then Z else list byte.
#[export] Instance value_eq_dec T : EqDecision (value T).
Proof. destruct T; apply _. Defined.
Definition of_text (T : bool) : list byte → outcome (value T) :=
  match T with true => fun s => Ret (atoi s) | false => fun s => Ret s end.
Definition heard (T : bool) (cb : unit) (old new : value T) (w : nat) : outcome unit * nat := (Ret tt, S w).
Abbreviation registry := (Config.t value (fun _ => unit) (W := nat)).
Definition port : registry :=
  Config.mk value (fun _ => unit) {[lit "port" := 1]}
    {[1 := Config.Any value (fun _ => unit) true (ConfigVar.make (lit "port") 80 [])]} ∅ 0%nat.
Definition port_set : registry :=
  (Config.LoadFromYaml value (fun _ => unit) of_text heard 5 (Dict [(lit "port", Leaf (lit "17"))]) port).2.

Lemma declared_once_witness :
  Config.getValue value (fun _ => unit) true 1 port_set = (Ret 17, port_set)
  ∧ Config.Lookup value (fun _ => unit) true (lit "port") 9 [] 2 port_set = (Ret (Some 1), port_set)
  ∧ Config.Lookup value (fun _ => unit) false (lit "port") [] [] 2 port_set = (Ret None, port_set).
Proof.
  assert (Config.Lookup value (fun _ => unit) true (lit "port") 80 [] 1 (Config.start value (fun _ => unit) 0%nat)
          = (Ret (Some 1), port)) as E by reflexivity.
  assert (rtc (step (Node := doc) of_text heard) port port_set) as Hs.
  { apply rtc_once. eapply step_LoadFromYaml. apply surjective_pairing. }
  destruct (declared_once (Node := doc) of_text heard 0%nat _ _ _ true _ 80 [] 1 1 (rtc_refl _ _) eq_refl E Hs)
    as (_ & _ & H).
  split; [reflexivity|]. split; [exact (proj1 (H true 9 [] 2))|exact (proj1 (H false [] [] 2))].
Defined.

Definition strict (cb : nat) (old new : Z) : option exn := if (cb =? 7)%nat && (new <? old) then Some logic_error else None.
Lemma listeners_notified_witness :
  let es := [Add 5%nat; Elsewhere; Add 7%nat; Add 6%nat; Del 1] in
  let o := (foldl happen (0, ConfigVar.make (lit "port") 80 []) es).2 in
  ConfigVar.setValue (logging strict) 90 (o, []) = (Ret tt, (ConfigVar.set_val 90 o, [(7%nat, 80, 90); (6%nat, 80, 90)]))
  ∧ ConfigVar.setValue (logging strict) 70 (o, []) = (Throw logic_error, (o, [(7%nat, 80, 70)])).
Proof.
  intros es o. split.
  - apply (listeners_notified strict 0 (lit "port") 80 [] es 90 []);
      [lia|simpl; lia|done|repeat (constructor; [reflexivity|]); constructor].
  - apply (listeners_notified strict 0 (lit "port") 80 [] es 70 []) with
      (l := []) (i := (3, 7%nat)) (l' := [(4, 6%nat)]); [lia|simpl; lia|done|reflexivity|constructor|reflexivity].
Defined.
