(* ===== verification/Env.v ===== *)
(** * Environment (sylar/env.h, sylar/env.cpp)

    The command line as keys with values, the help texts, the variables of the process and the
    paths made from the place of the executable. The link to the executable, [getenv] and
    [setenv] belong to the system and are arguments. *)

From S2P Require Import Prelude CString Config.

(** [s.find_last_of] for one character. *)
Fixpoint find_last (c : byte) (s : list byte) : option nat :=
  match s with
  | [] => None
  | d :: s =>
      match find_last c s with
      | Some i => Some (S i)
      | None => if Byte.eqb c d then Some 0%nat else None
      end
  end.

Module Env.
Record t := mk {
  m_args : gmap (list byte) (list byte);
  m_helps : list (list byte * list byte);
  m_program : list byte;
  m_exe : list byte;
  m_cwd : list byte;
}.
Definition make : t := mk ∅ [] [] [] [].
Definition set_args (v : gmap (list byte) (list byte)) (e : t) : t := mk v (m_helps e) (m_program e) (m_exe e) (m_cwd e).
Definition set_helps (v : list (list byte * list byte)) (e : t) : t := mk (m_args e) v (m_program e) (m_exe e) (m_cwd e).

Definition add (key val : list byte) (e : t) : t := set_args (<[key := val]> (m_args e)) e.
Definition has (key : list byte) (e : t) : bool := match m_args e !! key with Some _ => true | None => false end.
Definition del (key : list byte) (e : t) : t := set_args (delete key (m_args e)) e.
Definition get (key default_value : list byte) (e : t) : list byte := default default_value (m_args e !! key).

Definition removeHelp (key : list byte) (e : t) : t :=
  set_helps (filter (fun it => it.1 ≠ key) (m_helps e)) e.
Definition addHelp (key desc : list byte) (e : t) : t :=
  let e := removeHelp key e in set_helps (m_helps e ++ [(key, desc)]) e.
(** What [printHelp] prints. *)
Definition printHelp (e : t) : list byte :=
  lit "Usage: " ++ m_program e ++ lit " [options]" ++ [x0a]
  ++ concat ((fun i => lit "    -" ++ i.1 ++ lit " : " ++ i.2 ++ [x0a]) <$> m_helps e).

(** [link] and [path] of [init]: [readlink] writes at most 1024 bytes and no zero behind them, or
    fails and writes nothing; the text is read up to a zero. *)
Definition proc_link (pid : Z) : list byte := lit "/proc/" ++ dec pid ++ lit "/exe".
Definition exe_path (readlink : list byte → Z → option (list byte)) (pid : Z) : outcome (list byte) :=
  let path := overwrite (replicate 1024 x00) 0 (default [] (readlink (proc_link pid) 1024)) in
  if bool_decide (x00 ∈ path) then Ret (c_str path) else Undef.
(** [m_exe.substr(0, pos)]: all of it when there is no slash. *)
Definition directory (exe : list byte) : list byte :=
  match find_last x2f exe with Some pos => take pos exe | None => exe end.

(** The loop over the arguments; a null [now_key] is [None]. *)
Fixpoint init_args (argv : list (list byte)) (now_key : option (list byte)) (e : t) : bool * t :=
  match argv with
  | [] => (true, match now_key with Some k => add k [] e | None => e end)
  | (x2d :: rest) :: argv =>
      match rest with
      | [] => (false, e)
      | _ => init_args argv (Some rest) (match now_key with Some k => add k [] e | None => e end)
      end
  | arg :: argv =>
      match now_key with
      | Some k => init_args argv None (add k arg e)
      | None => (false, e)
      end
  end.
Definition init (readlink : list byte → Z → option (list byte)) (pid : Z) (argv : list (list byte)) : ST t bool :=
  exe ← lift (exe_path readlink pid);
  modify (fun e => mk (m_args e) (m_helps e) (m_program e) exe (directory exe ++ [x2f]));;
  program ← lift (deref (head argv));
  modify (fun e => mk (m_args e) (m_helps e) program (m_exe e) (m_cwd e));;
  (fun e => let '(r, e) := init_args (tail argv) None e in (Ret r, e)) : ST t bool.

Definition setEnv {W} (setenv : list byte → list byte → Z → W → Z * W) (key val : list byte) : ST W bool := fun w =>
  let '(r, w) := setenv (c_str key) (c_str val) 1 w in (Ret (r =? 0), w).
Definition getEnv {W} (getenv : list byte → W → option (list byte)) (key default_value : list byte) (w : W) : list byte :=
  match getenv (c_str key) w with None => default_value | Some v => v end.

Definition getAbsolutePath (path : list byte) (e : t) : list byte :=
  match path with
  | [] => lit "/"
  | x2f :: _ => path
  | _ => m_cwd e ++ path
  end.

(** [getAbsoluteWorkPath]: the function remembers the variable it found on its first call that
    needs it, and the null pointer as well. *)
Section work_path.
Context {Ty : Type} `{Countable Ty} (Val Cb : Ty → Type) `{∀ T, EqDecision (Val T)} {W : Type}.
Context (text : Ty) (str : Val text → list byte).

Definition getAbsoluteWorkPath (path : list byte) : ST (option (option Z) * Config.t Val Cb (W := W)) (list byte) :=
  match path with
  | [] => mret (lit "/")
  | x2f :: _ => mret path
  | _ => fun s =>
      let g_server_work_path :=
        match s.1 with
        | Some g => (Ret g, s.2)
        | None => Config.Lookup_existing Val Cb text (lit "server.work_path") s.2
        end in
      match g_server_work_path with
      | (Ret g, c) =>
          match (p ← lift (deref g); Config.getValue Val Cb text p) c with
          | (Ret v, c) => (Ret (str v ++ lit "/" ++ path), (Some g, c))
          | (Throw e, c) => (Throw e, (Some g, c))
          | (Abort, c) => (Abort, (Some g, c))
          | (Undef, c) => (Undef, (Some g, c))
          | (NoFuel, c) => (NoFuel, (Some g, c))
          end
      | (Throw e, c) => (Throw e, (s.1, c))
      | (Abort, c) => (Abort, (s.1, c))
      | (Undef, c) => (Undef, (s.1, c))
      | (NoFuel, c) => (NoFuel, (s.1, c))
      end
  end.
End work_path.

Definition getConfigPath (e : t) : list byte := getAbsolutePath (get (lit "c") (lit "conf") e) e.
End Env.

(** ** What the environment keeps of the command line

    The text of a list of options is read back, and nothing else is accepted. *)

(** An option: its key, and its value if it has one. *)
Definition opt : Type := list byte * option (list byte).
Definition opt_text (o : opt) : list (list byte) := (x2d :: o.1) :: match o.2 with Some v => [v] | None => [] end.
Definition opts_text (os : list opt) : list (list byte) := concat (opt_text <$> os).
Definition opt_ok (o : opt) : Prop := o.1 ≠ [] ∧ ∀ v, o.2 = Some v → head v ≠ Some x2d.

(** What is kept of the options. *)
Definition keep (e : Env.t) (o : opt) : Env.t := Env.add o.1 (default [] o.2) e.
Definition last_value (k : list byte) (os : list opt) : option (list byte) :=
  foldl (fun v o => if decide (o.1 = k) then Some (default [] o.2) else v) None os.

Definition key_opt (now : option (list byte)) : list opt := match now with Some k => [(k, None)] | None => [] end.

Lemma opts_text_cons o os :
  opts_text (o :: os) = (x2d :: o.1) :: (match o.2 with Some v => [v] | None => [] end ++ opts_text os).
Proof. done. Qed.

(** A value after a key, and a value without one. *)
Lemma init_args_value v argv now e :
  head v ≠ Some x2d →
  Env.init_args (v :: argv) now e
  = match now with Some k => Env.init_args argv None (Env.add k v e) | None => (false, e) end.
Proof. destruct v as [|c v]; [done|]. destruct c; try done. Qed.

Lemma init_args_key k argv now e :
  k ≠ [] →
  Env.init_args ((x2d :: k) :: argv) now e = Env.init_args argv (Some k) (foldl keep e (key_opt now)).
Proof. destruct k; [done|]. by destruct now. Qed.

Lemma init_args_opts os : ∀ now e, Forall opt_ok os →
  Env.init_args (opts_text os) now e = (true, foldl keep (foldl keep e (key_opt now)) os).
Proof.
  induction os as [|[k v] os IH]; intros now e Hos; [by destruct now|].
  apply Forall_cons in Hos as [[Hk Hv] Hos]. rewrite opts_text_cons. cbn [fst snd] in Hk, Hv |- *.
  rewrite init_args_key by done.
  destruct v as [v|]; cbn [app].
  - rewrite init_args_value by auto. by rewrite IH.
  - by rewrite IH.
Qed.

(** Whatever is accepted is the text of options. *)
Lemma init_args_accepts argv : ∀ now e, (Env.init_args argv now e).1 = true →
  match now with
  | None => ∃ os, Forall opt_ok os ∧ argv = opts_text os
  | Some k => k ≠ [] → ∃ o os, Forall opt_ok (o :: os) ∧ o.1 = k ∧ (x2d :: k) :: argv = opts_text (o :: os)
  end.
Proof.
  induction argv as [|a argv IH]; intros now e Ha.
  - destruct now as [k|]; [|by exists []]. intros Hk. exists (k, None), [].
    split; [|done]. repeat constructor; cbn; [done|by intros ?].
  - destruct (decide (head a = Some x2d)) as [Ed|Hd].
    + destruct a as [|c rest]; [done|]. injection Ed as ->. destruct (decide (rest = [])) as [->|Hr]; [done|].
      rewrite init_args_key in Ha by done. apply IH in Ha. destruct (Ha Hr) as (o & os & Hos & Eo & Et).
      destruct now as [k|]; [|by exists (o :: os); rewrite Et].
      intros Hk. exists (k, None), (o :: os). split; [|split; [done|]].
      * constructor; [|done]. split; [done|by intros ?].
      * by rewrite Et.
    + rewrite init_args_value in Ha by done. destruct now as [k|]; [|done].
      apply IH in Ha as (os & Hos & ->). intros Hk. exists (k, Some a), os.
      split; [|done]. constructor; [|done]. split; [done|]. by intros v [= <-].
Qed.

Lemma kept_args os : ∀ e k,
  Env.m_args (foldl keep e os) !! k
  = foldl (fun v o => if decide (o.1 = k) then Some (default [] o.2) else v) (Env.m_args e !! k) os.
Proof.
  induction os as [|o os IH]; intros e k; [done|]. cbn [foldl]. rewrite IH. f_equal. cbn.
  case_decide; by simplify_map_eq.
Qed.

Lemma kept_rest os e : Env.m_cwd (foldl keep e os) = Env.m_cwd e ∧ Env.m_exe (foldl keep e os) = Env.m_exe e.
Proof. revert e. induction os as [|o os IH]; intros e; [done|]. cbn [foldl]. destruct (IH (keep e o)) as [-> ->]. done. Qed.

(** ** The place of the executable *)

Lemma find_last_none c s : c ∉ s → find_last c s = None.
Proof.
  induction s as [|d s IH]; [done|]. intros [Hd Hs]%not_elem_of_cons. cbn [find_last]. rewrite IH by done.
  destruct (Byte.eqb c d) eqn:E; [|done]. by apply Byte.byte_dec_bl in E.
Qed.

Lemma find_last_app c a b : c ∉ b → find_last c (a ++ c :: b) = Some (length a).
Proof.
  intros Hb. induction a as [|d a IH]; cbn [app find_last].
  - by rewrite find_last_none, eqb_refl.
  - by rewrite IH.
Qed.

Lemma exe_path_read readlink pid s :
  readlink (Env.proc_link pid) 1024 = Some s → x00 ∉ s → (length s < 1024)%nat →
  Env.exe_path readlink pid = Ret s.
Proof.
  intros E Hs Hl. unfold Env.exe_path. rewrite E. change (default [] (Some s)) with s.
  replace (overwrite (replicate 1024 x00) 0 s) with (s ++ x00 :: replicate (1023 - length s) x00).
  - rewrite bool_decide_true by (apply elem_of_app; right; left). rewrite c_str_app by done. simpl. by rewrite app_nil_r.
  - unfold overwrite. rewrite take_0, drop_replicate. cbn [app]. f_equal.
    by replace (1024 - (0 + length s))%nat with (S (1023 - length s)) by lia.
Qed.

(** C35. The command line is read back: from an executable found at dir/file, init keeps dir and
    every option of the line, a key with its value or with none, the last one of a key counting, so
    that get, has and the paths made from dir give what was written; and init refuses every line
    that is not the text of such options. *)
Theorem init_reads_back readlink pid program dir file os :
  readlink (Env.proc_link pid) 1024 = Some (dir ++ x2f :: file) →
  x00 ∉ dir ++ x2f :: file → x2f ∉ file → (length (dir ++ x2f :: file) < 1024)%nat →
  (Forall opt_ok os → ∃ e,
    Env.init readlink pid (program :: opts_text os) Env.make = (Ret true, e)
    ∧ Env.m_exe e = dir ++ x2f :: file
    ∧ (∀ k d, Env.get k d e = default d (last_value k os)
        ∧ Env.has k e = bool_decide (is_Some (last_value k os)))
    ∧ ∀ c rel, c ≠ x2f → Env.getAbsolutePath (c :: rel) e = dir ++ x2f :: c :: rel)
  ∧ ∀ argv e, Env.init readlink pid (program :: argv) Env.make = (Ret true, e) →
      ∃ os, Forall opt_ok os ∧ argv = opts_text os.
Proof.
  intros Er H0 Hf Hl. set (exe := dir ++ x2f :: file) in *.
  assert (∀ argv, Env.init readlink pid (program :: argv) Env.make
    = let r := Env.init_args argv None (Env.mk ∅ [] program exe (dir ++ [x2f])) in (Ret r.1, r.2)) as Ei.
  { intros argv. unfold Env.init, lift. rewrite (exe_path_read _ _ _ Er) by done.
    unfold mbind, st_bind, modify. cbn. unfold Env.directory, exe. rewrite find_last_app, take_app_length by done.
    by destruct (Env.init_args _ _ _). }
  split.
  - intros Hos. rewrite Ei, init_args_opts by done. cbv zeta. cbn [fst snd key_opt foldl]. eexists. split; [done|].
    destruct (kept_rest os (Env.mk ∅ [] program exe (dir ++ [x2f]))) as [Ec Ee]. split; [done|]. split.
    + intros k d. unfold Env.get, Env.has. rewrite kept_args. cbn. rewrite lookup_empty.
      change (foldl _ None os) with (last_value k os). split; [done|]. destruct (last_value k os); [done|].
      symmetry. apply bool_decide_eq_false. by intros [? ?].
    + intros c rel Hc. assert (∀ e, Env.getAbsolutePath (c :: rel) e = Env.m_cwd e ++ c :: rel) as Ep
        by (intros e; by destruct c). rewrite Ep, Ec. cbn. by rewrite <- app_assoc.
  - intros argv e E. rewrite Ei in E. cbv zeta in E. injection E as E _. by apply init_args_accepts in E.
Qed.

Definition self (link : list byte) (size : Z) : option (list byte) := Some (lit "/opt/sylar/server").
Lemma init_reads_back_witness :
  let argv := [lit "server"; lit "-c"; lit "etc"; lit "-d"; lit "-c"; lit "conf2"] in
  ∃ e, Env.init self 7 argv Env.make = (Ret true, e)
    ∧ Env.get (lit "c") [] e = lit "conf2" ∧ Env.has (lit "d") e = true ∧ Env.has (lit "x") e = false
    ∧ Env.getAbsolutePath (lit "conf2") e = lit "/opt/sylar/conf2".
Proof.
  destruct (init_reads_back self 7 (lit "server") (lit "/opt/sylar") (lit "server")
    [(lit "c", Some (lit "etc")); (lit "d", None); (lit "c", Some (lit "conf2"))]) as [H _].
  - reflexivity.
  - apply (bool_decide_unpack _). vm_compute. exact I.
  - apply (bool_decide_unpack _). vm_compute. exact I.
  - vm_compute. lia.
  - destruct H as (e & E & _ & Hg & Hp).
    { repeat (constructor; [split; [done|intros v Hv; cbn in Hv; by simplify_eq]|]). constructor. }
    exists e. split; [exact E|]. split; [exact (proj1 (Hg _ _))|]. split; [exact (proj2 (Hg _ []))|].
    split; [exact (proj2 (Hg _ []))|]. apply (Hp x63). done.
Defined.
