(* ===== verification/SSLSocket.v ===== *)
(** * Sockets over OpenSSL (sylar/socket.h, sylar/socket.cpp), and what cancels their waits

    The subclass of [Socket] that sends and receives through an [SSL] object. The functions of
    OpenSSL are the class [Ssl]; a context or an [SSL] object is a number, and a null pointer is
    nothing. Releasing such objects is not part of the state. *)

From S2P Require Import Prelude Endian CString Address FdManager Socket.

Class Ssl (W : Type) := {
  SSL_CTX_new (server : bool) : W → option Z * W;
  SSL_new : option Z → W → option Z * W;
  SSL_set_fd : option Z → Z → W → W;
  SSL_accept : option Z → W → Z * W;
  SSL_connect : option Z → W → Z * W;
  SSL_write : Z → list byte → W → Z * W;
  SSL_read : Z → Z → W → (Z * list byte) * W;
  SSL_CTX_use_certificate_chain_file : option Z → list byte → W → Z * W;
  SSL_CTX_use_PrivateKey_file : option Z → list byte → W → Z * W;
  SSL_CTX_check_private_key : option Z → W → Z;
}.

(** [IOManager::GetThis()], as far as sockets use it. *)
Class Waits (W : Type) := {
  cancelEvent : Z → Z → W → bool * W;
  cancelAll : Z → W → bool * W;
}.
Definition READ : Z := 1.
Definition WRITE : Z := 4.

Module SocketCancel.
Section cancel.
Context {W : Type} `{Waits W}.
Definition cancelRead : ST (Socket.t * W) bool :=
  o ← Socket.obj; Socket.call (cancelEvent (Socket.m_sock o) READ).
Definition cancelWrite : ST (Socket.t * W) bool :=
  o ← Socket.obj; Socket.call (cancelEvent (Socket.m_sock o) WRITE).
Definition cancelAccept : ST (Socket.t * W) bool :=
  o ← Socket.obj; Socket.call (cancelEvent (Socket.m_sock o) READ).
Definition cancelAll : ST (Socket.t * W) bool :=
  o ← Socket.obj; Socket.call (cancelAll (Socket.m_sock o)).
End cancel.
End SocketCancel.

Module SSLSocket.
Record t := mk {
  base : Socket.t;
  m_ctx : option Z;
  m_ssl : option Z;
}.
Definition set_base (v : Socket.t) (o : t) : t := mk v (m_ctx o) (m_ssl o).
Definition set_ctx (v : option Z) (o : t) : t := mk (base o) v (m_ssl o).
Definition set_ssl (v : option Z) (o : t) : t := mk (base o) (m_ctx o) v.

Definition make (family type protocol : Z) : t := mk (Socket.make family type protocol) None None.
Definition CreateTCP (address : Address.t) : t := make (Address.getFamily address) SOCK_STREAM 0.
Definition CreateTCPSocket : t := make AF_INET SOCK_STREAM 0.
Definition CreateTCPSocket6 : t := make AF_INET6 SOCK_STREAM 0.

Definition dump (o : t) : outcome (list byte) :=
  let b := base o in
  l ← match Socket.m_localAddress b with
      | Some a => s ← Address.toString a; Ret (lit " local_address=" ++ s)
      | None => Ret []
      end;
  r ← match Socket.m_remoteAddress b with
      | Some a => s ← Address.toString a; Ret (lit " remote_address=" ++ s)
      | None => Ret []
      end;
  Ret (lit "[SSLSocket sock=" ++ Socket.dec_int (Socket.m_sock b)
       ++ lit " is_connected=" ++ (if Socket.m_isConnected b then lit "1" else lit "0")
       ++ lit " family=" ++ Socket.dec_int (Socket.m_family b) ++ lit " type=" ++ Socket.dec_int (Socket.m_type b)
       ++ lit " protocol=" ++ Socket.dec_int (Socket.m_protocol b) ++ l ++ r ++ lit "]").

Section operations.
Context {W : Type} `{Sys W} `{Ssl W}.

Definition obj : ST (t * W) t := gets fst.
Definition upd (f : t → t) : ST (t * W) unit := modify (fun s => (f s.1, s.2)).
Definition call {A} (f : W → A * W) : ST (t * W) A := fun s => let '(a, w) := f s.2 in (Ret a, (s.1, w)).
(** A method of [Socket] on the object. *)
Definition on_base {A} (m : ST (Socket.t * W) A) : ST (t * W) A := fun s =>
  let '(r, (b, w)) := m (base s.1, s.2) in (r, (set_base b s.1, w)).

(** [m_ssl.reset(SSL_new(m_ctx.get()), SSL_free); SSL_set_fd(m_ssl.get(), m_sock)]. *)
Definition new_ssl : ST (t * W) unit :=
  o ← obj;
  ssl ← call (SSL_new (m_ctx o));
  upd (set_ssl ssl);;
  call (fun w => (tt, SSL_set_fd ssl (Socket.m_sock (base o)) w)).

Definition init (sock : Z) : ST (t * W) bool :=
  v ← on_base (Socket.init sock);
  if (v : bool) then new_ssl;; o ← obj; r ← call (SSL_accept (m_ssl o)); mret (r =? 1)
  else mret v.

(** [accept()]: an object that [init] refuses is destroyed, and the destructor of [Socket] closes
    its descriptor if it took one. *)
Definition accept : ST (t * W) (option t) := fun s =>
  let b := base s.1 in
  let '(newsock, w) := sys_accept (Socket.m_sock b) s.2 in
  if newsock =? -1 then (Ret None, (s.1, w))
  else
    match init newsock (set_ctx (m_ctx s.1) (make (Socket.m_family b) (Socket.m_type b) (Socket.m_protocol b)), w) with
    | (Ret true, (o, w)) => (Ret (Some o), (s.1, w))
    | (Ret false, (o, w)) => (Ret None, (s.1, (Socket.close (base o, w)).2.2))
    | (Throw e, (o, w)) => (Throw e, (s.1, (Socket.close (base o, w)).2.2))
    | (Abort, (_, w)) => (Abort, (s.1, w))
    | (Undef, (_, w)) => (Undef, (s.1, w))
    | (NoFuel, (_, w)) => (NoFuel, (s.1, w))
    end.

Definition bind (addr : Address.t) : ST (t * W) bool := on_base (Socket.bind addr).
Definition connect (addr : Address.t) (timeout_ms : Z) : ST (t * W) bool :=
  v ← on_base (Socket.connect addr timeout_ms);
  if (v : bool) then
    ctx ← call (SSL_CTX_new false);
    upd (set_ctx ctx);;
    new_ssl;;
    o ← obj; r ← call (SSL_connect (m_ssl o)); mret (r =? 1)
  else mret v.
Definition listen (backlog : Z) : ST (t * W) bool := on_base (Socket.listen backlog).
Definition close : ST (t * W) bool := on_base Socket.close.

Definition send (buffer : list byte) (flags : Z) : ST (t * W) Z :=
  o ← obj; match m_ssl o with Some ssl => call (SSL_write ssl buffer) | None => mret (-1) end.
(** The loop over the vectors, with [total]; the results are [int]s. *)
Fixpoint send_loop (ssl : Z) (buffers : list (list byte)) (total : Z) : ST (t * W) Z :=
  match buffers with
  | [] => mret total
  | b :: buffers =>
      tmp ← call (SSL_write ssl b);
      if tmp <=? 0 then mret tmp
      else
        let total := total + tmp in
        if 2 ^ 31 <=? total then lift Undef
        else if negb (tmp =? s32 (Z.of_nat (length b))) then mret total
        else send_loop ssl buffers total
  end.
Definition send_iov (buffers : list (list byte)) (flags : Z) : ST (t * W) Z :=
  o ← obj; match m_ssl o with None => mret (-1) | Some ssl => send_loop ssl buffers 0 end.
Definition sendTo (buffer : list byte) (to : Address.t) (flags : Z) : ST (t * W) Z :=
  lift (sylar_assert false);; mret (-1).
Definition sendTo_iov (buffers : list (list byte)) (to : Address.t) (flags : Z) : ST (t * W) Z :=
  lift (sylar_assert false);; mret (-1).

Definition recv (length flags : Z) : ST (t * W) (Z * list byte) :=
  o ← obj; match m_ssl o with Some ssl => call (SSL_read ssl (s32 length)) | None => mret (-1, []) end.
(** The bytes of the vectors in order, each vector with what was read into it. *)
Fixpoint recv_loop (ssl : Z) (buffers : list Z) (total : Z) (got : list (list byte))
    : ST (t * W) (Z * list (list byte)) :=
  match buffers with
  | [] => mret (total, got)
  | n :: buffers =>
      r ← call (SSL_read ssl (s32 n));
      let tmp := r.1 in
      if tmp <=? 0 then mret (tmp, got)
      else
        let total := total + tmp in
        let got := got ++ [r.2] in
        if 2 ^ 31 <=? total then lift Undef
        else if negb (tmp =? s32 n) then mret (total, got)
        else recv_loop ssl buffers total got
  end.
Definition recv_iov (buffers : list Z) (flags : Z) : ST (t * W) (Z * list (list byte)) :=
  o ← obj; match m_ssl o with None => mret (-1, []) | Some ssl => recv_loop ssl buffers 0 [] end.
Definition recvFrom (length : Z) (from : Address.t) (flags : Z) : ST (t * W) (Z * list byte * Address.t) :=
  lift (sylar_assert false);; mret (-1, [], from).
Definition recvFrom_iov (buffers : list Z) (from : Address.t) (flags : Z)
    : ST (t * W) (Z * list byte * Address.t) :=
  lift (sylar_assert false);; mret (-1, [], from).

Definition loadCertificates (cert_file key_file : list byte) : ST (t * W) bool :=
  ctx ← call (SSL_CTX_new true);
  upd (set_ctx ctx);;
  r ← call (SSL_CTX_use_certificate_chain_file ctx (c_str cert_file));
  if negb (r =? 1) then mret false
  else
    r ← call (SSL_CTX_use_PrivateKey_file ctx (c_str key_file));
    if negb (r =? 1) then mret false
    else
      s ← get;
      mret (SSL_CTX_check_private_key ctx s.2 =? 1).
End operations.
End SSLSocket.

(** ** What sending through OpenSSL reports *)

Section writing.
Context {W : Type} `{Sys W} `{Ssl W}.
(** What the peer is sent: [SSL_write] sends a first part of what it is given and says how much,
    or fails and sends nothing. *)
Context (sent : W → list byte).
Context (Hwrite : ∀ ssl b w, let r := SSL_write ssl b w in
  r.1 <= Z.of_nat (length b) ∧ sent r.2 = sent w ++ take (Z.to_nat r.1) b).
Implicit Types (o : SSLSocket.t) (bs : list (list byte)).

Definition reported (r : Z) (w w' : W) bs : Prop :=
  if 0 <? r then sent w' = sent w ++ take (Z.to_nat r) (concat bs)
  else ∃ k, sent w' = sent w ++ concat (take k bs).

Lemma send_loop_reports ssl bs : ∀ total o w,
  0 <= total → total + Z.of_nat (length (concat bs)) < 2 ^ 31 →
  ∃ r w', SSLSocket.send_loop ssl bs total (o, w) = (Ret r, (o, w'))
    ∧ (total <= r ∧ sent w' = sent w ++ take (Z.to_nat (r - total)) (concat bs)
       ∨ r <= 0 ∧ ∃ k, sent w' = sent w ++ concat (take k bs)).
Proof using Hwrite.
  induction bs as [|b bs IH]; intros total o w Ht Hb; cbn [SSLSocket.send_loop].
  { exists total, w. split; [done|]. left. split; [lia|]. cbn [concat]. by rewrite take_nil, app_nil_r. }
  cbn [concat] in Hb. rewrite length_app in Hb. unfold mbind, st_bind, SSLSocket.call. cbn [fst snd].
  destruct (Hwrite ssl b w) as [Hr Hs]. destruct (SSL_write ssl b w) as [tmp w1]. cbn [fst snd] in Hr, Hs |- *.
  destruct (tmp <=? 0) eqn:Hz.
  { exists tmp, w1. split; [done|]. right. split; [lia|]. exists 0%nat. cbn.
    rewrite Hs. by replace (Z.to_nat tmp) with 0%nat by lia. }
  destruct (2 ^ 31 <=? total + tmp) eqn:Ho; [lia|].
  rewrite swrap_small by (unfold fits_s; lia).
  destruct (tmp =? Z.of_nat (length b)) eqn:Hall; cbn [negb].
  - destruct (IH (total + tmp) o w1) as (r & w2 & E & [[Hge Hd]|[Hle (k & Hd)]]); [lia|lia| |].
    + exists r, w2. split; [done|]. left. split; [lia|]. rewrite Hd, Hs, <- app_assoc. f_equal.
      cbn [concat]. rewrite take_app, (take_ge b) by lia. rewrite (take_ge b) by lia. do 2 f_equal. lia.
    + exists r, w2. split; [done|]. right. split; [lia|]. exists (S k). cbn.
      rewrite Hd, Hs, <- app_assoc. by rewrite (take_ge b) by lia.
  - exists (total + tmp), w1. split; [done|]. left. split; [lia|]. rewrite Hs. f_equal. cbn [concat].
    rewrite take_app_le by lia. f_equal. lia.
Qed.

(** Sending vectors through an SSLSocket: a positive result is the number of bytes that were
    sent, the first ones of the vectors in order; after a result that is not positive whole vectors
    may have been sent, which the caller is not told; and without an SSL object nothing is sent. *)
Theorem ssl_send_reports bs flags o w :
  Z.of_nat (length (concat bs)) < 2 ^ 31 →
  ∃ r w', SSLSocket.send_iov bs flags (o, w) = (Ret r, (o, w')) ∧ reported r w w' bs
    ∧ (SSLSocket.m_ssl o = None → r = -1 ∧ w' = w).
Proof using Hwrite.
  intros Hb. unfold SSLSocket.send_iov, mbind, st_bind, SSLSocket.obj, gets. cbn [fst snd].
  destruct (SSLSocket.m_ssl o) as [ssl|].
  - destruct (send_loop_reports ssl bs 0 o w) as (r & w' & E & Hr); [lia|lia|].
    exists r, w'. split; [done|]. split; [|done]. unfold reported. rewrite Z.sub_0_r in Hr.
    destruct (0 <? r) eqn:Hp; destruct Hr as [[Hge Hd]|[Hle (k & Hd)]]; [done|lia| |by exists k].
    exists 0%nat. cbn. rewrite Hd. by replace (Z.to_nat r) with 0%nat by lia.
  - exists (-1), w. split; [done|]. split; [|done]. exists 0%nat. cbn. by rewrite app_nil_r.
Qed.
End writing.

(** A peer that takes three bytes at a time, and the bytes it was sent. *)
#[export] Instance three_ssl : Ssl (list byte) := {
  SSL_CTX_new _ w := (Some 1, w);
  SSL_new _ w := (Some 2, w);
  SSL_set_fd _ _ w := w;
  SSL_accept _ w := (1, w);
  SSL_connect _ w := (1, w);
  SSL_write _ b w := (Z.min 3 (Z.of_nat (length b)), w ++ take (Z.to_nat (Z.min 3 (Z.of_nat (length b)))) b);
  SSL_read _ _ w := ((0, []), w);
  SSL_CTX_use_certificate_chain_file _ _ w := (1, w);
  SSL_CTX_use_PrivateKey_file _ _ w := (1, w);
  SSL_CTX_check_private_key _ w := 1;
}.
Lemma ssl_send_reports_witness :
  let o := SSLSocket.set_ssl (Some 2) SSLSocket.CreateTCPSocket in
  let bs := [lit "ab"; lit "cdefg"; lit "h"] in
  SSLSocket.send_iov bs 0 (o, []) = (Ret 5, (o, lit "abcde")) ∧ reported id 5 [] (lit "abcde") bs.
Proof.
  intros o bs. split; [reflexivity|].
  destruct (ssl_send_reports id) with (bs := bs) (flags := 0) (o := o) (w := ([] : list byte)) as (r & w' & E & Hr & _).
  - intros ssl b w. cbn [SSL_write three_ssl fst snd id]. split; [lia|done].
  - vm_compute. reflexivity.
  - vm_compute in E. injection E as <- <-. exact Hr.
Defined.
