(* ===== verification/TcpServer.v ===== *)
(** * The TCP server (sylar/tcp_server.h, sylar/tcp_server.cpp)

    A server binds sockets, has one accepting loop per socket run by a scheduler, and hands every
    client to another one. Sockets are shared objects: the server, the scheduled functions and the
    running loops refer to them, and an object is destroyed, which closes its descriptor, when the
    last reference goes. A scheduler is used through its list of functions that have not been
    started, to whose end [schedule] adds ([Scheduler.schedule]). *)

From S2P Require Import Prelude Endian CString Address FdManager Socket SSLSocket Config.

(** A socket of either class, and the methods the server calls on it. *)
Inductive any_socket := Plain (o : Socket.t) | Secure (o : SSLSocket.t).
Definition base_of (o : any_socket) : Socket.t :=
  match o with Plain o => o | Secure o => SSLSocket.base o end.

Section dispatch.
Context {W : Type} `{Sys W} `{Ssl W} `{Waits W}.
Definition plain {A} (o : Socket.t) (m : ST (Socket.t * W) A) (w : W) : outcome A * (any_socket * W) :=
  let '(r, (o, w)) := m (o, w) in (r, (Plain o, w)).
Definition secure {A} (o : SSLSocket.t) (m : ST (SSLSocket.t * W) A) (w : W) : outcome A * (any_socket * W) :=
  let '(r, (o, w)) := m (o, w) in (r, (Secure o, w)).
Definition virtual {A} (m : ST (Socket.t * W) A) (n : ST (SSLSocket.t * W) A) : ST (any_socket * W) A := fun s =>
  match s.1 with Plain o => plain o m s.2 | Secure o => secure o n s.2 end.

Definition any_bind (addr : Address.t) := virtual (Socket.bind addr) (SSLSocket.bind addr).
Definition any_listen (backlog : Z) := virtual (Socket.listen backlog) (SSLSocket.listen backlog).
Definition any_close := virtual Socket.close SSLSocket.close.
Definition any_accept : ST (any_socket * W) (option any_socket) :=
  virtual (c ← Socket.accept; mret (Plain <$> c)) (c ← SSLSocket.accept; mret (Secure <$> c)).
(** Methods that are not overridden. *)
Definition inherited {A} (m : ST (Socket.t * W) A) : ST (any_socket * W) A := virtual m (SSLSocket.on_base m).
End dispatch.
Definition any_dump (o : any_socket) : outcome (list byte) :=
  match o with Plain o => Socket.dump o | Secure o => SSLSocket.dump o end.

(** ** The configuration of a server *)

Module TcpServerConf.
Record t := mk {
  address : list (list byte);
  keepalive : Z;
  timeout : Z;
  ssl : Z;
  id : list byte;
  type : list byte;
  name : list byte;
  cert_file : list byte;
  key_file : list byte;
  accept_worker : list byte;
  io_worker : list byte;
  process_worker : list byte;
  args : list (list byte * list byte);
}.
Definition make : t := mk [] 0 (1000 * 2 * 60) 0 [] (lit "http") [] [] [] [] [] [] [].
Definition isValid (c : t) : bool := negb (bool_decide (address c = [])).
#[export] Instance t_eq_dec : EqDecision t.
Proof. solve_decision. Defined.
Definition equal (c oth : t) : bool := bool_decide (c = oth).

(** The conversions from and to YAML text. [field] is [node[key]], nothing when it is not defined;
    [as_string] and [as_int] are the conversions of a node, which throw, also for one that is not
    defined; with a default they do not. [scalar] makes a node of a value. *)
Section yaml.
Context {Node : Type} `{Yaml Node} (field : Node → list byte → option Node).
Context (as_string : option Node → outcome (list byte)) (as_int : option Node → outcome Z).
Context (scalar : list byte → Node).

Definition as_default {A} (r : outcome A) (d : A) : A := match r with Ret v => v | _ => d end.
Fixpoint all_strings (l : list Node) : outcome (list (list byte)) :=
  match l with [] => Ret [] | n :: l => s ← as_string (Some n); r ← all_strings l; Ret (s :: r) end.
Definition of_string (v : list byte) : outcome t :=
  node ← Load v;
  let text key d := as_default (as_string (field node (lit key))) d in
  let number key d := as_default (as_int (field node (lit key))) d in
  let id := text "id" [] in
  let type := text "type" (type make) in
  let keepalive := number "keepalive" 0 in
  let timeout := number "timeout" (timeout make) in
  let name := text "name" [] in
  let ssl := number "ssl" 0 in
  let cert_file := text "cert_file" [] in
  let key_file := text "key_file" [] in
  accept_worker ← as_string (field node (lit "accept_worker"));
  io_worker ← as_string (field node (lit "io_worker"));
  process_worker ← as_string (field node (lit "process_worker"));
  args ← LexicalCast.map_of_string Ret (text "args" []);
  address ← match field node (lit "address") with Some n => all_strings (elements_of n) | None => Ret [] end;
  Ret (mk address keepalive timeout ssl id type name cert_file key_file accept_worker io_worker process_worker args).

Definition to_string (c : t) : outcome (list byte) :=
  s ← LexicalCast.string_of_map Ret (args c);
  a ← Load s;
  Ret (emit (mapping (
    [(lit "id", scalar (id c)); (lit "type", scalar (type c)); (lit "name", scalar (name c));
     (lit "keepalive", scalar (Socket.dec_int (keepalive c))); (lit "timeout", scalar (Socket.dec_int (timeout c)));
     (lit "ssl", scalar (Socket.dec_int (ssl c))); (lit "cert_file", scalar (cert_file c));
     (lit "key_file", scalar (key_file c)); (lit "accept_worker", scalar (accept_worker c));
     (lit "io_worker", scalar (io_worker c)); (lit "process_worker", scalar (process_worker c)); (lit "args", a)]
    ++ match address c with [] => [] | l => [(lit "address", sequence (scalar <$> l))] end))).
End yaml.
End TcpServerConf.

(** ** The server *)

Module TcpServer.
(** What is scheduled: an accepting loop, the handler of a client, or the function of [stop]. *)
Inductive task := StartAccept (sock : Z) | HandleClient (client : Z) | CloseAll.

(** The pointers to schedulers may be null. *)
Record t := mk {
  m_socks : list Z;
  m_worker : option Z;
  m_ioWorker : option Z;
  m_acceptWorker : option Z;
  m_recvTimeout : Z;
  m_name : list byte;
  m_type : list byte;
  m_isStop : bool;
  m_ssl : bool;
  m_conf : option TcpServerConf.t;
}.
Definition make (worker io_worker accept_worker : option Z) (read_timeout : Z) : t :=
  mk [] worker io_worker accept_worker read_timeout (lit "sylar/1.0.0") (lit "tcp") true false None.
Definition set_socks (v : list Z) (o : t) : t :=
  mk v (m_worker o) (m_ioWorker o) (m_acceptWorker o) (m_recvTimeout o) (m_name o) (m_type o) (m_isStop o) (m_ssl o) (m_conf o).
Definition set_isStop (v : bool) (o : t) : t :=
  mk (m_socks o) (m_worker o) (m_ioWorker o) (m_acceptWorker o) (m_recvTimeout o) (m_name o) (m_type o) v (m_ssl o) (m_conf o).
Definition set_ssl (v : bool) (o : t) : t :=
  mk (m_socks o) (m_worker o) (m_ioWorker o) (m_acceptWorker o) (m_recvTimeout o) (m_name o) (m_type o) (m_isStop o) v (m_conf o).
Definition setRecvTimeout (v : Z) (o : t) : t :=
  mk (m_socks o) (m_worker o) (m_ioWorker o) (m_acceptWorker o) v (m_name o) (m_type o) (m_isStop o) (m_ssl o) (m_conf o).
Definition setName (v : list byte) (o : t) : t :=
  mk (m_socks o) (m_worker o) (m_ioWorker o) (m_acceptWorker o) (m_recvTimeout o) v (m_type o) (m_isStop o) (m_ssl o) (m_conf o).
Definition setConf (v : option TcpServerConf.t) (o : t) : t :=
  mk (m_socks o) (m_worker o) (m_ioWorker o) (m_acceptWorker o) (m_recvTimeout o) (m_name o) (m_type o) (m_isStop o) (m_ssl o) v.
Definition getRecvTimeout (o : t) : Z := m_recvTimeout o.
Definition getName (o : t) : list byte := m_name o.
Definition isStop (o : t) : bool := m_isStop o.
Definition getConf (o : t) : option TcpServerConf.t := m_conf o.
Definition getSocks (o : t) : list Z := m_socks o.

Section server.
Context {W : Type} `{Sys W} `{Ssl W} `{Waits W}.
Context (SOMAXCONN : Z).

(** The server with the objects around it: sockets by address, functions not yet started by
    scheduler, and the sockets of the accepting loops that run. [next] is the next free address. *)
Record state := mkS {
  server : t;
  sockets : gmap Z any_socket;
  next : Z;
  queues : gmap Z (list task);
  running : list Z;
  world : W;
}.
Definition set_server (v : t) (s : state) : state := mkS v (sockets s) (next s) (queues s) (running s) (world s).
Definition set_queues (v : gmap Z (list task)) (s : state) : state := mkS (server s) (sockets s) (next s) v (running s) (world s).
Definition set_running (v : list Z) (s : state) : state := mkS (server s) (sockets s) (next s) (queues s) v (world s).
Definition set_sockets (v : gmap Z any_socket) (w : W) (s : state) : state := mkS (server s) v (next s) (queues s) (running s) w.

Definition update (f : t → t) : ST state unit := modify (fun s => set_server (f (server s)) s).
(** A new object; a method of an object. *)
Definition alloc (o : any_socket) : ST state Z := fun s =>
  (Ret (next s), mkS (server s) (<[next s := o]> (sockets s)) (next s + 1) (queues s) (running s) (world s)).
Definition on_socket {A} (p : Z) (m : ST (any_socket * W) A) : ST state A := fun s =>
  match sockets s !! p with
  | None => (Undef, s)
  | Some o => let '(r, (o, w)) := m (o, world s) in (r, set_sockets (<[p := o]> (sockets s)) w s)
  end.

(** The references to sockets. *)
Definition task_refs (k : task) : list Z :=
  match k with StartAccept p | HandleClient p => [p] | CloseAll => [] end.
Definition queue_refs (q : gmap Z (list task)) : list Z := map_to_list q ≫= (fun x => x.2 ≫= task_refs).
Definition refs (s : state) : list Z := m_socks (server s) ++ queue_refs (queues s) ++ running s.

(** A reference has gone: the object goes with the last one, and [~Socket] closes it. *)
Definition release (p : Z) : ST state unit := fun s =>
  if decide (p ∈ refs s) then (Ret tt, s)
  else
    match sockets s !! p with
    | None => (Ret tt, s)
    | Some o =>
        let '(_, (_, w)) := Socket.close (base_of o, world s) in
        (Ret tt, set_sockets (delete p (sockets s)) w s)
    end.
Fixpoint release_all (l : list Z) : ST state unit :=
  match l with [] => mret tt | p :: l => release p;; release_all l end.
(** [m_socks.clear()]. *)
Definition clear_socks : ST state unit :=
  l ← gets (fun s => m_socks (server s)); update (set_socks []);; release_all l.

(** [worker->schedule(function)]. *)
Definition schedule (worker : option Z) (k : task) : ST state unit := fun s =>
  match worker with
  | None => (Undef, s)
  | Some p =>
      match queues s !! p with
      | None => (Undef, s)
      | Some l => (Ret tt, set_queues (<[p := l ++ [k]]> (queues s)) s)
      end
  end.

(** One round of the loop of [bind]: whether the address was bound and listened on. *)
Definition bind_one (ssl : bool) (addr : Address.t) : ST state bool :=
  sock ← alloc (if ssl then Secure (SSLSocket.CreateTCP addr) else Plain (Socket.CreateTCP addr));
  b ← on_socket sock (any_bind addr);
  if negb b then release sock;; mret false
  else
    l ← on_socket sock (any_listen SOMAXCONN);
    if negb l then release sock;; mret false
    else update (fun o => set_socks (m_socks o ++ [sock]) o);; mret true.
Fixpoint bind_loop (ssl : bool) (addrs fails : list Address.t) : ST state (list Address.t) :=
  match addrs with
  | [] => mret fails
  | addr :: addrs =>
      ok ← bind_one ssl addr;
      bind_loop ssl addrs (if (ok : bool) then fails else fails ++ [addr])
  end.
Definition bind (addrs fails : list Address.t) (ssl : bool) : ST state (bool * list Address.t) :=
  update (set_ssl ssl);;
  fails ← bind_loop ssl addrs fails;
  if negb (bool_decide (fails = [])) then clear_socks;; mret (false, fails) else mret (true, fails).
Definition bind_addr (addr : Address.t) (ssl : bool) : ST state bool := r ← bind [addr] [] ssl; mret r.1.

(** One round of the loop of [startAccept]: whether it goes on. *)
Definition accept_round (sock : Z) : ST state bool :=
  o ← gets server;
  if m_isStop o then mret false
  else
    client ← on_socket sock any_accept;
    match client with
    | Some c =>
        client ← alloc c;
        on_socket client (inherited (Socket.setRecvTimeout (m_recvTimeout o)));;
        schedule (m_ioWorker o) (HandleClient client);;
        mret true
    | None => mret true
    end.
Fixpoint startAccept (fuel : nat) (sock : Z) : ST state unit :=
  match fuel with
  | O => lift NoFuel
  | S fuel => go ← accept_round sock; if (go : bool) then startAccept fuel sock else mret tt
  end.

Fixpoint schedule_accepts (worker : option Z) (socks : list Z) : ST state unit :=
  match socks with
  | [] => mret tt
  | p :: socks => schedule worker (StartAccept p);; schedule_accepts worker socks
  end.
Definition start : ST state bool :=
  o ← gets server;
  if negb (m_isStop o) then mret true
  else
    update (set_isStop false);;
    schedule_accepts (m_acceptWorker o) (m_socks o);;
    mret true.

Definition stop : ST state unit :=
  update (set_isStop true);;
  o ← gets server;
  schedule (m_acceptWorker o) CloseAll.
(** The function [stop] schedules. *)
Fixpoint close_loop (socks : list Z) : ST state unit :=
  match socks with
  | [] => mret tt
  | p :: socks =>
      on_socket p (inherited SocketCancel.cancelAll);;
      on_socket p any_close;;
      close_loop socks
  end.
Definition close_all : ST state unit :=
  l ← gets (fun s => m_socks (server s)); close_loop l;; clear_socks.

(** [~TcpServer()]. *)
Fixpoint destroy_loop (socks : list Z) : ST state unit :=
  match socks with
  | [] => mret tt
  | p :: socks => on_socket p any_close;; destroy_loop socks
  end.
Definition destroy : ST state unit :=
  l ← gets (fun s => m_socks (server s)); destroy_loop l;; clear_socks.

(** [handleClient] of this class only prints. *)
Definition handleClient (client : Z) : ST state unit := mret tt.

Fixpoint load_certificates (cert_file key_file : list byte) (socks : list Z) : ST state bool :=
  match socks with
  | [] => mret true
  | p :: socks =>
      r ← on_socket p (virtual (mret true) (SSLSocket.loadCertificates cert_file key_file));
      if negb r then mret false else load_certificates cert_file key_file socks
  end.
Definition loadCertificates (cert_file key_file : list byte) : ST state bool :=
  l ← gets (fun s => m_socks (server s)); load_certificates cert_file key_file l.

(** [toString(prefix)]; [worker_name] is [getName] of the schedulers. *)
Fixpoint dump_socks (pfx : list byte) (socks : list Z) (s : state) : outcome (list byte) :=
  match socks with
  | [] => Ret []
  | p :: socks =>
      o ← deref (sockets s !! p);
      d ← any_dump o;
      r ← dump_socks pfx socks s;
      Ret (pfx ++ pfx ++ d ++ [x0a] ++ r)
  end.
Definition toString (worker_name : Z → list byte) (prefix : list byte) (s : state) : outcome (list byte) :=
  let o := server s in
  let name (w : option Z) := match w with Some p => worker_name p | None => [] end in
  let pfx := match prefix with [] => lit "    " | _ => prefix end in
  r ← dump_socks pfx (m_socks o) s;
  Ret (prefix ++ lit "[type=" ++ m_type o ++ lit " name=" ++ m_name o
       ++ lit " ssl=" ++ (if m_ssl o then lit "1" else lit "0")
       ++ lit " worker=" ++ name (m_worker o) ++ lit " accept=" ++ name (m_acceptWorker o)
       ++ lit " recv_timeout=" ++ dec (m_recvTimeout o) ++ lit "]" ++ [x0a] ++ r).

(** ** What can happen to a server

    Calls of its users; a scheduler starting one of its functions, which for an accepting loop
    means that it runs from then on; one round of such a loop; and anything in the world. *)
Inductive event :=
  | Bind (addrs fails : list Address.t) (ssl : bool)
  | Start
  | Stop
  | Run (worker : Z) (i : nat)
  | Round (i : nat)
  | World (w : W).

Definition drop_nth {A} (i : nat) (l : list A) : list A := take i l ++ drop (S i) l.

(** A function that is started leaves the list; its reference goes when it has ended. *)
Definition run_task (worker : Z) (i : nat) : ST state unit :=
  s ← get;
  match queues s !! worker with
  | None => mret tt
  | Some l =>
      match l !! i with
      | None => mret tt
      | Some k =>
          match k with
          | StartAccept p =>
              modify (fun s => set_running (running s ++ [p]) (set_queues (<[worker := drop_nth i l]> (queues s)) s))
          | HandleClient p =>
              handleClient p;;
              modify (fun s => set_queues (<[worker := drop_nth i l]> (queues s)) s);; release p
          | CloseAll =>
              modify (fun s => set_queues (<[worker := drop_nth i l]> (queues s)) s);; close_all
          end
      end
  end.
Definition run_round (i : nat) : ST state unit :=
  s ← get;
  match running s !! i with
  | None => mret tt
  | Some p =>
      go ← accept_round p;
      if (go : bool) then mret tt
      else modify (fun s => set_running (drop_nth i (running s)) s);; release p
  end.
Definition step (e : event) : ST state unit :=
  match e with
  | Bind addrs fails ssl => _ ← bind addrs fails ssl; mret tt
  | Start => _ ← start; mret tt
  | Stop => stop
  | Run worker i => run_task worker i
  | Round i => run_round i
  | World w => modify (fun s => mkS (server s) (sockets s) (next s) (queues s) (running s) w)
  end.
(** The events in order, as long as they return. *)
Fixpoint run (es : list event) : ST state unit :=
  match es with [] => mret tt | e :: es => step e;; run es end.

Definition initial (o : t) (workers : list Z) (w : W) : state :=
  mkS o ∅ 0 (list_to_map ((fun p => (p, [])) <$> workers)) [] w.
End server.
Arguments state : clear implicits.
Arguments event : clear implicits.
End TcpServer.
