(* ===== verification/TcpServerProps.v ===== *)
(** * What a TCP server keeps in order

    The objects of its sockets are those that something refers to; binding succeeds for all
    addresses or leaves no socket; and a server started again too early never accepts again. *)

From S2P Require Import Prelude Endian Address FdManager Socket SSLSocket TcpServer.
Import TcpServer.

Lemma elem_of_drop_nth {A} (l : list A) i x k :
  l !! i = Some k → x ∈ l ↔ x ∈ drop_nth i l ∨ x = k.
Proof.
  intros Hi. rewrite <- (take_drop_middle l i k Hi) at 1. unfold drop_nth. rewrite !elem_of_app, elem_of_cons. tauto.
Qed.

Section server.
Context {W : Type} `{Sys W} `{Ssl W} `{Waits W}.
Context (SOMAXCONN : Z).
Abbreviation st := (state W).
Implicit Types (s : st) (L : list Z).

(** ** References *)

Lemma elem_of_queue_refs p (q : gmap Z (list task)) :
  p ∈ queue_refs q ↔ ∃ w l k, q !! w = Some l ∧ k ∈ l ∧ p ∈ task_refs k.
Proof.
  unfold queue_refs. rewrite list_elem_of_bind. split.
  - intros ([w l] & (k & Hp & Hk)%list_elem_of_bind & Hx%elem_of_map_to_list). eauto 6.
  - intros (w & l & k & Hq & Hk & Hp). exists (w, l). split; [|by apply elem_of_map_to_list].
    apply list_elem_of_bind. eauto.
Qed.

Lemma queue_refs_insert p (q : gmap Z (list task)) w l l' :
  q !! w = Some l →
  p ∈ queue_refs (<[w := l']> q) ↔
    (∃ w' l k, w' ≠ w ∧ q !! w' = Some l ∧ k ∈ l ∧ p ∈ task_refs k) ∨ ∃ k, k ∈ l' ∧ p ∈ task_refs k.
Proof.
  intros Hq. rewrite elem_of_queue_refs. split.
  - intros (w' & l1 & k & Hl & Hk & Hp). destruct (decide (w' = w)) as [->|Hne]; simplify_map_eq; [by right; eauto|].
    left. eauto 8.
  - intros [(w' & l1 & k & Hne & Hl & Hk & Hp)|(k & Hk & Hp)].
    + exists w', l1, k. by rewrite lookup_insert_ne.
    + exists w, l', k. by rewrite lookup_insert_eq.
Qed.

Lemma queue_refs_at p (q : gmap Z (list task)) w l :
  q !! w = Some l →
  p ∈ queue_refs q ↔
    (∃ w' l k, w' ≠ w ∧ q !! w' = Some l ∧ k ∈ l ∧ p ∈ task_refs k) ∨ ∃ k, k ∈ l ∧ p ∈ task_refs k.
Proof. intros Hq. rewrite <- (queue_refs_insert p q w l l Hq). by rewrite insert_id. Qed.

(** A function put at the end of a list, and one taken out of it. *)
Lemma queue_refs_snoc p (q : gmap Z (list task)) w l k :
  q !! w = Some l → p ∈ queue_refs (<[w := l ++ [k]]> q) ↔ p ∈ queue_refs q ∨ p ∈ task_refs k.
Proof.
  intros Hq. rewrite (queue_refs_insert _ _ _ _ _ Hq).
  rewrite (queue_refs_at _ _ _ _ Hq).
  setoid_rewrite elem_of_app. setoid_rewrite list_elem_of_singleton.
  split; [intros [?|(k' & [Hk| ->] & Hp)]|intros [[?|(k' & Hk & Hp)]|Hp]]; eauto.
Qed.

Lemma queue_refs_drop p (q : gmap Z (list task)) w l i k :
  q !! w = Some l → l !! i = Some k →
  p ∈ queue_refs q ↔ p ∈ queue_refs (<[w := drop_nth i l]> q) ∨ p ∈ task_refs k.
Proof.
  intros Hq Hi. rewrite (queue_refs_at _ _ _ _ Hq), (queue_refs_insert _ _ _ _ _ Hq).
  setoid_rewrite (elem_of_drop_nth l i _ k Hi).
  split; [intros [?|(k' & [Hk| ->] & Hp)]|intros [[?|(k' & Hk & Hp)]|Hp]]; eauto 6.
Qed.

(** The objects are those that are referred to: by the server, by a function that is scheduled, by
    a loop that runs, or, while an operation is under way, by [L]. *)
Record accounted L s : Prop := {
  acc_refs p : p ∈ refs s ∨ p ∈ L ↔ is_Some (sockets s !! p);
  acc_next p : is_Some (sockets s !! p) → p < next s;
  acc_socks : NoDup (m_socks (server s));
}.

Lemma elem_of_refs p s :
  p ∈ refs s ↔ p ∈ m_socks (server s) ∨ p ∈ queue_refs (queues s) ∨ p ∈ running s.
Proof. unfold refs. by rewrite !elem_of_app. Qed.

(** What the steps on one object leave alone. *)
Record same_refs s s' : Prop := {
  same_server : server s' = server s;
  same_queues : queues s' = queues s;
  same_running : running s' = running s;
  same_next : next s' = next s;
  same_dom p : is_Some (sockets s' !! p) ↔ is_Some (sockets s !! p);
}.
Lemma same_refs_refs s s' : same_refs s s' → refs s' = refs s.
Proof. intros [Es Eq Er _ _]. unfold refs. by rewrite Es, Eq, Er. Qed.
Lemma same_refs_accounted L s s' : same_refs s s' → accounted L s → accounted L s'.
Proof.
  intros Hs [Hr Hn Hd]. split.
  - intros p. by rewrite (same_refs_refs _ _ Hs), Hr, (same_dom _ _ Hs).
  - intros p Hp. rewrite (same_next _ _ Hs). by apply Hn, (same_dom _ _ Hs).
  - by rewrite (same_server _ _ Hs).
Qed.

Lemma same_refs_refl s : same_refs s s.
Proof. by split. Qed.
Lemma same_refs_trans s1 s2 s3 : same_refs s1 s2 → same_refs s2 s3 → same_refs s1 s3.
Proof.
  intros [E1 E2 E3 E4 E5] [F1 F2 F3 F4 F5]. split; [by rewrite F1|by rewrite F2|by rewrite F3|by rewrite F4|].
  intros p. by rewrite F5, E5.
Qed.

Lemma on_socket_same {A} p (m : ST (any_socket * W) A) s r s' :
  on_socket p m s = (Ret r, s') → same_refs s s'.
Proof.
  unfold on_socket. destruct (sockets s !! p) as [o|] eqn:Hp; [|done].
  destruct (m _) as [x [o' w]]. intros [= -> <-]. split; try done. intros q. cbn.
  destruct (decide (q = p)) as [->|Hne]; by simplify_map_eq.
Qed.

Lemma release_accounted p L s u s' :
  p ∉ L → accounted (p :: L) s → release p s = (Ret u, s') → accounted L s'.
Proof.
  intros HpL [Hr Hn Hd] E. unfold release in E. case_decide as Hin.
  { simplify_eq. split; [|done|done]. intros q. rewrite <- Hr, elem_of_cons.
    split; [intros [?|?]; auto|intros [?|[->|?]]; auto]. }
  destruct (proj1 (Hr p)) as [o Ho]; [right; left|]. rewrite Ho in E.
  destruct (Socket.close _) as [x [o' w]]. simplify_eq. split; cbn; [|intros q|done].
  - intros q. change (refs (set_sockets _ _ s)) with (refs s). destruct (decide (q = p)) as [->|Hne].
    + rewrite lookup_delete_eq. split; [by intros [?|?]|by intros [? ?]].
    + rewrite lookup_delete_ne, <- Hr, elem_of_cons by done. split; [intros [?|?]; auto|intros [?|[?|?]]; auto; done].
  - rewrite lookup_delete_is_Some. intros [_ ?]. by apply Hn.
Qed.

Lemma release_all_accounted l : ∀ L s u s',
  NoDup (l ++ L) → accounted (l ++ L) s → release_all l s = (Ret u, s') → accounted L s'.
Proof.
  induction l as [|p l IH]; intros L s u s' Hnd Ha E; cbn [release_all] in E; st_inv; [done|].
  apply NoDup_cons in Hnd as [Hp Hnd]. eapply IH; [done| |done]. by eapply release_accounted.
Qed.

Lemma release_keeps p s u s' : release p s = (Ret u, s') →
  server s' = server s ∧ queues s' = queues s ∧ running s' = running s ∧ next s' = next s.
Proof.
  unfold release. case_decide; [by intros [= <- <-]|]. destruct (sockets s !! p); [|by intros [= <- <-]].
  destruct (Socket.close _) as [x [o' w]]. by intros [= <- <-].
Qed.

(** What an object that was just made is: new. *)
Lemma alloc_accounted o L s p s' : accounted L s → alloc o s = (Ret p, s') →
  accounted (p :: L) s' ∧ (p ∉ refs s') ∧ (p ∉ L) ∧ refs s' = refs s ∧ server s' = server s.
Proof.
  intros [Hr Hn Hd] E. unfold alloc in E. simplify_eq.
  assert (sockets s !! next s = None) as Hnone.
  { apply eq_None_not_Some. intros Hs. apply Hn in Hs. lia. }
  assert ((next s ∉ refs s) ∧ (next s ∉ L)) as [H1' H2'].
  { split; intros Hin; assert (is_Some (sockets s !! next s)) as [? ?] by (apply Hr; auto); congruence. }
  split; [|done]. split; cbn; [| |done].
  - intros q. change (refs (mkS _ _ _ _ _ _)) with (refs s). rewrite elem_of_cons, lookup_insert_is_Some, <- Hr.
    destruct (decide (next s = q)) as [<-|Hne]; [by split; intros; [left|right; left]|]. split.
    + intros [?|[?|?]]; [right; auto|congruence|right; auto].
    + intros [?|[_ [?|?]]]; [congruence|auto|auto].
  - intros q. rewrite lookup_insert_is_Some. intros [<-|[_ Hq%Hn]]; lia.
Qed.

Lemma schedule_spec worker k s u s' : schedule worker k s = (Ret u, s') →
  (∀ p, p ∈ refs s' ↔ p ∈ refs s ∨ p ∈ task_refs k) ∧ sockets s' = sockets s ∧ next s' = next s
  ∧ server s' = server s ∧ running s' = running s.
Proof.
  unfold schedule. destruct worker as [w|]; [|done]. destruct (queues s !! w) as [l|] eqn:Hq; [|done].
  intros [= <- <-]. split; [|done]. intros p. rewrite !elem_of_refs. cbn.
  rewrite (queue_refs_snoc _ _ _ _ _ Hq). tauto.
Qed.

Lemma schedule_accounted worker k L s u s' :
  accounted (task_refs k ++ L) s → schedule worker k s = (Ret u, s') → accounted L s'.
Proof.
  intros [Hr Hn Hd] (Er & Es & En & Ev & _)%schedule_spec. split.
  - intros p. rewrite Er, Es, <- Hr, elem_of_app. tauto.
  - intros p. rewrite Es, En. apply Hn.
  - by rewrite Ev.
Qed.

(** References that are also held elsewhere do not count. *)
Lemma accounted_held L L' s : (∀ p, p ∈ L' → p ∈ refs s) → accounted L s → accounted (L' ++ L) s.
Proof.
  intros HL [Hr Hn Hd]. split; [|done|done]. intros p. rewrite <- Hr, elem_of_app. split; [|tauto].
  intros [?|[?|?]]; auto.
Qed.

(** Ends the computations whose state is known. *)
Ltac step_inv := repeat (st_inv; cbn beta iota in *);
  repeat match goal with
  | H : update _ _ = (Ret _, _) |- _ => unfold update in H; st_inv
  end.

Lemma bind_one_spec ssl addr s b s' : accounted [] s → bind_one SOMAXCONN ssl addr s = (Ret b, s') →
  accounted [] s' ∧ queues s' = queues s ∧ running s' = running s ∧ next s' = next s + 1
  ∧ server s' = set_socks (m_socks (server s) ++ (if b then [next s] else [])) (server s).
Proof.
  intros Ha E. unfold bind_one in E. apply st_bind_inv in E as (p & s1 & E1 & E).
  pose proof E1 as Ealloc. unfold alloc in Ealloc. injection Ealloc as Ep Es1.
  destruct (alloc_accounted _ _ _ _ _ Ha E1) as (A1 & Hp & _ & Er1 & Ev1).
  apply st_bind_inv in E as (b1 & s2 & E2 & E). apply on_socket_same in E2.
  assert (queues s1 = queues s ∧ running s1 = running s ∧ next s1 = next s + 1) as (Eq1 & En1 & Ex1) by (by subst s1).
  destruct (negb b1).
  { st_inv. pose proof (release_keeps _ _ _ _ E0) as (Ev & Eq & Er & Ex).
    split; [eapply release_accounted, E0; [by apply not_elem_of_nil|by eapply same_refs_accounted]|].
    rewrite Eq, Er, Ev, Ex, (same_queues _ _ E2), (same_running _ _ E2), (same_server _ _ E2), (same_next _ _ E2), Ev1.
    split_and!; [done..|]. rewrite app_nil_r. by destruct (server s). }
  apply st_bind_inv in E as (b2 & s3 & E3 & E). apply on_socket_same in E3.
  pose proof (same_refs_trans _ _ _ E2 E3) as E13.
  destruct (negb b2).
  { st_inv. pose proof (release_keeps _ _ _ _ E0) as (Ev & Eq & Er & Ex).
    split; [eapply release_accounted, E0; [by apply not_elem_of_nil|by eapply same_refs_accounted]|].
    rewrite Eq, Er, Ev, Ex, (same_queues _ _ E13), (same_running _ _ E13), (same_server _ _ E13), (same_next _ _ E13), Ev1.
    split_and!; [done..|]. rewrite app_nil_r. by destruct (server s). }
  step_inv. cbn. split; [|by rewrite (same_queues _ _ E13), (same_running _ _ E13), (same_server _ _ E13),
    (same_next _ _ E13), Ev1].
  apply (same_refs_accounted _ _ _ E13) in A1. destruct A1 as [Hr Hn Hd]. split.
  - intros q. cbn [sockets set_server]. rewrite <- Hr, !elem_of_refs. cbn.
    rewrite elem_of_app, list_elem_of_singleton, elem_of_nil. tauto.
  - exact Hn.
  - cbn. apply NoDup_app. split; [done|]. split; [|apply NoDup_singleton].
    intros q Hq ->%list_elem_of_singleton. rewrite <- (same_refs_refs _ _ E13) in Hp. apply Hp.
    apply elem_of_refs. by left.
Qed.

(** The new sockets are those of the addresses that did not fail. *)
Lemma bind_loop_spec ssl addrs : ∀ fails s fails' s',
  accounted [] s → bind_loop SOMAXCONN ssl addrs fails s = (Ret fails', s') →
  accounted [] s' ∧ queues s' = queues s ∧ running s' = running s
  ∧ ∃ new failed, server s' = set_socks (m_socks (server s) ++ new) (server s) ∧ fails' = fails ++ failed
      ∧ sublist failed addrs ∧ (length new + length failed = length addrs)%nat
      ∧ ∀ p, p ∈ new → next s <= p.
Proof.
  induction addrs as [|addr addrs IH]; intros fails s fails' s' Ha E; cbn [bind_loop] in E.
  { st_inv. split; [done|]. split; [done|]. split; [done|]. exists [], []. rewrite !app_nil_r.
    split_and!; [by destruct (server s')|done..|]. by intros p ?%elem_of_nil. }
  apply st_bind_inv in E as (b & s1 & E1 & E).
  apply bind_one_spec in E1 as (A1 & Eq1 & Er1 & Ex1 & Em1); [|done].
  apply IH in E as (A2 & Eq2 & Er2 & new & failed & Em2 & -> & Hsub & Hlen & Hnew); [|done].
  split; [done|]. split; [congruence|]. split; [congruence|].
  exists ((if b then [next s] else []) ++ new), ((if b then [] else [addr]) ++ failed).
  rewrite Em2, Em1, !app_assoc. split; [by destruct (server s)|].
  assert (∀ p, p ∈ (if b then [next s] else []) ++ new → next s <= p) as Hge.
  { intros p [Hp|Hp%Hnew]%elem_of_app; [|lia]. destruct b; [|by apply elem_of_nil in Hp].
    apply list_elem_of_singleton in Hp. lia. }
  destruct b; cbn [app length] in *.
  - rewrite app_nil_r. split; [done|]. split; [by constructor|]. split; [lia|done].
  - split; [done|]. split; [by constructor|]. split; [lia|done].
Qed.

Lemma clear_socks_spec L s u s' : NoDup (m_socks (server s) ++ L) →
  accounted L s → clear_socks s = (Ret u, s') →
  accounted L s' ∧ server s' = set_socks [] (server s) ∧ queues s' = queues s ∧ running s' = running s.
Proof.
  intros Hnd [Hr Hn Hd] E. unfold clear_socks in E. apply st_bind_inv in E as (l & s1 & E1 & E).
  unfold gets in E1. injection E1 as <- <-.
  apply st_bind_inv in E as (v & s1 & E1 & E). unfold update, modify in E1. injection E1 as <- <-.
  set (s0 := set_server (set_socks [] (server s)) s) in *.
  assert (accounted (m_socks (server s) ++ L) s0) as A0.
  { split; [|exact Hn|constructor]. intros p. change (sockets s0) with (sockets s). rewrite <- Hr, !elem_of_refs.
    cbn. rewrite elem_of_nil, elem_of_app. tauto. }
  split; [by eapply release_all_accounted|].
  assert (∀ l s u s', release_all l s = (Ret u, s') →
    server s' = server s ∧ queues s' = queues s ∧ running s' = running s) as Hk.
  { clear. induction l as [|p l IH]; intros s u s' E; cbn [release_all] in E; [by st_inv|].
    apply st_bind_inv in E as (v & s1 & (E1 & E2 & E3 & _)%release_keeps & E). apply IH in E as (F1 & F2 & F3).
    split; [congruence|]. split; congruence. }
  by apply Hk in E as (-> & -> & ->).
Qed.

Lemma bind_spec addrs fails ssl s b fails' s' :
  accounted [] s → bind SOMAXCONN addrs fails ssl s = (Ret (b, fails'), s') →
  accounted [] s' ∧ queues s' = queues s ∧ running s' = running s ∧ b = bool_decide (fails' = [])
  ∧ ∃ new failed, fails' = fails ++ failed ∧ sublist failed addrs
      ∧ (length new + length failed = length addrs)%nat
      ∧ server s' = set_socks (if b then m_socks (server s) ++ new else []) (set_ssl ssl (server s))
      ∧ NoDup new ∧ ∀ p, p ∈ new → next s <= p.
Proof.
  intros Ha E. unfold bind in E. apply st_bind_inv in E as (v & s1 & E1 & E).
  unfold update, modify in E1. injection E1 as <- <-.
  apply st_bind_inv in E as (fs & s2 & E2 & E).
  apply bind_loop_spec in E2 as (A2 & Eq2 & Er2 & new & failed & Em2 & -> & Hsub & Hlen & Hnew);
    [|by destruct Ha; split]. cbn in Eq2, Er2, Em2, Hnew.
  assert (NoDup new) as Hnd.
  { pose proof (acc_socks _ _ A2) as Hd. rewrite Em2 in Hd. cbn in Hd. by apply NoDup_app in Hd as (_ & _ & ?). }
  case_bool_decide as Hf; cbn [negb] in E; st_inv.
  - split; [done|]. split; [done|]. split; [done|]. split; [by rewrite bool_decide_true|].
    exists new, failed. by rewrite Em2.
  - apply clear_socks_spec with (L := []) in E0 as (A3 & Em3 & Eq3 & Er3); [| |done].
    2:{ rewrite app_nil_r. apply A2. }
    split; [done|]. split; [congruence|]. split; [congruence|]. split; [by rewrite bool_decide_false|].
    exists new, failed. rewrite Em3, Em2. split_and!; try done.
Qed.

(** ** Closing *)

Definition closed (o : any_socket) : Prop := Socket.m_sock (base_of o) = -1.

Lemma close_closes o w : ∃ b o' w', Socket.close (o, w) = (Ret b, (o', w')) ∧ Socket.m_sock o' = -1.
Proof.
  unfold Socket.close, mbind, st_bind, Socket.obj, gets, Socket.upd, Socket.call, modify. cbn.
  destruct (negb (Socket.m_isConnected o) && (Socket.m_sock o =? -1)) eqn:E.
  { eexists _, o, w. split; [done|]. apply andb_true_iff in E. lia. }
  destruct (Socket.m_sock o =? -1) eqn:Es; cbn; [by eexists _, _, _; split; [done|]; cbn; lia|].
  destruct (sys_close _ _) as [r w1]. by eexists _, _, _.
Qed.

Lemma any_close_closes o w : ∃ b o' w', any_close (o, w) = (Ret b, (o', w')) ∧ closed o'.
Proof.
  unfold any_close, virtual, closed. destruct o as [o|o]; cbn [fst snd].
  - unfold plain. destruct (close_closes o w) as (b & o' & w' & -> & ?). by eexists _, (Plain o'), _.
  - unfold secure, SSLSocket.close, SSLSocket.on_base. cbn [fst snd].
    destruct (close_closes (SSLSocket.base o) w) as (b & o' & w' & -> & ?).
    by eexists _, (Secure (SSLSocket.set_base o' o)), _.
Qed.

Lemma cancel_keeps o w : ∃ b w', inherited SocketCancel.cancelAll (o, w) = (Ret b, (o, w')).
Proof.
  unfold inherited, virtual, SocketCancel.cancelAll, mbind, st_bind, Socket.obj, gets, Socket.call.
  destruct o as [o|o]; cbn [fst snd]; [unfold plain|unfold secure, SSLSocket.on_base]; cbn [fst snd];
    destruct (cancelAll _ _) as [b w'];
    eexists _, _; [done|by destruct o].
Qed.

(** Every socket is there, is closed, and what was closed before stays so. *)
Lemma close_loop_closes l : ∀ s, (∀ q, q ∈ l → is_Some (sockets s !! q)) →
  ∃ s', close_loop l s = (Ret tt, s') ∧ server s' = server s
    ∧ ∀ q o, sockets s !! q = Some o → closed o ∨ q ∈ l → ∃ o', sockets s' !! q = Some o' ∧ closed o'.
Proof.
  induction l as [|p l IH]; intros s Hl; cbn [close_loop].
  { exists s. split; [done|]. split; [done|]. intros q o Ho [?|?%elem_of_nil]; [by eexists|done]. }
  destruct (Hl p) as [o Ho]; [left|]. destruct (cancel_keeps o (world s)) as (b & w1 & E1).
  destruct (any_close_closes o w1) as (b2 & o' & w2 & E2 & Hc).
  set (s2 := set_sockets (<[p := o']> (<[p := o]> (sockets s))) w2 s).
  assert (close_loop (p :: l) s = close_loop l s2) as E.
  { cbn [close_loop]. unfold mbind at 1, st_bind, on_socket at 1. rewrite Ho, E1.
    unfold mbind at 1, on_socket at 1. cbn [sockets set_sockets world]. by rewrite lookup_insert_eq, E2. }
  cbn [close_loop] in E. rewrite E. destruct (IH s2) as (s' & -> & Ev & Hq).
  { intros q Hq. cbn. destruct (decide (q = p)) as [->|Hne]; simplify_map_eq; [done|].
    apply Hl. by right. }
  exists s'. split; [done|]. split; [done|]. intros q oq Hoq Hcl.
  destruct (decide (q = p)) as [->|Hne].
  - apply (Hq p o'); [cbn; by rewrite lookup_insert_eq|by left].
  - apply (Hq q oq); [cbn; by rewrite !lookup_insert_ne|]. destruct Hcl as [?|[?|?]%elem_of_cons]; [by left|done|by right].
Qed.

(** ** Accepting *)

Lemma accept_round_spec p s go s' : accounted [] s → accept_round p s = (Ret go, s') →
  accounted [] s' ∧ go = negb (m_isStop (server s)) ∧ (go = false → s' = s)
  ∧ server s' = server s ∧ running s' = running s
  ∧ (queues s' = queues s
     ∨ ∃ w l, m_ioWorker (server s) = Some w ∧ queues s !! w = Some l
       ∧ queues s' = <[w := l ++ [HandleClient (next s)]]> (queues s)).
Proof.
  intros Ha E. unfold accept_round in E. apply st_bind_inv in E as (o & s1 & E1 & E).
  unfold gets in E1. injection E1 as <- <-. destruct (m_isStop (server s)); [st_inv; auto 10|].
  apply st_bind_inv in E as (c & s1 & E1%on_socket_same & E). pose proof (same_refs_accounted _ _ _ E1 Ha) as A1.
  pose proof E1 as [Ev1 Eq1 Er1 Ex1 _].
  destruct c as [c|]; [|st_inv; split_and!; [done..|by left]].
  apply st_bind_inv in E as (q & s2 & E2 & E). destruct (alloc_accounted _ _ _ _ _ A1 E2) as (A2 & _).
  unfold alloc in E2. injection E2 as <- <-.
  apply st_bind_inv in E as (v & s3 & E3%on_socket_same & E). pose proof E3 as [Ev3 Eq3 Er3 _ _].
  apply st_bind_inv in E as (v' & s4 & E4 & E). st_inv.
  split; [eapply schedule_accounted, E4; by eapply same_refs_accounted|].
  pose proof (schedule_spec _ _ _ _ _ E4) as (_ & _ & _ & Ev4 & Er4).
  cbn in Ev3, Eq3, Er3. split_and!; [done|done|congruence|congruence|]. right.
  unfold schedule in E4. destruct (m_ioWorker (server s)) as [w|]; [|done].
  destruct (queues s3 !! w) as [l|] eqn:Hl; [|done]. injection E4 as _ <-. cbn.
  exists w, l. rewrite Eq3, Eq1, <- Ex1 in *. done.
Qed.

Lemma schedule_accepts_accounted worker l : ∀ s u s',
  (∀ p, p ∈ l → p ∈ refs s) → accounted [] s → schedule_accepts worker l s = (Ret u, s') →
  accounted [] s'.
Proof.
  induction l as [|p l IH]; intros s u s' Hl Ha E; cbn [schedule_accepts] in E; [by st_inv|].
  apply st_bind_inv in E as (v & s1 & E1 & E). pose proof (schedule_spec _ _ _ _ _ E1) as (Er & _).
  eapply IH; [| |done].
  - intros q Hq. apply Er. left. apply Hl. by right.
  - eapply schedule_accounted, E1. apply accounted_held; [|done]. cbn.
    intros q ->%list_elem_of_singleton. apply Hl. by left.
Qed.

Lemma schedule_accepts_total aw socks : ∀ s l, queues s !! aw = Some l →
  schedule_accepts (Some aw) socks s
  = (Ret tt, set_queues (<[aw := l ++ (StartAccept <$> socks)]> (queues s)) s).
Proof.
  induction socks as [|p socks IH]; intros s l Hl; cbn [schedule_accepts].
  - rewrite app_nil_r, insert_id by done. by destruct s.
  - unfold mbind, st_bind, schedule. rewrite Hl. rewrite (IH _ (l ++ [StartAccept p])).
    + cbn. by rewrite insert_insert_eq, <- app_assoc.
    + cbn. apply lookup_insert_eq.
Qed.

(** What [schedule] does to the lists of functions. *)
Definition enqueued (worker : option Z) (ks : list task) (q : gmap Z (list task)) : gmap Z (list task) :=
  match worker with Some w => alter (λ l, l ++ ks) w q | None => q end.

Lemma schedule_enqueues worker k s u s' :
  schedule worker k s = (Ret u, s') → s' = set_queues (enqueued worker [k] (queues s)) s.
Proof.
  unfold schedule, enqueued. destruct worker as [w|]; [|done]. destruct (queues s !! w) as [l|] eqn:Hl; [|done].
  intros [= _ <-]. f_equal. rewrite <- (insert_id (queues s) w l) at 2 by done. by rewrite alter_insert_eq.
Qed.

Lemma schedule_accepts_enqueue worker socks : ∀ s u s', schedule_accepts worker socks s = (Ret u, s') →
  s' = set_queues (enqueued worker (StartAccept <$> socks) (queues s)) s.
Proof.
  induction socks as [|p socks IH]; intros s u s' E; cbn [schedule_accepts] in E.
  - st_inv. destruct s' as [o so n q r w]. unfold set_queues. cbn. f_equal. destruct worker as [k|]; [|done]. cbn.
    apply map_eq. intros i. rewrite lookup_alter. case_decide; [subst|done].
    destruct (q !! i); [|done]. cbn. by rewrite app_nil_r.
  - apply st_bind_inv in E as (v & s1 & ->%schedule_enqueues & E). apply IH in E as ->.
    unfold set_queues. cbn. f_equal. destruct worker as [w|]; [|done]. cbn.
    apply map_eq. intros i. destruct (decide (w = i)) as [->|Hne]; [|by rewrite !lookup_alter_ne].
    rewrite !lookup_alter_eq. destruct (queues s !! i); [|done]. cbn. by rewrite <- app_assoc.
Qed.

Lemma start_accounted s r s' : accounted [] s → start s = (Ret r, s') → accounted [] s'.
Proof.
  intros Ha E. unfold start in E. apply st_bind_inv in E as (o & s1 & E1 & E).
  unfold gets in E1. injection E1 as <- <-. destruct (negb _); [by st_inv|].
  apply st_bind_inv in E as (v & s1 & E1 & E). unfold update, modify in E1. injection E1 as <- <-.
  apply st_bind_inv in E as (v' & s2 & E2 & E). st_inv.
  eapply schedule_accepts_accounted, E2; [|by destruct Ha; split].
  intros p Hp. apply elem_of_refs. by left.
Qed.

Lemma stop_accounted s r s' : accounted [] s → stop s = (Ret r, s') → accounted [] s'.
Proof.
  intros Ha E. unfold stop in E. apply st_bind_inv in E as (o & s1 & E1 & E).
  unfold update, modify in E1. injection E1 as <- <-. apply st_bind_inv in E as (v & s1 & E1 & E).
  unfold gets in E1. injection E1 as <- <-. eapply schedule_accounted, E. by destruct Ha; split.
Qed.

Lemma close_loop_same l : ∀ s u s', close_loop l s = (Ret u, s') → same_refs s s'.
Proof.
  induction l as [|p l IH]; intros s u s' E; cbn [close_loop] in E; [st_inv; apply same_refs_refl|].
  apply st_bind_inv in E as (v & s1 & E1%on_socket_same & E).
  apply st_bind_inv in E as (v' & s2 & E2%on_socket_same & E). apply IH in E.
  by eapply same_refs_trans, same_refs_trans.
Qed.

Lemma release_all_sub l : ∀ s u s', release_all l s = (Ret u, s') →
  ∀ q o, sockets s' !! q = Some o → sockets s !! q = Some o.
Proof.
  induction l as [|p l IH]; intros s u s' E q o Hq; cbn [release_all] in E; [by st_inv|].
  apply st_bind_inv in E as (v & s1 & E1 & E). apply (IH _ _ _ E) in Hq. revert E1. unfold release.
  case_decide; [congruence|]. destruct (sockets s !! p); [|congruence].
  destruct (Socket.close _) as [x [o' w]]. intros [= _ <-]. cbn in Hq. by apply lookup_delete_Some in Hq as [_ ?].
Qed.

Lemma close_all_spec s u s' : accounted [] s → close_all s = (Ret u, s') →
  accounted [] s' ∧ server s' = set_socks [] (server s) ∧ queues s' = queues s ∧ running s' = running s
  ∧ ∀ q o, q ∈ m_socks (server s) → sockets s' !! q = Some o → closed o.
Proof.
  intros Ha E. unfold close_all in E. apply st_bind_inv in E as (l & s1 & E1 & E).
  unfold gets in E1. injection E1 as <- <-. apply st_bind_inv in E as (v & s1 & Ecl & E).
  pose proof (close_loop_same _ _ _ _ Ecl) as E1. pose proof (same_refs_accounted _ _ _ E1 Ha) as A1.
  assert (∀ q o, sockets s' !! q = Some o → sockets s1 !! q = Some o) as Hsub.
  { unfold clear_socks, update in E. st_inv. intros q o Hq.
    match goal with Hr : release_all _ _ = _ |- _ => by apply (release_all_sub _ _ _ _ Hr) in Hq end. }
  apply clear_socks_spec with (L := []) in E as (A2 & Em & Eq & Er); [| |done].
  2:{ rewrite app_nil_r. apply A1. }
  rewrite Em, Eq, Er, (same_server _ _ E1), (same_queues _ _ E1), (same_running _ _ E1).
  split_and!; [done..|]. intros q o Hq Ho%Hsub.
  destruct (close_loop_closes (m_socks (server s)) s) as (s2 & E2 & _ & Hcl).
  { intros q' Hq'. apply (acc_refs _ _ Ha). left. apply elem_of_refs. by left. }
  rewrite Ecl in E2. injection E2 as _ <-.
  destruct (proj1 (acc_refs _ _ Ha q)) as [o0 Ho0]; [left; apply elem_of_refs; by left|].
  destruct (Hcl q o0 Ho0 (or_intror Hq)) as (o' & Ho' & ?). congruence.
Qed.

(** ** Everything that can happen *)

(** Taking a function out of its list leaves its references to whoever runs it. *)
Lemma dequeue_accounted s w l i k :
  accounted [] s → queues s !! w = Some l → l !! i = Some k →
  accounted (task_refs k) (set_queues (<[w := drop_nth i l]> (queues s)) s).
Proof.
  intros [Hr Hn Hd] Hq Hi. split; [|exact Hn|exact Hd]. intros p. change (sockets (set_queues _ _)) with (sockets s).
  rewrite <- Hr, !elem_of_refs, (queue_refs_drop p _ _ _ _ _ Hq Hi). cbn. rewrite elem_of_nil. tauto.
Qed.

Lemma run_task_accounted w i s u s' : accounted [] s → run_task w i s = (Ret u, s') → accounted [] s'.
Proof.
  intros Ha E. unfold run_task in E. apply st_bind_inv in E as (s0 & s1 & E1 & E).
  unfold get in E1. injection E1 as <- <-.
  destruct (queues s !! w) as [l|] eqn:Hq; [|by st_inv]. destruct (l !! i) as [k|] eqn:Hi; [|by st_inv].
  pose proof (dequeue_accounted _ _ _ _ _ Ha Hq Hi) as Ad. destruct k as [p|p|]; cbn [task_refs] in Ad.
  - unfold modify in E. injection E as _ <-. destruct Ad as [Hr Hn Hd]. split; [|exact Hn|exact Hd].
    intros q. change (sockets (set_running _ _)) with (sockets s). cbn [sockets set_queues] in Hr.
    rewrite <- Hr, !elem_of_refs. cbn. rewrite elem_of_app, list_elem_of_singleton, elem_of_nil. tauto.
  - unfold handleClient in E. apply st_bind_inv in E as (v & s1 & E1 & E).
    unfold mret, st_ret in E1. injection E1 as _ <-.
    apply st_bind_inv in E as (v' & s1 & E1 & E). unfold modify in E1. injection E1 as _ <-.
    eapply release_accounted, E; [by apply not_elem_of_nil|done].
  - apply st_bind_inv in E as (v & s1 & E1 & E). unfold modify in E1. injection E1 as <- <-.
    by apply close_all_spec in E as [A _].
Qed.

Lemma run_round_accounted i s u s' : accounted [] s → run_round i s = (Ret u, s') → accounted [] s'.
Proof.
  intros Ha E. unfold run_round in E. apply st_bind_inv in E as (s0 & s1 & E1 & E).
  unfold get in E1. injection E1 as <- <-. destruct (running s !! i) as [p|] eqn:Hi; [|by st_inv].
  apply st_bind_inv in E as (go & s1 & E1 & E). apply accept_round_spec in E1 as (A1 & _ & Hs & _); [|done].
  destruct go; [by st_inv|]. rewrite Hs in * by done.
  apply st_bind_inv in E as (v & s2 & E2 & E). unfold modify in E2. injection E2 as <- <-.
  eapply release_accounted, E; [by apply not_elem_of_nil|]. destruct Ha as [Hr Hn Hd]. split; [|exact Hn|exact Hd].
  intros q. change (sockets (set_running _ _)) with (sockets s). rewrite <- Hr, !elem_of_refs. cbn.
  rewrite (elem_of_drop_nth _ _ q _ Hi), list_elem_of_singleton, elem_of_nil. tauto.
Qed.

Lemma step_accounted e s u s' : accounted [] s → step SOMAXCONN e s = (Ret u, s') → accounted [] s'.
Proof.
  intros Ha E. destruct e as [addrs fails ssl| | |w i|i|w]; cbn [step] in E.
  - apply st_bind_inv in E as ([b f] & s1 & E1 & E). st_inv. by apply bind_spec in E1 as [A _].
  - apply st_bind_inv in E as (r & s1 & E1 & E). st_inv. by eapply start_accounted.
  - by eapply stop_accounted.
  - by eapply run_task_accounted.
  - by eapply run_round_accounted.
  - unfold modify in E. injection E as _ <-. by destruct Ha; split.
Qed.

Lemma run_accounted es : ∀ s u s', accounted [] s → run SOMAXCONN es s = (Ret u, s') → accounted [] s'.
Proof.
  induction es as [|e es IH]; intros s u s' Ha E; cbn [run] in E; [by st_inv|].
  apply st_bind_inv in E as (v & s1 & E1 & E). eapply IH, E. by eapply step_accounted.
Qed.

Lemma initial_accounted o workers w : m_socks o = [] → accounted [] (initial o workers w).
Proof.
  intros Ho. split; cbn; [|by intros p [? ?]|rewrite Ho; constructor]. intros p. rewrite elem_of_refs. cbn.
  rewrite Ho, elem_of_queue_refs, lookup_empty. split; [|by intros [? ?]].
  intros [[?%elem_of_nil|[(q & l & k & Hq & Hk & _)|?%elem_of_nil]]|?%elem_of_nil]; try done. exfalso.
  apply elem_of_list_to_map_2, list_elem_of_fmap in Hq as (p' & [= -> ->] & _). by apply elem_of_nil in Hk.
Qed.

(** What each event is there for. Binding: one fresh socket for every address, behind those the
    server had, or none at all when some address failed or had failed before. Starting: a server
    that is stopped runs, with an accepting loop scheduled for each of its sockets, in order;
    one that runs is left alone. Stopping: the server stops, and its function is scheduled. A function
    that a scheduler starts leaves its list; an accepting loop runs from then on; the function of
    [stop] leaves the server without sockets, and those of them that something else still refers
    to are closed. A round of a loop ends the loop when the server is stopped, and otherwise hands
    at most one client, a new socket, to the other scheduler. Nothing else changes. *)
Definition effect (e : event W) s s' : Prop :=
  let o := server s in
  match e with
  | Bind addrs fails ssl =>
      queues s' = queues s ∧ running s' = running s
      ∧ ∃ new failed, sublist failed addrs ∧ (length new + length failed = length addrs)%nat
          ∧ NoDup new ∧ (∀ p, p ∈ new → p ∉ refs s)
          ∧ server s' = set_socks (if bool_decide (fails ++ failed = []) then m_socks o ++ new else [])
                          (set_ssl ssl o)
  | Start =>
      if m_isStop o
      then s' = set_queues (enqueued (m_acceptWorker o) (StartAccept <$> m_socks o) (queues s))
                  (set_server (set_isStop false o) s)
      else s' = s
  | Stop =>
      s' = set_queues (enqueued (m_acceptWorker o) [CloseAll] (queues s)) (set_server (set_isStop true o) s)
  | Run w i =>
      match queues s !! w ≫= (.!! i) with
      | None => s' = s
      | Some k =>
          queues s' = alter (drop_nth i) w (queues s)
          ∧ running s' = running s ++ match k with StartAccept p => [p] | _ => [] end
          ∧ server s' = match k with CloseAll => set_socks [] o | _ => o end
          ∧ (k = CloseAll → ∀ p x, p ∈ m_socks o → sockets s' !! p = Some x → closed x)
      end
  | Round i =>
      match running s !! i with
      | None => s' = s
      | Some p =>
          server s' = o
          ∧ if m_isStop o then running s' = drop_nth i (running s) ∧ queues s' = queues s
            else running s' = running s
              ∧ (queues s' = queues s
                 ∨ ∃ c, c ∉ refs s ∧ queues s' = enqueued (m_ioWorker o) [HandleClient c] (queues s))
      end
  | World w => server s' = o ∧ queues s' = queues s ∧ running s' = running s ∧ sockets s' = sockets s
  end.

Lemma fresh_address L s p : accounted L s → next s <= p → p ∉ refs s.
Proof.
  intros [Hr Hn _] Hp Hin. assert (p < next s) as Hlt; [|lia]. apply Hn, Hr. by left.
Qed.

Lemma alter_found (q : gmap Z (list task)) w l f : q !! w = Some l → <[w := f l]> q = alter f w q.
Proof. intros Hl. rewrite <- (insert_id q w l) at 2 by done. by rewrite alter_insert_eq. Qed.

Lemma run_task_effect w i s u s' : accounted [] s → run_task w i s = (Ret u, s') → effect (Run w i) s s'.
Proof.
  intros Ha E. unfold run_task in E. apply st_bind_inv in E as (s0 & s1 & E1 & E).
  unfold get in E1. injection E1 as <- <-. cbn [effect].
  destruct (queues s !! w) as [l|] eqn:Hq; [|by st_inv]. cbn [option_bind mbind].
  destruct (l !! i) as [k|] eqn:Hi; [|by st_inv].
  pose proof (dequeue_accounted _ _ _ _ _ Ha Hq Hi) as Ad. destruct k as [p|p|]; cbn [task_refs] in Ad.
  - unfold modify in E. injection E as _ <-. by rewrite <- (alter_found _ _ _ _ Hq).
  - unfold handleClient in E. st_inv.
    match goal with Hr : release _ _ = _ |- _ => apply release_keeps in Hr as (-> & -> & -> & _) end. cbn.
    by rewrite app_nil_r, <- (alter_found _ _ _ _ Hq).
  - apply st_bind_inv in E as (v & s1 & E1 & E). unfold modify in E1. injection E1 as <- <-.
    apply close_all_spec in E as (_ & -> & -> & -> & Hcl); [|done]. cbn.
    rewrite app_nil_r, <- (alter_found _ _ _ _ Hq). split_and!; [done..|]. intros _. exact Hcl.
Qed.

Lemma run_round_effect i s u s' : accounted [] s → run_round i s = (Ret u, s') → effect (Round i) s s'.
Proof.
  intros Ha E. unfold run_round in E. apply st_bind_inv in E as (s0 & s1 & E1 & E).
  unfold get in E1. injection E1 as <- <-. cbn [effect]. destruct (running s !! i) as [p|] eqn:Hi; [|by st_inv].
  apply st_bind_inv in E as (go & s1 & E1 & E). apply accept_round_spec in E1 as (_ & -> & Hs & Ev & Er & Hq); [|done].
  destruct (m_isStop (server s)); cbn [negb] in *.
  - rewrite Hs in * by done. st_inv.
    by match goal with Hr : release _ _ = _ |- _ => apply release_keeps in Hr as (-> & -> & -> & _) end.
  - st_inv. split_and!; [done..|]. destruct Hq as [Hq|(w & l & Hw & Hl & Hq)]; [by left|right].
    exists (next s). split; [by eapply fresh_address|]. rewrite Hq, Hw. cbn.
    by rewrite <- (alter_found _ _ _ _ Hl).
Qed.

Lemma step_effect e s u s' : accounted [] s → step SOMAXCONN e s = (Ret u, s') → effect e s s'.
Proof.
  intros Ha E. destruct e as [addrs fails ssl| | |w i|i|w]; cbn [step] in E.
  - apply st_bind_inv in E as ([b f] & s1 & E1 & E). st_inv.
    apply bind_spec in E1 as (_ & Hq & Hr & Hb & new & failed & Hf & Hsub & Hlen & Hv & Hnd & Hnew); [|done].
    split; [done|]. split; [done|]. exists new, failed. split_and!; [done..| |by rewrite Hv, Hb, Hf].
    intros p Hp. eapply fresh_address; [done|]. by apply Hnew.
  - apply st_bind_inv in E as (r & s1 & E1 & E). st_inv. unfold start in E1. cbn [effect].
    apply st_bind_inv in E1 as (o & s2 & E2 & E1). unfold gets in E2. injection E2 as <- <-.
    destruct (m_isStop (server s)); cbn [negb] in *; [|by st_inv].
    apply st_bind_inv in E1 as (v & s2 & E2 & E1). unfold update, modify in E2. injection E2 as <- <-.
    apply st_bind_inv in E1 as (v' & s2 & ->%schedule_accepts_enqueue & E1). by st_inv.
  - unfold stop in E. cbn [effect]. apply st_bind_inv in E as (v & s1 & E1 & E).
    unfold update, modify in E1. injection E1 as <- <-. apply st_bind_inv in E as (o & s1 & E1 & E).
    unfold gets in E1. injection E1 as <- <-. by apply schedule_enqueues in E as ->.
  - by eapply run_task_effect.
  - by eapply run_round_effect.
  - unfold modify in E. by injection E as _ <-.
Qed.

(** C9. The life of a server. Whatever is bound, started, stopped and run, in any order and any
    world: every event that returns has its [effect] and no other; and afterwards no socket
    dangles and none is lost: the socket objects that exist are exactly those the server, a
    scheduled function or a running loop refers to, so when the server has no sockets, nothing is
    scheduled and no loop runs, every socket has been destroyed. *)
Theorem sockets_accounted worker io_worker accept_worker timeout workers es w s e s' :
  run SOMAXCONN es (initial (make worker io_worker accept_worker timeout) workers w) = (Ret tt, s) →
  step SOMAXCONN e s = (Ret tt, s') →
  effect e s s'
  ∧ (∀ p, p ∈ refs s' ↔ is_Some (sockets s' !! p)) ∧ NoDup (m_socks (server s'))
  ∧ (refs s' = [] → sockets s' = ∅).
Proof.
  intros E Ee. apply run_accounted in E; [|by apply initial_accounted].
  split; [by eapply step_effect|]. apply step_accounted in Ee as [Hr Hn Hd]; [|done].
  assert (∀ p, p ∈ refs s' ↔ is_Some (sockets s' !! p)) as Hr'.
  { intros p. rewrite <- Hr, elem_of_nil. tauto. }
  split; [done|]. split; [done|]. intros E0. apply map_empty. intros p. apply eq_None_not_Some.
  rewrite <- Hr', E0. by apply not_elem_of_nil.
Qed.

(** Binding succeeds for all addresses or leaves the server without a socket: bind returns true
    exactly when no address failed and the list of failures was empty before, and then every address
    has added one socket behind those the server had; otherwise the list has grown by the addresses
    that failed, in their order, and the server has none at all, also not those of earlier calls. *)
Theorem bind_all_or_none worker io_worker accept_worker timeout workers es w s addrs fails ssl b fails' s' :
  run SOMAXCONN es (initial (make worker io_worker accept_worker timeout) workers w) = (Ret tt, s) →
  bind SOMAXCONN addrs fails ssl s = (Ret (b, fails'), s') →
  b = bool_decide (fails' = [])
  ∧ ∃ new failed, fails' = fails ++ failed ∧ sublist failed addrs
      ∧ (length new + length failed = length addrs)%nat
      ∧ m_socks (server s') = if b then m_socks (server s) ++ new else [].
Proof.
  intros E Eb. apply run_accounted in E; [|by apply initial_accounted].
  apply bind_spec in Eb as (_ & _ & _ & Hb & new & failed & Hf & Hsub & Hlen & Hv & _); [|done].
  split; [done|]. exists new, failed. split_and!; [done..|]. by rewrite Hv.
Qed.

(** ** A server that is started again *)

(** What is still referred to survives [clear]. *)
Lemma release_all_keeps p l : ∀ s, p ∈ refs s →
  ∃ s', release_all l s = (Ret tt, s') ∧ server s' = server s ∧ queues s' = queues s
    ∧ running s' = running s ∧ sockets s' !! p = sockets s !! p.
Proof.
  induction l as [|q l IH]; intros s Hp; cbn [release_all]; [by exists s|].
  assert (∃ s1, release q s = (Ret tt, s1) ∧ refs s1 = refs s ∧ server s1 = server s ∧ queues s1 = queues s
    ∧ running s1 = running s ∧ sockets s1 !! p = sockets s !! p) as (s1 & E1 & Er & Ev & Eq & Eu & Es).
  { unfold release. case_decide as Hq; [by exists s|]. destruct (sockets s !! q) as [o|]; [|by exists s].
    destruct (Socket.close _) as [x [o' w]]. eexists. split; [done|]. split; [done|]. split; [done|].
    split; [done|]. split; [done|]. cbn. apply lookup_delete_ne. congruence. }
  destruct (IH s1) as (s' & E & Ev' & Eq' & Eu' & Es'); [by rewrite Er|].
  exists s'. unfold mbind, st_bind. rewrite E1, E. split; [done|]. split; [congruence|].
  split; [congruence|]. split; congruence.
Qed.

(** A closed socket accepts nothing, and the loop goes on. *)
Context (Haccept : ∀ w, (sys_accept (-1) w).1 = -1).

Lemma closed_accept_fails o w : closed o → ∃ w', any_accept (o, w) = (Ret None, (o, w')).
Proof using Haccept.
  intros Hc. pose proof (Haccept w) as Hw.
  unfold any_accept, virtual, closed in *. destruct o as [o|o]; cbn [fst snd base_of] in *;
    [unfold plain, mbind, st_bind, Socket.accept|unfold secure, mbind, st_bind, SSLSocket.accept];
    cbn [fst snd]; rewrite Hc; destruct (sys_accept _ _) as [r w']; cbn [fst] in Hw; subst r; by exists w'.
Qed.

Lemma closed_spins p o fuel : ∀ s, m_isStop (server s) = false → sockets s !! p = Some o → closed o →
  ∃ w, startAccept fuel p s = (NoFuel, mkS (server s) (sockets s) (next s) (queues s) (running s) w).
Proof using Haccept.
  induction fuel as [|fuel IH]; intros s Hstop Ho Hc; [exists (world s); by destruct s|].
  destruct (closed_accept_fails o (world s) Hc) as [w1 E1].
  cbn [startAccept]. unfold mbind at 1, st_bind, accept_round at 1. unfold mbind at 1, st_bind, gets.
  rewrite Hstop. unfold mbind at 1, on_socket. rewrite Ho, E1. cbv beta iota. rewrite insert_id by done.
  destruct (IH (set_sockets (sockets s) w1 s)) as [w2 E2]; [done..|].
  exists w2. exact E2.
Qed.

(** C39. A server that is stopped and started again before the function of stop has run never
    accepts again: in every state a server can reach, with an accepting loop running, the function
    of stop closes the sockets of the restarted server, which has none then, and the loop goes on
    for ever, each round failing to accept from the closed socket, without a pause. *)
Theorem restart_spins worker io_worker accept_worker timeout workers es w s aw l p :
  run SOMAXCONN es (initial (make worker io_worker accept_worker timeout) workers w) = (Ret tt, s) →
  isStop (server s) = false → m_acceptWorker (server s) = Some aw → queues s !! aw = Some l →
  p ∈ m_socks (server s) → p ∈ running s →
  ∃ s', run SOMAXCONN [Stop; Start; Run aw (length l)] s = (Ret tt, s')
    ∧ isStop (server s') = false ∧ getSocks (server s') = [] ∧ p ∈ running s'
    ∧ ∀ fuel, ∃ w', startAccept fuel p s'
        = (NoFuel, mkS (server s') (sockets s') (next s') (queues s') (running s') w').
Proof using Haccept.
  intros E Hstop Haw Hl Hp Hrun. apply run_accounted in E; [|by apply initial_accounted].
  unfold isStop in *.
  set (q1 := <[aw := l ++ [CloseAll]]> (queues s)).
  set (s1 := set_queues q1 (set_server (set_isStop true (server s)) s)).
  assert (step SOMAXCONN Stop s = (Ret tt, s1)) as E1.
  { cbn [step]. unfold stop, mbind, st_bind, update, modify, gets, schedule. cbn. by rewrite Haw, Hl. }
  set (q2 := <[aw := (l ++ [CloseAll]) ++ (StartAccept <$> m_socks (server s))]> q1).
  set (s2 := set_queues q2 (set_server (set_isStop false (set_isStop true (server s))) s1)).
  assert (step SOMAXCONN Start s1 = (Ret tt, s2)) as E2.
  { cbn [step]. unfold start, mbind, st_bind, gets, update, modify. cbn. rewrite Haw.
    rewrite schedule_accepts_total with (l := l ++ [CloseAll]); [done|]. cbn. apply lookup_insert_eq. }
  set (s3 := set_queues (<[aw := l ++ (StartAccept <$> m_socks (server s))]> q2) s2).
  assert (step SOMAXCONN (Run aw (length l)) s2 = close_all s3) as E3.
  { cbn [step]. unfold run_task, mbind, st_bind, get. cbn. unfold q2. rewrite lookup_insert_eq.
    rewrite lookup_app_l by (rewrite length_app; simpl; lia). rewrite list_lookup_middle by done.
    unfold modify. f_equal. unfold s3, s2, drop_nth. cbn. do 2 f_equal.
    rewrite <- app_assoc, take_app_length. cbn. rewrite drop_app_ge by lia.
    by replace (S (length l) - length l)%nat with 1%nat by lia. }
  destruct (close_loop_closes (m_socks (server s)) s3) as (s4 & E4 & Ev4 & Hc4).
  { intros q Hq. change (sockets s3) with (sockets s). apply (acc_refs _ _ E). left. apply elem_of_refs. by left. }
  pose proof (close_loop_same _ _ _ _ E4) as Hsame.
  assert (∃ op, sockets s3 !! p = Some op) as [op Hop].
  { change (sockets s3) with (sockets s). apply (acc_refs _ _ E). left. apply elem_of_refs. by left. }
  destruct (Hc4 p op Hop) as (op' & Hop' & Hcl); [by right|].
  destruct (release_all_keeps p (m_socks (server s)) (set_server (set_socks [] (server s4)) s4)) as (s5 & E5 & Ev5 & Eq5 & Er5 & Es5).
  { apply elem_of_refs. cbn. rewrite (same_running _ _ Hsame). by right; right. }
  exists s5. assert (step SOMAXCONN (Run aw (length l)) s2 = (Ret tt, s5)) as E6.
  { rewrite E3. unfold close_all, mbind, st_bind, gets. change (m_socks (server s3)) with (m_socks (server s)). rewrite E4.
    unfold clear_socks, mbind, st_bind, gets, update, modify. rewrite Ev4 in E5 |- *. exact E5. }
  split; [cbn [run]; unfold mbind, st_bind; by rewrite E1, E2, E6|].
  rewrite Ev5, Er5. cbn. rewrite Ev4, (same_running _ _ Hsame). split; [done|]. split; [done|]. split; [done|].
  intros fuel. destruct (closed_spins p op' fuel s5) as [w' E']; [by rewrite Ev5; cbn; rewrite Ev4|by rewrite Es5|done|].
  exists w'. rewrite E'. rewrite Ev5, Er5. cbn. by rewrite Ev4, (same_running _ _ Hsame).
Qed.
End server.

(** ** The theorems on TCP servers at a concrete network

    A network in which port 80 is taken, every listening socket has descriptor 5, and every client
    descriptor 7, which the table of descriptors knows as a socket; calls on descriptor -1 fail. *)

Import TcpServer.

Definition table : FdManager.t :=
  FdManager.mk (<[7%nat := Some 100]> (replicate 64 None)) {[100 := FdCtx.mk true true true false false 7 (-1) (-1)]} [].
Inductive net := Net.
#[export] Instance net_sys : Sys net := {
  fdmgr _ := table;
  sys_socket _ _ _ w := (5, w);
  sys_accept fd w := (if fd =? -1 then -1 else 7, w);
  sys_bind _ addr _ w := (if bool_decide (take 2 (drop 2 addr) = [x00; x50]) then -1 else 0, w);
  sys_connect _ _ _ w := (0, w);
  connect_with_timeout _ _ _ _ w := (0, w);
  sys_listen _ _ w := (0, w);
  sys_close _ w := (0, w);
  sys_send _ l _ w := (Z.of_nat (length l), w);
  sys_sendto _ l _ _ _ w := (Z.of_nat (length l), w);
  sys_sendmsg _ ls _ _ w := (Z.of_nat (length (concat ls)), w);
  sys_recv _ _ _ w := ((0, []), w);
  sys_recvfrom _ _ _ _ w := ((0, [], []), w);
  sys_recvmsg _ _ _ _ w := ((0, [], []), w);
  sys_getpeername _ _ _ := None;
  sys_getsockopt _ _ _ _ := Some 0;
  sys_setsockopt _ _ _ _ w := (0, w);
}.
#[export] Instance net_ssl : Ssl net := {
  SSL_CTX_new _ w := (Some 1, w);
  SSL_new _ w := (Some 2, w);
  SSL_set_fd _ _ w := w;
  SSL_accept _ w := (1, w);
  SSL_connect _ w := (1, w);
  SSL_write _ b w := (Z.of_nat (length b), w);
  SSL_read _ _ w := ((0, []), w);
  SSL_CTX_use_certificate_chain_file _ _ w := (1, w);
  SSL_CTX_use_PrivateKey_file _ _ w := (1, w);
  SSL_CTX_check_private_key _ w := 1;
}.
#[export] Instance net_waits : Waits net := {
  cancelEvent _ _ w := (true, w);
  cancelAll _ w := (true, w);
}.

Definition port (p : Z) : Address.t := Address.IPv4 (IPv4Address.make 0 p).
Definition fresh_server : state net := initial (make None (Some 11) (Some 10) 120000) [10; 11] Net.
Definition after (es : list (event net)) : state net := (run 4096 es fresh_server).2.

(** A client is accepted, handled and gone; the server is stopped, and nothing is left. *)
Definition life : list (event net) :=
  [Bind [port 8080] [] false; Start; Run 10 0; Round 0; Run 11 0; Stop; Run 10 0; Round 0].
Lemma sockets_accounted_witness :
  effect (Run 10 0) (after (take 6 life)) (after (take 7 life))
  ∧ (∀ p, p ∈ refs (after (take 4 life)) ↔ is_Some (sockets (after (take 4 life)) !! p))
  ∧ refs (after (take 4 life)) = [0; 1; 0] ∧ sockets (after life) = ∅.
Proof.
  pose proof (λ n e, sockets_accounted 4096 None (Some 11) (Some 10) 120000 [10; 11] (take n life) Net
    (after (take n life)) e (after (take (S n) life))) as Hlife.
  destruct (Hlife 6%nat (Run 10 0)) as [He _]; [vm_compute; reflexivity..|].
  destruct (Hlife 3%nat (Round 0)) as (_ & Hr & _); [vm_compute; reflexivity..|].
  destruct (Hlife 7%nat (Round 0)) as (_ & _ & _ & Hn); [vm_compute; reflexivity..|].
  split; [exact He|]. split; [exact Hr|]. split; [vm_compute; reflexivity|].
  apply Hn. vm_compute. reflexivity.
Defined.

(** The second call fails for port 80 and takes away the socket of the first. *)
Lemma bind_all_or_none_witness :
  let s := after [Bind [port 8080] [] false] in
  let r := bind 4096 [port 8081; port 80] [] false s in
  m_socks (server s) = [0] ∧ r.1 = Ret (false, [port 80]) ∧ m_socks (server r.2) = [].
Proof.
  set (s := after [Bind [port 8080] [] false]). set (r := bind 4096 [port 8081; port 80] [] false s).
  cbv zeta. split; [vm_compute; reflexivity|]. split; [vm_compute; reflexivity|].
  destruct (bind_all_or_none 4096 None (Some 11) (Some 10) 120000 [10; 11] [Bind [port 8080] [] false] Net s
    [port 8081; port 80] [] false false [port 80] r.2) as (_ & new & failed & _ & _ & _ & Hm);
    [vm_compute; reflexivity|vm_compute; reflexivity|]. exact Hm.
Defined.

Lemma restart_spins_witness :
  let s := after [Bind [port 8080] [] false; Start; Run 10 0] in
  running s = [0] ∧ ∃ s', run 4096 [Stop; Start; Run 10 0] s = (Ret tt, s')
    ∧ isStop (server s') = false ∧ ∀ fuel, (startAccept fuel 0 s').1 = NoFuel.
Proof.
  intros s. split; [vm_compute; reflexivity|].
  destruct (restart_spins 4096) with (worker := @None Z) (io_worker := Some 11) (accept_worker := Some 10)
    (timeout := 120000) (workers := [10; 11]) (es := [Bind [port 8080] [] false; Start; Run 10 0] : list (event net))
    (w := Net) (s := s) (aw := 10) (l := @nil task) (p := 0) as (s' & E & Hs & _ & _ & Hf).
  - intros w. reflexivity.
  - vm_compute. reflexivity.
  - vm_compute. reflexivity.
  - vm_compute. reflexivity.
  - vm_compute. reflexivity.
  - apply (bool_decide_unpack _). vm_compute. exact I.
  - apply (bool_decide_unpack _). vm_compute. exact I.
  - exists s'. split; [exact E|]. split; [exact Hs|]. intros fuel. destruct (Hf fuel) as [w' ->]. reflexivity.
Defined.
