(* ===== verification/Locks.v ===== *)
(** * Locks (sylar/mutex.h, sylar/mutex.cpp)

    A scoped lock is an object that holds a lock while it exists, with operations to give it back
    and take it again. The three classes of scoped locks differ in the operation of the lock they
    call; what they ask of a lock is the class [Lockable], and what they need of it [LockLaws].
    Several objects, of any threads, share a lock: their steps interleave at every access to it. *)

From S2P Require Import Prelude.

(** [lock] and [wrlock], or [rdlock]. *)
Inductive mode := Shared | Exclusive.
#[export] Instance mode_eq_dec : EqDecision mode.
Proof. solve_decision. Defined.

(** One attempt to take the lock, nothing when the caller has to wait; and giving it back. *)
Class Lockable (M : Type) := {
  acquire : mode → M → option M;
  release : M → M;
}.
(** [held m l]: the lock is held in the modes [l]. *)
Class LockLaws (M : Type) `{Lockable M} := {
  held : M → list mode → Prop;
  held_perm m l l' : l ≡ₚ l' → held m l → held m l';
  held_acquire m l k m' : held m l → acquire k m = Some m' → held m' (k :: l);
  held_release m l k : held m (k :: l) → held (release m) l;
  held_exclusive m l : held m l → Exclusive ∈ l → l = [Exclusive];
}.

(** ** The locks of the framework

    [CASLock]: the flag; [lock()] sets it until it finds it clear. *)
Module CASLock.
Record t := mk { m_mutex : bool }.
Definition make : t := mk false.
(** One round of the loop: the flag is set, and whether it was set before. *)
Definition test_and_set (o : t) : bool * t := (m_mutex o, mk true).
Definition lock_round (o : t) : option t :=
  let '(was, o) := test_and_set o in if was then None else Some o.
Definition unlock (o : t) : t := mk false.
End CASLock.
#[export] Instance caslock : Lockable CASLock.t := {
  acquire _ := CASLock.lock_round;
  release := CASLock.unlock;
}.

(** [NullMutex] and [NullRWMutex] lock nothing. *)
Module NullMutex.
Definition lock (m : unit) : unit := m.
Definition unlock (m : unit) : unit := m.
End NullMutex.

(** ** Scoped locks *)

Module ScopedLock.
(** Where the object's thread is: outside its operations; inside [m_mutex.lock()]; after it, before
    [m_locked] is set; after [m_mutex.unlock()], before it is cleared; and destroyed. [dying]: the
    call of [unlock] is the destructor's. *)
Inductive place := Outside | Locking | Locked | Unlocked (dying : bool) | Destroyed.
Record t := mk { kind : mode; m_locked : bool; at_ : place }.

(** The constructor, which leaves [m_locked] unset until it has the lock. *)
Definition make (k : mode) : t := mk k false Locking.
Definition goto (p : place) (o : t) : t := mk (kind o) (m_locked o) p.
Definition set_locked (b : bool) (o : t) : t := mk (kind o) b Outside.

Section system.
Context {M : Type} `{Lockable M}.

(** The first access of [lock()], [unlock()] and the destructor. *)
Definition lock (o : t) : t := if negb (m_locked o) then goto Locking o else o.
Definition unlock (dying : bool) (s : M * t) : M * t :=
  let '(m, o) := s in
  if m_locked o then (release m, goto (Unlocked dying) o)
  else (m, if dying then goto Destroyed o else o).

(** What the owner of an object may call, and a step of the operation under way. *)
Inductive event := Lock | Unlock | Destroy | Step.
Definition step (e : event) (s : M * t) : M * t :=
  let '(m, o) := s in
  match at_ o, e with
  | Outside, Lock => (m, lock o)
  | Outside, Unlock => unlock false s
  | Outside, Destroy => unlock true s
  | Locking, Step => match acquire (kind o) m with Some m => (m, goto Locked o) | None => s end
  | Locked, Step => (m, set_locked true o)
  | Unlocked dying, Step => (m, if dying then goto Destroyed (set_locked false o) else set_locked false o)
  | _, _ => s
  end.

(** Many objects on one lock: one of them takes a step, or a new one is made. *)
Inductive action := At (i : nat) (e : event) | New (k : mode).
Definition act (s : M * list t) (a : action) : M * list t :=
  match a with
  | New k => (s.1, s.2 ++ [make k])
  | At i e =>
      match s.2 !! i with
      | None => s
      | Some o => let '(m, o) := step e (s.1, o) in (m, <[i := o]> s.2)
      end
  end.
Definition run (m : M) (l : list action) : M * list t := foldl act (m, []) l.
End system.
End ScopedLock.

(** ** Semaphores

    [sem_wait] may have to wait, or end with an error when a signal interrupts it; [wait] returns
    in both cases. The counter is that of [sem_t]. *)
Module Semaphore.
Definition SEM_VALUE_MAX : Z := 2 ^ 31 - 1.
Definition make (count : Z) : outcome Z := if SEM_VALUE_MAX <? count then Throw logic_error else Ret count.
Definition wait (interrupted : bool) (n : Z) : option Z :=
  if interrupted then Some n else if 0 <? n then Some (n - 1) else None.
Definition notify (n : Z) : outcome Z := if n =? SEM_VALUE_MAX then Throw logic_error else Ret (n + 1).
End Semaphore.

(** ** Mutual exclusion *)

#[local] Obligation Tactic := idtac.
#[export] Program Instance caslock_laws : LockLaws CASLock.t := {
  held o l := if CASLock.m_mutex o then ∃ k, l = [k] else l = [];
}.
Next Obligation.
  intros m l l' Hp. cbn beta. destruct (CASLock.m_mutex m).
  - intros [k ->]. exists k. by apply Permutation_singleton_l in Hp.
  - intros ->. by apply Permutation_nil_l in Hp.
Qed.
Next Obligation.
  intros [[]] l k m'; cbn; unfold CASLock.lock_round; cbn; [done|]. intros -> [= <-]. cbn. by exists k.
Qed.
Next Obligation. intros [[]] l k; cbn; [intros [? [= -> ->]]|]; done. Qed.
Next Obligation. intros [[]] l; cbn; [intros [k ->] ->%list_elem_of_singleton|intros -> ?%elem_of_nil]; done. Qed.

Lemma caslock_free : held CASLock.make [].
Proof. reflexivity. Qed.

Section exclusion.
Context {M : Type} `{LockLaws M}.
Import ScopedLock.
Implicit Types (o : t) (os : list t).

(** The object has the lock. *)
Definition holds o : bool :=
  match at_ o with Outside => m_locked o | Locked => true | _ => false end.
(** [m_locked] says so, up to the access that is under way. *)
Definition in_order o : Prop :=
  match at_ o with
  | Outside => True
  | Locking | Locked | Destroyed => m_locked o = false
  | Unlocked _ => m_locked o = true
  end.
Definition modes os : list mode := kind <$> filter (fun o => holds o = true) os.
Definition consistent (s : M * list t) : Prop := held s.1 (modes s.2) ∧ Forall in_order s.2.

Lemma modes_app os os' : modes (os ++ os') = modes os ++ modes os'.
Proof. unfold modes. by rewrite filter_app, fmap_app. Qed.
Lemma modes_one o : modes [o] = if holds o then [kind o] else [].
Proof. unfold modes. rewrite filter_cons, filter_nil. by destruct (holds o). Qed.
Lemma modes_insert os i o o' : os !! i = Some o →
  ∃ l, modes os ≡ₚ modes [o] ++ l ∧ modes (<[i := o']> os) ≡ₚ modes [o'] ++ l.
Proof.
  intros Hi. pose proof (lookup_lt_Some _ _ _ Hi). exists (modes (take i os) ++ modes (drop (S i) os)).
  rewrite <- (take_drop_middle os i o Hi) at 1. rewrite insert_take_drop by done.
  rewrite !(cons_middle _ (take i os)), !modes_app, !app_assoc. split; apply Permutation_app_tail, Permutation_app_comm.
Qed.

#[local] Arguments modes : simpl never.

(** One step: what the object holds changes with the lock. *)
Lemma step_consistent e m o l : in_order o → held m (modes [o] ++ l) →
  let s := step e (m, o) in in_order s.2 ∧ held s.1 (modes [s.2] ++ l).
Proof.
  intros Ho Hh. destruct o as [k b p]. rewrite modes_one in Hh. unfold holds, in_order in *. cbn in Hh, Ho.
  destruct p as [| | |dying|], e; cbn; try (rewrite modes_one; done).
  - unfold lock. destruct b; cbn; by rewrite modes_one.
  - destruct b; cbn; rewrite modes_one; cbn; [|done]. split; [done|]. by apply (held_release _ _ k).
  - destruct b; cbn; rewrite modes_one; cbn; [|done]. split; [done|]. by apply (held_release _ _ k).
  - destruct (acquire k m) as [m'|] eqn:E; cbn; rewrite modes_one; cbn; [|done]. split; [done|].
    by eapply held_acquire.
  - by destruct dying; cbn; rewrite modes_one.
Qed.

Lemma act_consistent s a : consistent s → consistent (act s a).
Proof.
  intros [Hh Ho]. destruct a as [i e|k]; cbn [act].
  - destruct (s.2 !! i) as [o|] eqn:Hi; [|done].
    pose proof (proj1 (Forall_lookup _ _) Ho _ _ Hi) as Hoi.
    destruct (step e (s.1, o)) as [m' o'] eqn:E.
    destruct (modes_insert s.2 i o o' Hi) as (l & Hl & Hl').
    destruct (step_consistent e s.1 o l Hoi) as [Ho' Hh']; [by eapply held_perm|]. rewrite E in Ho', Hh'.
    split; cbn; [by eapply held_perm; [symmetry|]|by apply Forall_insert].
  - split; cbn; [by rewrite modes_app, modes_one, app_nil_r|apply Forall_app; split; [done|by repeat constructor]].
Qed.

Lemma run_consistent m l : held m [] → consistent (run m l).
Proof.
  intros Hm. unfold run. assert (consistent (m, [])) as Hc by (split; [done|constructor]).
  generalize dependent (m, @nil t). induction l as [|a l IH]; intros s Hs; [done|]. by apply IH, act_consistent.
Qed.

(** C23. Scoped locks exclude each other: on a lock that keeps its contract, however the operations of
    any number of scoped locks interleave, an object that has the lock for writing is the only one
    that has it, and m_locked of every object that is not inside an operation says whether it has
    it; when all are destroyed the lock is free. *)
Theorem scoped_locks_exclude m actions i j oi oj :
  held m [] → let s := run m actions in
  s.2 !! i = Some oi → s.2 !! j = Some oj →
  (holds oi = true → holds oj = true → kind oi = Exclusive → i = j)
  ∧ (at_ oi = Outside → holds oi = m_locked oi)
  ∧ (Forall (λ o, at_ o = Destroyed) s.2 → held s.1 []).
Proof.
  intros Hm s Hi Hj. destruct (run_consistent m actions Hm) as [Hh Ho]. fold s in Hh, Ho. split; [|split].
  - intros Hhi Hhj Hk. destruct (decide (i = j)) as [|Hne]; [done|exfalso].
    destruct (modes_insert s.2 i oi (goto Destroyed oi) Hi) as (l & Hl & Hl').
    destruct (modes_insert (<[i := goto Destroyed oi]> s.2) j oj oj) as (l2 & Hl2 & _);
      [by rewrite list_lookup_insert_ne|].
    rewrite modes_one in Hl, Hl', Hl2. rewrite Hhi in Hl. rewrite Hhj in Hl2.
    change (holds (goto Destroyed oi)) with false in Hl'. cbn [app] in Hl, Hl', Hl2.
    rewrite Hl' in Hl2. pose proof (held_perm _ _ _ Hl Hh) as Hh'.
    apply held_exclusive in Hh'; [|rewrite Hk; by left]. rewrite Hk in Hh'. injection Hh' as ->.
    by apply Permutation_nil_cons in Hl2.
  - unfold holds. by intros ->.
  - intros Hd. replace (modes s.2) with (@nil mode) in Hh; [done|].
    unfold modes. rewrite list_filter_none; [done|]. eapply Forall_impl; [exact Hd|].
    intros o Hod. unfold holds. rewrite Hod. done.
Qed.
End exclusion.

(** Two objects on a CASLock: the second waits until the first gives the lock back. *)
Definition two_locks : list ScopedLock.action :=
  [ScopedLock.New Exclusive; ScopedLock.New Exclusive; ScopedLock.At 0 ScopedLock.Step;
   ScopedLock.At 1 ScopedLock.Step; ScopedLock.At 0 ScopedLock.Step].
Definition both_end : list ScopedLock.action :=
  [ScopedLock.At 0 ScopedLock.Destroy; ScopedLock.At 1 ScopedLock.Step; ScopedLock.At 0 ScopedLock.Step;
   ScopedLock.At 1 ScopedLock.Step; ScopedLock.At 1 ScopedLock.Destroy; ScopedLock.At 1 ScopedLock.Step].
Definition first_has : ScopedLock.t := ScopedLock.mk Exclusive true ScopedLock.Outside.
Definition second_waits : ScopedLock.t := ScopedLock.mk Exclusive false ScopedLock.Locking.
Lemma scoped_locks_exclude_witness :
  ScopedLock.run CASLock.make two_locks = (CASLock.mk true, [first_has; second_waits])
  ∧ (holds second_waits = true → False)
  ∧ held (ScopedLock.run CASLock.make (two_locks ++ both_end)).1 [].
Proof.
  split; [reflexivity|]. split.
  - intros H2. discriminate (proj1 (scoped_locks_exclude CASLock.make two_locks 0 1 _ _
      caslock_free eq_refl eq_refl) eq_refl H2 eq_refl).
  - apply (scoped_locks_exclude CASLock.make (two_locks ++ both_end) 0 0 _ _
      caslock_free eq_refl eq_refl). vm_compute. repeat constructor.
Defined.
