(* ===== verification/Threads.v ===== *)
(** * Threads (sylar/thread.h, sylar/thread.cpp)

    The constructor starts a thread of the system and waits on a semaphore until that thread has
    set itself up; the thread then runs the callback. The two run at the same time: a state has the
    object and the place of each, and a step is one statement of either. *)

From S2P Require Import Prelude CString Locks.

Module Thread.
Section thread.
Context {Cb : Type}.

Record t := mk {
  m_id : Z;
  m_thread : Z;
  m_cb : option Cb;
  m_name : list byte;
  m_semaphore : Z;
}.
(** The thread-local variables of a thread: its object, and the name of the running thread. *)
Record TLS := mkTLS { t_thread : bool; t_thread_name : list byte }.
Definition no_thread : TLS := mkTLS false (lit "SomeDay").

Definition make (cb : Cb) (name : list byte) : t :=
  mk (-1) 0 (Some cb) (match name with [] => lit "SomeDay" | _ => name end) 0.
Definition set_id (v : Z) (o : t) : t := mk v (m_thread o) (m_cb o) (m_name o) (m_semaphore o).
Definition set_thread (v : Z) (o : t) : t := mk (m_id o) v (m_cb o) (m_name o) (m_semaphore o).
Definition set_cb (v : option Cb) (o : t) : t := mk (m_id o) (m_thread o) v (m_name o) (m_semaphore o).
Definition set_name (v : list byte) (o : t) : t := mk (m_id o) (m_thread o) (m_cb o) v (m_semaphore o).
Definition set_semaphore (v : Z) (o : t) : t := mk (m_id o) (m_thread o) (m_cb o) (m_name o) v.
Definition getId (o : t) : Z := m_id o.
Definition getName (o : t) : list byte := m_name o.

Definition GetThis (l : TLS) : bool := t_thread l.
Definition GetName (l : TLS) : list byte := t_thread_name l.
(** [SetName(name)] in a thread whose object, if it has one, is [o]. *)
Definition SetName (name : list byte) (l : TLS) (o : t) : TLS * t :=
  (mkTLS (t_thread l) name, if t_thread l then set_name name o else o).

(** [join()] and the destructor: whether [pthread_join] or [pthread_detach] is called. *)
Definition join (o : t) : bool * t := if m_thread o =? 0 then (false, o) else (true, set_thread 0 o).
Definition destroy (o : t) : bool := negb (m_thread o =? 0).

(** Where the constructor is: before [pthread_create]; waiting; returned. *)
Inductive creator := Creating | Waiting | Returned.
(** Where [run] is: not started; before each of its statements; after the callback. *)
Inductive runner :=
  | NotStarted | SetThis | SetThreadName | SetId | SetSystemName | Swap | Notify (cb : option Cb)
  | Call (cb : option Cb) | Ended.

Record state := mkS {
  this : t;
  constructor : creator;
  running : runner;
  local : TLS;
  system_name : list byte;
  calls : list (option Cb);
}.
Definition start (cb : Cb) (name : list byte) : state :=
  mkS (make cb name) Creating NotStarted no_thread [] [].

(** [pthread_create] gives the thread [handle] or fails; [tid] is what [gettid] answers in it.
    [interrupted] is whether a signal ends [sem_wait]. *)
Inductive event := Create (handle : option Z) | Wait (interrupted : bool) | Run.

Definition run (tid : Z) (s : state) : state :=
  let o := this s in
  let goto r l o := mkS o (constructor s) r l (system_name s) (calls s) in
  match running s with
  | NotStarted | Ended => s
  | SetThis => goto SetThreadName (mkTLS true (t_thread_name (local s))) o
  | SetThreadName => goto SetId (mkTLS (t_thread (local s)) (m_name o)) o
  | SetId => goto SetSystemName (local s) (set_id tid o)
  | SetSystemName => mkS o (constructor s) Swap (local s) (c_str (take 15 (m_name o))) (calls s)
  | Swap => goto (Notify (m_cb o)) (local s) (set_cb None o)
  | Notify cb =>
      match Semaphore.notify (m_semaphore o) with
      | Ret n => goto (Call cb) (local s) (set_semaphore n o)
      | _ => s
      end
  | Call cb => mkS o (constructor s) Ended (local s) (system_name s) (calls s ++ [cb])
  end.

Definition step (tid : Z) (s : state) (e : event) : state :=
  let o := this s in
  match e with
  | Create handle =>
      match constructor s with
      | Creating =>
          mkS (match handle with Some h => set_thread h o | None => o end) Waiting
            (match handle with Some _ => SetThis | None => NotStarted end) (local s) (system_name s) (calls s)
      | _ => s
      end
  | Wait interrupted =>
      match constructor s with
      | Waiting =>
          match Semaphore.wait interrupted (m_semaphore o) with
          | Some n => mkS (set_semaphore n o) Returned (running s) (local s) (system_name s) (calls s)
          | None => s
          end
      | _ => s
      end
  | Run => run tid s
  end.
Definition steps (tid : Z) (es : list event) (s : state) : state := foldl (step tid) s es.

(** ** What holds at every moment *)

(** The thread has notified the constructor. *)
Definition ready (r : runner) : bool := match r with Call _ | Ended => true | _ => false end.
Definition set_up (tid : Z) (s : state) : Prop :=
  m_id (this s) = tid ∧ m_cb (this s) = None ∧ t_thread (local s) = true
  ∧ t_thread_name (local s) = m_name (this s) ∧ system_name s = c_str (take 15 (m_name (this s))).
(** What the thread has done so far; it has called the callback at its end. *)
Definition progress (tid : Z) (cb : Cb) (s : state) : Prop :=
  let o := this s in
  match running s with
  | NotStarted | SetThis => m_cb o = Some cb ∧ calls s = []
  | SetThreadName => m_cb o = Some cb ∧ calls s = [] ∧ t_thread (local s) = true
  | SetId => m_cb o = Some cb ∧ calls s = [] ∧ t_thread (local s) = true ∧ t_thread_name (local s) = m_name o
  | SetSystemName => m_cb o = Some cb ∧ calls s = [] ∧ t_thread (local s) = true
      ∧ t_thread_name (local s) = m_name o ∧ m_id o = tid
  | Swap => m_cb o = Some cb ∧ calls s = [] ∧ t_thread (local s) = true
      ∧ t_thread_name (local s) = m_name o ∧ m_id o = tid ∧ system_name s = c_str (take 15 (m_name o))
  | Notify c | Call c => c = Some cb ∧ calls s = [] ∧ set_up tid s
  | Ended => calls s = [Some cb] ∧ set_up tid s
  end.

(** [quiet]: no signal has interrupted the wait so far. *)
Record inv (tid : Z) (cb : Cb) (name : list byte) (quiet : bool) (s : state) : Prop := {
  inv_progress : progress tid cb s;
  inv_semaphore : ready (running s) = false → m_semaphore (this s) = 0;
  inv_creating : constructor s = Creating → running s = NotStarted;
  inv_returned : constructor s = Returned → quiet = true → ready (running s) = true;
  inv_name : m_name (this s) = m_name (make cb name);
}.

Definition is_interrupt (e : event) : bool := match e with Wait true => true | _ => false end.

Lemma thread_start_inv tid cb name : inv tid cb name true (start cb name).
Proof. by split. Qed.

Lemma run_inv tid cb name quiet s : inv tid cb name quiet s → inv tid cb name quiet (run tid s).
Proof.
  intros [Hp Hs Hc Hr Hn]. unfold run, progress, set_up in *. destruct s as [o c r l sn cs]. cbn in *.
  destruct r; [by split|..]; try rewrite Hs by done; destruct_and?; subst;
    (split; unfold progress, set_up; cbn; [by repeat split|first [done|by auto|by intros E; apply Hc in E]..]).
Qed.

Lemma thread_step_inv tid cb name quiet s e :
  inv tid cb name quiet s → inv tid cb name (quiet && negb (is_interrupt e)) (step tid s e).
Proof.
  intros Hi. destruct e as [h|i|]; cbn [is_interrupt negb step]; rewrite ?andb_true_r.
  - destruct (constructor s) eqn:Ec; [|done..]. destruct Hi as [Hp Hs Hc Hr Hn].
    rewrite (Hc Ec) in Hs. unfold progress in Hp. rewrite (Hc Ec) in Hp.
    destruct h as [h|]; split; cbn; auto; done.
  - assert (inv tid cb name (quiet && negb (is_interrupt (Wait i))) s) as Hw.
    { destruct Hi as [Hp Hs Hc Hr Hn]. split; [done..| |done]. intros Hret [Hq _]%andb_true_iff. auto. }
    destruct (constructor s) eqn:Ec; [done| |done]. unfold Semaphore.wait.
    destruct Hi as [Hp Hs Hc Hr Hn], i; cbn.
    + split; cbn; [exact Hp|exact Hs|done|by rewrite andb_false_r|done].
    + destruct (0 <? m_semaphore (this s)) eqn:Hz; [|done].
      assert (ready (running s) = true) as Hrd.
      { destruct (ready (running s)) eqn:E; [done|]. rewrite Hs in Hz by done. done. }
      split; cbn; [exact Hp|by rewrite Hrd|done|done|done].
  - by apply run_inv.
Qed.

Lemma steps_inv tid cb name es : ∀ quiet s, inv tid cb name quiet s →
  inv tid cb name (quiet && forallb (λ e, negb (is_interrupt e)) es) (steps tid es s).
Proof.
  induction es as [|e es IH]; intros quiet s Hi; cbn; [by rewrite andb_true_r|].
  rewrite andb_assoc. by apply IH, thread_step_inv.
Qed.

(** The thread ends its statements. *)
Lemma runs_end tid cb name quiet s : inv tid cb name quiet s → running s ≠ NotStarted →
  running (steps tid (replicate 8 Run) s) = Ended.
Proof.
  intros [_ Hs _ _ _] Hr. destruct s as [o c r l sn cs]. cbn in Hs, Hr.
  destruct o as [id th cb' nm sem]. cbn in Hs.
  destruct r; [done|rewrite Hs by done; reflexivity..|reflexivity|reflexivity].
Qed.

Lemma progress_calls tid cb s : progress tid cb s → calls s = [] ∨ calls s = [Some cb].
Proof. unfold progress. destruct (running s); intros Hp; [left; apply Hp..|right; apply Hp]. Qed.
Lemma progress_ended tid cb s : progress tid cb s → running s = Ended → calls s = [Some cb].
Proof. unfold progress. intros Hp Hr. rewrite Hr in Hp. apply Hp. Qed.
Lemma progress_ready tid cb s : progress tid cb s → ready (running s) = true → set_up tid s.
Proof. unfold progress. destruct (running s); intros Hp Hr; try discriminate Hr; apply Hp. Qed.

Lemma steps_app tid es es' s : steps tid (es ++ es') s = steps tid es' (steps tid es s).
Proof. apply foldl_app. Qed.

(** C25. Starting a thread: in every interleaving of the constructor with the new thread the callback is
    called at most once and nothing else is; once the thread exists it gets to its end, with the
    callback called exactly once; and as long as no signal interrupts the wait, a constructor that
    has returned leaves an object with the id of the thread, its name, its callback taken out, and
    the thread-local variables set, while one whose pthread_create failed never returns. *)
Theorem thread_starts tid cb name es :
  let s := steps tid es (start cb name) in
  let quiet := forallb (λ e, negb (is_interrupt e)) es in
  (calls s = [] ∨ calls s = [Some cb])
  ∧ (running s ≠ NotStarted →
      let s' := steps tid (es ++ replicate 8 Run) (start cb name) in
      running s' = Ended ∧ calls s' = [Some cb])
  ∧ (quiet = true → constructor s = Returned → set_up tid s ∧ getName (this s) = m_name (make cb name))
  ∧ (quiet = true → running s = NotStarted → constructor s ≠ Returned).
Proof.
  intros s quiet. pose proof (steps_inv tid cb name es true _ (thread_start_inv tid cb name)) as Hi.
  cbn [andb] in Hi. fold s quiet in Hi. split; [|split; [|split]].
  - by eapply progress_calls, inv_progress.
  - intros Hr s'. unfold s'. rewrite steps_app. fold s. pose proof (runs_end _ _ _ _ _ Hi Hr) as Hend.
    split; [exact Hend|]. eapply progress_ended, Hend. eapply inv_progress, steps_inv, Hi.
  - intros Hq Hret. split; [|apply (inv_name _ _ _ _ _ Hi)].
    eapply progress_ready; [by eapply inv_progress|]. by apply (inv_returned _ _ _ _ _ Hi).
  - intros Hq Hns Hret. pose proof (inv_returned _ _ _ _ _ Hi Hret Hq) as Hr. rewrite Hns in Hr. discriminate.
Qed.
End thread.
End Thread.

(** The constructor waits, the thread sets itself up, and both go on. *)
Definition handshake : list Thread.event :=
  [Thread.Create (Some 5); Thread.Wait false; Thread.Run; Thread.Run; Thread.Run; Thread.Run; Thread.Run;
   Thread.Run; Thread.Wait false].
Lemma thread_starts_witness :
  let s := Thread.steps 77 handshake (Thread.start 3%nat (lit "io")) in
  Thread.constructor s = Thread.Returned ∧ Thread.calls s = []
  ∧ Thread.getName (Thread.this s) = lit "io" ∧ Thread.set_up 77 s
  ∧ Thread.calls (Thread.steps 77 (handshake ++ replicate 8 Thread.Run) (Thread.start 3%nat (lit "io"))) = [Some 3%nat].
Proof.
  intros s. destruct (Thread.thread_starts 77 3%nat (lit "io") handshake) as (_ & H1 & H2 & _).
  split; [reflexivity|]. split; [reflexivity|]. split; [reflexivity|].
  split; [exact (proj1 (H2 eq_refl eq_refl))|]. apply H1. vm_compute. discriminate.
Defined.

(** A signal ends the wait: the constructor returns an object without an id. *)
Lemma interrupted_constructor :
  let s := Thread.steps 77 [Thread.Create (Some 5); Thread.Wait true] (Thread.start 3%nat (lit "io")) in
  Thread.constructor s = Thread.Returned ∧ Thread.getId (Thread.this s) = -1.
Proof. split; reflexivity. Qed.
