(* ===== verification/Limits.v ===== *)
(** * The configured sizes of the HTTP parsers (sylar/http/http_parser.cpp)

    Four variables of the configuration, each with a static copy that a callback keeps up to date.
    The rest of the program declares variables of its own in the same registry, with values and
    callbacks of its own, also on these four. *)

From S2P Require Import Prelude CString StdOrdered Config ConfigProps.

Inductive limit := RequestBuffer | RequestBody | ResponseBuffer | ResponseBody.
#[export] Instance limit_eq_dec : EqDecision limit.
Proof. solve_decision. Defined.

Definition limit_name (l : limit) : list byte :=
  match l with
  | RequestBuffer => lit "http.request.buffer_size"
  | RequestBody => lit "http.request.max_body_size"
  | ResponseBuffer => lit "http.response.buffer_size"
  | ResponseBody => lit "http.response.max_body_size"
  end.
Definition limit_default (l : limit) : Z :=
  match l with
  | RequestBuffer | ResponseBuffer => u64 (4 * 1024)
  | RequestBody | ResponseBody => u64 (64 * 1024 * 1024)
  end.
Definition limit_text (l : limit) : list byte :=
  match l with
  | RequestBuffer => lit "http request buffer size"
  | RequestBody => lit "http request max body size"
  | ResponseBuffer => lit "http response buffer size"
  | ResponseBody => lit "http response max body size"
  end.
Definition limits : list limit := [RequestBuffer; RequestBody; ResponseBuffer; ResponseBody].

(** The four static copies. *)
Record sizes := mkSizes {
  s_http_request_buffer_size : Z;
  s_http_request_max_body_size : Z;
  s_http_response_buffer_size : Z;
  s_http_response_max_body_size : Z;
}.
Definition no_sizes : sizes := mkSizes 0 0 0 0.
Definition size_of (l : limit) (s : sizes) : Z :=
  match l with
  | RequestBuffer => s_http_request_buffer_size s
  | RequestBody => s_http_request_max_body_size s
  | ResponseBuffer => s_http_response_buffer_size s
  | ResponseBody => s_http_response_max_body_size s
  end.
Definition set_size (l : limit) (v : Z) (s : sizes) : sizes :=
  match l with
  | RequestBuffer => mkSizes v (s_http_request_max_body_size s) (s_http_response_buffer_size s) (s_http_response_max_body_size s)
  | RequestBody => mkSizes (s_http_request_buffer_size s) v (s_http_response_buffer_size s) (s_http_response_max_body_size s)
  | ResponseBuffer => mkSizes (s_http_request_buffer_size s) (s_http_request_max_body_size s) v (s_http_response_max_body_size s)
  | ResponseBody => mkSizes (s_http_request_buffer_size s) (s_http_request_max_body_size s) (s_http_response_buffer_size s) v
  end.

Definition GetHttpRequestBufferSize (s : sizes) : Z := s_http_request_buffer_size s.
Definition GetHttpRequestMaxBodySize (s : sizes) : Z := s_http_request_max_body_size s.
Definition GetHttpResponseBufferSize (s : sizes) : Z := s_http_response_buffer_size s.
Definition GetHttpResponseMaxBodySize (s : sizes) : Z := s_http_response_max_body_size s.

(** The types of a program's variables: numbers ([uint64_t]) and others. *)
Inductive num_or (Ty : Type) := Other (T : Ty) | U64.
Arguments Other {Ty} T.
Arguments U64 {Ty}.
#[export] Instance num_or_eq_dec {Ty} `{EqDecision Ty} : EqDecision (num_or Ty).
Proof. solve_decision. Defined.
#[export] Instance num_or_countable {Ty} `{Countable Ty} : Countable (num_or Ty).
Proof.
  refine (inj_countable' (fun T => match T with Other T => Some T | U64 => None end)
    (fun o => match o with Some T => Other T | None => U64 end) _). by intros [].
Defined.

Section limits.
(** The types, values, callbacks and world of the rest of the program. *)
Context {Ty : Type} `{Countable Ty} (Val' Cb' : Ty → Type) `{∀ T, EqDecision (Val' T)}.
Context {CbNum W' : Type}.

Definition Val (T : num_or Ty) : Type := match T with U64 => Z | Other T => Val' T end.
#[export] Instance Val_eq_dec T : EqDecision (Val T).
Proof. destruct T; cbn; apply _. Defined.
(** The callbacks on numbers: the four lambdas here, and others. *)
Definition Cb (T : num_or Ty) : Type := match T with U64 => limit + CbNum | Other T => Cb' T end.
Definition W : Type := sizes * W'.

Context (call_num : CbNum → Z → Z → W' → outcome unit * W').
Context (call_other : ∀ T, Cb' T → Val' T → Val' T → W' → outcome unit * W').
Definition callback (T : num_or Ty) : Cb T → Val T → Val T → W → outcome unit * W :=
  match T with
  | U64 => fun cb ov nv w =>
      match cb with
      | inl l => (Ret tt, (set_size l nv w.1, w.2))
      | inr cb => let '(r, w') := call_num cb ov nv w.2 in (r, (w.1, w'))
      end
  | Other T => fun cb ov nv w => let '(r, w') := call_other T cb ov nv w.2 in (r, (w.1, w'))
  end.

Abbreviation state := (Config.t Val Cb (W := W)).
Implicit Types (s : state).

(** The static variables of the file: a lookup, and [_RequestSizeIniter] for one of them. *)
Definition declare (l : limit) (addr : Z) : ST state (option Z) :=
  Config.Lookup Val Cb U64 (limit_name l) (limit_default l) (limit_text l) addr.
Definition copy (l : limit) (p : Z) : ST state unit :=
  v ← Config.getValue Val Cb U64 p;
  modify (fun s => Config.mk Val Cb (Config.datas Val Cb s) (Config.vars Val Cb s) (Config.s_fun_id Val Cb s)
                     (set_size l v (Config.world Val Cb s).1, (Config.world Val Cb s).2)).
Definition listen (l : limit) (p : Z) : ST state unit :=
  _ ← Config.addListener Val Cb U64 p (inl l); mret tt.

Fixpoint declare_all (ls : list limit) (addr : limit → Z) : ST state (list (limit * Z)) :=
  match ls with
  | [] => mret []
  | l :: ls => p ← declare l (addr l); p ← lift (deref p); ps ← declare_all ls addr; mret ((l, p) :: ps)
  end.
Fixpoint for_each (f : limit → Z → ST state unit) (ps : list (limit * Z)) : ST state unit :=
  match ps with [] => mret tt | x :: ps => f x.1 x.2;; for_each f ps end.
(** The initialisation of the file's static objects. A null pointer would be used at once. *)
Definition init (addr : limit → Z) : ST state unit :=
  ps ← declare_all limits addr; for_each copy ps;; for_each listen ps.
End limits.

(** ** The static copies follow the configuration *)

Section limits.
Context {Ty : Type} `{Countable Ty} {Val' Cb' : Ty → Type} `{∀ T, EqDecision (Val' T)}.
Context {CbNum W' : Type}.
Context (call_num : CbNum → Z → Z → W' → outcome unit * W').
Context (call_other : ∀ T, Cb' T → Val' T → Val' T → W' → outcome unit * W').
Context (FromStr : ∀ T, list byte → outcome (Val Val' T)).
Context {Node : Type} `{Yaml Node}.
Abbreviation Val := (Val Val').
Abbreviation Cb := (Cb (CbNum := CbNum) Cb').
Abbreviation call := (callback Val' Cb' call_num call_other).
Abbreviation state := (Config.t Val Cb (W := W (W' := W'))).
Abbreviation datas := (Config.datas Val Cb).
Abbreviation vars := (Config.vars Val Cb).
Abbreviation numvar := (ConfigVar.t Z (limit + CbNum)).
Implicit Types (s : state) (o : numvar).

(** The variable at an address, when it is a number; the copies; the counter of callbacks. *)
Definition num_var s (p : Z) : option numvar := vars s !! p ≫= Config.cast Val Cb U64.
Definition sizes_of s : sizes := (Config.world Val Cb s).1.
Definition counter s : Z := default 0 (Config.s_fun_id Val Cb s !! U64).

Lemma cast_same o : Config.cast Val Cb U64 (Config.Any Val Cb U64 o) = Some o.
Proof.
  unfold Config.cast. cbn. destruct (decide (@U64 Ty = U64)) as [E|]; [|done]. by rewrite (proof_irrel E eq_refl).
Qed.
Lemma cast_other (T : Ty) v : Config.cast Val Cb U64 (Config.Any Val Cb (Other T) v) = None.
Proof. unfold Config.cast. cbn. by destruct (decide (Other T = U64)). Qed.

(** ** Setting a number *)

Fixpoint mine (l : limit) (cbs : list (Z * (limit + CbNum))) : bool :=
  match cbs with
  | [] => false
  | (_, inl l') :: cbs => bool_decide (l' = l) || mine l cbs
  | (_, inr _) :: cbs => mine l cbs
  end.
Lemma mine_true l cbs : mine l cbs = true ↔ ∃ id, (id, inl l) ∈ cbs.
Proof.
  induction cbs as [|[id [l'|cb]] cbs IH]; cbn [mine].
  - split; [done|]. by intros [? ?%elem_of_nil].
  - rewrite orb_true_iff, bool_decide_eq_true, IH. split.
    + intros [->|[i Hi]]; [exists id; left|exists i; by right].
    + intros [i [[= -> ->]|Hi]%elem_of_cons]; [by left|right; by exists i].
  - rewrite IH. split; [intros [i Hi]; exists i; by right|].
    intros [i [?|Hi]%elem_of_cons]; [done|by exists i].
Qed.

Lemma size_of_set l l' v z : size_of l (set_size l' v z) = if bool_decide (l' = l) then v else size_of l z.
Proof. by destruct l, l'. Qed.

(** Callbacks that never fail: the four lambdas, and those of the others that always return. *)
Definition quiet (cb : limit + CbNum) : Prop :=
  match cb with inl _ => True | inr cb => ∀ ov nv w, (call_num cb ov nv w).1 = Ret tt end.

(** One of the four sizes. *)
Section one_size.
Context (l : limit).

(** When its callback is among those of a variable, none of these fails. *)
Definition careful (cbs : list (Z * (limit + CbNum))) : Prop := mine l cbs = true → Forall (λ i, quiet i.2) cbs.

(** The copy gets the new value when its callback is called; callbacks on other variables may
    fail, which leaves the copy alone. *)
Lemma notify_quiet cbs ov nv (o : numvar) : Forall (λ i, quiet i.2) cbs → ∀ w : W (W' := W'),
  ∃ w', ConfigVar.notify (T := Z) (Cb := limit + CbNum) (call U64) cbs ov nv (o, w) = (Ret tt, (o, w'))
    ∧ size_of l w'.1 = if mine l cbs then nv else size_of l w.1.
Proof.
  induction 1 as [|[id cb] cbs Hq _ IH]; intros w; [by exists w|].
  cbn [ConfigVar.notify]. unfold mbind, st_bind. cbn [fst snd] in *.
  destruct cb as [l0|cb]; cbn [Limits.callback mine].
  - destruct (IH (set_size l0 nv w.1, w.2)) as (w' & E & Hw). exists w'. split; [exact E|].
    rewrite Hw. cbn [fst]. rewrite size_of_set. by destruct (mine l cbs), (bool_decide (l0 = l)).
  - pose proof (Hq ov nv w.2) as Hr. destruct (call_num cb ov nv w.2) as [r w2]. cbn in Hr. subst r.
    destruct (IH (w.1, w2)) as (w' & E & Hw). by exists w'.
Qed.

Lemma notify_not_mine cbs ov nv (o : numvar) : mine l cbs = false → ∀ w : W (W' := W'),
  ∃ r w', ConfigVar.notify (T := Z) (Cb := limit + CbNum) (call U64) cbs ov nv (o, w) = (r, (o, w'))
    ∧ size_of l w'.1 = size_of l w.1.
Proof.
  induction cbs as [|[id cb] cbs IH]; intros Hm w; [by exists (Ret tt), w|].
  cbn [ConfigVar.notify]. unfold mbind, st_bind. cbn [fst snd] in *.
  destruct cb as [l0|cb]; cbn [Limits.callback mine] in *.
  - apply orb_false_iff in Hm as [Hl Hm].
    destruct (IH Hm (set_size l0 nv w.1, w.2)) as (r & w' & E & Hw). exists r, w'. split; [exact E|].
    rewrite Hw. cbn [fst]. by rewrite size_of_set, Hl.
  - destruct (call_num cb ov nv w.2) as [r w2]. destruct r; [|by eexists _, (w.1, w2)..].
    destruct (IH Hm (w.1, w2)) as (r & w' & E & Hw). by exists r, w'.
Qed.

(** Setting a number, to [v], or not at all. *)
Definition number_set (o : numvar) (v : Z) (w w' : W (W' := W')) : Prop :=
  size_of l w'.1
  = if mine l (ConfigVar.m_cbs o) && negb (bool_decide (v = ConfigVar.m_val o)) then v else size_of l w.1.

Lemma number_kept (o : numvar) w w' : size_of l w'.1 = size_of l w.1 → number_set o (ConfigVar.m_val o) w w'.
Proof. intros E. unfold number_set. by rewrite bool_decide_true, andb_false_r. Qed.

Lemma setValue_num v (o : numvar) (w : W (W' := W')) : careful (ConfigVar.m_cbs o) →
  ∃ r v' w', ConfigVar.setValue (T := Z) (Cb := limit + CbNum) (call U64) v (o, w)
        = (r, (ConfigVar.set_val v' o, w')) ∧ number_set o v' w w'.
Proof.
  intros Hc. unfold ConfigVar.setValue, gets, mbind, st_bind. cbn [fst snd].
  destruct (decide (v = ConfigVar.m_val o)) as [->|Hv].
  { eexists _, (ConfigVar.m_val o), w. split; [by destruct o|]. by apply number_kept. }
  destruct (mine l (ConfigVar.m_cbs o)) eqn:Hm.
  - destruct (notify_quiet (ConfigVar.m_cbs o) (ConfigVar.m_val o) v o (Hc Hm) w) as (w' & E & Hw). rewrite E.
    eexists _, v, w'. split; [done|]. unfold number_set. rewrite Hw, Hm. by rewrite bool_decide_false.
  - destruct (notify_not_mine (ConfigVar.m_cbs o) (ConfigVar.m_val o) v o Hm w) as (r & w' & E & Hw). rewrite E.
    destruct r; [by eexists _, v, w'; split; [|unfold number_set; rewrite Hm, Hw]|..];
      (eexists _, (ConfigVar.m_val o), w'; split; [by destruct o|by apply number_kept]).
Qed.

(** ** What holds while the program runs *)

Record follows s : Prop := {
  fol_own : ∃ p o, datas s !! limit_name l = Some p ∧ num_var s p = Some o
    ∧ mine l (ConfigVar.m_cbs o) = true ∧ size_of l (sizes_of s) = ConfigVar.m_val o;
  fol_cbs p o : num_var s p = Some o → mine l (ConfigVar.m_cbs o) = true → datas s !! limit_name l = Some p;
  fol_quiet p o : num_var s p = Some o → careful (ConfigVar.m_cbs o);
  fol_ids p o : num_var s p = Some o → Forall (λ i, i.1 <= counter s) (ConfigVar.m_cbs o);
}.

(** The steps of the rest of the program that spare one size: the callback of this size is not taken
    away, and no callback that may fail is put on its variable. What happens to the other three
    sizes and to all other variables is not restricted. The lambdas have no name, so nobody adds
    them again; and the counter of callbacks does not wrap around. *)
Inductive other_step : state → state → Prop :=
| other_Lookup T name v d addr s r s' :
    vars s !! addr = None → Config.Lookup Val Cb T name v d addr s = (r, s') → other_step s s'
| other_setValue T p v s r s' : Config.setValue Val Cb call T p v s = (r, s') → other_step s s'
| other_fromString p val s r s' : Config.fromString Val Cb FromStr call p val s = (r, s') → other_step s s'
| other_LoadFromYaml fuel (root : Node) s r s' :
    Config.LoadFromYaml Val Cb FromStr call fuel root s = (r, s') → other_step s s'
| other_addListener p (cb : CbNum) s r s' :
    0 <= counter s → counter s + 1 < 2 ^ 64 →
    (datas s !! limit_name l = Some p → quiet (inr cb)) →
    Config.addListener Val Cb U64 p (inr cb) s = (r, s') → other_step s s'
| other_delListener p key s r s' :
    (∀ o, num_var s p = Some o → (key, inl l) ∉ ConfigVar.m_cbs o) →
    Config.delListener Val Cb U64 p key s = (r, s') → other_step s s'
| other_clearListener p s r s' :
    datas s !! limit_name l ≠ Some p →
    Config.clearListener Val Cb U64 p s = (r, s') → other_step s s'
| other_addListener_other (T : Ty) p (cb : Cb (Other T)) s r s' :
    Config.addListener Val Cb (Other T) p cb s = (r, s') → other_step s s'
| other_delListener_other (T : Ty) p key s r s' :
    Config.delListener Val Cb (Other T) p key s = (r, s') → other_step s s'
| other_clearListener_other (T : Ty) p s r s' :
    Config.clearListener Val Cb (Other T) p s = (r, s') → other_step s s'
| other_world s w' :
    other_step s (Config.mk Val Cb (datas s) (vars s) (Config.s_fun_id Val Cb s) (sizes_of s, w')).

Lemma num_var_insert p a w s q :
  num_var (Config.set_var Val Cb p a w s) q = if decide (q = p) then Config.cast Val Cb U64 a else num_var s q.
Proof. unfold num_var. cbn. case_decide; subst; by simplify_map_eq. Qed.

(** A number is set. *)
Lemma set_number_follows p o v (w : W (W' := W')) s :
  follows s → num_var s p = Some o → number_set o v (Config.world Val Cb s) w →
  follows (Config.set_var Val Cb p (Config.Any Val Cb U64 (ConfigVar.set_val v o : ConfigVar.t (Val U64) (Cb U64))) w s).
Proof.
  unfold number_set. change ((Config.world Val Cb s).1) with (sizes_of s).
  intros [Hown Hcbs Hquiet Hids] Hp Hw. split.
  - destruct Hown as (q & oq & Hd & Hq & Hm & Hv). setoid_rewrite num_var_insert. cbn.
    unfold sizes_of at 1. cbn. rewrite Hw. destruct (decide (q = p)) as [->|Hne].
    + assert (oq = o) as -> by congruence. exists p, (ConfigVar.set_val v o). rewrite decide_True, cast_same by done.
      split; [done|]. split; [done|]. split; [done|]. cbn. rewrite Hm. cbn.
      case_bool_decide as E; cbn; [by rewrite Hv|done].
    + exists q, oq. rewrite decide_False by done. split; [done|]. split; [done|]. split; [done|].
      destruct (mine l (ConfigVar.m_cbs o)) eqn:Hml; cbn; [|done].
      pose proof (Hcbs _ _ Hp Hml). congruence.
  - intros q oq. rewrite num_var_insert. destruct (decide (q = p)) as [->|Hne]; [|apply Hcbs].
    rewrite cast_same. intros [= <-] Hm. exact (Hcbs p o Hp Hm).
  - intros q oq. rewrite num_var_insert. destruct (decide (q = p)) as [->|Hne]; [|apply Hquiet].
    rewrite cast_same. intros [= <-]. exact (Hquiet p o Hp).
  - intros q oq. rewrite num_var_insert. destruct (decide (q = p)) as [->|Hne]; [|apply Hids].
    rewrite cast_same. intros [= <-]. exact (Hids p o Hp).
Qed.

(** A variable of another type changes, and the world beside the copies. *)
Lemma set_other_follows p (T : Ty) (v : ConfigVar.t (Val (Other T)) (Cb (Other T))) w s :
  follows s → num_var s p = None → w.1 = sizes_of s →
  follows (Config.set_var Val Cb p (Config.Any Val Cb (Other T) v) w s).
Proof.
  intros [Hown Hcbs Hquiet Hids] Hp Hw. split.
  - destruct Hown as (q & oq & Hd & Hq & Hm & Hv). exists q, oq.
    rewrite num_var_insert, decide_False by congruence. unfold sizes_of. cbn. by rewrite Hw.
  - intros q oq. rewrite num_var_insert. destruct (decide (q = p)) as [->|Hne]; [by rewrite cast_other|apply Hcbs].
  - intros q oq. rewrite num_var_insert. destruct (decide (q = p)) as [->|Hne]; [by rewrite cast_other|apply Hquiet].
  - intros q oq. rewrite num_var_insert. destruct (decide (q = p)) as [->|Hne]; [by rewrite cast_other|apply Hids].
Qed.

(** Callbacks on other types leave the copies alone. *)
Lemma setValue_other (T : Ty) v x r y :
  ConfigVar.setValue (call (Other T)) v x = (r, y) → y.2.1 = x.2.1.
Proof.
  assert (∀ cbs ov nv x r y, ConfigVar.notify (call (Other T)) cbs ov nv x = (r, y) → y.2.1 = x.2.1) as Hn.
  { clear. intros cbs ov nv. induction cbs as [|i cbs IH]; intros x r y E; cbn [ConfigVar.notify] in E.
    { unfold mret, st_ret in E. by simplify_eq. }
   
    unfold mbind, st_bind in E. cbn [fst snd Limits.callback] in E. destruct (call_other _ _ _ _ _) as [z w'].
    destruct z; simplify_eq; [|done..]. by apply IH in E. }
  unfold ConfigVar.setValue, gets, modify, mbind, st_bind, mret, st_ret. cbn [fst snd]. destruct (decide _); [by intros [= <- <-]|].
  destruct (ConfigVar.notify _ _ _ _ _) as [z x'] eqn:E. apply Hn in E.
  destruct z; intros; by simplify_eq/=.
Qed.

Definition keeps {A : Type} (m : ST state A) : Prop := ∀ s r s', follows s → m s = (r, s') → follows s'.
Lemma keeps_pure {A : Type} (m : ST state A) : (∀ s, (m s).2 = s) → keeps m.
Proof. intros Hm s r s' Hs E. specialize (Hm s). rewrite E in Hm. by subst. Qed.
Lemma keeps_bind {A B : Type} (m : ST state A) (f : A → ST state B) :
  keeps m → (∀ v, keeps (f v)) → keeps (m ≫= f).
Proof.
  intros Hm Hf s r s' Hs E. unfold mbind, st_bind in E. destruct (m s) as [z s1] eqn:Em.
  apply Hm in Em; [|done]. destruct z; simplify_eq; try done. by eapply Hf.
Qed.

Lemma Config_setValue_keeps T p v : keeps (Config.setValue Val Cb call T p v).
Proof.
  intros s r s' Hs E. unfold Config.setValue, Config.on_typed in E.
  destruct (vars s !! p ≫= Config.cast Val Cb T) as [o|] eqn:Hp; [|by simplify_eq].
  destruct T as [T|].
  - destruct (ConfigVar.setValue _ _ _) as [z [o' w']] eqn:Es. apply setValue_other in Es. simplify_eq.
    apply set_other_follows; [done| |done]. apply bind_Some in Hp as (a & Ha & ->%cast_spec).
    unfold num_var. rewrite Ha. apply cast_other.
  - destruct (setValue_num v o (Config.world Val Cb s)) as (z & v' & w' & Es & Hw); [by apply (fol_quiet _ Hs p)|].
    assert (s' = Config.set_var Val Cb p (Config.Any Val Cb U64 (ConfigVar.set_val v' o : ConfigVar.t (Val U64) (Cb U64))) w' s) as ->.
    { match type of E with context [@ConfigVar.setValue ?T ?C ?d ?w ?c ?x ?st] =>
        assert (@ConfigVar.setValue T C d w c x st = (z, (ConfigVar.set_val v' o, w'))) as Es' by exact Es
      end.
      rewrite Es' in E. by simplify_eq. }
    by eapply set_number_follows.
Qed.

Lemma fromString_other (T : Ty) val x r y :
  ConfigVar.fromString (FromStr (Other T)) (call (Other T)) val x = (r, y) → y.2.1 = x.2.1.
Proof.
  unfold ConfigVar.fromString, mbind, st_bind, lift. destruct (FromStr (Other T) val) as [v| | | |]; cbn;
    try by intros [= <- <-].
  destruct (ConfigVar.setValue _ _ _) as [z x'] eqn:E. apply setValue_other in E.
  destruct z; intros; by simplify_eq.
Qed.

(** Reading a number from text sets it or leaves everything as it is. *)
Lemma fromString_num val (o : numvar) (w : W (W' := W')) : careful (ConfigVar.m_cbs o) →
  ∃ r v w', ConfigVar.fromString (T := Z) (Cb := limit + CbNum) (FromStr U64) (call U64) val (o, w)
            = (r, (ConfigVar.set_val v o, w')) ∧ number_set o v w w'.
Proof.
  intros Hc. unfold ConfigVar.fromString, mbind, st_bind, lift.
  destruct (FromStr U64 val) as [v| | | |] eqn:Ef.
  1: destruct (setValue_num v o w Hc) as (z & v' & w' & E & Hw); rewrite E;
     destruct z; by eexists _, v', w'.
  all: eexists _, (ConfigVar.m_val o), w; split; [by destruct o|]; by apply number_kept.
Qed.

Lemma Config_fromString_keeps p val : keeps (Config.fromString Val Cb FromStr call p val).
Proof.
  intros s r s' Hs E. unfold Config.fromString, Config.on_var in E.
  destruct (vars s !! p) as [[[T|] o]|] eqn:Hp; [| |by simplify_eq]; cbn [Config.type_of Config.var] in E.
  - destruct (ConfigVar.fromString _ _ _ _) as [z [o' w']] eqn:Es. apply fromString_other in Es. simplify_eq.
    apply set_other_follows; [done| |done]. unfold num_var. rewrite Hp. apply cast_other.
  - assert (num_var s p = Some o) as Ho by (unfold num_var; rewrite Hp; apply cast_same).
    destruct (fromString_num val o (Config.world Val Cb s)) as (z & v & w' & Es & Hw); [by apply (fol_quiet _ Hs p)|].
    match type of E with context [@ConfigVar.fromString ?T ?C ?d ?f ?w ?c ?x ?st] =>
      assert (@ConfigVar.fromString T C d f w c x st = (z, (ConfigVar.set_val v o, w'))) as Es' by exact Es
    end.
    rewrite Es' in E. simplify_eq. by eapply set_number_follows.
Qed.

Lemma load_members_keeps (ms : list (list byte * Node)) : keeps (Config.load_members Val Cb FromStr call ms).
Proof.
  induction ms as [|[k n] ms IH]; cbn [Config.load_members]; [by apply keeps_pure|].
  apply keeps_bind; [|done]. unfold Config.load_member. cbn [fst snd].
  destruct k as [|c k]; [by apply keeps_pure|]. apply keeps_bind; [by apply keeps_pure|]. intros s.
  destruct (Config.LookupBase _ _ _ _); [|by apply keeps_pure].
  apply keeps_bind; [|intros ?; by apply keeps_pure]. destruct (IsScalar n); apply Config_fromString_keeps.
Qed.

Lemma Config_LoadFromYaml_keeps fuel (root : Node) : keeps (Config.LoadFromYaml Val Cb FromStr call fuel root).
Proof. apply keeps_bind; [by apply keeps_pure|]. intros ms. apply load_members_keeps. Qed.

(** A variable that is new has no callbacks. *)
Lemma Lookup_keeps T name v d addr s r s' :
  follows s → vars s !! addr = None → Config.Lookup Val Cb T name v d addr s = (r, s') → follows s'.
Proof.
  intros Hs Hf E. destruct (datas s !! name) as [p|] eqn:Hd.
  { unfold Config.Lookup, mbind, st_bind, get in E. rewrite Hd in E. unfold lift, deref in E.
    destruct (vars s !! p); [|by simplify_eq]. unfold mret, st_ret in E. by simplify_eq. }
  rewrite Lookup_new in E by done. destruct (valid_name name); simplify_eq; [|done].
  destruct Hs as [Hown Hcbs Hquiet Hids].
  assert (∀ q, num_var (Config.set_datas Val Cb (<[name:=addr]> (datas s))
      (Config.set_var Val Cb addr (Config.Any Val Cb T (ConfigVar.make name v d)) (Config.world Val Cb s) s)) q
    = if decide (q = addr) then Config.cast Val Cb U64 (Config.Any Val Cb T (ConfigVar.make name v d)) else num_var s q) as Hn
    by (intros q; apply num_var_insert).
  assert (∀ o, Config.cast Val Cb U64 (Config.Any Val Cb T (ConfigVar.make name v d)) = Some o → ConfigVar.m_cbs o = []) as Hnew.
  { intros o Ho. destruct T as [T|]; [by rewrite cast_other in Ho|]. rewrite cast_same in Ho. by simplify_eq. }
  split.
  - destruct Hown as (q & oq & Hq & Ho & Hm & Hv). exists q, oq. rewrite Hn. cbn [datas].
    split; [cbn; rewrite lookup_insert_ne; [done|congruence]|].
    rewrite decide_False; [done|]. intros ->. unfold num_var in Ho. by rewrite Hf in Ho.
  - intros q oq. rewrite Hn. case_decide; [intros Ho; by rewrite (Hnew _ Ho)|]. intros Ho Hm. cbn.
    pose proof (Hcbs _ _ Ho Hm). rewrite lookup_insert_ne; [done|congruence].
  - intros q oq. rewrite Hn. case_decide; [intros Ho; by rewrite (Hnew _ Ho)|]. apply Hquiet.
  - intros q oq. rewrite Hn. case_decide; [intros Ho; rewrite (Hnew _ Ho); constructor|]. apply Hids.
Qed.

(** ** Callbacks *)

Lemma mine_app l' cbs cbs' : mine l' (cbs ++ cbs') = mine l' cbs || mine l' cbs'.
Proof. induction cbs as [|[id [l0|cb]] cbs IH]; cbn; [done|by rewrite IH, orb_assoc|done]. Qed.

(** The state after a callback was added: it comes last in its variable. *)
Definition added (p : Z) (o : numvar) (id : Z) (cb : limit + CbNum) s : state :=
  Config.mk Val Cb (datas s)
    (<[p := Config.Any Val Cb U64 (ConfigVar.set_cbs (ConfigVar.m_cbs o ++ [(id, cb)]) o : ConfigVar.t (Val U64) (Cb U64))]> (vars s))
    (<[U64 := id]> (Config.s_fun_id Val Cb s)) (Config.world Val Cb s).

Lemma addListener_num p (o : numvar) (cb : limit + CbNum) s :
  num_var s p = Some o → 0 <= counter s → counter s + 1 < 2 ^ 64 →
  Forall (λ i, i.1 <= counter s) (ConfigVar.m_cbs o) →
  Config.addListener Val Cb U64 p cb s = (Ret (counter s + 1), added p o (counter s + 1) cb s).
Proof.
  intros Hp H0' Hlt Hids. unfold Config.addListener, gets, mbind, st_bind, Config.on_typed.
  change (vars s !! p ≫= Config.cast Val Cb U64) with (num_var s p). rewrite Hp. cbn [fst snd].
  unfold ConfigVar.addListener. change (default 0 (Config.s_fun_id Val Cb s !! U64)) with (counter s).
  rewrite (uwrap_small 64 (counter s + 1)) by (unfold fits_u; lia).
  assert (Forall (λ i, i.1 < counter s + 1) (ConfigVar.m_cbs o)) as Hl.
  { eapply Forall_impl; [exact Hids|]. intros i Hi. cbn in *. lia. }
  pose proof (assign_last _ cb _ Hl) as Ha. unfold added. rewrite <- Ha. reflexivity.
Qed.

Lemma num_var_added p o id cb s q :
  num_var (added p o id cb s) q
  = if decide (q = p) then Some (ConfigVar.set_cbs (ConfigVar.m_cbs o ++ [(id, cb)]) o) else num_var s q.
Proof.
  unfold num_var, added. cbn. case_decide; subst; simplify_map_eq; [apply cast_same|done].
Qed.
Lemma counter_added p o id cb s : counter (added p o id cb s) = id.
Proof. unfold counter, added. cbn. by rewrite lookup_insert_eq. Qed.

Lemma added_ids p o cb s q oq :
  (∀ p o, num_var s p = Some o → Forall (λ i, i.1 <= counter s) (ConfigVar.m_cbs o)) →
  num_var s p = Some o → num_var (added p o (counter s + 1) cb s) q = Some oq →
  Forall (λ i, i.1 <= counter (added p o (counter s + 1) cb s)) (ConfigVar.m_cbs oq).
Proof.
  intros Hids Hp. rewrite num_var_added, counter_added. case_decide; subst.
  - intros [= <-]. cbn. apply Forall_app. split; [|by repeat constructor].
    eapply Forall_impl; [exact (Hids p o Hp)|]. intros i Hi. cbn in *. lia.
  - intros Hq. eapply Forall_impl; [exact (Hids q oq Hq)|]. intros i Hi. cbn in *. lia.
Qed.

Lemma addListener_keeps p (cb : CbNum) s r s' :
  follows s → 0 <= counter s → counter s + 1 < 2 ^ 64 →
  (datas s !! limit_name l = Some p → quiet (inr cb)) →
  Config.addListener Val Cb U64 p (inr cb) s = (r, s') → follows s'.
Proof.
  intros Hs H0' Hlt Hq0 E. destruct (num_var s p) as [o|] eqn:Hp.
  2:{ unfold Config.addListener, gets, mbind, st_bind, Config.on_typed in E.
      change (vars s !! p ≫= Config.cast Val Cb U64) with (num_var s p) in E. rewrite Hp in E. by simplify_eq. }
  rewrite (addListener_num p o) in E by (try done; by apply (fol_ids _ Hs p)). simplify_eq.
  destruct Hs as [Hown Hcbs Hquiet Hids]. split.
  - destruct Hown as (q & oq & Hd & Hq & Hm & Hv). exists q. setoid_rewrite num_var_added.
    destruct (decide (q = p)) as [->|Hne]; [|by exists oq]. simplify_eq. eexists.
    split; [done|]. split; [done|]. cbn. by rewrite mine_app, Hm.
  - intros q oq. rewrite num_var_added. case_decide; [|by apply Hcbs]. subst. intros [= <-]. cbn.
    rewrite mine_app. cbn. rewrite orb_false_r. by apply Hcbs.
  - intros q oq. rewrite num_var_added. case_decide; [|by apply Hquiet]. subst. intros [= <-]. cbn.
    unfold careful. rewrite mine_app. cbn [mine]. rewrite orb_false_r. intros Hm. apply Forall_app.
    split; [by apply (Hquiet p o)|]. constructor; [|done]. by apply Hq0, (Hcbs p o).
  - intros q oq. by apply added_ids.
Qed.

Lemma mine_erase key cbs : (key, inl l) ∉ cbs → mine l (map_erase Z.ltb key cbs) = mine l cbs.
Proof.
  intros Hn. apply eq_true_iff_eq. rewrite !mine_true. unfold map_erase.
  split; intros [id Hi]; exists id; [by apply list_elem_of_filter in Hi as [_ ?]|].
  apply list_elem_of_filter. split; [|done]. cbn. destruct (equivb Z.ltb key id) eqn:E; [|done].
  exfalso. apply Hn. apply andb_true_iff in E. replace key with id by lia. done.
Qed.

Lemma mine_erased key cbs : mine l (map_erase Z.ltb key cbs) = true → mine l cbs = true.
Proof. rewrite !mine_true. intros [id Hi]. exists id. by apply list_elem_of_filter in Hi as [_ ?]. Qed.

(** The callbacks of a number are replaced by some of them, that of the size among them if it was. *)
Lemma fewer_callbacks p o cbs s :
  follows s → num_var s p = Some o → (∀ i, i ∈ cbs → i ∈ ConfigVar.m_cbs o) →
  mine l cbs = mine l (ConfigVar.m_cbs o) →
  follows (Config.set_var Val Cb p (Config.Any Val Cb U64 (ConfigVar.set_cbs cbs o : ConfigVar.t (Val U64) (Cb U64)))
             (Config.world Val Cb s) s).
Proof.
  intros [Hown Hcbs Hquiet Hids] Hp Hsub Hmine. set (o' := ConfigVar.set_cbs cbs o : numvar).
  assert (∀ q, num_var (Config.set_var Val Cb p (Config.Any Val Cb U64 (o' : ConfigVar.t (Val U64) (Cb U64))) (Config.world Val Cb s) s) q
    = if decide (q = p) then Some o' else num_var s q) as Hn.
  { intros q. rewrite num_var_insert. case_decide; [apply cast_same|done]. }
  split.
  - destruct Hown as (q & oq & Hd & Hq & Hm & Hv). exists q. setoid_rewrite Hn.
    destruct (decide (q = p)) as [->|Hne]; [|by exists oq]. simplify_eq. exists o'. split; [done|]. split; [done|].
    split; [by rewrite <- Hm|done].
  - intros q oq. rewrite Hn. case_decide; [|by apply Hcbs]. subst. intros [= <-] Hm.
    apply (Hcbs p o Hp). by rewrite <- Hmine.
  - intros q oq. rewrite Hn. case_decide; [|by apply Hquiet]. subst. intros [= <-]. unfold careful. cbn.
    rewrite Hmine. intros Hm. pose proof (Hquiet p o Hp Hm) as Hq. rewrite Forall_forall in Hq |- *.
    intros i Hi. by apply Hq, Hsub.
  - intros q oq. rewrite Hn. case_decide; [|by apply Hids]. subst. intros [= <-].
    pose proof (Hids p o Hp) as Hi. rewrite Forall_forall in Hi |- *. intros i Hin. apply Hi. by apply Hsub.
Qed.

Lemma delListener_keeps p key s r s' :
  follows s → (∀ o, num_var s p = Some o → (key, inl l) ∉ ConfigVar.m_cbs o) →
  Config.delListener Val Cb U64 p key s = (r, s') → follows s'.
Proof.
  intros Hs Hkey E. unfold Config.delListener, Config.on_typed in E.
  change (vars s !! p ≫= Config.cast Val Cb U64) with (num_var s p) in E.
  destruct (num_var s p) as [o|] eqn:Hp; [|by simplify_eq]. cbn in E. simplify_eq.
  apply (fewer_callbacks p o); [done|done| |].
  - by intros i [_ Hi]%list_elem_of_filter.
  - by apply mine_erase, Hkey.
Qed.

Lemma clearListener_keeps p s r s' :
  follows s → datas s !! limit_name l ≠ Some p →
  Config.clearListener Val Cb U64 p s = (r, s') → follows s'.
Proof.
  intros Hs Hd E. unfold Config.clearListener, Config.on_typed in E.
  change (vars s !! p ≫= Config.cast Val Cb U64) with (num_var s p) in E.
  destruct (num_var s p) as [o|] eqn:Hp; [|by simplify_eq]. cbn in E. simplify_eq.
  apply (fewer_callbacks p o); [done|done| |].
  - by intros i ?%elem_of_nil.
  - destruct (mine l (ConfigVar.m_cbs o)) eqn:Hm; [|done]. by apply (fol_cbs _ Hs p) in Hm.
Qed.

Lemma on_other_keeps (T : Ty) (A : Type) p (m : ST (ConfigVar.t (Val (Other T)) (Cb (Other T)) * W (W' := W')) A) :
  (∀ x, (m x).2.2.1 = x.2.1) → keeps (Config.on_typed Val Cb (Other T) p m).
Proof.
  intros Hm s r s' Hs E. unfold Config.on_typed in E.
  destruct (vars s !! p ≫= Config.cast Val Cb (Other T)) as [o|] eqn:Hp; [|by simplify_eq].
  pose proof (Hm (o, Config.world Val Cb s)) as Hw. destruct (m _) as [z [o' w']]. simplify_eq.
  apply set_other_follows; [done| |exact Hw]. apply bind_Some in Hp as (a & Ha & ->%cast_spec).
  unfold num_var. rewrite Ha. apply cast_other.
Qed.

Lemma counted_keeps (T : Ty) (n : Z) :
  keeps (modify (fun s => Config.mk Val Cb (datas s) (vars s) (<[Other T := n]> (Config.s_fun_id Val Cb s)) (Config.world Val Cb s))).
Proof.
  intros s r s' [Hown Hcbs Hquiet Hids] E. unfold modify in E. simplify_eq. split; [exact Hown|exact Hcbs|exact Hquiet|].
  intros p o Hp. unfold counter. cbn. rewrite lookup_insert_ne by done. exact (Hids p o Hp).
Qed.

Lemma addListener_other_keeps (T : Ty) p (cb : Cb (Other T)) : keeps (Config.addListener Val Cb (Other T) p cb).
Proof.
  apply keeps_bind; [by apply keeps_pure|]. intros n. apply keeps_bind; [by apply on_other_keeps|].
  intros id. apply keeps_bind; [apply counted_keeps|]. intros _. by apply keeps_pure.
Qed.

Lemma other_step_follows s s' : other_step s s' → follows s → follows s'.
Proof.
  intros Hstep Hs. destruct Hstep as [T name v d addr s r s' Hf E|T p v s r s' E|p val s r s' E|fuel root s r s' E
    |p cb s r s' H0' Hlt Hq E|p key s r s' Hkey E|p s r s' Hd E|T p cb s r s' E|T p key s r s' E|T p s r s' E|s w'].
  - by eapply Lookup_keeps.
  - by eapply Config_setValue_keeps.
  - by eapply Config_fromString_keeps.
  - by eapply Config_LoadFromYaml_keeps.
  - by eapply addListener_keeps.
  - by eapply delListener_keeps.
  - by eapply clearListener_keeps.
  - exact (addListener_other_keeps T p cb s r s' Hs E).
  - refine (on_other_keeps T _ p _ _ s r s' Hs E). done.
  - refine (on_other_keeps T _ p _ _ s r s' Hs E). done.
  - destruct Hs as [Hown Hcbs Hquiet Hids]. by split.
Qed.

End one_size.

(** ** The initialisation *)

Lemma limit_name_valid l : valid_name (limit_name l) = true.
Proof. by destruct l. Qed.
#[export] Instance limit_name_inj : Inj (=) (=) limit_name.
Proof. intros l l' E. by destruct l, l'. Qed.

(** Nobody has used the names or the addresses, and there is room for four more callbacks. *)
Record untouched (addr : limit → Z) s : Prop := {
  unt_names l : datas s !! limit_name l = None;
  unt_addrs l : vars s !! addr l = None;
  unt_inj : Inj (=) (=) addr;
  unt_cbs p o l : num_var s p = Some o → mine l (ConfigVar.m_cbs o) = false;
  unt_ids p o : num_var s p = Some o → Forall (λ i, i.1 <= counter s) (ConfigVar.m_cbs o);
  unt_room : 0 <= counter s ∧ counter s + 4 < 2 ^ 64;
}.

(** The variables of [ds] are declared, the copies of [cs] are made, the callbacks of [ls] are there. *)
Record reached (addr : limit → Z) (ds cs ls : list limit) s : Prop := {
  rea_var l : l ∈ ds → datas s !! limit_name l = Some (addr l)
    ∧ ∃ o, num_var s (addr l) = Some o ∧ ConfigVar.m_val o = limit_default l
      ∧ mine l (ConfigVar.m_cbs o) = bool_decide (l ∈ ls) ∧ Forall (λ i, quiet i.2) (ConfigVar.m_cbs o);
  rea_names l : l ∉ ds → datas s !! limit_name l = None ∧ vars s !! addr l = None;
  rea_copy l : l ∈ cs → size_of l (sizes_of s) = limit_default l;
  rea_cbs p o l : num_var s p = Some o → mine l (ConfigVar.m_cbs o) = true → l ∈ ls ∧ p = addr l;
  rea_ids p o : num_var s p = Some o → Forall (λ i, i.1 <= counter s) (ConfigVar.m_cbs o);
  rea_room : 0 <= counter s ∧ counter s + (4 - Z.of_nat (length ls)) < 2 ^ 64;
}.

Lemma untouched_reached addr s : untouched addr s → reached addr [] [] [] s.
Proof.
  intros [Hn Ha Hi Hc Hd Hr]. split; try done.
  - by intros l ?%elem_of_nil.
  - by intros l ?%elem_of_nil.
  - intros p o l Hp Hm. by rewrite (Hc _ _ _ Hp) in Hm.
Qed.

Lemma declare_reached addr l ds s : Inj (=) (=) addr → l ∉ ds → reached addr ds [] [] s →
  ∃ s', declare Val' Cb' l (addr l) s = (Ret (Some (addr l)), s') ∧ reached addr (l :: ds) [] [] s'.
Proof.
  intros Hinj Hl [Hv Hn Hc Hm Hi Hr]. destruct (Hn l Hl) as [Hname Haddr].
  unfold declare. rewrite Lookup_new, limit_name_valid by done. eexists. split; [done|].
  set (a := Config.Any Val Cb U64 (ConfigVar.make (limit_name l) (limit_default l) (limit_text l))).
  assert (∀ q, num_var (Config.set_datas Val Cb (<[limit_name l := addr l]> (datas s))
      (Config.set_var Val Cb (addr l) a (Config.world Val Cb s) s)) q
    = if decide (q = addr l) then Config.cast Val Cb U64 a else num_var s q) as Hnv
    by (intros q; apply num_var_insert).
  unfold a in *. rewrite cast_same in Hnv. split; cbn [datas vars Config.datas Config.vars Config.set_datas Config.set_var].
  - intros l' [->|Hl']%elem_of_cons.
    + rewrite lookup_insert_eq, Hnv, decide_True by done. split; [done|]. by eexists.
    + assert (l' ≠ l) as Hne by (intros ->; done). destruct (Hv l' Hl') as (Hd & o & Ho & Hrest).
      rewrite lookup_insert_ne by (intros E; by apply limit_name_inj in E). split; [done|].
      exists o. rewrite Hnv, decide_False by (intros E; by apply Hinj in E). done.
  - intros l' [Hne Hl']%not_elem_of_cons. destruct (Hn l' Hl').
    rewrite !lookup_insert_ne by (intros E; first [apply limit_name_inj in E|apply Hinj in E]; congruence). done.
  - by intros l' ?%elem_of_nil.
  - intros p o l'. rewrite Hnv. case_decide; [by intros [= <-]|apply Hm].
  - intros p o. rewrite Hnv. case_decide; [by intros [= <-]; constructor|apply Hi].
  - exact Hr.
Qed.

Lemma declare_all_reached addr ls : ∀ ds s, Inj (=) (=) addr → NoDup (ls ++ ds) → reached addr ds [] [] s →
  ∃ s', declare_all Val' Cb' ls addr s = (Ret ((λ l, (l, addr l)) <$> ls), s') ∧ reached addr (reverse ls ++ ds) [] [] s'.
Proof.
  induction ls as [|l ls IH]; intros ds s Hinj Hnd Hs; cbn [declare_all]; [by exists s|].
  apply NoDup_cons in Hnd as [Hl Hnd].
  destruct (declare_reached addr l ds s) as (s1 & E1 & Hs1); [done|set_solver|done|].
  unfold mbind, st_bind. rewrite E1. cbn [lift deref]. unfold lift, deref.
  destruct (IH (l :: ds) s1) as (s2 & E2 & Hs2); [done|by rewrite (Permutation_app_comm ls (l :: ds)); cbn; rewrite (Permutation_app_comm ds ls); apply NoDup_cons|done|].
  rewrite E2. exists s2. split; [done|]. rewrite reverse_cons, <- app_assoc. exact Hs2.
Qed.

Lemma copy_reached addr l cs ds s : l ∈ ds → reached addr ds cs [] s →
  ∃ s', copy Val' Cb' l (addr l) s = (Ret tt, s') ∧ reached addr ds (l :: cs) [] s'.
Proof.
  intros Hl [Hv Hn Hc Hm Hi Hr]. destruct (Hv l Hl) as (Hd & o & Ho & Hval & _ & Hquiet).
  unfold copy, mbind, st_bind, Config.getValue, Config.on_typed.
  change (vars s !! addr l ≫= Config.cast Val Cb U64) with (num_var s (addr l)). rewrite Ho. cbn.
  eexists. split; [done|].
  assert (∀ q (v : Z), num_var (Config.mk Val Cb (datas s)
      (<[addr l := Config.Any Val Cb U64 (o : ConfigVar.t (Val U64) (Cb U64))]> (vars s)) (Config.s_fun_id Val Cb s)
      (set_size l v (Config.world Val Cb s).1, (Config.world Val Cb s).2)) q = num_var s q) as Hnv.
  { intros q v. unfold num_var at 1. cbn. destruct (decide (q = addr l)) as [->|Hne]; simplify_map_eq; [|done].
    rewrite Ho. apply cast_same. }
  unfold ConfigVar.getValue. split; cbn [datas vars Config.datas Config.vars].
  - intros l' Hl'. setoid_rewrite Hnv. by apply Hv.
  - intros l' Hl'. destruct (Hn l' Hl') as [Hn1 Hn2]. split; [done|]. cbn. rewrite lookup_insert_ne; [done|].
    intros E. unfold num_var in Ho. rewrite E, Hn2 in Ho. done.
  - intros l' Hl'. unfold sizes_of. cbn. rewrite size_of_set. case_bool_decide as E; [subst; done|].
    apply Hc. by apply elem_of_cons in Hl' as [?|?]; [congruence|].
  - intros p o' l'. rewrite Hnv. apply Hm.
  - intros p o'. rewrite Hnv. apply Hi.
  - exact Hr.
Qed.

Lemma listen_reached addr l ds cs ls s : Inj (=) (=) addr → l ∈ ds → l ∉ ls → (length ls < 4)%nat →
  reached addr ds cs ls s →
  ∃ s', listen Val' Cb' l (addr l) s = (Ret tt, s') ∧ reached addr ds cs (l :: ls) s'.
Proof.
  intros Hinj Hl Hls Hlen [Hv Hn Hc Hm Hi Hr]. destruct (Hv l Hl) as (Hd & o & Ho & Hval & _ & Hquiet).
  unfold listen. eexists. split.
  { unfold mbind, st_bind. rewrite (addListener_num (addr l) o (inl l)) by (try done; first [lia|by apply (Hi (addr l))]).
    done. }
  split.
  - intros l' Hl'. destruct (Hv l' Hl') as (Hd' & o' & Ho' & Hval' & Hm' & Hquiet'). split; [done|].
    setoid_rewrite num_var_added. destruct (decide (l' = l)) as [->|Hne].
    + rewrite decide_True by done. eexists. split; [done|]. split; [done|]. cbn. rewrite mine_app. cbn.
      rewrite bool_decide_true by done. rewrite orb_true_r. split; [symmetry; apply bool_decide_eq_true; left|].
      apply Forall_app. split; [done|by repeat constructor].
    + rewrite decide_False by (intros E; by apply Hinj in E). exists o'. split; [done|]. split; [done|].
      split; [|done]. rewrite Hm'. apply bool_decide_ext. rewrite elem_of_cons. naive_solver.
  - intros l' Hl'. destruct (Hn l' Hl') as [Hn1 Hn2]. split; [done|]. cbn. rewrite lookup_insert_ne; [done|].
    intros E%Hinj. congruence.
  - exact Hc.
  - intros p o' l'. rewrite num_var_added. case_decide as Hp.
    + intros [= <-]. cbn. rewrite mine_app. cbn. rewrite orb_false_r, orb_true_iff, bool_decide_eq_true.
      intros [Hml| ->]; [|by split; [left|]]. destruct (Hm _ _ _ Ho Hml) as [Hin Ep]. subst p.
      split; [by right|done].
    + intros Hq Hml. destruct (Hm _ _ _ Hq Hml). split; [by right|done].
  - intros p o'. by apply added_ids.
  - rewrite counter_added. cbn [length]. lia.
Qed.

Lemma for_each_copy addr ls : ∀ cs ds s, (∀ l, l ∈ ls → l ∈ ds) → reached addr ds cs [] s →
  ∃ s', for_each Val' Cb' (copy Val' Cb') ((λ l, (l, addr l)) <$> ls) s = (Ret tt, s')
    ∧ reached addr ds (reverse ls ++ cs) [] s'.
Proof.
  induction ls as [|l ls IH]; intros cs ds s Hl Hs; cbn [fmap list_fmap for_each]; [by exists s|].
  destruct (copy_reached addr l cs ds s) as (s1 & E1 & Hs1); [apply Hl; left|done|].
  destruct (IH (l :: cs) ds s1) as (s2 & E2 & Hs2); [intros l' Hl'; apply Hl; by right|done|].
  exists s2. unfold mbind, st_bind. cbn [fst snd]. rewrite E1, E2. split; [done|].
  rewrite reverse_cons, <- app_assoc. exact Hs2.
Qed.

Lemma for_each_listen addr ks : ∀ ls ds cs s, Inj (=) (=) addr → (∀ l, l ∈ ks → l ∈ ds) → NoDup (ks ++ ls) →
  (length ks + length ls <= 4)%nat → reached addr ds cs ls s →
  ∃ s', for_each Val' Cb' (listen Val' Cb') ((λ l, (l, addr l)) <$> ks) s = (Ret tt, s')
    ∧ reached addr ds cs (reverse ks ++ ls) s'.
Proof.
  induction ks as [|l ks IH]; intros ls ds cs s Hinj Hl Hnd Hlen Hs; cbn [fmap list_fmap for_each]; [by exists s|].
  apply NoDup_cons in Hnd as [Hlk Hnd]. cbn [length] in Hlen.
  destruct (listen_reached addr l ds cs ls s) as (s1 & E1 & Hs1); [done|apply Hl; left|set_solver|lia|done|].
  destruct (IH (l :: ls) ds cs s1) as (s2 & E2 & Hs2); [done|intros l' Hl'; apply Hl; by right| |cbn; lia|done|].
  { rewrite <- Permutation_middle. by apply NoDup_cons. }
  exists s2. unfold mbind, st_bind. cbn [fst snd]. rewrite E1, E2. split; [done|].
  rewrite reverse_cons, <- app_assoc. exact Hs2.
Qed.

Lemma limits_all l : l ∈ limits.
Proof. destruct l; apply (bool_decide_unpack _); vm_compute; exact I. Qed.

Lemma init_follows addr s : untouched addr s →
  ∃ s', init Val' Cb' addr s = (Ret tt, s') ∧ ∀ l, follows l s'.
Proof.
  intros Hu. assert (NoDup limits) as Hnd by (apply (bool_decide_unpack _); vm_compute; exact I).
  assert (∀ l, l ∈ reverse limits ++ []) as Hall
    by (intros l; rewrite app_nil_r; apply elem_of_reverse, limits_all).
  destruct (declare_all_reached addr limits [] s) as (s1 & E1 & Hs1);
    [apply Hu|by rewrite app_nil_r|by apply untouched_reached|].
  destruct (for_each_copy addr limits [] (reverse limits ++ []) s1) as (s2 & E2 & Hs2); [by intros|done|].
  destruct (for_each_listen addr limits [] (reverse limits ++ []) (reverse limits ++ []) s2) as (s3 & E3 & Hs3);
    [apply Hu|by intros|by rewrite app_nil_r|simpl; lia|exact Hs2|].
  exists s3. unfold init, mbind, st_bind. rewrite E1, E2, E3. split; [done|].
  destruct Hs3 as [Hv Hn Hc Hm Hi Hr]. intros l. split.
  - destruct (Hv l (Hall l)) as (Hd & o & Ho & Hval & Hml & _). exists (addr l), o.
    split; [done|]. split; [done|]. rewrite Hml, (Hc l (Hall l)), Hval. split; [by apply bool_decide_eq_true|done].
  - intros p o Hp Hml. destruct (Hm p o l Hp Hml) as [_ ->]. apply (Hv l (Hall l)).
  - intros p o Hp Hml. destruct (Hm p o l Hp Hml) as [_ ->]. destruct (Hv l (Hall l)) as (_ & o' & Ho & _ & _ & Hq).
    by assert (o' = o) as -> by congruence.
  - exact Hi.
Qed.

(** ** Why the callback of a size has to be left alone *)

(** Callbacks that always fail. *)
Definition fails (cb : CbNum) : Prop := ∀ ov nv w, (call_num cb ov nv w).1 ≠ Ret tt.

(** A callback that fails after the copy was made: the copy stays. *)
Lemma notify_fails l cbs id cb ov nv (o : numvar) : Forall (λ i, quiet i.2) cbs → mine l cbs = true → fails cb →
  ∀ w : W (W' := W'), ∃ r w',
    ConfigVar.notify (T := Z) (Cb := limit + CbNum) (call U64) (cbs ++ [(id, inr cb)]) ov nv (o, w) = (r, (o, w'))
    ∧ r ≠ Ret tt ∧ size_of l w'.1 = nv.
Proof.
  intros Hq Hm Hf w. destruct (notify_quiet l cbs ov nv o Hq w) as (w' & E & Hw). rewrite Hm in Hw.
  assert (∀ a b (x : numvar * W (W' := W')),
    ConfigVar.notify (T := Z) (Cb := limit + CbNum) (call U64) (a ++ b) ov nv x
    = (ConfigVar.notify (T := Z) (Cb := limit + CbNum) (call U64) a ov nv;;
       ConfigVar.notify (T := Z) (Cb := limit + CbNum) (call U64) b ov nv) x) as Happ.
  { clear. induction a as [|i a IH]; intros b x; [done|]. cbn [app ConfigVar.notify]. unfold mbind, st_bind.
    destruct (Limits.callback _ _ _ _ _ _ _ _ _) as [r w']. destruct r; [|done..]. apply IH. }
  rewrite Happ. unfold mbind, st_bind. rewrite E. cbn [ConfigVar.notify]. unfold mbind, st_bind. cbn [fst snd Limits.callback].
  pose proof (Hf ov nv w'.2) as Hr. destruct (call_num cb ov nv w'.2) as [r w2]. cbn in Hr.
  destruct r as [[]| | | |]; [done|..]; by eexists _, (w'.1, w2).
Qed.

(** The variable of a size without its callback: the copy stays behind. *)
Lemma cleared_stays_behind l p (o : numvar) v s : num_var s p = Some o →
  ∃ s' o', (Config.clearListener Val Cb U64 p;; Config.setValue Val Cb call U64 p v) s = (Ret tt, s')
    ∧ num_var s' p = Some o' ∧ ConfigVar.getValue o' = v ∧ size_of l (sizes_of s') = size_of l (sizes_of s).
Proof.
  intros Hp. unfold Config.clearListener, Config.setValue, mbind, st_bind. unfold Config.on_typed at 1.
  change (vars s !! p ≫= Config.cast Val Cb U64) with (num_var s p). rewrite Hp. cbn.
  match goal with |- context [Config.on_typed Val Cb U64 p _ ?s] => set (s1 := s) end.
  assert (num_var s1 p = Some (ConfigVar.set_cbs [] o)) as Hp1.
  { unfold s1. rewrite num_var_insert, decide_True by done. apply cast_same. }
  unfold Config.on_typed. change (vars s1 !! p ≫= Config.cast Val Cb U64) with (num_var s1 p). rewrite Hp1.
  unfold ConfigVar.setValue, gets, mbind, st_bind. cbn [fst snd].
  case_decide as Hv; cbn; (eexists _, _; split; [done|]; split; [rewrite num_var_insert, decide_True by done; apply cast_same|by split]).
Qed.

(** The variable of a size with a callback that fails: the copy runs ahead. *)
Lemma failing_runs_ahead l p (o : numvar) cb v s :
  follows l s → datas s !! limit_name l = Some p → num_var s p = Some o → fails cb → v ≠ ConfigVar.getValue o →
  0 <= counter s → counter s + 1 < 2 ^ 64 →
  ∃ r s' o', (_ ← Config.addListener Val Cb U64 p (inr cb); Config.setValue Val Cb call U64 p v) s = (r, s')
    ∧ r ≠ Ret tt ∧ num_var s' p = Some o' ∧ ConfigVar.getValue o' = ConfigVar.getValue o ∧ size_of l (sizes_of s') = v.
Proof.
  intros Hs Hd Hp Hf Hv H0' Hlt.
  assert (mine l (ConfigVar.m_cbs o) = true) as Hm.
  { destruct (fol_own _ _ Hs) as (q & oq & Hdq & Hq & Hmq & _). congruence. }
  unfold mbind, st_bind. rewrite (addListener_num p o) by (try done; by apply (fol_ids _ _ Hs p)).
  set (s1 := added p o (counter s + 1) (inr cb) s).
  assert (num_var s1 p = Some (ConfigVar.set_cbs (ConfigVar.m_cbs o ++ [(counter s + 1, inr cb)]) o)) as Hp1
    by (unfold s1; by rewrite num_var_added, decide_True).
  unfold Config.setValue, Config.on_typed. change (vars s1 !! p ≫= Config.cast Val Cb U64) with (num_var s1 p).
  rewrite Hp1. unfold ConfigVar.setValue, gets, mbind, st_bind. cbn [fst snd].
  rewrite decide_False by exact Hv.
  destruct (notify_fails l (ConfigVar.m_cbs o) (counter s + 1) cb (ConfigVar.m_val o) v
    (ConfigVar.set_cbs (ConfigVar.m_cbs o ++ [(counter s + 1, inr cb)]) o) (fol_quiet _ _ Hs p o Hp Hm) Hm Hf (Config.world Val Cb s1))
    as (r & w' & E & Hr & Hw).
  match goal with |- context [@ConfigVar.notify ?T ?C ?w ?c ?x ?ov ?nv ?st] =>
    assert (@ConfigVar.notify T C w c x ov nv st = (r, (ConfigVar.set_cbs (ConfigVar.m_cbs o ++ [(counter s + 1, inr cb)]) o, w'))) as E' by exact E
  end.
  rewrite E'. destruct r as [[]| | | |]; [done|..];
    (eexists _, _, _; split; [done|]; split; [done|]; split; [rewrite num_var_insert, decide_True by done; apply cast_same|by split]).
Qed.

(** What the program asks for. *)
Definition getter (l : limit) (z : sizes) : Z :=
  match l with
  | RequestBuffer => GetHttpRequestBufferSize z
  | RequestBody => GetHttpRequestMaxBodySize z
  | ResponseBuffer => GetHttpResponseBufferSize z
  | ResponseBody => GetHttpResponseMaxBodySize z
  end.
Lemma getter_size_of l z : getter l z = size_of l z.
Proof. by destruct l. Qed.

End limits.

(** A program without variables of other types, whose callback on numbers counts its calls; a
    document sets the buffer of requests. *)
Definition count_call (cb : unit) (ov nv : Z) (w : nat) : outcome unit * nat := (Ret tt, S w).
Definition no_call (T : Empty_set) (cb old new : Empty_set) (w : nat) : outcome unit * nat := (Ret tt, w).
Definition number_of (T : num_or Empty_set) : list byte → outcome (Val (fun _ : Empty_set => Empty_set) T) :=
  match T with U64 => fun s => Ret (atoi s) | Other T => match T with end end.
Inductive page := Leaf (s : list byte) | Pages (l : list (list byte * list byte)).
#[export] Instance page_yaml : Yaml page := {
  IsScalar d := match d with Leaf _ => true | _ => false end;
  IsMap d := match d with Pages _ => true | _ => false end;
  Scalar d := match d with Leaf s => s | _ => [] end;
  pairs d := match d with Pages l => (fun kv => (Leaf kv.1, Leaf kv.2)) <$> l | _ => [] end;
  elements_of _ := [];
  emit _ := [];
  Load s := Ret (Leaf s);
  sequence _ := Leaf [];
  mapping _ := Leaf [];
}.
Definition nothing (_ : Empty_set) : Type := Empty_set.
Abbreviation small := (Config.t (Val nothing) (Cb (CbNum := unit) nothing) (W := W (W' := nat))).
Definition place_of (l : limit) : Z :=
  match l with RequestBuffer => 1 | RequestBody => 2 | ResponseBuffer => 3 | ResponseBody => 4 end.
Definition empty : small := Config.start (Val nothing) (Cb nothing) (no_sizes, 0%nat).
Definition ready_sizes : small := (init nothing nothing place_of empty).2.
Definition eight_k : page := Pages [(lit "http.request.buffer_size", lit "8192")].
Definition reloaded : small :=
  (Config.LoadFromYaml (Val nothing) (Cb nothing) number_of (callback nothing nothing count_call no_call) 3 eight_k ready_sizes).2.

Lemma empty_untouched : untouched (Val' := nothing) (Cb' := nothing) place_of empty.
Proof.
  split; try done.
  - intros l l' E. by destruct l, l'.
Qed.

