(* ===== verification/Util.v ===== *)
(** * The wrappers of the C library (sylar/util.h, sylar/util.cpp)

    Backtraces, times, formatting and wide strings: what the library answers is an argument, or the
    class [Locale] over a state that has the locale. The clock, percent-encoding and trimming are
    in [Timers] and [StringUtil]. *)

From S2P Require Import Prelude CString Scheduler.

(** [GetThreadId()] and [GetFiberId()]: the number of the fiber is cut to 32 bits. *)
Definition GetThreadId (gettid : Z) : Z := gettid.
Definition GetFiberId {Cb} (tid : Z) : ST (Fiber.world Cb) Z := id ← Fiber.GetFiberId tid; mret (u32 id).

(** [backtrace(array, size)] gives at most [size] addresses, [backtrace_symbols] a text for each, or
    a null pointer. [skip] is converted to [size_t]. *)
Section backtrace.
Context {Addr : Type} (backtrace : Z → list Addr) (backtrace_symbols : list Addr → option (list (list byte))).
Fixpoint push_from (fuel : nat) (i s : Z) (strings : option (list (list byte))) (bt : list (list byte))
    : outcome (list (list byte)) :=
  match fuel with
  | O => if i <? s then NoFuel else Ret bt
  | S fuel =>
      if i <? s then
        l ← deref strings;
        x ← deref (l !! Z.to_nat i);
        push_from fuel (i + 1) s strings (bt ++ [x])
      else Ret bt
  end.
Definition Backtrace (bt : list (list byte)) (size skip : Z) : outcome (list (list byte)) :=
  let array := backtrace size in
  let s := Z.of_nat (length array) in
  push_from (length array) (u64 skip) s (backtrace_symbols array) bt.
Definition BacktraceToString (size skip : Z) (prefix : list byte) : outcome (list byte) :=
  bt ← Backtrace [] size skip;
  Ret (concat ((fun x => prefix ++ x ++ [x0a]) <$> bt)).
End backtrace.

(** [Time2Str]: [strftime] gives nothing when the text with its zero does not fit into 64 bytes, and
    then nothing was stored that could be read. [Str2Time]. *)
Definition Time2Str {Tm} (localtime_r : Z → Tm) (strftime : list byte → Tm → Z → option (list byte))
    (ts : Z) (format : list byte) : outcome (list byte) :=
  match strftime (c_str format) (localtime_r ts) 64 with Some text => Ret text | None => Undef end.
Definition Str2Time {Tm} (strptime : list byte → list byte → option Tm) (mktime : Tm → Z) (str format : list byte) : Z :=
  match strptime str format with Some t => mktime t | None => 0 end.

(** [Format] and [Formatv]: [vasprintf] may fail. *)
Definition Formatv {Args} (vasprintf : list byte → Args → option (list byte)) (fmt : list byte) (ap : Args) : list byte :=
  default [] (vasprintf fmt ap).
Definition Format {Args} (vasprintf : list byte → Args → option (list byte)) (fmt : list byte) (args : Args) : list byte :=
  Formatv vasprintf fmt args.

(** The locale: [setlocale(LC_ALL, name)] gives the name of the locale that holds from then on, or a
    null pointer; conversions of a whole string fail for a character the locale does not have. *)
Class Locale (W : Type) := {
  setlocale : list byte → W → option (list byte) * W;
  wcstombs : list Z → W → option (list byte);
  mbstowcs : list byte → W → option (list Z);
}.
(** [ws.c_str()] as the C functions see it. *)
Fixpoint wide_c_str (s : list Z) : list Z :=
  match s with [] => [] | c :: s => if c =? 0 then [] else c :: wide_c_str s end.

Section wide.
Context {W : Type} `{Locale W}.

(** [std::string] of a null pointer throws. When a conversion fails the array has no element, and
    the text is read from it all the same. *)
Definition choose_locale (name : list byte) : ST W (option (list byte)) := fun w =>
  let '(r, w) := setlocale name w in (Ret r, w).
Definition WStringToString (ws : list Z) : ST W (list byte) :=
  l ← choose_locale [];
  str_locale ← match l with Some l => mret l | None => throw logic_error end;
  r ← gets (wcstombs (wide_c_str ws));
  str_result ← lift (match r with Some b => Ret (c_str b) | None => Undef end);
  choose_locale (c_str str_locale);;
  mret str_result.
Definition StringToWString (s : list byte) : ST W (list Z) :=
  l ← choose_locale [];
  str_locale ← match l with Some l => mret l | None => throw logic_error end;
  r ← gets (mbstowcs (c_str s));
  wstr_result ← lift (match r with Some b => Ret (wide_c_str b) | None => Undef end);
  choose_locale (c_str str_locale);;
  mret wstr_result.
End wide.

(** ** Facts *)

(** What a backtrace adds: the texts from [skip] on. *)
Lemma push_from_drop l : ∀ fuel i bt,
  (length l ≤ fuel + i)%nat → (i ≤ length l)%nat →
  push_from fuel (Z.of_nat i) (Z.of_nat (length l)) (Some l) bt = Ret (bt ++ drop i l).
Proof.
  induction fuel as [|fuel IH]; intros i bt Hf Hi; cbn [push_from].
  { rewrite drop_ge by lia. destruct (Z.of_nat i <? Z.of_nat (length l)) eqn:E; [lia|]. by rewrite app_nil_r. }
  destruct (Z.of_nat i <? Z.of_nat (length l)) eqn:E.
  - destruct (lookup_lt_is_Some_2 l i) as [x Hx]; [lia|]. cbn [deref]. rewrite bind_Ret, Nat2Z.id, Hx. cbn [deref].
    rewrite bind_Ret. replace (Z.of_nat i + 1) with (Z.of_nat (S i)) by lia. rewrite IH by lia.
    rewrite (drop_S l x i Hx). by rewrite <- app_assoc.
  - rewrite drop_ge by lia. by rewrite app_nil_r.
Qed.

Lemma Backtrace_skips {Addr} (backtrace : Z → list Addr) symbols bt size skip l :
  symbols (backtrace size) = Some l → length l = length (backtrace size) →
  0 <= skip <= Z.of_nat (length l) → skip < 2 ^ 64 →
  Backtrace backtrace symbols bt size skip = Ret (bt ++ drop (Z.to_nat skip) l).
Proof.
  intros Es El Hs Hb. unfold Backtrace. rewrite Es, <- El, uwrap_small by (unfold fits_u; lia).
  rewrite <- (Z2Nat.id skip) by lia. rewrite push_from_drop by lia. by rewrite Nat2Z.id.
Qed.

(** The locale a conversion leaves is the one of the environment, not the one it found: what
    [setlocale] returns is the name of the new one. *)
Lemma locale_not_restored {W} `{Locale W} (name : W → list byte)
    (Hset : ∀ n w, (setlocale n w).1 = Some (name (setlocale n w).2))
    (Hsame : ∀ w, name (setlocale (c_str (name w)) w).2 = name w) ws w b :
  wcstombs (wide_c_str ws) (setlocale [] w).2 = Some b →
  ∃ w', WStringToString ws w = (Ret (c_str b), w') ∧ name w' = name (setlocale [] w).2.
Proof.
  intros Hb. unfold WStringToString, choose_locale, mbind, st_bind, gets, lift, mret, st_ret.
  pose proof (Hset [] w) as E1. destruct (setlocale [] w) as [r w1]. cbn in E1, Hb |- *. subst r. rewrite Hb.
  pose proof (Hsame w1) as E2. destruct (setlocale (c_str (name w1)) w1) as [r2 w2]. cbn in E2.
  by exists w2.
Qed.
